(* ===== verification/_CoqProject ===== *)
-Q . S2P
Prelude.v
Millicode.v
Qdivrem.v
Umalloc.v
CString.v
Printf.v
Klib.v
Kgets.v
KArray.v
Bitmap.v
Queue.v
Threadlist.v
Spinlock.v
Interleave.v
Semaphore.v
LockCv.v
SynchObj.v
CatMouse.v
Coremap.v
Addrspace.v
Sched.v
SchedInv.v
SchedMig.v
Kmalloc.v
Vm.v
Loadelf.v
Uio.v
Console.v
SfsDisk.v
SfsFile.v
SfsIo.v
SfsTrunc.v
SfsDir.v
UserMem.v
Exec.v
Proc.v
Trap.v
Vfs.v
VfsList.v
Device.v
SfsVnode.v
SfsFs.v
Mksfs.v
FileSyscalls.v
