(* ===== verification/Prelude.v ===== *)
(** * A verification library for the OS/161 kernel of this repository

    The program is a teaching kernel for a 32-bit MIPS machine (os161-1.99/kern)
    with the synchronisation primitives, system calls and virtual memory its
    authors added.  The models follow the configuration ASST3: options vm, sfs,
    A1, A2 and A3 are on; dumbvm, synchprobs and noasserts are off, so [KASSERT]
    is compiled in and [DEBUGASSERT] is not.  [CatMouse] follows ASST1, which turns
    synchprobs on.

    ** How code is modelled

    Sequential code is a function in the kernel monad [M S A] of this file: from
    a state to an [outcome], which tells a normal return from a failed [KASSERT]
    or [panic], from an access outside every object, and from a loop that has
    not ended within its budget.  [wp] is total correctness: a theorem that
    states it, or that states an equation with [Ret], says that the routine
    returns.  Concurrent code is a step function of a thread over shared state,
    with the reflexive-transitive closure of its steps as reachability.
    Machine integers are [Z] with the wrap-around written out ([u32], [s32]).
    Memory that the C program has not initialised, and whether an allocation
    succeeds, are arguments.

    ** Files, and the code they model (paths below os161-1.99/kern, unless they
       start with common or user)

    - [Prelude]: the monad and its rules, machine integers, pages, indexed lists,
      error numbers; the tactics [wp_step], [wp_go], [mrun], [zbool], [zdecide], the rewrite
      database [kernel], the scope [kernel_scope].
    - [Millicode]: common/gcc-millicode, the 64-bit operations the compiler calls
      on this machine, on pairs of words; [Qdivrem]: the division of qdivrem.c on
      its arrays of 16-bit digits, and the four routines that call it.
    - [Umalloc]: user/lib/libc/stdlib/malloc.c; state, the bytes of memory, the
      two globals and the break; the answers of [sbrk] are a parameter.
    - [CString]: the string and memory routines of common/libc/string and
      [atoi]; [Printf]: common/libc/printf, the formatting over any send function
      and printing into a buffer; [Klib]: lib/bswap.c, the sending of text by
      lib/kprintf.c and its [panic]; [Kgets]: lib/kgets.c.
    - [KArray]: lib/array.c and include/array.h; state, the block and the two
      counts of [struct array].
    - [Bitmap]: lib/bitmap.c; state, the words of [struct bitmap].
    - [Queue]: lib/queue.c; state, the ring of [struct queue].
    - [Threadlist]: thread/threadlist.c; state, a store of linked nodes.
    - [Spinlock]: thread/spl.c, include/spl.h, thread/spinlock.c and the
      test-and-set of arch/mips/include/spinlock.h; a sequential model and one
      of several processors.
    - [Interleave]: no code; what the machines below share: who is at which
      program point, who holds a lock, who is queued, which wakeups are pending.
    - [Semaphore], module [Sem]: [P] and [V] of thread/synch.c with
      [wchan_sleep] and [wchan_wakeone] of thread/thread.c.
    - [LockCv], module [LockCv]: the locks and condition variables of
      thread/synch.c with [wchan_wakeall].
    - [SynchObj]: creation and destruction of semaphores, locks, condition
      variables (thread/synch.c) and wait channels (thread/thread.c) on a heap.
    - [CatMouse], module [CatMouse]: synchprobs/catmouse.c and synchprobs/bowls.c.
    - [Sched]: thread/thread.c and thread/clock.c: processors, run queues, wait
      channels, zombies, fork, switch, exit, wakeups, interprocessor interrupts
      and migration, as actions between which the other processors run;
      [SchedInv]: its invariant and reachability; [SchedMig]: migration and
      round robin.
    - [Coremap]: vm/coremap.c and arch/mips/vm/ram.c; state, the coremap, the
      boot-time bounds, the bytes of memory.
    - [Kmalloc]: vm/kmalloc.c; state, the pages of the heap as bytes, the page
      references and the two kinds of lists through them.
    - [Addrspace]: vm/addrspace.c, vm/pt.c, and the kernel pages of vm/vm.c.
    - [Vm]: the fault handler and TLB of vm/vm.c, [as_activate],
      vm/swapfile.c, vm/uw-vmstats.c.
    - [Loadelf]: syscall/loadelf.c and include/elf.h.
    - [Uio]: lib/uio.c; state, memory and one [struct uio].
    - [Console]: dev/generic/console.c; the input buffer as steps of the
      interrupt handler and a reader (module [Ring]), and reading and writing.
    - [SfsDisk]: dev/lamebus/lhd.c (transfers) and fs/sfs/sfs_io.c; [SfsFile],
      [SfsIo], [SfsTrunc], [SfsDir], [SfsVnode]: fs/sfs/sfs_vnode.c, from block
      maps through reading and writing, truncation and directories to the
      operations on vnodes; [SfsFs]: fs/sfs/sfs_fs.c.  State, the bytes of the
      disk, the volume's superblock and bitmap, the vnodes in memory.
    - [Mksfs]: user/sbin/mksfs, on the disk of [SfsDisk].
    - [UserMem]: vm/copyinout.c, over a memory in which an address may be
      unmapped; [Exec]: syscall/runprogram.c and [sys_execv] of
      syscall/procops.c.
    - [Proc]: proc/proc.c, syscall/procops.c, the fork entry and the return path
      of arch/mips/syscall/syscall.c; and [sys_waitpid] against [sys__exit] as a
      step relation on top of the machine of [LockCv].
    - [Trap]: arch/mips/locore/trap.c and the dispatch of
      arch/mips/syscall/syscall.c, against the class [TrapOps] of what they call
      and its contract [TrapLaws].
    - [Vfs]: vfs/vnode.c, vfs/vfspath.c, vfs/vfslookup.c, vfs/vfscwd.c and the
      big lock and name lookup of vfs/vfslist.c, against the class [FsOps] of
      file system operations and its contract [FsLaws]; [VfsList]: the table of
      devices and mounted file systems of vfs/vfslist.c, with the classes
      [MountOps] and [MountLaws].
    - [Device]: vfs/device.c, vfs/devnull.c and the entry points of lhd.c, as the
      operations of device vnodes.
    - [FileSyscalls]: syscall/filesystem.c, against [Vfs] and the classes
      [IoOps] and [IoLaws] of reading and writing.

    The system calls of [FileSyscalls] work on the processes of [Proc] and call
    [Vfs]; SFS is an instance of the operations [Vfs] calls; [Proc] uses the lock
    and condition variable machine for processes that wait; [Vm] calls
    [Addrspace], which takes pages from [Coremap], which takes the lock of
    [Spinlock]; [Loadelf] fills the address spaces.

    ** What is shown

    - 64-bit arithmetic ([Millicode], [Qdivrem]): every routine computes the
      operation on 64-bit numbers; the division returns for every divisor but 0.
    - Containers ([KArray], [Bitmap], [Queue], [Threadlist]): each operation
      implements the list operation its name says, with every index in range,
      every assertion true and allocation failures harmless.
    - Synchronisation ([Spinlock], [Semaphore], [LockCv]): under every
      interleaving of any number of threads, mutual exclusion, exact counts, no
      lost wakeup, and no deadlock among the spinlocks inside.
    - Cats and mice ([CatMouse]): the rules of the exercise hold in every run that
      does not split the update of a counter; the runs that break them otherwise.
    - Scheduling ([Sched], [SchedInv], [SchedMig]): in every interleaving of the
      processors a thread is in exactly one place (running, on one run queue, on
      one wait channel, a zombie of its processor, on its way); every action
      returns; an idle processor with work is woken; threads that yield take
      turns; migration leaves every processor with its share.
    - Memory ([Coremap], [Addrspace], [Vm], [Loadelf]): first-fit allocation and
      its round trip; regions and page tables; the fault handler on resident
      pages, on first touch, on stack pages and on errors; the loader.
    - Allocators ([Kmalloc], [Umalloc]): a block that is handed out overlaps no
      other, the other blocks keep their bytes, free gives back exactly one block;
      when the kernel's answers NULL and when it does not return.
    - Transfers ([Uio]): exactly the bytes asked for, in order.
    - SFS: what is written is read back, also across blocks and at the end of the
      file; a directory implements a finite map from names to inodes; truncation
      frees the blocks past the end; what sync writes is what mount reads.
    - Strings and text ([CString], [Printf], [Kgets], [Console]): the routines
      compute what the standard says on every memory, the word loops included;
      what is printed is the text the format describes, the manual page's but for
      one conversion, and never leaves its buffer; lines are edited as typed; characters arrive once and in order.
    - User memory ([UserMem], [Exec]): a copy is complete or refused, touches
      nothing but its destination whatever the pointer, and up to 1024 arguments
      of the first program arrive on its stack.
    - Processes ([Proc]): fork for every outcome of its allocations, with the lowest
      free pid and table consistency; exit codes reach the waiter; what each side of
      a fork returns to.
    - Files ([Vfs], [FileSyscalls]): every vnode reference is accounted for on
      every path through the layer, also when a file system fails to reclaim a
      vnode; paths are split as specified, descriptors go to the lowest free entry,
      every other case of an open, and how offsets move.
    - Devices ([VfsList], [Device]): names of devices stay distinct and entries
      stay in place under every sequence of operations; a mounted volume is
      reached by the device's name until it is unmounted; device vnodes keep the
      contract of the layer; the raw disk is a file of sectors.
    - Traps ([Trap]): which handler each exception and each system call reaches,
      with the interrupt state put back, and what its result leaves in the registers.
    - Volumes ([Mksfs]): what mksfs writes on a disk of up to 64 MiB is a volume the
      kernel mounts; larger disks are refused.

    Some theorems state what the code does where this is not what it was meant to
    do: runs of pages that are never freed, stack pages that are zeroed on a TLB
    miss, copies of address spaces that cannot be used, a waiter that sleeps for
    ever, descriptors that dangle after a fork, a system call that succeeds and may
    be reported as failed, text at page 0 that is lost to the loader, requests for almost 4 GiB that
    [malloc] grants, arguments of [sys_execv] that are read from the wrong address
    space, counters of eating cats that are updated without their lock.

    ** Bounds and fuel

    Loops over a range are structural in the number of iterations.  A loop with no
    such bound has a budget the theorems show to be enough: 32 doublings for the
    ring and the array (beyond that the 32-bit size wraps), one iteration per
    byte and per buffer for [uiomove], one per 16 bytes for [uiomovezeros], one
    per byte for the scans of a path, the table's length for the coremap, 257 page
    references for the lists of the kernel heap, 10 retries of a block transfer
    as the code has them, one round per thread and per processor for migration,
    4 digits, 5 places, 16 shifts and 3 corrections for the division, one
    iteration per 8 bytes of heap for [malloc], 64 digits for a printed number,
    one iteration per typed character for [kgets], one per byte for string scans,
    copies and console transfers.  The step relations have no bound.

    ** What is not modelled

    The drivers other than the disk and the console, the assembly, the menu, the
    programs that run on the kernel but for mksfs; the transfers of [Uio] take the
    verdict of [copyin] and [copyout] on a user range as an argument, and a page of
    user memory in [UserMem] is mapped for reading and writing or not at all.  In
    [Sched] the making of a thread and its exit are one action each.  Counts of
    vnode references and byte offsets of files are unbounded here.  Messages of the
    kernel are dropped, except where printing itself is the subject.  Of the parts
    that are modelled: [proc_destroy], which nothing calls; [vfs_getcwd] and
    [vfs_readlink]. *)

From Stdlib Require Import ZArith Lia.
From stdpp Require Import base numbers list gmap strings.
#[global] Open Scope Z_scope.

Ltac Zify.zify_post_hook ::= Z.to_euclidean_division_equations.

(** ** Outcomes and the kernel monad

    A kernel routine is a function from the state it can touch to an
    [outcome].  [Ret] is a normal return; [Panic] is a call of [panic] or a
    failed [KASSERT] (kern/lib/kprintf.c, kern/include/lib.h), which never
    returns; [Fault] is an access the C program makes outside every object it
    owns (an index out of range, a NULL or wild pointer, an uninitialised
    variable); [Diverge] is a loop that has not finished within the iteration
    budget the model gives it. *)

Inductive outcome (S A : Type) : Type :=
| Ret (a : A) (s : S)
| Panic (s : S)
| Fault
| Diverge.
Arguments Ret {S A} a s.
Arguments Panic {S A} s.
Arguments Fault {S A}.
Arguments Diverge {S A}.

Definition M (S A : Type) : Type := S → outcome S A.

#[global] Instance M_ret S : MRet (M S) := λ A a s, Ret a s.
#[global] Instance M_bind S : MBind (M S) := λ A B k m s,
  match m s with
  | Ret a s' => k a s'
  | Panic s' => Panic s'
  | Fault => Fault
  | Diverge => Diverge
  end.

Section monad.
Context {S : Type}.

Definition get : M S S := λ s, Ret s s.
Definition gets {A} (f : S → A) : M S A := λ s, Ret (f s) s.
Definition modify (f : S → S) : M S unit := λ s, Ret tt (f s).
Definition panic {A} : M S A := λ s, Panic s.
Definition fault {A} : M S A := λ s, Fault.
Definition diverge {A} : M S A := λ s, Diverge.
Definition kassert (b : bool) : M S unit := if b then mret tt else panic.
Definition when (b : bool) (m : M S unit) : M S unit := if b then m else mret tt.

(** [of_opt o] is the value in [o]; [None] stands for an invalid access. *)
Definition of_opt {A} (o : option A) : M S A :=
  match o with Some a => mret a | None => fault end.

(** [for (i = lo; n more times; i++) body]. *)
Fixpoint for_up (n : nat) (i : Z) (body : Z → M S unit) : M S unit :=
  match n with
  | O => mret tt
  | Datatypes.S n' => body i;; for_up n' (i + 1) body
  end.

(** The same loop whose body may leave it ([break], [return]) with a value. *)
Fixpoint for_find {A} (n : nat) (i : Z) (body : Z → M S (option A)) : M S (option A) :=
  match n with
  | O => mret None
  | Datatypes.S n' =>
      r ← body i;
      match r with
      | Some a => mret (Some a)
      | None => for_find n' (i + 1) body
      end
  end.

(** [while (cond) body] with an iteration budget. *)
Fixpoint while_do (fuel : nat) (cond : M S bool) (body : M S unit) : M S unit :=
  match fuel with
  | O => diverge
  | Datatypes.S f => b ← cond; if b : bool then body;; while_do f cond body else mret tt
  end.
End monad.

(** ** Total correctness

    [wp m Q s]: started in [s], [m] returns normally (no panic, no invalid
    access, no exhausted budget) and the result satisfies [Q]. *)

Definition wp {S A} (m : M S A) (Q : A → S → Prop) (s : S) : Prop :=
  match m s with Ret a s' => Q a s' | _ => False end.

Section wp_rules.
Context {S A B : Type}.
Implicit Types (s : S) (Q : A → S → Prop).

Lemma wp_ret (a : A) Q s : Q a s → wp (mret a) Q s.
Proof. done. Qed.

Lemma wp_bind (m : M S B) (k : B → M S A) Q s :
  wp m (λ b s', wp (k b) Q s') s → wp (m ≫= k) Q s.
Proof. unfold wp, mbind, M_bind. by destruct (m s). Qed.

Lemma wp_get (k : S → M S A) Q s : wp (k s) Q s → wp (get ≫= k) Q s.
Proof. done. Qed.

Lemma wp_gets (f : S → B) (k : B → M S A) Q s :
  wp (k (f s)) Q s → wp (gets f ≫= k) Q s.
Proof. done. Qed.

Lemma wp_modify (f : S → S) (k : unit → M S A) Q s :
  wp (k tt) Q (f s) → wp (modify f ≫= k) Q s.
Proof. done. Qed.

Lemma wp_modify' (f : S → S) (P : unit → S → Prop) s : P tt (f s) → wp (modify f) P s.
Proof. done. Qed.

Lemma wp_kassert b (k : unit → M S A) Q s :
  b = true → wp (k tt) Q s → wp (kassert b ≫= k) Q s.
Proof. by intros ->. Qed.

Lemma wp_of_opt (o : option B) (k : B → M S A) Q s b :
  o = Some b → wp (k b) Q s → wp (of_opt o ≫= k) Q s.
Proof. by intros ->. Qed.

Lemma wp_mono (m : M S A) Q Q' s :
  (∀ a s', Q a s' → Q' a s') → wp m Q s → wp m Q' s.
Proof. unfold wp. destruct (m s); naive_solver. Qed.

Lemma wp_inv (m : M S A) Q s :
  wp m Q s → ∃ a s', m s = Ret a s' ∧ Q a s'.
Proof. unfold wp. destruct (m s); naive_solver. Qed.

Lemma wp_intro (m : M S A) Q s a s' : m s = Ret a s' → Q a s' → wp m Q s.
Proof. unfold wp. by intros ->. Qed.

Lemma wp_run (m : M S B) (k : B → M S A) Q s b s' :
  m s = Ret b s' → wp (k b) Q s' → wp (m ≫= k) Q s.
Proof. unfold wp, mbind, M_bind. by intros ->. Qed.
End wp_rules.

(** Running the first of two routines. *)
Lemma bind_Ret {S A B} (m : M S A) (k : A → M S B) s a s' :
  m s = Ret a s' → (m ≫= k) s = k a s'.
Proof. unfold mbind, M_bind. by intros ->. Qed.

Lemma bind_Panic {S A B} (m : M S A) (k : A → M S B) s s' :
  m s = Panic s' → (m ≫= k) s = Panic s'.
Proof. unfold mbind, M_bind. by intros ->. Qed.

Lemma get_bind {S A} (k : S → M S A) s : (get ≫= k) s = k s s.
Proof. done. Qed.

Lemma bind_assoc {S A B C} (m : M S A) (k : A → M S B) (l : B → M S C) s :
  ((m ≫= k) ≫= l) s = (m ≫= λ a, k a ≫= l) s.
Proof. unfold mbind, M_bind. by destruct (m s). Qed.

(** Running a first routine whose outcome is known by computation. *)
Ltac mrun := erewrite bind_Ret by reflexivity.

(** Equations that run a routine's reads of its state. *)
Create Rewrite HintDb kernel.
#[export] Hint Rewrite @get_bind : kernel.

(** [⟨ m , s ⟩ ⇓ ⟨ a , s' ⟩]: from [s], [m] returns [a] and leaves [s']. *)
Declare Scope kernel_scope.
Notation "⟨ m , s ⟩ ⇓ ⟨ a , s' ⟩" := (m s = Ret a s')
  (at level 0, m at level 200, s at level 200, a at level 200, s' at level 200) : kernel_scope.
#[global] Open Scope kernel_scope.

(** A routine with no result followed by nothing. *)
Lemma wp_bind_ret {S} (m : M S unit) Q s : wp (m ≫= λ _, mret tt) Q s → wp m Q s.
Proof. unfold wp, mbind, M_bind, mret, M_ret. by destruct (m s) as [[]| | |]. Qed.

Lemma wp_seq_tt {S A} (m : M S A) (k : A → M S unit) Q s :
  wp (m ≫= λ a, k a ≫= λ _, mret tt) Q s → wp (m ≫= k) Q s.
Proof.
  unfold wp, mbind, M_bind, mret, M_ret. destruct (m s) as [a s'| | |]; [|done..].
  by destruct (k a s') as [[]| | |].
Qed.

Lemma wp_then {S A B C} (m : M S A) (n : A → M S B) (k : B → M S C) Q s :
  wp (m ≫= n) (λ b s', wp (k b) Q s') s → wp (m ≫= λ a, n a ≫= k) Q s.
Proof. unfold wp, mbind, M_bind. destruct (m s) as [a s'| | |]; [|done..]. by destruct (n a s'). Qed.

(** Invariant rule for a counting loop: [I] indexed by the loop variable. *)
Lemma wp_for_up {S} (I : Z → S → Prop) (body : Z → M S unit) n i Q s :
  I i s →
  (∀ j s', i ≤ j < i + Z.of_nat n → I j s' → wp (body j) (λ _, I (j + 1)) s') →
  (∀ s', I (i + Z.of_nat n) s' → Q tt s') →
  wp (for_up n i body) Q s.
Proof.
  revert i s. induction n as [|n IH]; intros i s Hi Hstep Hq; simpl.
  - apply wp_ret, Hq. by replace (i + Z.of_nat 0) with i by lia.
  - apply wp_bind. eapply wp_mono; [|apply Hstep; [lia|done]].
    intros [] s' Hs'. apply IH; [done| |].
    + intros j s'' Hj. apply Hstep. lia.
    + intros s'' Hs''. apply Hq.
      by replace (i + Z.of_nat (Datatypes.S n)) with (i + 1 + Z.of_nat n) by lia.
Qed.

(** Invariant rule for a search loop: the body either leaves with a value that
    satisfies the postcondition or re-establishes [I]. *)
Lemma wp_for_find {S A} (I : Z → S → Prop) (body : Z → M S (option A)) n i Q s :
  I i s →
  (∀ j s', i ≤ j < i + Z.of_nat n → I j s' →
     wp (body j) (λ r s'', match r with
                           | Some a => Q (Some a) s''
                           | None => I (j + 1) s''
                           end) s') →
  (∀ s', I (i + Z.of_nat n) s' → Q None s') →
  wp (for_find n i body) Q s.
Proof.
  revert i s. induction n as [|n IH]; intros i s Hi Hstep Hq; simpl.
  - apply wp_ret, Hq. by replace (i + Z.of_nat 0) with i by lia.
  - apply wp_bind. eapply wp_mono; [|apply Hstep; [lia|done]].
    intros [a|] s' Hs'; [by apply wp_ret|]. apply IH; [done| |].
    + intros j s'' Hj. apply Hstep. lia.
    + intros s'' Hs''. apply Hq.
      by replace (i + Z.of_nat (Datatypes.S n)) with (i + 1 + Z.of_nat n) by lia.
Qed.

(** Iterations of a search loop that find nothing and change nothing. *)
Lemma for_find_skip {S A} (body : Z → M S (option A)) (k n : nat) i s :
  (∀ j, i ≤ j < i + Z.of_nat k → body j s = Ret None s) →
  for_find (k + n) i body s = for_find n (i + Z.of_nat k) body s.
Proof.
  revert i. induction k as [|k IH]; intros i H; simpl; [by rewrite Z.add_0_r|].
  rewrite (bind_Ret _ _ _ _ _ (H i ltac:(lia))), IH by (intros; apply H; lia).
  f_equal. lia.
Qed.

#[global] Arguments for_up : simpl never.
#[global] Arguments for_find : simpl never.
#[global] Arguments while_do : simpl never.

(** A routine that works on a part of a larger state. *)
Definition zoom {S T A} (part : S → T) (put : T → S → S) (m : M T A) : M S A := λ s,
  match m (part s) with
  | Ret a t => Ret a (put t s)
  | Panic t => Panic (put t s)
  | Fault => Fault
  | Diverge => Diverge
  end.

Lemma wp_zoom {S T A} (part : S → T) put (m : M T A) Q s :
  wp m (λ a t, Q a (put t s)) (part s) → wp (zoom part put m) Q s.
Proof. unfold wp, zoom. by destruct (m (part s)). Qed.

(** One step of symbolic execution in a [wp] goal. *)
Ltac wp_step :=
  lazymatch goal with
  | |- wp (mret _) _ _ => apply wp_ret
  | |- wp (get ≫= _) _ _ => apply wp_get
  | |- wp (gets _ ≫= _) _ _ => apply wp_gets
  | |- wp (modify _ ≫= _) _ _ => apply wp_modify
  | |- wp (modify _) _ _ => apply wp_modify'
  | |- wp (of_opt (Some _) ≫= _) _ _ => apply wp_bind, wp_ret
  | |- wp (of_opt (Some _)) _ _ => apply wp_ret
  | |- wp ((_ ≫= _) ≫= _) _ _ => apply wp_bind
  | |- wp (mret _ ≫= _) _ _ => apply wp_bind, wp_ret
  end.
Ltac wp_go := repeat (wp_step; simpl).

(** Case analysis on every integer test of the goal, closed by [lia]. *)
Ltac zbool :=
  repeat match goal with
         | |- context [?a =? ?b] => destruct (Z.eqb_spec a b)
         | |- context [?a <=? ?b] => destruct (Z.leb_spec a b)
         | |- context [?a <? ?b] => destruct (Z.ltb_spec a b)
         end; simpl; try done; try lia.

(** Every integer test of the goal that [lia] can decide. *)
Ltac zdecide :=
  repeat match goal with
         | |- context [?a =? ?b] => first [rewrite (proj2 (Z.eqb_eq a b)) by lia | rewrite (proj2 (Z.eqb_neq a b)) by lia]
         | |- context [?a <=? ?b] => first [rewrite (proj2 (Z.leb_le a b)) by lia | rewrite (proj2 (Z.leb_gt a b)) by lia]
         | |- context [?a <? ?b] => first [rewrite (proj2 (Z.ltb_lt a b)) by lia | rewrite (proj2 (Z.ltb_ge a b)) by lia]
         | |- context [?a >=? ?b] => rewrite (Z.geb_leb a b)
         | |- context [?a >? ?b] => rewrite (Z.gtb_ltb a b)
         end; cbn [andb orb negb].

(** ** Machine integers

    The MIPS target is a 32-bit machine: [unsigned], [size_t], [vaddr_t] and
    [paddr_t] are 32-bit unsigned and wrap around, a pointer is 4 bytes. *)

Definition W32 : Z := 4294967296.
Definition u32 (x : Z) : Z := x mod 4294967296.
(** Two's complement 32-bit [int]. *)
Definition s32 (x : Z) : Z := (x + 2147483648) mod 4294967296 - 2147483648.
Definition INT_MAX : Z := 2147483647.

Lemma u32_small x : 0 ≤ x < W32 → u32 x = x.
Proof. unfold u32, W32. lia. Qed.

(** The bits of a multiple of [2^k] and of a number below it do not overlap. *)
Lemma lor_low a b k : 0 ≤ k → 0 ≤ b < 2 ^ k → Z.lor (a * 2 ^ k) b = a * 2 ^ k + b.
Proof.
  intros Hk Hb. assert (Z.land (a * 2 ^ k) b = 0) as E.
  { apply Z.bits_inj'. intros i Hi. rewrite Z.land_spec, Z.bits_0. destruct (Z.lt_ge_cases i k); [by rewrite Z.mul_pow2_bits_low|].
    rewrite <- (Z.mod_small b (2 ^ k)), Z.mod_pow2_bits_high by lia. apply andb_false_r. }
  by rewrite <- Z.lxor_lor, Z.add_nocarry_lxor.
Qed.

(** ** Pages *)

Definition PAGE_SIZE : Z := 4096.
Definition PAGE_FRAME : Z := 0xfffff000.

Lemma land_page_frame x : 0 ≤ x < W32 → Z.land x PAGE_FRAME = x / 4096 * 4096.
Proof.
  intros Hx. unfold PAGE_FRAME, W32 in *. replace 0xfffff000 with (Z.shiftl (Z.ones 20) 12) by done.
  transitivity (Z.shiftl (Z.land (Z.shiftr x 12) (Z.ones 20)) 12).
  - apply Z.bits_inj'. intros n Hn. rewrite Z.land_spec, !Z.shiftl_spec by done.
    destruct (Z.lt_ge_cases n 12).
    + rewrite !(Z.testbit_neg_r _ (n - 12)) by lia. by rewrite andb_false_r.
    + rewrite Z.land_spec, Z.shiftr_spec by lia. by replace (n - 12 + 12) with n by lia.
  - rewrite Z.land_ones, Z.shiftr_div_pow2, Z.shiftl_mul_pow2 by lia.
    change (2 ^ 12) with 4096. change (2 ^ 20) with 1048576. lia.
Qed.

Lemma land_page_aligned x : 0 ≤ x < W32 → Z.land x PAGE_FRAME = x ↔ x mod 4096 = 0.
Proof. intros Hx. rewrite land_page_frame by done. lia. Qed.

Lemma land_aligned_low x m : x mod 4096 = 0 → 0 ≤ m < 4096 → Z.land x m = 0.
Proof.
  intros Hx Hm. replace m with (Z.land (Z.ones 12) m).
  - rewrite Z.land_assoc, Z.land_ones by lia. change (2 ^ 12) with 4096. by rewrite Hx, Z.land_0_l.
  - rewrite Z.land_comm, Z.land_ones by lia. change (2 ^ 12) with 4096. apply Z.mod_small. lia.
Qed.

(** ** Blocks of words *)

Definition zlookup {A} (l : list A) (i : Z) : option A :=
  if 0 <=? i then l !! Z.to_nat i else None.
Definition zupd {A} (l : list A) (i : Z) (x : A) : option (list A) :=
  if (0 <=? i) && (i <? Z.of_nat (length l)) then Some (<[Z.to_nat i := x]> l) else None.

Section zlist.
Context {A : Type}.
Implicit Types (l : list A) (i : Z).

Lemma zlookup_nat l (n : nat) : zlookup l (Z.of_nat n) = l !! n.
Proof. unfold zlookup. rewrite (proj2 (Z.leb_le _ _)) by lia. by rewrite Nat2Z.id. Qed.

Lemma zlookup_Some_lt l i x : zlookup l i = Some x → 0 ≤ i < Z.of_nat (length l).
Proof.
  unfold zlookup. destruct (Z.leb_spec 0 i); [|done].
  intros ?%lookup_lt_Some. lia.
Qed.

Lemma zlookup_is_Some l i : 0 ≤ i < Z.of_nat (length l) → ∃ x, zlookup l i = Some x.
Proof.
  intros. unfold zlookup. rewrite (proj2 (Z.leb_le _ _)) by lia.
  destruct (lookup_lt_is_Some_2 l (Z.to_nat i)) as [x Hx]; [lia|eauto].
Qed.

Lemma zupd_Some l i x :
  0 ≤ i < Z.of_nat (length l) → zupd l i x = Some (<[Z.to_nat i := x]> l).
Proof.
  intros. unfold zupd.
  by rewrite (proj2 (Z.leb_le _ _)), (proj2 (Z.ltb_lt _ _)) by lia.
Qed.

Lemma zlookup_insert l i j x :
  0 ≤ i < Z.of_nat (length l) →
  zlookup (<[Z.to_nat i := x]> l) j = if Z.eqb i j then Some x else zlookup l j.
Proof.
  intros. unfold zlookup. destruct (Z.eqb_spec i j) as [->|].
  - rewrite (proj2 (Z.leb_le _ _)) by lia. apply list_lookup_insert_eq. lia.
  - destruct (Z.leb_spec 0 j); [|done]. apply list_lookup_insert_ne. lia.
Qed.

Lemma zlist_eq l1 l2 : (∀ i, zlookup l1 i = zlookup l2 i) → l1 = l2.
Proof. intros H. apply list_eq. intros i. rewrite <- !zlookup_nat. apply H. Qed.
End zlist.
#[export] Hint Rewrite @zlookup_nat : kernel.

(** [memcpy]/[memmove] on a block: [n] cells of [src] from [s] on are written
    over [dst] from [d] on.  The source is read before the destination is
    written, which is [memmove]'s contract for overlapping blocks. *)
Definition blk_move {A} (dst : list A) (d : nat) (src : list A) (s n : nat) : option (list A) :=
  if ((d + n <=? length dst) && (s + n <=? length src))%nat
  then Some (take d dst ++ take n (drop s src) ++ drop (d + n) dst)
  else None.

Lemma blk_move_Some {A} (dst src : list A) d s n :
  (d + n ≤ length dst)%nat → (s + n ≤ length src)%nat →
  blk_move dst d src s n = Some (take d dst ++ take n (drop s src) ++ drop (d + n) dst).
Proof.
  intros. unfold blk_move. by rewrite (proj2 (Nat.leb_le _ _)), (proj2 (Nat.leb_le _ _)).
Qed.

(** ** Words in memory

    The machine is big-endian: the 32-bit word at [a] of bytes [m], and [m] with
    that word overwritten. *)

Definition word_at (m : Z → Z) (a : Z) : Z := ((m a * 256 + m (a + 1)) * 256 + m (a + 2)) * 256 + m (a + 3).
Definition word_put (m : Z → Z) (a v : Z) : Z → Z := λ x,
  if x =? a then v / 16777216 else if x =? a + 1 then v / 65536 mod 256
  else if x =? a + 2 then v / 256 mod 256 else if x =? a + 3 then v mod 256 else m x.

Lemma word_at_put m a v : 0 ≤ v < W32 → word_at (word_put m a v) a = v.
Proof. unfold W32. intros Hv. unfold word_at, word_put. zdecide. lia. Qed.

Lemma word_put_other m a v x : ¬ a ≤ x < a + 4 → word_put m a v x = m x.
Proof. intros Hx. unfold word_put. by zdecide. Qed.

Lemma word_at_ext m m' a : (∀ x, a ≤ x < a + 4 → m' x = m x) → word_at m' a = word_at m a.
Proof. intros Hx. unfold word_at. by rewrite !Hx by lia. Qed.

(** ** Error numbers used by the modelled code (kern/include/kern/errno.h). *)
Definition EUNIMP : Z := 2.
Definition ENOMEM : Z := 3.
Definition EAGAIN : Z := 4.
Definition EFAULT : Z := 6.
Definition ENAMETOOLONG : Z := 7.
Definition EINVAL : Z := 8.
Definition EPERM : Z := 9.
Definition EMPROC : Z := 11.
Definition ENPROC : Z := 12.
Definition ENOEXEC : Z := 13.
Definition E2BIG : Z := 14.
Definition ESRCH : Z := 15.
Definition ECHILD : Z := 16.
Definition ENOTDIR : Z := 17.
Definition EISDIR : Z := 18.
Definition ENOENT : Z := 19.
Definition ENOTEMPTY : Z := 21.
Definition EEXIST : Z := 22.
Definition EXDEV : Z := 24.
Definition ENODEV : Z := 25.
Definition ENXIO : Z := 26.
Definition EBUSY : Z := 27.
Definition EMFILE : Z := 28.
Definition EBADF : Z := 30.
Definition EIO : Z := 32.
Definition ENOSPC : Z := 36.
Definition EFBIG : Z := 38.
