(* ===== verification/Millicode.v ===== *)
(** The 64-bit arithmetic the compiler calls on a 32-bit processor
    (common/gcc-millicode): each routine on two 32-bit halves, and that it computes
    the operation modulo [2^64].  Division is in file Qdivrem. *)

From Stdlib Require Import ZArith Lia.
From stdpp Require Import base numbers list.
From S2P Require Import Prelude.

(** ** Halves *)

Definition W64 : Z := 18446744073709551616.
Definition u64 (x : Z) : Z := x mod W64.
Definition s64 (x : Z) : Z := (x + 9223372036854775808) mod W64 - 9223372036854775808.

(** [union uu]: a 64-bit number as its two words. *)
Record uu := UU { ui_H : Z; ui_L : Z }.
Definition of_ll (a : Z) : uu := UU (u32 (a / W32)) (u32 a).
Definition to_ull (x : uu) : Z := x.(ui_H) * W32 + x.(ui_L).
Definition to_ll (x : uu) : Z := s64 (to_ull x).
Definition si_H (x : uu) : Z := s32 x.(ui_H).

Definition INT_BITS : Z := 32.
Definition HALF_BITS : Z := 16.
Definition HHALF (x : Z) : Z := Z.shiftr x HALF_BITS.
Definition LHALF (x : Z) : Z := Z.land x (Z.shiftl 1 HALF_BITS - 1).
Definition LHUP (x : Z) : Z := u32 (Z.shiftl x HALF_BITS).

(** ** The routines *)

Definition b2z (b : bool) : Z := if b then 1 else 0.

Definition __adddi3 (a b : Z) : Z :=
  let aa := of_ll a in let bb := of_ll b in
  let sum_L := u32 (aa.(ui_L) + bb.(ui_L)) in
  let sum_H := u32 (aa.(ui_H) + bb.(ui_H) + b2z (sum_L <? bb.(ui_L))) in
  to_ll (UU sum_H sum_L).

Definition __subdi3 (a b : Z) : Z :=
  let aa := of_ll a in let bb := of_ll b in
  let diff_L := u32 (aa.(ui_L) - bb.(ui_L)) in
  let diff_H := u32 (aa.(ui_H) - bb.(ui_H) - b2z (diff_L >? aa.(ui_L))) in
  to_ll (UU diff_H diff_L).

Definition __negdi2 (a : Z) : Z :=
  let aa := of_ll a in
  let res_L := u32 (- aa.(ui_L)) in
  let res_H := u32 (u32 (- aa.(ui_H)) - b2z (res_L >? 0)) in
  to_ll (UU res_H res_L).

Definition __anddi3 (a b : Z) : Z :=
  let aa := of_ll a in let bb := of_ll b in
  to_ll (UU (Z.land aa.(ui_H) bb.(ui_H)) (Z.land aa.(ui_L) bb.(ui_L))).

Definition __iordi3 (a b : Z) : Z :=
  let aa := of_ll a in let bb := of_ll b in
  to_ll (UU (Z.lor aa.(ui_H) bb.(ui_H)) (Z.lor aa.(ui_L) bb.(ui_L))).

Definition __xordi3 (a b : Z) : Z :=
  let aa := of_ll a in let bb := of_ll b in
  to_ll (UU (Z.lxor aa.(ui_H) bb.(ui_H)) (Z.lxor aa.(ui_L) bb.(ui_L))).

Definition __one_cmpldi2 (a : Z) : Z :=
  let aa := of_ll a in
  to_ll (UU (u32 (Z.lnot aa.(ui_H))) (u32 (Z.lnot aa.(ui_L)))).

Definition __ashldi3 (a shift : Z) : Z :=
  if shift =? 0 then a
  else
    let aa := of_ll a in
    if shift >=? INT_BITS then to_ll (UU (u32 (Z.shiftl aa.(ui_L) (shift - INT_BITS))) 0)
    else to_ll (UU (Z.lor (u32 (Z.shiftl aa.(ui_H) shift)) (Z.shiftr aa.(ui_L) (INT_BITS - shift)))
                   (u32 (Z.shiftl aa.(ui_L) shift))).

Definition __lshldi3 (a shift : Z) : Z :=
  if shift =? 0 then a
  else
    let aa := of_ll a in
    if shift >=? INT_BITS then to_ll (UU (u32 (Z.shiftl aa.(ui_L) (shift - INT_BITS))) 0)
    else to_ll (UU (Z.lor (u32 (Z.shiftl aa.(ui_H) shift)) (Z.shiftr aa.(ui_L) (INT_BITS - shift)))
                   (u32 (Z.shiftl aa.(ui_L) shift))).

(** The right shift of a negative [int] keeps its sign on this machine. *)
Definition __ashrdi3 (a shift : Z) : Z :=
  if shift =? 0 then a
  else
    let aa := of_ll a in
    if shift >=? INT_BITS then
      let s := Z.shiftr (Z.shiftr (si_H aa) (INT_BITS - 1)) 1 in
      to_ll (UU (u32 s) (u32 (Z.shiftr (si_H aa) (shift - INT_BITS))))
    else to_ll (UU (u32 (Z.shiftr (si_H aa) shift))
                   (Z.lor (Z.shiftr aa.(ui_L) shift) (u32 (Z.shiftl aa.(ui_H) (INT_BITS - shift))))).

Definition __lshrdi3 (a shift : Z) : Z :=
  if shift =? 0 then a
  else
    let aa := of_ll a in
    if shift >=? INT_BITS then to_ll (UU 0 (Z.shiftr aa.(ui_H) (shift - INT_BITS)))
    else to_ll (UU (Z.shiftr aa.(ui_H) shift)
                   (Z.lor (Z.shiftr aa.(ui_L) shift) (u32 (Z.shiftl aa.(ui_H) (INT_BITS - shift))))).

Definition __cmpdi2 (a b : Z) : Z :=
  let aa := of_ll a in let bb := of_ll b in
  if si_H aa <? si_H bb then 0 else if si_H aa >? si_H bb then 2
  else if aa.(ui_L) <? bb.(ui_L) then 0 else if aa.(ui_L) >? bb.(ui_L) then 2 else 1.

Definition __ucmpdi2 (a b : Z) : Z :=
  let aa := of_ll a in let bb := of_ll b in
  if aa.(ui_H) <? bb.(ui_H) then 0 else if aa.(ui_H) >? bb.(ui_H) then 2
  else if aa.(ui_L) <? bb.(ui_L) then 0 else if aa.(ui_L) >? bb.(ui_L) then 2 else 1.

(** From the three products of the halves to the product. *)
Definition lmulq_sum (neg : bool) (high mid low : Z) : Z :=
  let prodh := u32 (high + HHALF high) in
  let prodl := LHUP high in
  let '(prodh, prodl) :=
    if neg then
      let was := prodl in
      let prodl := u32 (prodl - LHUP mid) in
      (u32 (prodh - (HHALF mid + b2z (prodl >? was))), prodl)
    else
      let was := prodl in
      let prodl := u32 (prodl + LHUP mid) in
      (u32 (prodh + (HHALF mid + b2z (prodl <? was))), prodl) in
  let was := prodl in
  let prodl := u32 (prodl + LHUP low) in
  let prodh := u32 (prodh + (HHALF low + b2z (prodl <? was))) in
  let prodl := u32 (prodl + low) in
  let prodh := if prodl <? low then u32 (prodh + 1) else prodh in
  to_ll (UU prodh prodl).

Definition __lmulq (u v : Z) : Z :=
  let u1 := HHALF u in let u0 := LHALF u in
  let v1 := HHALF v in let v0 := LHALF v in
  let low := u32 (u0 * v0) in
  if (u1 =? 0) && (v1 =? 0) then low
  else
    let '(udiff, neg) := if u1 >=? u0 then (u1 - u0, false) else (u0 - u1, true) in
    let '(vdiff, neg) := if v0 >=? v1 then (v0 - v1, neg) else (v1 - v0, negb neg) in
    let mid := u32 (udiff * vdiff) in
    let high := u32 (u1 * v1) in
    lmulq_sum neg high mid low.

(** The product of two nonnegative numbers. *)
Definition mul_uu (u v : uu) : uu :=
  let u1 := u.(ui_H) in let u0 := u.(ui_L) in
  let v1 := v.(ui_H) in let v0 := v.(ui_L) in
  if (u1 =? 0) && (v1 =? 0) then of_ll (__lmulq u0 v0)
  else
    let low := of_ll (__lmulq u0 v0) in
    let '(negmid, udiff) := if u1 >=? u0 then (false, u1 - u0) else (true, u0 - u1) in
    let '(vdiff, negmid) := if v0 >=? v1 then (v0 - v1, negmid) else (v1 - v0, negb negmid) in
    let mid := u32 (udiff * vdiff) in
    let high := u32 (u1 * v1) in
    UU (u32 (high + (if (negmid : bool) then u32 (- mid) else mid) + low.(ui_L) + low.(ui_H))) low.(ui_L).

Definition __muldi3 (a b : Z) : Z :=
  let '(u, negall) := if a >=? 0 then (of_ll a, false) else (of_ll (- a), true) in
  let '(v, negall) := if b >=? 0 then (of_ll b, negall) else (of_ll (- b), negb negall) in
  let prod := mul_uu u v in
  if (negall : bool) then s64 (- to_ll prod) else to_ll prod.

(** ** Numbers and halves *)

Definition ll_range (a : Z) : Prop := -9223372036854775808 ≤ a < 9223372036854775808.
Definition ull_range (a : Z) : Prop := 0 ≤ a < W64.
Definition u_range (a : Z) : Prop := 0 ≤ a < W32.
Definition uu_ok (x : uu) : Prop := u_range x.(ui_H) ∧ u_range x.(ui_L).

Ltac widths := unfold to_ll, to_ull, of_ll, si_H, s64, s32, u64, u32, ll_range, ull_range, u_range, W64, W32 in *; cbn [ui_H ui_L] in *.

Lemma s64_id a : ll_range a → s64 a = a.
Proof. widths. lia. Qed.

Lemma s64_eq a b : (a - b) mod W64 = 0 → s64 a = s64 b.
Proof. widths. lia. Qed.

Lemma s64_shift x : ∃ k, s64 x = x + k * W64.
Proof. exists (- ((x + 9223372036854775808) / W64)). widths. lia. Qed.

Lemma of_ll_ok a : uu_ok (of_ll a).
Proof. split; widths; lia. Qed.

Lemma of_ll_value a : to_ull (of_ll a) = u64 a.
Proof. widths. lia. Qed.

Lemma of_ll_halves a : ∃ h l, of_ll a = UU h l ∧ u_range h ∧ u_range l ∧ (h * W32 + l - a) mod W64 = 0.
Proof. exists (u32 (a / W32)), (u32 a). split; [done|]. widths. lia. Qed.

Lemma add_exact a b : __adddi3 a b = s64 (a + b).
Proof.
  unfold __adddi3. destruct (of_ll_halves a) as (ah & al & -> & Ha1 & Ha2 & Ha3). destruct (of_ll_halves b) as (bh & bl & -> & Hb1 & Hb2 & Hb3).
  unfold to_ll. apply s64_eq. unfold b2z. cbn [ui_H ui_L]. destruct (Z.ltb_spec (u32 (al + bl)) bl); widths; lia.
Qed.

Lemma sub_exact a b : __subdi3 a b = s64 (a - b).
Proof.
  unfold __subdi3. destruct (of_ll_halves a) as (ah & al & -> & Ha1 & Ha2 & Ha3). destruct (of_ll_halves b) as (bh & bl & -> & Hb1 & Hb2 & Hb3).
  unfold to_ll. apply s64_eq. unfold b2z. cbn [ui_H ui_L]. destruct (Z.gtb_spec (u32 (al - bl)) al); widths; lia.
Qed.

Lemma neg_exact a : __negdi2 a = s64 (- a).
Proof.
  unfold __negdi2. destruct (of_ll_halves a) as (ah & al & -> & Ha1 & Ha2 & Ha3).
  unfold to_ll. apply s64_eq. unfold b2z. cbn [ui_H ui_L]. destruct (Z.gtb_spec (u32 (- al)) 0); widths; lia.
Qed.

(** ** Bit by bit *)

Lemma s64_bits x y : (∀ i, 0 ≤ i < 64 → Z.testbit x i = Z.testbit y i) → s64 x = s64 y.
Proof.
  intros H. apply s64_eq. assert (x mod 2 ^ 64 = y mod 2 ^ 64) as E.
  { apply Z.bits_inj'. intros i Hi. destruct (Z.lt_ge_cases i 64) as [Hl|Hl]; [rewrite !Z.mod_pow2_bits_low by lia; apply H; lia|].
    by rewrite !Z.mod_pow2_bits_high by lia. }
  widths. lia.
Qed.

Lemma to_ull_bits x i : uu_ok x → 0 ≤ i → Z.testbit (to_ull x) i = if i <? 32 then Z.testbit x.(ui_L) i else Z.testbit x.(ui_H) (i - 32).
Proof.
  intros [HH HL] Hi. destruct (Z.ltb_spec i 32).
  - rewrite <- (Z.mod_pow2_bits_low (to_ull x) 32) by done. f_equal. widths. lia.
  - replace i with (i - 32 + 32) at 1 by lia. rewrite <- Z.div_pow2_bits by lia. f_equal. widths. lia.
Qed.

Lemma of_ll_L_bits a i : 0 ≤ i < 32 → Z.testbit (of_ll a).(ui_L) i = Z.testbit a i.
Proof. intros H. cbn [of_ll ui_L]. unfold u32. apply (Z.mod_pow2_bits_low a 32). lia. Qed.

Lemma of_ll_H_bits a i : 0 ≤ i < 32 → Z.testbit (of_ll a).(ui_H) i = Z.testbit a (i + 32).
Proof.
  intros H. cbn [of_ll ui_H]. unfold u32. rewrite <- (Z.div_pow2_bits a 32) by lia. apply (Z.mod_pow2_bits_low (a / 2 ^ 32) 32). lia.
Qed.

Lemma u32_bits x i : 0 ≤ i < 32 → Z.testbit (u32 x) i = Z.testbit x i.
Proof. intros H. apply (Z.mod_pow2_bits_low x 32). lia. Qed.

Lemma u_range_high x i : u_range x → 32 ≤ i → Z.testbit x i = false.
Proof. intros H Hi. rewrite <- (Z.mod_small x (2 ^ 32)) by done. apply Z.mod_pow2_bits_high. lia. Qed.

(** A word whose bits above are clear. *)
Lemma u_range_bits x : 0 ≤ x → (∀ i, 32 ≤ i → Z.testbit x i = false) → u_range x.
Proof.
  intros H0 H. split; [done|]. replace x with (x mod 2 ^ 32); [by apply (Z.mod_pos_bound x (2 ^ 32))|].
  apply Z.bits_inj'. intros i Hi. destruct (Z.lt_ge_cases i 32); [apply Z.mod_pow2_bits_low; lia|].
  by rewrite Z.mod_pow2_bits_high, H by lia.
Qed.

Lemma u32_range x : u_range (u32 x).
Proof. widths. lia. Qed.

Lemma land_range x y : u_range x → u_range y → u_range (Z.land x y).
Proof.
  intros Hx Hy. apply u_range_bits; [apply Z.land_nonneg; left; apply Hx|]. intros i Hi. by rewrite Z.land_spec, u_range_high.
Qed.

Lemma lor_range x y : u_range x → u_range y → u_range (Z.lor x y).
Proof.
  intros Hx Hy. apply u_range_bits; [apply Z.lor_nonneg; split; [apply Hx|apply Hy]|]. intros i Hi. by rewrite Z.lor_spec, !u_range_high.
Qed.

Lemma lxor_range x y : u_range x → u_range y → u_range (Z.lxor x y).
Proof.
  intros Hx Hy. apply u_range_bits; [apply Z.lxor_nonneg; destruct Hx, Hy; done|]. intros i Hi. by rewrite Z.lxor_spec, !u_range_high.
Qed.

Lemma shiftr_range x k : u_range x → 0 ≤ k → u_range (Z.shiftr x k).
Proof.
  intros Hx Hk. apply u_range_bits; [apply Z.shiftr_nonneg, Hx|]. intros i Hi. rewrite Z.shiftr_spec by lia. apply u_range_high; [done|lia].
Qed.

Lemma zero_range : u_range 0.
Proof. done. Qed.

Create HintDb millicode.
#[export] Hint Extern 1 (0 <= _) => lia : millicode.
#[export] Hint Resolve zero_range u32_range land_range lor_range lxor_range shiftr_range : millicode.

(** A result of two words against the specification, bit by bit. *)
Lemma to_ll_bits h l y :
  u_range h → u_range l → (∀ i, 0 ≤ i < 32 → Z.testbit l i = Z.testbit y i) → (∀ i, 0 ≤ i < 32 → Z.testbit h i = Z.testbit y (i + 32)) →
  to_ll (UU h l) = s64 y.
Proof.
  intros Hh Hl Bl Bh. apply s64_bits. intros i Hi. rewrite to_ull_bits; [|by split|lia]. cbn [ui_H ui_L].
  destruct (Z.ltb_spec i 32); [apply Bl; lia|]. rewrite Bh by lia. f_equal. lia.
Qed.

Lemma and_exact a b : __anddi3 a b = s64 (Z.land a b).
Proof.
  destruct (of_ll_ok a), (of_ll_ok b). apply to_ll_bits; [auto with millicode..| |]; intros i Hi.
  - by rewrite !Z.land_spec, !of_ll_L_bits.
  - by rewrite !Z.land_spec, !of_ll_H_bits.
Qed.

Lemma ior_exact a b : __iordi3 a b = s64 (Z.lor a b).
Proof.
  destruct (of_ll_ok a), (of_ll_ok b). apply to_ll_bits; [auto with millicode..| |]; intros i Hi.
  - by rewrite !Z.lor_spec, !of_ll_L_bits.
  - by rewrite !Z.lor_spec, !of_ll_H_bits.
Qed.

Lemma xor_exact a b : __xordi3 a b = s64 (Z.lxor a b).
Proof.
  destruct (of_ll_ok a), (of_ll_ok b). apply to_ll_bits; [auto with millicode..| |]; intros i Hi.
  - by rewrite !Z.lxor_spec, !of_ll_L_bits.
  - by rewrite !Z.lxor_spec, !of_ll_H_bits.
Qed.

Lemma one_cmpl_exact a : __one_cmpldi2 a = s64 (Z.lnot a).
Proof.
  destruct (of_ll_ok a). apply to_ll_bits; [auto with millicode..| |]; intros i Hi; rewrite u32_bits, !Z.lnot_spec by lia.
  - by rewrite of_ll_L_bits.
  - by rewrite of_ll_H_bits.
Qed.

(** ** Shifts *)

(** The bit of a word at any index. *)
Lemma L_bit a i : Z.testbit (of_ll a).(ui_L) i = (i <? 32) && Z.testbit a i.
Proof.
  destruct (Z.lt_ge_cases i 0); [by rewrite !Z.testbit_neg_r, andb_false_r by done|].
  destruct (Z.ltb_spec i 32); [by rewrite of_ll_L_bits|]. apply u_range_high; [apply of_ll_ok|done].
Qed.

Lemma H_bit a i : 0 ≤ i → Z.testbit (of_ll a).(ui_H) i = (i <? 32) && Z.testbit a (i + 32).
Proof.
  intros Hi. destruct (Z.ltb_spec i 32); [by rewrite of_ll_H_bits|]. apply u_range_high; [apply of_ll_ok|done].
Qed.

Lemma u64_bit a i : 0 ≤ i → Z.testbit (u64 a) i = (i <? 64) && Z.testbit a i.
Proof.
  intros Hi. change (u64 a) with (a mod 2 ^ 64). destruct (Z.ltb_spec i 64); [by apply Z.mod_pow2_bits_low|].
  apply Z.mod_pow2_bits_high. lia.
Qed.

Lemma si_H_of_ll a : ll_range a → si_H (of_ll a) = Z.shiftr a 32.
Proof. intros H. rewrite Z.shiftr_div_pow2 by lia. change (2 ^ 32) with W32. widths. lia. Qed.

Ltac bit_cases :=
  repeat match goal with
  | |- context [?a <? ?b] => destruct (Z.ltb_spec a b); cbn [andb orb]
  end; try lia; rewrite ?orb_false_r, ?orb_false_l; try reflexivity.

Lemma ashl_exact a k : ll_range a → 0 ≤ k < 64 → __ashldi3 a k = s64 (Z.shiftl a k).
Proof.
  intros Ha Hk. unfold __ashldi3, INT_BITS. destruct (Z.eqb_spec k 0) as [->|]; [by rewrite Z.shiftl_0_r, s64_id|]. destruct (of_ll_ok a).
  rewrite Z.geb_leb. destruct (Z.leb_spec 32 k); (apply to_ll_bits; [eauto with millicode..| |]; intros i Hi);
    rewrite ?Z.lor_spec, ?u32_bits, ?Z.testbit_0_l, ?Z.shiftl_spec, ?Z.shiftr_spec, ?L_bit by lia.
  - by rewrite Z.testbit_neg_r by lia.
  - bit_cases. f_equal. lia.
  - bit_cases.
  - destruct (Z.lt_ge_cases i k).
    + rewrite (Z.testbit_neg_r (ui_H _)) by lia. bit_cases. f_equal. lia.
    + rewrite H_bit by lia. bit_cases. f_equal. lia.
Qed.

Lemma lshl_exact a k : ll_range a → 0 ≤ k < 64 → __lshldi3 a k = s64 (Z.shiftl a k).
Proof. apply ashl_exact. Qed.

Lemma lshr_exact a k : ll_range a → 0 ≤ k < 64 → __lshrdi3 a k = s64 (Z.shiftr (u64 a) k).
Proof.
  intros Ha Hk. unfold __lshrdi3, INT_BITS. destruct (of_ll_ok a) as [HH HL].
  destruct (Z.eqb_spec k 0) as [->|]; [rewrite Z.shiftr_0_r; rewrite <- (s64_id a Ha) at 1; apply s64_eq; widths; lia|].
  rewrite Z.geb_leb. destruct (Z.leb_spec 32 k); (apply to_ll_bits; [eauto with millicode..| |]; intros i Hi);
    rewrite ?Z.lor_spec, ?u32_bits, ?Z.testbit_0_l, ?Z.shiftr_spec, ?Z.shiftl_spec, ?L_bit, ?H_bit, ?u64_bit by lia.
  - bit_cases. f_equal. lia.
  - bit_cases.
  - destruct (Z.lt_ge_cases i (32 - k)).
    + rewrite (Z.testbit_neg_r (ui_H _)) by lia. bit_cases.
    + rewrite H_bit by lia. bit_cases. f_equal. lia.
  - bit_cases. f_equal. lia.
Qed.

Lemma sign_bit a i : ll_range a → 63 ≤ i → Z.testbit a i = (a <? 0).
Proof.
  intros Ha Hi. assert (9223372036854775808 ≤ 2 ^ i) by (change 9223372036854775808 with (2 ^ 63); apply Z.pow_le_mono_r; lia).
  unfold ll_range in Ha. rewrite Z.testbit_odd, Z.shiftr_div_pow2 by lia. destruct (Z.ltb_spec a 0).
  - replace (a / 2 ^ i) with (-1); [done|]. apply Z.div_unique with (a + 2 ^ i); lia.
  - rewrite Z.div_small by lia. done.
Qed.

Lemma ashr_exact a k : ll_range a → 0 ≤ k < 64 → __ashrdi3 a k = Z.shiftr a k.
Proof.
  intros Ha Hk. destruct (of_ll_ok a) as [HH HL]. rewrite <- (s64_id (Z.shiftr a k)).
  2:{ rewrite Z.shiftr_div_pow2 by lia. assert (0 < 2 ^ k) by (apply Z.pow_pos_nonneg; lia). widths. split; [apply Z.div_le_lower_bound|apply Z.div_lt_upper_bound]; nia. }
  unfold __ashrdi3, INT_BITS. destruct (Z.eqb_spec k 0) as [->|]; [by rewrite Z.shiftr_0_r, s64_id|]. rewrite si_H_of_ll by done.
  rewrite Z.geb_leb. destruct (Z.leb_spec 32 k); (apply to_ll_bits; [eauto with millicode..| |]; intros i Hi);
    rewrite ?Z.lor_spec, ?u32_bits, ?Z.shiftr_spec, ?Z.shiftl_spec, ?L_bit by lia.
  - f_equal. lia.
  - by rewrite !sign_bit by (done || lia).
  - destruct (Z.lt_ge_cases i (32 - k)).
    + rewrite (Z.testbit_neg_r (ui_H _)) by lia. bit_cases.
    + rewrite H_bit by lia. bit_cases. f_equal. lia.
  - f_equal. lia.
Qed.

(** ** Comparisons *)

Lemma cmp_exact a b : ll_range a → ll_range b → __cmpdi2 a b = match a ?= b with Lt => 0 | Eq => 1 | Gt => 2 end.
Proof.
  intros Ha Hb. unfold __cmpdi2. rewrite !si_H_of_ll, !Z.shiftr_div_pow2 by (done || lia). change (2 ^ 32) with W32.
  cbn [of_ll ui_L]. rewrite !Z.gtb_ltb.
  repeat match goal with |- context [?a <? ?b] => destruct (Z.ltb_spec a b) end; destruct (Z.compare_spec a b); widths; lia.
Qed.

Lemma ucmp_exact a b : ull_range a → ull_range b → __ucmpdi2 a b = match a ?= b with Lt => 0 | Eq => 1 | Gt => 2 end.
Proof.
  intros Ha Hb. unfold __ucmpdi2. cbn [of_ll ui_L ui_H]. rewrite !Z.gtb_ltb.
  repeat match goal with |- context [?a <? ?b] => destruct (Z.ltb_spec a b) end; destruct (Z.compare_spec a b); widths; lia.
Qed.

(** ** Multiplication *)

Lemma HHALF_eq x : HHALF x = x / 65536.
Proof. unfold HHALF, HALF_BITS. by rewrite Z.shiftr_div_pow2. Qed.

Lemma LHALF_eq x : LHALF x = x mod 65536.
Proof. unfold LHALF, HALF_BITS. change (Z.shiftl 1 16 - 1) with (Z.ones 16). by rewrite Z.land_ones. Qed.

Lemma LHUP_eq x : LHUP x = u32 (x * 65536).
Proof. unfold LHUP, HALF_BITS. by rewrite Z.shiftl_mul_pow2. Qed.

(** Adding a word shifted by half a word, and subtracting it, with the carry. *)
Lemma acc_add h l x l' h' :
  u_range h → u_range l → u_range x → l' = u32 (l + LHUP x) → h' = u32 (h + (HHALF x + b2z (l' <? l))) →
  u_range h' ∧ u_range l' ∧ ∃ k, h' * W32 + l' = h * W32 + l + x * 65536 + k * W64.
Proof.
  intros Hh Hl Hx -> ->. split; [apply u32_range|]. split; [apply u32_range|]. rewrite HHALF_eq, LHUP_eq. unfold b2z.
  destruct (Z.ltb_spec (u32 (l + u32 (x * 65536))) l).
  - exists (- ((h + (x / 65536 + 1)) / W32)). widths. lia.
  - exists (- ((h + (x / 65536 + 0)) / W32)). widths. lia.
Qed.

Lemma acc_sub h l x l' h' :
  u_range h → u_range l → u_range x → l' = u32 (l - LHUP x) → h' = u32 (h - (HHALF x + b2z (l' >? l))) →
  u_range h' ∧ u_range l' ∧ ∃ k, h' * W32 + l' = h * W32 + l - x * 65536 + k * W64.
Proof.
  intros Hh Hl Hx -> ->. split; [apply u32_range|]. split; [apply u32_range|]. rewrite HHALF_eq, LHUP_eq. unfold b2z.
  destruct (Z.gtb_spec (u32 (l - u32 (x * 65536))) l).
  - exists (- ((h - (x / 65536 + 1)) / W32)). widths. lia.
  - exists (- ((h - (x / 65536 + 0)) / W32)). widths. lia.
Qed.

Lemma lmulq_sum_exact (neg : bool) high mid low :
  u_range high → u_range mid → u_range low →
  ∃ k, lmulq_sum neg high mid low = high * W32 + high * 65536 + (if neg then - mid else mid) * 65536 + low * 65536 + low + k * W64.
Proof.
  intros Hh Hm Hl. unfold lmulq_sum. set (h0 := u32 (high + HHALF high)). set (l0 := LHUP high).
  assert (u_range h0 ∧ u_range l0 ∧ ∃ k, h0 * W32 + l0 = high * W32 + high * 65536 + k * W64) as (R1 & R2 & k0 & E0).
  { split; [apply u32_range|]. split; [unfold l0; rewrite LHUP_eq; apply u32_range|]. exists (- ((high + high / 65536) / W32)).
    unfold h0, l0. rewrite HHALF_eq, LHUP_eq. widths. lia. }
  destruct (if neg then (u32 (h0 - (HHALF mid + b2z (u32 (l0 - LHUP mid) >? l0))), u32 (l0 - LHUP mid))
            else (u32 (h0 + (HHALF mid + b2z (u32 (l0 + LHUP mid) <? l0))), u32 (l0 + LHUP mid))) as [h1 l1] eqn:E1.
  assert (u_range h1 ∧ u_range l1 ∧ ∃ k, h1 * W32 + l1 = h0 * W32 + l0 + (if neg then - mid else mid) * 65536 + k * W64) as (R3 & R4 & k1 & E2).
  { destruct neg; injection E1 as E1 E2; symmetry in E1, E2; rewrite <- E2 in E1.
    - destruct (acc_sub h0 l0 mid l1 h1) as (? & ? & k & ?); try done. split; [done|]. split; [done|]. exists k. lia.
    - destruct (acc_add h0 l0 mid l1 h1) as (? & ? & k & ?); try done. split; [done|]. split; [done|]. exists k. lia. }
  set (l2 := u32 (l1 + LHUP low)). set (h2 := u32 (h1 + (HHALF low + b2z (l2 <? l1)))).
  destruct (acc_add h1 l1 low l2 h2) as (R5 & R6 & k2 & E3); try done. clearbody h0 l0 l2 h2. clear E1.
  set (h3 := if u32 (l2 + low) <? low then u32 (h2 + 1) else h2).
  assert (∃ k, h3 * W32 + u32 (l2 + low) = h2 * W32 + l2 + low + k * W64) as [k3 E4].
  { unfold h3. destruct (Z.ltb_spec (u32 (l2 + low)) low); [exists (- ((h2 + 1) / W32))|exists 0]; widths; lia. }
  destruct (s64_shift (to_ull (UU h3 (u32 (l2 + low))))) as [k4 E5]. exists (k0 + k1 + k2 + k3 + k4). unfold to_ll. rewrite E5. unfold to_ull. cbn [ui_H ui_L]. lia.
Qed.

Lemma halves x : u_range x → ∃ x1 x0, HHALF x = x1 ∧ LHALF x = x0 ∧ 0 ≤ x1 < 65536 ∧ 0 ≤ x0 < 65536 ∧ x = x1 * 65536 + x0.
Proof. intros H. exists (x / 65536), (x mod 65536). rewrite HHALF_eq, LHALF_eq. widths. lia. Qed.

(** The product of two half words is a word. *)
Lemma half_mul x y : 0 ≤ x < 65536 → 0 ≤ y < 65536 → u_range (x * y) ∧ u32 (x * y) = x * y.
Proof. intros Hx Hy. assert (0 ≤ x * y < W32) by (unfold W32; nia). split; [done|]. by apply u32_small. Qed.

Lemma lmulq_exact u v : u_range u → u_range v → ∃ k, __lmulq u v = u * v + k * W64.
Proof.
  intros Hu Hv. unfold __lmulq. destruct (halves u Hu) as (u1 & u0 & -> & -> & U1 & U0 & ->), (halves v Hv) as (v1 & v0 & -> & -> & V1 & V0 & ->).
  destruct (half_mul u0 v0 U0 V0) as [RL ->], (half_mul u1 v1 U1 V1) as [RH ->].
  destruct ((u1 =? 0) && (v1 =? 0)) eqn:E0.
  { apply andb_true_iff in E0 as [->%Z.eqb_eq ->%Z.eqb_eq]. exists 0. lia. }
  rewrite !Z.geb_leb. destruct (Z.leb_spec u0 u1), (Z.leb_spec v1 v0); cbn [negb].
  - destruct (half_mul (u1 - u0) (v0 - v1)) as [RM ->]; [lia..|]. destruct (lmulq_sum_exact false _ _ _ RH RM RL) as [k ->].
    exists k. unfold W32. ring_simplify. lia.
  - destruct (half_mul (u1 - u0) (v1 - v0)) as [RM ->]; [lia..|]. destruct (lmulq_sum_exact true _ _ _ RH RM RL) as [k ->].
    exists k. unfold W32. ring_simplify. lia.
  - destruct (half_mul (u0 - u1) (v0 - v1)) as [RM ->]; [lia..|]. destruct (lmulq_sum_exact true _ _ _ RH RM RL) as [k ->].
    exists k. unfold W32. ring_simplify. lia.
  - destruct (half_mul (u0 - u1) (v1 - v0)) as [RM ->]; [lia..|]. destruct (lmulq_sum_exact false _ _ _ RH RM RL) as [k ->].
    exists k. unfold W32. ring_simplify. lia.
Qed.

Lemma u32_shift x : ∃ k, u32 x = x + k * W32.
Proof. exists (- (x / W32)). widths. lia. Qed.

Lemma mul_words u1 u0 v1 v0 m lh ll j k :
  m = (u1 - u0) * (v0 - v1) + j * W32 → lh * W32 + ll = u0 * v0 + k * W64 →
  ∃ k', to_ull (UU (u32 (u32 (u1 * v1) + m + ll + lh)) ll) = (u1 * W32 + u0) * (v1 * W32 + v0) + k' * W64.
Proof.
  intros -> El. destruct (u32_shift (u1 * v1)) as [a ->].
  destruct (u32_shift (u1 * v1 + a * W32 + ((u1 - u0) * (v0 - v1) + j * W32) + ll + lh)) as [b Eb].
  unfold to_ull. cbn [ui_H ui_L]. rewrite Eb. clear Eb.
  assert (ll = u0 * v0 + k * W64 - lh * W32) as -> by lia. exists (a + b + j - u1 * v1 + k + k * W32 - lh).
  unfold W64, W32. ring.
Qed.

Lemma of_ll_shift a : ∃ k, to_ull (of_ll a) = a + k * W64.
Proof. rewrite of_ll_value. exists (- (a / W64)). widths. lia. Qed.

Lemma mul_uu_exact u v : uu_ok u → uu_ok v → ∃ k, to_ull (mul_uu u v) = to_ull u * to_ull v + k * W64.
Proof.
  destruct u as [u1 u0], v as [v1 v0]. intros [_ U0] [_ V0]. cbn [ui_H ui_L] in U0, V0. unfold mul_uu. cbn [ui_H ui_L].
  destruct (lmulq_exact u0 v0 U0 V0) as [k1 E1]. destruct (of_ll_shift (__lmulq u0 v0)) as [k2 E2].
  destruct ((u1 =? 0) && (v1 =? 0)) eqn:E0.
  { apply andb_true_iff in E0 as [->%Z.eqb_eq ->%Z.eqb_eq]. exists (k1 + k2). rewrite E2, E1. unfold to_ull. cbn [ui_H ui_L]. ring. }
  set (low := of_ll (__lmulq u0 v0)) in *. unfold to_ull in E2. rewrite E1 in E2.
  assert (ui_H low * W32 + ui_L low = u0 * v0 + (k1 + k2) * W64) as El by lia.
  rewrite !Z.geb_leb. destruct (Z.leb_spec u0 u1), (Z.leb_spec v1 v0); cbn [negb].
  1: destruct (u32_shift ((u1 - u0) * (v0 - v1))) as [j Ej].
  2: destruct (u32_shift ((u1 - u0) * (v1 - v0))) as [i Ei], (u32_shift (- u32 ((u1 - u0) * (v1 - v0)))) as [j Ej].
  3: destruct (u32_shift ((u0 - u1) * (v0 - v1))) as [i Ei], (u32_shift (- u32 ((u0 - u1) * (v0 - v1)))) as [j Ej].
  4: destruct (u32_shift ((u0 - u1) * (v1 - v0))) as [j Ej].
  1,4: apply (mul_words u1 u0 v1 v0 _ _ _ j (k1 + k2)); [lia|done].
  1,2: apply (mul_words u1 u0 v1 v0 _ _ _ (j - i) (k1 + k2)); [lia|done].
Qed.

Lemma mul_exact a b : __muldi3 a b = s64 (a * b).
Proof.
  assert (∀ x y, ∃ k, to_ll (mul_uu (of_ll x) (of_ll y)) = x * y + k * W64) as Hm.
  { intros x y. destruct (mul_uu_exact _ _ (of_ll_ok x) (of_ll_ok y)) as [k E]. destruct (of_ll_shift x) as [i Ei], (of_ll_shift y) as [j Ej].
    destruct (s64_shift (to_ull (mul_uu (of_ll x) (of_ll y)))) as [l El]. exists (k + l + i * y + j * x + i * j * W64).
    unfold to_ll. rewrite El, E, Ei, Ej. ring. }
  unfold __muldi3.
  assert (∀ x y (neg : bool), (if neg then - (x * y) else x * y) = a * b →
    (if neg then s64 (- to_ll (mul_uu (of_ll x) (of_ll y))) else to_ll (mul_uu (of_ll x) (of_ll y))) = s64 (a * b)) as Hn.
  { intros x y neg <-. destruct (Hm x y) as [k E], neg; [rewrite E|rewrite <- (s64_id (to_ll _)), E by (widths; lia)]; apply s64_eq.
    - replace (- (x * y + k * W64) - - (x * y)) with (- k * W64) by ring. by apply Z.mod_mul.
    - replace (x * y + k * W64 - x * y) with (k * W64) by ring. by apply Z.mod_mul. }
  destruct (a >=? 0), (b >=? 0); cbn [negb];
    [apply (Hn a b false)|apply (Hn a (- b) true)|apply (Hn (- a) b true)|apply (Hn (- a) (- b) false)]; ring.
Qed.

(** The 64-bit routines that the compiler calls compute, from two 32-bit words
    each, the arithmetic, bitwise, shift and comparison operations on 64-bit
    numbers: sums, differences, products and left shifts modulo [2^64], shifts by
    0 to 63 with or without the sign, and the three-way comparisons. *)
Theorem millicode_exact a b k :
  ll_range a → ll_range b → 0 ≤ k < 64 →
  __adddi3 a b = s64 (a + b) ∧ __subdi3 a b = s64 (a - b) ∧ __negdi2 a = s64 (- a) ∧ __muldi3 a b = s64 (a * b) ∧
  __anddi3 a b = s64 (Z.land a b) ∧ __iordi3 a b = s64 (Z.lor a b) ∧ __xordi3 a b = s64 (Z.lxor a b) ∧ __one_cmpldi2 a = s64 (Z.lnot a) ∧
  __ashldi3 a k = s64 (Z.shiftl a k) ∧ __lshldi3 a k = s64 (Z.shiftl a k) ∧
  __ashrdi3 a k = Z.shiftr a k ∧ __lshrdi3 a k = s64 (Z.shiftr (u64 a) k) ∧
  __cmpdi2 a b = (match a ?= b with Lt => 0 | Eq => 1 | Gt => 2 end) ∧
  __ucmpdi2 (u64 a) (u64 b) = match u64 a ?= u64 b with Lt => 0 | Eq => 1 | Gt => 2 end.
Proof.
  intros Ha Hb Hk. assert (∀ x, ull_range (u64 x)) by (intros x; widths; lia).
  auto 20 using add_exact, sub_exact, neg_exact, mul_exact, and_exact, ior_exact, xor_exact, one_cmpl_exact,
    ashl_exact, lshl_exact, ashr_exact, lshr_exact, cmp_exact, ucmp_exact.
Qed.

Lemma millicode_exact_witness :
  __muldi3 (-5000000000) 3 = -15000000000 ∧ __subdi3 4294967296 1 = 4294967295 ∧ __ashrdi3 (-5000000000) 33 = -1 ∧
  __lshrdi3 (-1) 40 = 16777215.
Proof.
  destruct (millicode_exact (-5000000000) 3 33) as (_ & _ & _ & -> & _ & _ & _ & _ & _ & _ & -> & _); [done..|].
  destruct (millicode_exact 4294967296 1 0) as (_ & -> & _); [done..|].
  destruct (millicode_exact (-1) 0 40) as (_ & _ & _ & _ & _ & _ & _ & _ & _ & _ & _ & -> & _); [done..|]. vm_compute. done.
Defined.
