(* ===== verification/Qdivrem.v ===== *)
(** 64-bit division (common/gcc-millicode/qdivrem.c and its callers): Knuth's
    Algorithm D on digits of 16 bits, in arrays of five digits. *)

From Stdlib Require Import ZArith Lia.
From stdpp Require Import base numbers list.
From S2P Require Import Prelude Millicode.

(** ** The code *)

Definition B : Z := Z.shiftl 1 HALF_BITS.
Definition digit (x : Z) : Z := x mod 65536.
Definition COMBINE (a b : Z) : Z := Z.lor (u32 (Z.shiftl a HALF_BITS)) b.

(** [uspace], [vspace], [qspace]; a pointer into one of them is an index. *)
Record dv := Dv { uspace : list Z; vspace : list Z; qspace : list Z }.
Inductive arr := AU | AV | AQ.

Definition arr_of (a : arr) (s : dv) : list Z := match a with AU => s.(uspace) | AV => s.(vspace) | AQ => s.(qspace) end.
Definition arr_put (a : arr) (l : list Z) (s : dv) : dv :=
  match a with AU => Dv l s.(vspace) s.(qspace) | AV => Dv s.(uspace) l s.(qspace) | AQ => Dv s.(uspace) s.(vspace) l end.

Definition rd (a : arr) (i : nat) : M dv Z := s ← get; of_opt (arr_of a s !! i).
Definition wr (a : arr) (i : nat) (x : Z) : M dv unit :=
  s ← get; if decide (i < length (arr_of a s))%nat then modify (arr_put a (<[i:=digit x]> (arr_of a s))) else fault.

(** The loop of [shl], from [i] on. *)
Fixpoint shl_loop (a : arr) (p k i : nat) (sh : Z) : M dv unit :=
  match k with
  | O => x ← rd a (p + i); wr a (p + i) (LHALF (u32 (Z.shiftl x sh)))
  | S k =>
      x ← rd a (p + i); y ← rd a (p + i + 1);
      wr a (p + i) (Z.lor (LHALF (u32 (Z.shiftl x sh))) (Z.shiftr y (HALF_BITS - sh)));;
      shl_loop a p k (S i) sh
  end.
Definition shl (a : arr) (p len : nat) (sh : Z) : M dv unit := shl_loop a p len 0 sh.

(** Leading zeros of the divisor: where [v] is and [n], or the single digit. *)
Fixpoint count_v (fuel v n : nat) : M dv (nat + nat * nat) :=
  match fuel with
  | O => diverge
  | S fuel =>
      x ← rd AV (v + 1);
      if x =? 0 then
        let n := (n - 1)%nat in
        if (n =? 1)%nat then mret (inl v) else count_v fuel (v + 1) n
      else mret (inr (v, n))
  end.

Definition short_div (arq : bool) (v : nat) : M dv (Z * option Z) :=
  t ← rd AV (v + 2);
  u1 ← rd AU 1; u2 ← rd AU 2; u3 ← rd AU 3; u4 ← rd AU 4;
  let q1 := digit (u1 / t) in
  let rbj := COMBINE (u1 mod t) u2 in
  let q2 := digit (rbj / t) in
  let rbj := COMBINE (rbj mod t) u3 in
  let q3 := digit (rbj / t) in
  let rbj := COMBINE (rbj mod t) u4 in
  let q4 := digit (rbj / t) in
  mret (to_ull (UU (COMBINE q1 q2) (COMBINE q3 q4)), if arq then Some (rbj mod t) else None).

(** Leading zeros of the dividend: where [u] is and [m] (which stays nonnegative, as
    the dividend is not below the divisor). *)
Fixpoint count_u (fuel u m : nat) : M dv (nat * nat) :=
  match fuel with
  | O => diverge
  | S fuel => x ← rd AU (u + 1); if x =? 0 then count_u fuel (u + 1) (m - 1) else mret (u, m)
  end.

Fixpoint clear_q (i : nat) : M dv unit :=
  match i with O => mret tt | S i => wr AQ i 0;; clear_q i end.

(** D1: the shift. *)
Fixpoint norm_d (fuel : nat) (t d : Z) : M dv Z :=
  match fuel with
  | O => diverge
  | S fuel => if t <? B / 2 then norm_d fuel (u32 (Z.shiftl t 1)) (d + 1) else mret d
  end.

(** D3: from [qhat] and [rhat] on; [qhat_big] is the label [qhat_too_big]. *)
Fixpoint qhat_loop (fuel : nat) (v1 v2 uj2 qhat rhat : Z) : M dv Z :=
  match fuel with
  | O => diverge
  | S fuel =>
      if u32 (v2 * qhat) >? COMBINE rhat uj2 then
        let qhat := u32 (qhat - 1) in let rhat := u32 (rhat + v1) in
        if rhat >=? B then mret qhat else qhat_loop fuel v1 v2 uj2 qhat rhat
      else mret qhat
  end.
Definition qhat_big (v1 v2 uj2 qhat rhat : Z) : M dv Z :=
  let qhat := u32 (qhat - 1) in let rhat := u32 (rhat + v1) in
  if rhat >=? B then mret qhat else qhat_loop 3 v1 v2 uj2 qhat rhat.

Definition estimate (v1 v2 uj0 uj1 uj2 : Z) : M dv Z :=
  if uj0 =? v1 then qhat_big v1 v2 uj2 B uj1
  else let nn := COMBINE uj0 uj1 in qhat_loop 3 v1 v2 uj2 (nn / v1) (nn mod v1).

(** D4: digits [i], ..., 1 with the borrow [t]; the borrow that is left. *)
Fixpoint mul_sub (u v i : nat) (qhat t : Z) : M dv Z :=
  match i with
  | O => mret t
  | S i' =>
      ui ← rd AU (u + i); vi ← rd AV (v + i);
      let t := u32 (ui - u32 (vi * qhat) - t) in
      wr AU (u + i) (LHALF t);;
      mul_sub u v i' qhat (Z.land (u32 (B - HHALF t)) (B - 1))
  end.

(** D6 *)
Fixpoint add_back (u v i : nat) (t : Z) : M dv Z :=
  match i with
  | O => mret t
  | S i' =>
      ui ← rd AU (u + i); vi ← rd AV (v + i);
      let t := u32 (t + (ui + vi)) in
      wr AU (u + i) (LHALF t);;
      add_back u v i' (HHALF t)
  end.

(** D3 to D6 for digit [j]; [u] is where [u[j]] is. *)
Definition div_digit (u v q n : nat) (v1 v2 : Z) : M dv unit :=
  uj0 ← rd AU u; uj1 ← rd AU (u + 1); uj2 ← rd AU (u + 2);
  qhat ← estimate v1 v2 uj0 uj1 uj2;
  t ← mul_sub u v n qhat 0;
  uj ← rd AU u;
  let t := u32 (uj - t) in
  wr AU u (LHALF t);;
  qhat ← (if negb (HHALF t =? 0) then
            t ← add_back u v n 0;
            uj ← rd AU u;
            wr AU u (LHALF (uj + t));;
            mret (u32 (qhat - 1))
          else mret qhat);
  wr AQ q qhat.

(** D7: the digits from [j] on, [k] of them. *)
Fixpoint div_digits (k u v q n : nat) (v1 v2 : Z) : M dv unit :=
  match k with O => mret tt | S k => div_digit u v q n v1 v2;; div_digits k (S u) v (S q) n v1 v2 end.

(** The remainder shifted back: digits [i], ..., 1 behind [u]. *)
Fixpoint shr_loop (u i : nat) (d : Z) : M dv unit :=
  match i with
  | O => wr AU u 0
  | S i' =>
      x ← rd AU (u + i); y ← rd AU (u + i');
      wr AU (u + i) (Z.lor (Z.shiftr x d) (LHALF (u32 (Z.shiftl y (HALF_BITS - d)))));;
      shr_loop u i' d
  end.

Definition join (a : arr) : M dv Z :=
  x1 ← rd a 1; x2 ← rd a 2; x3 ← rd a 3; x4 ← rd a 4;
  mret (to_ull (UU (COMBINE x1 x2) (COMBINE x3 x4))).

Definition long_div (arq : bool) (v n : nat) : M dv (Z * option Z) :=
  '(u, m) ← count_u 5 0 (4 - n);
  clear_q (4 - m);;
  t ← rd AV (v + 1);
  d ← norm_d 16 t 0;
  when (d >? 0) (shl AU u (m + n) d;; shl AV (v + 1) (n - 1) d);;
  v1 ← rd AV (v + 1); v2 ← rd AV (v + 2);
  div_digits (m + 1) u v (4 - m) n v1 v2;;
  r ← (if arq then
         when (negb (d =? 0)) (shr_loop (u + m) n d);;
         x ← join AU; mret (Some x)
       else mret None);
  q ← join AQ;
  mret (q, r).

(** The digits of a number, behind the first entry. *)
Definition split (a : arr) (x : Z) : M dv unit :=
  let tmp := of_ll x in
  wr a 1 (HHALF tmp.(ui_H));; wr a 2 (LHALF tmp.(ui_H));; wr a 3 (HHALF tmp.(ui_L));; wr a 4 (LHALF tmp.(ui_L)).

(** The division by zero faults, as the machine's does. *)
Definition __qdivrem (ull vll : Z) (arq : bool) : M dv (Z * option Z) :=
  if vll =? 0 then fault
  else if ull <? vll then mret (0, if arq then Some ull else None)
  else
    wr AU 0 0;; split AU ull;; split AV vll;;
    r ← count_v 4 0 4;
    match r with
    | inl v => short_div arq v
    | inr (v, n) => long_div arq v n
    end.

Definition __udivdi3 (a b : Z) : M dv Z := r ← __qdivrem a b false; mret r.1.
Definition __umoddi3 (a b : Z) : M dv Z := r ← __qdivrem a b true; of_opt r.2.

Definition __divdi3 (a b : Z) : M dv Z :=
  let '(ua, neg) := if a <? 0 then (u64 (- u64 a), true) else (u64 a, false) in
  let '(ub, neg) := if b <? 0 then (u64 (- u64 b), negb neg) else (u64 b, neg) in
  r ← __qdivrem ua ub false;
  mret (s64 (if (neg : bool) then u64 (- r.1) else r.1)).

Definition __moddi3 (a b : Z) : M dv Z :=
  let '(ua, neg) := if a <? 0 then (u64 (- u64 a), true) else (u64 a, false) in
  let ub := if b <? 0 then u64 (- u64 b) else u64 b in
  r ← __qdivrem ua ub true;
  ur ← of_opt r.2;
  mret (s64 (if (neg : bool) then u64 (- ur) else ur)).

(** ** Numbers in digits *)

Lemma B_eq : B = 65536.
Proof. done. Qed.

(** The number in the [k] digits from [o] on. *)
Fixpoint nv (l : list Z) (o k : nat) : Z :=
  match k with O => 0 | S k => nv l o k * B + l !!! (o + k)%nat end.

Definition is_digit (x : Z) : Prop := 0 ≤ x < B.
Definition digits (l : list Z) : Prop := length l = 5%nat ∧ Forall is_digit l.
Definition dok (s : dv) : Prop := ∀ a, digits (arr_of a s).

Lemma digits_at l i : digits l → is_digit (l !!! i).
Proof.
  intros [Hl HF]. rewrite list_lookup_total_alt. destruct (l !! i) as [x|] eqn:E; [|done]. simpl. by eapply Forall_lookup_1.
Qed.

Lemma digits_insert l i x : digits l → digits (<[i:=digit x]> l).
Proof.
  intros [Hl HF]. split; [by rewrite length_insert|]. apply Forall_insert; [done|]. unfold is_digit, digit. rewrite B_eq. lia.
Qed.

Lemma nv_bound l o k : digits l → 0 ≤ nv l o k < B ^ Z.of_nat k.
Proof.
  intros H. induction k as [|k IH]; [done|]. cbn [nv]. rewrite Nat2Z.inj_succ, Z.pow_succ_r by lia.
  pose proof (digits_at l (o + k) H) as Hd. unfold is_digit in Hd. rewrite B_eq in *. lia.
Qed.

Lemma nv_nonneg l o k : digits l → 0 ≤ nv l o k.
Proof. intros H. apply nv_bound, H. Qed.

Lemma nv_ext l l' o k : (∀ i, (o ≤ i < o + k)%nat → l' !!! i = l !!! i) → nv l' o k = nv l o k.
Proof. induction k as [|k IH]; intros H; [done|]. cbn [nv]. rewrite IH by (intros; apply H; lia). rewrite H by lia. done. Qed.

Lemma nv_insert l o k i x : (i < o ∨ o + k ≤ i)%nat → nv (<[i:=x]> l) o k = nv l o k.
Proof. intros H. apply nv_ext. intros j Hj. apply list_lookup_total_insert_ne. lia. Qed.

Lemma nv_app l o a b : nv l o (a + b) = nv l o a * B ^ Z.of_nat b + nv l (o + a) b.
Proof.
  induction b as [|b IH]; [rewrite Nat.add_0_r; simpl; lia|]. rewrite Nat.add_succ_r. cbn [nv]. rewrite IH, Nat.add_assoc.
  rewrite Nat2Z.inj_succ, Z.pow_succ_r by lia. ring.
Qed.

Lemma nv_first l o k : nv l o (S k) = l !!! o * B ^ Z.of_nat k + nv l (S o) k.
Proof. change (S k) with (1 + k)%nat. rewrite nv_app. cbn [nv]. rewrite !Nat.add_1_r, Nat.add_0_r. ring. Qed.

Lemma B_pow_pos k : 0 < B ^ Z.of_nat k.
Proof. apply Z.pow_pos_nonneg; [done|lia]. Qed.

(** A number below [B^b] has only [b] digits. *)
Lemma nv_prefix_zero l o a b : digits l → nv l o (a + b) < B ^ Z.of_nat b → nv l o a = 0.
Proof.
  intros Hd. rewrite nv_app. pose proof (nv_bound l o a Hd). pose proof (nv_bound l (o + a) b Hd). pose proof (B_pow_pos b). nia.
Qed.

(** ** Reading and writing *)

Lemma wp_rd {A} a i s (k : Z → M dv A) Q :
  dok s → (i < 5)%nat → (is_digit (arr_of a s !!! i) → wp (k (arr_of a s !!! i)) Q s) → wp (rd a i ≫= k) Q s.
Proof.
  intros Hs Hi Hk. destruct (Hs a) as [Hl _]. destruct (lookup_lt_is_Some_2 (arr_of a s) i) as [x Hx]; [lia|].
  unfold rd. apply wp_bind, wp_get. rewrite Hx. apply wp_ret. rewrite (list_lookup_total_correct _ _ _ Hx) in Hk.
  apply Hk. rewrite <- (list_lookup_total_correct _ _ _ Hx). by apply digits_at.
Qed.

Lemma arr_of_put a b l s : arr_of a (arr_put b l s) = match a, b with AU, AU | AV, AV | AQ, AQ => l | _, _ => arr_of a s end.
Proof. by destruct a, b. Qed.

Lemma put_dok a l s : dok s → digits l → dok (arr_put a l s).
Proof. intros Hs Hl b. rewrite arr_of_put. destruct b, a; try done; apply (Hs AU) || apply (Hs AV) || apply (Hs AQ). Qed.

Definition written (a : arr) (i : nat) (x : Z) (s : dv) : dv := arr_put a (<[i:=digit x]> (arr_of a s)) s.

Lemma written_dok a i x s : dok s → dok (written a i x s).
Proof. intros H. apply put_dok; [done|]. apply digits_insert, H. Qed.

Lemma wr_wp a i x s (Q : unit → dv → Prop) :
  dok s → (i < 5)%nat → (dok (written a i x s) → Q tt (written a i x s)) → wp (wr a i x) Q s.
Proof.
  intros Hs Hi HQ. unfold wr. apply wp_get. destruct (Hs a) as [Hl _]. rewrite decide_True by lia.
  apply wp_modify'. apply HQ, written_dok, Hs.
Qed.

(** ** Digits and bits *)

Lemma COMBINE_eq a b : is_digit a → is_digit b → COMBINE a b = a * B + b.
Proof.
  unfold is_digit, COMBINE, HALF_BITS. rewrite B_eq. intros Ha Hb. rewrite Z.shiftl_mul_pow2, u32_small by (unfold W32; lia).
  by apply (lor_low a b 16).
Qed.

(** [B] split at a shift. *)
Lemma B_split sh : 0 ≤ sh ≤ 16 → B = 2 ^ sh * 2 ^ (16 - sh) ∧ 0 < 2 ^ sh ∧ 0 < 2 ^ (16 - sh).
Proof.
  intros H. split; [rewrite <- Z.pow_add_r by lia; by replace (sh + (16 - sh)) with 16 by lia|].
  split; apply Z.pow_pos_nonneg; lia.
Qed.

Lemma shl_low x sh : is_digit x → 0 ≤ sh ≤ 16 → LHALF (u32 (Z.shiftl x sh)) = (x mod 2 ^ (16 - sh)) * 2 ^ sh ∧ x * 2 ^ sh = x / 2 ^ (16 - sh) * B + (x mod 2 ^ (16 - sh)) * 2 ^ sh.
Proof.
  intros Hx Hsh. destruct (B_split sh Hsh) as (E & P1 & P2). unfold is_digit in Hx. split.
  - rewrite LHALF_eq, Z.shiftl_mul_pow2 by lia. unfold u32. rewrite (Z.mod_mod_divide _ 4294967296 65536) by (by exists 65536).
    change 65536 with B. rewrite E at 1. rewrite (Z.mul_comm (2 ^ sh) (2 ^ (16 - sh))), Z.mul_mod_distr_r by lia. done.
  - pose proof (Z.div_mod x (2 ^ (16 - sh))) as D. rewrite E. rewrite D at 1 by lia. ring.
Qed.

Lemma digit_small x : is_digit x → digit x = x.
Proof. unfold is_digit, digit. rewrite B_eq. intros H. by apply Z.mod_small. Qed.

(** The digits a left shift writes. *)
Lemma shl_digit x y sh :
  is_digit x → is_digit y → 0 < sh < 16 →
  digit (Z.lor (LHALF (u32 (Z.shiftl x sh))) (Z.shiftr y (HALF_BITS - sh))) = x * 2 ^ sh - x * 2 ^ sh / B * B + y * 2 ^ sh / B.
Proof.
  intros Hx Hy Hsh. destruct (B_split sh) as (E & P1 & P2); [lia|]. destruct (shl_low x sh Hx) as [-> Ex]; [lia|]. destruct (shl_low y sh Hy) as [_ Ey]; [lia|].
  unfold HALF_BITS. rewrite Z.shiftr_div_pow2 by lia. set (p := 2 ^ (16 - sh)) in *. set (r := 2 ^ sh) in *. unfold is_digit in Hx, Hy.
  pose proof (Z.mod_pos_bound x p P2). pose proof (Z.mod_pos_bound y p P2). assert (0 ≤ y / p < r) by (split; [apply Z.div_pos|apply Z.div_lt_upper_bound]; lia).
  assert (x * r / B = x / p) as -> by (symmetry; apply Z.div_unique with (x mod p * r); nia).
  assert (y * r / B = y / p) as -> by (symmetry; apply Z.div_unique with (y mod p * r); nia).
  unfold r in *. rewrite lor_low by lia. rewrite digit_small by (unfold is_digit; nia). lia.
Qed.

Lemma shl_digit_last x sh :
  is_digit x → 0 < sh < 16 → digit (LHALF (u32 (Z.shiftl x sh))) = x * 2 ^ sh - x * 2 ^ sh / B * B.
Proof.
  intros Hx Hsh. pose proof (shl_digit x 0 sh Hx) as H. rewrite Z.shiftr_0_l, Z.lor_0_r in H. rewrite H; [|by unfold is_digit; rewrite B_eq|done].
  rewrite Z.mul_0_l, Z.div_0_l by done. lia.
Qed.

(** ** The loops over digits *)

Lemma put_put a l l' s : arr_put a l (arr_put a l' s) = arr_put a l s.
Proof. by destruct a. Qed.

Lemma arr_of_same a l s : arr_of a (arr_put a l s) = l.
Proof. by destruct a. Qed.

Lemma insert_at l i x : digits l → (i < 5)%nat → <[i:=x]> l !!! i = x.
Proof. intros [Hl _] Hi. apply list_lookup_total_insert_eq. lia. Qed.

(** What a loop leaves of an array it changes from [a] to [b] only. *)
Definition outside (l l' : list Z) (a b : nat) : Prop := ∀ i, (i < a ∨ b < i)%nat → l' !!! i = l !!! i.

Lemma shl_loop_wp a p k i sh s :
  dok s → 0 < sh < 16 → (p + i + k < 5)%nat → let l := arr_of a s in
  wp (shl_loop a p k i sh)
     (λ _ s', ∃ l', s' = arr_put a l' s ∧ digits l' ∧ outside l l' (p + i) (p + i + k) ∧
        nv l' (p + i) (S k) = nv l (p + i) (S k) * 2 ^ sh - l !!! (p + i)%nat * 2 ^ sh / B * B ^ Z.of_nat (S k)) s.
Proof.
  revert i s. induction k as [|k IH]; intros i s Hs Hsh Hp l; cbn [shl_loop].
  - apply wp_rd; [done|lia|]. intros Hx. fold l in Hx |- *. apply wr_wp; [done|lia|]. intros Hd. unfold written in *. fold l in Hd |- *. eexists. split; [done|].
    split; [apply digits_insert, Hs|]. split; [intros j Hj; apply list_lookup_total_insert_ne; lia|].
    cbn [nv]. rewrite !Nat.add_0_r, insert_at, shl_digit_last by (apply Hs || lia || done). rewrite Z.pow_1_r. lia.
  - apply wp_rd; [done|lia|]. intros Hx. apply wp_rd; [done|lia|]. intros Hy. fold l in Hx, Hy |- *.
    apply wp_bind. apply wr_wp; [done|lia|]. intros Hd. unfold written in *. fold l in Hd |- *. set (x' := digit _) in *. set (l1 := <[(p + i)%nat:=x']> l) in *.
    eapply wp_mono; [|apply IH; [done|done|lia]]. rewrite arr_of_same. intros _ s' (l' & -> & D & O & N). exists l'. split; [apply put_put|]. split; [done|].
    assert (nv l1 (p + S i) (S k) = nv l (p + S i) (S k)) as E0 by (apply nv_insert; lia). rewrite E0 in N. replace (p + S i)%nat with (S (p + i)) in * by lia.
    assert (l1 !!! (S (p + i)) = l !!! S (p + i)) as E1 by (apply list_lookup_total_insert_ne; lia). rewrite E1 in N. replace (p + i + 1)%nat with (S (p + i)) in * by lia.
    split.
    + intros j Hj. rewrite O by lia. apply list_lookup_total_insert_ne. lia.
    + rewrite (nv_first l'), (nv_first l _ (S k)), N, O by lia. unfold l1. rewrite insert_at by (apply Hs || lia).
      unfold x'. replace (p + i + 1)%nat with (S (p + i)) by lia. rewrite shl_digit by done. rewrite (Nat2Z.inj_succ (S k)), (Z.pow_succ_r B (Z.of_nat (S k))) by lia. ring.
Qed.

Lemma shl_wp a p len sh s :
  dok s → 0 < sh < 16 → (p + len < 5)%nat → let l := arr_of a s in l !!! p * 2 ^ sh < B →
  wp (shl a p len sh) (λ _ s', ∃ l', s' = arr_put a l' s ∧ digits l' ∧ outside l l' p (p + len) ∧ nv l' p (S len) = nv l p (S len) * 2 ^ sh) s.
Proof.
  intros Hs Hsh Hp l Hl. eapply wp_mono; [|by apply (shl_loop_wp a p len 0 sh s); [| |lia]]. intros ? s'. cbv beta. rewrite Nat.add_0_r.
  intros (l' & E & D & O & N). exists l'. rewrite N. fold l. rewrite (Z.div_small (l !!! p * 2 ^ sh)); [split_and!; try done; lia|].
  pose proof (digits_at l p (Hs a)) as Hd. unfold is_digit in Hd. split; [|done]. apply Z.mul_nonneg_nonneg; [lia|]. apply Z.pow_nonneg. lia.
Qed.

(** D4: the product is subtracted, with the borrow [t'] left over. *)
Lemma mul_sub_wp u v i qhat t s :
  dok s → (u + i < 5)%nat → (v + i < 5)%nat → is_digit qhat → is_digit t → let l := s.(uspace) in
  wp (mul_sub u v i qhat t)
     (λ t' s', ∃ l', s' = arr_put AU l' s ∧ digits l' ∧ outside l l' (S u) (u + i) ∧ is_digit t' ∧
        nv l' (S u) i = nv l (S u) i - qhat * nv s.(vspace) (S v) i - t + t' * B ^ Z.of_nat i) s.
Proof.
  revert t s. induction i as [|i IH]; intros t s Hs Hu Hv Hq Ht l; cbn [mul_sub].
  - apply wp_ret. exists l. split; [by destruct s|]. split; [apply (Hs AU)|]. split; [done|]. split; [done|]. cbn [nv]. rewrite Z.pow_0_r. lia.
  - apply wp_rd; [done|lia|]. intros Hx. apply wp_rd; [done|lia|]. intros Hy. cbn [arr_of] in *. fold l in Hx |- *.
    apply wp_bind, wr_wp; [done|lia|]. intros Hd. set (x := l !!! (u + S i)%nat) in *. set (y := vspace s !!! (v + S i)%nat) in *.
    set (w := u32 (x - u32 (y * qhat) - t)) in *. set (t1 := Z.land _ _). set (z := x - y * qhat - t).
    assert (w = z mod W32) as Ew. { unfold w, z, u32, W32. lia. }
    assert (- (B * B - B) ≤ z < B ∧ 0 ≤ y * qhat ≤ 65535 * 65535) as [Hz _] by (unfold z, is_digit in *; rewrite B_eq in *; nia).
    assert (t1 = - (z / B) ∧ LHALF w = z mod B) as [Et El].
    { unfold t1. rewrite LHALF_eq, HHALF_eq. change (B - 1) with (Z.ones 16). rewrite Z.land_ones by lia. rewrite Ew. unfold u32, W32. rewrite B_eq in *. change (2 ^ 16) with 65536. lia. }
    assert (is_digit t1) as Ht1 by (rewrite Et; unfold is_digit, z in *; rewrite B_eq in *; nia).
    eapply wp_mono; [|apply IH; [done|lia|lia|done|done]]. unfold written. cbn [arr_of arr_put uspace vspace].
    intros t' s' (l' & -> & D & O & Ht' & N). exists l'. split; [done|]. split; [done|].
    assert (digit (LHALF w) = z mod B) as Edg by (rewrite El; apply digit_small; unfold is_digit; by apply Z.mod_pos_bound).
    rewrite (nv_insert l (S u) i) in N by lia. split; [|split; [done|]].
    + intros j Hj. rewrite O by lia. apply list_lookup_total_insert_ne. lia.
    + cbn [nv]. rewrite N, O by lia. replace (S u + i)%nat with (u + S i)%nat by lia. replace (S v + i)%nat with (v + S i)%nat by lia.
      rewrite insert_at, Edg, Et by (apply (Hs AU) || lia). fold x y. rewrite Nat2Z.inj_succ, Z.pow_succ_r by lia.
      pose proof (Z.div_mod z B) as Dz. unfold z in Dz at 1. rewrite B_eq in *. lia.
Qed.

(** D6: the divisor is added back, with the carry [t'] left over. *)
Lemma add_back_wp u v i t s :
  dok s → (u + i < 5)%nat → (v + i < 5)%nat → 0 ≤ t ≤ 1 → let l := s.(uspace) in
  wp (add_back u v i t)
     (λ t' s', ∃ l', s' = arr_put AU l' s ∧ digits l' ∧ outside l l' (S u) (u + i) ∧ 0 ≤ t' ≤ 1 ∧
        nv l' (S u) i + t' * B ^ Z.of_nat i = nv l (S u) i + nv s.(vspace) (S v) i + t) s.
Proof.
  revert t s. induction i as [|i IH]; intros t s Hs Hu Hv Ht l; cbn [add_back].
  - apply wp_ret. exists l. split; [by destruct s|]. split; [apply (Hs AU)|]. split; [done|]. split; [done|]. cbn [nv]. rewrite Z.pow_0_r. lia.
  - apply wp_rd; [done|lia|]. intros Hx. apply wp_rd; [done|lia|]. intros Hy. cbn [arr_of] in *. fold l in Hx |- *.
    apply wp_bind, wr_wp; [done|lia|]. intros Hd. set (x := l !!! (u + S i)%nat) in *. set (y := vspace s !!! (v + S i)%nat) in *.
    unfold is_digit in Hx, Hy. rewrite B_eq in Hx, Hy. rewrite u32_small in * by (unfold W32; lia). rewrite HHALF_eq, LHALF_eq in *.
    eapply wp_mono; [|apply IH; [done|lia|lia|lia]]. unfold written. cbn [arr_of arr_put uspace vspace].
    intros t' s' (l' & -> & D & O & Ht' & N). exists l'. split; [done|]. split; [done|].
    rewrite digit_small in * by (unfold is_digit; rewrite B_eq; lia).
    rewrite (nv_insert l (S u) i) in N by lia. split; [|split; [done|]].
    + intros j Hj. rewrite O by lia. apply list_lookup_total_insert_ne. lia.
    + cbn [nv]. rewrite O by lia. replace (S u + i)%nat with (u + S i)%nat by lia. replace (S v + i)%nat with (v + S i)%nat by lia.
      rewrite insert_at by (apply (Hs AU) || lia). fold x y. rewrite Nat2Z.inj_succ, Z.pow_succ_r by lia. rewrite B_eq in *. lia.
Qed.

(** D3: the estimate is the quotient of the three leading digits by the two of the
    divisor, or the largest digit. *)
Definition good_qhat (v1 v2 t qhat : Z) : Prop :=
  is_digit qhat ∧ qhat * (v1 * B + v2) ≤ t ∧ (qhat = B - 1 ∨ t < (qhat + 1) * (v1 * B + v2)).

Lemma qhat_loop_wp fuel v1 v2 sum uj2 qhat rhat s :
  is_digit v1 → is_digit v2 → is_digit uj2 → is_digit qhat → is_digit rhat → v1 * qhat + rhat = sum →
  (qhat = B - 1 ∨ sum * B + uj2 < (qhat + 1) * (v1 * B + v2)) → B ≤ rhat + (Z.of_nat fuel - 1) * v1 → (0 < fuel)%nat →
  wp (qhat_loop fuel v1 v2 uj2 qhat rhat) (λ q s', s' = s ∧ good_qhat v1 v2 (sum * B + uj2) q) s.
Proof.
  intros Hv1 Hv2 Hu2. revert qhat rhat. induction fuel as [|fuel IH]; intros qhat rhat Hq Hr Es Hup Hf H0; [lia|]. cbn [qhat_loop].
  rewrite COMBINE_eq by done. unfold is_digit in *. rewrite B_eq in *. rewrite u32_small by (unfold W32; nia). rewrite Z.gtb_ltb, Z.geb_leb.
  destruct (Z.ltb_spec (rhat * 65536 + uj2) (v2 * qhat)) as [Ht|Ht].
  2:{ apply wp_ret. split; [done|]. unfold good_qhat, is_digit. rewrite B_eq. split; [done|]. split; [nia|done]. }
  assert (1 ≤ qhat) by nia. rewrite !u32_small by (unfold W32; lia).
  assert (sum * 65536 + uj2 < (qhat - 1 + 1) * (v1 * 65536 + v2)) by nia.
  destruct (Z.leb_spec 65536 (rhat + v1)).
  - apply wp_ret. split; [done|]. unfold good_qhat, is_digit. rewrite B_eq. split; [lia|]. split; [nia|by right].
  - apply IH; try lia.
Qed.

Lemma estimate_wp v1 v2 uj0 uj1 uj2 s :
  is_digit v1 → is_digit v2 → is_digit uj0 → is_digit uj1 → is_digit uj2 → B / 2 ≤ v1 → uj0 ≤ v1 →
  wp (estimate v1 v2 uj0 uj1 uj2) (λ q s', s' = s ∧ good_qhat v1 v2 ((uj0 * B + uj1) * B + uj2) q) s.
Proof.
  intros Hv1 Hv2 Hu0 Hu1 Hu2 Hn Hle. unfold estimate. change (B / 2) with 32768 in Hn. destruct (Z.eqb_spec uj0 v1) as [->|Hne].
  - unfold qhat_big. unfold is_digit in *. rewrite B_eq in *. rewrite !u32_small by (unfold W32; lia). rewrite Z.geb_leb.
    destruct (Z.leb_spec 65536 (uj1 + v1)).
    + apply wp_ret. split; [done|]. unfold good_qhat, is_digit. rewrite B_eq. split; [lia|]. split; [nia|by left].
    + apply (qhat_loop_wp 3 v1 v2 (v1 * B + uj1) uj2); unfold is_digit; rewrite ?B_eq; try lia.
  - rewrite COMBINE_eq by done. unfold is_digit in *. rewrite B_eq in *.
    assert (0 ≤ (uj0 * 65536 + uj1) mod v1 < v1) by (apply Z.mod_pos_bound; lia). pose proof (Z.div_mod (uj0 * 65536 + uj1) v1).
    assert (0 ≤ (uj0 * 65536 + uj1) / v1 < 65536) by (split; [apply Z.div_pos|apply Z.div_lt_upper_bound]; nia).
    apply (qhat_loop_wp 3 v1 v2 (uj0 * B + uj1) uj2); unfold is_digit; rewrite ?B_eq; try lia.
Qed.

(** The estimate is right or one too large. *)
Lemma qhat_near w p vr t xr n x qhat :
  n = w * p + vr → x = t * p + xr → 0 ≤ vr < p → 0 ≤ xr < p → B ≤ w → x < n * B → is_digit qhat → qhat * w ≤ t →
  (qhat = B - 1 ∨ t < (qhat + 1) * w) → (qhat - 1) * n ≤ x < (qhat + 1) * n.
Proof.
  unfold is_digit. intros -> -> Hv Hx Hw Hlt Hq Hle Hup. split.
  - assert ((qhat - 1) * (w * p + vr) ≤ (qhat - 1) * w * p + qhat * p) by nia. assert (qhat * p ≤ w * p) by nia. nia.
  - destruct Hup as [->|Hup]; [lia|]. assert ((t + 1) * p ≤ (qhat + 1) * w * p) by nia. nia.
Qed.

Lemma nv_two l o : nv l o 2 = l !!! o * B + l !!! S o.
Proof. cbn [nv]. rewrite Nat.add_0_r, Nat.add_1_r. lia. Qed.

Lemma nv_three l o : nv l o 3 = (l !!! o * B + l !!! S o) * B + l !!! S (S o).
Proof. cbn [nv]. rewrite Nat.add_0_r, Nat.add_1_r. replace (o + 2)%nat with (S (S o)) by lia. lia. Qed.

(** What the estimate says of the whole numbers. *)
Lemma qhat_digits l lv u v n qhat :
  digits l → digits lv → (2 ≤ n)%nat → B / 2 ≤ lv !!! S v → nv l u (S n) < nv lv (S v) n * B →
  good_qhat (lv !!! S v) (lv !!! S (S v)) ((l !!! u * B + l !!! S u) * B + l !!! S (S u)) qhat →
  let x := nv l u (S n) in let w := nv lv (S v) n in (qhat - 1) * w ≤ x < (qhat + 1) * w.
Proof.
  intros Hl Hv Hn Hh Hlt (Hq & Hle & Hup) x w. change (B / 2) with 32768 in Hh.
  assert (w = nv lv (S v) 2 * B ^ Z.of_nat (n - 2) + nv lv (S v + 2) (n - 2)) as Ew
    by (unfold w; replace n with (2 + (n - 2))%nat at 1 by lia; apply nv_app).
  assert (x = nv l u 3 * B ^ Z.of_nat (n - 2) + nv l (u + 3) (n - 2)) as Ex
    by (unfold x; replace (S n) with (3 + (n - 2))%nat at 1 by lia; apply nv_app).
  pose proof (digits_at lv (S (S v)) Hv) as D2. unfold is_digit in D2.
  eapply qhat_near; [exact Ew|exact Ex|by apply nv_bound|by apply nv_bound|rewrite nv_two, B_eq in *; lia|done|done| |];
    rewrite nv_two, nv_three; done.
Qed.

Lemma leading_le l lv u v n :
  digits l → digits lv → (1 ≤ n)%nat → nv l u (S n) < nv lv (S v) n * B → l !!! u ≤ lv !!! S v.
Proof.
  intros Hl Hv Hn. destruct n as [|n]; [lia|]. rewrite (nv_first l u (S n)), (nv_first lv (S v) n). pose proof (nv_bound l (S u) (S n) Hl) as H1.
  pose proof (nv_bound lv (S (S v)) n Hv) as H2. pose proof (B_pow_pos n) as Hp. rewrite Nat2Z.inj_succ, Z.pow_succ_r in * by lia. rewrite B_eq in *. nia.
Qed.

Lemma div_digit_wp u v q n s :
  dok s → (2 ≤ n)%nat → (u + n < 5)%nat → (v + n < 5)%nat → (q < 5)%nat →
  let l := s.(uspace) in let lv := s.(vspace) in let x := nv l u (S n) in let w := nv lv (S v) n in
  B / 2 ≤ lv !!! S v → x < w * B →
  wp (div_digit u v q n (lv !!! S v) (lv !!! S (S v)))
     (λ _ s', ∃ l', s' = written AQ q (x / w) (arr_put AU l' s) ∧ digits l' ∧ outside l l' u (u + n) ∧ nv l' u (S n) = x mod w) s.
Proof.
  intros Hs Hn Hu Hv Hq l lv x w Hh Hlt. pose proof (digits_at lv (S v) (Hs AV)) as Dv1. pose proof (digits_at lv (S (S v)) (Hs AV)) as Dv2.
  assert (0 < w) as Hw by (unfold x in Hlt; pose proof (nv_bound l u (S n) (Hs AU)); unfold is_digit in *; rewrite B_eq in *; lia).
  unfold div_digit. apply wp_rd; [done|lia|]. intros D0. apply wp_rd; [done|lia|]. intros D1. apply wp_rd; [done|lia|]. intros D2.
  cbn [arr_of] in *. fold l in D0, D1, D2 |- *. rewrite !Nat.add_1_r in *. replace (u + 2)%nat with (S (S u)) in * by lia.
  apply wp_bind. eapply wp_mono; [|apply (estimate_wp _ _ _ _ _ s); try done; apply (leading_le l lv u v n); [apply (Hs AU)|apply (Hs AV)|lia|done]].
  intros qhat s0 [-> Hg]. pose proof (qhat_digits l lv u v n qhat (Hs AU) (Hs AV) Hn Hh Hlt Hg) as Hnear. fold x w in Hnear. destruct Hg as (Dq & _).
  apply wp_bind. eapply wp_mono; [|apply (mul_sub_wp u v n qhat 0 s); try done].
  intros t s1 (l1 & -> & Dl1 & O1 & Dt & N1). fold l lv w in N1, O1. set (s1 := arr_put AU l1 s).
  assert (dok s1) as Hs1 by (by apply put_dok). apply wp_rd; [done|lia|]. intros _. cbn [arr_of s1 arr_put uspace]. rewrite O1 by lia. fold l.
  pose proof (nv_bound l1 (S u) n Dl1) as B1. pose proof (B_pow_pos n) as Hp. unfold is_digit in D0, Dt.
  assert (x - qhat * w = (l !!! u - t) * B ^ Z.of_nat n + nv l1 (S u) n) as Ex by (unfold x; rewrite nv_first; lia).
  apply wp_bind, wr_wp; [done|lia|]. intros Hs2. unfold written in *. change (arr_of AU s1) with l1 in *.
  rewrite HHALF_eq, LHALF_eq in *. set (z := u32 (l !!! u - t) mod 65536) in *. set (s2 := arr_put AU (<[u:=digit z]> l1) s1) in *.
  assert (∀ y, nv (<[u:=digit y]> l1) u (S n) = digit y * B ^ Z.of_nat n + nv l1 (S u) n) as Hset.
  { intros y. rewrite nv_first, insert_at, nv_insert by (done || lia). done. }
  destruct (Z.eqb_spec (u32 (l !!! u - t) / 65536) 0) as [E0|E0]; cbn [negb]; apply wp_bind.
  - assert (z = l !!! u - t ∧ 0 ≤ l !!! u - t) as [Ez Hz] by (unfold z, u32 in *; rewrite B_eq in *; lia).
    assert (qhat = x / w ∧ x - qhat * w = x mod w) as [Eq Er].
    { assert (0 ≤ x - qhat * w) by (rewrite Ex; lia). split; [apply Z.div_unique with (x - qhat * w)|apply Z.mod_unique with qhat]; lia. }
    apply wp_ret. apply wr_wp; [done|lia|]. intros _. exists (<[u:=digit z]> l1). split; [unfold written; by rewrite Eq|].
    split; [by apply digits_insert|]. split; [intros i Hi; rewrite list_lookup_total_insert_ne by lia; apply O1; lia|].
    rewrite Hset, digit_small by (unfold is_digit; rewrite ?B_eq in *; lia). lia.
  - assert (z = l !!! u - t + B ∧ l !!! u - t < 0) as [Ez Hz] by (unfold z, u32 in *; rewrite B_eq in *; lia).
    assert (qhat - 1 = x / w ∧ x - (qhat - 1) * w = x mod w) as [Eq Er].
    { assert (x - qhat * w < 0) by (rewrite Ex; nia). split; [apply Z.div_unique with (x - (qhat - 1) * w)|apply Z.mod_unique with (qhat - 1)]; lia. }
    apply wp_bind. eapply wp_mono; [|apply (add_back_wp u v n 0 s2); [done|lia|lia|lia]].
    intros c s3 (l3 & -> & Dl3 & O3 & Dc & N3). change (uspace s2) with (<[u:=digit z]> l1) in O3, N3. change (vspace s2) with lv in N3. rewrite (nv_insert l1 (S u) n) in N3 by lia. fold lv w in N3.
    assert (l3 !!! u = z) as Eu.
    { rewrite O3, insert_at by (done || lia). apply digit_small. unfold is_digit. rewrite B_eq in *. lia. }
    apply wp_rd; [by apply put_dok|lia|]. intros _. cbn [arr_of]. change (uspace (arr_put AU l3 s2)) with l3. rewrite Eu.
    apply wp_bind, wr_wp; [by apply put_dok|lia|]. intros Hs4. apply wp_ret. apply wr_wp; [done|lia|]. intros _.
    assert (u32 (qhat - 1) = x / w) as Eq'.
    { rewrite Eq. apply u32_small. pose proof (Z.div_pos x w (nv_nonneg l u (S n) (Hs AU)) Hw). unfold is_digit in Dq. rewrite B_eq in Dq. unfold W32. lia. }
    exists (<[u:=digit (LHALF (z + c))]> l3). split; [unfold written; by rewrite Eq'|]. split; [by apply digits_insert|].
    pose proof (nv_bound l3 (S u) n Dl3) as B3. pose proof (nv_bound lv (S v) n (Hs AV)) as Bw. fold w in Bw.
    assert (z + c = B ∧ nv l3 (S u) n = x mod w) as [Ezc Ern].
    { pose proof (Z.mod_pos_bound x w Hw). assert (nv l3 (S u) n + (z + c) * B ^ Z.of_nat n = x mod w + B * B ^ Z.of_nat n) by (rewrite Ez; nia).
      assert (z + c = B) by nia. split; [done|nia]. }
    split.
    + intros i Hi. rewrite list_lookup_total_insert_ne by lia. rewrite O3 by lia. rewrite list_lookup_total_insert_ne by lia. apply O1. lia.
    + rewrite nv_first, insert_at, nv_insert, LHALF_eq, Ezc, Ern by (done || lia). done.
Qed.

Lemma div_digits_wp k u v q n s :
  dok s → (2 ≤ n)%nat → (u + n + k ≤ 5)%nat → (v + n < 5)%nat → (q + k ≤ 5)%nat →
  let l := s.(uspace) in let lv := s.(vspace) in let w := nv lv (S v) n in
  B / 2 ≤ lv !!! S v → nv l u n < w →
  wp (div_digits k u v q n (lv !!! S v) (lv !!! S (S v)))
     (λ _ s', ∃ l' lq', s' = arr_put AQ lq' (arr_put AU l' s) ∧ digits l' ∧ digits lq' ∧
        outside l l' u (u + n + k - 1) ∧ outside s.(qspace) lq' q (q + k - 1) ∧
        nv l' u (n + k) = nv l u (n + k) mod w ∧ nv lq' q k = nv l u (n + k) / w) s.
Proof.
  revert u q s. induction k as [|k IH]; intros u q s Hs Hn Hu Hv Hq l lv w Hh Hlt; cbn [div_digits].
  - apply wp_ret. exists l, s.(qspace). split; [by destruct s|]. split; [apply (Hs AU)|]. split; [apply (Hs AQ)|]. split; [done|]. split; [done|].
    rewrite Nat.add_0_r. pose proof (nv_bound l u n (Hs AU)). by rewrite Z.mod_small, Z.div_small by lia.
  - pose proof (nv_bound l u n (Hs AU)) as B0. pose proof (digits_at l (u + n) (Hs AU)) as Dn. unfold is_digit in Dn.
    set (x := nv l u (S n)). assert (x = nv l u n * B + l !!! (u + n)%nat) as Ex by done. rewrite B_eq in Dn, Ex.
    apply wp_bind. eapply wp_mono; [|apply (div_digit_wp u v q n s); [done|lia|lia|lia|lia|done|fold l lv w x; rewrite B_eq; lia]].
    intros _ s1 (l1 & -> & Dl1 & O1 & N1). fold l lv w x in O1, N1 |- *. set (s1 := written _ _ _ _).
    assert (0 ≤ x mod w < w) as Hr by (apply Z.mod_pos_bound; lia).
    assert (dok s1) as Hs1 by (apply written_dok, put_dok; done). pose proof (nv_bound lv (S v) n (Hs AV)) as Bw. fold w in Bw.
    assert (l1 !!! u = 0) as Z1.
    { assert (nv l1 u 1 = 0) as Z1 by (apply (nv_prefix_zero l1 u 1 n Dl1); change (1 + n)%nat with (S n); lia).
      cbn [nv] in Z1. rewrite Nat.add_0_r in Z1. lia. }
    rewrite nv_first, Z1, Z.mul_0_l, Z.add_0_l in N1.
    eapply wp_mono; [|apply (IH (S u) (S q) s1); [done|done|lia|done|lia|done|change (nv l1 (S u) n < w); lia]].
    change (uspace s1) with l1. change (vspace s1) with lv. fold w. change (qspace s1) with (<[q:=digit (x / w)]> (qspace s)).
    intros _ s2 (l2 & lq2 & -> & D2 & Dq2 & O2 & Oq2 & N2 & Nq2). exists l2, lq2. split; [done|]. split; [done|]. split; [done|].
    split; [intros i Hi; rewrite O2, O1 by lia; done|]. split; [intros i Hi; rewrite Oq2, list_lookup_total_insert_ne by lia; done|].
    assert (nv l1 (S u) (n + k) = x mod w * B ^ Z.of_nat k + nv l (S (u + n)) k) as E1.
    { rewrite nv_app, N1. f_equal. apply nv_ext. intros i Hi. apply O1. lia. }
    assert (nv l u (n + S k) = x * B ^ Z.of_nat k + nv l (S (u + n)) k) as E2.
    { replace (n + S k)%nat with (S n + k)%nat by lia. rewrite nv_app. fold x. by replace (u + S n)%nat with (S (u + n)) by lia. }
    assert (nv l u (n + S k) = w * (x / w * B ^ Z.of_nat k) + nv l1 (S u) (n + k)) as E3.
    { rewrite E2, E1. rewrite (Z.div_mod x w) at 1 by lia. ring. }
    rewrite E3, Z.add_comm, (Z.mul_comm w). split.
    + replace (n + S k)%nat with (S (n + k)) by lia. rewrite nv_first, O2, Z1, N2 by lia. rewrite Z.mul_0_l, Z.add_0_l.
      rewrite Z.mod_add by lia. done.
    + rewrite nv_first, Nq2, Oq2, insert_at by (apply (Hs AQ) || lia). rewrite digit_small.
      * rewrite Z.div_add by lia. lia.
      * unfold is_digit. rewrite B_eq. split; [apply Z.div_pos|apply Z.div_lt_upper_bound]; lia.
Qed.

(** ** Before and after the division *)

Lemma nv_zero_at l o k i : digits l → nv l o k = 0 → (o ≤ i < o + k)%nat → l !!! i = 0.
Proof.
  intros Hl Hz Hi. revert Hz. replace k with ((i - o) + S (k - (i - o) - 1))%nat by lia. rewrite nv_app, nv_first. replace (o + (i - o))%nat with i by lia.
  pose proof (nv_nonneg l o (i - o) Hl). pose proof (nv_nonneg l (S i) (k - (i - o) - 1) Hl). pose proof (digits_at l i Hl) as Hd. unfold is_digit in Hd.
  pose proof (B_pow_pos (S (k - (i - o) - 1))). pose proof (B_pow_pos (k - (i - o) - 1)). nia.
Qed.

Lemma nv_zeros l o k : (∀ i, (o ≤ i < o + k)%nat → l !!! i = 0) → nv l o k = 0.
Proof. induction k as [|k IH]; intros H; [done|]. cbn [nv]. rewrite IH, H by (lia || intros; apply H; lia). done. Qed.

(** Behind leading zeros. *)
Lemma nv_skip l a : digits l → (1 ≤ a ≤ 5)%nat → nv l 0 a = 0 → nv l 1 4 = nv l a (5 - a).
Proof.
  intros Hl Ha Hz. pose proof (nv_app l 0 a (5 - a)) as E1. rewrite Hz in E1. change (0 + a)%nat with a in E1. replace (a + (5 - a))%nat with 5%nat in E1 by lia.
  rewrite (nv_first l 0 4), (nv_zero_at l 0 a 0) in E1 by (done || lia). lia.
Qed.

Lemma insert_lookup (l : list Z) i j x : (i < length l)%nat → <[i:=x]> l !!! j = if (i =? j)%nat then x else l !!! j.
Proof.
  intros H. destruct (Nat.eqb_spec i j) as [->|Hne]; [by apply list_lookup_total_insert_eq|by apply list_lookup_total_insert_ne].
Qed.

Lemma split_wp a x s :
  dok s → ull_range x →
  wp (split a x) (λ _ s', ∃ l', s' = arr_put a l' s ∧ digits l' ∧ l' !!! 0%nat = arr_of a s !!! 0%nat ∧ nv l' 1 4 = x) s.
Proof.
  intros Hs Hx. unfold split. set (h := ui_H (of_ll x)). set (l := ui_L (of_ll x)). pose proof (Hs a) as [Hl _].
  do 3 (apply wp_bind, wr_wp; [done|lia|]; clear Hs; intros Hs; unfold written in *; rewrite ?arr_of_same, ?put_put in *).
  apply wr_wp; [done|lia|]. clear Hs. intros Hs. unfold written in *. rewrite arr_of_same, put_put in *. eexists. split; [done|]. split; [by specialize (Hs a); rewrite arr_of_same in Hs|].
  split; [by rewrite !list_lookup_total_insert_ne by lia|]. cbn [nv Nat.add]. rewrite !insert_lookup by (rewrite ?length_insert; lia). cbn [Nat.eqb].
  assert (u_range h ∧ u_range l ∧ h * W32 + l = x) as (Hh & Hlo & E) by (unfold h, l; widths; lia). clearbody h l.
  rewrite !HHALF_eq, !LHALF_eq. unfold digit. widths. rewrite B_eq. lia.
Qed.

Lemma join_wp a s : dok s → wp (join a) (λ r s', s' = s ∧ r = nv (arr_of a s) 1 4) s.
Proof.
  intros Hs. unfold join. do 4 (apply wp_rd; [done|lia|]; intros ?). apply wp_ret. split; [done|]. unfold to_ull. cbn [ui_H ui_L].
  rewrite !COMBINE_eq by done. cbn [nv Nat.add]. unfold W32. rewrite B_eq. lia.
Qed.

Lemma count_v_wp s :
  dok s → let l := s.(vspace) in nv l 1 4 ≠ 0 →
  wp (count_v 4 0 4) (λ r s', s' = s ∧
    match r with
    | inl v => v = 2%nat ∧ nv l 1 4 = l !!! 4%nat
    | inr (v, n) => (v + n = 4)%nat ∧ (2 ≤ n)%nat ∧ nv l 1 4 = nv l (S v) n ∧ l !!! S v ≠ 0
    end) s.
Proof.
  intros Hs l Hne. cbn [count_v Nat.add Nat.sub Nat.eqb].
  do 3 (apply wp_rd; [done|lia|]; intros ?; cbn [arr_of]; fold l;
    match goal with |- context [?a =? 0] => destruct (Z.eqb_spec a 0) as [?E|?E] end;
    [|apply wp_ret; split; [done|]; split_and!; [lia|lia|cbn [nv Nat.add] in *; lia|done]]).
  apply wp_ret. split; [done|]. split; [done|]. cbn [nv Nat.add] in *. lia.
Qed.

(** One digit of the short division. *)
Lemma short_step t r d :
  is_digit t → 0 < t → 0 ≤ r < t → is_digit d →
  ∃ q r', COMBINE r d = r * B + d ∧ digit ((r * B + d) / t) = q ∧ (r * B + d) mod t = r' ∧ r * B + d = q * t + r' ∧ 0 ≤ r' < t ∧ is_digit q.
Proof.
  unfold is_digit. intros Ht Hp Hr Hd. exists ((r * B + d) / t), ((r * B + d) mod t). pose proof (Z.div_mod (r * B + d) t). pose proof (Z.mod_pos_bound (r * B + d) t Hp).
  assert (0 ≤ (r * B + d) / t < B) by (split; [apply Z.div_pos|apply Z.div_lt_upper_bound]; nia).
  split; [apply COMBINE_eq; unfold is_digit; lia|]. split; [by apply digit_small|]. split; [done|]. split; [lia|]. done.
Qed.

Lemma short_div_wp arq s :
  dok s → let x := nv s.(uspace) 1 4 in let t := s.(vspace) !!! 4%nat in t ≠ 0 →
  wp (short_div arq 2) (λ r _, r = (x / t, if arq then Some (x mod t) else None)) s.
Proof.
  intros Hs x t Ht. unfold short_div. apply wp_rd; [done|lia|]. intros Dt. apply wp_rd; [done|lia|]. intros D1. apply wp_rd; [done|lia|]. intros D2.
  apply wp_rd; [done|lia|]. intros D3. apply wp_rd; [done|lia|]. intros D4. apply wp_ret. cbn [arr_of Nat.add] in *. fold t in Dt |- *.
  assert (x = ((uspace s !!! 1%nat * B + uspace s !!! 2%nat) * B + uspace s !!! 3%nat) * B + uspace s !!! 4%nat) as Ex by (unfold x; cbn [nv Nat.add]; lia).
  assert (0 < t) as Hp by (unfold is_digit in Dt; lia).
  destruct (short_step t 0 _ Dt Hp (conj (Z.le_refl 0) Hp) D1) as (q1 & r1 & _ & E1 & E1' & F1 & R1 & Q1). rewrite Z.mul_0_l, Z.add_0_l in E1, E1', F1. rewrite E1, E1'.
  destruct (short_step t r1 _ Dt Hp R1 D2) as (q2 & r2 & -> & -> & -> & F2 & R2 & Q2). destruct (short_step t r2 _ Dt Hp R2 D3) as (q3 & r3 & -> & -> & -> & F3 & R3 & Q3).
  destruct (short_step t r3 _ Dt Hp R3 D4) as (q4 & r4 & -> & -> & -> & F4 & R4 & Q4). rewrite !COMBINE_eq by done.
  assert (x = t * (((q1 * B + q2) * B + q3) * B + q4) + r4) as Ex' by (rewrite Ex, F1; rewrite B_eq in *; lia).
  rewrite <- (Z.div_unique x t _ r4 (or_introl R4) Ex'), <- (Z.mod_unique x t _ r4 (or_introl R4) Ex'). unfold to_ull. cbn [ui_H ui_L]. f_equal. unfold W32. rewrite B_eq. lia.
Qed.

Lemma count_u_wp fuel u m n s :
  dok s → let l := s.(uspace) in (u + m = 4 - n)%nat → (1 ≤ n ≤ 4)%nat → (m < fuel)%nat → nv l 1 u = 0 → B ^ Z.of_nat (n - 1) ≤ nv l 1 4 →
  wp (count_u fuel u m) (λ r s', s' = s ∧ (r.1 + r.2 = 4 - n)%nat ∧ nv l 1 r.1 = 0 ∧ l !!! S r.1 ≠ 0) s.
Proof.
  intros Hs l. revert u m. induction fuel as [|fuel IH]; intros u m Hum Hn Hf Hz Hge; [lia|]. cbn [count_u]. apply wp_rd; [done|lia|]. intros _.
  cbn [arr_of]. fold l. rewrite Nat.add_1_r. destruct (Z.eqb_spec (l !!! S u) 0) as [E|E]; [|by apply wp_ret].
  assert (nv l 1 (S u) = 0) as Hz' by (cbn [nv Nat.add]; by rewrite Hz, E).
  apply IH; try done; try lia; destruct m as [|m]; try lia; exfalso.
  all: pose proof (nv_app l 1 (S u) (n - 1)) as Ea; replace (S u + (n - 1))%nat with 4%nat in Ea by lia; rewrite Hz' in Ea; pose proof (nv_bound l (1 + S u) (n - 1) (Hs AU)); lia.
Qed.

Lemma clear_q_wp k s :
  dok s → (k ≤ 5)%nat →
  wp (clear_q k) (λ _ s', ∃ l', s' = arr_put AQ l' s ∧ digits l' ∧ ∀ i, l' !!! i = if (i <? k)%nat then 0 else s.(qspace) !!! i) s.
Proof.
  revert s. induction k as [|k IH]; intros s Hs Hk; cbn [clear_q].
  - apply wp_ret. exists s.(qspace). split; [by destruct s|]. split; [apply (Hs AQ)|done].
  - apply wp_bind, wr_wp; [done|lia|]. intros Hs'. eapply wp_mono; [|apply IH; [done|lia]]. intros _ s2 (l' & -> & D & Hz).
    exists l'. split; [done|]. split; [done|]. intros i. rewrite Hz. change (qspace (written AQ k 0 s)) with (<[k:=digit 0]> (qspace s)).
    rewrite insert_lookup by (destruct (Hs AQ) as [Hl _]; simpl in Hl; lia).
    destruct (Nat.ltb_spec i k), (Nat.ltb_spec i (S k)), (Nat.eqb_spec k i); (done || lia).
Qed.

Lemma norm_d_wp fuel t d s :
  0 < t < B → 0 ≤ d → B / 2 ≤ t * 2 ^ (Z.of_nat fuel - 1) → (0 < fuel)%nat →
  wp (norm_d fuel t d) (λ r s', s' = s ∧ d ≤ r < d + Z.of_nat fuel ∧ B / 2 ≤ t * 2 ^ (r - d) < B) s.
Proof.
  change (B / 2) with 32768. rewrite B_eq. revert t d. induction fuel as [|fuel IH]; intros t d Ht Hd Hf H0; [lia|]. cbn [norm_d]. change (B / 2) with 32768.
  destruct (Z.ltb_spec t 32768) as [Hlt|Hge].
  - assert (u32 (Z.shiftl t 1) = t * 2) as -> by (rewrite Z.shiftl_mul_pow2 by lia; change (2 ^ 1) with 2; apply u32_small; unfold W32; lia).
    destruct fuel as [|fuel]; [simpl in Hf; lia|]. replace (Z.of_nat (S (S fuel)) - 1) with (Z.succ (Z.of_nat (S fuel) - 1)) in Hf by lia.
    rewrite Z.pow_succ_r in Hf by lia. eapply wp_mono; [|apply IH; [lia|lia|lia|lia]]. intros r s' (-> & Hr & Hb). split; [done|]. split; [lia|].
    replace (r - d) with (Z.succ (r - (d + 1))) by lia. rewrite Z.pow_succ_r by lia. lia.
  - apply wp_ret. split; [done|]. split; [lia|]. rewrite Z.sub_diag. lia.
Qed.

(** The digits a right shift writes. *)
Lemma shr_digit x y d :
  is_digit x → is_digit y → 0 < d < 16 →
  digit (Z.lor (Z.shiftr x d) (LHALF (u32 (Z.shiftl y (HALF_BITS - d))))) * 2 ^ d + x mod 2 ^ d = x + y mod 2 ^ d * B.
Proof.
  intros Hx Hy Hd. destruct (B_split d) as (E & P1 & P2); [lia|]. unfold HALF_BITS.
  destruct (shl_low y (16 - d) Hy) as [-> _]; [lia|]. replace (16 - (16 - d)) with d by lia. rewrite Z.shiftr_div_pow2, Z.lor_comm by lia.
  set (p := 2 ^ (16 - d)) in *. set (r := 2 ^ d) in *. unfold is_digit in Hx, Hy. pose proof (Z.mod_pos_bound y r P1). pose proof (Z.div_mod x r).
  assert (0 ≤ x / r < p) by (split; [apply Z.div_pos|apply Z.div_lt_upper_bound]; lia).
  unfold p in *. rewrite lor_low by lia. rewrite digit_small by (unfold is_digit; nia). rewrite E. lia.
Qed.

Lemma shr_loop_wp u i d s :
  dok s → 0 < d < 16 → (u + i < 5)%nat → let l := s.(uspace) in
  wp (shr_loop u i d)
     (λ _ s', ∃ l', s' = arr_put AU l' s ∧ digits l' ∧ outside l l' u (u + i) ∧ l' !!! u = 0 ∧
        nv l' (S u) i * 2 ^ d + l !!! (u + i)%nat mod 2 ^ d = nv l (S u) i + l !!! u mod 2 ^ d * B ^ Z.of_nat i) s.
Proof.
  revert s. induction i as [|i IH]; intros s Hs Hd Hu l; cbn [shr_loop].
  - apply wr_wp; [done|lia|]. intros Hs'. exists (<[u:=digit 0]> l). split; [done|]. split; [apply digits_insert, (Hs AU)|].
    split; [intros j Hj; apply list_lookup_total_insert_ne; lia|]. split; [apply insert_at; [apply (Hs AU)|lia]|]. cbn [nv]. rewrite Nat.add_0_r, Z.pow_0_r. lia.
  - apply wp_rd; [done|lia|]. intros Hx. apply wp_rd; [done|lia|]. intros Hy. cbn [arr_of] in *. fold l in Hx, Hy |- *.
    apply wp_bind, wr_wp; [done|lia|]. intros Hs'. set (x' := Z.lor _ _) in *. pose proof (shr_digit _ _ d Hx Hy Hd) as Ed. fold x' in Ed.
    eapply wp_mono; [|apply IH; [done|done|lia]]. change (uspace (written AU (u + S i) x' s)) with (<[(u + S i)%nat:=digit x']> l).
    intros _ s' (l' & -> & D & O & Hz & N). exists l'. split; [done|]. split; [done|].
    rewrite !list_lookup_total_insert_ne, nv_insert in N by lia.
    split; [intros j Hj; rewrite O by lia; apply list_lookup_total_insert_ne; lia|]. split; [done|].
    cbn [nv]. replace (S u + i)%nat with (u + S i)%nat by lia. rewrite O by lia. rewrite insert_at by (apply (Hs AU) || lia).
    rewrite Nat2Z.inj_succ, Z.pow_succ_r by lia. rewrite B_eq in *. lia.
Qed.

(** ** The long division *)

(** D1: both numbers are multiplied by [2^d]. *)
Lemma normalize_wp u v len n d s :
  dok s → (u + len < 5)%nat → (v + n < 5)%nat → (1 ≤ n)%nat → 0 ≤ d < 16 → s.(uspace) !!! u = 0 → B / 2 ≤ s.(vspace) !!! S v * 2 ^ d < B →
  wp (when (d >? 0) (shl AU u len d;; shl AV (v + 1) (n - 1) d))
     (λ _ s', ∃ l' lv', s' = Dv l' lv' s.(qspace) ∧ digits l' ∧ digits lv' ∧ outside s.(uspace) l' u (u + len) ∧
        nv l' u (S len) = nv s.(uspace) u (S len) * 2 ^ d ∧ nv lv' (S v) n = nv s.(vspace) (S v) n * 2 ^ d ∧ B / 2 ≤ lv' !!! S v) s.
Proof.
  intros Hs Hu Hv Hn Hd Hz Hb. rewrite Z.gtb_ltb. destruct (Z.ltb_spec 0 d) as [Hp|Hp]; cbn [when].
  - apply wp_bind. eapply wp_mono; [|apply (shl_wp AU u len d s); [done|lia|lia|cbn [arr_of]; rewrite Hz; by rewrite B_eq]].
    intros _ s1 (l' & -> & D & O & N). rewrite Nat.add_1_r. assert (S (n - 1) = n) as En by lia.
    eapply wp_mono; [|apply (shl_wp AV (S v) (n - 1) d (arr_put AU l' s)); [by apply put_dok|lia|lia|apply Hb]].
    intros _ s2 (lv' & -> & Dv & Ov & Nv). exists l', lv'. split; [done|]. split; [done|]. split; [done|]. split; [done|]. split; [done|]. cbn [arr_of arr_put vspace] in *.
    split; [by rewrite En in Nv|]. rewrite !nv_first in Nv. pose proof (nv_bound lv' (S (S v)) (n - 1) Dv). pose proof (nv_nonneg (vspace s) (S (S v)) (n - 1) (Hs AV)).
    pose proof (B_pow_pos (n - 1)). assert (0 < 2 ^ d) by (apply Z.pow_pos_nonneg; lia). nia.
  - apply wp_ret. assert (d = 0) as -> by lia. exists s.(uspace), s.(vspace). rewrite Z.pow_0_r, !Z.mul_1_r in *.
    split; [by destruct s|]. split; [apply (Hs AU)|]. split; [apply (Hs AV)|]. split_and!; try done; lia.
Qed.

(** The remainder is shifted back and collected. *)
Lemma remainder_wp c n d r s :
  dok s → (c + n = 4)%nat → 0 ≤ d < 16 → nv s.(uspace) 0 (S c) = 0 → nv s.(uspace) (S c) n = r * 2 ^ d →
  wp (when (negb (d =? 0)) (shr_loop c n d);; x ← join AU; mret (Some x))
     (λ x s', x = Some r ∧ ∃ l', s' = arr_put AU l' s ∧ digits l') s.
Proof.
  intros Hs Hc Hd Hz Hr. set (l := uspace s) in *. apply wp_bind. destruct (Z.eqb_spec d 0) as [->|Hne]; cbn [negb when].
  - apply wp_ret, wp_bind. eapply wp_mono; [|by apply join_wp]. intros x s' [-> ->]. apply wp_ret. cbn [arr_of]. fold l.
    split; [|exists l; split; [by destruct s|apply (Hs AU)]]. rewrite (nv_skip l (S c)) by (apply (Hs AU) || lia || done).
    replace (5 - S c)%nat with n by lia. f_equal. lia.
  - assert (l !!! c = 0) as Zc by (apply (nv_zero_at l 0 (S c)); [apply (Hs AU)|done|lia]).
    eapply wp_mono; [|apply (shr_loop_wp c n d s); [done|lia|lia]]. fold l. intros _ s' (l' & -> & D & O & Z' & N). rewrite Zc, Z.mod_0_l, Hr in N by (apply Z.pow_nonzero; lia).
    apply wp_bind. eapply wp_mono; [|apply join_wp; by apply put_dok]. intros x s' [-> ->]. apply wp_ret. cbn [arr_of arr_put uspace].
    split; [|by exists l']. rewrite (nv_skip l' (S c)); [|done|lia|].
    + replace (5 - S c)%nat with n by lia. f_equal. destruct (B_split d) as (_ & P1 & _); [lia|]. pose proof (Z.mod_pos_bound (l !!! (c + n)%nat) (2 ^ d) P1). nia.
    + cbn [nv Nat.add]. rewrite Z', (nv_ext l l' 0 c) by (intros i Hi; apply O; lia). cbn [nv Nat.add] in Hz. rewrite Zc in Hz. lia.
Qed.

Lemma lead_lt a p r x k b y : x * k = a * p + r → 0 ≤ r → x < p * b → b ≤ y → 0 < p → 0 < k → a < y * k.
Proof.
  intros E Hr Hx Hb Hp Hk. assert (x * k < p * b * k) by (by apply Z.mul_lt_mono_pos_r). assert (p * a < p * (b * k)) by lia.
  assert (a < b * k) by (by apply (Z.mul_lt_mono_pos_l p)). assert (b * k ≤ y * k) by (apply Z.mul_le_mono_nonneg_r; lia). lia.
Qed.

(** From the normalized numbers to the result. *)
Lemma divide_wp (arq : bool) u v m n d x y s :
  dok s → (u + m + n = 4)%nat → (v + n = 4)%nat → (2 ≤ n)%nat → 0 ≤ d < 16 → let l := s.(uspace) in let lv := s.(vspace) in
  nv l 0 u = 0 → nv l u (S (m + n)) = x * 2 ^ d → x < B ^ Z.of_nat (m + n) → nv lv (S v) n = y * 2 ^ d → B / 2 ≤ lv !!! S v →
  B ^ Z.of_nat (n - 1) ≤ y → (∀ i, (i < 4 - m)%nat → s.(qspace) !!! i = 0) →
  wp (div_digits (S m) u v (4 - m) n (lv !!! S v) (lv !!! S (S v));;
      r ← (if arq then when (negb (d =? 0)) (shr_loop (u + m) n d);; x ← join AU; mret (Some x) else mret None);
      q ← join AQ; mret (q, r))
     (λ r _, r = (x / y, if arq then Some (x mod y) else None)) s.
Proof.
  intros Hs Hu Hv Hn Hd l lv Hz Nx Bx Ny Hh By Hq. assert (0 < 2 ^ d) as Pd by (apply Z.pow_pos_nonneg; lia).
  pose proof (B_pow_pos (n - 1)) as Pn. assert (nv l u n < y * 2 ^ d) as Hlt.
  { pose proof (nv_app l u n (S m)) as Ea. replace (n + S m)%nat with (S (m + n)) in Ea by lia. rewrite Nx in Ea.
    replace (m + n)%nat with (S m + (n - 1))%nat in Bx by lia. rewrite Nat2Z.inj_add, Z.pow_add_r in Bx by lia.
    apply (lead_lt _ _ _ _ _ _ _ Ea (nv_nonneg l (u + n) (S m) (Hs AU)) Bx By (B_pow_pos (S m)) Pd). }
  apply wp_bind. eapply wp_mono; [|apply (div_digits_wp (S m) u v (4 - m) n s); [done|done|lia|lia|lia|done|fold l lv; lia]]. fold l lv.
  intros _ s3 (l3 & lq3 & -> & D3 & Dq3 & O3 & Oq3 & N3 & Nq3). replace (n + S m)%nat with (S (m + n)) in N3, Nq3 by lia.
  rewrite Nx, Ny in N3, Nq3. rewrite Z.mul_mod_distr_r in N3 by lia. rewrite Z.div_mul_cancel_r in Nq3 by lia.
  set (s3 := arr_put AQ lq3 _). assert (dok s3) as Hs3 by (by do 2 (apply put_dok; [|done])).
  assert (nv lq3 1 4 = x / y) as Eq.
  { rewrite <- Nq3, (nv_skip lq3 (4 - m)); [f_equal; lia|done|lia|]. apply nv_zeros. intros i Hi. rewrite Oq3 by lia. apply Hq. lia. }
  apply wp_bind. eapply (wp_mono _ (λ r s', r = (if arq then Some (x mod y) else None) ∧ dok s' ∧ qspace s' = lq3)).
  { intros r s4 (-> & Hs4 & E4). apply wp_bind. eapply wp_mono; [|by apply join_wp]. intros q s5 [-> ->]. apply wp_ret. cbn [arr_of]. by rewrite E4, Eq. }
  destruct arq; [|by apply wp_ret]. pose proof (nv_bound lv (S v) n (Hs AV)) as Bv. rewrite Ny in Bv.
  assert (0 ≤ x mod y * 2 ^ d < y * 2 ^ d) as Hr.
  { assert (0 ≤ x mod y < y) by (apply Z.mod_pos_bound; lia). split; [apply Z.mul_nonneg_nonneg; lia|]. apply Z.mul_lt_mono_pos_r; lia. }
  replace (S (m + n)) with (S m + n)%nat in N3 by lia. assert (nv l3 u (S m) = 0) as Zm by (apply (nv_prefix_zero l3 u (S m) n); [done|lia]).
  eapply wp_mono; [|apply (remainder_wp (u + m) n d (x mod y) s3); [done|lia|done| |]].
  - intros r s' (-> & l' & -> & D'). split; [done|]. split; [by apply put_dok|done].
  - change (uspace s3) with l3. replace (S (u + m)) with (u + S m)%nat by lia. rewrite nv_app, Nat.add_0_l, Zm, (nv_ext l l3 0 u); [by rewrite Hz|]. intros i Hi. apply O3. clear -Hi. lia.
  - change (uspace s3) with l3. rewrite nv_app, Zm in N3. by replace (S (u + m)) with (u + S m)%nat by lia.
Qed.

Lemma long_div_wp arq v n x y s :
  dok s → (v + n = 4)%nat → (2 ≤ n)%nat → s.(uspace) !!! 0%nat = 0 → nv s.(uspace) 1 4 = x → nv s.(vspace) (S v) n = y → s.(vspace) !!! S v ≠ 0 → y ≤ x →
  wp (long_div arq v n) (λ r _, r = (x / y, if arq then Some (x mod y) else None)) s.
Proof.
  intros Hs Hvn Hn H0 Hx Hy Hv1 Hle. set (l := uspace s) in *. set (lv := vspace s) in *.
  pose proof (digits_at lv (S v) (Hs AV)) as Dv1. unfold is_digit in Dv1. pose proof (B_pow_pos (n - 1)) as Hp1.
  assert (B ^ Z.of_nat (n - 1) ≤ y) as Hy1.
  { rewrite <- Hy. replace n with (S (n - 1)) at 2 by lia. rewrite nv_first. pose proof (nv_nonneg lv (S (S v)) (n - 1) (Hs AV)). nia. }
  unfold long_div. apply wp_bind. eapply wp_mono; [|apply (count_u_wp 5 0 (4 - n) n s); [done|lia|lia|lia|done|fold l; lia]].
  intros [u m] s0 (-> & Hum & Hz & _). cbn [fst snd] in *. fold l in Hz. apply wp_bind. eapply wp_mono; [|apply (clear_q_wp (4 - m) s); [done|lia]].
  intros _ s1 (lq & -> & Dq & Hq). set (s1 := arr_put AQ lq s). assert (dok s1) as Hs1 by (by apply put_dok).
  apply wp_rd; [done|lia|]. intros _. rewrite !Nat.add_1_r. change (arr_of AV s1) with lv.
  apply wp_bind. eapply wp_mono; [|apply (norm_d_wp 16 (lv !!! S v) 0 s1); [lia|lia|change (2 ^ (Z.of_nat 16 - 1)) with 32768; change (B / 2) with 32768; lia|lia]].
  intros d s0 (-> & Hd & Hb). rewrite Z.sub_0_r in Hb.
  assert (nv l 0 (S u) = 0) as Hz0 by (rewrite nv_first, H0; lia). assert (l !!! u = 0) as Zu by (apply (nv_zero_at l 0 (S u)); [apply (Hs AU)|done|lia]).
  assert (nv l (S u) (m + n) = x) as Ex by (rewrite <- Hx, (nv_skip l (S u)) by (apply (Hs AU) || lia || done); f_equal; lia).
  apply wp_bind. rewrite <- (Nat.add_1_r v). eapply wp_mono; [|apply (normalize_wp u v (m + n) n d s1); try done; lia].
  intros _ s2 (l2 & lv2 & -> & D2 & Dv2 & O2 & N2 & Nv2 & Hh). change (uspace s1) with l in O2, N2. change (vspace s1) with lv in Nv2. rewrite Hy in Nv2.
  rewrite (nv_first l u), Zu, Z.mul_0_l, Z.add_0_l, Ex in N2. set (s2 := Dv l2 lv2 _).
  assert (dok s2) as Hs2 by (intros []; [done|done|apply (Hs1 AQ)]). apply wp_rd; [done|lia|]. intros _. apply wp_rd; [done|lia|]. intros _.
  change (arr_of AV s2) with lv2. rewrite Nat.add_1_r. replace (v + 2)%nat with (S (S v)) by lia.
  apply (divide_wp arq u v m n d x y s2); try done; try lia.
  - cbn [uspace s2]. rewrite (nv_ext l l2 0 u) by (intros i Hi; apply O2; lia). cbn [nv Nat.add] in Hz0. pose proof (nv_nonneg l 0 u (Hs AU)). rewrite Zu, B_eq in Hz0. lia.
  - rewrite <- Ex. apply nv_bound, (Hs AU).
  - intros i Hi. cbn [qspace s2 s1 arr_put]. rewrite Hq. by rewrite (proj2 (Nat.ltb_lt _ _) Hi).
Qed.

Lemma qdivrem_wp x y arq s :
  dok s → ull_range x → ull_range y → y ≠ 0 →
  wp (__qdivrem x y arq) (λ r _, r = (x / y, if arq then Some (x mod y) else None)) s.
Proof.
  intros Hs Hx Hy Hne. unfold __qdivrem. rewrite (proj2 (Z.eqb_neq y 0) Hne). unfold ull_range in *. destruct (Z.ltb_spec x y).
  { apply wp_ret. rewrite Z.div_small, Z.mod_small by lia. done. }
  apply wp_bind, wr_wp; [done|lia|]. intros Hs0. set (s0 := written _ _ _ _) in *.
  apply wp_bind. eapply wp_mono; [|by apply (split_wp AU x s0)]. intros _ s1 (l & -> & D1 & Z1 & N1). set (s1 := arr_put AU l s0).
  assert (dok s1) as Hs1 by (by apply put_dok). assert (l !!! 0%nat = 0) as H0.
  { rewrite Z1. change (arr_of AU s0) with (<[0%nat:=digit 0]> (uspace s)). apply insert_at; [apply (Hs AU)|lia]. }
  apply wp_bind. eapply wp_mono; [|by apply (split_wp AV y s1)]. intros _ s2 (lv & -> & D2 & _ & N2). set (s2 := arr_put AV lv s1).
  assert (dok s2) as Hs2 by (by apply put_dok). apply wp_bind. eapply wp_mono; [|apply (count_v_wp s2); [done|by change (vspace s2) with lv; rewrite N2]].
  intros r s3 [-> Hr]. change (vspace s2) with lv in Hr. rewrite N2 in Hr. destruct r as [v|[v n]].
  - destruct Hr as [-> Ey]. eapply wp_mono; [|apply (short_div_wp arq s2); [done|change (vspace s2) with lv; by rewrite <- Ey]].
    change (vspace s2) with lv. change (uspace s2) with l. by rewrite N1, <- Ey.
  - destruct Hr as (Hvn & Hn & Ey & Hv1). by apply (long_div_wp arq v n x y s2).
Qed.

(** 64-bit division is exact: for every dividend and every divisor other than
    zero, whatever the arrays on the stack held before, the routine returns, reads
    and writes only inside its arrays, and gives the quotient and, if it is asked
    for, the remainder. *)
Theorem qdivrem_exact x y arq s :
  dok s → ull_range x → ull_range y → y ≠ 0 →
  ∃ s', __qdivrem x y arq s = Ret (x / y, if arq then Some (x mod y) else None) s'.
Proof. intros Hs Hx Hy Hne. destruct (wp_inv _ _ _ (qdivrem_wp x y arq s Hs Hx Hy Hne)) as (r & s' & E & ->). by exists s'. Qed.

(** Memory before the call. *)
Definition garbage : dv := Dv [7; 65535; 3; 9; 1] [65535; 2; 8; 1; 6] [4; 4; 4; 4; 4].

Lemma garbage_ok : dok garbage.
Proof. intros []; (split; [done|]); repeat constructor; done. Qed.

Lemma qdivrem_exact_witness :
  ∃ s', __qdivrem 18446744073709551615 281479271743489 true garbage = Ret (65535, Some 0) s'.
Proof. apply (qdivrem_exact 18446744073709551615 281479271743489 true garbage garbage_ok); done. Defined.

(** C15. Signed and unsigned 64-bit division: the quotient rounded toward zero, the
    remainder with the sign of the dividend (the most negative number divided by
    -1 wraps around to itself), and on unsigned numbers the floor and the
    remainder. *)
Theorem division_exact a b x y s :
  dok s → ll_range a → ll_range b → b ≠ 0 → ull_range x → ull_range y → y ≠ 0 →
  (∃ s', __divdi3 a b s = Ret (s64 (Z.quot a b)) s') ∧ (∃ s', __moddi3 a b s = Ret (Z.rem a b) s') ∧
  (∃ s', __udivdi3 x y s = Ret (x / y) s') ∧ (∃ s', __umoddi3 x y s = Ret (x mod y) s').
Proof.
  intros Hs Ha Hb Hne Hx Hy Hny.
  assert (∀ c, ll_range c → (if c <? 0 then u64 (- u64 c) else u64 c) = Z.abs c) as Habs by (intros c Hc; destruct (Z.ltb_spec c 0); widths; lia).
  assert (∀ c, ll_range c → ull_range (Z.abs c)) as Hr by (intros c Hc; widths; lia).
  assert (∀ arq, ∃ s', __qdivrem (Z.abs a) (Z.abs b) arq s = Ret (Z.abs a / Z.abs b, if arq then Some (Z.abs a mod Z.abs b) else None) s') as Hq.
  { intros arq. destruct (wp_inv _ _ _ (qdivrem_wp (Z.abs a) (Z.abs b) arq s Hs (Hr a Ha) (Hr b Hb) ltac:(lia))) as (r & s' & E & ->). by exists s'. }
  assert (∀ z, s64 (u64 z) = s64 z) as Hsu by (intros z; apply s64_eq; widths; lia).
  assert (0 ≤ Z.abs a mod Z.abs b < Z.abs b) as Hm by (apply Z.mod_pos_bound; lia).
  split_and!.
  - destruct (Hq false) as [s' E]. exists s'. unfold __divdi3. rewrite Z.quot_div by done. pose proof (Habs a Ha) as Ea. pose proof (Habs b Hb) as Eb.
    destruct (Z.ltb_spec a 0), (Z.ltb_spec b 0); rewrite Ea, Eb; (erewrite bind_Ret by exact E); cbn [negb fst]; unfold mret, M_ret; rewrite ?Hsu; f_equal; f_equal;
      rewrite ?(Z.sgn_neg a), ?(Z.sgn_neg b) by done; try lia; destruct (Z.eq_dec a 0) as [->|]; rewrite ?Z.sgn_pos by lia; try lia; by rewrite Z.div_0_l by lia.
  - destruct (Hq true) as [s' E]. exists s'. unfold __moddi3. rewrite Z.rem_mod by done. pose proof (Habs a Ha) as Ea. rewrite (Habs b Hb).
    destruct (Z.ltb_spec a 0); rewrite Ea; (erewrite bind_Ret by exact E); cbn [snd]; rewrite (bind_Ret _ _ _ (Z.abs a mod Z.abs b) s') by done; unfold mret, M_ret; rewrite ?Hsu, s64_id; f_equal.
    + rewrite Z.sgn_neg by done. lia.
    + widths. lia.
    + destruct (Z.eq_dec a 0) as [->|]; [by rewrite Z.mod_0_l by lia|]. rewrite Z.sgn_pos by lia. lia.
    + widths. lia.
  - destruct (wp_inv _ _ _ (qdivrem_wp x y false s Hs Hx Hy Hny)) as (r & s' & E & ->). exists s'. unfold __udivdi3. by erewrite bind_Ret by exact E.
  - destruct (wp_inv _ _ _ (qdivrem_wp x y true s Hs Hx Hy Hny)) as (r & s' & E & ->). exists s'. unfold __umoddi3. by erewrite bind_Ret by exact E.
Qed.

Lemma division_exact_witness :
  (∃ s', __divdi3 (-7) 2 garbage = Ret (-3) s') ∧ (∃ s', __moddi3 (-7) 2 garbage = Ret (-1) s') ∧
  (∃ s', __udivdi3 18446744073709551609 4294967296 garbage = Ret 4294967295 s') ∧
  (∃ s', __umoddi3 18446744073709551609 4294967296 garbage = Ret 4294967289 s').
Proof. apply (division_exact (-7) 2 18446744073709551609 4294967296 garbage garbage_ok); done. Defined.
