(* ===== verification/Umalloc.v ===== *)
(** The C library's allocator (user/lib/libc/stdlib/malloc.c): first fit over blocks
    with headers, down to the bit fields of the headers in memory, and that it
    implements allocation on a list of blocks. *)

From Stdlib Require Import ZArith Lia.
From stdpp Require Import base numbers list.
From S2P Require Import Prelude.

(** ** The code *)

Definition MBLOCKSIZE : Z := 8.
Definition MBLOCKSHIFT : Z := 3.
Definition MMAGIC : Z := 2.

(** The process: its memory, the two static variables, and the break. *)
Record um := Um { umem : Z → Z; heapbase : Z; heaptop : Z; ubrk : Z; ustart : Z }.

(** A word of the heap; anything else is not mapped. *)
Definition mapped (s : um) (a : Z) : bool := (s.(ustart) <=? a) && (a + 4 <=? s.(ubrk)) && (a mod 4 =? 0).
Definition rdw (a : Z) : M um Z := s ← get; if mapped s a then mret (word_at s.(umem) a) else fault.
Definition wrw (a w : Z) : M um unit :=
  s ← get; if mapped s a then modify (λ s, Um (word_put s.(umem) a w) s.(heapbase) s.(heaptop) s.(ubrk) s.(ustart)) else fault.

(** [struct mheader]: the fields of the first word and of the second, from the most
    significant bit on. *)
Definition mh_prevblock (mh : Z) : M um Z := w ← rdw mh; mret (Z.shiftr w 3).
Definition mh_magic1 (mh : Z) : M um Z := w ← rdw mh; mret (Z.land w 3).
Definition mh_nextblock (mh : Z) : M um Z := w ← rdw (mh + 4); mret (Z.shiftr w 3).
Definition mh_inuse (mh : Z) : M um bool := w ← rdw (mh + 4); mret (Z.testbit w 2).
Definition mh_magic2 (mh : Z) : M um Z := w ← rdw (mh + 4); mret (Z.land w 3).

Definition word_of (block bit magic : Z) : Z := Z.lor (Z.lor (Z.shiftl (block mod 536870912) 3) (Z.shiftl bit 2)) magic.
Definition set_block (a v : Z) : M um unit := w ← rdw a; wrw a (word_of v (Z.b2z (Z.testbit w 2)) (Z.land w 3)).
Definition set_bit (a v : Z) : M um unit := w ← rdw a; wrw a (word_of (Z.shiftr w 3) v (Z.land w 3)).
Definition set_magic (a v : Z) : M um unit := w ← rdw a; wrw a (word_of (Z.shiftr w 3) (Z.b2z (Z.testbit w 2)) v).

Definition set_prevblock (mh v : Z) : M um unit := set_block mh v.
Definition set_pad (mh v : Z) : M um unit := set_bit mh v.
Definition set_magic1 (mh v : Z) : M um unit := set_magic mh v.
Definition set_nextblock (mh v : Z) : M um unit := set_block (mh + 4) v.
Definition set_inuse (mh v : Z) : M um unit := set_bit (mh + 4) v.
Definition set_magic2 (mh v : Z) : M um unit := set_magic (mh + 4) v.

Definition M_NEXTOFF (mh : Z) : M um Z := n ← mh_nextblock mh; mret (u32 (Z.shiftl n MBLOCKSHIFT)).
Definition M_PREVOFF (mh : Z) : M um Z := n ← mh_prevblock mh; mret (u32 (Z.shiftl n MBLOCKSHIFT)).
Definition M_NEXT (mh : Z) : M um Z := n ← M_NEXTOFF mh; mret (u32 (mh + n)).
Definition M_PREV (mh : Z) : M um Z := n ← M_PREVOFF mh; mret (u32 (mh - n)).
Definition M_DATA (mh : Z) : Z := u32 (mh + MBLOCKSIZE).
Definition M_SIZE (mh : Z) : M um Z := n ← M_NEXTOFF mh; mret (u32 (n - MBLOCKSIZE)).
Definition M_OK (mh : Z) : M um bool :=
  a ← mh_magic1 mh; if a =? MMAGIC then b ← mh_magic2 mh; mret (b =? MMAGIC) else mret false.
Definition M_MKFIELD (off : Z) : Z := Z.shiftr off MBLOCKSHIFT.

(** [errx] and [err] end the program. *)
Definition errx {A} : M um A := panic.

Section sbrk.
(** What the kernel grants: the break and the amount it is to be moved by. *)
Context (grant : Z → Z → bool).

Definition NOMEM : Z := 4294967295.

Definition sbrk (amount : Z) : M um Z :=
  s ← get;
  if grant s.(ubrk) (s32 amount) then
    modify (λ s, Um s.(umem) s.(heapbase) s.(heaptop) (s.(ubrk) + s32 amount) s.(ustart));; mret s.(ubrk)
  else mret NOMEM.

Definition set_heap (b t : Z) : M um unit := modify (λ s, Um s.(umem) b t s.(ubrk) s.(ustart)).

(** The checks of the sizes hold by the definitions above. *)
Definition __malloc_init : M um unit :=
  s ← get;
  if negb (s.(heapbase) =? 0) || negb (s.(heaptop) =? 0) then errx
  else
    x ← sbrk 0;
    if x =? NOMEM then errx
    else if x =? 0 then errx
    else
      set_heap x x;;
      if negb (x mod MBLOCKSIZE =? 0) then
        let adjust := MBLOCKSIZE - x mod MBLOCKSIZE in
        y ← sbrk adjust;
        if y =? NOMEM then errx
        else if negb (y =? x) then errx
        else set_heap (u32 (x + adjust)) (u32 (x + adjust))
      else mret tt.

(** [None] is a null pointer. *)
Definition __malloc_sbrk (size : Z) : M um (option Z) :=
  x ← sbrk size;
  if x =? NOMEM then mret None
  else
    s ← get;
    if negb (x =? s.(heaptop)) then errx
    else set_heap s.(heapbase) (u32 (s.(heaptop) + size));; mret (Some x).

Definition __malloc_split (mh size : Z) : M um unit :=
  if negb (size mod MBLOCKSIZE =? 0) then errx
  else
    sz ← M_SIZE mh;
    if u32 (sz - size) <? 2 * MBLOCKSIZE then mret tt
    else
      mhnext ← M_NEXT mh;
      oldsize ← M_SIZE mh;
      set_nextblock mh (M_MKFIELD (u32 (size + MBLOCKSIZE)));;
      mhnew ← M_NEXT mh;
      if mhnew =? mhnext then errx
      else
        set_prevblock mhnew (M_MKFIELD (u32 (size + MBLOCKSIZE)));;
        set_pad mhnew 0;;
        set_magic1 mhnew MMAGIC;;
        set_nextblock mhnew (M_MKFIELD (u32 (oldsize - size)));;
        set_inuse mhnew 0;;
        set_magic2 mhnew MMAGIC;;
        s ← get;
        if negb (mhnext =? s.(heaptop)) then n ← mh_nextblock mhnew; set_prevblock mhnext n else mret tt.

(** The search: a block that fits, or where it ended and the size before. *)
Fixpoint malloc_loop (fuel : nat) (size i rightprevblock : Z) : M um (Z + Z * Z) :=
  match fuel with
  | O => diverge
  | S fuel =>
      s ← get;
      if i <? s.(heaptop) then
        ok ← M_OK i;
        if negb ok then errx
        else
          p ← mh_prevblock i;
          if negb (p =? rightprevblock) then errx
          else
            rightprevblock ← mh_nextblock i;
            off ← M_NEXTOFF i;
            used ← mh_inuse i;
            if (used : bool) then malloc_loop fuel size (u32 (i + off)) rightprevblock
            else
              sz ← M_SIZE i;
              if sz <? size then malloc_loop fuel size (u32 (i + off)) rightprevblock
              else mret (inl i)
      else mret (inr (i, rightprevblock))
  end.

Definition round_up (size : Z) : Z := Z.land (u32 (size + MBLOCKSIZE - 1)) (u32 (Z.lnot (MBLOCKSIZE - 1))).

(** One step per block at most, a block being at least a header. *)
Definition heap_fuel (s : um) : nat := S (Z.to_nat ((s.(heaptop) - s.(heapbase)) / MBLOCKSIZE)).

Definition malloc (size : Z) : M um (option Z) :=
  s ← get;
  when (s.(heapbase) =? 0) __malloc_init;;
  s ← get;
  if (s.(heapbase) =? 0) || (s.(heaptop) =? 0) || (s.(heapbase) >? s.(heaptop)) then errx
  else
    let size := round_up size in
    r ← malloc_loop (heap_fuel s) size s.(heapbase) 0;
    match r with
    | inl mh => __malloc_split mh size;; set_inuse mh 1;; mret (Some (M_DATA mh))
    | inr (i, rightprevblock) =>
        s ← get;
        if negb (i =? s.(heaptop)) then errx
        else
          r ← __malloc_sbrk (u32 (size + MBLOCKSIZE));
          match r with
          | None => mret None
          | Some mh =>
              set_prevblock mh rightprevblock;; set_magic1 mh MMAGIC;; set_magic2 mh MMAGIC;; set_pad mh 0;;
              set_inuse mh 1;; set_nextblock mh (M_MKFIELD (u32 (size + MBLOCKSIZE)));;
              mret (Some (M_DATA mh))
          end
    end.
End sbrk.

Definition __malloc_deadbeef (ptr size : Z) : M um unit :=
  for_up (Z.to_nat (size / 4)) 0 (λ i, wrw (ptr + 4 * i) 0xdeadbeef).

Definition __malloc_trymerge (mh mhnext : Z) : M um unit :=
  a ← mh_nextblock mh; b ← mh_prevblock mhnext;
  if negb (a =? b) then errx
  else
    u ← mh_inuse mh;
    v ← (if (u : bool) then mret true else mh_inuse mhnext);
    if (v : bool) then mret tt
    else
      mhnextnext ← M_NEXT mhnext;
      x ← M_SIZE mh; y ← M_SIZE mhnext;
      set_nextblock mh (M_MKFIELD (u32 (MBLOCKSIZE + x + MBLOCKSIZE + y)));;
      s ← get;
      (if negb (mhnextnext =? s.(heaptop)) then n ← mh_nextblock mh; set_prevblock mhnextnext n else mret tt);;
      __malloc_deadbeef mhnext MBLOCKSIZE.

Definition free (x : option Z) : M um unit :=
  match x with
  | None => mret tt
  | Some x =>
      s ← get;
      if (s.(heapbase) =? 0) || (s.(heaptop) =? 0) || (s.(heapbase) >? s.(heaptop)) then errx
      else if (x <? s.(heapbase)) || (x >=? s.(heaptop)) then errx
      else
        let mh := u32 (x - MBLOCKSIZE) in
        ok ← M_OK mh;
        if negb ok then errx
        else
          u ← mh_inuse mh;
          if negb u then errx
          else
            set_inuse mh 0;;
            sz ← M_SIZE mh;
            __malloc_deadbeef (M_DATA mh) sz;;
            mhnext ← M_NEXT mh;
            (if negb (mhnext =? s.(heaptop)) then __malloc_trymerge mh mhnext else mret tt);;
            if negb (mh =? s.(heapbase)) then mhprev ← M_PREV mh; __malloc_trymerge mhprev mh else mret tt
  end.

(** ** Words and headers *)

Lemma word_fields w : Z.shiftr w 3 = w / 8 ∧ Z.land w 3 = w mod 4 ∧ Z.b2z (Z.testbit w 2) = w / 4 mod 2.
Proof.
  split; [by rewrite Z.shiftr_div_pow2|]. split; [by apply (Z.land_ones w 2)|]. rewrite Z.testbit_spec' by lia. done.
Qed.

Lemma word_of_eq b t m : 0 ≤ t ≤ 1 → 0 ≤ m < 4 → word_of b t m = b mod 536870912 * 8 + t * 4 + m.
Proof.
  intros Ht Hm. unfold word_of. rewrite !Z.shiftl_mul_pow2 by lia. change (2 ^ 3) with 8. change (2 ^ 2) with 4.
  assert (Z.lor (b mod 536870912 * 8) (t * 4) = b mod 536870912 * 8 + t * 4) as ->.
  { assert (t = 0 ∨ t = 1) as [-> | ->] by lia; [by rewrite Z.lor_0_r, Z.add_0_r|]. apply (lor_low (b mod 536870912) 4 3); lia. }
  replace (b mod 536870912 * 8 + t * 4) with ((b mod 536870912 * 2 + t) * 2 ^ 2) by lia. rewrite lor_low by lia. lia.
Qed.

Definition put (s : um) (a w : Z) : um := Um (word_put s.(umem) a w) s.(heapbase) s.(heaptop) s.(ubrk) s.(ustart).

Lemma word_at_other m a b v : a + 4 ≤ b ∨ b + 4 ≤ a → word_at (word_put m a v) b = word_at m b.
Proof. intros H. apply word_at_ext. intros x Hx. apply word_put_other. lia. Qed.

Lemma mapped_put s a w b : mapped (put s a w) b = mapped s b.
Proof. done. Qed.

Lemma wp_rdw {A} s a (k : Z → M um A) Q : mapped s a = true → wp (k (word_at s.(umem) a)) Q s → wp (rdw a ≫= k) Q s.
Proof. intros Hm Hk. unfold rdw. apply wp_bind, wp_get. rewrite Hm. by apply wp_ret. Qed.

Lemma wp_wrw {A} s a w (k : unit → M um A) Q : mapped s a = true → wp (k tt) Q (put s a w) → wp (wrw a w ≫= k) Q s.
Proof. intros Hm Hk. unfold wrw. apply wp_bind, wp_get. rewrite Hm. by apply wp_modify'. Qed.

(** The three kinds of assignment to a field, on any word. *)
Lemma wp_set_block {A} s a v (k : unit → M um A) Q :
  mapped s a = true → wp (k tt) Q (put s a (v mod 536870912 * 8 + word_at s.(umem) a mod 8)) → wp (set_block a v ≫= k) Q s.
Proof.
  intros Hm Hk. unfold set_block. apply wp_bind, wp_rdw; [done|]. destruct (word_fields (word_at (umem s) a)) as (_ & -> & ->).
  apply wp_bind_ret, wp_wrw; [done|]. apply wp_ret. rewrite word_of_eq by lia.
  replace (v mod 536870912 * 8 + word_at (umem s) a mod 8) with (v mod 536870912 * 8 + word_at (umem s) a / 4 mod 2 * 4 + word_at (umem s) a mod 4) in Hk by lia. done.
Qed.

Lemma wp_set_bit {A} s a v (k : unit → M um A) Q :
  mapped s a = true → 0 ≤ v ≤ 1 → wp (k tt) Q (put s a (word_at s.(umem) a / 8 mod 536870912 * 8 + v * 4 + word_at s.(umem) a mod 4)) →
  wp (set_bit a v ≫= k) Q s.
Proof.
  intros Hm Hv Hk. unfold set_bit. apply wp_bind, wp_rdw; [done|]. destruct (word_fields (word_at (umem s) a)) as (-> & -> & _).
  apply wp_bind_ret, wp_wrw; [done|]. apply wp_ret. by rewrite word_of_eq by lia.
Qed.

Lemma wp_set_magic {A} s a v (k : unit → M um A) Q :
  mapped s a = true → 0 ≤ v < 4 → wp (k tt) Q (put s a (word_at s.(umem) a / 8 mod 536870912 * 8 + word_at s.(umem) a / 4 mod 2 * 4 + v)) →
  wp (set_magic a v ≫= k) Q s.
Proof.
  intros Hm Hv Hk. unfold set_magic. apply wp_bind, wp_rdw; [done|]. destruct (word_fields (word_at (umem s) a)) as (-> & _ & ->).
  apply wp_bind_ret, wp_wrw; [done|]. apply wp_ret. by rewrite word_of_eq by lia.
Qed.

(** A header: the size of the block before, the size of the block (both in bytes,
    the header included) and whether it is in use. *)
Definition hdr (m : Z → Z) (a prev sz : Z) (use : bool) : Prop :=
  word_at m a = prev + 2 ∧ word_at m (a + 4) = sz + (if use then 4 else 0) + 2.

Definition size_ok (sz : Z) : Prop := sz mod 8 = 0 ∧ 0 ≤ sz < W32.

Record at_hdr (s : um) (a prev sz : Z) (use : bool) : Prop := {
  ah_addr : 0 ≤ a ∧ a + sz < W32;
  ah_mapped : mapped s a = true ∧ mapped s (a + 4) = true;
  ah_hdr : hdr s.(umem) a prev sz use;
  ah_prev : size_ok prev ∧ prev ≤ a;
  ah_size : size_ok sz ∧ 8 ≤ sz;
}.

Section header.
Context (s : um) (a prev sz : Z) (use : bool) (H : at_hdr s a prev sz use).

Lemma wp_prevblock {A} (k : Z → M um A) Q : wp (k (prev / 8)) Q s → wp (mh_prevblock a ≫= k) Q s.
Proof using H.
  intros Hk. destruct H as [_ [M1 M2] [E1 E2] [[P1 P2] _] _]. unfold mh_prevblock. apply wp_bind, wp_rdw; [done|]. apply wp_ret.
  destruct (word_fields (word_at (umem s) a)) as (-> & _). rewrite E1. by replace ((prev + 2) / 8) with (prev / 8) by lia.
Qed.

Lemma wp_nextblock {A} (k : Z → M um A) Q : wp (k (sz / 8)) Q s → wp (mh_nextblock a ≫= k) Q s.
Proof using H.
  intros Hk. destruct H as [_ [M1 M2] [E1 E2] _ [[P1 P2] _]]. unfold mh_nextblock. apply wp_bind, wp_rdw; [done|]. apply wp_ret.
  destruct (word_fields (word_at (umem s) (a + 4))) as (-> & _). rewrite E2.
  replace ((sz + (if use then 4 else 0) + 2) / 8) with (sz / 8); [done|]. destruct use; lia.
Qed.

Lemma wp_inuse {A} (k : bool → M um A) Q : wp (k use) Q s → wp (mh_inuse a ≫= k) Q s.
Proof using H.
  intros Hk. destruct H as [_ [M1 M2] [E1 E2] _ [[P1 P2] _]]. unfold mh_inuse. apply wp_bind, wp_rdw; [done|]. apply wp_ret.
  destruct (word_fields (word_at (umem s) (a + 4))) as (_ & _ & Hb). rewrite E2 in *.
  replace (Z.testbit _ 2) with use; [done|]. destruct use, (Z.testbit _ 2); simpl in *; (done || lia).
Qed.

Lemma wp_ok {A} (k : bool → M um A) Q : wp (k true) Q s → wp (M_OK a ≫= k) Q s.
Proof using H.
  intros Hk. destruct H as [_ [M1 M2] [E1 E2] [[P1 P2] _] [[P3 P4] _]]. unfold M_OK, mh_magic1, mh_magic2. apply wp_bind, wp_bind, wp_rdw; [done|]. apply wp_ret.
  destruct (word_fields (word_at (umem s) a)) as (_ & -> & _). rewrite E1. rewrite (proj2 (Z.eqb_eq ((prev + 2) mod 4) MMAGIC)) by (unfold MMAGIC; lia).
  apply wp_bind, wp_rdw; [done|]. apply wp_ret, wp_ret. destruct (word_fields (word_at (umem s) (a + 4))) as (_ & -> & _). rewrite E2.
  rewrite (proj2 (Z.eqb_eq _ MMAGIC)); [done|]. unfold MMAGIC. destruct use; lia.
Qed.

Lemma wp_nextoff {A} (k : Z → M um A) Q : wp (k sz) Q s → wp (M_NEXTOFF a ≫= k) Q s.
Proof using H.
  intros Hk. destruct H as [_ _ _ _ [[P1 P2] _]]. unfold M_NEXTOFF. apply wp_bind, wp_nextblock, wp_ret.
  rewrite Z.shiftl_mul_pow2 by done. change (2 ^ MBLOCKSHIFT) with 8. replace (sz / 8 * 8) with sz by lia. by rewrite u32_small.
Qed.

Lemma wp_next {A} (k : Z → M um A) Q : wp (k (a + sz)) Q s → wp (M_NEXT a ≫= k) Q s.
Proof using H. intros Hk. destruct H as [? _ _ _ [? ?]]. unfold M_NEXT. apply wp_bind, wp_nextoff, wp_ret. by rewrite u32_small by lia. Qed.

Lemma wp_prev {A} (k : Z → M um A) Q : wp (k (a - prev)) Q s → wp (M_PREV a ≫= k) Q s.
Proof using H.
  intros Hk. destruct H as [? _ _ [[P1 P2] ?] [[? ?] ?]]. unfold M_PREV, M_PREVOFF. apply wp_bind, wp_bind, wp_prevblock, wp_ret, wp_ret.
  rewrite Z.shiftl_mul_pow2 by done. change (2 ^ MBLOCKSHIFT) with 8. replace (prev / 8 * 8) with prev by lia. by rewrite (u32_small prev), u32_small by lia.
Qed.

Lemma wp_size {A} (k : Z → M um A) Q : wp (k (sz - 8)) Q s → wp (M_SIZE a ≫= k) Q s.
Proof using H.
  intros Hk. destruct H as [? _ _ _ [[? ?] ?]]. unfold M_SIZE. apply wp_bind, wp_nextoff, wp_ret. unfold MBLOCKSIZE. by rewrite u32_small by lia.
Qed.
End header.

(** ** Blocks *)

Definition blk : Type := Z * bool.
Definition total (bl : list blk) : Z := foldr (λ b t, b.1 + t) 0 bl.
(** The size of the last block, or [prev]. *)
Definition lsz (prev : Z) (bl : list blk) : Z := foldl (λ _ b, b.1) prev bl.

Fixpoint layout (m : Z → Z) (a prev : Z) (bl : list blk) : Prop :=
  match bl with [] => True | b :: r => hdr m a prev b.1 b.2 ∧ layout m (a + b.1) b.1 r end.

Definition blk_ok (b : blk) : Prop := b.1 mod 8 = 0 ∧ 8 ≤ b.1.

(** No two free blocks in a row; [b] comes before. *)
Fixpoint next_ok (b : option blk) (bl : list blk) : Prop :=
  match bl with [] => True | c :: r => match b with Some b => b.2 = true ∨ c.2 = true | None => True end ∧ next_ok (Some c) r end.
Definition coalesced (bl : list blk) : Prop := next_ok None bl.

Lemma total_app p q : total (p ++ q) = total p + total q.
Proof. induction p as [|b p IH]; simpl; [lia|]. unfold total in *. simpl. lia. Qed.

Lemma total_pos bl : Forall blk_ok bl → 0 ≤ total bl ∧ total bl mod 8 = 0 ∧ 8 * Z.of_nat (length bl) ≤ total bl.
Proof.
  induction 1 as [|b bl [H1 H2] _ IH]; [done|]. change (total (b :: bl)) with (b.1 + total bl). simpl length. lia.
Qed.

Lemma lsz_app prev p q : lsz prev (p ++ q) = lsz (lsz prev p) q.
Proof. apply foldl_app. Qed.

Lemma layout_app m a prev p q : layout m a prev (p ++ q) ↔ layout m a prev p ∧ layout m (a + total p) (lsz prev p) q.
Proof.
  revert a prev. induction p as [|b p IH]; intros a prev; simpl.
  - rewrite Z.add_0_r. tauto.
  - rewrite IH. change (total (b :: p)) with (b.1 + total p). replace (a + b.1 + total p) with (a + (b.1 + total p)) by lia. tauto.
Qed.

(** The layout is in the headers only. *)
Lemma layout_ext m m' a prev bl :
  Forall blk_ok bl → (∀ x, a ≤ x < a + total bl → m' x = m x) → layout m a prev bl → layout m' a prev bl.
Proof.
  intros HF. revert a prev. induction HF as [|b bl [H1 H2] HF IH]; intros a prev Hx; [done|]. intros [[E1 E2] HL].
  change (total (b :: bl)) with (b.1 + total bl) in Hx. destruct (total_pos bl HF) as [Ht _]. split.
  - split; [rewrite <- E1|rewrite <- E2]; apply word_at_ext; intros x ?; apply Hx; lia.
  - apply IH; [|done]. intros x ?. apply Hx. lia.
Qed.

Lemma lsz_ok prev bl : Forall blk_ok bl → size_ok prev → total bl < W32 → size_ok (lsz prev bl).
Proof.
  intros HF. revert prev. induction HF as [|b bl [H1 H2] HF IH]; intros prev Hp Ht; [done|]. change (total (b :: bl)) with (b.1 + total bl) in Ht.
  destruct (total_pos bl HF) as [Hb _]. apply IH; [split; lia|lia].
Qed.

Lemma lsz_le prev bl a : Forall blk_ok bl → 0 ≤ a → prev ≤ a → lsz prev bl ≤ a + total bl.
Proof.
  intros HF. revert prev a. induction HF as [|b bl [H1 H2] HF IH]; intros prev a Ha Hp; [unfold lsz, total; simpl; lia|].
  change (total (b :: bl)) with (b.1 + total bl). change (lsz prev (b :: bl)) with (lsz b.1 bl).
  specialize (IH b.1 (a + b.1)). lia.
Qed.

(** The heap holds the blocks [bl]. *)
Record heap (s : um) (bl : list blk) : Prop := {
  hp_base : 0 < s.(heapbase) ∧ s.(heapbase) mod 8 = 0 ∧ s.(ustart) ≤ s.(heapbase);
  hp_top : s.(heaptop) = s.(heapbase) + total bl;
  hp_brk : s.(ubrk) = s.(heaptop) ∧ s.(heaptop) ≤ 2147483648;
  hp_blocks : Forall blk_ok bl;
  hp_layout : layout s.(umem) s.(heapbase) 0 bl;
}.

Lemma heap_mapped s bl a : heap s bl → s.(heapbase) ≤ a → a + 4 ≤ s.(heaptop) → a mod 4 = 0 → mapped s a = true.
Proof. intros [H1 H2 H3 _ _] Ha Hb Hm. unfold mapped. by zdecide. Qed.

(** The header of each block. *)
Lemma heap_at s p b q : heap s (p ++ b :: q) → at_hdr s (s.(heapbase) + total p) (lsz 0 p) b.1 b.2.
Proof.
  intros Hh. pose proof Hh as [H1 H2 H3 HF HL]. apply layout_app in HL as [_ [HL _]]. apply Forall_app in HF as [Fp Fb]. apply Forall_cons in Fb as [[B1 B2] Fq].
  rewrite total_app in H2. change (total (b :: q)) with (b.1 + total q) in H2. destruct (total_pos p Fp) as (T1 & T2 & _), (total_pos q Fq) as (T3 & T4 & _).
  pose proof (lsz_le 0 p s.(heapbase) Fp). split.
  - unfold W32. lia.
  - split; eapply heap_mapped; try exact Hh; rewrite ?H2, ?total_app; try lia.
  - done.
  - split; [apply lsz_ok; [done|done|unfold W32; lia]|lia].
  - split; [split; [done|unfold W32; lia]|done].
Qed.

(** ** The search *)

(** The first free block with room for [size] bytes, between the others. *)
Fixpoint fit (size : Z) (bl : list blk) : option (list blk * Z * list blk) :=
  match bl with
  | [] => None
  | b :: r =>
      if negb b.2 && (size <=? b.1 - 8) then Some ([], b.1, r)
      else match fit size r with Some (p, z, q) => Some (b :: p, z, q) | None => None end
  end.

Lemma fit_split size bl p z q : fit size bl = Some (p, z, q) → bl = p ++ (z, false) :: q ∧ size ≤ z - 8.
Proof.
  revert p. induction bl as [|[sz use] bl IH]; intros p H; simpl in H; [done|]. destruct (negb use && (size <=? sz - 8)) eqn:E.
  - injection H as <- <- <-. apply andb_true_iff in E as [E1%negb_true_iff E2%Z.leb_le]. by subst.
  - destruct (fit size bl) as [[[p' z'] q']|]; [|done]. injection H as <- <- <-. by destruct (IH p' eq_refl) as [-> ?].
Qed.

Lemma malloc_loop_wp fuel size s p bl Q :
  heap s (p ++ bl) → (length bl < fuel)%nat → 0 ≤ size →
  Q (match fit size bl with
     | Some (p', _, _) => inl (s.(heapbase) + total p + total p')
     | None => inr (s.(heaptop), lsz 0 (p ++ bl) / 8)
     end) s →
  wp (malloc_loop fuel size (s.(heapbase) + total p) (lsz 0 p / 8)) Q s.
Proof.
  revert p bl. induction fuel as [|fuel IH]; intros p bl Hh Hf Hsz HQ; [lia|]. cbn [malloc_loop]. apply wp_get.
  pose proof Hh as [H1 H2 H3 HF _]. destruct bl as [|b bl].
  { rewrite app_nil_r in H2, HQ. rewrite (proj2 (Z.ltb_ge _ _)) by lia. apply wp_ret. simpl in HQ. by rewrite H2 in HQ. }
  pose proof (heap_at _ _ _ _ Hh) as Ha. destruct (ah_size _ _ _ _ _ Ha) as [[A1 A2] A3].
  apply Forall_app in HF as [_ [_ Fq]%Forall_cons]. destruct (total_pos bl Fq) as (T1 & _).
  rewrite (proj2 (Z.ltb_lt _ _)) by (rewrite H2, total_app; change (total (b :: bl)) with (b.1 + total bl); lia).
  eapply wp_ok; [done|]. cbn [negb]. eapply wp_prevblock; [done|]. rewrite Z.eqb_refl. cbn [negb].
  eapply wp_nextblock; [done|]. eapply wp_nextoff; [done|]. eapply wp_inuse; [done|].
  assert (negb b.2 && (size <=? b.1 - 8) = false → wp (malloc_loop fuel size (u32 (s.(heapbase) + total p + b.1)) (b.1 / 8)) Q s) as Hnext.
  { intros E. simpl in HQ. rewrite E in HQ. destruct (ah_addr _ _ _ _ _ Ha). rewrite u32_small by lia.
    replace (heapbase s + total p + b.1) with (heapbase s + total (p ++ [b])) by (rewrite total_app; unfold total; simpl; lia).
    replace (b.1 / 8) with (lsz 0 (p ++ [b]) / 8) by (by rewrite lsz_app). apply (IH (p ++ [b]) bl); rewrite <- ?app_assoc; try done; [simpl in Hf; lia|].
    destruct (fit size bl) as [[[p' z'] q']|]; [|done]. rewrite total_app. change (total (b :: p')) with (b.1 + total p') in HQ.
    replace (heapbase s + (total p + total [b]) + total p') with (heapbase s + total p + (b.1 + total p')) by (unfold total; simpl; lia). done. }
  destruct b as [sz use]. cbn [fst snd] in *. destruct use; [by apply Hnext|]. eapply wp_size; [done|].
  destruct (Z.ltb_spec (sz - 8) size); [apply Hnext; cbn [negb andb]; apply Z.leb_gt; lia|]. apply wp_ret. cbn [fit fst snd negb andb] in HQ.
  rewrite (proj2 (Z.leb_le _ _)) in HQ by lia. by rewrite Z.add_0_r in HQ.
Qed.

(** ** Writing headers *)

(** What is left of the memory outside a header. *)
Definition same_outside (s s' : um) (a n : Z) : Prop := ∀ x, ¬ a ≤ x < a + n → umem s' x = umem s x.

Record moved (s s' : um) : Prop := {
  mv_base : heapbase s' = heapbase s; mv_top : heaptop s' = heaptop s; mv_brk : ubrk s' = ubrk s; mv_start : ustart s' = ustart s;
}.

Lemma moved_mapped s s' a : moved s s' → mapped s' a = mapped s a.
Proof. intros [_ _ H1 H2]. unfold mapped. by rewrite H1, H2. Qed.

(** One word has changed. *)
Record changed (s s' : um) (a w : Z) : Prop := { ch_moved : moved s s'; ch_out : same_outside s s' a 4; ch_word : word_at (umem s') a = w }.

Lemma changed_other s s' a w b : changed s s' a w → a + 4 ≤ b ∨ b + 4 ≤ a → word_at (umem s') b = word_at (umem s) b.
Proof. intros [_ H _] Hb. apply word_at_ext. intros x Hx. apply H. lia. Qed.

Lemma put_changed s a w : 0 ≤ w < W32 → changed s (put s a w) a w.
Proof. intros Hw. split; [done| |by apply word_at_put]. intros x Hx. by apply word_put_other. Qed.

Section setters.
Context {A : Type} (s : um) (a : Z) (k : unit → M um A) (Q : A → um → Prop) (Hm : mapped s a = true).
Let w := word_at s.(umem) a.

Lemma wp_block v : 0 ≤ v < 536870912 → (∀ s', changed s s' a (v * 8 + w mod 8) → wp (k tt) Q s') → wp (set_block a v ≫= k) Q s.
Proof using Hm. intros Hv Hk. apply wp_set_block; [done|]. apply Hk. rewrite (Z.mod_small v) by done. apply put_changed. unfold W32. lia. Qed.

Lemma wp_bit v : 0 ≤ v ≤ 1 → (∀ s', changed s s' a (w / 8 mod 536870912 * 8 + v * 4 + w mod 4) → wp (k tt) Q s') → wp (set_bit a v ≫= k) Q s.
Proof using Hm. intros Hv Hk. apply wp_set_bit; [done..|]. apply Hk, put_changed. unfold W32. lia. Qed.

Lemma wp_magic v : 0 ≤ v < 4 → (∀ s', changed s s' a (w / 8 mod 536870912 * 8 + w / 4 mod 2 * 4 + v) → wp (k tt) Q s') → wp (set_magic a v ≫= k) Q s.
Proof using Hm. intros Hv Hk. apply wp_set_magic; [done..|]. apply Hk, put_changed. unfold W32. lia. Qed.
End setters.

Lemma moved_trans s1 s2 s3 : moved s1 s2 → moved s2 s3 → moved s1 s3.
Proof. intros [A1 A2 A3 A4] [B1 B2 B3 B4]. split; congruence. Qed.

Lemma changed_trans s s' s'' a n b w :
  same_outside s s' a n → changed s' s'' b w → a ≤ b → b + 4 ≤ a + n → same_outside s s'' a n.
Proof. intros H1 [_ H2 _] Ha Hb x Hx. rewrite H2, H1 by lia. done. Qed.

(** The next assignment of a series: the new state, what has changed in it, since
    the last one and since the first. *)
Ltac set_next rule V0 s1 C V W :=
  apply rule; [by rewrite ?(moved_mapped _ _ _ V0)|lia|]; intros s1 C;
  pose proof (moved_trans _ _ _ V0 (ch_moved _ _ _ _ C)) as V; pose proof (ch_word _ _ _ _ C) as W.
Ltac set_outside C := eapply changed_trans; [|exact C|lia..].

Lemma moved_refl s : moved s s.
Proof. done. Qed.

(** The assignments to all fields of a new header, in the order of [__malloc_split]
    and in that of [malloc]. *)
Lemma new_header_wp {A} s a prev sz (k : unit → M um A) Q :
  mapped s a = true → mapped s (a + 4) = true → size_ok prev → size_ok sz →
  (∀ s', moved s s' → same_outside s s' a 8 → hdr (umem s') a prev sz false → wp (k tt) Q s') →
  wp (set_prevblock a (prev / 8);; set_pad a 0;; set_magic1 a MMAGIC;; set_nextblock a (sz / 8);; set_inuse a 0;; set_magic2 a MMAGIC ≫= k) Q s.
Proof.
  intros M1 M2 [P1 P2] [Z1 Z2] Hk. unfold set_prevblock, set_pad, set_magic1, set_nextblock, set_inuse, set_magic2, MMAGIC, W32 in *.
  pose proof (moved_refl s) as V0. set_next (@wp_block A) V0 s1 C1 V1 W1. set_next (@wp_bit A) V1 s2 C2 V2 W2. rewrite W1 in W2.
  set_next (@wp_magic A) V2 s3 C3 V3 W3. rewrite W2 in W3. set_next (@wp_block A) V3 s4 C4 V4 W4.
  set_next (@wp_bit A) V4 s5 C5 V5 W5. rewrite W4 in W5. set_next (@wp_magic A) V5 s6 C6 V6 W6. rewrite W5 in W6.
  apply Hk; [done| |].
  - do 5 (set_outside C6 || set_outside C5 || set_outside C4 || set_outside C3 || set_outside C2). intros x Hx. apply (ch_out _ _ _ _ C1). lia.
  - split; [|lia]. rewrite (changed_other _ _ _ _ a C6), (changed_other _ _ _ _ a C5), (changed_other _ _ _ _ a C4) by lia. lia.
Qed.

Lemma new_header_wp' {A} s a prev sz (k : unit → M um A) Q :
  mapped s a = true → mapped s (a + 4) = true → size_ok prev → size_ok sz →
  (∀ s', moved s s' → same_outside s s' a 8 → hdr (umem s') a prev sz true → wp (k tt) Q s') →
  wp (set_prevblock a (prev / 8);; set_magic1 a MMAGIC;; set_magic2 a MMAGIC;; set_pad a 0;; set_inuse a 1;; set_nextblock a (sz / 8) ≫= k) Q s.
Proof.
  intros M1 M2 [P1 P2] [Z1 Z2] Hk. unfold set_prevblock, set_pad, set_magic1, set_nextblock, set_inuse, set_magic2, MMAGIC, W32 in *.
  pose proof (moved_refl s) as V0. set_next (@wp_block A) V0 s1 C1 V1 W1. set_next (@wp_magic A) V1 s2 C2 V2 W2. rewrite W1 in W2.
  set_next (@wp_magic A) V2 s3 C3 V3 W3. set_next (@wp_bit A) V3 s4 C4 V4 W4. rewrite (changed_other _ _ _ _ a C3), W2 in W4 by lia.
  set_next (@wp_bit A) V4 s5 C5 V5 W5. rewrite (changed_other _ _ _ _ (a + 4) C4), W3 in W5 by lia. set_next (@wp_block A) V5 s6 C6 V6 W6. rewrite W5 in W6.
  apply Hk; [done| |].
  - do 5 (set_outside C6 || set_outside C5 || set_outside C4 || set_outside C3 || set_outside C2). intros x Hx. apply (ch_out _ _ _ _ C1). lia.
  - split; [|lia]. rewrite (changed_other _ _ _ _ a C6), (changed_other _ _ _ _ a C5) by lia. lia.
Qed.

(** Assignments to one field of a header. *)
Section header_set.
Context {A : Type} (s : um) (a prev sz : Z) (use : bool) (H : at_hdr s a prev sz use) (k : unit → M um A) (Q : A → um → Prop).

Lemma wp_set_nextblock sz' : size_ok sz' →
  (∀ s', changed s s' (a + 4) (sz' + (if use then 4 else 0) + 2) → wp (k tt) Q s') → wp (set_nextblock a (sz' / 8) ≫= k) Q s.
Proof using H.
  intros [Z1 Z2] Hk. destruct H as [_ [M1 M2] [E1 E2] _ [[P1 P2] _]]. unfold set_nextblock, W32 in *. apply wp_block; [done|lia|]. intros s' C. apply Hk.
  replace (sz' + (if use then 4 else 0) + 2) with (sz' / 8 * 8 + word_at (umem s) (a + 4) mod 8); [done|]. rewrite E2. destruct use; lia.
Qed.

Lemma wp_set_inuse (v : bool) :
  (∀ s', changed s s' (a + 4) (sz + (if v then 4 else 0) + 2) → wp (k tt) Q s') → wp (set_inuse a (if v then 1 else 0) ≫= k) Q s.
Proof using H.
  intros Hk. destruct H as [_ [M1 M2] [E1 E2] _ [[P1 P2] _]]. unfold set_inuse, W32 in *. apply wp_bit; [done|destruct v; lia|]. intros s' C. apply Hk.
  replace (sz + (if v then 4 else 0) + 2) with (word_at (umem s) (a + 4) / 8 mod 536870912 * 8 + (if v then 1 else 0) * 4 + word_at (umem s) (a + 4) mod 4); [done|].
  rewrite E2. destruct use, v; lia.
Qed.

Lemma wp_set_prevblock prev' : size_ok prev' → (∀ s', changed s s' a (prev' + 2) → wp (k tt) Q s') → wp (set_prevblock a (prev' / 8) ≫= k) Q s.
Proof using H.
  intros [Z1 Z2] Hk. destruct H as [_ [M1 M2] [E1 E2] [[P1 P2] _] _]. unfold set_prevblock, W32 in *. apply wp_block; [done|lia|]. intros s' C. apply Hk.
  replace (prev' + 2) with (prev' / 8 * 8 + word_at (umem s) a mod 8); [done|]. rewrite E1. lia.
Qed.
End header_set.

(** ** Changing the list of blocks *)

Lemma heap_intro s s' bl bl' :
  heap s bl → moved s s' → Forall blk_ok bl' → total bl' = total bl → layout (umem s') s.(heapbase) 0 bl' → heap s' bl'.
Proof. intros [H1 H2 H3 HF HL] [V1 V2 V3 V4] HF' Ht HL'. split; rewrite ?V1, ?V2, ?V3, ?V4, ?Ht; done. Qed.

(** The blocks from [a] on when only the first header's first word has changed. *)
Lemma relayout m m' a prev prev' q :
  Forall blk_ok q → layout m a prev q → (∀ x, a + 4 ≤ x < a + total q → m' x = m x) → (q ≠ [] → word_at m' a = prev' + 2) → layout m' a prev' q.
Proof.
  intros HF HL Hx Hw. destruct HF as [|b q [B1 B2] HF]; [done|]. destruct HL as [[E1 E2] HL]. change (total (b :: q)) with (b.1 + total q) in Hx.
  destruct (total_pos q HF) as (T1 & _). split; [split; [by apply Hw|]|].
  - rewrite <- E2. apply word_at_ext. intros x ?. apply Hx. lia.
  - eapply layout_ext; [done| |done]. intros x ?. apply Hx. lia.
Qed.

(** A header that is somewhere else than what has changed. *)
Lemma at_hdr_moved s s' a prev sz use prev' sz' use' :
  at_hdr s a prev sz use → moved s s' → hdr (umem s') a prev' sz' use' → size_ok prev' → prev' ≤ a → size_ok sz' → 8 ≤ sz' → a + sz' < W32 → at_hdr s' a prev' sz' use'.
Proof.
  intros [[A1 A2] [M1 M2] _ _ _] V Hh P1 P2 Z1 Z2 Ha. split; try done. by rewrite !(moved_mapped _ _ _ V).
Qed.

Definition carve (size z : Z) : list blk := if z - 8 - size <? 16 then [(z, true)] else [(size + 8, true); (z - 8 - size, false)].

Lemma MKFIELD_eq x : M_MKFIELD x = x / 8.
Proof. unfold M_MKFIELD, MBLOCKSHIFT. by rewrite Z.shiftr_div_pow2. Qed.

(** The first block of what follows, if there is one. *)
Lemma heap_next s p b q :
  heap s (p ++ b :: q) → let a := s.(heapbase) + total p + b.1 in
  (q = [] ∧ a = s.(heaptop)) ∨ (∃ c r, q = c :: r ∧ a < s.(heaptop) ∧ at_hdr s a b.1 c.1 c.2).
Proof.
  intros Hh a. pose proof Hh as [H1 H2 H3 HF HL]. rewrite total_app in H2. change (total (b :: q)) with (b.1 + total q) in H2.
  destruct q as [|c r]; [left; split; [done|unfold total in *; simpl in *; lia]|]. right. exists c, r. split; [done|].
  apply Forall_app in HF as [_ [_ [[C1 C2] Fr]%Forall_cons]%Forall_cons]. destruct (total_pos r Fr) as (T1 & _). change (total (c :: r)) with (c.1 + total r) in H2. split; [lia|].
  replace (p ++ b :: c :: r) with ((p ++ [b]) ++ c :: r) in Hh by (by rewrite <- app_assoc). apply heap_at in Hh. rewrite total_app, lsz_app in Hh.
  replace a with (heapbase s + (total p + total [b])) by (unfold a, total; simpl; lia). done.
Qed.

(** A block is taken as it is, ... *)
Lemma take_whole {A} s p z q (k : unit → M um A) Q :
  heap s (p ++ (z, false) :: q) → let a := s.(heapbase) + total p in
  (∀ s', heap s' (p ++ (z, true) :: q) → moved s s' → same_outside s s' a 8 → wp (k tt) Q s') → wp (set_inuse a 1 ≫= k) Q s.
Proof.
  intros Hh a Hk. pose proof (heap_at _ _ _ _ Hh) as Ha. apply (wp_set_inuse s a (lsz 0 p) z false Ha k Q true). intros s' C.
  pose proof Hh as [H1 H2 H3 HF HL]. apply layout_app in HL as [L1 [[E1 E2] L2]]. cbn [fst snd] in *. fold a in E1, E2, L2.
  pose proof HF as [Fp [[B1 B2] Fq]%Forall_cons]%Forall_app. cbn [fst] in *. destruct (total_pos p Fp) as (T1 & _), (total_pos q Fq) as (T2 & _).
  apply Hk; [|apply C|intros x Hx; apply (ch_out _ _ _ _ C); lia].
  eapply heap_intro; [done|apply C|apply Forall_app; split; [done|by constructor]|by rewrite !total_app|]. apply layout_app. split; [|split].
  - eapply layout_ext; [done| |done]. intros x ?. apply (ch_out _ _ _ _ C). lia.
  - split; [|apply C]. fold a. rewrite (changed_other _ _ _ _ _ C) by lia. done.
  - fold a. eapply layout_ext; [done| |done]. cbn [fst]. intros x ?. apply (ch_out _ _ _ _ C). lia.
Qed.

(** A block in two. *)
Lemma split_heap s s' p z q y x :
  heap s (p ++ (z, false) :: q) → moved s s' → x mod 8 = 0 → y mod 8 = 0 → 8 ≤ x → 8 ≤ y → z = x + y → let a := s.(heapbase) + total p in
  hdr (umem s') a (lsz 0 p) x false → hdr (umem s') (a + x) x y false → (q ≠ [] → word_at (umem s') (a + z) = y + 2) →
  (∀ i, i < a ∨ a + z + 4 ≤ i → umem s' i = umem s i) → heap s' (p ++ [(x, false); (y, false)] ++ q).
Proof.
  intros Hh V Hx Hy Hx8 Hy8 -> a D1 D2 D3 O. pose proof Hh as [H1 H2 H3 HF HL]. apply layout_app in HL as [L1 [[E1 E2] L2]]. cbn [fst snd] in *. fold a in E1, E2, L2.
  pose proof HF as [Fp [[B1 B2] Fq]%Forall_cons]%Forall_app. cbn [fst] in *. destruct (total_pos p Fp) as (T1 & _), (total_pos q Fq) as (T2 & _).
  eapply heap_intro; [done|done| |rewrite !total_app; unfold total; simpl; lia|].
  - apply Forall_app. split; [done|]. by repeat constructor.
  - apply layout_app. split; [eapply layout_ext; [done| |done]; intros i ?; apply O; lia|]. cbn [app layout fst snd]. fold a. split; [done|]. split; [done|].
    replace (a + x + y) with (a + (x + y)) by lia. eapply relayout; [done|done| |done]. intros i ?. apply O. lia.
Qed.

(** ... or split first. *)
Lemma malloc_split_wp {A} s p z q size (k : unit → M um A) Q :
  heap s (p ++ (z, false) :: q) → size mod 8 = 0 → 0 ≤ size ≤ z - 8 → let a := s.(heapbase) + total p in
  (∀ s', heap s' (p ++ (if z - 8 - size <? 16 then [(z, false)] else [(size + 8, false); (z - 8 - size, false)]) ++ q) → moved s s' →
     (∀ x, x < a ∨ a + z + 4 ≤ x → umem s' x = umem s x) → wp (k tt) Q s') →
  wp (__malloc_split a size ≫= k) Q s.
Proof.
  intros Hh Hsz Hle a Hk. pose proof (heap_at _ _ _ _ Hh) as Ha. cbn [fst snd] in Ha. fold a in Ha. pose proof (heap_next _ _ _ _ Hh) as Hn. cbn [fst] in Hn. fold a in Hn.
  pose proof Ha as [[A1 A2] _ [E1 E2] [P1 P2] [[Z1 Z2] Z3]]. unfold __malloc_split. rewrite (proj2 (Z.eqb_eq (size mod MBLOCKSIZE) 0) Hsz). cbn [negb]. apply wp_bind.
  eapply wp_size; [done|]. rewrite u32_small by lia. change (2 * MBLOCKSIZE) with 16. destruct (Z.ltb_spec (z - 8 - size) 16) as [Hs|Hs].
  { apply wp_ret. apply Hk; done. }
  eapply wp_next; [done|]. eapply wp_size; [done|]. unfold MBLOCKSIZE. rewrite !(u32_small (size + 8)) by lia. rewrite !MKFIELD_eq.
  eapply wp_set_nextblock; [done|split; lia|]. intros s1 C1. pose proof (ch_moved _ _ _ _ C1) as V1.
  assert (at_hdr s1 a (lsz 0 p) (size + 8) false) as Ha1.
  { eapply at_hdr_moved; try done; try lia; [|split; lia]. split; [by rewrite (changed_other _ _ _ _ _ C1) by lia|apply C1]. }
  eapply wp_next; [done|]. rewrite (proj2 (Z.eqb_neq _ _)) by lia. rewrite u32_small by lia.
  pose proof Hh as [H1 H2 H3 HF HL]. rewrite total_app in H2. change (total ((z, false) :: q)) with (z + total q) in H2.
  pose proof HF as [Fp [[B1 B2] Fq]%Forall_cons]%Forall_app. cbn [fst] in B1, B2. destruct (total_pos p Fp) as (T1 & T2 & _), (total_pos q Fq) as (T3 & T4 & _).
  apply new_header_wp; [| |split; lia|split; lia|].
  1,2: rewrite (moved_mapped _ _ _ V1); eapply heap_mapped; [done|lia|lia|lia].
  intros s2 V2 O2 D2. set (n := a + (size + 8)) in *. pose proof (moved_trans _ _ _ V1 V2) as V12.
  assert (hdr (umem s2) a (lsz 0 p) (size + 8) false) as D1.
  { destruct (ah_hdr _ _ _ _ _ Ha1) as [F1 F2]. split; [rewrite <- F1|rewrite <- F2]; apply word_at_ext; intros x ?; apply O2; unfold n; lia. }
  assert (∀ x, x < a ∨ a + z ≤ x → umem s2 x = umem s x) as O12 by (intros x Hx; rewrite O2 by (unfold n; lia); apply (ch_out _ _ _ _ C1); lia).
  apply wp_get. rewrite (mv_top _ _ V12). destruct Hn as [[Eq En]|(c & r & Eq & Hlt & Hc)].
  - rewrite (proj2 (Z.eqb_eq _ _) En). cbn [negb]. apply wp_ret. apply Hk; [|done|intros x Hx; apply O12; lia].
    eapply split_heap; try done; try lia; try (by subst q). intros x Hx. apply O12. lia.
  - rewrite (proj2 (Z.eqb_neq _ _)) by lia. cbn [negb]. assert (at_hdr s2 n (size + 8) (z - 8 - size) false) as Hn2.
    { split; [unfold n; lia| |done|split; [split; lia|unfold n; lia]|split; [split; lia|lia]].
      rewrite !(moved_mapped _ _ _ V12). split; eapply heap_mapped; try exact Hh; unfold n; lia. }
    assert (at_hdr s2 (a + z) z c.1 c.2) as Hc2.
    { pose proof Hc as [? ? [F1 F2] [? ?] [? ?]]. eapply at_hdr_moved; [exact Hc|done| |done..|lia].
      split; [rewrite <- F1|rewrite <- F2]; apply word_at_ext; intros x ?; apply O12; lia. }
    eapply wp_nextblock; [exact Hn2|]. apply wp_bind_ret. eapply wp_set_prevblock; [exact Hc2|split; lia|]. intros s3 C3. apply wp_ret.
    pose proof (moved_trans _ _ _ V12 (ch_moved _ _ _ _ C3)) as V3.
    assert (∀ x, x < a ∨ a + z + 4 ≤ x → umem s3 x = umem s x) as O3 by (intros x Hx; rewrite (ch_out _ _ _ _ C3) by lia; apply O12; lia).
    apply Hk; [|done|done]. eapply (split_heap s s3 p z q (z - 8 - size) (size + 8)); try done; try lia.
    + destruct D1 as [F1 F2]. split; [rewrite <- F1|rewrite <- F2]; eapply changed_other; try done; lia.
    + destruct D2 as [F1 F2]. split; [rewrite <- F1|rewrite <- F2]; eapply changed_other; try done; unfold n in *; lia.
    + intros _. apply C3.
Qed.

(** ** What the program holds *)

(** The data of the blocks in use: where and how many bytes. *)
Fixpoint live (a : Z) (bl : list blk) : list (Z * Z) :=
  match bl with [] => [] | b :: r => (if b.2 then [(a + 8, b.1 - 8)] else []) ++ live (a + b.1) r end.

Lemma live_app a p q : live a (p ++ q) = live a p ++ live (a + total p) q.
Proof.
  revert a. induction p as [|b p IH]; intros a; simpl; [by rewrite Z.add_0_r|]. rewrite IH, app_assoc. change (total (b :: p)) with (b.1 + total p).
  by replace (a + b.1 + total p) with (a + (b.1 + total p)) by lia.
Qed.

Lemma live_bounds a bl x n : Forall blk_ok bl → (x, n) ∈ live a bl → a + 8 ≤ x ∧ 0 ≤ n ∧ x + n ≤ a + total bl.
Proof.
  intros HF. revert a. induction HF as [|b bl [B1 B2] HF IH]; intros a H; simpl in H; [by apply elem_of_nil in H|].
  change (total (b :: bl)) with (b.1 + total bl). destruct (total_pos bl HF) as (T & _). apply elem_of_app in H as [H|H].
  - destruct (b.2); [|by apply elem_of_nil in H]. apply list_elem_of_singleton in H. simplify_eq. lia.
  - apply IH in H. lia.
Qed.

(** Where a block in use is in the list. *)
Lemma live_split a bl l1 ptr n l2 :
  live a bl = l1 ++ (ptr, n) :: l2 →
  ∃ p z q, bl = p ++ (z, true) :: q ∧ ptr = a + total p + 8 ∧ n = z - 8 ∧ l1 = live a p ∧ l2 = live (a + total p + z) q.
Proof.
  revert a l1. induction bl as [|[z u] bl IH]; intros a l1 H; simpl in H; [by destruct l1|]. destruct u; [destruct l1 as [|e l1]; [injection H as <- <- <-|injection H as <- H]|].
  - exists [], z, bl. rewrite Z.add_0_r. done.
  - apply IH in H as (p & z' & q & -> & -> & -> & -> & ->). exists ((z, true) :: p), z', q. change (total ((z, true) :: p)) with (z + total p). rewrite !Z.add_assoc. done.
  - apply IH in H as (p & z' & q & -> & -> & -> & -> & ->). exists ((z, false) :: p), z', q. change (total ((z, false) :: p)) with (z + total p). rewrite !Z.add_assoc. done.
Qed.

Definition untouched (s s' : um) (l : list (Z * Z)) : Prop := ∀ x n i, (x, n) ∈ l → x ≤ i < x + n → umem s' i = umem s i.

Lemma round_up_eq size : 0 ≤ size ≤ 4294967288 → round_up size = (size + 7) / 8 * 8.
Proof.
  intros H. unfold round_up, MBLOCKSIZE. rewrite u32_small by (unfold W32; lia). change (u32 (Z.lnot (8 - 1))) with (Z.lnot (8 - 1) mod 2 ^ 32).
  replace (size + 8 - 1) with (size + 7) by lia. set (x := size + 7).
  assert (Z.land x (Z.lnot (8 - 1) mod 2 ^ 32) = Z.ldiff x (Z.ones 3)) as ->.
  { apply Z.bits_inj'. intros i Hi. rewrite Z.land_spec, Z.ldiff_spec. destruct (Z.lt_ge_cases i 32).
    - rewrite Z.mod_pow2_bits_low, Z.lnot_spec by lia. done.
    - rewrite Z.mod_pow2_bits_high by lia. rewrite <- (Z.mod_small x (2 ^ 32)) by (unfold x; lia). by rewrite Z.mod_pow2_bits_high, andb_false_r by lia. }
  rewrite Z.ldiff_ones_r, Z.shiftl_mul_pow2, Z.shiftr_div_pow2 by lia. done.
Qed.

Lemma next_ok_app b p q : next_ok b (p ++ q) ↔ next_ok b p ∧ next_ok (from_option Some b (last p)) q.
Proof.
  revert b. induction p as [|c p IH]; intros b; [simpl; tauto|]. rewrite last_cons. cbn [app next_ok]. rewrite IH. destruct (last p); simpl; tauto.
Qed.

Lemma used_next b z r : next_ok b ((z, true) :: r) ↔ next_ok (Some (z, true)) r.
Proof. simpl. destruct b; naive_solver. Qed.

Lemma carve_coalesced p z q size : coalesced (p ++ (z, false) :: q) → coalesced (p ++ carve size z ++ q).
Proof.
  unfold coalesced, carve. rewrite (next_ok_app _ p), (next_ok_app _ p). intros (H1 & H2). split; [done|]. destruct H2 as [_ H3].
  destruct (z - 8 - size <? 16); cbn [app]; apply used_next; destruct q as [|c q]; cbn [next_ok snd] in *; naive_solver.
Qed.

Lemma snoc_coalesced p z : coalesced p → coalesced (p ++ [(z, true)]).
Proof. unfold coalesced. rewrite next_ok_app. intros H. split; [done|]. by apply used_next. Qed.

(** ** malloc *)

Section malloc_spec.
Context (grant : Z → Z → bool).
(** The kernel moves the break only inside the program's half of the addresses. *)
Hypothesis Hgrant : ∀ b n, grant b n = true → b + n ≤ 2147483648.

(** The library before its first use. *)
Definition fresh_process (s : um) : Prop :=
  s.(heapbase) = 0 ∧ s.(heaptop) = 0 ∧ 0 < s.(ubrk) ≤ 2147483648 ∧ s.(ubrk) mod 8 = 0 ∧ s.(ustart) ≤ s.(ubrk) ∧ grant s.(ubrk) 0 = true.

Definition usable (s : um) (bl : list blk) : Prop := heap s bl ∨ fresh_process s ∧ bl = [].

Definition malloc_post (size : Z) (bl : list blk) (s : um) (r : option Z) (s' : um) : Prop :=
  match r with
  | None => heap s' bl ∧ umem s' = umem s ∧ fit (round_up size) bl = None ∧ grant s.(ubrk) (round_up size + 8) = false
  | Some ptr => ∃ bl' l1 l2 n, heap s' bl' ∧ live s'.(heapbase) bl = l1 ++ l2 ∧ live s'.(heapbase) bl' = l1 ++ (ptr, n) :: l2 ∧
      size ≤ n ∧ ptr mod 8 = 0 ∧ untouched s s' (l1 ++ l2) ∧ (coalesced bl → coalesced bl')
  end.

(** A block found. *)
Lemma found_wp size bl p z q s :
  heap s bl → size mod 8 = 0 → 0 ≤ size → fit size bl = Some (p, z, q) → let a := s.(heapbase) + total p in
  wp (__malloc_split a size;; set_inuse a 1;; mret (Some (M_DATA a)))
     (λ r s', ∃ n, r = Some (a + 8) ∧ heap s' (p ++ carve size z ++ q) ∧ s'.(heapbase) = s.(heapbase) ∧
        live s.(heapbase) bl = live s.(heapbase) p ++ live (a + z) q ∧
        live s.(heapbase) (p ++ carve size z ++ q) = live s.(heapbase) p ++ (a + 8, n) :: live (a + z) q ∧ size ≤ n ∧
        (∀ i, i < a ∨ a + z + 4 ≤ i → umem s' i = umem s i)) s.
Proof.
  intros Hh Hsz H0 Hf a. apply fit_split in Hf as [-> Hle]. pose proof (heap_at _ _ _ _ Hh) as [[A1 A2] _ _ _ [[Z1 Z2] Z3]]. cbn [fst snd] in *. fold a in A1, A2.
  apply (malloc_split_wp s p z q size); [done|done|lia|]. fold a. intros s1 H1 V1 O1.
  set (y := if z - 8 - size <? 16 then z else size + 8). set (rest := if z - 8 - size <? 16 then [] else [(z - 8 - size, false)]).
  assert (heap s1 (p ++ (y, false) :: rest ++ q)) as H1' by (unfold y, rest; by destruct (z - 8 - size <? 16)).
  assert (carve size z ++ q = (y, true) :: rest ++ q) as Ec by (unfold carve, y, rest; by destruct (z - 8 - size <? 16)).
  unfold a. rewrite <- (mv_base _ _ V1). eapply take_whole; [exact H1'|]. rewrite (mv_base _ _ V1). fold a. intros s2 H2 V2 O2. apply wp_ret.
  exists (y - 8). unfold M_DATA, MBLOCKSIZE. rewrite u32_small by lia. split; [done|]. rewrite Ec. split; [done|].
  split; [by rewrite (mv_base _ _ V2), (mv_base _ _ V1)|]. rewrite !live_app. cbn [live fst snd app]. fold a. split; [done|]. split; [|split].
  - f_equal. f_equal. rewrite live_app. unfold y, rest. destruct (z - 8 - size <? 16); cbn [live fst snd app total foldr]; f_equal; lia.
  - unfold y. destruct (Z.ltb_spec (z - 8 - size) 16); lia.
  - intros i Hi. rewrite O2 by (unfold y in *; lia). by apply O1.
Qed.

(** The heap one block larger. *)
Lemma grow_heap s s' bl z :
  heap s bl → blk_ok (z, true) → s.(heaptop) + z ≤ 2147483648 → s'.(heapbase) = s.(heapbase) → s'.(ustart) = s.(ustart) → s'.(heaptop) = s.(heaptop) + z →
  s'.(ubrk) = s'.(heaptop) → hdr (umem s') s.(heaptop) (lsz 0 bl) z true → (∀ i, i < s.(heaptop) → umem s' i = umem s i) → heap s' (bl ++ [(z, true)]).
Proof.
  intros [H1 H2 H3 HF HL] Hz Hle E1 E2 E3 E4 D O. split; rewrite ?E1, ?E2; try done.
  - rewrite E3, total_app, H2. unfold total. simpl. lia.
  - rewrite E4, E3. done.
  - apply Forall_app. split; [done|by constructor].
  - apply layout_app. rewrite <- H2. split; [|done]. eapply layout_ext; [done| |done]. intros i Hi. apply O. lia.
Qed.

Lemma expand_wp size bl s :
  heap s bl → size mod 8 = 0 → 0 ≤ size < 2147483640 →
  wp (r ← __malloc_sbrk grant (u32 (size + MBLOCKSIZE));
      match r with
      | None => mret None
      | Some mh =>
          set_prevblock mh (lsz 0 bl / 8);; set_magic1 mh MMAGIC;; set_magic2 mh MMAGIC;; set_pad mh 0;;
          set_inuse mh 1;; set_nextblock mh (M_MKFIELD (u32 (size + MBLOCKSIZE)));;
          mret (Some (M_DATA mh))
      end)
     (λ r s', if grant s.(ubrk) (size + 8) then
                r = Some (s.(heaptop) + 8) ∧ heap s' (bl ++ [(size + 8, true)]) ∧ s'.(heapbase) = s.(heapbase) ∧ (∀ i, i < s.(heaptop) → umem s' i = umem s i)
              else r = None ∧ s' = s) s.
Proof using Hgrant.
  intros Hh Hsz Hs. pose proof Hh as [H1 H2 H3 HF HL]. destruct (total_pos bl HF) as (T1 & T2 & _). unfold MBLOCKSIZE. rewrite (u32_small (size + 8)) by (unfold W32; lia). rewrite MKFIELD_eq.
  unfold __malloc_sbrk, sbrk. apply wp_bind, wp_bind, wp_get. replace (s32 (size + 8)) with (size + 8) by (unfold s32; lia).
  destruct (grant (ubrk s) (size + 8)) eqn:Eg; [|by apply wp_ret, wp_ret, wp_ret]. pose proof (Hgrant _ _ Eg) as Hb. destruct H3 as [H3 H3']. rewrite H3 in *.
  apply wp_modify, wp_ret. rewrite (proj2 (Z.eqb_neq (heaptop s) NOMEM)) by (unfold NOMEM; lia). apply wp_get. cbn [heaptop heapbase]. rewrite Z.eqb_refl. cbn [negb].
  apply wp_bind, wp_modify', wp_ret. cbn [umem ubrk ustart]. rewrite u32_small by (unfold W32; lia). set (s1 := Um _ _ _ _ _).
  assert (∀ a, s.(heaptop) ≤ a → a + 4 ≤ s.(heaptop) + (size + 8) → a mod 4 = 0 → mapped s1 a = true) as Hm by (intros a Ha Hb' Hm; unfold mapped, s1; cbn [ustart ubrk]; by zdecide).
  assert (size_ok (lsz 0 bl)) as Hl by (apply lsz_ok; [done|done|unfold W32; lia]).
  apply new_header_wp'; [apply Hm; lia|apply Hm; lia|done|split; unfold W32; lia|]. intros s2 V2 O2 D2. apply wp_ret. unfold M_DATA, MBLOCKSIZE. rewrite u32_small by (unfold W32; lia).
  destruct V2 as [V1 V2 V3 V4]. split; [done|]. split; [|split; [by rewrite V1|]].
  - eapply grow_heap; try done; [split; [change ((size + 8) mod 8 = 0); lia|cbn [fst]; lia]|rewrite V3, V2; cbn [ubrk heaptop s1]; lia|]. intros i Hi. apply (O2 i). lia.
  - intros i Hi. apply (O2 i). lia.
Qed.

(** Up to the end of the search. *)
Lemma malloc_search_wp size bl s Q :
  heap s bl → 0 ≤ size ≤ 4294967288 → let size' := round_up size in
  wp (match fit size' bl with
      | Some (p, _, _) => let mh := s.(heapbase) + total p in __malloc_split mh size';; set_inuse mh 1;; mret (Some (M_DATA mh))
      | None =>
          r ← __malloc_sbrk grant (u32 (size' + MBLOCKSIZE));
          match r with
          | None => mret None
          | Some mh =>
              set_prevblock mh (lsz 0 bl / 8);; set_magic1 mh MMAGIC;; set_magic2 mh MMAGIC;; set_pad mh 0;;
              set_inuse mh 1;; set_nextblock mh (M_MKFIELD (u32 (size' + MBLOCKSIZE)));;
              mret (Some (M_DATA mh))
          end
      end) Q s →
  wp (malloc grant size) Q s.
Proof using.
  intros Hh Hs size' Hk. pose proof Hh as [H1 H2 H3 HF HL]. destruct (total_pos bl HF) as (T1 & T2 & T3). unfold malloc. apply wp_get. rewrite (proj2 (Z.eqb_neq (heapbase s) 0)) by lia. cbn [when].
  apply wp_bind, wp_ret, wp_get. rewrite (proj2 (Z.eqb_neq (heapbase s) 0)), (proj2 (Z.eqb_neq (heaptop s) 0)) by lia. rewrite Z.gtb_ltb, (proj2 (Z.ltb_ge _ _)) by lia. cbn [orb]. fold size'.
  apply wp_bind. pose proof (malloc_loop_wp (heap_fuel s) size' s [] bl) as Hloop. change (total []) with 0 in Hloop. rewrite Z.add_0_r in Hloop.
  change (lsz 0 [] / 8) with 0 in Hloop. apply Hloop; [done| | |]; clear Hloop.
  - unfold heap_fuel, MBLOCKSIZE. rewrite H2. lia.
  - unfold size'. rewrite round_up_eq by lia. lia.
  - destruct (fit size' bl) as [[[p z] q]|]; [done|]. cbn [app]. apply wp_get. rewrite Z.eqb_refl. done.
Qed.

Lemma malloc_heap_wp size bl s :
  heap s bl → 0 ≤ size ≤ 2147483632 → wp (malloc grant size) (malloc_post size bl s) s.
Proof using Hgrant.
  intros Hh Hs. pose proof Hh as [H1 H2 H3 HF HL]. set (size' := round_up size).
  assert (size' mod 8 = 0 ∧ size ≤ size' < size + 8) as [Hm Hr] by (unfold size'; rewrite round_up_eq by lia; lia).
  apply (malloc_search_wp size bl s); [done|lia|]. fold size'. destruct (fit size' bl) as [[[p z] q]|] eqn:Ef.
  - eapply wp_mono; [|apply (found_wp size' bl p z q s); [done|done|lia|done]]. intros r s' (n & -> & Hh' & Eb & E1 & E2 & Hn & O).
    apply fit_split in Ef as [-> _]. pose proof HF as [Fp [_ Fq]%Forall_cons]%Forall_app. destruct (total_pos p Fp) as (_ & ? & _).
    exists (p ++ carve size' z ++ q), (live (heapbase s) p), (live (heapbase s + total p + z) q), n. rewrite Eb. split_and!; try done; [lia|lia| |apply carve_coalesced].
    intros x m i [Hx|Hx]%elem_of_app Hi; apply live_bounds in Hx; try done; apply O; lia.
  - destruct (total_pos bl HF) as (T1 & T2 & _). eapply wp_mono; [|apply (expand_wp size' bl s); [done|done|lia]].
    intros r s'. destruct (grant (ubrk s) (size' + 8)) eqn:Eg; [|by intros [-> ->]]. intros (-> & Hh' & Eb & O).
    exists (bl ++ [(size' + 8, true)]), (live (heapbase s) bl), [], size'. rewrite Eb. split; [done|]. rewrite app_nil_r. split; [done|]. split_and!; try done; try lia.
    + rewrite live_app, H2. cbn [live fst snd app]. do 2 f_equal. f_equal; lia.
    + intros x m i Hx Hi. apply live_bounds in Hx; [|done]. apply O. lia.
    + apply snoc_coalesced.
Qed.

(** The first call sets the heap up, empty. *)
Lemma malloc_init_wp s :
  fresh_process s → wp (__malloc_init grant) (λ _ s', heap s' [] ∧ umem s' = umem s ∧ s'.(ubrk) = s.(ubrk)) s.
Proof using.
  intros (E1 & E2 & Hb & Hm & Hst & Hg). unfold __malloc_init, sbrk. apply wp_get. rewrite E1, E2. cbn [negb orb Z.eqb]. apply wp_bind, wp_get.
  change (s32 0) with 0. rewrite Hg. apply wp_modify, wp_ret. unfold NOMEM. rewrite (proj2 (Z.eqb_neq (ubrk s) 4294967295)), (proj2 (Z.eqb_neq (ubrk s) 0)) by lia.
  apply wp_bind, wp_modify'. unfold MBLOCKSIZE. rewrite Hm. cbn [negb Z.eqb]. apply wp_ret. cbn [umem ubrk]. rewrite Z.add_0_r. split; [|done].
  split; cbn [heapbase heaptop ustart ubrk umem]; rewrite ?Z.add_0_r; try done; unfold total; simpl; lia.
Qed.
End malloc_spec.

(** ** free *)

Lemma deadbeef_wp {A} ptr size s (k : unit → M um A) Q :
  size mod 4 = 0 → 0 ≤ size → (∀ a, ptr ≤ a → a + 4 ≤ ptr + size → a mod 4 = 0 → mapped s a = true) → ptr mod 4 = 0 →
  (∀ s', moved s s' → same_outside s s' ptr size → wp (k tt) Q s') → wp (__malloc_deadbeef ptr size ≫= k) Q s.
Proof.
  intros Hsz H0 Hm Hp Hk. apply wp_bind. unfold __malloc_deadbeef. apply (wp_for_up (λ _ s', moved s s' ∧ same_outside s s' ptr size)); [done| |].
  - intros i s' Hi [V O]. unfold wrw. apply wp_get. rewrite (moved_mapped _ _ _ V), Hm by lia. apply wp_modify'. split; [by destruct V|].
    intros x Hx. cbn [umem]. rewrite word_put_other by lia. by apply O.
  - intros s' [V O]. by apply Hk.
Qed.

(** Nothing but data has changed. *)
Lemma data_heap s s' p z q use n :
  heap s (p ++ (z, use) :: q) → moved s s' → same_outside s s' (s.(heapbase) + total p + 8) n → n ≤ z - 8 → heap s' (p ++ (z, use) :: q).
Proof.
  intros Hh V O Hn. pose proof Hh as [H1 H2 H3 HF HL]. apply layout_app in HL as [L1 [[E1 E2] L2]]. cbn [fst snd] in *.
  pose proof HF as [Fp [[B1 B2] Fq]%Forall_cons]%Forall_app. cbn [fst] in *. destruct (total_pos p Fp) as (T1 & _), (total_pos q Fq) as (T2 & _).
  eapply heap_intro; [done|done|done|done|]. apply layout_app. split; [|split].
  - eapply layout_ext; [done| |done]. intros i ?. apply O. lia.
  - split; cbn [fst snd]; [rewrite <- E1|rewrite <- E2]; apply word_at_ext; intros i ?; apply O; lia.
  - cbn [fst]. eapply layout_ext; [done| |done]. intros i ?. apply O. lia.
Qed.

(** Two blocks become one. *)
Lemma merge_heap s s' p y u z v q :
  heap s (p ++ (y, u) :: (z, v) :: q) → moved s s' → let a := s.(heapbase) + total p in
  hdr (umem s') a (lsz 0 p) (y + z) false → (q ≠ [] → word_at (umem s') (a + y + z) = y + z + 2) →
  (∀ i, i < a ∨ a + y + z + 4 ≤ i → umem s' i = umem s i) → heap s' (p ++ (y + z, false) :: q).
Proof.
  intros Hh V a D1 D2 O. pose proof Hh as [H1 H2 H3 HF HL]. apply layout_app in HL as [L1 [_ [_ L2]]]. cbn [fst snd] in *. fold a in L2.
  pose proof HF as [Fp [[B1 B2] [[B3 B4] Fq]%Forall_cons]%Forall_cons]%Forall_app. cbn [fst] in *. destruct (total_pos p Fp) as (T1 & _), (total_pos q Fq) as (T2 & _).
  eapply heap_intro; [done|done| |rewrite !total_app; unfold total; simpl; lia|].
  - apply Forall_app. split; [done|]. constructor; [|done]. split; cbn [fst]; lia.
  - apply layout_app. split; [eapply layout_ext; [done| |done]; intros i ?; apply O; lia|]. cbn [layout fst snd]. fold a. split; [done|].
    replace (a + (y + z)) with (a + y + z) by lia. eapply relayout; [done|exact L2| |done]. intros i ?. apply O. lia.
Qed.

(** A header none of whose bytes has changed. *)
Lemma at_hdr_same s s' a prev sz use :
  at_hdr s a prev sz use → moved s s' → (∀ x, a ≤ x < a + 8 → umem s' x = umem s x) → at_hdr s' a prev sz use.
Proof.
  intros H V O. pose proof H as [[A1 A2] _ [E1 E2] [P1 P2] [Z1 Z2]]. eapply at_hdr_moved; [exact H|done| |done..].
  split; [rewrite <- E1|rewrite <- E2]; apply word_at_ext; intros x ?; apply O; lia.
Qed.

(** The last step of a merge: the header in the middle is overwritten. *)
Lemma merge_end_wp {A} s s2 p y z q (k : unit → M um A) Q :
  heap s (p ++ (y, false) :: (z, false) :: q) → moved s s2 → let a := s.(heapbase) + total p in
  hdr (umem s2) a (lsz 0 p) (y + z) false → (q ≠ [] → word_at (umem s2) (a + y + z) = y + z + 2) →
  (∀ i, i < a ∨ a + y + z + 4 ≤ i → umem s2 i = umem s i) →
  (∀ s', heap s' (p ++ (y + z, false) :: q) → moved s s' → (∀ i, i < a ∨ a + y + z + 4 ≤ i → umem s' i = umem s i) → wp (k tt) Q s') →
  wp (__malloc_deadbeef (a + y) 8 ≫= k) Q s2.
Proof.
  intros Hh V2 a D2 W2 O2 Hk. pose proof Hh as [Hp0 Hp1 Hp2 HF _]. rewrite total_app in Hp1. change (total ((y, false) :: (z, false) :: q)) with (y + (z + total q)) in Hp1.
  pose proof HF as [Fp [[B1 B2] [[B3 B4] Fq]%Forall_cons]%Forall_cons]%Forall_app. cbn [fst] in *. destruct (total_pos p Fp) as (T1 & T2 & _), (total_pos q Fq) as (T3 & _).
  apply deadbeef_wp; [done|done| |unfold a; lia|].
  - intros b Hb1 Hb2 Hb3. rewrite (moved_mapped _ _ _ V2). eapply heap_mapped; [exact Hh|lia|lia|done].
  - intros s3 V3 O3. assert (∀ i, i < a ∨ a + y + z + 4 ≤ i → umem s3 i = umem s i) as O by (intros i Hi; rewrite O3 by lia; apply O2; lia).
    pose proof (moved_trans _ _ _ V2 V3) as V. apply Hk; [|done|done]. eapply merge_heap; [exact Hh|done| | |done]; fold a.
    + destruct D2 as [F1 F2]. split; [rewrite <- F1|rewrite <- F2]; apply word_at_ext; intros x ?; apply O3; lia.
    + intros Hq. rewrite <- (W2 Hq). apply word_at_ext. intros x ?. apply O3. lia.
Qed.

Lemma wp_bind_tt {A} (m : M um unit) (k : unit → M um A) Q s : wp (m ≫= k) Q s → wp m (λ b s', wp (k b) Q s') s.
Proof. unfold wp, mbind, M_bind. by destruct (m s). Qed.

Definition merged (y : Z) (u : bool) (z : Z) (v : bool) : list blk := if u || v then [(y, u); (z, v)] else [(y + z, false)].

Lemma trymerge_wp {A} s p y u z v q (k : unit → M um A) Q :
  heap s (p ++ (y, u) :: (z, v) :: q) → let a := s.(heapbase) + total p in
  (∀ s', heap s' (p ++ merged y u z v ++ q) → moved s s' →
     (∀ i, (u = true ∨ v = true) ∨ i < a ∨ a + y + z + 4 ≤ i → umem s' i = umem s i) → wp (k tt) Q s') →
  wp (__malloc_trymerge a (a + y) ≫= k) Q s.
Proof.
  intros Hh a Hk. pose proof (heap_at _ _ _ _ Hh) as Ha. cbn [fst snd] in Ha. fold a in Ha.
  assert (heap s ((p ++ [(y, u)]) ++ (z, v) :: q)) as Hh' by (by rewrite <- app_assoc). pose proof (heap_at _ _ _ _ Hh') as Hb. pose proof (heap_next _ _ _ _ Hh') as Hn.
  rewrite total_app, lsz_app in Hb. rewrite total_app in Hn. change (total [(y, u)]) with (y + 0) in Hb, Hn. change (lsz (lsz 0 p) [(y, u)]) with y in Hb. cbn [fst snd] in Hb, Hn.
  replace (heapbase s + (total p + (y + 0))) with (a + y) in Hb, Hn by (unfold a; lia). unfold __malloc_trymerge. apply wp_bind.
  eapply wp_nextblock; [exact Ha|]. eapply wp_prevblock; [exact Hb|]. rewrite Z.eqb_refl. cbn [negb]. eapply wp_inuse; [exact Ha|].
  destruct u; [apply wp_bind, wp_ret, wp_ret, Hk; [done|done|done]|]. eapply wp_inuse; [exact Hb|]. destruct v; [apply wp_ret, Hk; [done|done|done]|].
  pose proof Ha as [[A1 A2] _ [E1 E2] [P1 P2] [[Z1 Z2] Z3]]. pose proof Hb as [[A3 A4] _ _ _ [[Z4 Z5] Z6]].
  eapply wp_next; [exact Hb|]. eapply wp_size; [exact Ha|]. eapply wp_size; [exact Hb|]. unfold MBLOCKSIZE.
  replace (8 + (y - 8) + 8 + (z - 8)) with (y + z) by lia. rewrite u32_small, MKFIELD_eq by lia.
  eapply wp_set_nextblock; [exact Ha|split; lia|]. intros s1 C1. pose proof (ch_moved _ _ _ _ C1) as V1.
  assert (at_hdr s1 a (lsz 0 p) (y + z) false) as Ha1.
  { eapply at_hdr_moved; try exact Ha; try done; try lia; [|split; lia]. split; [by rewrite (changed_other _ _ _ _ _ C1) by lia|apply C1]. }
  apply wp_get. rewrite (mv_top _ _ V1).
  assert (∀ s', heap s' (p ++ (y + z, false) :: q) → moved s s' → (∀ i, i < a ∨ a + y + z + 4 ≤ i → umem s' i = umem s i) → wp (k tt) Q s') as Hk'.
  { intros s' Hs' V O. apply Hk; [done|done|]. intros i [[?|?]|?]; [done|done|by apply O]. }
  destruct Hn as [[Eq En]|(c & r & Eq & Hlt & Hc)].
  - rewrite (proj2 (Z.eqb_eq _ _) En). cbn [negb]. apply wp_bind, wp_ret, wp_bind_tt. eapply merge_end_wp; [exact Hh|exact V1|apply Ha1|by subst q| |exact Hk']. intros i Hi. apply (ch_out _ _ _ _ C1). lia.
  - rewrite (proj2 (Z.eqb_neq _ _)) by lia. cbn [negb]. apply wp_bind. eapply wp_nextblock; [exact Ha1|].
    assert (at_hdr s1 (a + y + z) z c.1 c.2) as Hc1 by (eapply at_hdr_same; [exact Hc|done|]; intros x ?; apply (ch_out _ _ _ _ C1); lia).
    apply wp_bind_ret. eapply wp_set_prevblock; [exact Hc1|split; lia|]. intros s2 C2. apply wp_ret, wp_bind_tt. eapply merge_end_wp; [exact Hh| | | | |exact Hk'].
    + eapply moved_trans; [exact V1|apply C2].
    + destruct (ah_hdr _ _ _ _ _ Ha1) as [F1 F2]. split; [rewrite <- F1|rewrite <- F2]; eapply changed_other; try exact C2; lia.
    + intros _. apply C2.
    + intros i Hi. rewrite (ch_out _ _ _ _ C2) by lia. apply (ch_out _ _ _ _ C1). lia.
Qed.

(** Merging with the block above, ... *)
Lemma merge_above_wp {A} s p z q (k : unit → M um A) Q :
  heap s (p ++ (z, false) :: q) → let a := s.(heapbase) + total p in
  (∀ s' z' q', heap s' (p ++ (z', false) :: q') → moved s s' → live (a + z') q' = live (a + z) q → (∀ i, i < a → umem s' i = umem s i) →
     untouched s s' (live (a + z) q) → (∀ b, next_ok b q → next_ok (Some (z', false)) q') → wp (k tt) Q s') →
  wp ((if negb (a + z =? s.(heaptop)) then __malloc_trymerge a (a + z) else mret tt) ≫= k) Q s.
Proof.
  intros Hh a Hk. pose proof (heap_next _ _ _ _ Hh) as Hn. cbn [fst] in Hn. fold a in Hn. destruct Hn as [[-> En]|([y u] & r & -> & Hlt & _)].
  - rewrite (proj2 (Z.eqb_eq _ _) En). cbn [negb]. apply wp_bind, wp_ret. by eapply Hk.
  - rewrite (proj2 (Z.eqb_neq _ _)) by lia. cbn [negb]. eapply trymerge_wp; [exact Hh|]. fold a. intros s' Hh' V O.
    pose proof Hh as [_ _ _ [_ [[B1 B2] [[B3 B4] Fr]%Forall_cons]%Forall_cons]%Forall_app _]. cbn [fst] in *. destruct u; unfold merged in Hh'; cbn [orb app] in Hh'.
    + apply (Hk s' z ((y, true) :: r)); try done; [intros i Hi; apply O; auto|intros x n i _ _; apply O; auto|]. intros b Hb. apply used_next in Hb. by apply used_next.
    + apply (Hk s' (z + y) r); try done.
      * cbn [live fst snd app]. f_equal. lia.
      * intros i Hi. apply O. auto.
      * cbn [live fst snd app]. intros x n i Hx Hi. apply live_bounds in Hx; [|done]. apply O. lia.
      * intros b. cbn [next_ok snd]. intros [_ Hr]. destruct r as [|c r]; [done|]. destruct Hr as [[?|?] Hr]; [done|]. split; [by right|done].
Qed.

(** ... and with the block below. *)
Lemma merge_below_wp s p z q :
  heap s (p ++ (z, false) :: q) → let a := s.(heapbase) + total p in
  wp (if negb (a =? s.(heapbase)) then mhprev ← M_PREV a; __malloc_trymerge mhprev a else mret tt)
     (λ _ s', ∃ bl', heap s' bl' ∧ moved s s' ∧ live s.(heapbase) bl' = live s.(heapbase) p ++ live (a + z) q ∧
        untouched s s' (live s.(heapbase) p ++ live (a + z) q) ∧ (next_ok None p → next_ok (Some (z, false)) q → coalesced bl')) s.
Proof.
  intros Hh a. pose proof Hh as [_ _ _ HF _]. pose proof HF as [Fp [[B1 B2] Fq]%Forall_cons]%Forall_app. cbn [fst] in *. destruct p as [|b0 p0 _] using rev_ind.
  - unfold a. rewrite Z.add_0_r, Z.eqb_refl. cbn [negb]. apply wp_ret. exists ((z, false) :: q). split; [done|]. split; [done|]. split; [done|]. by split.
  - destruct b0 as [y u]. apply Forall_app in Fp as [Fp [[B3 B4] _]%Forall_cons]. cbn [fst] in *. destruct (total_pos p0 Fp) as (T1 & _).
    assert (a = s.(heapbase) + total p0 + y) as Ea by (unfold a; rewrite total_app; unfold total; simpl; lia).
    rewrite (proj2 (Z.eqb_neq _ _)) by lia. cbn [negb]. pose proof (heap_at _ _ _ _ Hh) as Ha. fold a in Ha. rewrite lsz_app in Ha. change (lsz _ [(y, u)]) with y in Ha.
    eapply wp_prev; [exact Ha|]. rewrite <- app_assoc in Hh. cbn [app] in Hh. apply wp_bind_ret. rewrite Ea. replace (heapbase s + total p0 + y - y) with (heapbase s + total p0) by lia.
    eapply trymerge_wp; [exact Hh|]. intros s' Hh' V O. apply wp_ret. exists (p0 ++ merged y u z false ++ q). split; [done|]. split; [done|].
    assert (untouched s s' (live s.(heapbase) (p0 ++ [(y, u)]) ++ live (heapbase s + total p0 + y + z) q)) as Hu.
    { intros x n i. rewrite live_app. cbn [live fst snd app]. rewrite app_nil_r. intros [[Hx|Hx]%elem_of_app|Hx]%elem_of_app Hi.
      - apply live_bounds in Hx; [|done]. apply O. lia.
      - destruct u; [apply O; auto|by apply elem_of_nil in Hx].
      - apply live_bounds in Hx; [|done]. apply O. lia. }
    split; [|split; [done|]].
    + rewrite !live_app. unfold merged. destruct u; cbn [orb live fst snd app total foldr]; rewrite ?app_nil_r, <- ?app_assoc; cbn [app]; do 2 f_equal; [f_equal|]; lia.
    + unfold coalesced, merged. rewrite !next_ok_app. cbn [next_ok last from_option snd]. intros (H1 & H2 & _) H3. destruct u; cbn [orb].
      * cbn [next_ok last from_option snd]. naive_solver.
      * cbn [next_ok last from_option snd]. split; [done|]. split; [done|]. destruct q as [|c q]; [done|]. exact H3.
Qed.

Lemma free_wp s p z q :
  heap s (p ++ (z, true) :: q) → let a := s.(heapbase) + total p in a + 8 < s.(heaptop) →
  wp (free (Some (a + 8)))
     (λ _ s', ∃ bl', heap s' bl' ∧ s'.(heapbase) = s.(heapbase) ∧ live s.(heapbase) bl' = live s.(heapbase) p ++ live (a + z) q ∧
        untouched s s' (live s.(heapbase) p ++ live (a + z) q) ∧ (coalesced (p ++ (z, true) :: q) → coalesced bl')) s.
Proof.
  intros Hh a Hlt. pose proof Hh as [H1 H2 H3 HF _]. pose proof HF as [Fp [[B1 B2] Fq]%Forall_cons]%Forall_app. cbn [fst] in *. destruct (total_pos p Fp) as (T1 & T2 & _), (total_pos q Fq) as (T3 & _).
  rewrite total_app in H2. change (total ((z, true) :: q)) with (z + total q) in H2. pose proof (heap_at _ _ _ _ Hh) as Ha. cbn [fst snd] in Ha. fold a in Ha. pose proof Ha as [[A1 A2] _ [E1 E2] [P1 P2] [[Z1 Z2] Z3]].
  unfold free. apply wp_get. rewrite (proj2 (Z.eqb_neq (heapbase s) 0)), (proj2 (Z.eqb_neq (heaptop s) 0)) by lia. rewrite Z.gtb_ltb, (proj2 (Z.ltb_ge (heaptop s) (heapbase s))) by lia. cbn [orb].
  rewrite (proj2 (Z.ltb_ge (a + 8) (heapbase s))) by lia. rewrite Z.geb_leb, (proj2 (Z.leb_gt (heaptop s) (a + 8))) by lia. cbn [orb].
  unfold MBLOCKSIZE. replace (a + 8 - 8) with a by lia. rewrite u32_small by lia. eapply wp_ok; [exact Ha|]. cbn [negb]. eapply wp_inuse; [exact Ha|]. cbn [negb].
  eapply (wp_set_inuse _ _ _ _ _ Ha _ _ false). intros s1 C1. pose proof (ch_moved _ _ _ _ C1) as V1.
  assert (heap s1 (p ++ (z, false) :: q)) as Hh1.
  { eapply heap_intro; [exact Hh|done|apply Forall_app; split; [done|by constructor]|by rewrite !total_app|]. pose proof (hp_layout _ _ Hh) as [L1 [_ L2]]%layout_app.
    apply layout_app. split; [eapply layout_ext; [done| |done]; intros i ?; apply (ch_out _ _ _ _ C1); lia|]. split; [split; [|apply C1]|].
    - fold a. by rewrite (changed_other _ _ _ _ _ C1) by lia.
    - cbn [fst] in *. eapply layout_ext; [done| |done]. intros i ?. apply (ch_out _ _ _ _ C1). lia. }
  assert (at_hdr s1 a (lsz 0 p) z false) as Ha1 by (pose proof (heap_at _ _ _ _ Hh1) as X; rewrite (mv_base _ _ V1) in X; exact X).
  eapply wp_size; [exact Ha1|]. unfold M_DATA, MBLOCKSIZE. rewrite u32_small by lia. apply deadbeef_wp; [lia|lia| |lia|].
  { intros b Hb1 Hb2 Hb3. eapply heap_mapped; [exact Hh1|rewrite (mv_base _ _ V1); lia|rewrite (mv_top _ _ V1); lia|done]. }
  intros s2 V2 O2. pose proof (moved_trans _ _ _ V1 V2) as V12. assert (heap s2 (p ++ (z, false) :: q)) as Hh2.
  { eapply data_heap; [exact Hh1|done| |apply Z.le_refl]. rewrite (mv_base _ _ V1). exact O2. }
  assert (∀ i, i < a ∨ a + z ≤ i → umem s2 i = umem s i) as O by (intros i Hi; rewrite O2 by lia; apply (ch_out _ _ _ _ C1); lia).
  pose proof (heap_at _ _ _ _ Hh2) as Ha2. pose proof (merge_above_wp (A := unit) s2 p z q) as Hab. rewrite (mv_base _ _ V12) in Ha2, Hab. rewrite (mv_top _ _ V12) in Hab. fold a in Ha2, Hab. cbn [fst snd] in Ha2.
  eapply wp_next; [exact Ha2|]. apply Hab; [done|]. intros s3 z' q' Hh3 V3 EL O3 U3 N3. pose proof (moved_trans _ _ _ V12 V3) as V13.
  pose proof (merge_below_wp s3 p z' q' Hh3) as Hbe. rewrite (mv_base _ _ V13) in Hbe. fold a in Hbe.
  eapply wp_mono; [|exact Hbe]. intros _ s4 (bl' & Hh4 & V4 & EL4 & U4 & N4). exists bl'. rewrite EL in EL4, U4. split; [done|].
  split; [by rewrite (mv_base _ _ V4), (mv_base _ _ V13)|]. split; [done|]. split.
  - intros x n i Hx Hi. rewrite (U4 x n i Hx Hi). apply elem_of_app in Hx as [Hx|Hx].
    + pose proof (live_bounds _ _ _ _ Fp Hx). rewrite O3, O by lia. done.
    + rewrite (U3 x n i Hx Hi). apply live_bounds in Hx; [|done]. apply O. lia.
  - unfold coalesced. rewrite next_ok_app. intros [N1 [_ N2]]. apply N4; [done|]. by eapply N3.
Qed.

Section claims.
Context (grant : Z → Z → bool).

(** C16. The C library's [malloc] keeps the program's blocks apart: on every heap it
    can have made, and before its first use, for every size up to 2 GiB less
    16 bytes it returns; either a null pointer, if no free block is large enough and the kernel
    refuses more memory, with nothing changed; or a pointer aligned to 8 bytes to at
    least as many bytes as were asked for, in a new block: the other blocks in use
    are where they were, none of their bytes has changed, and no two free blocks
    are next to each other if none were before. *)
Theorem umalloc_spec (size : Z) (bl : list blk) (s : um) :
  (∀ b n, grant b n = true → b + n ≤ 2147483648) → usable grant s bl → 0 ≤ size ≤ 2147483632 →
  ∃ r s', malloc grant size s = Ret r s' ∧ malloc_post grant size bl s r s'.
Proof.
  intros Hg [Hh|[Hf ->]] Hs.
  - destruct (wp_inv _ _ _ (malloc_heap_wp grant Hg size bl s Hh Hs)) as (r & s' & H & Hp). by exists r, s'.
  - destruct (wp_inv _ _ _ (malloc_init_wp grant s Hf)) as ([] & s1 & Hi & Hh & Em & Eb).
    destruct (wp_inv _ _ _ (malloc_heap_wp grant Hg size [] s1 Hh Hs)) as (r & s' & H & Hp). exists r, s'. split.
    + revert H. unfold malloc. rewrite !get_bind. destruct Hf as (-> & _). rewrite Z.eqb_refl. cbn [when]. rewrite (bind_Ret _ _ _ _ _ Hi).
      rewrite (proj2 (Z.eqb_neq (heapbase s1) 0)); [done|]. destruct (hp_base _ _ Hh). lia.
    + unfold malloc_post, untouched in *. rewrite <- Em, <- Eb. done.
Qed.

(** Two requests the C library's allocator gets wrong.  A size within 7 of
    [2^32] is rounded up to 0, so that [malloc] does the same as for 0 bytes and
    can succeed.  And [free] ends the program when it is given the data of an empty
    block at the top of the heap, which is what [malloc] of 0 bytes (hence of
    [2^32 - 1]) returns when it has to extend the heap. *)
Theorem umalloc_edges (size : Z) (bl : list blk) (s : um) :
  (∀ b n, grant b n = true → b + n ≤ 2147483648) → 4294967289 ≤ size < W32 →
  malloc grant size s = malloc grant 0 s ∧
  (heap s bl → fit 0 bl = None → grant s.(ubrk) 8 = true → ∃ ptr s', malloc grant 0 s = Ret (Some ptr) s' ∧ free (Some ptr) s' = Panic s').
Proof.
  intros Hg Hs. split.
  - unfold malloc. replace (round_up size) with (round_up 0); [done|]. unfold W32 in Hs.
    assert (∃ k, size = 4294967289 + k ∧ 0 ≤ k < 7) as (k & -> & Hk) by (exists (size - 4294967289); lia).
    assert (k = 0 ∨ k = 1 ∨ k = 2 ∨ k = 3 ∨ k = 4 ∨ k = 5 ∨ k = 6) as Hc by lia. destruct_or! Hc; by subst k.
  - intros Hh Hf Hgr. assert (wp (malloc grant 0) (λ r s', r = Some (s.(heaptop) + 8) ∧ heap s' (bl ++ [(8, true)]) ∧ s'.(heapbase) = s.(heapbase)) s) as Hw.
    { apply (malloc_search_wp grant 0 bl s); [done|lia|]. change (round_up 0) with 0. rewrite Hf. eapply wp_mono; [|apply (expand_wp grant Hg 0 bl s); [done|done|lia]].
      change (0 + 8) with 8. rewrite Hgr. intros r s' (-> & H1 & H2 & _). done. }
    destruct (wp_inv _ _ _ Hw) as (r & s' & E & -> & Hh' & Eb). exists (s.(heaptop) + 8), s'. split; [done|].
    pose proof (hp_top _ _ Hh') as Et. rewrite Eb, total_app in Et. pose proof (hp_top _ _ Hh) as Et0. change (total [(8, true)]) with 8 in Et. destruct (hp_base _ _ Hh') as (B1 & _).
    destruct (total_pos bl (hp_blocks _ _ Hh)) as (T1 & _).
    unfold free. rewrite get_bind. rewrite (proj2 (Z.eqb_neq (heapbase s') 0)), (proj2 (Z.eqb_neq (heaptop s') 0)) by lia.
    rewrite Z.gtb_ltb, (proj2 (Z.ltb_ge (heaptop s') (heapbase s'))) by lia. rewrite Z.geb_leb, (proj2 (Z.leb_le (heaptop s') (heaptop s + 8))) by lia. by rewrite orb_true_r.
Qed.
End claims.

(** C17. The C library's [free] gives one block back and nothing else: freeing the
    data of any block in use (other than an empty block at the very top of the
    heap) returns; the other blocks in use are where they were and none of their
    bytes has changed; the block is merged with the free blocks around it, so that
    no two free blocks are next to each other if none were before. *)
Theorem ufree_spec (s : um) (bl : list blk) (l1 l2 : list (Z * Z)) (ptr n : Z) :
  heap s bl → live s.(heapbase) bl = l1 ++ (ptr, n) :: l2 → ptr < s.(heaptop) →
  ∃ s' bl', free (Some ptr) s = Ret tt s' ∧ heap s' bl' ∧ s'.(heapbase) = s.(heapbase) ∧ live s.(heapbase) bl' = l1 ++ l2 ∧
    untouched s s' (l1 ++ l2) ∧ (coalesced bl → coalesced bl').
Proof.
  intros Hh Hl Hlt. destruct (live_split _ _ _ _ _ _ Hl) as (p & z & q & -> & -> & -> & -> & ->).
  destruct (wp_inv _ _ _ (free_wp s p z q Hh Hlt)) as ([] & s' & H & bl' & H1 & H2 & H3 & H4 & H5). by exists s', bl'.
Qed.

(** ** Examples: a program with 4 KiB of memory *)

Definition ex_grant (b n : Z) : bool := (4096 <=? b + n) && (b + n <=? 8192).
Definition ex_process : um := Um (λ _, 0) 0 0 4096 4096.

Lemma ex_grant_ok b n : ex_grant b n = true → b + n ≤ 2147483648.
Proof. unfold ex_grant. intros [_ H%Z.leb_le]%andb_true_iff. lia. Qed.

Lemma ex_process_ok : usable ex_grant ex_process [].
Proof. right. split; [|done]. repeat split; done. Qed.

Lemma umalloc_spec_witness : ∃ r s', malloc ex_grant 100 ex_process = Ret r s' ∧ malloc_post ex_grant 100 [] ex_process r s'.
Proof. apply (umalloc_spec ex_grant 100 [] ex_process ex_grant_ok ex_process_ok). lia. Defined.

(** Three blocks, the second free. *)
Definition ex_heap : um :=
  match (a ← malloc ex_grant 10; b ← malloc ex_grant 24; c ← malloc ex_grant 8; free b;; mret tt) ex_process with Ret _ s => s | _ => ex_process end.

Lemma ex_heap_ok : heap ex_heap [(24, true); (32, false); (16, true)].
Proof. split; [repeat split; vm_compute; done|vm_compute; done|split; vm_compute; done| |repeat split; vm_compute; done].
  repeat (constructor; [by split|]). constructor.
Qed.

Lemma ufree_spec_witness :
  ∃ s' bl', free (Some 4104) ex_heap = Ret tt s' ∧ heap s' bl' ∧ s'.(heapbase) = 4096 ∧ live 4096 bl' = [(4160, 8)] ∧
    untouched ex_heap s' [(4160, 8)] ∧ (coalesced [(24, true); (32, false); (16, true)] → coalesced bl').
Proof. apply (ufree_spec ex_heap _ [] [(4160, 8)] 4104 16 ex_heap_ok); [reflexivity|vm_compute; reflexivity]. Defined.

Lemma umalloc_edges_witness :
  malloc ex_grant 4294967295 ex_heap = malloc ex_grant 0 ex_heap ∧
  ∃ ptr s', malloc ex_grant 0 (Um (λ _, 0) 4096 4096 4096 4096) = Ret (Some ptr) s' ∧ free (Some ptr) s' = Panic s'.
Proof.
  split; [apply (umalloc_edges ex_grant 4294967295 [] ex_heap ex_grant_ok); done|].
  apply (umalloc_edges ex_grant 4294967295 [] (Um (λ _, 0) 4096 4096 4096 4096) ex_grant_ok); [done|split; done|done|done].
Defined.
