(* ===== verification/CString.v ===== *)
(** * Memory and string routines shared by the kernel and the C library

    common/libc/string (memcpy.c, memmove.c, bzero.c, strlen.c, strcpy.c,
    strcat.c, strcmp.c, strchr.c, strrchr.c, strtok_r.c) and
    common/libc/stdlib/atoi.c, on a memory of bytes.  A pointer is an index of the
    memory; an access outside it is a [Fault].  A [char] is its code from 0 to
    255.  The loops that run to the end of a string have the size of the memory
    as their budget.

    [memmove_exact] shows that the routine the other models use by its contract
    [blk_move] meets it on every overlap; [strtok_words] that a sequence of calls
    of [strtok_r] yields the words of the string. *)

From Stdlib Require Import ZArith Lia.
From stdpp Require Import base numbers list.
From S2P Require Import Prelude.

Abbreviation mem := (list Z).

Definition ld (p : Z) : M mem Z := m ← get; of_opt (zlookup m p).
Definition st (p v : Z) : M mem unit := m ← get; m' ← of_opt (zupd m p v); modify (λ _, m').

(** A [long] is read and written as its four bytes. *)
Definition ldw (p : Z) : M mem (Z * Z * Z * Z) :=
  a ← ld p; b ← ld (p + 1); c ← ld (p + 2); d ← ld (p + 3); mret (a, b, c, d).
Definition stw (p : Z) (w : Z * Z * Z * Z) : M mem unit :=
  let '(a, b, c, d) := w in st p a;; st (p + 1) b;; st (p + 2) c;; st (p + 3) d.

(** [for (i = n; i > 0; i--) body]. *)
Fixpoint for_down (n : nat) (body : Z → M mem unit) : M mem unit :=
  match n with
  | O => mret tt
  | S n' => body (Z.of_nat n);; for_down n' body
  end.

(** ** Blocks *)

Definition words_aligned (dst src len : Z) : bool := (dst mod 4 =? 0) && (src mod 4 =? 0) && (len mod 4 =? 0).

Definition memcpy (dst src len : Z) : M mem Z :=
  (if words_aligned dst src len
   then for_up (Z.to_nat (len / 4)) 0 (λ i, w ← ldw (src + 4 * i); stw (dst + 4 * i) w)
   else for_up (Z.to_nat len) 0 (λ i, c ← ld (src + i); st (dst + i) c));;
  mret dst.

Definition memmove (dst src len : Z) : M mem Z :=
  if dst <? src then memcpy dst src len
  else
    (if words_aligned dst src len
     then for_down (Z.to_nat (len / 4)) (λ i, w ← ldw (src + 4 * (i - 1)); stw (dst + 4 * (i - 1)) w)
     else for_down (Z.to_nat len) (λ i, c ← ld (src + (i - 1)); st (dst + (i - 1)) c));;
    mret dst.

Definition bzero (block len : Z) : M mem unit :=
  if (block mod 4 =? 0) && (len mod 4 =? 0)
  then for_up (Z.to_nat (len / 4)) 0 (λ i, stw (block + 4 * i) (0, 0, 0, 0))
  else for_up (Z.to_nat len) 0 (λ i, st (block + i) 0).

(** ** Strings *)

(** The number of iterations any scan of the memory can take. *)
Definition fuel (m : mem) : nat := S (length m).

Fixpoint strlen_loop (n : nat) (str ret : Z) : M mem Z :=
  match n with
  | O => diverge
  | S n => c ← ld (str + ret); if c =? 0 then mret ret else strlen_loop n str (ret + 1)
  end.
Definition strlen (str : Z) : M mem Z := m ← get; strlen_loop (fuel m) str 0.

Fixpoint strcpy_loop (n : nat) (dest src i : Z) : M mem Z :=
  match n with
  | O => diverge
  | S n => c ← ld (src + i); if c =? 0 then mret i else st (dest + i) c;; strcpy_loop n dest src (i + 1)
  end.
Definition strcpy (dest src : Z) : M mem Z :=
  m ← get; i ← strcpy_loop (fuel m) dest src 0; st (dest + i) 0;; mret dest.

Definition strcat (dest src : Z) : M mem Z :=
  offset ← strlen dest; strcpy (dest + offset) src;; mret dest.

Fixpoint strcmp_loop (n : nat) (a b i : Z) : M mem Z :=
  match n with
  | O => diverge
  | S n =>
      x ← ld (a + i);
      go ← (if negb (x =? 0) then y ← ld (b + i); mret (x =? y) else mret false);
      if (go : bool) then strcmp_loop n a b (i + 1) else mret i
  end.
Definition strcmp (a b : Z) : M mem Z :=
  m ← get; i ← strcmp_loop (fuel m) a b 0;
  x ← ld (a + i); y ← ld (b + i);
  mret (if x >? y then 1 else if x =? y then 0 else -1).

(** The argument is an [int] that is cut down to a [char]. *)
Fixpoint strchr_loop (n : nat) (s ch : Z) : M mem (option Z) :=
  match n with
  | O => diverge
  | S n =>
      c ← ld s;
      if negb (c =? 0) then if c =? ch then mret (Some s) else strchr_loop n (s + 1) ch
      else mret (if c =? ch then Some s else None)
  end.
Definition strchr (s ch_arg : Z) : M mem (option Z) := m ← get; strchr_loop (fuel m) s (ch_arg mod 256).

Fixpoint strrchr_loop (n : nat) (s ch : Z) : M mem (option Z) :=
  match n with
  | O => mret None
  | S n => c ← ld (s + Z.of_nat n); if c =? ch then mret (Some (s + Z.of_nat n)) else strrchr_loop n s ch
  end.
Definition strrchr (s ch_arg : Z) : M mem (option Z) :=
  i ← strlen s; strrchr_loop (Z.to_nat (i + 1)) s (ch_arg mod 256).

(** The two scans of [strtok_r]: over characters that are separators ([b] true),
    or that are not. *)
Fixpoint tok_scan (n : nat) (b : bool) (p seps : Z) : M mem Z :=
  match n with
  | O => diverge
  | S n =>
      c ← ld p;
      if c =? 0 then mret p
      else r ← strchr seps c; if Bool.eqb (bool_decide (is_Some r)) b then tok_scan n b (p + 1) seps else mret p
  end.

(** The context is passed in and handed back. *)
Definition strtok_r (string : option Z) (seps : Z) (context : option Z) : M mem (option Z * option Z) :=
  let context := if string is Some _ then string else context in
  match context with
  | None => mret (None, context)
  | Some head =>
      m ← get;
      head ← tok_scan (fuel m) true head seps;
      c ← ld head;
      if c =? 0 then mret (None, None)
      else
        tail ← tok_scan (fuel m) false head seps;
        c ← ld tail;
        if c =? 0 then mret (Some head, None)
        else st tail 0;; mret (Some head, Some (tail + 1))
  end.

(** [digits] is where the constant array of the digits lies. *)
Fixpoint atoi_space (n : nat) (s : Z) : M mem Z :=
  match n with
  | O => diverge
  | S n => c ← ld s; if (c =? 32) || (c =? 9) then atoi_space n (s + 1) else mret s
  end.
Fixpoint atoi_digits (n : nat) (digits s val : Z) : M mem Z :=
  match n with
  | O => diverge
  | S n =>
      c ← ld s;
      if c =? 0 then mret val
      else
        where_ ← strchr digits c;
        match where_ with
        | None => mret val
        | Some w => atoi_digits n digits (s + 1) (u32 (val * 10 + (w - digits)))
        end
  end.
Definition atoi (digits s : Z) : M mem Z :=
  m ← get;
  s ← atoi_space (fuel m) s;
  c ← ld s;
  let neg := c =? 45 in
  let s := if neg then s + 1 else if c =? 43 then s + 1 else s in
  val ← atoi_digits (fuel m) digits s 0;
  mret (if neg then s32 (- val) else s32 val).

(** ** Moving blocks *)

Lemma wp_ld {A} p c (k : Z → M mem A) Q m : zlookup m p = Some c → wp (k c) Q m → wp (ld p ≫= k) Q m.
Proof. intros H Hk. unfold ld. apply wp_bind, wp_get. rewrite H. by apply wp_ret. Qed.

Lemma wp_st {A} p v (k : unit → M mem A) Q m :
  0 ≤ p < Z.of_nat (length m) → wp (k tt) Q (<[Z.to_nat p := v]> m) → wp (st p v ≫= k) Q m.
Proof. intros H Hk. unfold st. apply wp_bind, wp_get. rewrite zupd_Some by done. apply wp_bind, wp_ret, wp_modify', Hk. Qed.

Lemma wp_st' p v (Q : unit → mem → Prop) m :
  0 ≤ p < Z.of_nat (length m) → Q tt (<[Z.to_nat p := v]> m) → wp (st p v) Q m.
Proof. intros. apply wp_bind_ret, wp_st; [done|]. by apply wp_ret. Qed.

Lemma wp_for_down (J : Z → mem → Prop) (body : Z → M mem unit) n Q m :
  J (Z.of_nat n) m →
  (∀ i m', 1 ≤ i ≤ Z.of_nat n → J i m' → wp (body i) (λ _, J (i - 1)) m') →
  (∀ m', J 0 m' → Q tt m') → wp (for_down n body) Q m.
Proof.
  revert m. induction n as [|n IH]; intros m H0 Hs Hq; [by apply wp_ret, Hq|].
  change (for_down (S n) body) with (body (Z.of_nat (S n));; for_down n body). apply wp_bind. eapply wp_mono; [|apply Hs; [lia|done]].
  intros [] m' H. apply IH; [by replace (Z.of_nat n) with (Z.of_nat (S n) - 1) by lia| |done].
  intros i m'' Hi. apply Hs. lia.
Qed.

(** [m'] is [m] with the bytes [lo] to [hi] of the block moved. *)
Definition moved (m m' : mem) (dst src lo hi : Z) : Prop :=
  length m' = length m ∧
  ∀ a, zlookup m' a = if (dst + lo <=? a) && (a <? dst + hi) then zlookup m (a - dst + src) else zlookup m a.

Section move.
Context (m : mem) (dst src len : Z).
Hypothesis Hd : 0 ≤ dst.
Hypothesis Hs : 0 ≤ src.
Hypothesis Hld : dst + len ≤ Z.of_nat (length m).
Hypothesis Hls : src + len ≤ Z.of_nat (length m).

Lemma moved_none i : moved m m dst src i i.
Proof. split; [done|]. intros a. destruct (Z.leb_spec (dst + i) a), (Z.ltb_spec a (dst + i)); cbn [andb]; lia || done. Qed.

Lemma src_read j : 0 ≤ j < len → ∃ c, zlookup m (src + j) = Some c.
Proof. intros. apply zlookup_is_Some. lia. Qed.

(** A byte of the source that has not been overwritten. *)
Lemma moved_read m' lo hi j :
  moved m m' dst src lo hi → ¬ dst + lo ≤ src + j < dst + hi → zlookup m' (src + j) = zlookup m (src + j).
Proof.
  intros [_ H] Hj. rewrite H. destruct (Z.leb_spec (dst + lo) (src + j)), (Z.ltb_spec (src + j) (dst + hi)); cbn [andb]; lia || done.
Qed.

Lemma moved_up m' lo hi c :
  moved m m' dst src lo hi → 0 ≤ lo ≤ hi → hi < len → zlookup m (src + hi) = Some c →
  moved m (<[Z.to_nat (dst + hi) := c]> m') dst src lo (hi + 1).
Proof.
  intros [L H] Hl Hh Hc. split; [by rewrite length_insert|]. intros a. rewrite zlookup_insert, H by (rewrite ?L; lia).
  destruct (Z.eqb_spec (dst + hi) a) as [<-|]; [zdecide; rewrite <- Hc; f_equal; lia|].
  destruct (Z.leb_spec (dst + lo) a); cbn [andb]; [|done]. destruct (Z.ltb_spec a (dst + hi)); zdecide; done.
Qed.

Lemma moved_down m' j hi c :
  moved m m' dst src (j + 1) hi → 0 ≤ j < hi → hi ≤ len → zlookup m (src + j) = Some c →
  moved m (<[Z.to_nat (dst + j) := c]> m') dst src j hi.
Proof.
  intros [L H] Hl Hh Hc. split; [by rewrite length_insert|]. intros a. rewrite zlookup_insert, H by (rewrite ?L; lia).
  destruct (Z.eqb_spec (dst + j) a) as [<-|]; [zdecide; rewrite <- Hc; f_equal; lia|].
  destruct (Z.ltb_spec a (dst + hi)); rewrite ?andb_false_r, ?andb_true_r; [|done]. destruct (Z.leb_spec (dst + (j + 1)) a); zdecide; done.
Qed.

(** One word, four bytes at a time: all are read before the first is written. *)
Lemma ldw_wp (Q : Z * Z * Z * Z → mem → Prop) m' lo hi j :
  moved m m' dst src lo hi → 0 ≤ j → j + 4 ≤ len → ¬ dst + lo < src + j + 4 ∨ ¬ src + j < dst + hi →
  (∀ a b c d, zlookup m (src + j) = Some a → zlookup m (src + (j + 1)) = Some b → zlookup m (src + (j + 2)) = Some c →
     zlookup m (src + (j + 3)) = Some d → Q (a, b, c, d) m') →
  wp (ldw (src + j)) Q m'.
Proof.
  intros Hm Hj Hl Hdis HQ.
  destruct (src_read j) as [a Ha], (src_read (j + 1)) as [b Hb], (src_read (j + 2)) as [c Hc], (src_read (j + 3)) as [d He]; try lia.
  unfold ldw. rewrite <- !Z.add_assoc.
  assert (∀ i, 0 ≤ i < 4 → zlookup m' (src + (j + i)) = zlookup m (src + (j + i))) as R by (intros i Hi; apply (moved_read m' lo hi); [done|lia]).
  pose proof (R 0) as R0. rewrite !Z.add_0_r in R0.
  eapply wp_ld; [by rewrite R0, Ha by lia|]. eapply wp_ld; [by rewrite R, Hb by lia|].
  eapply wp_ld; [by rewrite R, Hc by lia|]. eapply wp_ld; [by rewrite R, He by lia|]. apply wp_ret. by apply HQ.
Qed.

Lemma stw_up m' lo j a b c d (Q : unit → mem → Prop) :
  moved m m' dst src lo j → 0 ≤ lo ≤ j → j + 4 ≤ len →
  zlookup m (src + j) = Some a → zlookup m (src + (j + 1)) = Some b → zlookup m (src + (j + 2)) = Some c → zlookup m (src + (j + 3)) = Some d →
  (∀ m'', moved m m'' dst src lo (j + 4) → Q tt m'') →
  wp (stw (dst + j) (a, b, c, d)) Q m'.
Proof.
  intros Hm Hl Hj Ha Hb Hc He HQ. pose proof Hm as [L _]. unfold stw. rewrite <- !Z.add_assoc.
  apply wp_st; [lia|]. apply wp_st; [rewrite length_insert; lia|]. apply wp_st; [rewrite !length_insert; lia|].
  apply wp_st'; [rewrite !length_insert; lia|]. apply HQ.
  apply (moved_up _ _ _ a) in Hm; [|lia..|done]. apply (moved_up _ _ _ b) in Hm; [|lia..|done].
  replace (j + 1 + 1) with (j + 2) in Hm by lia. apply (moved_up _ _ _ c) in Hm; [|lia..|done].
  replace (j + 2 + 1) with (j + 3) in Hm by lia. apply (moved_up _ _ _ d) in Hm; [|lia..|done].
  by replace (j + 3 + 1) with (j + 4) in Hm by lia.
Qed.

Lemma stw_down m' hi j a b c d (Q : unit → mem → Prop) :
  moved m m' dst src (j + 4) hi → 0 ≤ j → j + 4 ≤ hi ≤ len →
  zlookup m (src + j) = Some a → zlookup m (src + (j + 1)) = Some b → zlookup m (src + (j + 2)) = Some c → zlookup m (src + (j + 3)) = Some d →
  (∀ m'', moved m m'' dst src j hi → Q tt m'') →
  wp (stw (dst + j) (a, b, c, d)) Q m'.
Proof.
  intros Hm Hj Hh Ha Hb Hc He HQ. pose proof Hm as [L _]. unfold stw. rewrite <- !Z.add_assoc.
  apply wp_st; [lia|]. apply wp_st; [rewrite length_insert; lia|]. apply wp_st; [rewrite !length_insert; lia|].
  apply wp_st'; [rewrite !length_insert; lia|]. apply HQ.
  rewrite (list_insert_insert_ne _ (Z.to_nat (dst + (j + 3)))), (list_insert_insert_ne _ (Z.to_nat (dst + (j + 3)))), (list_insert_insert_ne _ (Z.to_nat (dst + (j + 3)))) by lia.
  rewrite (list_insert_insert_ne _ (Z.to_nat (dst + (j + 2)))), (list_insert_insert_ne _ (Z.to_nat (dst + (j + 2)))) by lia.
  rewrite (list_insert_insert_ne _ (Z.to_nat (dst + (j + 1)))) by lia.
  apply moved_down; [|lia..|done]. apply moved_down; [replace (j + 1 + 1) with (j + 2) by lia|lia..|done].
  apply moved_down; [replace (j + 2 + 1) with (j + 3) by lia|lia..|done]. apply moved_down; [by replace (j + 3 + 1) with (j + 4) by lia|lia..|done].
Qed.

(** Moving forwards is right if the destination starts below the source, or past
    its end; moving backwards if it starts above. *)
Lemma memcpy_wp :
  0 ≤ len → dst ≤ src ∨ src + len ≤ dst → wp (memcpy dst src len) (λ r m', r = dst ∧ moved m m' dst src 0 len) m.
Proof.
  intros Hl Hdis. unfold memcpy. apply wp_bind. apply (wp_mono _ (λ _ m', moved m m' dst src 0 len)); [intros ? ? H; by apply wp_ret|].
  unfold words_aligned. destruct (_ && _) eqn:Ew.
  - apply andb_prop in Ew as [_ Ew%Z.eqb_eq]. apply (wp_for_up (λ i m', moved m m' dst src 0 (4 * i))); [apply moved_none| |].
    + intros j m' Hj Hm. apply wp_bind. apply (ldw_wp _ m' 0 (4 * j)); [done|lia..|]. intros a b c d Ha Hb Hc He.
      apply (stw_up m' 0 (4 * j)); try done; try lia. intros m''. by replace (4 * (j + 1)) with (4 * j + 4) by lia.
    + intros m' H. by replace len with (4 * (0 + Z.of_nat (Z.to_nat (len / 4)))) by lia.
  - apply (wp_for_up (λ i m', moved m m' dst src 0 i)); [apply moved_none| |intros m' H; by replace len with (0 + Z.of_nat (Z.to_nat len)) by lia].
    intros j m' Hj Hm. destruct (src_read j) as [c Hc]; [lia|]. eapply wp_ld; [by rewrite (moved_read _ _ _ _ Hm) by lia|].
    apply wp_st'; [destruct Hm as [-> _]; lia|]. apply moved_up; [done|lia..|done].
Qed.

Lemma memmove_wp : 0 ≤ len → wp (memmove dst src len) (λ r m', r = dst ∧ moved m m' dst src 0 len) m.
Proof.
  intros Hl. unfold memmove. destruct (Z.ltb_spec dst src); [apply memcpy_wp; lia|].
  apply wp_bind. apply (wp_mono _ (λ _ m', moved m m' dst src 0 len)); [intros ? ? Hm; by apply wp_ret|].
  unfold words_aligned. destruct (_ && _) eqn:Ew.
  - apply andb_prop in Ew as [_ Ew%Z.eqb_eq]. apply (wp_for_down (λ i m', moved m m' dst src (4 * i) len)); [|intros i m' Hi Hm|done].
    + replace (4 * Z.of_nat (Z.to_nat (len / 4))) with len by lia. apply moved_none.
    + apply wp_bind. apply (ldw_wp _ m' (4 * i) len); [done|lia..|]. intros a b c d Ha Hb Hc He.
      apply (stw_down m' len (4 * (i - 1))); try done; try lia. by replace (4 * (i - 1) + 4) with (4 * i) by lia.
  - apply (wp_for_down (λ i m', moved m m' dst src i len)); [replace (Z.of_nat (Z.to_nat len)) with len by lia; apply moved_none| |done].
    intros i m' Hi Hm. destruct (src_read (i - 1)) as [c Hc]; [lia|]. eapply wp_ld; [by rewrite (moved_read _ _ _ _ Hm) by lia|].
    apply wp_st'; [destruct Hm as [-> _]; lia|]. apply moved_down; [by replace (i - 1 + 1) with i by lia|lia..|done].
Qed.
End move.

(** A move of bytes, as the operation on lists. *)
Lemma moved_block m m' (d s n : nat) :
  (d + n ≤ length m)%nat → (s + n ≤ length m)%nat → moved m m' (Z.of_nat d) (Z.of_nat s) 0 (Z.of_nat n) → blk_move m d m s n = Some m'.
Proof.
  intros Hd Hs [L H]. rewrite blk_move_Some by done. f_equal. apply list_eq. intros a.
  specialize (H (Z.of_nat a)). rewrite zlookup_nat in H. rewrite H. clear H.
  destruct (decide (a < d)%nat).
  - rewrite lookup_app_l, lookup_take_lt by (rewrite ?length_take; lia). zdecide. by rewrite zlookup_nat.
  - rewrite lookup_app_r by (rewrite length_take; lia). rewrite length_take, Nat.min_l by lia. destruct (decide (a < d + n)%nat).
    + rewrite lookup_app_l, lookup_take_lt, lookup_drop by (rewrite ?length_take, ?length_drop; lia). zdecide.
      replace (Z.of_nat a - Z.of_nat d + Z.of_nat s) with (Z.of_nat (s + (a - d))) by lia. by rewrite zlookup_nat.
    + rewrite lookup_app_r by (rewrite length_take, length_drop; lia). rewrite length_take, length_drop, Nat.min_l, lookup_drop by lia.
      zdecide. rewrite zlookup_nat. f_equal. lia.
Qed.

(** [memmove] copies a block exactly, whatever the overlap of source and
    destination and whether it goes by words or by bytes: it returns the
    destination, and memory afterwards is what the contract the other models use
    for it says.  The same holds for [memcpy] when the destination starts below the
    source or past its end. *)
Theorem memmove_exact (m : mem) (d s n : nat) :
  (d + n ≤ length m)%nat → (s + n ≤ length m)%nat →
  ∃ m', blk_move m d m s n = Some m' ∧ memmove (Z.of_nat d) (Z.of_nat s) (Z.of_nat n) m = Ret (Z.of_nat d) m' ∧
    ((d ≤ s)%nat ∨ (s + n ≤ d)%nat → memcpy (Z.of_nat d) (Z.of_nat s) (Z.of_nat n) m = Ret (Z.of_nat d) m').
Proof.
  intros Hd Hs.
  destruct (wp_inv _ _ _ (memmove_wp m (Z.of_nat d) (Z.of_nat s) (Z.of_nat n) ltac:(lia) ltac:(lia) ltac:(lia) ltac:(lia) ltac:(lia))) as (? & m' & E & -> & Hm).
  exists m'. apply moved_block in Hm; [|lia..]. split_and!; [done..|]. intros Ho.
  destruct (wp_inv _ _ _ (memcpy_wp m (Z.of_nat d) (Z.of_nat s) (Z.of_nat n) ltac:(lia) ltac:(lia) ltac:(lia) ltac:(lia) ltac:(lia) ltac:(lia))) as (? & m2 & E2 & -> & Hm2).
  apply moved_block in Hm2; [|lia..]. rewrite E2. congruence.
Qed.

Lemma memmove_exact_witness :
  memmove 4 0 8 [1; 2; 3; 4; 5; 6; 7; 8; 9; 10; 11; 12; 13] = Ret 4 [1; 2; 3; 4; 1; 2; 3; 4; 5; 6; 7; 8; 13].
Proof.
  destruct (memmove_exact [1; 2; 3; 4; 5; 6; 7; 8; 9; 10; 11; 12; 13] 4 0 8) as (m' & [= <-] & H & _); [simpl; lia|simpl; lia|exact H].
Defined.

(** ** Strings *)

(** The characters [l] followed by a terminator stand at [p]. *)
Fixpoint cstr (m : mem) (p : Z) (l : list Z) : Prop :=
  match l with
  | [] => zlookup m p = Some 0
  | c :: l => zlookup m p = Some c ∧ 0 < c < 256 ∧ cstr m (p + 1) l
  end.

Lemma cstr_bounds m p l : cstr m p l → 0 ≤ p ∧ p + Z.of_nat (length l) < Z.of_nat (length m).
Proof.
  revert p. induction l as [|c l IH]; intros p; simpl.
  - intros H%zlookup_Some_lt. lia.
  - intros (H%zlookup_Some_lt & _ & Hl%IH). lia.
Qed.

Lemma cstr_ext m m' p l :
  (∀ a, p ≤ a ≤ p + Z.of_nat (length l) → zlookup m' a = zlookup m a) → cstr m p l → cstr m' p l.
Proof.
  revert p. induction l as [|c l IH]; intros p E; simpl.
  - by rewrite E by (simpl; lia).
  - intros (H & Hc & Hl). split_and!; [by rewrite E by (simpl; lia)|lia..|]. apply IH; [|done]. intros a Ha. apply E. simpl. lia.
Qed.

Lemma cstr_shift m m' p q l :
  (∀ i, 0 ≤ i ≤ Z.of_nat (length l) → zlookup m' (q + i) = zlookup m (p + i)) → cstr m p l → cstr m' q l.
Proof.
  revert p q. induction l as [|c l IH]; intros p q E; simpl; pose proof (E 0) as E0; rewrite !Z.add_0_r in E0.
  - by rewrite E0 by (simpl; lia).
  - intros (H & Hc & Hl). split_and!; [by rewrite E0 by (simpl; lia)|lia..|]. apply (IH (p + 1)); [|done].
    intros i Hi. rewrite <- !Z.add_assoc. apply E. simpl. lia.
Qed.

Lemma cstr_lookup m p l i c : cstr m p l → l !! i = Some c → zlookup m (p + Z.of_nat i) = Some c ∧ 0 < c < 256.
Proof.
  revert p i. induction l as [|x l IH]; intros p [|i]; simpl; [done..| |].
  - intros (H & Hx & _) [= ->]. by rewrite Z.add_0_r.
  - intros (_ & _ & Hl) Hi. replace (p + Z.of_nat (S i)) with (p + 1 + Z.of_nat i) by lia. by apply IH.
Qed.

Lemma cstr_end m p l : cstr m p l → zlookup m (p + Z.of_nat (length l)) = Some 0.
Proof.
  revert p. induction l as [|x l IH]; intros p; simpl; [by rewrite Z.add_0_r|].
  intros (_ & _ & Hl). replace (p + Z.of_nat (S (length l))) with (p + 1 + Z.of_nat (length l)) by lia. by apply IH.
Qed.

Lemma cstr_range m p l : cstr m p l → Forall (λ c, 0 < c < 256) l.
Proof. revert p. induction l as [|c l IH]; intros p; simpl; [done|]. intros (_ & Hc & Hl). constructor; eauto. Qed.

(** Two strings one after the other, the first without its terminator. *)
Lemma cstr_app m p l l' :
  cstr m p (l ++ l') ↔ (∀ i c, l !! i = Some c → zlookup m (p + Z.of_nat i) = Some c ∧ 0 < c < 256) ∧ cstr m (p + Z.of_nat (length l)) l'.
Proof.
  revert p. induction l as [|c l IH]; intros p; cbn [app length cstr]; [rewrite Z.add_0_r; naive_solver|].
  rewrite IH. replace (p + Z.of_nat (S (length l))) with (p + 1 + Z.of_nat (length l)) by lia. split.
  - intros (H & Hc & Hi & Hl). split; [|done]. intros [|i] x; simpl; [intros [= ->]; by rewrite Z.add_0_r|].
    intros Hx. replace (p + Z.of_nat (S i)) with (p + 1 + Z.of_nat i) by lia. by apply Hi.
  - intros [Hi Hl]. destruct (Hi 0%nat c eq_refl) as [H Hc]. rewrite Z.add_0_r in H. split_and!; [done|lia..| |done].
    intros i x Hx. replace (p + 1 + Z.of_nat i) with (p + Z.of_nat (S i)) by lia. by apply (Hi (S i)).
Qed.

(** Reading a character in an equation. *)
Lemma ld_run {A} p c (k : Z → M mem A) m : zlookup m p = Some c → (ld p ≫= k) m = k c m.
Proof. intros H. apply bind_Ret. unfold ld. rewrite get_bind. by rewrite H. Qed.

Lemma strlen_run m s l n r : cstr m (s + r) l → (length l < n)%nat → strlen_loop n s r m = Ret (r + Z.of_nat (length l)) m.
Proof.
  revert n r. induction l as [|c l IH]; intros [|n] r Hc Hn; simpl in Hc, Hn |- *; try lia.
  - rewrite (ld_run _ _ _ _ Hc). by rewrite Z.add_0_r.
  - destruct Hc as (H & Hc & Hl). rewrite (ld_run _ _ _ _ H). rewrite (proj2 (Z.eqb_neq c 0)) by lia.
    rewrite IH; [f_equal; lia|by rewrite Z.add_assoc|lia].
Qed.

Lemma fuel_enough m p l : cstr m p l → (length l < fuel m)%nat.
Proof. intros H%cstr_bounds. unfold fuel. lia. Qed.

Lemma strlen_ok m s l : cstr m s l → strlen s m = Ret (Z.of_nat (length l)) m.
Proof. intros H. unfold strlen. rewrite get_bind. rewrite (strlen_run m s l); [done|by rewrite Z.add_0_r|by eapply fuel_enough]. Qed.

Lemma strchr_run m s l n ch :
  cstr m s l → (length l < n)%nat → strchr_loop n s ch m = Ret ((λ r, s + Z.of_nat r.1) <$> list_find (λ c, c = ch) (l ++ [0])) m.
Proof.
  revert s n. induction l as [|c l IH]; intros s [|n] Hc Hn; simpl in Hc, Hn |- *; try lia.
  - rewrite (ld_run _ _ _ _ Hc). change (negb (0 =? 0)) with false. cbv iota. destruct (Z.eqb_spec 0 ch), (decide (0 = ch)); try done. simpl. by rewrite Z.add_0_r.
  - destruct Hc as (H & Hc & Hl). rewrite (ld_run _ _ _ _ H). rewrite (proj2 (Z.eqb_neq c 0)) by lia. simpl.
    destruct (Z.eqb_spec c ch), (decide (c = ch)); try done; [simpl; by rewrite Z.add_0_r|].
    rewrite (IH _ _ Hl) by lia. f_equal. destruct (list_find _ _) as [[i x]|]; simpl; [f_equal; lia|done].
Qed.

Lemma strchr_ok m s l ch :
  cstr m s l → strchr s ch m = Ret ((λ r, s + Z.of_nat r.1) <$> list_find (λ c, c = ch mod 256) (l ++ [0])) m.
Proof. intros H. unfold strchr. rewrite get_bind. apply strchr_run; [done|by eapply fuel_enough]. Qed.

(** The last position of a character. *)
Definition list_rfind (ch : Z) (l : list Z) : option nat := (λ r, (length l - 1 - r.1)%nat) <$> list_find (λ c, c = ch) (reverse l).

Lemma list_rfind_snoc ch l x : list_rfind ch (l ++ [x]) = if decide (x = ch) then Some (length l) else list_rfind ch l.
Proof.
  unfold list_rfind. rewrite reverse_snoc, length_app. simpl. destruct (decide (x = ch)); simpl; [f_equal; lia|].
  destruct (list_find _ _) as [[i y]|]; simpl; [f_equal; lia|done].
Qed.

Lemma strrchr_run m s ch l :
  (∀ i c, l !! i = Some c → zlookup m (s + Z.of_nat i) = Some c) → strrchr_loop (length l) s ch m = Ret ((λ i : nat, s + Z.of_nat i) <$> list_rfind ch l) m.
Proof.
  induction l as [|x l IH] using rev_ind; intros H; [done|]. rewrite length_app, Nat.add_1_r, list_rfind_snoc. cbn [strrchr_loop].
  rewrite (ld_run _ x) by (apply (H (length l)); by apply list_lookup_middle).
  destruct (Z.eqb_spec x ch), (decide (x = ch)); try done. apply IH. intros i c Hi. apply H. by apply lookup_app_l_Some.
Qed.

Lemma strrchr_ok m s l ch :
  cstr m s l → strrchr s ch m = Ret ((λ i : nat, s + Z.of_nat i) <$> list_rfind (ch mod 256) (l ++ [0])) m.
Proof.
  intros H. unfold strrchr. rewrite (bind_Ret _ _ _ _ _ (strlen_ok m s l H)).
  replace (Z.to_nat (Z.of_nat (length l) + 1)) with (length (l ++ [0])) by (rewrite length_app; simpl; lia). apply strrchr_run.
  intros i c [Hi|[Hi Hc]]%lookup_app_Some; [by eapply cstr_lookup|].
  destruct (i - length l)%nat eqn:E; simpl in Hc; [|done]. injection Hc as <-. replace i with (length l) by lia. by apply cstr_end.
Qed.

(** Lexicographic order of the characters as unsigned numbers. *)
Fixpoint lex (a b : list Z) : Z :=
  match a, b with
  | [], [] => 0
  | [], _ :: _ => -1
  | _ :: _, [] => 1
  | x :: a, y :: b => if x <? y then -1 else if y <? x then 1 else lex a b
  end.

Lemma strcmp_run m p q a b n i :
  cstr m (p + i) a → cstr m (q + i) b → (length a < n)%nat →
  ∃ j x y, strcmp_loop n p q i m = Ret j m ∧ zlookup m (p + j) = Some x ∧ zlookup m (q + j) = Some y ∧
    lex a b = (if x >? y then 1 else if x =? y then 0 else -1).
Proof.
  revert b n i. induction a as [|x a IH]; intros b [|n] i Ha Hb Hn; simpl in Ha, Hn; cbn [strcmp_loop]; try lia.
  - rewrite (ld_run _ _ _ _ Ha). exists i, 0. destruct b as [|y b]; simpl in Hb; [by exists 0|].
    destruct Hb as (Hb & Hy & _). exists y. split_and!; [done..|]. rewrite Z.gtb_ltb. cbn [lex]. by zdecide.
  - destruct Ha as (Ha & Hx & Ha'). rewrite (ld_run _ _ _ _ Ha), (proj2 (Z.eqb_neq x 0)) by lia. cbn [negb].
    destruct b as [|y b]; simpl in Hb.
    + rewrite bind_assoc, (ld_run _ _ _ _ Hb). exists i, x, 0. rewrite Z.gtb_ltb. zdecide. split_and!; [|done..].
      done.
    + destruct Hb as (Hb & Hy & Hb'). rewrite bind_assoc, (ld_run _ _ _ _ Hb). erewrite bind_Ret by reflexivity. destruct (Z.eqb_spec x y) as [->|].
      * rewrite <- Z.add_assoc in Ha', Hb'. destruct (IH b n (i + 1) Ha' Hb' ltac:(lia)) as (j & x & z & E). exists j, x, z. simpl. by rewrite Z.ltb_irrefl.
      * exists i, x, y. split_and!; [done..|]. simpl. rewrite Z.gtb_ltb. destruct (Z.ltb_spec x y); zdecide; done.
Qed.

Lemma strcmp_ok m p q a b : cstr m p a → cstr m q b → strcmp p q m = Ret (lex a b) m.
Proof.
  intros Ha Hb. unfold strcmp. rewrite get_bind.
  destruct (strcmp_run m p q a b (fuel m) 0) as (j & x & y & E & Hx & Hy & ->); [by rewrite Z.add_0_r..|by eapply fuel_enough|].
  by rewrite (bind_Ret _ _ _ _ _ E), (ld_run _ _ _ _ Hx), (ld_run _ _ _ _ Hy).
Qed.

(** ** Copying strings *)

Lemma strcpy_run m dest src l n :
  0 ≤ dest → dest + Z.of_nat (length l) < Z.of_nat (length m) → cstr m src l → dest ≤ src ∨ src + Z.of_nat (length l) < dest →
  (length l < n)%nat →
  wp (strcpy_loop n dest src 0) (λ i m', i = Z.of_nat (length l) ∧ moved m m' dest src 0 (Z.of_nat (length l))) m.
Proof.
  intros Hd Hl Hc Hdis Hn. pose proof (cstr_bounds _ _ _ Hc) as Hb.
  assert (∀ k i m', (i + k)%nat = length l → (k < n)%nat → moved m m' dest src 0 (Z.of_nat i) →
    wp (strcpy_loop n dest src (Z.of_nat i)) (λ i m', i = Z.of_nat (length l) ∧ moved m m' dest src 0 (Z.of_nat (length l))) m') as G;
    [|apply (G (length l) 0%nat m); [lia|lia|apply moved_none]].
  clear Hn. induction n as [|n IH]; intros k i m' Hi Hn Hm; [lia|]. cbn [strcpy_loop].
  assert (zlookup m' (src + Z.of_nat i) = zlookup m (src + Z.of_nat i)) as Hr by (apply (moved_read m dest src m' 0 (Z.of_nat i)); [done|lia]).
  destruct k as [|k].
  - replace i with (length l) in * by lia. eapply wp_ld; [by rewrite Hr; apply cstr_end|]. by apply wp_ret.
  - destruct (lookup_lt_is_Some_2 l i) as [c Hx]; [lia|]. destruct (cstr_lookup _ _ _ _ _ Hc Hx) as [Hz Hr0].
    eapply wp_ld; [by rewrite Hr|]. rewrite (proj2 (Z.eqb_neq c 0)) by lia. pose proof Hm as [L _]. apply wp_st; [lia|].
    replace (Z.of_nat i + 1) with (Z.of_nat (S i)) by lia. apply (IH k); [lia..|].
    replace (Z.of_nat (S i)) with (Z.of_nat i + 1) by lia. by apply (moved_up m dest src (Z.of_nat (length l))); try lia.
Qed.

(** The copy is the string, its terminator included. *)
Lemma strcpy_wp m dest src l :
  0 ≤ dest → dest + Z.of_nat (length l) < Z.of_nat (length m) → cstr m src l → dest ≤ src ∨ src + Z.of_nat (length l) < dest →
  wp (strcpy dest src) (λ r m', r = dest ∧ moved m m' dest src 0 (Z.of_nat (length l) + 1)) m.
Proof.
  intros Hd Hl Hc Hdis. pose proof (cstr_bounds _ _ _ Hc) as Hb. unfold strcpy. apply wp_get, wp_bind.
  eapply wp_mono; [|apply (strcpy_run m dest src l); try done; by eapply fuel_enough]. intros i m' [-> Hm]. pose proof Hm as [L _].
  apply wp_st; [lia|]. apply wp_ret. split; [done|]. apply (moved_up m dest src (Z.of_nat (length l) + 1)); try done; try lia. by apply cstr_end.
Qed.

(** Memory outside a block is as it was. *)
Definition same_outside (m m' : mem) (lo hi : Z) : Prop :=
  length m' = length m ∧ ∀ a, ¬ lo ≤ a < hi → zlookup m' a = zlookup m a.

Lemma moved_outside m m' dst src n : moved m m' dst src 0 n → same_outside m m' dst (dst + n).
Proof.
  intros [L H]. split; [done|]. intros a Ha. rewrite H.
  destruct (Z.leb_spec (dst + 0) a), (Z.ltb_spec a (dst + n)); cbn [andb]; lia || done.
Qed.

Lemma moved_cstr m m' dest src l : cstr m src l → moved m m' dest src 0 (Z.of_nat (length l) + 1) → cstr m' dest l.
Proof. intros Hc [_ H]. apply (cstr_shift m m' src dest); [|done]. intros i Hi. rewrite H. zdecide. f_equal. lia. Qed.

(** The string routines compute what their names say, on strings that stand
    anywhere in memory: [strlen] the length; [strchr] the first and [strrchr] the
    last position of a character, the terminator counted; [strcmp] the
    lexicographic order of the characters as unsigned numbers; [strcpy] a copy, also
    when the destination overlaps the source from below; [strcat] the
    concatenation.  Nothing else is written. *)
Theorem string_routines (m : mem) (p q ch : Z) (a b : list Z) :
  cstr m p a → cstr m q b → 
  strlen p m = Ret (Z.of_nat (length a)) m ∧
  strchr p ch m = Ret ((λ r, p + Z.of_nat r.1) <$> list_find (λ c, c = ch mod 256) (a ++ [0])) m ∧
  strrchr p ch m = Ret ((λ i : nat, p + Z.of_nat i) <$> list_rfind (ch mod 256) (a ++ [0])) m ∧
  strcmp p q m = Ret (lex a b) m ∧
  (∀ d, 0 ≤ d → d + Z.of_nat (length b) < Z.of_nat (length m) → d ≤ q ∨ q + Z.of_nat (length b) < d →
     ∃ m', strcpy d q m = Ret d m' ∧ cstr m' d b ∧ same_outside m m' d (d + Z.of_nat (length b) + 1)) ∧
  (let e := p + Z.of_nat (length a) in
   e + Z.of_nat (length b) < Z.of_nat (length m) → e < q ∨ q + Z.of_nat (length b) < p →
     ∃ m', strcat p q m = Ret p m' ∧ cstr m' p (a ++ b) ∧ same_outside m m' e (e + Z.of_nat (length b) + 1)).
Proof.
  intros Ha Hb. pose proof (cstr_bounds _ _ _ Ha) as Ba. pose proof (cstr_bounds _ _ _ Hb) as Bb.
  split_and!; [by apply strlen_ok|by apply strchr_ok|by apply strrchr_ok|by apply strcmp_ok| |].
  - intros d Hd Hl Hdis. destruct (wp_inv _ _ _ (strcpy_wp m d q b Hd Hl Hb Hdis)) as (? & m' & E & -> & Hm).
    exists m'. split_and!; [done|by eapply moved_cstr|]. rewrite <- Z.add_assoc. by eapply moved_outside.
  - intros e Hl Hdis. destruct (wp_inv _ _ _ (strcpy_wp m e q b ltac:(lia) Hl Hb ltac:(lia))) as (? & m' & E & -> & Hm).
    exists m'. unfold strcat. rewrite (bind_Ret _ _ _ _ _ (strlen_ok m p a Ha)). fold e. rewrite (bind_Ret _ _ _ _ _ E).
    pose proof (moved_outside _ _ _ _ _ Hm) as O. rewrite Z.add_assoc in O. split_and!; [done| |done]. apply cstr_app. split; [|by eapply moved_cstr].
    intros i c Hi. pose proof (lookup_lt_Some _ _ _ Hi). rewrite (proj2 O) by lia. by eapply cstr_lookup.
Qed.

Lemma string_routines_witness :
  strcmp 0 3 [97; 98; 0; 97; 99; 0; 1; 1; 1] = (λ m, Ret (-1) m : outcome mem Z) [97; 98; 0; 97; 99; 0; 1; 1; 1].
Proof.
  destruct (string_routines [97; 98; 0; 97; 99; 0; 1; 1; 1] 0 3 0 [97; 98] [97; 99]) as (_ & _ & _ & H & _); [by repeat split|by repeat split|exact H].
Defined.

(** ** Splitting a string into words *)

(** The words of a string: the longest parts without a separator. *)
Section words.
Context (seps : list Z).

Definition issep (c : Z) : bool := bool_decide (c ∈ seps).
Definition flush (cur : list Z) (r : list (list Z)) : list (list Z) := if cur is [] then r else cur :: r.
Fixpoint words_from (cur l : list Z) : list (list Z) :=
  match l with
  | [] => flush cur []
  | c :: l => if issep c then flush cur (words_from [] l) else words_from (cur ++ [c]) l
  end.
Definition words (l : list Z) : list (list Z) := words_from [] l.

(** The length of the part of [l] that [tok_scan] passes over. *)
Fixpoint run (b : bool) (l : list Z) : nat :=
  match l with
  | [] => 0
  | c :: l => if Bool.eqb (issep c) b then S (run b l) else 0
  end.

Lemma run_le b l : (run b l ≤ length l)%nat.
Proof. induction l as [|c l IH]; simpl; [done|]. destruct (Bool.eqb _ _); lia. Qed.

Lemma words_skip l : words (drop (run true l) l) = words l.
Proof.
  unfold words. induction l as [|c l IH]; [done|]. cbn [run]. destruct (issep c) eqn:E; cbn [Bool.eqb drop]; [|done].
  rewrite IH. cbn [words_from]. by rewrite E.
Qed.

Lemma words_take cur l :
  words_from cur l = match drop (run false l) l with [] => flush (cur ++ take (run false l) l) [] | _ :: r => flush (cur ++ take (run false l) l) (words r) end.
Proof.
  revert cur. induction l as [|c l IH]; intros cur; cbn [run words_from]; [by rewrite app_nil_r|].
  destruct (issep c) eqn:E; cbn [Bool.eqb drop take]; [by rewrite app_nil_r|]. rewrite IH. by rewrite <- !app_assoc.
Qed.

(** After the separators: nothing, or a word. *)
Lemma run_word l c r : drop (run true l) l = c :: r → (0 < run false (c :: r))%nat.
Proof.
  induction l as [|x l IH]; cbn [run]; [done|]. destruct (issep x) eqn:E; cbn [Bool.eqb drop]; [done|].
  intros [= <- <-]. cbn [run]. rewrite E. simpl. lia.
Qed.

Context (m : mem) (q : Z).
Hypothesis Hq : cstr m q seps.

Lemma strchr_sep c : 0 < c < 256 → ∃ r, strchr q c m = Ret r m ∧ bool_decide (is_Some r) = issep c.
Proof.
  intros Hc. rewrite (strchr_ok m q seps c Hq), Z.mod_small by lia. eexists. split; [done|]. unfold issep. apply bool_decide_ext.
  rewrite fmap_is_Some. split.
  - intros [[i x] (Hi & -> & _)%list_find_Some]. apply list_elem_of_lookup_2, elem_of_app in Hi as [?|H%list_elem_of_singleton]; [done|lia].
  - intros H. apply list_find_elem_of with c; [|done]. apply elem_of_app. by left.
Qed.

Lemma tok_scan_run n b p l : cstr m p l → (length l < n)%nat → tok_scan n b p q m = Ret (p + Z.of_nat (run b l)) m.
Proof.
  revert n p. induction l as [|c l IH]; intros [|n] p Hc Hn; simpl in Hc, Hn; cbn [tok_scan run]; try lia.
  - rewrite (ld_run _ _ _ _ Hc). by rewrite Z.add_0_r.
  - destruct Hc as (H & Hc & Hl). rewrite (ld_run _ _ _ _ H), (proj2 (Z.eqb_neq c 0)) by lia.
    destruct (strchr_sep c Hc) as (r & E & Hr). rewrite (bind_Ret _ _ _ _ _ E), Hr. destruct (Bool.eqb _ _); [|by rewrite Z.add_0_r].
    rewrite (IH _ _ Hl) by lia. f_equal. lia.
Qed.
End words.
#[global] Arguments run _ _ !_ /.

Lemma cstr_drop m p l k : (k ≤ length l)%nat → cstr m p l → cstr m (p + Z.of_nat k) (drop k l).
Proof.
  intros Hk. rewrite <- (take_drop k l) at 1. rewrite cstr_app. intros [_ H]. by rewrite length_take, Nat.min_l in H by lia.
Qed.

Lemma cstr_head m p l : cstr m p l → zlookup m p = Some (default 0 (head l)).
Proof. destruct l; simpl; naive_solver. Qed.

(** Cutting a string in two at one of its characters. *)
Lemma cstr_cut m p w c r :
  cstr m p (w ++ c :: r) → cstr (<[Z.to_nat (p + Z.of_nat (length w)) := 0]> m) p w ∧
    cstr (<[Z.to_nat (p + Z.of_nat (length w)) := 0]> m) (p + Z.of_nat (length w) + 1) r.
Proof.
  intros H. pose proof (cstr_bounds _ _ _ H) as B. rewrite length_app in B. simpl in B. apply cstr_app in H as [Hw (Hc & Hc' & Hr)]. split.
  - rewrite <- (app_nil_r w) at 2. apply cstr_app. split.
    + intros i x Hi. pose proof (lookup_lt_Some _ _ _ Hi). rewrite zlookup_insert by lia. zdecide. by apply Hw.
    + simpl. rewrite zlookup_insert by lia. by rewrite Z.eqb_refl.
  - eapply cstr_ext; [|done]. intros a Ha. rewrite zlookup_insert by lia. by zdecide.
Qed.

(** Several calls of [strtok_r]: the first on a string, the others to go on. *)
Fixpoint strtok_more (n : nat) (seps : Z) (context : option Z) : M mem (list (option Z)) :=
  match n with
  | O => mret []
  | S n => r ← strtok_r None seps context; rs ← strtok_more n seps r.2; mret (r.1 :: rs)
  end.
Definition strtok_all (n : nat) (s seps : Z) (context : option Z) : M mem (list (option Z)) :=
  r ← strtok_r (Some s) seps context; rs ← strtok_more n seps r.2; mret (r.1 :: rs).

Lemma strtok_more_end n seps m : strtok_more n seps None m = Ret (replicate n None) m.
Proof. induction n as [|n IH]; [done|]. cbn [strtok_more]. erewrite bind_Ret by reflexivity. by rewrite (bind_Ret _ _ _ _ _ IH). Qed.

Lemma same_outside_refl m lo hi : same_outside m m lo hi.
Proof. by split. Qed.

(** One call: nothing but separators is left, or a word is cut off. *)
Lemma strtok_step m q seps h l :
  cstr m q seps → cstr m h l →
  match words seps l with
  | [] => strtok_r None q (Some h) m = Ret (None, None) m
  | w :: ws => ∃ p m' ctx, strtok_r None q (Some h) m = Ret (Some p, ctx) m' ∧ h ≤ p ∧ cstr m' p w ∧
      match ctx with
      | None => m' = m ∧ ws = []
      | Some h' => ∃ l', cstr m' h' l' ∧ words seps l' = ws ∧ p + Z.of_nat (length w) < h' ∧ h' + Z.of_nat (length l') = h + Z.of_nat (length l) ∧
          same_outside m m' (h' - 1) h'
      end
  end.
Proof.
  intros Hq Hc. rewrite <- (words_skip seps l). pose proof (run_le seps true l) as Hk. set (k := run seps true l) in *.
  pose proof (cstr_drop _ _ _ k Hk Hc) as Hd. pose proof (fuel_enough _ _ _ Hc) as Hf. unfold strtok_r. rewrite get_bind.
  rewrite (bind_Ret _ _ _ _ _ (tok_scan_run seps m q Hq _ true h l Hc Hf)). fold k. rewrite (ld_run _ _ _ _ (cstr_head _ _ _ Hd)).
  assert (length (drop k l) = (length l - k)%nat) as Ll by apply length_drop. pose proof (run_word seps l) as Hw. fold k in Hw.
  destruct (drop k l) as [|c r] eqn:El; [done|]. specialize (Hw c r eq_refl). pose proof Hd as (_ & Hc0 & _).
  change (default 0 (head (c :: r))) with c. rewrite (proj2 (Z.eqb_neq c 0)) by lia. unfold words. rewrite words_take.
  set (t := c :: r) in *. pose proof (run_le seps false t) as Hj. set (j := run seps false t) in *.
  rewrite (bind_Ret _ _ _ _ _ (tok_scan_run seps m q Hq (fuel m) false _ t Hd ltac:(lia))). fold j.
  rewrite (ld_run _ _ _ _ (cstr_head _ _ _ (cstr_drop _ _ _ j Hj Hd))). assert (take j t ≠ []) as Hne by (destruct j; [lia|done]).
  assert (length (take j t) = j) as Lw by (rewrite length_take; lia). pose proof (take_drop j t) as Et. rewrite app_nil_l.
  destruct (drop j t) as [|x u] eqn:Eu.
  - destruct (take j t) as [|y w] eqn:Ew; [done|]. cbn [flush]. exists (h + Z.of_nat k), m, None. split_and!; [done|lia| |done..].
    rewrite app_nil_r in Et. by rewrite Et.
  - rewrite <- Et in Hd. destruct (cstr_cut _ _ _ _ _ Hd) as [C1 C2]. pose proof (cstr_bounds _ _ _ Hd) as B. rewrite Et in B. rewrite Lw in C1, C2.
    apply cstr_app in Hd as [_ (_ & Hx & _)]. change (default 0 (head (x :: u))) with x. rewrite (proj2 (Z.eqb_neq x 0)) by lia.
    assert (st (h + Z.of_nat k + Z.of_nat j) 0 m = Ret tt (<[Z.to_nat (h + Z.of_nat k + Z.of_nat j) := 0]> m)) as Est
      by (unfold st; rewrite get_bind; rewrite zupd_Some by lia; done).
    rewrite (bind_Ret _ _ _ _ _ Est). set (w := take j t) in *. destruct w as [|y w'] eqn:Ew; [done|]. rewrite <- Ew in *. cbn [flush]. rewrite Ew.
    cbn [flush]. rewrite <- Ew. eexists _, _, _. split_and!; [done|lia|done|]. cbv iota. exists u.
    assert (length t = (length w + S (length u))%nat) as Lt by (rewrite <- Et, length_app; done).
    split_and!; [done|done|lia|lia|]. split; [apply length_insert|]. intros a Ha. rewrite zlookup_insert by lia. by zdecide.
Qed.

Lemma strtok_more_run m q seps k l h :
  cstr m q seps → cstr m h l → q + Z.of_nat (length seps) < h ∨ h + Z.of_nat (length l) < q →
  ∃ ps m', strtok_more (length (words seps l) + k) q (Some h) m = Ret ((Some <$> ps) ++ replicate k None) m' ∧
    Forall2 (cstr m') ps (words seps l) ∧ same_outside m m' h (h + Z.of_nat (length l)).
Proof.
  remember (words seps l) as ws eqn:Ews. revert m l h Ews. induction ws as [|w ws IH]; intros m l h Ews Hq Hc Hdis.
  - pose proof (strtok_step m q seps h l Hq Hc) as H. rewrite <- Ews in H. exists [], m. split_and!; [|done|apply same_outside_refl].
    destruct k as [|k]; [done|]. cbn [length Nat.add strtok_more]. rewrite (bind_Ret _ _ _ _ _ H). cbn [fst snd].
    by rewrite (bind_Ret _ _ _ _ _ (strtok_more_end k q m)).
  - pose proof (strtok_step m q seps h l Hq Hc) as H. rewrite <- Ews in H. destruct H as (p & m1 & ctx & E & Hp & Hw & H).
    cbn [length Nat.add strtok_more]. rewrite (bind_Ret _ _ _ _ _ E). cbn [fst snd]. destruct ctx as [h'|].
    + destruct H as (l' & Hl' & Ew & Hlt & Hend & O1). pose proof (cstr_bounds _ _ _ Hw).
      destruct (IH m1 l' h') as (ps & m' & E' & F & O2); [done| |done|lia|].
      { eapply cstr_ext; [|done]. intros a Ha. apply O1. lia. }
      rewrite (bind_Ret _ _ _ _ _ E'). exists (p :: ps), m'. split_and!; [done| |].
      * constructor; [|done]. eapply cstr_ext; [|done]. intros a Ha. apply O2. lia.
      * destruct O1 as [L1 O1], O2 as [L2 O2]. split; [congruence|]. intros a Ha. rewrite O2, O1 by lia. done.
    + destruct H as [-> ->]. exists [p], m. split_and!; [|by repeat constructor|apply same_outside_refl].
      by rewrite (bind_Ret _ _ _ _ _ (strtok_more_end k q m)).
Qed.

(** Calling [strtok_r] on a string and then again and again yields the words of
    the string in order, each a string of its own at the pointer returned, and
    after the last a null pointer on every further call; only the string itself is
    written to. *)
Theorem strtok_words (m : mem) (s q : Z) (l seps : list Z) (ctx : option Z) (k : nat) :
  cstr m s l → cstr m q seps → q + Z.of_nat (length seps) < s ∨ s + Z.of_nat (length l) < q →
  ∃ ps m', strtok_all (length (words seps l) + k) s q ctx m = Ret ((Some <$> ps) ++ replicate (S k) None) m' ∧
    Forall2 (cstr m') ps (words seps l) ∧ same_outside m m' s (s + Z.of_nat (length l)).
Proof.
  intros Hc Hq Hdis. destruct (strtok_more_run m q seps (S k) l s Hq Hc Hdis) as (ps & m' & E & H). exists ps, m'. split; [|done].
  rewrite <- E. by rewrite Nat.add_succ_r.
Qed.

(** The string " ab  c" with the separator " ". *)
Lemma strtok_words_witness :
  ∃ ps m', strtok_all 3 2 0 None [32; 0; 32; 97; 98; 32; 32; 99; 0] = Ret ((Some <$> ps) ++ [None; None]) m' ∧
    Forall2 (cstr m') ps [[97; 98]; [99]] ∧ same_outside [32; 0; 32; 97; 98; 32; 32; 99; 0] m' 2 8.
Proof.
  apply (strtok_words [32; 0; 32; 97; 98; 32; 32; 99; 0] 2 0 [32; 97; 98; 32; 32; 99] [32] None 1); [by repeat split..|left; simpl; lia].
Defined.

(** ** Numbers *)

Definition isdigit (c : Z) : Prop := 48 ≤ c ≤ 57.
(** The number a list of digits stands for. *)
Definition dval (ds : list Z) : Z := foldl (λ v c, v * 10 + (c - 48)) 0 ds.
Definition ten_digits : list Z := [48; 49; 50; 51; 52; 53; 54; 55; 56; 57].

Lemma strchr_digit m dg c :
  cstr m dg ten_digits → 0 < c < 256 → ∃ r, strchr dg c m = Ret r m ∧ (isdigit c → r = Some (dg + (c - 48))) ∧ (¬ isdigit c → r = None).
Proof.
  intros Hd Hc. rewrite (strchr_ok m dg _ c Hd), Z.mod_small by lia. eexists. split; [done|]. unfold isdigit. split.
  - intros Hi. assert (∃ k, c = 48 + Z.of_nat k ∧ (k < 10)%nat) as (k & -> & Hk) by (exists (Z.to_nat (c - 48)); lia).
    replace (48 + Z.of_nat k - 48) with (Z.of_nat k) by lia. do 10 (destruct k as [|k]; [done|]). lia.
  - intros Hn. apply fmap_None, list_find_None. repeat constructor; lia.
Qed.

Lemma atoi_digits_run m dg ds rest n s v :
  cstr m dg ten_digits → cstr m s (ds ++ rest) → Forall isdigit ds → (∀ c, head rest = Some c → ¬ isdigit c) → (length ds < n)%nat →
  atoi_digits n dg s (u32 v) m = Ret (u32 (foldl (λ v c, v * 10 + (c - 48)) v ds)) m.
Proof.
  intros Hd. revert n s v. induction ds as [|c ds IH]; intros [|n] s v Hc Hf Hr Hn; simpl in Hn; cbn [atoi_digits]; try lia.
  - rewrite (ld_run _ _ _ _ (cstr_head _ _ _ Hc)). destruct rest as [|x rest]; [done|]. destruct Hc as (_ & Hx & _).
    change (default 0 (head ([] ++ x :: rest))) with x. rewrite (proj2 (Z.eqb_neq x 0)) by lia.
    destruct (strchr_digit m dg x Hd Hx) as (r & E & _ & Hnone). rewrite (bind_Ret _ _ _ _ _ E). by rewrite Hnone by (by apply Hr).
  - destruct Hc as (H & Hx & Hc). rewrite (ld_run _ _ _ _ H), (proj2 (Z.eqb_neq c 0)) by lia. inversion_clear Hf as [|?? Hi Hf'].
    destruct (strchr_digit m dg c Hd Hx) as (r & E & Hsome & _). rewrite (bind_Ret _ _ _ _ _ E), (Hsome Hi).
    replace (u32 (u32 v * 10 + (dg + (c - 48) - dg))) with (u32 (v * 10 + (c - 48))) by (unfold u32; lia). apply IH; try done. lia.
Qed.

(** A decimal number with its sign, after white space and before anything that is
    not a digit. *)
Lemma atoi_ok m dg s sp (neg : bool) ds rest :
  cstr m dg ten_digits → cstr m s (sp ++ (if neg then [45] else []) ++ ds ++ rest) → Forall (λ c, c = 32 ∨ c = 9) sp → Forall isdigit ds → ds ≠ [] →
  (∀ c, head rest = Some c → ¬ isdigit c) →
  atoi dg s m = Ret (s32 (if neg then - dval ds else dval ds)) m.
Proof.
  intros Hd Hc Hsp Hds Hne Hr. unfold atoi. rewrite get_bind. pose proof (fuel_enough _ _ _ Hc) as Hf.
  assert (∀ n s, cstr m s (sp ++ (if neg then [45] else []) ++ ds ++ rest) → (length sp < n)%nat → atoi_space n s m = Ret (s + Z.of_nat (length sp)) m) as Hspace.
  { clear s Hc Hf. induction Hsp as [|c sp Hx Hsp IH]; intros [|n] s Hc Hn; simpl in Hn; cbn [atoi_space]; try lia.
    - rewrite (ld_run _ _ _ _ (cstr_head _ _ _ Hc)). rewrite Z.add_0_r. destruct neg; [done|]. destruct ds as [|x ds]; [done|].
      change (default 0 _) with x. inversion_clear Hds as [|?? Hi _]. unfold isdigit in Hi. by zdecide.
    - destruct Hc as (H & _ & Hc). rewrite (ld_run _ _ _ _ H). replace ((c =? 32) || (c =? 9)) with true by (destruct Hx as [-> | ->]; done).
      rewrite (IH _ _ Hc) by lia. simpl. f_equal. lia. }
  rewrite !length_app in Hf. rewrite (bind_Ret _ _ _ _ _ (Hspace (fuel m) s Hc ltac:(lia))). apply cstr_app in Hc as [_ Hc].
  rewrite (ld_run _ _ _ _ (cstr_head _ _ _ Hc)). destruct neg; cbn [app head] in Hc |- *.
  - destruct Hc as (_ & _ & Hc). change (default 0 (Some 45)) with 45. change (45 =? 45) with true. cbv iota zeta.
    rewrite (bind_Ret _ _ _ _ _ (atoi_digits_run m dg ds rest (fuel m) _ 0 Hd Hc Hds Hr ltac:(lia))). unfold mret, M_ret. f_equal.
    unfold s32, u32, dval. lia.
  - destruct ds as [|x ds]; [done|]. change (default 0 _) with x. pose proof Hds as Hds'. inversion_clear Hds as [|?? Hi _]. unfold isdigit in Hi. zdecide. cbv iota zeta.
    rewrite (bind_Ret _ _ _ _ _ (atoi_digits_run m dg (x :: ds) rest (fuel m) _ 0 Hd Hc Hds' Hr ltac:(simpl in Hf |- *; lia))). unfold mret, M_ret. f_equal.
    unfold s32, u32, dval. lia.
Qed.
