(* ===== verification/Printf.v ===== *)
(** * Formatted printing

    common/libc/printf/__printf.c and snprintf.c, which the kernel and the C
    library share.  The state is the [PF] structure with the client data of the
    function that text is sent to; the arguments are a list of words, double words
    and strings, and fetching one of another kind is a [Fault].  A string argument
    is the list of its characters and does not overlap the buffer that is printed
    into.  [SendLaws] is what the printing code relies on in a send function;
    [render] is the specification: what a format and arguments stand for;
    [manual] is that of the manual page, and differs from it for the conversion %X
    and the character 0.

    [printf_renders]: any send function is given exactly that text.
    [snprintf_bounded]: [snprintf] keeps inside its buffer and cuts the text off.
    [print_then_atoi]: numbers that are printed read back as themselves. *)

From Stdlib Require Import ZArith Lia.
From stdpp Require Import base numbers list.
From S2P Require Import Prelude Millicode CString.

(** ** Characters *)

Definition c_hash : Z := 35.
Definition c_pct : Z := 37.
Definition c_minus : Z := 45.
Definition c_0 : Z := 48.
Definition c_9 : Z := 57.
Definition c_c : Z := 99.
Definition c_d : Z := 100.
Definition c_l : Z := 108.
Definition c_o : Z := 111.
Definition c_p : Z := 112.
Definition c_s : Z := 115.
Definition c_u : Z := 117.
Definition c_x : Z := 120.
Definition c_space : Z := 32.

(** The constant strings of the code. *)
Definition s_digits : list Z := [48; 49; 50; 51; 52; 53; 54; 55; 56; 57; 97; 98; 99; 100; 101; 102].
Definition s_modifiers : list Z := [35; 45; 108; 48; 49; 50; 51; 52; 53; 54; 55; 56; 57].
Definition s_inttypes : list Z := [100; 111; 117; 112; 120].
Definition s_null : list Z := [40; 110; 117; 108; 108; 41].

(** ** State *)

Inductive intsize := INTSZ | LONGSZ | LLONGSZ.

Inductive varg :=
| VWord (w : Z)
| VDword (d : Z)
| VStr (s : option (list Z)).

Definition NUMBER_BUF_SIZE : Z := 64 / 3 + 2.

Record PF (D : Type) := Pf {
  clientdata : D;
  ap : list varg;
  charcount : Z;
  in_pct : bool;
  size : intsize;
  num : Z;
  sign : bool;
  spacing : Z;
  rightspc : bool;
  fillchar : Z;
  base : Z;
  baseprefix : bool;
  altformat : bool
}.
Arguments Pf {D}.
Arguments clientdata {D}. Arguments ap {D}. Arguments charcount {D}. Arguments in_pct {D}. Arguments size {D}. Arguments num {D}.
Arguments sign {D}. Arguments spacing {D}. Arguments rightspc {D}. Arguments fillchar {D}. Arguments base {D}. Arguments baseprefix {D}.
Arguments altformat {D}.

Section printf.
Context {D : Type} (sendfunc : list Z → M D unit).
(** What the buffer of [__pf_printnum] holds before it is written. *)
Context (numbuf : list Z).
Abbreviation PF := (PF D).

Definition set_clientdata (d : D) (s : PF) : PF :=
  Pf d s.(ap) s.(charcount) s.(in_pct) s.(size) s.(num) s.(sign) s.(spacing) s.(rightspc) s.(fillchar) s.(base) s.(baseprefix) s.(altformat).
Definition set_ap (l : list varg) (s : PF) : PF :=
  Pf s.(clientdata) l s.(charcount) s.(in_pct) s.(size) s.(num) s.(sign) s.(spacing) s.(rightspc) s.(fillchar) s.(base) s.(baseprefix) s.(altformat).
Definition set_charcount (n : Z) (s : PF) : PF :=
  Pf s.(clientdata) s.(ap) n s.(in_pct) s.(size) s.(num) s.(sign) s.(spacing) s.(rightspc) s.(fillchar) s.(base) s.(baseprefix) s.(altformat).
Definition set_in_pct (b : bool) (s : PF) : PF :=
  Pf s.(clientdata) s.(ap) s.(charcount) b s.(size) s.(num) s.(sign) s.(spacing) s.(rightspc) s.(fillchar) s.(base) s.(baseprefix) s.(altformat).
Definition set_size (z : intsize) (s : PF) : PF :=
  Pf s.(clientdata) s.(ap) s.(charcount) s.(in_pct) z s.(num) s.(sign) s.(spacing) s.(rightspc) s.(fillchar) s.(base) s.(baseprefix) s.(altformat).
Definition set_num (n : Z) (neg : bool) (s : PF) : PF :=
  Pf s.(clientdata) s.(ap) s.(charcount) s.(in_pct) s.(size) n (s.(sign) || neg) s.(spacing) s.(rightspc) s.(fillchar) s.(base) s.(baseprefix) s.(altformat).
Definition set_spacing (n : Z) (s : PF) : PF :=
  Pf s.(clientdata) s.(ap) s.(charcount) s.(in_pct) s.(size) s.(num) s.(sign) n s.(rightspc) s.(fillchar) s.(base) s.(baseprefix) s.(altformat).
Definition set_rightspc (s : PF) : PF :=
  Pf s.(clientdata) s.(ap) s.(charcount) s.(in_pct) s.(size) s.(num) s.(sign) s.(spacing) true s.(fillchar) s.(base) s.(baseprefix) s.(altformat).
Definition set_fillchar (c : Z) (s : PF) : PF :=
  Pf s.(clientdata) s.(ap) s.(charcount) s.(in_pct) s.(size) s.(num) s.(sign) s.(spacing) s.(rightspc) c s.(base) s.(baseprefix) s.(altformat).
Definition set_base (b : Z) (s : PF) : PF :=
  Pf s.(clientdata) s.(ap) s.(charcount) s.(in_pct) s.(size) s.(num) s.(sign) s.(spacing) s.(rightspc) s.(fillchar) b s.(baseprefix) s.(altformat).
Definition set_baseprefix (s : PF) : PF :=
  Pf s.(clientdata) s.(ap) s.(charcount) s.(in_pct) s.(size) s.(num) s.(sign) s.(spacing) s.(rightspc) s.(fillchar) s.(base) true s.(altformat).
Definition set_altformat (s : PF) : PF :=
  Pf s.(clientdata) s.(ap) s.(charcount) s.(in_pct) s.(size) s.(num) s.(sign) s.(spacing) s.(rightspc) s.(fillchar) s.(base) s.(baseprefix) true.

(** ** Operations *)

Definition __pf_print (txt : list Z) : M PF unit :=
  zoom clientdata set_clientdata (sendfunc txt);;
  modify (λ s, set_charcount (s32 (s.(charcount) + Z.of_nat (length txt))) s).

Definition __pf_endfield : M PF unit :=
  modify (λ s, Pf s.(clientdata) s.(ap) s.(charcount) false INTSZ 0 false 0 false c_space 0 false false).

Definition __pf_modifier (ch : Z) : M PF unit :=
  if ch =? c_hash then modify set_altformat
  else if ch =? c_minus then modify set_rightspc
  else if ch =? c_l then
    modify (λ s, set_size (match s.(size) with LONGSZ => LLONGSZ | _ => LONGSZ end) s)
  else if ch =? c_0 then
    modify (λ s, if s.(spacing) >? 0 then set_spacing (s32 (s.(spacing) * 10)) s else set_fillchar c_0 s)
  else
    kassert ((ch >? c_0) && (ch <=? c_9));;
    modify (λ s, set_spacing (s32 (s.(spacing) * 10 + (ch - c_0))) s).

(** [va_arg] for the types of the size of a word, of a double word, and strings. *)
Definition va_word : M PF Z :=
  s ← get;
  match s.(ap) with VWord w :: l => modify (set_ap l);; mret w | _ => fault end.
Definition va_dword : M PF Z :=
  s ← get;
  match s.(ap) with VDword d :: l => modify (set_ap l);; mret d | _ => fault end.
Definition va_string : M PF (option (list Z)) :=
  s ← get;
  match s.(ap) with VStr o :: l => modify (set_ap l);; mret o | _ => fault end.

Definition __pf_getnum (ch : Z) : M PF unit :=
  s ← get;
  if ch =? c_p then w ← va_word; modify (set_num (u32 w) false)
  else if ch =? c_d then
    signednum ← (match s.(size) with
                 | INTSZ | LONGSZ => w ← va_word; mret (s32 w)
                 | LLONGSZ => d ← va_dword; mret (s64 d)
                 end);
    if signednum <? 0 then modify (set_num (u64 (- signednum)) true) else modify (set_num signednum false)
  else
    n ← (match s.(size) with
         | INTSZ | LONGSZ => w ← va_word; mret (u32 w)
         | LLONGSZ => d ← va_dword; mret (u64 d)
         end);
    modify (set_num n false).

Definition __pf_setbase (ch : Z) : M PF unit :=
  (if (ch =? c_d) || (ch =? c_u) then modify (set_base 10)
   else if (ch =? c_x) || (ch =? c_p) then modify (set_base 16)
   else if ch =? c_o then modify (set_base 8)
   else mret tt);;
  s ← get;
  when (s.(altformat) || (ch =? c_p)) (modify set_baseprefix).

Definition __pf_fill (spc : Z) : M PF unit :=
  s ← get;
  for_up (Z.to_nat spc) 0 (λ _, __pf_print [s.(fillchar)]).

Definition __pf_printstuff (prefix prefix2 stuff : list Z) : M PF unit :=
  s ← get;
  let len := s32 (Z.of_nat (length prefix) + Z.of_nat (length prefix2) + Z.of_nat (length stuff)) in
  let spc := if s.(spacing) >? len then s32 (s.(spacing) - len) else 0 in
  when ((spc >? 0) && negb s.(rightspc) && negb (s.(fillchar) =? c_0)) (__pf_fill spc);;
  __pf_print prefix;;
  __pf_print prefix2;;
  when ((spc >? 0) && negb s.(rightspc) && (s.(fillchar) =? c_0)) (__pf_fill spc);;
  __pf_print stuff;;
  when ((spc >? 0) && s.(rightspc)) (__pf_fill spc).

(** The characters before the terminator. *)
Fixpoint text_of (l : list Z) : option (list Z) :=
  match l with
  | [] => None
  | c :: l => if c =? 0 then Some [] else cons c <$> text_of l
  end.

Fixpoint printnum_loop (n : nat) (buf : list Z) (x xnum : Z) : M PF (list Z * Z) :=
  match n with
  | O => diverge
  | S n =>
      s ← get;
      c ← of_opt (zlookup s_digits (xnum mod s.(base)));
      buf ← of_opt (zupd buf x c);
      let x := x - 1 in
      let xnum := xnum / s.(base) in
      if xnum >? 0 then printnum_loop n buf x xnum else mret (buf, x)
  end.

Definition __pf_printnum : M PF unit :=
  let x := NUMBER_BUF_SIZE - 1 in
  buf ← of_opt (zupd numbuf x 0);
  let x := x - 1 in
  s ← get;
  r ← printnum_loop 64 buf x s.(num);
  let '(buf, x) := r : list Z * Z in
  let x := x + 1 in
  let bprefix := if s.(baseprefix) && (s.(base) =? 16) then [c_0; c_x]
                 else if s.(baseprefix) && (s.(base) =? 8) then [c_0] else [] in
  let sprefix := if s.(sign) then [c_minus] else [] in
  stuff ← of_opt (text_of (drop (Z.to_nat x) buf));
  __pf_printstuff sprefix bprefix stuff.

Definition __pf_send (ch : Z) : M PF unit :=
  kassert (negb (ch =? 0));;
  s ← get;
  if negb s.(in_pct) && negb (ch =? c_pct) then __pf_print [ch]
  else if negb s.(in_pct) then modify (set_in_pct true)
  else if bool_decide (ch ∈ s_modifiers) then __pf_modifier ch
  else if bool_decide (ch ∈ s_inttypes) then
    __pf_getnum ch;; __pf_setbase ch;; __pf_printnum;; __pf_endfield
  else if ch =? c_s then
    str ← va_string;
    __pf_printstuff [] [] (default s_null str);;
    __pf_endfield
  else
    x0 ← (if ch =? c_c then w ← va_word; mret (w mod 256) else mret ch);
    stuff ← of_opt (text_of [x0; 0]);
    __pf_printstuff [] [] stuff;;
    __pf_endfield.

Fixpoint send_all (format : list Z) : M PF unit :=
  match format with
  | [] => mret tt
  | c :: format => __pf_send c;; send_all format
  end.

(** [format] is the list of the characters before the terminator. *)
Definition __vprintf (format : list Z) (args : list varg) : M D Z := λ d,
  match (__pf_endfield;; send_all format;; gets charcount) (Pf d args 0 false INTSZ 0 false 0 false 0 0 false false) with
  | Ret n s => Ret n s.(clientdata)
  | Panic s => Panic s.(clientdata)
  | Fault => Fault
  | Diverge => Diverge
  end.
End printf.

(** ** Specification: the text a format stands for *)

#[global] Instance isdigit_dec c : Decision (isdigit c).
Proof. unfold isdigit. apply _. Defined.

(** What the modifiers [fl] between the percent sign and the type say. *)
Definition fl_width (fl : list Z) : Z := dval (filter isdigit fl).
Definition fl_fill (fl : list Z) : Z := if bool_decide (head (filter isdigit fl) = Some c_0) then c_0 else c_space.
Definition fl_left (fl : list Z) : bool := bool_decide (c_minus ∈ fl).
Definition fl_alt (fl : list Z) : bool := bool_decide (c_hash ∈ fl).
Definition fl_size (fl : list Z) : option intsize :=
  match length (filter (.= c_l) fl) with 0%nat => Some INTSZ | 1%nat => Some LONGSZ | 2%nat => Some LLONGSZ | _ => None end.

(** A sign, a prefix and a text in a field of width [w]. *)
Definition pad_field (w : Z) (left : bool) (fill : Z) (sgn pre txt : list Z) : list Z :=
  let pad := replicate (Z.to_nat (w - Z.of_nat (length (sgn ++ pre ++ txt)))) fill in
  if left then sgn ++ pre ++ txt ++ pad
  else if fill =? c_0 then sgn ++ pre ++ pad ++ txt
  else pad ++ sgn ++ pre ++ txt.
Definition field (fl sgn pre txt : list Z) : option (list Z) :=
  if (fl_width fl <=? INT_MAX) && (Z.of_nat (length (sgn ++ pre ++ txt)) <=? INT_MAX)
  then Some (pad_field (fl_width fl) (fl_left fl) (fl_fill fl) sgn pre txt) else None.

(** Positional notation of a number with at most [k] digits. *)
Definition digit_char (v : Z) : Z := default 0 (zlookup s_digits v).
Fixpoint digs (k : nat) (b n : Z) : list Z :=
  match k with
  | O => []
  | S k => (if n <? b then [] else digs k b (n / b)) ++ [digit_char (n mod b)]
  end.

Definition base_of (c : Z) : Z := if bool_decide (c ∈ [c_d; c_u]) then 10 else if bool_decide (c ∈ [c_x; c_p]) then 16 else 8.
Definition base_prefix (b : Z) : list Z := if b =? 16 then [c_0; c_x] else if b =? 8 then [c_0] else [].

(** The sign and the magnitude of the next argument. *)
Definition arg_num (fl : list Z) (c : Z) (args : list varg) : option (bool * Z * list varg) :=
  if c =? c_p then match args with VWord w :: l => Some (false, u32 w, l) | _ => None end
  else
    sz ← fl_size fl;
    match sz, args with
    | LLONGSZ, VDword d :: l => Some (if c =? c_d then (s64 d <? 0, Z.abs (s64 d), l) else (false, u64 d, l))
    | INTSZ, VWord w :: l | LONGSZ, VWord w :: l => Some (if c =? c_d then (s32 w <? 0, Z.abs (s32 w), l) else (false, u32 w, l))
    | _, _ => None
    end.

(** One conversion: its text, and the arguments that are left. *)
Definition conv (fl : list Z) (c : Z) (args : list varg) : option (list Z * list varg) :=
  fl_size fl;;
  if bool_decide (c ∈ s_inttypes) then
    r ← arg_num fl c args;
    let '(neg, n, l) := r : bool * Z * list varg in
    t ← field fl (if neg then [c_minus] else [])
          (if fl_alt fl || (c =? c_p) then base_prefix (base_of c) else []) (digs 64 (base_of c) n);
    Some (t, l)
  else if c =? c_s then
    match args with VStr o :: l => t ← field fl [] [] (default s_null o); Some (t, l) | _ => None end
  else if c =? c_c then
    match args with VWord w :: l => t ← field fl [] [] (if w mod 256 =? 0 then [] else [w mod 256]); Some (t, l) | _ => None end
  else t ← field fl [] [] [c]; Some (t, args).

(** [pct]: the modifiers seen so far, inside a conversion.  No text is given when
    the arguments do not match the format, or a width does not fit an [int]. *)
Fixpoint render (pct : option (list Z)) (format : list Z) (args : list varg) : option (list Z) :=
  match format with
  | [] => Some []
  | c :: format =>
      if c =? 0 then None
      else
        match pct with
        | None => if c =? c_pct then render (Some []) format args else cons c <$> render None format args
        | Some fl =>
            if bool_decide (c ∈ s_modifiers) then
              fl_size (fl ++ [c]);; if fl_width (fl ++ [c]) <=? INT_MAX then render (Some (fl ++ [c])) format args else None
            else
              r ← conv fl c args;
              out ← render None format r.2;
              Some (r.1 ++ out)
        end
  end.

(** *** The manual page (man/libc/printf.html)

    It has one more conversion, %X for uppercase hexadecimal, and prints every
    character for %c. *)

Definition c_X : Z := 88.
Definition upper (c : Z) : Z := if (97 <=? c) && (c <=? 122) then c - 32 else c.

Definition conv_man (fl : list Z) (c : Z) (args : list varg) : option (list Z * list varg) :=
  if c =? c_X then
    fl_size fl;;
    r ← arg_num fl c_x args;
    let '(_, n, l) := r : bool * Z * list varg in
    t ← field fl [] (if fl_alt fl then base_prefix 16 else []) (upper <$> digs 64 16 n);
    Some (t, l)
  else if c =? c_c then
    fl_size fl;;
    match args with VWord w :: l => t ← field fl [] [] [w mod 256]; Some (t, l) | _ => None end
  else conv fl c args.

Fixpoint manual (pct : option (list Z)) (format : list Z) (args : list varg) : option (list Z) :=
  match format with
  | [] => Some []
  | c :: format =>
      if c =? 0 then None
      else
        match pct with
        | None => if c =? c_pct then manual (Some []) format args else cons c <$> manual None format args
        | Some fl =>
            if bool_decide (c ∈ s_modifiers) then
              fl_size (fl ++ [c]);; if fl_width (fl ++ [c]) <=? INT_MAX then manual (Some (fl ++ [c])) format args else None
            else
              r ← conv_man fl c args;
              out ← manual None format r.2;
              Some (r.1 ++ out)
        end
  end.

(** Whether the format has a conversion %X; [pct]: inside a conversion. *)
Fixpoint asks_upper (pct : bool) (format : list Z) : bool :=
  match format with
  | [] => false
  | c :: format =>
      if negb pct then asks_upper (c =? c_pct) format
      else if bool_decide (c ∈ s_modifiers) then asks_upper true format
      else (c =? c_X) || asks_upper false format
  end.

Lemma conv_man_conv fl c args t l :
  conv_man fl c args = Some (t, l) → c ≠ c_X → 0 ∉ t → conv fl c args = Some (t, l).
Proof.
  unfold conv_man. intros H Hx H0. rewrite (proj2 (Z.eqb_neq c c_X)) in H by done. destruct (Z.eqb_spec c c_c) as [->|]; [|done].
  unfold conv. destruct (fl_size fl); [|done]. cbn [mbind option_bind] in *. rewrite bool_decide_eq_false_2 by (by apply (bool_decide_unpack _)).
  change (c_c =? c_s) with false. change (c_c =? c_c) with true. cbv iota. destruct args as [|[w|w|o] args]; try done.
  destruct (Z.eqb_spec (w mod 256) 0) as [E|]; [|done]. rewrite E in H. exfalso. unfold field in H. destruct (_ && _); [|done].
  cbn [mbind option_bind] in H. injection H as <- _. apply H0. unfold pad_field. destruct (fl_left fl), (fl_fill fl =? c_0); rewrite !elem_of_app, ?elem_of_cons; tauto.
Qed.

(** Apart from %X, and as long as no character 0 is asked for, the two agree. *)
Lemma manual_render format pct args out :
  manual pct format args = Some out → asks_upper (if pct is Some _ then true else false) format = false → 0 ∉ out → render pct format args = Some out.
Proof.
  revert pct args out. induction format as [|c format IH]; intros pct args out; cbn [manual render asks_upper]; [done|].
  destruct (c =? 0); [done|]. destruct pct as [fl|].
  - cbn [negb]. case_bool_decide as Hm.
    + destruct (fl_size _); [|done]. cbn [mbind option_bind]. destruct (_ <=? _); [|done]. intros H1 Hu H0. by apply IH.
    + intros H Hu H0. apply orb_false_iff in Hu as [Hx%Z.eqb_neq Hu]. destruct (conv_man fl c args) as [[t l]|] eqn:E; [|done]. cbn [mbind option_bind fst snd] in *.
      destruct (manual None format l) as [out'|] eqn:E'; [|done]. injection H as <-. rewrite elem_of_app in H0.
      rewrite (conv_man_conv _ _ _ _ _ E) by tauto. cbn [mbind option_bind fst snd]. rewrite (IH None l out'); [done|done|done|tauto].
  - cbn [negb]. destruct (c =? c_pct).
    + intros H Hu H0. by apply IH.
    + intros H Hu H0. destruct (manual None format args) as [out'|] eqn:E'; [|done]. injection H as <-. rewrite elem_of_cons in H0.
      rewrite (IH None args out'); [done|done|done|tauto].
Qed.

(** ** Modifiers *)

Lemma foldl_digits_ge v l : 0 ≤ v → Forall isdigit l → v ≤ foldl (λ v c, v * 10 + (c - 48)) v l.
Proof. intros Hv H. revert v Hv. induction H as [|c l Hc H IH]; intros v Hv; simpl; [lia|]. unfold isdigit in Hc. specialize (IH (v * 10 + (c - 48))). lia. Qed.

Lemma dval_nonneg l : Forall isdigit l → 0 ≤ dval l.
Proof. intros. by apply foldl_digits_ge. Qed.

Lemma dval_snoc l c : dval (l ++ [c]) = dval l * 10 + (c - 48).
Proof. unfold dval. by rewrite foldl_app. Qed.

Lemma dval_0_head l : Forall isdigit l → dval l = 0 → l = [] ∨ head l = Some c_0.
Proof.
  intros H E. destruct H as [|c l Hc H]; [by left|right]. unfold isdigit in Hc. unfold dval in E. cbn [foldl] in E. replace (0 * 10 + (c - 48)) with (c - 48) in E by lia.
  pose proof (foldl_digits_ge (c - 48) l ltac:(lia) H). simpl. f_equal. unfold c_0. lia.
Qed.

Lemma filter_digits fl : Forall isdigit (filter isdigit fl).
Proof. apply Forall_forall. intros c [? _]%list_elem_of_filter. done. Qed.

Lemma fl_width_nonneg fl : 0 ≤ fl_width fl.
Proof. apply dval_nonneg, filter_digits. Qed.

(** A modifier that is not a digit, and one that is. *)
Lemma fl_other fl c : ¬ isdigit c → fl_width (fl ++ [c]) = fl_width fl ∧ fl_fill (fl ++ [c]) = fl_fill fl.
Proof. intros Hc. unfold fl_width, fl_fill. by rewrite filter_app, filter_cons_False, filter_nil, app_nil_r. Qed.

Lemma fl_digit fl c :
  isdigit c → fl_width (fl ++ [c]) = fl_width fl * 10 + (c - 48) ∧
    fl_fill (fl ++ [c]) = (if (c =? c_0) && (fl_width fl =? 0) then c_0 else fl_fill fl).
Proof.
  intros Hc. unfold fl_width, fl_fill. rewrite filter_app, filter_cons_True, filter_nil by done. split; [apply dval_snoc|].
  pose proof (dval_0_head _ (filter_digits fl)) as H0. destruct (filter isdigit fl) as [|x l] eqn:El; simpl.
  - rewrite andb_true_r. destruct (Z.eqb_spec c c_0) as [->|]; [done|]. rewrite bool_decide_eq_false_2 by congruence. done.
  - destruct (Z.eqb_spec (dval (x :: l)) 0) as [E|]; [|by rewrite andb_false_r]. destruct (H0 E) as [|[= ->]]; [done|]. by destruct (c =? c_0).
Qed.

Lemma fl_size_other fl c : c ≠ c_l → fl_size (fl ++ [c]) = fl_size fl.
Proof. intros Hc. unfold fl_size. by rewrite filter_app, filter_cons_False, filter_nil, app_nil_r. Qed.

Lemma fl_size_l fl z : fl_size (fl ++ [c_l]) = Some z → (fl_size fl = Some INTSZ ∧ z = LONGSZ) ∨ (fl_size fl = Some LONGSZ ∧ z = LLONGSZ).
Proof.
  unfold fl_size. rewrite filter_app, filter_cons_True, filter_nil, length_app by done. simpl.
  destruct (length (filter _ fl)) as [|[|[|n]]]; simpl; [left|right|..]; naive_solver.
Qed.

Lemma flag_snoc (fl : list Z) (x c : Z) : bool_decide (x ∈ fl ++ [c]) = bool_decide (x ∈ fl) || bool_decide (c = x).
Proof.
  rewrite <- bool_decide_or. apply bool_decide_ext. rewrite elem_of_app, list_elem_of_singleton. naive_solver.
Qed.

(** The state in the middle of a conversion, after the modifiers [fl]. *)
Definition pct_state {D} (fl : list Z) (z : intsize) (d : D) (args : list varg) (cc : Z) : PF D :=
  Pf d args cc true z 0 false (fl_width fl) (fl_left fl) (fl_fill fl) 0 false (fl_alt fl).
(** The state between conversions. *)
Definition idle_state {D} (d : D) (args : list varg) (cc : Z) : PF D := Pf d args cc false INTSZ 0 false 0 false c_space 0 false false.

Lemma modifier_run {D} fl c z (d : D) args cc :
  c ∈ s_modifiers → fl_size (fl ++ [c]) = Some z → fl_width (fl ++ [c]) ≤ INT_MAX →
  ∃ z0, fl_size fl = Some z0 ∧ __pf_modifier c (pct_state fl z0 d args cc) = Ret tt (pct_state (fl ++ [c]) z d args cc).
Proof.
  intros Hc Hz Hw. pose proof (fl_width_nonneg fl) as Hp. unfold __pf_modifier, INT_MAX in *. unfold pct_state, fl_left, fl_alt.
  destruct (decide (isdigit c)) as [Hd|Hd].
  - destruct (fl_digit fl c Hd) as [E1 E2]. unfold isdigit in Hd. exists z. rewrite <- (fl_size_other fl c) by (unfold c_l; lia). split; [done|].
    unfold c_hash, c_minus, c_l, c_0, c_9 in *. rewrite !flag_snoc, !(bool_decide_eq_false_2 (c = _)), !orb_false_r by lia. rewrite E1, E2 in *.
    zdecide. destruct (Z.eqb_spec c 48) as [->|].
    + unfold modify. cbn [spacing]. destruct (Z.gtb_spec (fl_width fl) 0).
      * zdecide. unfold set_spacing. cbn. f_equal. unfold s32. f_equal; lia.
      * replace (fl_width fl) with 0 in * by lia. done.
    + zdecide. unfold mbind, M_bind, kassert, mret, M_ret, modify, set_spacing. cbn. do 2 f_equal. unfold s32. lia.
  - destruct (fl_other fl c Hd) as [-> ->].
    assert (c = c_hash ∨ c = c_minus ∨ c = c_l) as Hcc.
    { unfold s_modifiers in Hc. rewrite !elem_of_cons in Hc. unfold isdigit in Hd. unfold c_hash, c_minus, c_l. destruct_or! Hc; try lia. by apply elem_of_nil in Hc. }
    rewrite !flag_snoc. destruct Hcc as [->|[->| ->]].
    + exists z. rewrite fl_size_other in Hz by done. split; [done|]. unfold modify, set_altformat. cbn. by rewrite orb_false_r, orb_true_r.
    + exists z. rewrite fl_size_other in Hz by done. split; [done|]. unfold modify, set_rightspc. cbn. by rewrite orb_false_r, orb_true_r.
    + rewrite !(bool_decide_eq_false_2 (c_l = _)), !orb_false_r by done.
      destruct (fl_size_l fl z Hz) as [[H ->]|[H ->]]; rewrite H; eexists; split; done.
Qed.

(** What the printing code relies on in a send function: text may be sent in
    pieces. *)
Class SendLaws {D} (sendfunc : list Z → M D unit) : Prop := {
  send_nil d : sendfunc [] d = Ret tt d;
  send_app a b d : sendfunc (a ++ b) d = (sendfunc a;; sendfunc b) d
}.

Lemma wp_bind_inv {S A B} (m : M S A) (k : A → M S B) Q s : wp (m ≫= k) Q s → wp m (λ a, wp (k a) Q) s.
Proof. unfold wp, mbind, M_bind. by destruct (m s). Qed.

Lemma bind_ext {S A B} (m : M S A) (k k' : A → M S B) s : (∀ a s', k a s' = k' a s') → (m ≫= k) s = (m ≫= k') s.
Proof. intros H. unfold mbind, M_bind. destruct (m s); [apply H|done..]. Qed.

Section proofs.
Context {D : Type} (sendfunc : list Z → M D unit) `{!SendLaws sendfunc} (numbuf : list Z).
Hypothesis Hbuf : Z.of_nat (length numbuf) = NUMBER_BUF_SIZE.
Abbreviation PF := (PF D).

Lemma wp_send_app a b Q d : wp (sendfunc (a ++ b)) Q d → wp (sendfunc a) (λ _, wp (sendfunc b) Q) d.
Proof. unfold wp at 1. rewrite send_app. apply wp_bind_inv. Qed.

(** The state after [out] has been sent. *)
Definition adv (out : list Z) (d : D) (s : PF) : PF := set_clientdata d (set_charcount (s32 (s.(charcount) + Z.of_nat (length out))) s).

(** [m] sends [out] and changes nothing else, in a state with fill character [f]. *)
Definition emits (f : Z) (m : M PF unit) (out : list Z) : Prop := ∀ s (Q : unit → PF → Prop),
  s.(fillchar) = f → s32 s.(charcount) = s.(charcount) →
  wp (sendfunc out) (λ _ d, Q tt (adv out d s)) s.(clientdata) → wp m Q s.

Lemma s32_s32_add a b : s32 (s32 a + b) = s32 (a + b).
Proof. unfold s32. lia. Qed.

Lemma emits_skip f : emits f (mret tt) [].
Proof.
  intros s Q _ Hc H. apply wp_ret. unfold wp in H. rewrite send_nil in H. unfold adv in H. simpl in H. rewrite Z.add_0_r, Hc in H. by destruct s.
Qed.

Lemma emits_print f out : emits f (__pf_print sendfunc out) out.
Proof. intros s Q _ _ H. unfold __pf_print. apply wp_bind, wp_zoom. eapply wp_mono; [|exact H]. intros [] d HQ. by apply wp_modify'. Qed.

Lemma emits_seq f m n a b : emits f m a → emits f n b → emits f (m;; n) (a ++ b).
Proof.
  intros Hm Hn s Q Hf Hc H. apply wp_bind, Hm; [done..|]. apply wp_send_app in H. eapply wp_mono; [|exact H].
  intros ? d H'. apply Hn; [done|cbn; unfold s32; lia|]. cbn [clientdata adv set_clientdata].
  eapply wp_mono; [|exact H']. intros ? d'. unfold adv. simpl. by rewrite s32_s32_add, length_app, Nat2Z.inj_add, Z.add_assoc.
Qed.

Lemma emits_fill f k : 0 ≤ k → emits f (__pf_fill sendfunc k) (replicate (Z.to_nat k) f).
Proof.
  intros Hk s Q Hf Hc H. unfold __pf_fill. apply wp_get. rewrite Hf. clear Hk. generalize 0. revert s Q Hf Hc H.
  induction (Z.to_nat k) as [|n IH]; intros s Q Hf Hc H i; [by apply (emits_skip f)|].
  change (for_up (S n) i (λ _, __pf_print sendfunc [f])) with (__pf_print sendfunc [f];; for_up n (i + 1) (λ _, __pf_print sendfunc [f])).
  apply (emits_seq f _ _ [f] (replicate n f)); [apply emits_print| |done..]. intros s' Q' Hf' Hc' H'. by apply IH.
Qed.

Lemma emits_when f (b : bool) m out : emits f m out → emits f (when b m) (if b then out else []).
Proof. intros H. destruct b; [done|apply emits_skip]. Qed.

(** A field is printed as specified. *)
Lemma printstuff_wp sgn pre txt s (Q : unit → PF → Prop) :
  0 ≤ s.(spacing) ≤ INT_MAX → Z.of_nat (length (sgn ++ pre ++ txt)) ≤ INT_MAX → s32 s.(charcount) = s.(charcount) →
  (let out := pad_field s.(spacing) s.(rightspc) s.(fillchar) sgn pre txt in wp (sendfunc out) (λ _ d, Q tt (adv out d s)) s.(clientdata)) →
  wp (__pf_printstuff sendfunc sgn pre txt) Q s.
Proof.
  intros Hs Hl Hc. cbv zeta. unfold __pf_printstuff, INT_MAX in *. rewrite !length_app, !Nat2Z.inj_add in Hl.
  set (n := Z.of_nat (length sgn) + Z.of_nat (length pre) + Z.of_nat (length txt)) in *.
  assert (s32 n = n) as En by (unfold s32; lia). assert (∀ x, 0 ≤ x ≤ 2147483647 → s32 x = x) as E32 by (intros; unfold s32; lia).
  set (f := s.(fillchar)). set (k := Z.max 0 (s.(spacing) - n)).
  assert (pad_field s.(spacing) s.(rightspc) f sgn pre txt =
    (if (k >? 0) && negb s.(rightspc) && negb (f =? c_0) then replicate (Z.to_nat k) f else []) ++ sgn ++ pre ++
    (if (k >? 0) && negb s.(rightspc) && (f =? c_0) then replicate (Z.to_nat k) f else []) ++ txt ++
    (if (k >? 0) && s.(rightspc) then replicate (Z.to_nat k) f else [])) as ->.
  { unfold pad_field. rewrite !length_app, !Nat2Z.inj_add, Z.add_assoc. fold n.
    replace (Z.to_nat (s.(spacing) - n)) with (Z.to_nat k) by lia. destruct (Z.gtb_spec k 0); [|replace (Z.to_nat k) with 0%nat by lia; simpl];
    destruct (s.(rightspc)), (f =? c_0); simpl; by rewrite ?app_nil_r. }
  intros H. apply wp_get. fold n f. rewrite En.
  replace (if s.(spacing) >? n then s32 (s.(spacing) - n) else 0) with k by (destruct (Z.gtb_spec s.(spacing) n); [rewrite E32|]; lia).
  revert H. apply (emits_seq f); [apply emits_when, emits_fill; lia| |done|done]. apply emits_seq; [apply emits_print|].
  apply emits_seq; [apply emits_print|]. apply emits_seq; [apply emits_when, emits_fill; lia|].
  apply emits_seq; [apply emits_print|apply emits_when, emits_fill; lia].
Qed.

(** ** Numbers *)

Lemma text_cons buf x c t :
  (x < length buf)%nat → c ≠ 0 → text_of (drop (S x) buf) = Some t → text_of (drop x (<[x := c]> buf)) = Some (c :: t).
Proof.
  intros Hx Hc Ht. rewrite (drop_S _ c) by (by apply list_lookup_insert_eq). cbn [text_of].
  rewrite (proj2 (Z.eqb_neq c 0)), drop_insert_lt, Ht by (done || lia). done.
Qed.

Lemma digit_char_ok v : 0 ≤ v < 16 → zlookup s_digits v = Some (digit_char v) ∧ digit_char v ≠ 0.
Proof.
  intros Hv. assert (∃ k : nat, v = Z.of_nat k ∧ (k < 16)%nat) as (k & -> & Hk) by (exists (Z.to_nat v); lia).
  do 16 (destruct k as [|k]; [done|]). lia.
Qed.

(** The digits are written to the left of what the buffer holds, if there is
    room. *)
Lemma printnum_loop_run n k buf x xnum t (s : PF) :
  2 ≤ s.(base) ≤ 16 → x < Z.of_nat (length buf) → Z.of_nat (S k) ≤ x + 1 → (k < n)%nat → 0 ≤ xnum < s.(base) ^ Z.of_nat (S k) →
  text_of (drop (Z.to_nat (x + 1)) buf) = Some t →
  ∃ buf' x', printnum_loop n buf x xnum s = Ret (buf', x') s ∧ text_of (drop (Z.to_nat (x' + 1)) buf') = Some (digs n s.(base) xnum ++ t).
Proof.
  intros Hb. revert k buf x xnum t. induction n as [|n IH]; intros k buf x xnum t Hx Hk Hn Hnum Ht; [lia|].
  cbn [printnum_loop digs]. rewrite get_bind. destruct (digit_char_ok (xnum mod s.(base))) as [-> Hc]; [pose proof (Z.mod_pos_bound xnum s.(base)); lia|].
  mrun. rewrite zupd_Some by lia. mrun. set (c := digit_char _) in *.
  assert (text_of (drop (Z.to_nat (x - 1 + 1)) (<[Z.to_nat x := c]> buf)) = Some (c :: t)) as Ht'.
  { replace (Z.to_nat (x - 1 + 1)) with (Z.to_nat x) by lia. apply text_cons; [lia|done|]. by replace (S (Z.to_nat x)) with (Z.to_nat (x + 1)) by lia. }
  destruct (Z.ltb_spec xnum s.(base)).
  - rewrite Z.div_small by lia. exists (<[Z.to_nat x := c]> buf), (x - 1). done.
  - assert (0 < xnum / s.(base)) by (apply Z.div_str_pos; lia). rewrite (proj2 (Z.gtb_lt _ 0)) by done. destruct k as [|k].
    { change (Z.of_nat 1) with 1 in Hnum. rewrite Z.pow_1_r in Hnum. lia. }
    destruct (IH k (<[Z.to_nat x := c]> buf) (x - 1) (xnum / s.(base)) (c :: t)) as (buf' & x' & E & H');
      [rewrite length_insert; lia|lia|lia| |done|].
    { split; [lia|]. apply Z.div_lt_upper_bound; [lia|]. rewrite <- Z.pow_succ_r by lia. rewrite <- Nat2Z.inj_succ. apply Hnum. }
    exists buf', x'. split; [done|]. by rewrite <- app_assoc.
Qed.

(** The buffer has room for every 64-bit number, with nothing to spare in base 8. *)
Lemma printnum_wp (s : PF) (Q : unit → PF → Prop) :
  s.(base) = 8 ∨ s.(base) = 10 ∨ s.(base) = 16 → 0 ≤ s.(num) < W64 → 
  wp (__pf_printstuff sendfunc (if s.(sign) then [c_minus] else []) (if s.(baseprefix) then base_prefix s.(base) else []) (digs 64 s.(base) s.(num))) Q s →
  wp (__pf_printnum sendfunc numbuf) Q s.
Proof.
  intros Hb Hn H. unfold __pf_printnum, NUMBER_BUF_SIZE in *. change (64 / 3 + 2) with 23 in *. change (23 - 1) with 22. change (22 - 1) with 21.
  rewrite zupd_Some by lia. apply wp_bind, wp_ret, wp_get.
  destruct (printnum_loop_run 64 21 (<[Z.to_nat 22 := 0]> numbuf) 21 s.(num) [] s) as (buf & x & E & Ht).
  - lia.
  - rewrite length_insert. lia.
  - lia.
  - lia.
  - change W64 with (2 ^ 64) in Hn. destruct Hb as [->|[->| ->]]; (split; [lia|]; eapply Z.lt_le_trans; [apply Hn|by vm_compute]).
  - change (Z.to_nat (21 + 1)) with 22%nat. change (Z.to_nat 22) with 22%nat. rewrite (drop_S _ 0) by (apply list_lookup_insert_eq; lia). done.
  - eapply wp_run; [exact E|]. cbn [fst snd]. rewrite Ht, app_nil_r. apply wp_bind, wp_ret.
    unfold base_prefix in H. destruct s.(baseprefix), (s.(base) =? 16), (s.(base) =? 8); exact H.
Qed.

Lemma arg_num_run fl c z (d : D) args cc neg n l :
  c ∈ s_inttypes → fl_size fl = Some z → arg_num fl c args = Some (neg, n, l) →
  __pf_getnum c (pct_state fl z d args cc) = Ret tt (set_num n neg (pct_state fl z d l cc)) ∧ 0 ≤ n < W64.
Proof.
  intros Hc Hz H. unfold arg_num in H. rewrite Hz in H. unfold __pf_getnum, va_word, va_dword. rewrite get_bind. cbn [size pct_state].
  assert (∀ w, 0 ≤ u32 w < W64) as U32 by (intros; unfold u32, W64; lia). assert (∀ w, 0 ≤ u64 w < W64) as U64 by (intros; unfold u64, W64; lia).
  assert (∀ w, - W64 / 2 ≤ s32 w < W64 / 2) as S32 by (intros; unfold s32, W64; lia).
  assert (∀ w, - W64 / 2 ≤ s64 w < W64 / 2) as S64 by (intros; unfold s64, W64; lia).
  assert (∀ x, - W64 / 2 ≤ x < W64 / 2 → 0 ≤ Z.abs x < W64) as Habs by (intros; unfold W64 in *; lia).
  assert (∀ x, - W64 / 2 ≤ x < W64 / 2 → x < 0 → u64 (- x) = Z.abs x) as Hneg by (intros; unfold u64, W64 in *; lia).
  destruct (c =? c_p).
  { destruct args as [|[w| |] args]; try done. injection H as <- <- <-. split; [done|apply U32]. }
  assert (∀ x, - W64 / 2 ≤ x < W64 / 2 → ∀ l', (if x <? 0 then modify (set_num (u64 (- x)) true) else modify (set_num x false)) (pct_state fl z d l' cc)
    = Ret tt (set_num (Z.abs x) (x <? 0) (pct_state fl z d l' cc))) as Hd.
  { intros x Hx l'. destruct (Z.ltb_spec x 0); unfold modify; f_equal; f_equal; [by apply Hneg|lia]. }
  destruct z; destruct args as [|[w|w|] args]; try done; destruct (c =? c_d); injection H as <- <- <-;
    (split; [|by first [apply U32|apply U64|apply Habs, S32|apply Habs, S64]]); try done;
    (erewrite bind_Ret by reflexivity; by apply Hd).
Qed.

(** ** Whole formats *)

Lemma setbase_run c (s : PF) :
  c ∈ s_inttypes → s.(base) = 0 → s.(baseprefix) = false →
  __pf_setbase c s = Ret tt (let s' := set_base (base_of c) s in if s.(altformat) || (c =? c_p) then set_baseprefix s' else s').
Proof.
  intros Hc Hb Hp. unfold s_inttypes in Hc. rewrite !elem_of_cons in Hc. unfold __pf_setbase, when.
  destruct_or! Hc; [..|by apply elem_of_nil in Hc]; subst c; unfold mbind, M_bind, modify, get; simpl; by destruct s.(altformat).
Qed.

Lemma base_of_cases c : base_of c = 8 ∨ base_of c = 10 ∨ base_of c = 16.
Proof. unfold base_of. repeat case_bool_decide; lia. Qed.

(** A field in the middle of a conversion, and the end of the conversion. *)
Lemma field_wp fl (s : PF) sgn pre txt t (Q : PF → Prop) :
  field fl sgn pre txt = Some t → s.(spacing) = fl_width fl → s.(rightspc) = fl_left fl → s.(fillchar) = fl_fill fl →
  s32 s.(charcount) = s.(charcount) →
  wp (sendfunc t) (λ _ d, Q (idle_state d s.(ap) (s32 (s.(charcount) + Z.of_nat (length t))))) s.(clientdata) →
  wp (__pf_printstuff sendfunc sgn pre txt;; __pf_endfield) (λ _, Q) s.
Proof.
  unfold field. intros H Hw Hl Hf Hc Hs. destruct (_ && _) eqn:E; [|done]. apply andb_prop in E as [E1%Z.leb_le E2%Z.leb_le]. injection H as H.
  apply wp_bind, printstuff_wp; [rewrite Hw; pose proof (fl_width_nonneg fl); lia|done..|]. cbv zeta. rewrite Hw, Hl, Hf, H.
  eapply wp_mono; [|exact Hs]. intros ? d HQ. by apply wp_modify'.
Qed.

Lemma conv_wp fl c z d args cc t l (Q : PF → Prop) :
  fl_size fl = Some z → c ≠ 0 → c ∉ s_modifiers → s32 cc = cc → conv fl c args = Some (t, l) →
  wp (sendfunc t) (λ _ d, Q (idle_state d l (s32 (cc + Z.of_nat (length t))))) d →
  wp (__pf_send sendfunc numbuf c) (λ _, Q) (pct_state fl z d args cc).
Proof.
  intros Hz H0 Hm Hcc Hconv Hs. unfold __pf_send. rewrite (proj2 (Z.eqb_neq c 0)) by done. apply wp_kassert; [done|]. apply wp_get.
  cbn [in_pct pct_state negb andb]. rewrite (bool_decide_eq_false_2 _ Hm). unfold conv in Hconv. rewrite Hz in Hconv. cbn [mbind option_bind] in Hconv.
  case_bool_decide as Hi.
  - destruct (arg_num fl c args) as [[[neg n] l']|] eqn:Ea; [|done]. cbn [mbind option_bind] in Hconv.
    destruct (field fl _ _ _) as [t'|] eqn:Ef; [|done]. injection Hconv as -> ->.
    destruct (arg_num_run fl c z d args cc neg n l Hi Hz Ea) as [E1 Hn]. eapply wp_run; [exact E1|]. 
    eapply wp_run; [by apply setbase_run|]. apply wp_bind, printnum_wp.
    + cbv zeta. destruct (_ || _); apply base_of_cases.
    + cbv zeta. by destruct (_ || _).
    + cbv zeta. cbn [altformat set_num pct_state]. destruct (fl_alt fl || (c =? c_p)) eqn:Ealt;
        apply (wp_bind_inv _ (λ _, __pf_endfield)); by apply (field_wp fl _ _ _ _ t).
  - destruct (Z.eqb_spec c c_s) as [->|Hcs].
    + destruct args as [|[w|w|o] args]; try done. destruct (field fl _ _ _) as [t'|] eqn:Ef; [|done]. injection Hconv as -> ->.
      eapply wp_run; [done|]. by apply (field_wp fl _ _ _ _ t).
    + destruct (Z.eqb_spec c c_c) as [->|Hcc'].
      * destruct args as [|[w|w|o] args]; try done. destruct (field fl _ _ _) as [t'|] eqn:Ef; [|done]. injection Hconv as -> ->.
        eapply wp_run; [done|]. cbn [text_of]. destruct (w mod 256 =? 0); apply wp_bind, wp_ret; by apply (field_wp fl _ _ _ _ t).
      * destruct (field fl _ _ _) as [t'|] eqn:Ef; [|done]. injection Hconv as -> ->.
        apply wp_bind, wp_ret. cbn [text_of]. rewrite (proj2 (Z.eqb_neq c 0)) by done. apply wp_bind, wp_ret. by apply (field_wp fl _ _ _ _ t).
Qed.

(** The state that goes with a position in the format. *)
Definition at_pos (pct : option (list Z)) (d : D) (args : list varg) (cc : Z) (s : PF) : Prop :=
  match pct with
  | None => s = idle_state d args cc
  | Some fl => ∃ z, fl_size fl = Some z ∧ s = pct_state fl z d args cc
  end.

Lemma send_all_wp format pct args out d cc s (Q : D → Prop) :
  render pct format args = Some out → at_pos pct d args cc s → s32 cc = cc → wp (sendfunc out) (λ _, Q) d →
  wp (send_all sendfunc numbuf format) (λ _ s', Q s'.(clientdata) ∧ s'.(charcount) = s32 (cc + Z.of_nat (length out))) s.
Proof.
  revert pct args out d cc s. induction format as [|c format IH]; intros pct args out d cc s Hr Hp Hcc Hs; cbn [render send_all] in *.
  - injection Hr as <-. apply wp_ret. unfold wp in Hs. rewrite send_nil in Hs. rewrite Z.add_0_r, Hcc. destruct pct; [destruct Hp as (z & _ & ->)|rewrite Hp]; done.
  - destruct (Z.eqb_spec c 0); [done|]. destruct pct as [fl|].
    + destruct Hp as (z & Hz & ->). case_bool_decide as Hm.
      * destruct (fl_size (fl ++ [c])) as [z'|] eqn:Hz'; [|done]. cbn [mbind option_bind] in Hr.
        destruct (Z.leb_spec (fl_width (fl ++ [c])) INT_MAX); [|done]. destruct (modifier_run fl c z' d args cc Hm Hz') as (z0 & E0 & E); [done|].
        assert (z0 = z) as -> by congruence. eapply wp_run; [|eapply IH; [exact Hr|by exists z'|done|exact Hs]].
        unfold __pf_send. rewrite (proj2 (Z.eqb_neq c 0)) by done. mrun. rewrite get_bind. cbn [in_pct pct_state negb andb]. by rewrite bool_decide_eq_true_2.
      * destruct (conv fl c args) as [[t l]|] eqn:Hconv; [|done]. cbn [mbind option_bind fst snd] in Hr.
        destruct (render None format l) as [out'|] eqn:Hr'; [|done]. injection Hr as <-. apply wp_send_app in Hs.
        apply wp_bind, (conv_wp fl c z d args cc t l); try done. eapply wp_mono; [|exact Hs]. intros ? d' Hs'.
        eapply wp_mono; [|eapply (IH None l out' d'); [done|done|unfold s32; lia|exact Hs']]. intros ? s' [HQ Hn]. split; [done|].
        rewrite Hn, s32_s32_add, length_app, Nat2Z.inj_add, Z.add_assoc. done.
    + cbn in Hp. subst s. destruct (Z.eqb_spec c c_pct) as [->|Hpct].
      * eapply wp_run; [done|]. apply (IH (Some []) args out d cc); try done. by exists INTSZ.
      * destruct (render None format args) as [out'|] eqn:Hr'; [|done]. injection Hr as <-. change (c :: out') with ([c] ++ out') in *. apply wp_send_app in Hs.
        unfold __pf_send. rewrite (proj2 (Z.eqb_neq c 0)) by done. apply wp_bind, wp_kassert; [done|]. apply wp_get. cbn [in_pct idle_state negb andb].
        rewrite (proj2 (Z.eqb_neq c c_pct)) by done. apply (emits_print c_space); [done|done|]. eapply wp_mono; [|exact Hs]. intros ? d' Hs'.
        eapply wp_mono; [|eapply (IH None args out' d'); [done|done|cbn; unfold s32; lia|exact Hs']]. intros ? s' [HQ Hn]. split; [done|].
        rewrite Hn, length_app, Nat2Z.inj_add, Z.add_assoc. apply s32_s32_add.
Qed.

Lemma vprintf_wp format args out d (Q : D → Prop) :
  render None format args = Some out → wp (sendfunc out) (λ _, Q) d →
  wp (__vprintf sendfunc numbuf format args) (λ n d', n = s32 (Z.of_nat (length out)) ∧ Q d') d.
Proof.
  intros Hr Hs. pose proof (send_all_wp format None args out d 0 (idle_state d args 0) Q Hr eq_refl eq_refl Hs) as H.
  destruct (wp_inv _ _ _ H) as ([] & s & E & HQ & Hn). unfold wp, __vprintf.
  erewrite bind_Ret by reflexivity. change (Pf _ _ _ _ _ _ _ _ _ _ _ _ _) with (idle_state d args 0). rewrite (bind_Ret _ _ _ _ _ E). done.
Qed.

(** C39. [printf] sends exactly the text that its format and arguments stand for, to
    whatever function it is given that takes text in pieces, and returns the number
    of characters: literal text as it is, every conversion with its sign, prefix,
    digits and padding.  The buffer of 23 bytes is large enough for every number of
    64 bits in every base.
    The text is that of the manual page, [manual], for formats without the conversion
    %X and for texts without the character 0.  In general it is that of [render]: the
    uppercase hexadecimal %X that the manual page describes does not exist, it prints
    the letter X and takes no argument, as every character that is no conversion
    prints itself, and %c prints nothing for the character 0. *)
Theorem printf_renders (format : list Z) (args : list varg) (out : list Z) (d d' : D) :
  manual None format args = Some out ∧ asks_upper false format = false ∧ 0 ∉ out ∨ render None format args = Some out →
  sendfunc out d = Ret tt d' →
  __vprintf sendfunc numbuf format args d = Ret (s32 (Z.of_nat (length out))) d'.
Proof.
  intros Hr' Hs. assert (render None format args = Some out) as Hr by (destruct Hr' as [(H1 & H2 & H3)|]; [by apply manual_render|done]).
  destruct (wp_inv _ _ _ (vprintf_wp format args out d (λ x, x = d') Hr ltac:(unfold wp; by rewrite Hs))) as (n & x & E & -> & ->). done.
Qed.
End proofs.

(** ** Sending to the console *)

(** The client data is what has been handed to [putch]. *)
Definition console_send (data : list Z) : M (list Z) unit := modify (λ out, out ++ data).

#[global] Instance console_laws : SendLaws console_send.
Proof. split; intros; unfold console_send, modify, mbind, M_bind; by rewrite ?app_nil_r, ?app_assoc. Qed.

(** The buffer of 23 bytes before it is used. *)
Definition junk : list Z := replicate 23 165.

Lemma printf_renders_witness :
  __vprintf console_send junk [97; 37; 45; 53; 120; 37; 115; 10] [VWord 255; VStr (Some [111; 107])] [] = Ret 9 [97; 102; 102; 32; 32; 32; 111; 107; 10].
Proof. apply (printf_renders console_send junk eq_refl [97; 37; 45; 53; 120; 37; 115; 10] [VWord 255; VStr (Some [111; 107])] [97; 102; 102; 32; 32; 32; 111; 107; 10]); [|done]. left. split; [done|]. split; [done|]. by apply (bool_decide_unpack _). Defined.

(** [printf("%X", 255)]: the manual page promises "FF", the code prints "X". *)
Lemma upper_hex_prints_the_letter :
  manual None [c_pct; c_X] [VWord 255] = Some [70; 70] ∧ __vprintf console_send junk [c_pct; c_X] [VWord 255] [] = Ret 1 [c_X].
Proof. by vm_compute. Qed.

(** A number that is padded on the right with the character 0 reads as another
    number: 5 in the format [%-05d]. *)
Lemma left_zero_padding : __vprintf console_send junk [37; 45; 48; 53; 100] [VWord 5] [] = Ret 5 [53; 48; 48; 48; 48].
Proof. done. Qed.

(** ** Printing into a buffer *)

(** [struct SNP]: memory stands for what [buf] points into. *)
Record SNP := Snp { snp_mem : mem; bufpos : Z }.

Section snprintf.
Context (numbuf : list Z) (buf buflen : Z).

Fixpoint __snprintf_send (data : list Z) : M SNP unit :=
  match data with
  | [] => mret tt
  | c :: data =>
      s ← get;
      (if s.(bufpos) <? buflen then
         m ← of_opt (zupd s.(snp_mem) (buf + s.(bufpos)) c);
         modify (λ _, Snp m (s.(bufpos) + 1))
       else mret tt);;
      __snprintf_send data
  end.

#[global] Instance snprintf_laws : SendLaws __snprintf_send.
Proof.
  split; [done|]. intros a. induction a as [|c a IH]; intros b d; [done|]. cbn [app __snprintf_send].
  rewrite get_bind, bind_assoc, get_bind, bind_assoc. apply bind_ext. intros _ d'. apply IH.
Qed.

Hypothesis Hbuf : 0 ≤ buf ∧ 0 ≤ buflen.

(** What is sent is stored as far as there is room. *)
Lemma snprintf_send_run data m pos :
  0 ≤ pos ≤ buflen → buf + buflen ≤ Z.of_nat (length m) →
  __snprintf_send data (Snp m pos) =
    Ret tt (Snp (list_inserts (Z.to_nat (buf + pos)) (take (Z.to_nat (buflen - pos)) data) m) (Z.min buflen (pos + Z.of_nat (length data)))).
Proof.
  revert m pos. induction data as [|c data IH]; intros m pos Hp Hm; cbn [__snprintf_send].
  - rewrite take_nil. simpl. f_equal. f_equal. lia.
  - rewrite get_bind. cbn [bufpos snp_mem]. destruct (Z.ltb_spec pos buflen).
    + rewrite zupd_Some by lia. unfold mbind at 1 2, M_bind, of_opt, mret, M_ret, modify. rewrite IH by (rewrite ?length_insert; lia).
      replace (Z.to_nat (buflen - pos)) with (S (Z.to_nat (buflen - (pos + 1)))) by lia. cbn [take list_inserts].
      replace (Z.to_nat (buf + (pos + 1))) with (S (Z.to_nat (buf + pos))) by lia. rewrite list_insert_inserts_lt by lia. do 2 f_equal. simpl. lia.
    + erewrite bind_Ret by reflexivity. rewrite IH by lia. replace (Z.to_nat (buflen - pos)) with 0%nat by lia. cbn [take list_inserts]. do 2 f_equal. simpl. lia.
Qed.
End snprintf.

(** Writing a list of bytes into memory. *)
Lemma inserts_outside (m : mem) buf l n :
  0 ≤ buf → Z.of_nat (length l) ≤ n → same_outside m (list_inserts (Z.to_nat buf) l m) buf (buf + n).
Proof.
  intros Hb Hl. split; [apply length_inserts|]. intros a Ha. unfold zlookup. destruct (Z.leb_spec 0 a); [|done].
  destruct (Z.lt_ge_cases a buf); [apply list_lookup_inserts_lt|apply list_lookup_inserts_ge]; lia.
Qed.

Lemma inserts_cstr (m : mem) buf t :
  0 ≤ buf → buf + Z.of_nat (length t) < Z.of_nat (length m) → Forall (λ c, 0 < c < 256) t → cstr (list_inserts (Z.to_nat buf) (t ++ [0]) m) buf t.
Proof.
  intros Hb Hl Hc. rewrite <- (app_nil_r t) at 2. apply cstr_app. unfold cstr, zlookup. split.
  - intros i c Hi. pose proof (lookup_lt_Some _ _ _ Hi). zdecide. rewrite list_lookup_inserts by (rewrite ?length_app; simpl; lia).
    replace (Z.to_nat (buf + Z.of_nat i) - Z.to_nat buf)%nat with i by lia. rewrite lookup_app_l by done. split; [done|]. by eapply Forall_lookup_1 in Hc.
  - zdecide. rewrite list_lookup_inserts by (rewrite ?length_app; simpl; lia).
    replace (Z.to_nat (buf + Z.of_nat (length t)) - Z.to_nat buf)%nat with (length t) by lia. by apply list_lookup_middle.
Qed.

Section vsnprintf.
Context (numbuf : list Z).

Definition vsnprintf (buf len : Z) (fmt : list Z) (args : list varg) : M mem Z := λ m,
  let buflen := if len =? 0 then 0 else len - 1 in
  match __vprintf (__snprintf_send buf buflen) numbuf fmt args (Snp m 0) with
  | Ret chars s => (when (len >? 0) (st (buf + s.(bufpos)) 0);; mret chars) s.(snp_mem)
  | Panic s => Panic s.(snp_mem)
  | Fault => Fault
  | Diverge => Diverge
  end.
Definition snprintf : Z → Z → list Z → list varg → M mem Z := vsnprintf.

Hypothesis Hbuf : Z.of_nat (length numbuf) = NUMBER_BUF_SIZE.

Lemma snprintf_run m buf len fmt args out :
  0 ≤ buf → 0 ≤ len → buf + len ≤ Z.of_nat (length m) → render None fmt args = Some out →
  snprintf buf len fmt args m =
    Ret (s32 (Z.of_nat (length out))) (if len =? 0 then m else list_inserts (Z.to_nat buf) (take (Z.to_nat (len - 1)) out ++ [0]) m).
Proof.
  intros Hb Hl Hm Hr. unfold snprintf, vsnprintf. set (buflen := if len =? 0 then 0 else len - 1).
  assert (0 ≤ buflen ∧ buf + buflen ≤ Z.of_nat (length m)) as [Hbl Hbm] by (unfold buflen; destruct (Z.eqb_spec len 0); lia).
  assert (wp (__snprintf_send buf buflen out) (λ _ s, s = Snp (list_inserts (Z.to_nat buf) (take (Z.to_nat buflen) out) m)
    (Z.min buflen (Z.of_nat (length out)))) (Snp m 0)) as Hw.
  { unfold wp. rewrite snprintf_send_run by lia. by rewrite Z.add_0_r, Z.sub_0_r. }
  destruct (wp_inv _ _ _ (vprintf_wp _ numbuf Hbuf fmt args out (Snp m 0) _ Hr Hw)) as (n & s & -> & -> & ->).
  unfold buflen. cbn [bufpos snp_mem]. destruct (Z.eqb_spec len 0) as [->|].
  - simpl. replace (Z.to_nat 0) with 0%nat by done. done.
  - rewrite (proj2 (Z.gtb_lt len 0)) by lia. cbn [when]. unfold st. rewrite bind_assoc, get_bind.
    rewrite zupd_Some by (rewrite length_inserts; lia). erewrite bind_Ret by (by erewrite bind_Ret). unfold mret, M_ret. f_equal.
    rewrite list_inserts_app_l, length_take. cbn [list_inserts]. f_equal. lia.
Qed.

(** C40. [snprintf] writes at most the number of bytes it is given room for, and
    nothing outside them: as much of the text as fits, cut off, and a terminator
    after it (with no room at all, nothing).  It returns the length of the whole
    text, so that a result below the size of the buffer means that nothing was cut
    off. *)
Theorem snprintf_bounded m buf len fmt args out :
  0 ≤ buf → 0 < len → buf + len ≤ Z.of_nat (length m) → Forall (λ c, 0 < c < 256) out → render None fmt args = Some out →
  snprintf buf 0 fmt args m = Ret (s32 (Z.of_nat (length out))) m ∧
  ∃ m', snprintf buf len fmt args m = Ret (s32 (Z.of_nat (length out))) m' ∧ same_outside m m' buf (buf + len) ∧
    cstr m' buf (take (Z.to_nat (len - 1)) out).
Proof.
  intros Hb Hl Hm Hc Hr. split; [by rewrite (snprintf_run m buf 0 fmt args out) by (done || lia)|].
  eexists. split; [by apply (snprintf_run m buf len fmt args out); (done || lia)|]. rewrite (proj2 (Z.eqb_neq len 0)) by lia.
  set (t := take (Z.to_nat (len - 1)) out). assert (Z.of_nat (length t) < len) as Ht by (unfold t; rewrite length_take; lia).
  split; [by apply inserts_outside; rewrite ?length_app; simpl; lia|apply inserts_cstr; [lia..|by apply Forall_take]].
Qed.
End vsnprintf.

(** [snprintf(buf, 4, "%d", 12345)] leaves "123". *)
Lemma snprintf_bounded_witness :
  ∃ m', snprintf junk 1 4 [37; 100] [VWord 12345] [9; 9; 9; 9; 9; 9] = Ret 5 m' ∧ same_outside [9; 9; 9; 9; 9; 9] m' 1 5 ∧ cstr m' 1 [49; 50; 51].
Proof.
  apply (snprintf_bounded junk eq_refl [9; 9; 9; 9; 9; 9] 1 4 [37; 100] [VWord 12345] [49; 50; 51; 52; 53]); [lia|lia|simpl; lia|repeat constructor|done].
Defined.

(** ** Printing a number and reading it back *)

Lemma digs_10 k n : 0 ≤ n < 10 ^ Z.of_nat k → Forall isdigit (digs k 10 n) ∧ (k ≠ 0%nat → digs k 10 n ≠ []) ∧ dval (digs k 10 n) = n.
Proof.
  revert n. induction k as [|k IH]; intros n Hn; [change (10 ^ Z.of_nat 0) with 1 in Hn; split_and!; [done..|change (dval (digs 0 10 n)) with 0; lia]|].
  assert (isdigit (digit_char (n mod 10)) ∧ digit_char (n mod 10) - 48 = n mod 10) as [Hd Hv].
  { pose proof (Z.mod_pos_bound n 10). assert (∃ i : nat, n mod 10 = Z.of_nat i ∧ (i < 10)%nat) as (i & -> & Hi) by (exists (Z.to_nat (n mod 10)); lia).
    do 10 (destruct i as [|i]; [split; [split; by vm_compute|done]|]). lia. }
  rewrite Nat2Z.inj_succ, Z.pow_succ_r in Hn by lia. cbn [digs]. destruct (Z.ltb_spec n 10).
  - split_and!; [by apply Forall_singleton|done|]. rewrite dval_snoc, Hv. change (dval []) with 0. rewrite Z.mod_small by lia. lia.
  - destruct (IH (n / 10)) as (H1 & _ & H3); [lia|]. split_and!; [apply Forall_app; split; [done|by apply Forall_singleton]|by destruct (digs k 10 (n / 10))|].
    rewrite dval_snoc, Hv, H3. lia.
Qed.

Lemma dval_zeros k ds : dval (replicate k 48 ++ ds) = dval ds.
Proof. unfold dval. rewrite foldl_app. f_equal. induction k; [done|]. exact IHk. Qed.

(** Modifiers that make sense as a whole make sense one by one. *)
Lemma fl_prefix fl c : c ∈ s_modifiers → is_Some (fl_size (fl ++ [c])) → is_Some (fl_size fl) ∧ fl_width fl ≤ fl_width (fl ++ [c]).
Proof.
  intros Hc [z Hz]. split.
  - destruct (decide (c = c_l)) as [->|]; [destruct (fl_size_l _ _ Hz) as [[-> _]|[-> _]]; done|]. rewrite fl_size_other in Hz by done. by rewrite Hz.
  - destruct (decide (isdigit c)) as [Hd|Hd]; [|rewrite (proj1 (fl_other fl c Hd)); lia].
    rewrite (proj1 (fl_digit fl c Hd)). unfold isdigit in Hd. pose proof (fl_width_nonneg fl). lia.
Qed.

Lemma render_flags fl0 fl rest args :
  Forall (.∈ s_modifiers) fl → is_Some (fl_size (fl0 ++ fl)) → fl_width (fl0 ++ fl) ≤ INT_MAX →
  render (Some fl0) (fl ++ rest) args = render (Some (fl0 ++ fl)) rest args.
Proof.
  revert rest. induction fl as [|c fl IH] using rev_ind; intros rest Hf Hz Hw; [by rewrite app_nil_r|].
  apply Forall_app in Hf as [Hf [Hc _]%Forall_cons]. rewrite app_assoc in Hz, Hw |- *. destruct (fl_prefix _ _ Hc Hz) as [Hz' Hle].
  rewrite <- app_assoc, IH by (done || lia). cbn [app render]. destruct (Z.eqb_spec c 0) as [->|]; [unfold s_modifiers in Hc; rewrite !elem_of_cons in Hc; destruct_or! Hc; try done; by apply elem_of_nil in Hc|].
  rewrite bool_decide_eq_true_2 by done. destruct Hz as [z ->]. cbn [mbind option_bind]. by rewrite (proj2 (Z.leb_le _ _)).
Qed.

(** The text of a number, as white space, a sign, digits and more white space. *)
Lemma pad_decimal w (neg : bool) (left : bool) fill n :
  0 ≤ n < 10 ^ 64 → (left = true → fill ≠ c_0) → fill = c_0 ∨ fill = c_space → ∃ sp ds rest,
  pad_field w left fill (if neg then [c_minus] else []) [] (digs 64 10 n) = sp ++ (if neg then [45] else []) ++ ds ++ rest ∧
  Forall (λ c, c = 32 ∨ c = 9) sp ∧ Forall isdigit ds ∧ ds ≠ [] ∧ Forall (λ c, c = 32) rest ∧ dval ds = n.
Proof.
  intros Hn Hl Hf. destruct (digs_10 64 n Hn) as (D1 & D2 & D3). specialize (D2 ltac:(done)). unfold pad_field. set (k := Z.to_nat _). clearbody k.
  set (g := digs 64 10 n) in *. clearbody g. destruct left.
  - destruct Hf as [->| ->]; [by destruct Hl|]. exists [], g, (replicate k c_space). split_and!; try done. by apply Forall_replicate.
  - destruct Hf as [->| ->]; cbn.
    + exists [], (replicate k 48 ++ g), []. rewrite app_nil_r. split_and!; try done; [|by destruct k|by rewrite dval_zeros].
      apply Forall_app. split; [|done]. apply Forall_replicate. unfold isdigit. lia.
    + exists (replicate k 32), g, []. rewrite app_nil_r. split_and!; try done. apply Forall_replicate. by left.
Qed.

Lemma length_digs j k b n : 2 ≤ b → 0 ≤ n < b ^ Z.of_nat (S j) → (length (digs k b n) ≤ S j)%nat.
Proof.
  intros Hb. revert j n. induction k as [|k IH]; intros j n Hn; cbn [digs]; [simpl; lia|]. rewrite length_app. simpl.
  destruct (Z.ltb_spec n b); [simpl; lia|]. destruct j as [|j]; [change (Z.of_nat 1) with 1 in Hn; rewrite Z.pow_1_r in Hn; lia|].
  specialize (IH j (n / b)). enough (length (digs k b (n / b)) ≤ S j)%nat by lia. apply IH. split; [apply Z.div_pos; lia|].
  apply Z.div_lt_upper_bound; [lia|]. rewrite <- Z.pow_succ_r by lia. rewrite <- Nat2Z.inj_succ. apply Hn.
Qed.

Lemma length_pad_field w left fill sgn pre txt :
  Z.of_nat (length (pad_field w left fill sgn pre txt)) = Z.max w (Z.of_nat (length (sgn ++ pre ++ txt))).
Proof. unfold pad_field. destruct left, (fill =? c_0); rewrite !length_app, !length_replicate; lia. Qed.

(** The text of [%d] with modifiers. *)
Lemma render_d fl n :
  Forall (.∈ s_modifiers) fl → fl_size fl = Some INTSZ ∨ fl_size fl = Some LONGSZ → fl_width fl ≤ INT_MAX → - 2147483648 ≤ n < 2147483648 →
  render None (c_pct :: fl ++ [c_d]) [VWord (u32 n)] =
    Some (pad_field (fl_width fl) (fl_left fl) (fl_fill fl) (if n <? 0 then [c_minus] else []) [] (digs 64 10 (Z.abs n))).
Proof.
  intros Hf Hz Hw Hn. change (render None (c_pct :: fl ++ [c_d]) [VWord (u32 n)]) with (render (Some []) (fl ++ [c_d]) [VWord (u32 n)]).
  assert (s32 (u32 n) = n) as En by (unfold s32, u32; lia).
  rewrite (render_flags [] fl [c_d]) by (done || (cbn [app]; by destruct Hz as [-> | ->])). cbn [app render]. change (c_d =? 0) with false. cbv iota.
  change (bool_decide (c_d ∈ s_modifiers)) with false. cbv iota. unfold conv.
  assert (arg_num fl c_d [VWord (u32 n)] = Some (n <? 0, Z.abs n, [])) as Ea.
  { unfold arg_num. change (c_d =? c_p) with false. cbv iota. destruct Hz as [-> | ->]; cbn [mbind option_bind]; change (c_d =? c_d) with true; by rewrite En. }
  rewrite Ea. change (bool_decide (c_d ∈ s_inttypes)) with true. cbv iota.
  assert (is_Some (fl_size fl)) as [z ->] by (destruct Hz as [-> | ->]; done). cbn [mbind option_bind]. change (base_of c_d) with 10. change (base_prefix 10) with (@nil Z).
  replace (if fl_alt fl || (c_d =? c_p) then [] else []) with (@nil Z) by (by destruct (_ || _)). unfold field. assert (length (digs 64 10 (Z.abs n)) ≤ 10)%nat as Hl by (apply (length_digs 9); [done|change (10 ^ Z.of_nat 10) with 10000000000; lia]).
  set (g := digs 64 10 (Z.abs n)) in *. clearbody g.
  rewrite (proj2 (Z.leb_le (fl_width fl) INT_MAX)), (proj2 (Z.leb_le _ INT_MAX)); [cbn [andb mbind option_bind]; by rewrite app_nil_r| |done].
  rewrite !length_app. unfold INT_MAX. destruct (n <? 0); simpl length; lia.
Qed.

(** A number printed in decimal reads back as itself: for every [int], and every
    combination of modifiers other than padding with 0 on the right, [atoi] of
    what [snprintf] has left in a buffer that is large enough is that number. *)
Theorem print_then_atoi numbuf m dg buf len fl n :
  Z.of_nat (length numbuf) = NUMBER_BUF_SIZE →
  cstr m dg ten_digits → 0 ≤ buf → buf + len ≤ Z.of_nat (length m) → dg + 10 < buf ∨ buf + len ≤ dg →
  Forall (.∈ s_modifiers) fl → fl_size fl = Some INTSZ ∨ fl_size fl = Some LONGSZ → fl_width fl ≤ INT_MAX → (fl_left fl = true → fl_fill fl ≠ c_0) →
  - 2147483648 ≤ n < 2147483648 → 11 < len → fl_width fl < len →
  ∃ chars m', snprintf numbuf buf len (c_pct :: fl ++ [c_d]) [VWord (u32 n)] m = Ret chars m' ∧ atoi dg buf m' = Ret n m'.
Proof.
  intros Hnb Hd Hb Hm Hdis Hf Hz Hw Hl Hn Hlen Hwl. pose proof (render_d fl n Hf Hz Hw Hn) as Hr. set (out := pad_field _ _ _ _ _ _) in Hr.
  eexists _, _. split; [by apply (snprintf_run numbuf Hnb m buf len _ _ out); (done || lia)|]. rewrite (proj2 (Z.eqb_neq len 0)) by lia.
  assert (Z.of_nat (length out) < len) as Hol.
  { unfold out. rewrite length_pad_field, !length_app.
    assert (length (digs 64 10 (Z.abs n)) ≤ 10)%nat as H9 by (apply (length_digs 9); [done|change (10 ^ Z.of_nat 10) with 10000000000; lia]).
    destruct (n <? 0); cbn [length]; lia. }
  rewrite take_ge by lia. set (m' := list_inserts _ _ m).
  destruct (pad_decimal (fl_width fl) (n <? 0) (fl_left fl) (fl_fill fl) (Z.abs n)) as (sp & ds & rest & E & H1 & H2 & H3 & H4 & H5);
    [lia|done|unfold fl_fill; case_bool_decide; [by left|by right]|]. fold out in E.
  assert (Forall (λ c, 0 < c < 256) out) as Hrange.
  { rewrite E. assert (∀ P l, Forall P l → (∀ c, P c → 0 < c < 256) → Forall (λ c, 0 < c < 256) l) as Hi by (intros; by eapply Forall_impl).
    rewrite !Forall_app. split_and!; [eapply Hi; [exact H1|simpl; lia]|destruct (n <? 0); by repeat constructor|eapply Hi; [exact H2|unfold isdigit; lia]|eapply Hi; [exact H4|simpl; lia]]. }
  rewrite (atoi_ok m' dg buf sp (n <? 0) ds rest).
  - f_equal. rewrite H5. unfold s32. destruct (Z.ltb_spec n 0); lia.
  - eapply cstr_ext; [|exact Hd]. intros a Ha. apply (inserts_outside m buf _ len); [done|rewrite length_app; simpl; lia|]. simpl in Ha. lia.
  - rewrite <- E. apply inserts_cstr; [done|lia|done].
  - done.
  - done.
  - done.
  - intros c Hc. destruct H4 as [|x rest -> _]; [done|]. injection Hc as <-. unfold isdigit. lia.
Qed.

(** -42 in the format [%06d]. *)
Lemma print_then_atoi_witness :
  ∃ chars m', snprintf junk 11 12 [37; 48; 54; 100] [VWord 4294967254] (ten_digits ++ replicate 13 0) = Ret chars m' ∧ atoi 0 11 m' = Ret (-42) m'.
Proof.
  apply (print_then_atoi junk (ten_digits ++ replicate 13 0) 0 11 12 [48; 54] (-42)); try done; [lia| |by left].
  repeat constructor; unfold s_modifiers; rewrite !elem_of_cons; lia.
Defined.
