(* ===== verification/Klib.v ===== *)
(** * Kernel support routines

    kern/lib/bswap.c (byte order, 64-bit values in two words) and the sequence of
    [panic] in kern/lib/kprintf.c.

    [bswap_bytes]: the 16- and 32-bit swaps reverse the bytes, and what the 64-bit
    one does instead.  [panic_ladder]: whatever goes wrong inside [panic], each of
    its stages is tried once and in order. *)

From Stdlib Require Import ZArith Lia.
From stdpp Require Import base numbers list.
From S2P Require Import Prelude Millicode.

(** ** Byte order *)

Definition bswap16 (val : Z) : Z :=
  Z.lor (Z.shiftl (Z.land val 0x00ff) 8) (Z.shiftr (Z.land val 0xff00) 8) mod 65536.

Definition bswap32 (val : Z) : Z :=
  Z.lor (Z.lor (Z.lor
    (u32 (Z.shiftl (Z.land val 0x000000ff) 24))
    (u32 (Z.shiftl (Z.land val 0x0000ff00) 8)))
    (Z.shiftr (Z.land val 0x00ff0000) 8))
    (Z.shiftr (Z.land val 0xff000000) 24).

Definition bswap64 (val : Z) : Z :=
  Z.lor (Z.lor (Z.lor (Z.lor (Z.lor (Z.lor (Z.lor
    (u64 (Z.shiftl (Z.land val 0x00000000000000ff) 56))
    (u64 (Z.shiftl (Z.land val 0x000000000000ff00) 40)))
    (u64 (Z.shiftl (Z.land val 0x0000000000ff0000) 24)))
    (u64 (Z.shiftl (Z.land val 0x00000000ff000000) 8)))
    (u64 (Z.shiftl (Z.land val 0x000000ff00000000) 8)))
    (u64 (Z.shiftl (Z.land val 0x0000ff0000000000) 24)))
    (Z.shiftr (Z.land val 0x00ff000000000000) 40))
    (Z.shiftr (Z.land val 0xff00000000000000) 56).

(** The machine is big-endian. *)
Definition ntohl (val : Z) : Z := val.
Definition htonl (val : Z) : Z := val.

Definition join32to64 (x1 x2 : Z) : Z := Z.lor (u64 (Z.shiftl x1 32)) x2.
Definition split64to32 (x : Z) : Z * Z := (u32 (Z.shiftr x 32), u32 (Z.land x 0xffffffff)).

(** The number whose bytes are [l], the most significant first. *)
Definition be (l : list Z) : Z := foldl (λ v b, v * 256 + b) 0 l.

Definition byte (b : Z) : Prop := 0 ≤ b < 256.

(** A byte of a number, masked out. *)
Lemma land_byte v k : 0 ≤ k → Z.land v (255 * 2 ^ k) = v / 2 ^ k mod 256 * 2 ^ k.
Proof.
  intros Hk. replace (255 * 2 ^ k) with (Z.shiftl (Z.ones 8) k) by (by rewrite Z.shiftl_mul_pow2).
  rewrite <- Z.shiftl_mul_pow2, <- Z.shiftr_div_pow2 by done. change 256 with (2 ^ 8). rewrite <- Z.land_ones by done.
  apply Z.bits_inj'. intros i Hi. rewrite Z.land_spec, !Z.shiftl_spec, Z.land_spec by done.
  destruct (Z.lt_ge_cases i k); [rewrite !(Z.testbit_neg_r _ (i - k)) by lia; by rewrite !andb_false_r|].
  rewrite Z.shiftr_spec by lia. by replace (i - k + k) with i by lia.
Qed.

(** The byte at [k], moved up or down to [j]. *)
Lemma byte_up v k j : 0 ≤ k → 0 ≤ j → Z.shiftl (Z.land v (255 * 2 ^ k)) j = v / 2 ^ k mod 256 * 2 ^ (k + j).
Proof. intros. rewrite land_byte, Z.shiftl_mul_pow2, Z.pow_add_r by lia. ring. Qed.

Lemma byte_down v k j : 0 ≤ j ≤ k → Z.shiftr (Z.land v (255 * 2 ^ k)) j = v / 2 ^ k mod 256 * 2 ^ (k - j).
Proof.
  intros. rewrite land_byte, Z.shiftr_div_pow2 by lia. replace (2 ^ k) with (2 ^ (k - j) * 2 ^ j) at 2 by (rewrite <- Z.pow_add_r by lia; f_equal; lia).
  rewrite Z.mul_assoc. apply Z.div_mul. lia.
Qed.

Lemma be_16 a b : byte a → byte b → bswap16 (be [a; b]) = be [b; a].
Proof.
  unfold byte, be. cbn [foldl]. intros Ha Hb. set (v := (0 * 256 + a) * 256 + b). unfold bswap16.
  change 0x00ff with (255 * 2 ^ 0). change 0xff00 with (255 * 2 ^ 8). rewrite (byte_up v 0 8), (byte_down v 8 8) by lia. change (2 ^ (0 + 8)) with (2 ^ 8). rewrite lor_low by lia. unfold v. lia.
Qed.

Lemma be_32 a b c d : byte a → byte b → byte c → byte d → bswap32 (be [a; b; c; d]) = be [d; c; b; a].
Proof.
  unfold byte, be. cbn [foldl]. intros Ha Hb Hc Hd. set (v := (((0 * 256 + a) * 256 + b) * 256 + c) * 256 + d). unfold bswap32.
  change 0x000000ff with (255 * 2 ^ 0). change 0x0000ff00 with (255 * 2 ^ 8). change 0x00ff0000 with (255 * 2 ^ 16). change 0xff000000 with (255 * 2 ^ 24).
  rewrite (byte_up v 0 24), (byte_up v 8 8), (byte_down v 16 8), (byte_down v 24 24) by lia.
  assert (v / 2 ^ 0 mod 256 = d) as -> by (unfold v; lia). assert (v / 2 ^ 8 mod 256 = c) as -> by (unfold v; lia).
  assert (v / 2 ^ 16 mod 256 = b) as -> by (unfold v; lia). assert (v / 2 ^ 24 mod 256 = a) as -> by (unfold v; lia).
  unfold u32. rewrite !Z.mod_small by lia.
  change (2 ^ (0 + 24)) with (2 ^ 24). rewrite lor_low by lia.
  replace (d * 2 ^ 24 + c * 2 ^ (8 + 8)) with ((d * 256 + c) * 2 ^ 16) by lia. rewrite lor_low by lia.
  replace ((d * 256 + c) * 2 ^ 16 + b * 2 ^ (16 - 8)) with (((d * 256 + c) * 256 + b) * 2 ^ 8) by lia. rewrite lor_low by lia. lia.
Qed.

Lemma lor_byte a b : byte a → byte b → byte (Z.lor a b).
Proof.
  unfold byte. intros Ha Hb. split; [apply Z.lor_nonneg; lia|]. destruct (Z.eq_dec (Z.lor a b) 0) as [->|]; [lia|].
  apply (Z.log2_lt_pow2 _ 8); [assert (0 ≤ Z.lor a b) by (apply Z.lor_nonneg; lia); lia|]. rewrite Z.log2_lor by lia.
  assert (∀ x, 0 ≤ x < 256 → Z.log2 x < 8) as H by (intros x Hx; destruct (Z.eq_dec x 0) as [->|]; [done|apply Z.log2_lt_pow2; lia]).
  apply Z.max_lub_lt; by apply H.
Qed.

(** Bytes 3 and 4 from the top stay where they are or are lost. *)
Lemma be_64 b7 b6 b5 b4 b3 b2 b1 b0 :
  Forall byte [b7; b6; b5; b4; b3; b2; b1; b0] →
  bswap64 (be [b7; b6; b5; b4; b3; b2; b1; b0]) = be [b0; b1; Z.lor b2 b4; b3; 0; 0; b6; b7].
Proof.
  rewrite !Forall_cons. intros (H7 & H6 & H5 & H4 & H3 & H2 & H1 & H0 & _). pose proof (lor_byte _ _ H2 H4) as Hl. revert H7 H6 H5 H4 H3 H2 H1 H0 Hl.
  unfold byte, be. cbn [foldl]. intros. set (v := (((((((0 * 256 + b7) * 256 + b6) * 256 + b5) * 256 + b4) * 256 + b3) * 256 + b2) * 256 + b1) * 256 + b0). unfold bswap64.
  change 0x00000000000000ff with (255 * 2 ^ 0). change 0x000000000000ff00 with (255 * 2 ^ 8). change 0x0000000000ff0000 with (255 * 2 ^ 16).
  change 0x00000000ff000000 with (255 * 2 ^ 24). change 0x000000ff00000000 with (255 * 2 ^ 32). change 0x0000ff0000000000 with (255 * 2 ^ 40).
  change 0x00ff000000000000 with (255 * 2 ^ 48). change 0xff00000000000000 with (255 * 2 ^ 56).
  rewrite !byte_up, !byte_down by lia.
  assert (v / 2 ^ 0 mod 256 = b0) as -> by (unfold v; lia). assert (v / 2 ^ 8 mod 256 = b1) as -> by (unfold v; lia).
  assert (v / 2 ^ 16 mod 256 = b2) as -> by (unfold v; lia). assert (v / 2 ^ 24 mod 256 = b3) as -> by (unfold v; lia).
  assert (v / 2 ^ 32 mod 256 = b4) as -> by (unfold v; lia). assert (v / 2 ^ 40 mod 256 = b5) as -> by (unfold v; lia).
  assert (v / 2 ^ 48 mod 256 = b6) as -> by (unfold v; lia). assert (v / 2 ^ 56 mod 256 = b7) as -> by (unfold v; lia). clear v.
  replace (u64 (b5 * 2 ^ (40 + 24))) with 0 by (unfold u64, W64; lia). rewrite Z.lor_0_r.
  assert (∀ b k, 0 ≤ b < 256 → 0 ≤ k ≤ 56 → u64 (b * 2 ^ k) = b * 2 ^ k) as Hu.
  { intros b k Hb Hk. unfold u64. apply Z.mod_small. split; [lia|]. change W64 with (256 * 2 ^ 56). pose proof (Z.pow_le_mono_r 2 k 56). nia. }
  rewrite !Hu by lia. clear Hu. set (X := Z.lor (b0 * _) (b1 * _)).
  replace (Z.lor (Z.lor (Z.lor X (b2 * 2 ^ (16 + 24))) (b3 * 2 ^ (24 + 8))) (b4 * 2 ^ (32 + 8))) with (Z.lor (Z.lor X (Z.lor b2 b4 * 2 ^ 40)) (b3 * 2 ^ 32)).
  2:{ rewrite <- !(Z.shiftl_mul_pow2 _ 40) by lia. rewrite Z.shiftl_lor. change (16 + 24) with 40. change (32 + 8) with 40. change (24 + 8) with 32.
      rewrite !Z.shiftl_mul_pow2 by lia. rewrite <- !Z.lor_assoc. f_equal. f_equal. apply Z.lor_comm. }
  subst X. rewrite lor_low by lia. replace (b0 * 2 ^ (0 + 56) + b1 * 2 ^ (8 + 40)) with ((b0 * 256 + b1) * 2 ^ 48) by lia.
  set (l := Z.lor b2 b4) in *. clearbody l.
  rewrite lor_low by lia. replace ((b0 * 256 + b1) * 2 ^ 48 + l * 2 ^ 40) with (((b0 * 256 + b1) * 256 + l) * 2 ^ 40) by lia.
  rewrite lor_low by lia. replace (((b0 * 256 + b1) * 256 + l) * 2 ^ 40 + b3 * 2 ^ 32) with ((((b0 * 256 + b1) * 256 + l) * 256 + b3) * 2 ^ 32) by lia.
  rewrite lor_low by lia. replace ((((b0 * 256 + b1) * 256 + l) * 256 + b3) * 2 ^ 32 + b6 * 2 ^ (48 - 40)) with (((((b0 * 256 + b1) * 256 + l) * 256 + b3) * 2 ^ 24 + b6) * 2 ^ 8) by lia.
  rewrite lor_low by lia. lia.
Qed.

(** The byte swaps of 16 and 32 bits reverse the bytes of a number.  The swap of
    64 bits does not: two of its shifts go the wrong way, so that bytes 4 and 5 from
    the bottom end up over byte 5 or are lost, and two bytes of the result are
    always zero.  Splitting a 64-bit value into words and joining them again give
    the value back. *)
Theorem bswap_bytes b7 b6 b5 b4 b3 b2 b1 b0 :
  Forall byte [b7; b6; b5; b4; b3; b2; b1; b0] →
  bswap16 (be [b1; b0]) = be [b0; b1] ∧
  bswap32 (be [b3; b2; b1; b0]) = be [b0; b1; b2; b3] ∧
  bswap64 (be [b7; b6; b5; b4; b3; b2; b1; b0]) = be [b0; b1; Z.lor b2 b4; b3; 0; 0; b6; b7] ∧
  split64to32 (be [b7; b6; b5; b4; b3; b2; b1; b0]) = (be [b7; b6; b5; b4], be [b3; b2; b1; b0]) ∧
  join32to64 (be [b7; b6; b5; b4]) (be [b3; b2; b1; b0]) = be [b7; b6; b5; b4; b3; b2; b1; b0].
Proof.
  intros H. pose proof H as H'. rewrite !Forall_cons in H'. destruct H' as (H7 & H6 & H5 & H4 & H3 & H2 & H1 & H0 & _).
  split_and!; [by apply be_16|by apply be_32|by apply be_64|..].
  - unfold split64to32. change 0xffffffff with (Z.ones 32). rewrite Z.land_ones, Z.shiftr_div_pow2 by lia. unfold byte, be, u32 in *. cbn [foldl]. f_equal; lia.
  - unfold join32to64. rewrite Z.shiftl_mul_pow2 by lia. unfold byte, be, u64, W64 in *. cbn [foldl] in *. rewrite Z.mod_small by lia. rewrite lor_low by lia. lia.
Qed.

Lemma bswap_bytes_witness : bswap64 (be [1; 2; 3; 4; 5; 6; 7; 8]) = be [8; 7; 6; 5; 0; 0; 2; 1].
Proof. destruct (bswap_bytes 1 2 3 4 5 6 7 8) as (_ & _ & H & _); [by repeat constructor|exact H]. Defined.

(** ** Panics *)

(** The stages of [panic], and what can happen in one: it returns, it calls [panic]
    again, or it never ends. *)
Inductive stage := SSplhigh | SThreads | SMessage | SSync | SMainbus.
Inductive behaviour := Returns | Panics | Hangs.
Inductive ending := Stuck (at_ : stage) | Spinning.

Record pstate := Pstate { evil : Z; tried : list stage }.

Section panic.
Context (beh : stage → behaviour).

(** One guarded stage: [if (evil == e) { evil = e + 1; do it }].  [nested] is the
    call of [panic] from within; [k] is what comes after. *)
Definition panic_stage (e : Z) (st : stage) (nested k : M pstate ending) : M pstate ending :=
  s ← get;
  if s.(evil) =? e then
    modify (λ s, Pstate (e + 1) (s.(tried) ++ [st]));;
    match beh st with Returns => k | Panics => nested | Hangs => mret (Stuck st) end
  else k.

Fixpoint panic_run (fuel : nat) : M pstate ending :=
  match fuel with
  | O => diverge
  | S fuel =>
      let nested := panic_run fuel in
      panic_stage 0 SSplhigh nested
        (panic_stage 1 SThreads nested
          (panic_stage 2 SMessage nested
            (panic_stage 3 SSync nested
              (panic_stage 4 SMainbus nested (mret Spinning)))))
  end.
End panic.

(** What [panic] should try when the stages behave like this. *)
Fixpoint until_hang (beh : stage → behaviour) (l : list stage) : list stage * ending :=
  match l with
  | [] => ([], Spinning)
  | st :: l => if beh st is Hangs then ([st], Stuck st) else let r := until_hang beh l in (st :: r.1, r.2)
  end.

(** A result that is what the stages [l] should give, after the stages [t]. *)
Definition goes (beh : stage → behaviour) (t l : list stage) (o : outcome pstate ending) : Prop :=
  ∃ s, o = Ret (until_hang beh l).2 s ∧ s.(tried) = t ++ (until_hang beh l).1.

Lemma panic_stage_goes beh e st l nested k t :
  goes beh (t ++ [st]) l (nested (Pstate (e + 1) (t ++ [st]))) → goes beh (t ++ [st]) l (k (Pstate (e + 1) (t ++ [st]))) →
  goes beh t (st :: l) (panic_stage beh e st nested k (Pstate e t)).
Proof.
  intros Hn Hk. unfold panic_stage. rewrite get_bind. cbn [evil]. rewrite Z.eqb_refl. mrun. unfold goes in *. cbn [until_hang tried].
  destruct (beh st); [| |by eexists]; cbn [fst snd].
  - destruct Hk as (s & E & H). exists s. by rewrite H, <- app_assoc.
  - destruct Hn as (s & E & H). exists s. by rewrite H, <- app_assoc.
Qed.

(** [panic] cannot recurse without end: whichever of its stages call [panic]
    again, each stage is tried exactly once and in order - interrupts off, other
    threads and processors stopped, the message, the disks, the machine - until one
    never ends or all have been tried.  Six levels are enough. *)
Theorem panic_ladder (beh : stage → behaviour) :
  ∃ s, panic_run beh 6 (Pstate 0 []) = Ret (until_hang beh [SSplhigh; SThreads; SMessage; SSync; SMainbus]).2 s ∧
    s.(tried) = (until_hang beh [SSplhigh; SThreads; SMessage; SSync; SMainbus]).1.
Proof.
  set (r5 := mret Spinning : M pstate ending). set (r4 n := panic_stage beh 4 SMainbus (panic_run beh n) r5).
  set (r3 n := panic_stage beh 3 SSync (panic_run beh n) (r4 n)). set (r2 n := panic_stage beh 2 SMessage (panic_run beh n) (r3 n)).
  set (r1 n := panic_stage beh 1 SThreads (panic_run beh n) (r2 n)).
  assert (∀ t, goes beh t [] (r5 (Pstate 5 t))) as H5 by (intros t; exists (Pstate 5 t); by rewrite app_nil_r).
  assert (∀ n t, goes beh t [SMainbus] (r4 (S n) (Pstate 4 t))) as H4 by (intros n t; apply (panic_stage_goes beh 4); apply H5).
  assert (∀ n t, goes beh t [SSync; SMainbus] (r3 (S (S n)) (Pstate 3 t))) as H3 by (intros n t; apply (panic_stage_goes beh 3); [apply (H4 n)|apply H4]).
  assert (∀ n t, goes beh t [SMessage; SSync; SMainbus] (r2 (S (S (S n))) (Pstate 2 t))) as H2
    by (intros n t; apply (panic_stage_goes beh 2); [apply (H3 n)|apply H3]).
  assert (∀ n t, goes beh t [SThreads; SMessage; SSync; SMainbus] (r1 (S (S (S (S n)))) (Pstate 1 t))) as H1
    by (intros n t; apply (panic_stage_goes beh 1); [apply (H2 n)|apply H2]).
  apply (panic_stage_goes beh 0 SSplhigh _ (panic_run beh 5) (r1 5%nat) []); [apply (H1 0%nat)|apply H1].
Qed.
