(* ===== verification/Kgets.v ===== *)
(** * Reading a line from the console (kern/lib/kgets.c)

    The state is the memory that holds the buffer, the characters that will be
    typed, and what has been put on the screen.  When nothing more is typed
    [getch] waits for ever, which is [Diverge].

    [kgets_edits]: the buffer ends up with the line as the user edited it, which
    [edit] specifies on lists. *)

From Stdlib Require Import ZArith Lia.
From stdpp Require Import base numbers list.
From S2P Require Import Prelude Millicode CString Printf.

Record kst := Kst { kmem : mem; typed : list Z; screen : list Z }.

Definition set_kmem (m : mem) (s : kst) : kst := Kst m s.(typed) s.(screen).
Definition set_screen (l : list Z) (s : kst) : kst := Kst s.(kmem) s.(typed) l.

Definition getch : M kst Z :=
  s ← get;
  match s.(typed) with
  | [] => diverge
  | c :: l => modify (λ s, Kst s.(kmem) l s.(screen));; mret c
  end.
Definition putch (ch : Z) : M kst unit := modify (λ s, set_screen (s.(screen) ++ [ch]) s).

Section kgets.
(** [bell] is what [beep] sends, [numbuf] the stack below [kprintf]. *)
Context (bell numbuf : list Z).

Definition beep : M kst unit := modify (λ s, set_screen (s.(screen) ++ bell) s).
Definition backsp : M kst unit := putch 8;; putch 32;; putch 8.
Definition kst_ld (p : Z) : M kst Z := zoom kmem set_kmem (ld p).
Definition kst_st (p v : Z) : M kst unit := zoom kmem set_kmem (st p v).
Definition kprintf (fmt : list Z) (args : list varg) : M kst Z :=
  zoom screen set_screen (__vprintf console_send numbuf fmt args).

Context (buf maxlen : Z).

(** [while (pos > 0 && test) { backsp(); pos--; }]. *)
Fixpoint erase (n : nat) (test : Z → bool) (pos : Z) : M kst Z :=
  match n with
  | O => mret pos
  | S n =>
      if pos >? 0 then
        c ← kst_ld (buf + (pos - 1));
        if test c then backsp;; erase n test (pos - 1) else mret pos
      else mret pos
  end.
(** The loop of ^U looks at no character. *)
Fixpoint erase_all (n : nat) (pos : Z) : M kst Z :=
  match n with
  | O => mret pos
  | S n => if pos >? 0 then backsp;; erase_all n (pos - 1) else mret pos
  end.

Fixpoint kgets_loop (n : nat) (pos : Z) : M kst Z :=
  match n with
  | O => diverge
  | S n =>
      ch ← getch;
      if (ch =? 10) || (ch =? 13) then putch 10;; mret pos
      else if (ch >=? 32) && (ch <? 127) && (pos <? u32 (maxlen - 1)) then
        putch ch;; kst_st (buf + pos) ch;; kgets_loop n (pos + 1)
      else if ((ch =? 8) || (ch =? 127)) && (pos >? 0) then backsp;; kgets_loop n (pos - 1)
      else if ch =? 3 then putch 94;; putch 67;; putch 10;; mret 0
      else if ch =? 18 then
        kst_st (buf + pos) 0;;
        s ← get;
        str ← of_opt (text_of (drop (Z.to_nat buf) s.(kmem)));
        kprintf [94; 82; 10; 37; 115] [VStr (Some str)];;
        kgets_loop n pos
      else if ch =? 21 then pos ← erase_all (Z.to_nat pos) pos; kgets_loop n pos
      else if ch =? 23 then
        pos ← erase (Z.to_nat pos) (λ c, c =? 32) pos;
        pos ← erase (Z.to_nat pos) (λ c, negb (c =? 32)) pos;
        kgets_loop n pos
      else beep;; kgets_loop n pos
  end.

(** Every iteration takes one character. *)
Definition kgets : M kst unit :=
  s ← get;
  pos ← kgets_loop (S (length s.(typed))) 0;
  kst_st (buf + pos) 0.
End kgets.

(** ** Specification *)

Fixpoint drop_while (p : Z → bool) (l : list Z) : list Z :=
  match l with [] => [] | c :: l' => if p c then drop_while p l' else l end.
(** The line without its last word and the blanks after it. *)
Definition erase_word (line : list Z) : list Z :=
  reverse (drop_while (λ c, negb (c =? 32)) (drop_while (λ c, c =? 32) (reverse line))).

(** The line that comes of typing [l] after [line], with room for [room]
    characters, and what is left to read. *)
Fixpoint edit (room : nat) (line l : list Z) : option (list Z * list Z) :=
  match l with
  | [] => None
  | c :: l =>
      if bool_decide (c ∈ [10; 13]) then Some (line, l)
      else if bool_decide (32 ≤ c < 127 ∧ (length line < room)%nat) then edit room (line ++ [c]) l
      else if bool_decide (c ∈ [8; 127] ∧ line ≠ []) then edit room (removelast line) l
      else if c =? 3 then Some ([], l)
      else if c =? 21 then edit room [] l
      else if c =? 23 then edit room (erase_word line) l
      else edit room line l
  end.

(** ** Proofs *)

(** The buffer holds [line] in its first bytes. *)
Definition holds (m : mem) (buf : Z) (line : list Z) : Prop :=
  ∀ i c, line !! i = Some c → zlookup m (buf + Z.of_nat i) = Some c ∧ 32 ≤ c < 127.

Lemma holds_prefix m buf l1 l2 : holds m buf (l1 ++ l2) → holds m buf l1.
Proof. intros H i c Hi. apply H. by apply lookup_app_l_Some. Qed.

Lemma holds_write m buf line p v :
  holds m buf line → 0 ≤ buf → buf + Z.of_nat (length line) ≤ p < Z.of_nat (length m) → holds (<[Z.to_nat p := v]> m) buf line.
Proof.
  intros H Hb Hp i c Hi. pose proof (lookup_lt_Some _ _ _ Hi). destruct (H i c Hi) as [Hz Hc]. split; [|done].
  rewrite zlookup_insert by lia. by zdecide.
Qed.

Lemma holds_snoc m buf line c :
  holds m buf line → 0 ≤ buf → 32 ≤ c < 127 → buf + Z.of_nat (length line) < Z.of_nat (length m) →
  holds (<[Z.to_nat (buf + Z.of_nat (length line)) := c]> m) buf (line ++ [c]).
Proof.
  intros H Hb Hc Hl i x [Hi|[Hi Hx]]%lookup_app_Some; [by apply (holds_write m buf line); [..|lia|]|].
  destruct (i - length line)%nat eqn:E; [|done]. injection Hx as <-. replace i with (length line) by lia.
  rewrite zlookup_insert by lia. by rewrite Z.eqb_refl.
Qed.

Section run.
Context (bell numbuf : list Z) (buf maxlen : Z).
Hypothesis Hnum : Z.of_nat (length numbuf) = NUMBER_BUF_SIZE.
Hypothesis Hbuf : 0 ≤ buf.
Hypothesis Hmax : 1 ≤ maxlen ≤ INT_MAX.

(** The screen is not part of what is specified. *)
Definition same (s s' : kst) : Prop := s'.(kmem) = s.(kmem) ∧ s'.(typed) = s.(typed).

Lemma backsp_wp s (Q : unit → kst → Prop) : (∀ s', same s s' → Q tt s') → wp backsp Q s.
Proof. intros H. unfold backsp. do 2 (apply wp_modify). apply wp_modify'. by apply H. Qed.

Lemma erase_all_wp n pos s (Q : Z → kst → Prop) :
  pos = Z.of_nat n → (∀ s', same s s' → Q 0 s') → wp (erase_all n pos) Q s.
Proof.
  revert pos s. induction n as [|n IH]; intros pos s -> H; cbn [erase_all]; [apply wp_ret; by apply H|].
  rewrite (proj2 (Z.gtb_lt _ 0)) by lia. apply wp_bind, backsp_wp. intros s1 [E1 E2]. apply IH; [lia|]. intros s2 [E3 E4]. apply H. split; congruence.
Qed.

Lemma erase_wp test line s (Q : Z → kst → Prop) :
  holds s.(kmem) buf line →
  (∀ s', same s s' → Q (Z.of_nat (length (drop_while test (reverse line)))) s') → wp (erase buf (length line) test (Z.of_nat (length line))) Q s.
Proof.
  revert s. induction line as [|x line IH] using rev_ind; intros s Hh H; [apply wp_ret; by apply H|].
  rewrite length_app, Nat.add_1_r. cbn [erase]. rewrite (proj2 (Z.gtb_lt _ 0)) by lia.
  destruct (Hh (length line) x) as [Hx _]; [by apply list_lookup_middle|]. rewrite reverse_snoc in H. cbn [drop_while] in H.
  unfold kst_ld. apply wp_bind, wp_zoom. unfold ld. replace (buf + (Z.of_nat (S (length line)) - 1)) with (buf + Z.of_nat (length line)) by lia. apply wp_get.
  rewrite Hx. apply wp_ret. replace (set_kmem s.(kmem) s) with s by (by destruct s). destruct (test x).
  - apply wp_bind, backsp_wp. intros s1 [E1 E2]. replace (Z.of_nat (S (length line)) - 1) with (Z.of_nat (length line)) by lia.
    apply IH; [rewrite E1; by apply holds_prefix in Hh|]. intros s2 [E3 E4]. apply H. split; congruence.
  - apply wp_ret. cbn [length] in H. rewrite length_reverse in H. by apply H.
Qed.

Lemma drop_while_suffix p l : ∃ l1, l = l1 ++ drop_while p l.
Proof.
  induction l as [|c l IH]; [by exists []|]. cbn [drop_while]. destruct (p c); [|by exists []]. destruct IH as [l1 E]. exists (c :: l1). simpl. by f_equal.
Qed.

Lemma erased_prefix p line : ∃ l, line = reverse (drop_while p (reverse line)) ++ l.
Proof.
  destruct (drop_while_suffix p (reverse line)) as [l1 E]. exists (reverse l1). rewrite <- reverse_app, <- E. by rewrite reverse_involutive.
Qed.

Lemma holds_cstr m line : holds m buf line → zlookup m (buf + Z.of_nat (length line)) = Some 0 → cstr m buf line.
Proof.
  intros H Hz. rewrite <- (app_nil_r line). apply cstr_app. split; [|done]. intros i c Hi. destruct (H i c Hi). split; [done|lia].
Qed.

Lemma cstr_text m p l : cstr m p l → text_of (drop (Z.to_nat p) m) = Some l.
Proof.
  revert p. induction l as [|c l IH]; intros p; cbn [cstr].
  - intros H. pose proof (zlookup_Some_lt _ _ _ H). unfold zlookup in H. rewrite (proj2 (Z.leb_le 0 p)) in H by lia. by rewrite (drop_S _ _ _ H).
  - intros (H & Hc & Hl). pose proof (zlookup_Some_lt _ _ _ H). unfold zlookup in H. rewrite (proj2 (Z.leb_le 0 p)) in H by lia. rewrite (drop_S _ _ _ H).
    apply IH in Hl. replace (Z.to_nat (p + 1)) with (S (Z.to_nat p)) in Hl by lia. cbn [text_of]. rewrite (proj2 (Z.eqb_neq c 0)), Hl by lia. done.
Qed.

(** Reprinting changes the screen only. *)
Lemma reprint_wp str s (Q : Z → kst → Prop) :
  Z.of_nat (length str) ≤ INT_MAX → (∀ n s', same s s' → Q n s') → wp (kprintf numbuf [94; 82; 10; 37; 115] [VStr (Some str)]) Q s.
Proof.
  intros Hl H. unfold kprintf. apply wp_zoom. eapply wp_mono; [|apply (vprintf_wp console_send numbuf Hnum _ _ ([94; 82; 10] ++ str) _ (λ _, True))].
  - intros n d _. apply H. done.
  - assert (field [] [] [] str = Some str) as Hf.
    { unfold field. cbn [app]. change (fl_width []) with 0. rewrite (proj2 (Z.leb_le _ _) Hl). change (0 <=? INT_MAX) with true. cbn [andb]. f_equal. unfold pad_field. cbn [app].
      replace (Z.to_nat (0 - Z.of_nat (length str))) with 0%nat by lia. by rewrite app_nil_r. }
    change (cons 94 <$> (cons 82 <$> (cons 10 <$> (r ← (t ← field [] [] [] str; Some (t, @nil varg)); out ← Some []; Some (r.1 ++ out)))) = Some ([94; 82; 10] ++ str)).
    rewrite Hf. cbn. by rewrite app_nil_r.
  - by apply wp_modify'.
Qed.

(** What holds while a line is being typed. *)
Record editing (s : kst) (line : list Z) : Prop := {
  ed_line : holds s.(kmem) buf line;
  ed_room : Z.of_nat (length line) ≤ maxlen - 1;
  ed_mem : buf + maxlen ≤ Z.of_nat (length s.(kmem))
}.

Lemma editing_same s s' line : same s s' → editing s line → editing s' line.
Proof. intros [E _] []. split; by rewrite ?E. Qed.

Lemma editing_prefix s l1 l2 : editing s (l1 ++ l2) → editing s l1.
Proof. intros [H1 H2 H3]. rewrite length_app in H2. split; [by eapply holds_prefix|lia|done]. Qed.

(** A store inside the buffer. *)
Lemma kst_st_wp {A} p v (k : unit → M kst A) Q s :
  0 ≤ p < Z.of_nat (length s.(kmem)) → wp (k tt) Q (set_kmem (<[Z.to_nat p := v]> s.(kmem)) s) → wp (kst_st p v ≫= k) Q s.
Proof. intros Hp H. unfold kst_st. apply wp_bind, wp_zoom, wp_st'; done. Qed.

Lemma outside_write m p v : buf ≤ p < buf + maxlen → p < Z.of_nat (length m) → same_outside m (<[Z.to_nat p := v]> m) buf (buf + maxlen).
Proof. intros Hp Hm. split; [apply length_insert|]. intros a Ha. rewrite zlookup_insert by lia. by zdecide. Qed.

Lemma same_outside_trans m1 m2 m3 lo hi : same_outside m1 m2 lo hi → same_outside m2 m3 lo hi → same_outside m1 m3 lo hi.
Proof. intros [L1 H1] [L2 H2]. split; [congruence|]. intros a Ha. by rewrite H2, H1. Qed.

Lemma kgets_loop_wp n line s line' rest :
  (length s.(typed) < n)%nat → editing s line → edit (Z.to_nat (maxlen - 1)) line s.(typed) = Some (line', rest) →
  wp (kgets_loop bell numbuf buf maxlen n (Z.of_nat (length line)))
    (λ pos s', pos = Z.of_nat (length line') ∧ editing s' line' ∧ same_outside s.(kmem) s'.(kmem) buf (buf + maxlen) ∧ s'.(typed) = rest) s.
Proof.
  revert line s. induction n as [|n IH]; intros line s Hn He Ed; [lia|]. cbn [kgets_loop]. pose proof He as [H1 H2 H3]. unfold INT_MAX in Hmax.
  (** Going on in a state with another line. *)
  assert (∀ l s1 line1, (length l < n)%nat → s1.(typed) = l → editing s1 line1 → edit (Z.to_nat (maxlen - 1)) line1 l = Some (line', rest) →
    same_outside s.(kmem) s1.(kmem) buf (buf + maxlen) → wp (kgets_loop bell numbuf buf maxlen n (Z.of_nat (length line1)))
      (λ pos s', pos = Z.of_nat (length line') ∧ editing s' line' ∧ same_outside s.(kmem) s'.(kmem) buf (buf + maxlen) ∧ s'.(typed) = rest) s1) as Go.
  { intros l s1 line1 Hl <- He1 Hed1 Ho. eapply wp_mono; [|by apply IH]. intros pos s2 (-> & He2 & Ho2 & Hr). split_and!; [done|done|by eapply same_outside_trans|done]. }
  unfold getch. apply wp_bind, wp_get. destruct s.(typed) as [|c l] eqn:Et; [done|]. simpl in Hn. cbn [edit] in Ed. apply wp_modify, wp_ret.
  set (s0 := Kst s.(kmem) l s.(screen)). assert (editing s0 line) as He0 by (by split). pose proof (same_outside_refl s.(kmem) buf (buf + maxlen)) as Hr.
  assert (∀ s1 line1, same s0 s1 → edit (Z.to_nat (maxlen - 1)) line1 l = Some (line', rest) → editing s0 line1 → wp (kgets_loop bell numbuf buf maxlen n (Z.of_nat (length line1)))
      (λ pos s', pos = Z.of_nat (length line') ∧ editing s' line' ∧ same_outside s.(kmem) s'.(kmem) buf (buf + maxlen) ∧ s'.(typed) = rest) s1) as Go'.
  { intros s1 line1 [E1 E2] Hed1 He1. apply (Go l); [lia|done|by eapply editing_same|done|by rewrite E1]. }
  assert (c ∈ [10; 13] ↔ c = 10 ∨ c = 13) as E10 by (rewrite !elem_of_cons, elem_of_nil; tauto).
  assert (c ∈ [8; 127] ↔ c = 8 ∨ c = 127) as E8 by (rewrite !elem_of_cons, elem_of_nil; tauto).
  assert (u32 (maxlen - 1) = maxlen - 1) as -> by (unfold u32; lia).
  case_bool_decide as D1.
  { injection Ed as <- <-. replace ((c =? 10) || (c =? 13)) with true by (symmetry; apply orb_true_iff; rewrite !Z.eqb_eq; tauto).
    apply wp_modify, wp_ret. by split_and!. }
  replace ((c =? 10) || (c =? 13)) with false by (symmetry; apply orb_false_iff; rewrite !Z.eqb_neq; tauto).
  case_bool_decide as D2.
  { rewrite Z.geb_leb. zdecide. apply wp_modify. apply kst_st_wp; [simpl; lia|]. replace (Z.of_nat (length line) + 1) with (Z.of_nat (length (line ++ [c]))) by (rewrite length_app; simpl; lia).
    apply (Go l); [lia|done| |done|apply outside_write; simpl; lia]. split; [apply holds_snoc; simpl; [done|done|lia|lia]|rewrite length_app; simpl; lia|simpl; by rewrite length_insert]. }
  replace ((c >=? 32) && (c <? 127) && (Z.of_nat (length line) <? maxlen - 1)) with false.
  2:{ symmetry. apply not_true_iff_false. rewrite !andb_true_iff, Z.geb_le, !Z.ltb_lt. lia. }
  case_bool_decide as D3.
  { destruct D3 as [D3 Hne]. destruct (exists_last Hne) as (line0 & x & ->). rewrite removelast_last in Ed.
    replace ((c =? 8) || (c =? 127)) with true by (symmetry; apply orb_true_iff; rewrite !Z.eqb_eq; tauto).
    rewrite length_app, (proj2 (Z.gtb_lt _ 0)) by (simpl; lia). cbn [andb]. apply wp_bind, backsp_wp. intros s1 Hs.
    replace (Z.of_nat (length line0 + length [x]) - 1) with (Z.of_nat (length line0)) by (simpl; lia). apply Go'; [done|done|by eapply editing_prefix]. }
  replace (((c =? 8) || (c =? 127)) && (Z.of_nat (length line) >? 0)) with false.
  2:{ symmetry. apply not_true_iff_false. rewrite andb_true_iff, orb_true_iff, !Z.eqb_eq, Z.gtb_lt. intros [? ?]. apply D3. split; [tauto|]. intros ->. simpl in *. lia. }
  destruct (Z.eqb_spec c 3) as [->|].
  { injection Ed as <- <-. do 3 apply wp_modify. apply wp_ret. split_and!; [done| |done|done].
    apply (editing_same s0); [done|]. by apply (editing_prefix s0 [] line). }
  destruct (Z.eqb_spec c 18) as [->|].
  { cbn in Ed. apply kst_st_wp; [simpl; lia|]. apply wp_get. set (s1 := set_kmem _ _).
    assert (editing s1 line) as He1 by (split; [apply holds_write; simpl; [done|done|lia]|done|simpl; by rewrite length_insert]).
    assert (cstr s1.(kmem) buf line) as Hc.
    { apply holds_cstr; [apply He1|]. simpl. rewrite zlookup_insert by lia. by rewrite Z.eqb_refl. }
    rewrite (cstr_text _ _ _ Hc). apply wp_bind, wp_ret, wp_bind, reprint_wp; [unfold INT_MAX; lia|]. intros _ s2 [E1 E2].
    apply (Go l); [lia|done|by apply (editing_same s1)|done|]. rewrite E1. apply outside_write; simpl; lia. }
  destruct (Z.eqb_spec c 21) as [->|].
  { apply wp_bind, erase_all_wp; [lia|]. intros s1 Hs. apply (Go' s1 []); [done|done|]. by apply (editing_prefix s0 [] line). }
  destruct (Z.eqb_spec c 23) as [->|].
  { destruct (erased_prefix (λ c, c =? 32) line) as [l1 P1]. set (w1 := reverse (drop_while (λ c, c =? 32) (reverse line))) in *.
    destruct (erased_prefix (λ c, negb (c =? 32)) w1) as [l2 P2]. rewrite Nat2Z.id. apply wp_bind, erase_wp; [done|]. intros s1 Hs1.
    rewrite <- length_reverse. fold w1. rewrite Nat2Z.id. apply wp_bind, erase_wp; [destruct Hs1 as [-> _]; rewrite P1 in H1; by apply holds_prefix in H1|].
    intros s2 Hs2. rewrite <- length_reverse. apply Go'; [destruct Hs1, Hs2; split; congruence| |].
    - unfold erase_word in Ed. unfold w1. by rewrite reverse_involutive.
    - rewrite P1 in He0. apply editing_prefix in He0. rewrite P2 in He0. by apply editing_prefix in He0. }
  apply wp_modify. apply Go'; done.
Qed.

(** [kgets] reads one line as the user edited it: whatever is typed - characters,
    backspaces, erased words and lines, reprints, more characters than there is room
    for - it returns at the end of the line, with the resulting line as a string in
    the buffer, never writes outside the buffer, and leaves the rest of the input. *)
Theorem kgets_edits s line rest :
  buf + maxlen ≤ Z.of_nat (length s.(kmem)) → edit (Z.to_nat (maxlen - 1)) [] s.(typed) = Some (line, rest) →
  ∃ s', kgets bell numbuf buf maxlen s = Ret tt s' ∧ cstr s'.(kmem) buf line ∧ Z.of_nat (length line) < maxlen ∧
    same_outside s.(kmem) s'.(kmem) buf (buf + maxlen) ∧ s'.(typed) = rest.
Proof.
  intros Hm Ed. assert (wp (kgets bell numbuf buf maxlen) (λ _ s', cstr s'.(kmem) buf line ∧ Z.of_nat (length line) < maxlen ∧
    same_outside s.(kmem) s'.(kmem) buf (buf + maxlen) ∧ s'.(typed) = rest) s) as H.
  { unfold kgets. apply wp_get, wp_bind. eapply wp_mono; [|apply (kgets_loop_wp _ [] s line rest); [lia|split; [by intros ? ? [=]|simpl; lia|done]|done]].
    intros pos s' (-> & [E1 E2 E3] & Ho & Hr). apply wp_bind_ret, kst_st_wp; [lia|]. apply wp_ret. split_and!; [|lia| |done].
    - apply holds_cstr; simpl; [apply holds_write; [done|done|lia]|]. rewrite zlookup_insert by lia. by rewrite Z.eqb_refl.
    - eapply same_outside_trans; [done|]. apply outside_write; lia. }
  destruct (wp_inv _ _ _ H) as ([] & s' & E & HQ). by exists s'.
Qed.
End run.

(** "ab cd", ^W, "e", backspace, "f", return. *)
Lemma kgets_edits_witness :
  let s := Kst (replicate 10 7) [97; 98; 32; 99; 100; 23; 101; 8; 102; 13; 120] [] in
  ∃ s', kgets [7] junk 1 8 s = Ret tt s' ∧ cstr s'.(kmem) 1 [97; 98; 32; 102] ∧ Z.of_nat (length [97; 98; 32; 102]) < 8 ∧
    same_outside s.(kmem) s'.(kmem) 1 9 ∧ s'.(typed) = [120].
Proof.
  intros s. apply (kgets_edits [7] junk 1 8 eq_refl ltac:(lia) ltac:(done) s [97; 98; 32; 102] [120]); [simpl; lia|done].
Defined.
