(* ===== verification/KArray.v ===== *)
(** * The resizable pointer array (kern/lib/array.c, kern/include/array.h)

    The state of an array is the C record: the heap block [arr_v] ([None] is
    NULL, [Some] lists every cell of the block, the unused ones too), the
    number of elements in use and the capacity.  [kmalloc] is the interface
    class [KmallocWords]: a request of [n] bytes yields NULL or a block of
    [n / 4] words whose contents are unspecified.

    The theorems show that the operations implement a mathematical list
    ([contents]), keep the representation invariant [array_wf], and where the
    doubling loop of [array_setsize] terminates. *)

From Stdlib Require Import ZArith Lia.
From stdpp Require Import base numbers list.
From S2P Require Import Prelude.

(** What [kmalloc] promises to the code that asks it for an array of words. *)
Class KmallocWords {V : Type} (km : Z → option (list V)) : Prop :=
  km_length n blk : km n = Some blk → length blk = Z.to_nat (n / 4).

Record array (V : Type) := Array {
  arr_v : option (list V);
  arr_num : Z;
  arr_max : Z;
}.
Arguments Array {V} _ _ _.
Arguments arr_v {V} _.
Arguments arr_num {V} _.
Arguments arr_max {V} _.

Section array.
Context {V : Type}.
Implicit Types (a : array V) (km : Z → option (list V)).

Definition array_init : M (array V) unit :=
  modify (λ _, Array None 0 0).

Definition array_cleanup : M (array V) unit :=
  a ← get;
  kassert (a.(arr_num) =? 0);;
  modify (λ a, Array None a.(arr_num) a.(arr_max)).

(** [array_create]: [kmalloc] of the record itself may fail. *)
Definition array_create (kmok : bool) : option (array V) :=
  if kmok then Some (Array None 0 0) else None.

(** [while (num > newmax) newmax = newmax ? newmax*2 : 4;] in 32 bits. *)
Fixpoint grow_max (fuel : nat) (num newmax : Z) : option Z :=
  if num >? newmax then
    match fuel with
    | O => None
    | S f => grow_max f num (if newmax =? 0 then 4 else u32 (newmax * 2))
    end
  else Some newmax.

Definition memcpy_words (dst : list V) (src : option (list V)) (nbytes : Z) : option (list V) :=
  if nbytes =? 0 then Some dst
  else match src with
       | None => None
       | Some l => blk_move dst 0 l 0 (Z.to_nat (nbytes / 4))
       end.

Definition setsize_fuel : nat := 40.

Definition array_setsize km (num : Z) : M (array V) Z :=
  a ← get;
  if num >? a.(arr_max) then
    match grow_max setsize_fuel num a.(arr_max) with
    | None => diverge
    | Some newmax =>
        match km (u32 (newmax * 4)) with
        | None => mret ENOMEM
        | Some newptr =>
            blk ← of_opt (memcpy_words newptr a.(arr_v) (u32 (a.(arr_num) * 4)));
            modify (λ a, Array (Some blk) a.(arr_num) newmax);;
            modify (λ a, Array a.(arr_v) num a.(arr_max));;
            mret 0
        end
    end
  else
    modify (λ a, Array a.(arr_v) num a.(arr_max));;
    mret 0.

Definition array_remove (index : Z) : M (array V) unit :=
  a ← get;
  kassert (a.(arr_num) <=? a.(arr_max));;
  kassert (index <? a.(arr_num));;
  let num_to_move := u32 (a.(arr_num) - (index + 1)) in
  l ← of_opt a.(arr_v);
  blk ← of_opt (blk_move l (Z.to_nat index) l (Z.to_nat (index + 1)) (Z.to_nat num_to_move));
  modify (λ a, Array (Some blk) (u32 (a.(arr_num) - 1)) a.(arr_max)).

Definition array_num : M (array V) Z := gets arr_num.

Definition array_get (index : Z) : M (array V) V :=
  a ← get;
  kassert (index <? a.(arr_num));;
  l ← of_opt a.(arr_v);
  of_opt (zlookup l index).

Definition array_set (index : Z) (val : V) : M (array V) unit :=
  a ← get;
  kassert (index <? a.(arr_num));;
  l ← of_opt a.(arr_v);
  blk ← of_opt (zupd l index val);
  modify (λ a, Array (Some blk) a.(arr_num) a.(arr_max)).

(** The result is the error code and the index stored through [index_ret]. *)
Definition array_add km (val : V) : M (array V) (Z * Z) :=
  index ← array_num;
  ret ← array_setsize km (u32 (index + 1));
  if negb (ret =? 0) then mret (ret, index)
  else
    a ← get;
    l ← of_opt a.(arr_v);
    blk ← of_opt (zupd l index val);
    modify (λ a, Array (Some blk) a.(arr_num) a.(arr_max));;
    mret (0, index).

(** ** Representation invariant and abstraction *)

Definition cells a : list V := default [] a.(arr_v).
Definition contents a : list V := take (Z.to_nat a.(arr_num)) (cells a).

Definition array_wf a : Prop :=
  0 ≤ a.(arr_num) ≤ a.(arr_max) ∧ a.(arr_max) < 2 ^ 30 ∧
  length (cells a) = Z.to_nat a.(arr_max).

(** ** The doubling loop *)

Lemma grow_max_unfold f num newmax :
  grow_max (S f) num newmax =
  if num >? newmax then grow_max f num (if newmax =? 0 then 4 else u32 (newmax * 2))
  else Some newmax.
Proof. done. Qed.

Lemma grow_max_pos fuel num newmax :
  0 < newmax → num ≤ newmax * 2 ^ Z.of_nat fuel → num ≤ 2 ^ 31 →
  ∃ r, grow_max fuel num newmax = Some r ∧ num ≤ r ∧ newmax ≤ r ∧ (r = newmax ∨ r < 2 * num).
Proof.
  revert newmax. induction fuel as [|f IH]; intros newmax Hpos Hfuel Hnum; simpl;
    rewrite Z.gtb_ltb; destruct (Z.ltb_spec newmax num).
  - lia.
  - eauto with lia.
  - rewrite (proj2 (Z.eqb_neq _ _)), u32_small by (unfold W32; lia).
    destruct (IH (newmax * 2)) as (r & -> & ? & ? & ?); [lia| |lia|].
    { rewrite Nat2Z.inj_succ, Z.pow_succ_r in Hfuel by lia. lia. }
    exists r. repeat split; lia.
  - exists newmax. repeat split; lia.
Qed.

Lemma grow_max_spec num newmax :
  0 ≤ newmax < num → num ≤ 2 ^ 31 →
  ∃ r, grow_max setsize_fuel num newmax = Some r ∧ num ≤ r ∧ newmax < r ∧ (r = 4 ∨ r < 2 * num).
Proof.
  intros Hlt Hnum. destruct (decide (newmax = 0)) as [->|].
  - change setsize_fuel with (S 39).
    rewrite grow_max_unfold, Z.gtb_ltb, (proj2 (Z.ltb_lt _ _)) by lia.
    destruct (grow_max_pos 39 num 4) as (r & Hr & ? & ? & ?); [lia..|].
    exists r. split; [exact Hr|lia].
  - destruct (grow_max_pos setsize_fuel num newmax) as (r & -> & ? & ? & ?); [lia..| |lia|].
    { unfold setsize_fuel. lia. }
    exists r. split; [done|lia].
Qed.

(** From 0 or a power of two, no capacity above [2^31] is ever reached. *)
Lemma grow_max_wraps fuel num newmax :
  2 ^ 31 < num → (newmax = 0 ∨ ∃ k, 2 ≤ k ≤ 31 ∧ newmax = 2 ^ k) →
  grow_max fuel num newmax = None.
Proof.
  intros Hnum. revert newmax. induction fuel as [|f IH]; intros newmax Hm; simpl.
  - assert (newmax ≤ 2 ^ 31) by (destruct Hm as [->|(k & ? & ->)]; [lia|apply Z.pow_le_mono_r; lia]).
    by rewrite Z.gtb_ltb, (proj2 (Z.ltb_lt _ _)) by lia.
  - assert (newmax ≤ 2 ^ 31) by (destruct Hm as [->|(k & ? & ->)]; [lia|apply Z.pow_le_mono_r; lia]).
    rewrite Z.gtb_ltb, (proj2 (Z.ltb_lt _ _)) by lia. apply IH.
    destruct Hm as [->|(k & Hk & ->)]; [right; exists 2; simpl; lia|].
    rewrite (proj2 (Z.eqb_neq _ _)) by lia.
    destruct (decide (k = 31)) as [->|]; [by left|]. right. exists (k + 1).
    split; [lia|]. rewrite Z.pow_add_r by lia. change (2 ^ 1) with 2.
    rewrite u32_small; [lia|]. unfold W32. 
    pose proof (Z.pow_le_mono_r 2 k 30). lia.
Qed.

(** ** Each operation against the list it represents *)

Lemma contents_length a : array_wf a → length (contents a) = Z.to_nat a.(arr_num).
Proof. intros (? & ? & Hl). unfold contents. rewrite length_take. lia. Qed.

Lemma memcpy_words_spec a (blk : list V) :
  array_wf a → (Z.to_nat a.(arr_num) ≤ length blk)%nat →
  memcpy_words blk a.(arr_v) (u32 (a.(arr_num) * 4)) =
  Some (contents a ++ drop (Z.to_nat a.(arr_num)) blk).
Proof.
  intros (Hn & Hm & Hl) Hblk. unfold memcpy_words.
  rewrite u32_small by (unfold W32; lia). unfold contents, cells in *.
  destruct (Z.eqb_spec (arr_num a * 4) 0).
  - replace (Z.to_nat (arr_num a)) with O by lia. by rewrite take_0, drop_0.
  - destruct (arr_v a) as [l|]; simpl in *; [|lia].
    rewrite Z.div_mul, blk_move_Some by lia. done.
Qed.

Lemma array_setsize_spec km a num :
  KmallocWords km → array_wf a → 0 ≤ num ≤ 2 ^ 29 →
  wp (array_setsize km num)
     (λ r a', (r = 0 ∧ array_wf a' ∧ a'.(arr_num) = num ∧
                 take (Z.to_nat a.(arr_num)) (contents a') = take (Z.to_nat num) (contents a)) ∨
              (r = ENOMEM ∧ a' = a ∧ a.(arr_max) < num ∧ ∃ n, num * 4 ≤ n ∧ km n = None)) a.
Proof.
  intros Hkm Hwf Hnum. pose proof Hwf as (Hn & Hm & Hl).
  unfold array_setsize. apply wp_get. rewrite Z.gtb_ltb.
  destruct (Z.ltb_spec (arr_max a) num) as [Hgt|Hle].
  - destruct (grow_max_spec num (arr_max a)) as (newmax & -> & ? & ? & ?); [lia..|].
    assert (newmax < 2 ^ 30) by lia.
    rewrite u32_small by (unfold W32; lia).
    destruct (km (newmax * 4)) as [blk|] eqn:Hblk; [|apply wp_ret; right; split_and!; [done..|exists (newmax * 4); split; [lia|done]]].
    apply Hkm in Hblk. rewrite Z.div_mul in Hblk by lia.
    eapply wp_of_opt; [apply memcpy_words_spec; [done|lia]|].
    wp_go. left. pose proof (contents_length a Hwf) as Hc.
    repeat split; simpl; try lia.
    + unfold cells; simpl. rewrite length_app, length_drop. lia.
    + unfold contents at 1, cells; simpl. rewrite take_take, take_app_le by lia.
      rewrite take_ge by lia. by rewrite take_ge by lia.
  - wp_go. left. split; [done|]. split; [split; [simpl; lia|done]|]. split; [done|].
    unfold contents, cells; simpl. rewrite !take_take. f_equal. lia.
Qed.

Lemma array_add_spec km a v :
  KmallocWords km → array_wf a → a.(arr_num) < 2 ^ 29 →
  wp (array_add km v)
     (λ r a', (r = (0, a.(arr_num)) ∧ array_wf a' ∧ contents a' = contents a ++ [v]) ∨
              (r = (ENOMEM, a.(arr_num)) ∧ a' = a ∧ a.(arr_max) = a.(arr_num) ∧ ∃ n, (a.(arr_num) + 1) * 4 ≤ n ∧ km n = None)) a.
Proof.
  intros Hkm Hwf Hlt. pose proof Hwf as (Hn & Hmax & _).
  unfold array_add, array_num. apply wp_gets. rewrite u32_small by (unfold W32; lia).
  apply wp_bind. eapply wp_mono; [|apply (array_setsize_spec km a (arr_num a + 1)); [done..|lia]].
  intros r a' [(-> & Hwf' & Hnum' & Hc)|(-> & -> & Hroom & Hno)]; simpl; [|apply wp_ret; right; split_and!; [done|done|lia|done]].
  apply wp_get. destruct Hwf' as (Hn' & Hm' & Hl').
  unfold contents, cells in Hl', Hc |- *.
  destruct (arr_v a') as [l|]; simpl in *; [|lia].
  wp_go. eapply wp_of_opt; [apply zupd_Some; lia|].
  wp_go. left. split; [done|]. split.
  { split; [simpl; lia|]. unfold cells; simpl. rewrite length_insert. auto. }
  rewrite Hnum' in *. replace (Z.to_nat (arr_num a + 1)) with (S (Z.to_nat (arr_num a))) in * by lia.
  rewrite take_take in Hc. replace (_ `min` _)%nat with (Z.to_nat (arr_num a)) in Hc by lia.
  erewrite take_S_r by (apply list_lookup_insert_eq; lia).
  rewrite take_insert_ge by lia. f_equal. rewrite Hc, take_take. f_equal. lia.
Qed.

Lemma array_remove_spec a i :
  array_wf a → 0 ≤ i < a.(arr_num) →
  wp (array_remove i)
     (λ _ a', array_wf a' ∧ contents a' = delete (Z.to_nat i) (contents a)) a.
Proof.
  intros (Hn & Hm & Hl) Hi. unfold array_remove, contents, cells in *.
  apply wp_get. apply wp_kassert; [apply Z.leb_le; lia|]. apply wp_kassert; [apply Z.ltb_lt; lia|].
  cbv zeta. rewrite u32_small by (unfold W32; lia).
  destruct (arr_v a) as [l|]; simpl in *; [|lia].
  wp_go. eapply wp_of_opt; [apply blk_move_Some; lia|].
  wp_go. rewrite u32_small by (unfold W32; lia). split.
  { split; [simpl; lia|]. split; [simpl; lia|]. unfold cells; simpl.
    rewrite !length_app, !length_take, !length_drop. lia. }
  simpl. rewrite delete_take_drop, !take_take, app_assoc.
  rewrite take_app_le by (rewrite length_app, !length_take, length_drop; lia).
  rewrite take_ge by (rewrite length_app, !length_take, length_drop; lia).
  f_equal; [f_equal; lia|]. rewrite skipn_firstn_comm. f_equal; [lia|]. f_equal. lia.
Qed.

Lemma array_set_spec a i v :
  array_wf a → 0 ≤ i < a.(arr_num) →
  wp (array_set i v)
     (λ _ a', array_wf a' ∧ contents a' = <[Z.to_nat i := v]> (contents a)) a.
Proof.
  intros (Hn & Hm & Hl) Hi. unfold array_set, contents, cells in *.
  apply wp_get, wp_kassert; [apply Z.ltb_lt; lia|].
  destruct (arr_v a) as [l|]; simpl in *; [|lia].
  wp_go. eapply wp_of_opt; [apply zupd_Some; lia|].
  wp_go. split; [|by rewrite take_insert_lt by lia].
  split; [simpl; lia|]. unfold cells; simpl. by rewrite length_insert.
Qed.

Lemma array_get_spec a i :
  array_wf a → 0 ≤ i < a.(arr_num) →
  wp (array_get i) (λ x a', a' = a ∧ contents a !! Z.to_nat i = Some x) a.
Proof.
  intros (Hn & Hm & Hl) Hi. unfold array_get, contents, cells in *.
  apply wp_get, wp_kassert; [apply Z.ltb_lt; lia|].
  destruct (arr_v a) as [l|]; simpl in *; [|lia].
  wp_go.
  destruct (zlookup_is_Some l i) as [x Hx]; [lia|]. unfold of_opt. rewrite Hx.
  apply wp_ret. split; [done|]. rewrite lookup_take_lt by lia.
  unfold zlookup in Hx. by rewrite (proj2 (Z.leb_le _ _)) in Hx by lia.
Qed.
End array.

(** ** The abstract list and the refinement theorem *)

(** The client-visible updates of an array of elements of type [V]. *)
Inductive aop (V : Type) :=
| OpAdd (v : V)
| OpSet (i : Z) (v : V)
| OpRemove (i : Z).
Arguments OpAdd {V} v.
Arguments OpSet {V} i v.
Arguments OpRemove {V} i.

Definition exec_aop {V} (km : Z → option (list V)) (o : aop V) : M (array V) Z :=
  match o with
  | OpAdd v => r ← array_add km v; mret r.1
  | OpSet i v => array_set i v;; mret 0
  | OpRemove i => array_remove i;; mret 0
  end.

Definition spec_aop {V} (o : aop V) (l : list V) : list V :=
  match o with
  | OpAdd v => l ++ [v]
  | OpSet i v => <[Z.to_nat i := v]> l
  | OpRemove i => delete (Z.to_nat i) l
  end.

Definition pre_aop {V} (o : aop V) (l : list V) : Prop :=
  match o with
  | OpAdd _ => Z.of_nat (length l) < 2 ^ 29
  | OpSet i _ | OpRemove i => 0 ≤ i < Z.of_nat (length l)
  end.

(** C19. Every update of a resizable array implements the corresponding update
    of the mathematical list it holds: appending ([array_add]), overwriting
    ([array_set]) and excising with the following elements slid down
    ([array_remove]) terminate without a failed assertion or an access outside
    the block, keep the representation invariant, and either produce exactly
    the specified list and return 0, or return ENOMEM and leave the contents
    untouched.  The latter happens only to an append to a full array for which
    [kmalloc] refuses a larger block. *)
Theorem array_refines_list {V} (km : Z → option (list V)) (o : aop V) (a : array V) :
  KmallocWords km → array_wf a → pre_aop o (contents a) →
  wp (exec_aop km o)
     (λ r a', array_wf a' ∧
        ((r = 0 ∧ contents a' = spec_aop o (contents a)) ∨
         (r = ENOMEM ∧ contents a' = contents a ∧ (∃ v, o = OpAdd v) ∧ a.(arr_max) = a.(arr_num) ∧
          ∃ n, (a.(arr_num) + 1) * 4 ≤ n ∧ km n = None))) a.
Proof.
  intros Hkm Hwf Hpre. pose proof Hwf as (Hn & _).
  destruct o as [v|i v|i]; simpl in *; rewrite contents_length in Hpre by done; apply wp_bind.
  - eapply wp_mono; [|apply array_add_spec; [done..|lia]].
    intros r a' [(-> & ? & ?)|(-> & -> & ? & ?)]; apply wp_ret; simpl; [by auto|]. split; [done|]. right. eauto 10.
  - eapply wp_mono; [|apply array_set_spec; [done|lia]].
    intros [] a' [? ?]. apply wp_ret. auto.
  - eapply wp_mono; [|apply array_remove_spec; [done|lia]].
    intros [] a' [? ?]. apply wp_ret. auto.
Qed.

Lemma array_refines_list_witness :
  wp (exec_aop (λ n, Some (replicate (Z.to_nat (n / 4)) 0)) (OpAdd 7))
     (λ r a', array_wf a' ∧
        r = 0 ∧ contents a' = [5; 6] ++ [7])
     (Array (Some [5; 6; 0; 0]) 2 4).
Proof.
  eapply wp_mono; [|apply (array_refines_list (λ n, Some (replicate (Z.to_nat (n / 4)) 0)) (OpAdd 7) (Array (Some [5; 6; 0; 0]) 2 4))].
  - intros r a' [Hwf [H|(_ & _ & _ & _ & n & _ & Hn)]]; [split; [exact Hwf|exact H]|discriminate Hn].
  - intros n blk [= <-]. apply length_replicate.
  - repeat split; simpl; lia.
  - reflexivity.
Defined.

(** The capacity-doubling loop of [array_setsize] never terminates when
    more than [2^31] elements are requested from an empty array: the 32-bit
    capacity goes 4, 8, ..., [2^31], 0, 4, ... and no number of iterations
    reaches the requested size. *)
Lemma array_setsize_loops_forever (num : Z) (fuel : nat) :
  2 ^ 31 < num → grow_max fuel num 0 = None.
Proof. intros. apply grow_max_wraps; auto. Qed.

Lemma array_setsize_loops_forever_witness : grow_max 1000 2147483649 0 = None.
Proof. apply array_setsize_loops_forever. reflexivity. Defined.
