(* ===== verification/Bitmap.v ===== *)
(** * The fixed-size bitmap (kern/lib/bitmap.c)

    A bitmap is the C record: the number of bits and the byte array.  Every
    byte is a [Z]; masks and updates are written with the bit operations of the
    source.  The leftover bits of the last byte are marked in use when the
    bitmap is created, and the invariant [bitmap_wf] keeps them so: this is
    what makes the assertion in [bitmap_alloc] hold. *)

From Stdlib Require Import ZArith Lia.
From stdpp Require Import base numbers list.
From S2P Require Import Prelude.

Definition BITS_PER_WORD : Z := 8.
Definition WORD_ALLBITS : Z := 255.

(** [DIVROUNDUP(a,b)] of kern/include/lib.h, in 32 bits. *)
Definition DIVROUNDUP (a b : Z) : Z := u32 (u32 (a + b) - 1) / b.

Record bitmap := Bitmap { nbits : Z; bm_v : list Z }.

(** The inner loop of [bitmap_create]: [v |= 1 << j] for the leftover bits. *)
Fixpoint mark_over (n : nat) (j : Z) (w : Z) : Z :=
  match n with
  | O => w
  | S n' => mark_over n' (j + 1) (Z.lor w (Z.shiftl 1 j))
  end.

(** [km1] and [km2] tell whether the two [kmalloc] calls succeed. *)
Definition bitmap_create (nb : Z) (km1 km2 : bool) : M unit (option bitmap) :=
  let words := DIVROUNDUP nb BITS_PER_WORD in
  if negb km1 then mret None
  else if negb km2 then mret None
  else
    let v := replicate (Z.to_nat words) 0 in
    if words >? nb / BITS_PER_WORD then
      let ix := words - 1 in
      let overbits := u32 (nb - ix * BITS_PER_WORD) in
      kassert (nb / BITS_PER_WORD =? words - 1);;
      kassert ((overbits >? 0) && (overbits <? BITS_PER_WORD));;
      w ← of_opt (zlookup v ix);
      v' ← of_opt (zupd v ix (mark_over (Z.to_nat (BITS_PER_WORD - overbits)) overbits w));
      mret (Some (Bitmap nb v'))
    else mret (Some (Bitmap nb v)).

Definition bitmap_getdata : M bitmap (list Z) := gets bm_v.

Definition put_word (ix w : Z) : M bitmap unit :=
  b ← get;
  v' ← of_opt (zupd b.(bm_v) ix w);
  modify (λ b, Bitmap b.(nbits) v').

(** One pass of [bitmap_alloc]'s inner loop: try bit [offset] of word [ix]. *)
Definition alloc_bit (ix offset : Z) : M bitmap (option Z) :=
  b ← get;
  w ← of_opt (zlookup b.(bm_v) ix);
  let mask := Z.shiftl 1 offset in
  if Z.land w mask =? 0 then
    put_word ix (Z.lor w mask);;
    let index := u32 (ix * BITS_PER_WORD + offset) in
    kassert (index <? b.(nbits));;
    mret (Some index)
  else mret None.

Definition alloc_word (ix : Z) : M bitmap (option Z) :=
  b ← get;
  w ← of_opt (zlookup b.(bm_v) ix);
  if negb (w =? WORD_ALLBITS) then
    r ← for_find 8 0 (alloc_bit ix);
    match r with
    | Some index => mret (Some index)
    | None => panic
    end
  else mret None.

(** The result is the error code and the index stored on success. *)
Definition bitmap_alloc : M bitmap (Z * option Z) :=
  b ← get;
  let maxix := DIVROUNDUP b.(nbits) BITS_PER_WORD in
  r ← for_find (Z.to_nat maxix) 0 alloc_word;
  match r with
  | Some index => mret (0, Some index)
  | None => mret (ENOSPC, None)
  end.

Definition bitmap_translate (bitno : Z) : Z * Z :=
  (bitno / BITS_PER_WORD, Z.shiftl 1 (bitno mod BITS_PER_WORD)).

Definition bitmap_mark (index : Z) : M bitmap unit :=
  b ← get;
  kassert (index <? b.(nbits));;
  let '(ix, mask) := bitmap_translate index in
  w ← of_opt (zlookup b.(bm_v) ix);
  kassert (Z.land w mask =? 0);;
  put_word ix (Z.lor w mask).

Definition bitmap_unmark (index : Z) : M bitmap unit :=
  b ← get;
  kassert (index <? b.(nbits));;
  let '(ix, mask) := bitmap_translate index in
  w ← of_opt (zlookup b.(bm_v) ix);
  kassert (negb (Z.land w mask =? 0));;
  put_word ix (Z.land w (Z.lnot mask)).

Definition bitmap_isset (index : Z) : M bitmap Z :=
  b ← get;
  let '(ix, mask) := bitmap_translate index in
  w ← of_opt (zlookup b.(bm_v) ix);
  mret (Z.land w mask).

(** ** Abstraction: the truth value of every bit *)

Definition bit (b : bitmap) (i : Z) : bool :=
  Z.testbit (default 0 (zlookup b.(bm_v) (i / 8))) (i mod 8).

Definition bitmap_wf (b : bitmap) : Prop :=
  0 ≤ b.(nbits) ≤ W32 - 8 ∧
  Z.of_nat (length b.(bm_v)) = (b.(nbits) + 7) / 8 ∧
  (∀ ix w, zlookup b.(bm_v) ix = Some w → 0 ≤ w < 256) ∧
  (∀ i, b.(nbits) ≤ i < 8 * Z.of_nat (length b.(bm_v)) → bit b i = true).

(** ** Bit lemmas *)

Lemma divroundup_8 nb : 0 ≤ nb ≤ W32 - 8 → DIVROUNDUP nb BITS_PER_WORD = (nb + 7) / 8.
Proof.
  unfold DIVROUNDUP, BITS_PER_WORD, W32. intros.
  destruct (decide (nb + 8 = 4294967296)).
  - replace (u32 (nb + 8)) with 0 by (unfold u32; lia). unfold u32. lia.
  - rewrite (u32_small (nb + 8)) by (unfold W32; lia). rewrite u32_small by (unfold W32; lia).
    f_equal. lia.
Qed.

Lemma testbit_lor_mask w j k :
  0 ≤ j → Z.testbit (Z.lor w (Z.shiftl 1 j)) k = Z.testbit w k || (k =? j).
Proof.
  intros. rewrite Z.lor_spec. f_equal. rewrite Z.shiftl_1_l, Z.pow2_bits_eqb by done.
  apply Z.eqb_sym.
Qed.

Lemma testbit_land_lnot w j k :
  0 ≤ j → 0 ≤ k → Z.testbit (Z.land w (Z.lnot (Z.shiftl 1 j))) k = Z.testbit w k && negb (k =? j).
Proof.
  intros. rewrite Z.land_spec, Z.lnot_spec, Z.shiftl_1_l, Z.pow2_bits_eqb by done.
  by rewrite Z.eqb_sym.
Qed.

Lemma land_mask w j : 0 ≤ j → Z.land w (Z.shiftl 1 j) = if Z.testbit w j then 2 ^ j else 0.
Proof.
  intros. apply Z.bits_inj'. intros k Hk.
  rewrite Z.land_spec, Z.shiftl_1_l, Z.pow2_bits_eqb by done.
  destruct (Z.eqb_spec j k) as [->|].
  - rewrite andb_true_r. destruct (Z.testbit w k) eqn:E; [|by rewrite Z.bits_0].
    by rewrite Z.pow2_bits_true.
  - rewrite andb_false_r. destruct (Z.testbit w j); [|by rewrite Z.bits_0].
    by rewrite Z.pow2_bits_false.
Qed.

Lemma land_mask_eqb w j : 0 ≤ j → (Z.land w (Z.shiftl 1 j) =? 0) = negb (Z.testbit w j).
Proof.
  intros. rewrite land_mask by done. pose proof (Z.pow_pos_nonneg 2 j).
  destruct (Z.testbit w j); simpl; [apply Z.eqb_neq; lia|done].
Qed.

Lemma byte_high_bits w k : 0 ≤ w < 256 → 8 ≤ k → Z.testbit w k = false.
Proof.
  intros. destruct (decide (w = 0)) as [->|]; [by rewrite Z.bits_0|].
  apply Z.bits_above_log2; [lia|]. apply Z.log2_lt_pow2; [lia|].
  pose proof (Z.pow_le_mono_r 2 8 k). lia.
Qed.

Lemma byte_range w : 0 ≤ w → (∀ k, 8 ≤ k → Z.testbit w k = false) → w < 256.
Proof.
  intros Hw Hk. destruct (decide (w < 256)); [done|]. exfalso.
  assert (8 ≤ Z.log2 w) by (apply Z.log2_le_pow2; lia).
  specialize (Hk (Z.log2 w)). rewrite Z.bit_log2 in Hk by lia. by discriminate Hk.
Qed.

Lemma byte_full w : 0 ≤ w < 256 → (∀ k, 0 ≤ k < 8 → Z.testbit w k = true) → w = 255.
Proof.
  intros Hw Hk. apply Z.bits_inj'. intros k Hk0. change 255 with (Z.ones 8).
  destruct (decide (k < 8)).
  - rewrite Z.ones_spec_low by lia. apply Hk. lia.
  - rewrite Z.ones_spec_high by lia. apply byte_high_bits; lia.
Qed.

(** ** Effect of writing one word *)

Lemma bit_word b i w : zlookup b.(bm_v) (i / 8) = Some w → bit b i = Z.testbit w (i mod 8).
Proof. unfold bit. by intros ->. Qed.

Lemma bit_put b ix w w' i :
  zlookup b.(bm_v) ix = Some w →
  bit (Bitmap b.(nbits) (<[Z.to_nat ix := w']> b.(bm_v))) i =
  if ix =? i / 8 then Z.testbit w' (i mod 8) else bit b i.
Proof.
  intros Hw%zlookup_Some_lt. unfold bit; simpl. rewrite zlookup_insert by done.
  by destruct (ix =? i / 8).
Qed.

Lemma put_word_spec b ix w w' :
  bitmap_wf b → zlookup b.(bm_v) ix = Some w → 0 ≤ w' < 256 →
  (∀ i, b.(nbits) ≤ i → ix = i / 8 → Z.testbit w' (i mod 8) = Z.testbit w (i mod 8)) →
  wp (put_word ix w')
     (λ _ b', bitmap_wf b' ∧ b' = Bitmap b.(nbits) (<[Z.to_nat ix := w']> b.(bm_v))) b.
Proof.
  intros (Hn & Hl & Hb & Ho) Hw Hw' Hover. unfold put_word. apply wp_get.
  eapply wp_of_opt; [apply zupd_Some; by eapply zlookup_Some_lt|].
  wp_go. split; [|done]. split; [done|]. split; [simpl; by rewrite length_insert|].
  split; simpl.
  - intros jx x. rewrite zlookup_insert by (by eapply zlookup_Some_lt).
    destruct (ix =? jx); [intros [= <-]|intros Hx; apply Hb in Hx]; lia.
  - rewrite length_insert. intros i Hi. erewrite bit_put by done.
    destruct (Z.eqb_spec ix (i / 8)) as [->|]; [|by apply Ho].
    rewrite Hover by (try done; lia). rewrite <- (bit_word b) by done. by apply Ho.
Qed.

Lemma mask_byte w j :
  0 ≤ w < 256 → 0 ≤ j < 8 → 0 ≤ Z.lor w (Z.shiftl 1 j) < 256.
Proof.
  intros. assert (0 ≤ Z.lor w (Z.shiftl 1 j)).
  { apply Z.lor_nonneg. split; [lia|]. apply Z.shiftl_nonneg. lia. }
  split; [done|]. apply byte_range; [done|]. intros k Hk.
  rewrite testbit_lor_mask, byte_high_bits by lia. simpl. apply Z.eqb_neq. lia.
Qed.

Lemma unmask_byte w j :
  0 ≤ w < 256 → 0 ≤ j < 8 → 0 ≤ Z.land w (Z.lnot (Z.shiftl 1 j)) < 256.
Proof.
  intros. assert (0 ≤ Z.land w (Z.lnot (Z.shiftl 1 j))) by (apply Z.land_nonneg; lia).
  split; [done|]. apply byte_range; [done|]. intros k Hk.
  by rewrite testbit_land_lnot, byte_high_bits by lia.
Qed.

Lemma bit_index i ix off : 0 ≤ off < 8 → (ix =? i / 8) && (i mod 8 =? off) = (i =? ix * 8 + off).
Proof. intros. destruct (Z.eqb_spec ix (i / 8)), (Z.eqb_spec (i mod 8) off), (Z.eqb_spec i (ix * 8 + off)); simpl; lia. Qed.

(** Setting bit [off] of word [ix] in a well-formed bitmap. *)
Lemma mark_word_spec b ix w off :
  bitmap_wf b → zlookup b.(bm_v) ix = Some w → 0 ≤ off < 8 → ix * 8 + off < b.(nbits) →
  wp (put_word ix (Z.lor w (Z.shiftl 1 off)))
     (λ _ b', bitmap_wf b' ∧ b'.(nbits) = b.(nbits) ∧
              ∀ i, bit b' i = bit b i || (i =? ix * 8 + off)) b.
Proof.
  intros Hwf Hw Hoff Hin. pose proof Hwf as (_ & _ & Hb & _).
  eapply wp_mono; [|eapply put_word_spec; [done..|by apply mask_byte; [eauto|]|]].
  - intros [] b' [? ->]. split; [done|]. split; [done|]. intros i.
    erewrite bit_put by done. rewrite <- bit_index by done.
    destruct (Z.eqb_spec ix (i / 8)) as [->|]; simpl; [|by rewrite orb_false_r].
    rewrite testbit_lor_mask by lia. by rewrite <- (bit_word b) by done.
  - intros i ? ->. rewrite testbit_lor_mask by lia.
    rewrite (proj2 (Z.eqb_neq _ _)) by lia. apply orb_false_r.
Qed.

Lemma unmark_word_spec b ix w off :
  bitmap_wf b → zlookup b.(bm_v) ix = Some w → 0 ≤ off < 8 → ix * 8 + off < b.(nbits) →
  wp (put_word ix (Z.land w (Z.lnot (Z.shiftl 1 off))))
     (λ _ b', bitmap_wf b' ∧ b'.(nbits) = b.(nbits) ∧
              ∀ i, bit b' i = bit b i && negb (i =? ix * 8 + off)) b.
Proof.
  intros Hwf Hw Hoff Hin. pose proof Hwf as (_ & _ & Hb & _).
  eapply wp_mono; [|eapply put_word_spec; [done..|by apply unmask_byte; [eauto|]|]].
  - intros [] b' [? ->]. split; [done|]. split; [done|]. intros i.
    erewrite bit_put by done. rewrite <- bit_index by done.
    destruct (Z.eqb_spec ix (i / 8)) as [->|]; simpl; [|by rewrite andb_true_r].
    rewrite testbit_land_lnot by lia. by rewrite <- (bit_word b) by done.
  - intros i ? ->. rewrite testbit_land_lnot by lia.
    rewrite (proj2 (Z.eqb_neq _ _)) by lia. apply andb_true_r.
Qed.

Lemma word_of b i :
  bitmap_wf b → 0 ≤ i < 8 * Z.of_nat (length b.(bm_v)) →
  ∃ w, zlookup b.(bm_v) (i / 8) = Some w ∧ 0 ≤ w < 256 ∧ bit b i = Z.testbit w (i mod 8).
Proof.
  intros (_ & _ & Hb & _) Hi. destruct (zlookup_is_Some (bm_v b) (i / 8)) as [w Hw]; [lia|].
  exists w. eauto using bit_word.
Qed.

(** ** Allocation *)

(** What a successful allocation from [b] is: the lowest clear bit, now set. *)
Definition allocates (b : bitmap) (i : Z) (b' : bitmap) : Prop :=
  0 ≤ i < b.(nbits) ∧ bit b i = false ∧ (∀ j, 0 ≤ j < i → bit b j = true) ∧
  bitmap_wf b' ∧ b'.(nbits) = b.(nbits) ∧ ∀ j, bit b' j = bit b j || (j =? i).

Lemma alloc_bit_spec b ix off :
  bitmap_wf b → 0 ≤ ix < Z.of_nat (length b.(bm_v)) → 0 ≤ off < 8 →
  (∀ j, 0 ≤ j < ix * 8 + off → bit b j = true) →
  wp (alloc_bit ix off)
     (λ r b', match r with
              | Some i => allocates b i b'
              | None => b' = b ∧ bit b (ix * 8 + off) = true
              end) b.
Proof.
  intros Hwf Hix Hoff Hlow. pose proof Hwf as (Hn & Hl & _ & Ho). unfold W32 in Hn.
  destruct (word_of b (ix * 8 + off)) as (w & Hw & Hwb & Hbit); [done|lia|].
  replace ((ix * 8 + off) / 8) with ix in Hw by lia.
  replace ((ix * 8 + off) mod 8) with off in Hbit by lia.
  unfold alloc_bit. apply wp_get. eapply wp_of_opt; [done|].
  cbv zeta. rewrite land_mask_eqb by lia.
  destruct (Z.testbit w off) eqn:E; simpl; [by apply wp_ret|].
  destruct (decide (ix * 8 + off < nbits b)) as [Hin|Hout].
  - unfold BITS_PER_WORD. rewrite u32_small by (unfold W32; lia).
    apply wp_bind. eapply wp_mono; [|by apply mark_word_spec].
    intros [] b' (? & ? & Hb'). apply wp_kassert; [by apply Z.ltb_lt|].
    apply wp_ret. split; [lia|]. split; [by rewrite Hbit|]. auto.
  - rewrite Ho in Hbit by lia. congruence.
Qed.

Lemma alloc_word_spec b ix :
  bitmap_wf b → 0 ≤ ix < Z.of_nat (length b.(bm_v)) →
  (∀ j, 0 ≤ j < ix * 8 → bit b j = true) →
  wp (alloc_word ix)
     (λ r b', match r with
              | Some i => allocates b i b'
              | None => b' = b ∧ ∀ j, 0 ≤ j < (ix + 1) * 8 → bit b j = true
              end) b.
Proof.
  intros Hwf Hix Hlow. unfold alloc_word. apply wp_get.
  destruct (word_of b (ix * 8)) as (w & Hw & Hwb & _); [done|lia|].
  replace (ix * 8 / 8) with ix in Hw by lia.
  assert (∀ off, 0 ≤ off < 8 → bit b (ix * 8 + off) = Z.testbit w off) as Hbits.
  { intros off ?. erewrite bit_word; [|by replace ((ix * 8 + off) / 8) with ix by lia].
    f_equal. lia. }
  eapply wp_of_opt; [done|]. unfold WORD_ALLBITS. destruct (Z.eqb_spec w 255) as [->|Hne]; simpl.
  - apply wp_ret. split; [done|]. intros j Hj.
    destruct (decide (j < ix * 8)); [apply Hlow; lia|].
    replace j with (ix * 8 + (j - ix * 8)) by lia. rewrite Hbits by lia.
    change 255 with (Z.ones 8). apply Z.ones_spec_low. lia.
  - apply wp_bind.
    apply (wp_for_find (λ off b', b' = b ∧ ∀ j, 0 ≤ j < ix * 8 + off → bit b j = true)).
    + split; [done|]. intros. apply Hlow. lia.
    + intros off b' Hoff [-> Hlow']. eapply wp_mono; [|apply alloc_bit_spec; auto; lia].
      intros [i|] b'; [intros; by apply wp_ret|]. intros [-> Hset]. split; [done|].
      intros j Hj. destruct (decide (j = ix * 8 + off)) as [->|]; [done|apply Hlow'; lia].
    + intros b' [-> Hall]. exfalso. apply Hne, byte_full; [done|].
      intros k Hk. rewrite <- Hbits by done. apply Hall. lia.
Qed.

Lemma bitmap_alloc_wp b :
  bitmap_wf b →
  wp bitmap_alloc
     (λ r b', match r with
              | (e, Some i) => e = 0 ∧ allocates b i b'
              | (e, None) => e = ENOSPC ∧ b' = b ∧ ∀ j, 0 ≤ j < b.(nbits) → bit b j = true
              end) b.
Proof.
  intros Hwf. pose proof Hwf as (Hn & Hl & _). unfold bitmap_alloc. apply wp_get.
  cbv zeta. rewrite divroundup_8 by done. apply wp_bind.
  apply (wp_for_find (λ ix b', b' = b ∧ ∀ j, 0 ≤ j < ix * 8 → bit b j = true)).
  - split; [done|]. intros. lia.
  - intros ix b' Hix [-> Hlow]. eapply wp_mono; [|apply alloc_word_spec; auto; lia].
    intros [i|] b'; [intros; by apply wp_ret|done].
  - intros b' [-> Hall]. apply wp_ret. split; [done|]. split; [done|].
    intros j Hj. apply Hall. lia.
Qed.

Lemma bitmap_unmark_wp b i :
  bitmap_wf b → 0 ≤ i < b.(nbits) → bit b i = true →
  wp (bitmap_unmark i)
     (λ _ b', bitmap_wf b' ∧ b'.(nbits) = b.(nbits) ∧ ∀ j, bit b' j = bit b j && negb (j =? i)) b.
Proof.
  intros Hwf Hi Hset. pose proof Hwf as (Hn & Hl & _).
  unfold bitmap_unmark, bitmap_translate, BITS_PER_WORD.
  apply wp_get, wp_kassert; [apply Z.ltb_lt; lia|].
  destruct (word_of b i) as (w & Hw & Hwb & Hbit); [done|lia|].
  eapply wp_of_opt; [done|]. apply wp_kassert.
  { rewrite land_mask_eqb by lia. by rewrite <- Hbit, Hset. }
  eapply wp_mono; [|apply unmark_word_spec; [done..|lia|lia]].
  intros [] b' (? & ? & Hb'). split; [done|]. split; [done|]. intros j. rewrite Hb'.
  by replace (i / 8 * 8 + i mod 8) with i by lia.
Qed.

Lemma bitmap_mark_wp b i :
  bitmap_wf b → 0 ≤ i < b.(nbits) → bit b i = false →
  wp (bitmap_mark i)
     (λ _ b', bitmap_wf b' ∧ b'.(nbits) = b.(nbits) ∧ ∀ j, bit b' j = bit b j || (j =? i)) b.
Proof.
  intros Hwf Hi Hset. pose proof Hwf as (Hn & Hl & _).
  unfold bitmap_mark, bitmap_translate, BITS_PER_WORD.
  apply wp_get, wp_kassert; [apply Z.ltb_lt; lia|].
  destruct (word_of b i) as (w & Hw & Hwb & Hbit); [done|lia|].
  eapply wp_of_opt; [done|]. apply wp_kassert.
  { rewrite land_mask_eqb by lia. by rewrite <- Hbit, Hset. }
  eapply wp_mono; [|apply mark_word_spec; [done..|lia|lia]].
  intros [] b' (? & ? & Hb'). split; [done|]. split; [done|]. intros j. rewrite Hb'.
  by replace (i / 8 * 8 + i mod 8) with i by lia.
Qed.

Lemma bitmap_isset_wp b i :
  bitmap_wf b → 0 ≤ i < b.(nbits) → wp (bitmap_isset i) (λ w b', b' = b ∧ negb (w =? 0) = bit b i) b.
Proof.
  intros Hwf Hi. pose proof Hwf as (Hn & Hl & _). unfold bitmap_isset, bitmap_translate, BITS_PER_WORD.
  apply wp_get. destruct (word_of b i) as (w & Hw & Hwb & Hbit); [done|lia|].
  eapply wp_of_opt; [done|]. apply wp_ret. split; [done|].
  rewrite land_mask_eqb, negb_involutive by lia. done.
Qed.

(** ** Creation *)

Lemma testbit_mark_over n j w k :
  0 ≤ j → Z.testbit (mark_over n j w) k = Z.testbit w k || ((j <=? k) && (k <? j + Z.of_nat n)).
Proof.
  revert j w. induction n as [|n IH]; intros j w Hj; simpl mark_over.
  - destruct (Z.leb_spec j k), (Z.ltb_spec k (j + Z.of_nat 0)); simpl; try lia;
      by rewrite orb_false_r.
  - rewrite IH, testbit_lor_mask by lia. rewrite <- orb_assoc. f_equal.
    destruct (Z.eqb_spec k j), (Z.leb_spec (j + 1) k), (Z.leb_spec j k),
      (Z.ltb_spec k (j + 1 + Z.of_nat n)), (Z.ltb_spec k (j + Z.of_nat (S n))); simpl; lia.
Qed.

Lemma mark_over_byte n j w :
  0 ≤ w < 256 → 0 ≤ j → j + Z.of_nat n ≤ 8 → 0 ≤ mark_over n j w < 256.
Proof.
  revert j w. induction n as [|n IH]; intros j w Hw Hj Hn; simpl; [lia|].
  apply IH; [apply mask_byte; lia|lia..].
Qed.

Lemma zlookup_replicate n (i : Z) : 0 ≤ i < Z.of_nat n → zlookup (replicate n 0) i = Some 0.
Proof. intros. unfold zlookup. rewrite (proj2 (Z.leb_le _ _)) by lia. apply lookup_replicate_2. lia. Qed.

Lemma bitmap_create_wp nb :
  0 ≤ nb ≤ W32 - 8 →
  wp (bitmap_create nb true true)
     (λ r _, ∃ b, r = Some b ∧ bitmap_wf b ∧ b.(nbits) = nb ∧ ∀ i, 0 ≤ i < nb → bit b i = false) tt.
Proof.
  intros Hnb. unfold bitmap_create. cbv zeta. rewrite divroundup_8 by done. simpl negb.
  cbv iota. unfold BITS_PER_WORD. unfold W32 in Hnb. rewrite Z.gtb_ltb.
  set (n := Z.to_nat ((nb + 7) / 8)).
  assert (∀ i, 0 ≤ i < 8 * Z.of_nat n → zlookup (replicate n 0) (i / 8) = Some 0) as Hz
    by (intros; apply zlookup_replicate; lia).
  destruct (Z.ltb_spec (nb / 8) ((nb + 7) / 8)) as [Hover|Hfull].
  - rewrite u32_small by (unfold W32; lia).
    apply wp_kassert; [apply Z.eqb_eq; lia|].
    apply wp_kassert; [apply andb_true_iff; split; [apply Z.gtb_lt|apply Z.ltb_lt]; lia|].
    eapply wp_of_opt; [apply zlookup_replicate; lia|].
    eapply wp_of_opt; [apply zupd_Some; rewrite length_replicate; lia|].
    set (over := nb - _). set (w := mark_over _ _ _).
    assert (∀ i, 0 ≤ i < 8 * Z.of_nat n →
      bit (Bitmap nb (<[Z.to_nat ((nb + 7) / 8 - 1) := w]> (replicate n 0))) i = (nb <=? i)) as Hbit.
    { intros i Hi. unfold bit; simpl. rewrite zlookup_insert by (rewrite length_replicate; lia).
      destruct (Z.eqb_spec ((nb + 7) / 8 - 1) (i / 8)) as [E|E].
      - simpl. unfold w. rewrite testbit_mark_over, Z.bits_0 by (unfold over; lia). simpl.
        destruct (Z.leb_spec over (i mod 8)), (Z.leb_spec nb i),
          (Z.ltb_spec (i mod 8) (over + Z.of_nat (Z.to_nat (8 - over)))); unfold over in *; simpl; lia.
      - rewrite Hz by done. simpl. rewrite Z.bits_0. symmetry. apply Z.leb_gt. lia. }
    apply wp_ret. eexists. split; [done|]. split; [|split; [done|]].
    + split; [simpl; unfold W32; lia|]. simpl. rewrite length_insert, length_replicate.
      split; [lia|]. split.
      * intros ix x. rewrite zlookup_insert by (rewrite length_replicate; lia).
        destruct (_ =? ix); [intros [= <-]; apply mark_over_byte; unfold over; lia|].
        intros Hx. pose proof (zlookup_Some_lt _ _ _ Hx) as Hlt. rewrite length_replicate in Hlt.
        rewrite zlookup_replicate in Hx by lia. simplify_eq. lia.
      * intros i Hi. rewrite Hbit by lia. apply Z.leb_le. lia.
    + intros i Hi. rewrite Hbit by lia. apply Z.leb_gt. lia.
  - apply wp_ret. eexists. split; [done|]. split; [|split; [done|]].
    + split; [simpl; unfold W32; lia|]. simpl. rewrite length_replicate. split; [lia|]. split; [|lia].
      intros ix x Hx. pose proof (zlookup_Some_lt _ _ _ Hx) as Hlt. rewrite length_replicate in Hlt.
      rewrite zlookup_replicate in Hx by lia. simplify_eq. lia.
    + intros i Hi. unfold bit; simpl. rewrite Hz by lia. apply Z.bits_0.
Qed.

(** ** Properties *)

(** [bitmap_alloc] is a correct first-fit allocator of bits: on a
    well-formed bitmap it terminates, its internal assertions never fail, and
    it either returns 0 with the lowest clear index (which is below the number
    of bits), sets exactly that bit and keeps the invariant, or returns ENOSPC
    with the bitmap unchanged, which happens only when every bit is set. *)
Theorem bitmap_alloc_lowest_clear (b : bitmap) :
  bitmap_wf b →
  wp bitmap_alloc
     (λ r b', match r with
              | (e, Some i) => e = 0 ∧ allocates b i b'
              | (e, None) => e = ENOSPC ∧ b' = b ∧ ∀ j, 0 ≤ j < b.(nbits) → bit b j = true
              end) b.
Proof. apply bitmap_alloc_wp. Qed.

Lemma bitmap_10_wf : bitmap_wf (Bitmap 10 [7; 252]).
Proof.
  split; [unfold W32; simpl; lia|]. split; [done|]. split.
  - intros ix w Hw. pose proof (zlookup_Some_lt _ _ _ Hw) as Hlt. simpl in Hlt.
    assert (ix = 0 ∨ ix = 1) as [-> | ->] by lia; compute in Hw; simplify_eq; lia.
  - intros i Hi. simpl in Hi.
    assert (i = 10 ∨ i = 11 ∨ i = 12 ∨ i = 13 ∨ i = 14 ∨ i = 15) as Hi' by lia.
    destruct_or! Hi'; subst; reflexivity.
Qed.

Lemma bitmap_alloc_lowest_clear_witness :
  wp bitmap_alloc
     (λ r b', match r with
              | (e, Some i) => e = 0 ∧ allocates (Bitmap 10 [7; 252]) i b'
              | (e, None) => e = ENOSPC ∧ b' = Bitmap 10 [7; 252] ∧
                             ∀ j, 0 ≤ j < 10 → bit (Bitmap 10 [7; 252]) j = true
              end) (Bitmap 10 [7; 252]) ∧
  bitmap_alloc (Bitmap 10 [7; 252]) = Ret (0, Some 3) (Bitmap 10 [15; 252]).
Proof.
  split; [|reflexivity]. apply (bitmap_alloc_lowest_clear (Bitmap 10 [7; 252])).
  exact bitmap_10_wf.
Defined.

(** [bitmap_create] (when both allocations succeed) returns a well-formed
    bitmap of the requested size in which every bit below [nbits] is clear and
    every leftover bit of the last byte is marked in use; both of its internal
    assertions hold for every size up to [2^32 - 8]. *)
Lemma bitmap_create_clear (nb : Z) :
  0 ≤ nb ≤ W32 - 8 →
  wp (bitmap_create nb true true)
     (λ r _, ∃ b, r = Some b ∧ bitmap_wf b ∧ b.(nbits) = nb ∧ ∀ i, 0 ≤ i < nb → bit b i = false) tt.
Proof. apply bitmap_create_wp. Qed.

Lemma bitmap_create_clear_witness :
  wp (bitmap_create 10 true true)
     (λ r _, ∃ b, r = Some b ∧ bitmap_wf b ∧ b.(nbits) = 10 ∧ ∀ i, 0 ≤ i < 10 → bit b i = false) tt.
Proof. apply bitmap_create_clear. unfold W32. lia. Defined.

(** Freeing the index an allocation returned restores every bit of the
    bitmap, and the next allocation returns the same index again. *)
Theorem bitmap_alloc_unmark_alloc (b b1 : bitmap) (i : Z) :
  bitmap_wf b → bitmap_alloc b = Ret (0, Some i) b1 →
  wp (bitmap_unmark i;; b2 ← get; r ← bitmap_alloc; mret (r, b2))
     (λ r b', r.1 = (0, Some i) ∧ (∀ j, bit r.2 j = bit b j) ∧ (∀ j, bit b' j = bit b1 j)) b1.
Proof.
  intros Hwf Halloc. pose proof (bitmap_alloc_wp b Hwf) as H1. unfold wp in H1.
  rewrite Halloc in H1. destruct H1 as (_ & Hi & Hclear & Hlow & Hwf1 & Hn1 & Hb1).
  apply wp_bind. eapply wp_mono; [|apply bitmap_unmark_wp; [done|lia|]];
    [|by rewrite Hb1, Z.eqb_refl, orb_true_r].
  intros [] b2 (Hwf2 & Hn2 & Hb2).
  assert (∀ j, bit b2 j = bit b j) as Hsame.
  { intros j. rewrite Hb2, Hb1. destruct (Z.eqb_spec j i) as [->|]; simpl;
      [by rewrite andb_false_r|]. by rewrite orb_false_r, andb_true_r. }
  apply wp_get, wp_bind. eapply wp_mono; [|by apply bitmap_alloc_wp].
  intros [e [i'|]] b3.
  - intros (-> & Hi' & Hclear' & Hlow' & _ & _ & Hb3). apply wp_ret; simpl.
    assert (i' = i) as ->.
    { destruct (Z.lt_trichotomy i i') as [Hlt|[?|Hlt]]; [|done|].
      - rewrite <- Hsame, Hlow' in Hclear; [done|lia].
      - rewrite Hsame, Hlow in Hclear'; [done|lia]. }
    split; [done|]. split; [done|]. intros j. by rewrite Hb3, Hsame, Hb1.
  - intros (_ & _ & Hall). rewrite <- Hsame, Hall in Hclear; [done|lia].
Qed.

Lemma bitmap_alloc_unmark_alloc_witness :
  wp (bitmap_unmark 3;; b2 ← get; r ← bitmap_alloc; mret (r, b2))
     (λ r b', r.1 = (0, Some 3) ∧ (∀ j, bit r.2 j = bit (Bitmap 10 [7; 252]) j) ∧
              (∀ j, bit b' j = bit (Bitmap 10 [15; 252]) j)) (Bitmap 10 [15; 252]).
Proof.
  apply (bitmap_alloc_unmark_alloc (Bitmap 10 [7; 252]) (Bitmap 10 [15; 252]) 3).
  - exact bitmap_10_wf.
  - reflexivity.
Defined.
