(* ===== verification/Queue.v ===== *)
(** * The circular queue of pointers (kern/lib/queue.c)

    A queue is the C record: capacity, write and read positions and the cells
    of the data block.  [q_grow] and [q_addtail] call each other; the recursion
    is bounded by a depth argument, and the theorems show that depth 2 is
    enough (a grown queue never grows again while it is being refilled).
    [queue_repr q l] relates a queue to the FIFO list it holds. *)

From Stdlib Require Import ZArith Lia.
From stdpp Require Import base numbers list.
From S2P Require Import Prelude KArray.

Record queue (V : Type) := Queue {
  q_size : Z;
  nextwrite : Z;
  nextread : Z;
  q_data : list V;
}.
Arguments Queue {V} _ _ _ _.
Arguments q_size {V} _.
Arguments nextwrite {V} _.
Arguments nextread {V} _.
Arguments q_data {V} _.

Section queue.
Context {V : Type}.
Implicit Types (q : queue V) (km : Z → option (list V)).

(** [while (nsize < targetsize) { nsize *= 2; KASSERT(nsize > 0); }] *)
Fixpoint q_newsize (fuel : nat) (targetsize nsize : Z) : M (queue V) Z :=
  if nsize <? targetsize then
    match fuel with
    | O => diverge
    | S f => kassert (s32 (nsize * 2) >? 0);; q_newsize f targetsize (s32 (nsize * 2))
    end
  else mret nsize.

(** [for (i=onr; i!=onw; i=(i+1)%osize) { result = q_addtail(q, olddata[i]); ... }] *)
Fixpoint q_refill (fuel : nat) (addtail : V → M (queue V) Z)
    (olddata : list V) (osize onw i : Z) : M (queue V) unit :=
  if i =? onw then mret tt
  else match fuel with
       | O => diverge
       | S f =>
           x ← of_opt (zlookup olddata i);
           result ← addtail x;
           kassert (result =? 0);;
           q_refill f addtail olddata osize onw ((i + 1) mod osize)
       end.

Definition q_grow (addtail : V → M (queue V) Z) km (targetsize : Z) : M (queue V) Z :=
  q ← get;
  nsize ← q_newsize 32 targetsize q.(q_size);
  match km (u32 (nsize * 4)) with
  | None => mret ENOMEM
  | Some ndata =>
      modify (λ _, Queue nsize 0 0 ndata);;
      q_refill (Z.to_nat q.(q_size)) addtail q.(q_data) q.(q_size) q.(nextwrite) q.(nextread);;
      mret 0
  end.

Definition q_empty q : bool := nextwrite q =? nextread q.

Definition q_store (ptr : V) (nextnext : Z) : M (queue V) Z :=
  q ← get;
  d ← of_opt (zupd q.(q_data) q.(nextwrite) ptr);
  modify (λ q, Queue q.(q_size) nextnext q.(nextread) d);;
  mret 0.

Fixpoint q_addtail (depth : nat) km (ptr : V) : M (queue V) Z :=
  match depth with
  | O => diverge
  | S d =>
      q ← get;
      kassert (q.(q_size) >? 0);;
      let nextnext := (q.(nextwrite) + 1) mod q.(q_size) in
      if nextnext =? q.(nextread) then
        result ← q_grow (q_addtail d km) km (q.(q_size) + 1);
        if negb (result =? 0) then mret result
        else
          q ← get;
          q_store ptr ((q.(nextwrite) + 1) mod q.(q_size))
      else q_store ptr nextnext
  end.

Definition q_create km (size : Z) : option (queue V) :=
  match km (u32 (size * 4)) with
  | None => None
  | Some d => Some (Queue size 0 0 d)
  end.

Definition q_preallocate km (size : Z) : M (queue V) Z :=
  q ← get;
  kassert (q.(q_size) >? 0);;
  if size >? q.(q_size) then q_grow (q_addtail 2 km) km size else mret 0.

Definition q_remhead : M (queue V) V :=
  q ← get;
  kassert (q.(q_size) >? 0);;
  kassert (negb (q_empty q));;
  ret ← of_opt (zlookup q.(q_data) q.(nextread));
  modify (λ q, Queue q.(q_size) q.(nextwrite) ((q.(nextread) + 1) mod q.(q_size)) q.(q_data));;
  mret ret.

Definition q_destroy : M (queue V) unit :=
  q ← get;
  kassert (q_empty q).

Definition q_getstart : M (queue V) Z := gets nextread.
Definition q_getend : M (queue V) Z := gets nextwrite.
Definition q_getsize : M (queue V) Z := gets q_size.

Definition q_getguy (index : Z) : M (queue V) V :=
  q ← get;
  kassert ((index >=? 0) && (index <? q.(q_size)));;
  of_opt (zlookup q.(q_data) index).

Definition q_peek : M (queue V) (option V) :=
  q ← get;
  kassert (q.(q_size) >? 0);;
  if q_empty q then mret None
  else x ← of_opt (zlookup q.(q_data) q.(nextread)); mret (Some x).

(** [while (tmp != nextwrite) { tmp = (tmp+1) % size; count++; }] *)
Fixpoint q_count (fuel : nat) q (tmp count : Z) : option Z :=
  if tmp =? q.(nextwrite) then Some count
  else match fuel with
       | O => None
       | S f => q_count f q ((tmp + 1) mod q.(q_size)) (count + 1)
       end.

Definition q_len : M (queue V) Z :=
  q ← get;
  match q_count (Z.to_nat q.(q_size)) q q.(nextread) 0 with
  | Some n => mret n
  | None => diverge
  end.

(** ** Capacities *)

(** The capacity of a ring of [c] cells that has been made to hold [n]: [c] doubled
    as often as it takes. *)
Definition capacity_for (c n : Z) : Z := c * 2 ^ Z.log2_up ((n + c - 1) / c).

Lemma ceil_le c n m : 0 < c → (n + c - 1) / c ≤ m ↔ n ≤ c * m.
Proof.
  intros Hc. split; intros H.
  - pose proof (Z.mod_pos_bound (n + c - 1) c Hc). pose proof (Z.div_mod (n + c - 1) c). nia.
  - apply Z.lt_succ_r, Z.div_lt_upper_bound; nia.
Qed.

Lemma capacity_enough c n : 0 < c → n ≤ c → capacity_for c n = c.
Proof.
  intros Hc Hn. unfold capacity_for. rewrite Z.log2_up_eqn0 by (apply ceil_le; lia). lia.
Qed.

Lemma capacity_double c n : 0 < c < n → capacity_for (c * 2) n = capacity_for c n.
Proof.
  intros [Hc Hn]. unfold capacity_for. set (a := (n + c - 1) / c).
  assert (1 < a) as Ha by (apply Z.lt_nge; unfold a; rewrite ceil_le; lia).
  destruct (Z.log2_up_spec a Ha) as [Hl Hu]. unfold a in Hu. rewrite ceil_le in Hu by done.
  apply Z.lt_nge in Hl. unfold a in Hl. rewrite ceil_le in Hl by done. fold a in Hl, Hu.
  pose proof (Z.log2_up_pos a Ha) as Hp. set (k := Z.log2_up a) in *.
  replace k with (Z.succ (Z.pred k)) in Hu |- * by lia. rewrite Z.pow_succ_r in Hu |- * by lia.
  assert (Z.log2_up ((n + c * 2 - 1) / (c * 2)) = Z.pred k) as ->; [|lia].
  destruct (decide (k = 1)) as [->|Hk].
  - apply Z.log2_up_eqn0, ceil_le; [lia|]. simpl in Hu. lia.
  - apply Z.log2_up_unique; [lia|]. split; [apply Z.lt_nge|]; rewrite ceil_le by lia; [|lia].
    replace (Z.pred k) with (Z.succ (Z.pred (Z.pred k))) in Hl by lia. rewrite Z.pow_succ_r in Hl by lia. lia.
Qed.

Lemma capacity_ge c n : 0 < c → n ≤ capacity_for c n.
Proof.
  intros Hc. unfold capacity_for. apply ceil_le; [done|]. destruct (Z.le_gt_cases ((n + c - 1) / c) 1) as [H|H].
  - rewrite Z.log2_up_eqn0 by done. simpl. lia.
  - by apply Z.log2_up_spec.
Qed.

(** ** Representation *)

Definition queue_repr q (l : list V) : Prop :=
  0 < q.(q_size) ∧ Z.of_nat (length q.(q_data)) = q.(q_size) ∧
  0 ≤ q.(nextread) < q.(q_size) ∧
  Z.of_nat (length l) < q.(q_size) ∧
  q.(nextwrite) = (q.(nextread) + Z.of_nat (length l)) mod q.(q_size) ∧
  ∀ k x, l !! k = Some x → zlookup q.(q_data) ((q.(nextread) + Z.of_nat k) mod q.(q_size)) = Some x.

(** Positions in a ring of [n] cells. *)
Lemma ring_step n i : 0 < n → (i mod n + 1) mod n = (i + 1) mod n.
Proof. intros. by rewrite Zplus_mod_idemp_l. Qed.

Lemma ring_inj n i j k : 0 < n → 0 ≤ j < n → 0 ≤ k < n → (i + j) mod n = (i + k) mod n → j = k.
Proof.
  intros Hn Hj Hk E. assert ((j - k) mod n = 0) as E0.
  { replace (j - k) with ((i + j) - (i + k)) by lia. rewrite Zminus_mod, E, Z.sub_diag. by apply Z.mod_0_l; lia. }
  clear E. apply Z.mod_divide in E0 as [m Hm]; [|lia]. assert (m = 0) by nia. lia.
Qed.

Lemma q_store_spec q l x :
  queue_repr q l → Z.of_nat (length l) + 1 < q.(q_size) →
  wp (q_store x ((q.(nextwrite) + 1) mod q.(q_size)))
     (λ r q', r = 0 ∧ q'.(q_size) = q.(q_size) ∧ queue_repr q' (l ++ [x])) q.
Proof.
  intros (Hs & Hd & Hr & Hl & Hw & Hc) Hroom. unfold q_store. apply wp_get.
  pose proof (Z.mod_pos_bound (nextread q + Z.of_nat (length l)) (q_size q) Hs).
  eapply wp_of_opt; [apply zupd_Some; lia|].
  wp_go. split; [done|]. split; [done|]. split; [done|]. simpl.
  rewrite length_insert, length_app, Nat2Z.inj_add. simpl length.
  repeat (split; [first [done|lia]|]). split.
  { rewrite Hw, ring_step by done. f_equal. lia. }
  intros k y Hk. rewrite zlookup_insert by lia.
  apply lookup_app_Some in Hk as [Hk|[Hge Hk]].
  - pose proof (lookup_lt_Some _ _ _ Hk). destruct (Z.eqb_spec (nextwrite q) ((nextread q + Z.of_nat k) mod q_size q)) as [E|E].
    + rewrite Hw in E. apply ring_inj in E; lia.
    + by apply Hc.
  - apply list_lookup_singleton_Some in Hk as [Hk <-].
    rewrite (proj2 (Z.eqb_eq _ _)); [done|]. rewrite Hw. do 2 f_equal. lia.
Qed.

Lemma q_addtail_room d km q l x :
  queue_repr q l → Z.of_nat (length l) + 1 < q.(q_size) →
  wp (q_addtail (S d) km x)
     (λ r q', r = 0 ∧ q'.(q_size) = q.(q_size) ∧ queue_repr q' (l ++ [x])) q.
Proof.
  intros Hq Hroom. pose proof Hq as (Hs & Hd & Hr & Hl & Hw & Hc).
  simpl. apply wp_get, wp_kassert; [apply Z.gtb_lt; lia|].
  destruct (Z.eqb_spec ((nextwrite q + 1) mod q_size q) (nextread q)) as [E|]; [|by apply q_store_spec].
  rewrite Hw, ring_step in E by done.
  rewrite <- (Z.mod_small (nextread q) (q_size q)) in E at 2 by done.
  rewrite <- Z.add_assoc, <- (Z.add_0_r (nextread q)) in E at 1.
  rewrite Z.add_0_r in E. rewrite <- (Z.add_0_r (nextread q)) in E at 2.
  apply ring_inj in E; lia.
Qed.

Lemma q_refill_spec fuel d km q0 l k q :
  queue_repr q0 l → (k ≤ length l)%nat → (length l ≤ k + fuel)%nat →
  queue_repr q (take k l) → Z.of_nat (length l) < q.(q_size) →
  wp (q_refill fuel (q_addtail (S d) km) q0.(q_data) q0.(q_size) q0.(nextwrite)
        ((q0.(nextread) + Z.of_nat k) mod q0.(q_size)))
     (λ _ q', q'.(q_size) = q.(q_size) ∧ queue_repr q' l) q.
Proof.
  intros H0. pose proof H0 as (Hs & Hd & Hr & Hl & Hw & Hc).
  revert k q. induction fuel as [|f IH]; intros k q Hk Hfuel Hq Hroom; simpl; rewrite Hw.
  - replace k with (length l) in * by lia. rewrite Z.eqb_refl. apply wp_ret.
    by rewrite firstn_all in Hq.
  - destruct (Z.eqb_spec ((nextread q0 + Z.of_nat k) mod q_size q0)
                ((nextread q0 + Z.of_nat (length l)) mod q_size q0)) as [E|E].
    + apply ring_inj in E; [|lia..]. assert (k = length l) as -> by lia.
      apply wp_ret. by rewrite firstn_all in Hq.
    + assert (k ≠ length l) by congruence.
      destruct (lookup_lt_is_Some_2 l k) as [x Hx]; [lia|].
      eapply wp_of_opt; [by apply Hc|].
      apply wp_bind. eapply wp_mono; [|apply q_addtail_room; [done|rewrite length_take; lia]].
      intros r q' (-> & Hs' & Hq'). apply wp_kassert; [done|].
      rewrite <- (take_S_r _ _ _ Hx) in Hq'. rewrite ring_step by done.
      replace (nextread q0 + Z.of_nat k + 1) with (nextread q0 + Z.of_nat (S k)) by lia.
      rewrite <- Hs', <- Hw. apply IH; [lia|lia|done|lia].
Qed.

Lemma q_newsize_spec fuel targetsize nsize q :
  0 < nsize → targetsize ≤ 2 ^ 29 → targetsize ≤ nsize * 2 ^ Z.of_nat fuel →
  wp (q_newsize fuel targetsize nsize)
     (λ r q', q' = q ∧ r = capacity_for nsize targetsize ∧
              targetsize ≤ r ∧ nsize ≤ r ∧ (r = nsize ∨ r < 2 * targetsize)) q.
Proof.
  revert nsize. induction fuel as [|f IH]; intros nsize Hpos Ht Hf; simpl;
    destruct (Z.ltb_spec nsize targetsize);
    [lia|apply wp_ret; rewrite capacity_enough by lia; auto with lia| |apply wp_ret; rewrite capacity_enough by lia; auto with lia].
  assert (s32 (nsize * 2) = nsize * 2) as -> by (unfold s32; lia).
  apply wp_kassert; [apply Z.gtb_lt; lia|].
  eapply wp_mono; [|apply IH; [lia|lia|]].
  - intros r q' (-> & -> & ? & ? & ?). rewrite capacity_double in * by lia. split; [done|]. split; [done|lia].
  - rewrite Nat2Z.inj_succ, Z.pow_succ_r in Hf by lia. lia.
Qed.

(** The ring of [c] cells is large enough, or the allocator has room for [c'] words. *)
Definition can_have km (c c' : Z) : bool := bool_decide (c' = c) || bool_decide (is_Some (km (c' * 4))).

(** How many cells the ring must have for one more element. *)
Definition cells_for_one (c : Z) (l : list V) : Z := if Z.of_nat (length l) + 1 <? c then c else c + 1.

Lemma q_grow_spec d km q l targetsize :
  KmallocWords km → queue_repr q l → q.(q_size) < targetsize ≤ 2 ^ 29 →
  wp (q_grow (q_addtail (S d) km) km targetsize)
     (λ r q', match km (capacity_for q.(q_size) targetsize * 4) with
              | Some _ => r = 0 ∧ q'.(q_size) = capacity_for q.(q_size) targetsize ∧ targetsize ≤ q'.(q_size) ∧ queue_repr q' l
              | None => r = ENOMEM ∧ q' = q
              end) q.
Proof.
  intros Hkm Hq Ht. pose proof Hq as (Hs & Hd & Hr & Hl & Hw & Hc).
  unfold q_grow. apply wp_get, wp_bind.
  eapply wp_mono; [|apply (q_newsize_spec 32 targetsize (q_size q)); lia].
  intros nsize q' (-> & <- & Hge & _ & Hlt). rewrite u32_small by (unfold W32; lia).
  destruct (km (nsize * 4)) as [nd|] eqn:Hnd; [|by apply wp_ret].
  apply Hkm in Hnd. rewrite Z.div_mul in Hnd by lia.
  apply wp_modify, wp_bind.
  replace (nextread q) with ((nextread q + Z.of_nat 0) mod q_size q)
    by (rewrite Z.add_0_r; by apply Z.mod_small).
  eapply wp_mono; [|eapply (q_refill_spec (Z.to_nat (q_size q)) d km q l 0); [done|lia|lia| |simpl; lia]].
  - intros [] q' (Hs' & Hq'). apply wp_ret. simpl in Hs'. split_and!; (done || lia).
  - split; [simpl; lia|]. simpl. split; [lia|]. split; [lia|]. split; [lia|].
    split; [by rewrite Z.mod_0_l by lia|]. intros k x Hk. by rewrite take_0 in Hk.
Qed.

Lemma q_addtail_spec km q l x :
  KmallocWords km → queue_repr q l → q.(q_size) < 2 ^ 29 →
  wp (q_addtail 2 km x)
     (λ r q', let c' := capacity_for q.(q_size) (cells_for_one q.(q_size) l) in
              if can_have km q.(q_size) c'
              then r = 0 ∧ q'.(q_size) = c' ∧ queue_repr q' (l ++ [x]) else r = ENOMEM ∧ q' = q) q.
Proof.
  intros Hkm Hq Hmax. pose proof Hq as (Hs & Hd & Hr & Hl & Hw & Hc).
  destruct (decide (Z.of_nat (length l) + 1 < q_size q)) as [Hroom|Hfull].
  - eapply wp_mono; [|by apply q_addtail_room]. intros r q' (? & ? & ?). unfold cells_for_one. cbv zeta.
    rewrite (proj2 (Z.ltb_lt _ _)), capacity_enough by (done || lia). unfold can_have. by rewrite bool_decide_true by done.
  - change (q_addtail 2 km x) with
      (q ← get; kassert (q_size q >? 0);;
       if (nextwrite q + 1) mod q_size q =? nextread q then
         result ← q_grow (q_addtail 1 km) km (q_size q + 1);
         if negb (result =? 0) then mret result
         else q ← get; q_store x ((nextwrite q + 1) mod q_size q)
       else q_store x ((nextwrite q + 1) mod q_size q)).
    apply wp_get, wp_kassert; [apply Z.gtb_lt; lia|].
    assert ((nextwrite q + 1) mod q_size q = nextread q) as ->.
    { rewrite Hw, ring_step by done.
      replace (nextread q + Z.of_nat (length l) + 1) with (nextread q + 1 * q_size q) by lia.
      rewrite Z_mod_plus_full. by apply Z.mod_small. }
    rewrite Z.eqb_refl. apply wp_bind.
    eapply wp_mono; [|apply (q_grow_spec 0 km q l); [done..|lia]].
    unfold cells_for_one. rewrite (proj2 (Z.ltb_ge _ _)) by lia. intros r q'. cbv zeta. unfold can_have.
    destruct (km _) as [blk|] eqn:Hk.
    + rewrite orb_true_r. intros (-> & Hc' & Hs' & Hq'). simpl.
      apply wp_get. eapply wp_mono; [|apply q_store_spec; [done|lia]]. intros r q'' (-> & ? & ?). split_and!; (done || lia).
    + intros [-> ->]. apply wp_ret. rewrite bool_decide_false, bool_decide_false; [done|by intros [? ?]|].
      intros E. assert (q_size q + 1 ≤ capacity_for (q_size q) (q_size q + 1)); [|lia].
      by apply capacity_ge.
Qed.

Lemma q_remhead_spec q l x :
  queue_repr q (x :: l) → wp q_remhead (λ r q', r = x ∧ queue_repr q' l ∧ q'.(q_size) = q.(q_size)) q.
Proof.
  intros (Hs & Hd & Hr & Hl & Hw & Hc). simpl length in *. unfold q_remhead, q_empty.
  apply wp_get, wp_kassert; [apply Z.gtb_lt; lia|]. apply wp_kassert.
  { apply negb_true_iff, Z.eqb_neq. rewrite Hw. intros E.
    rewrite <- (Z.mod_small (nextread q) (q_size q)) in E at 2 by done.
    rewrite <- (Z.add_0_r (nextread q)) in E at 2. apply ring_inj in E; lia. }
  specialize (Hc 0%nat x eq_refl) as Hx. rewrite Z.add_0_r, Z.mod_small in Hx by done.
  eapply wp_of_opt; [done|]. wp_go. split; [done|]. split; [|done]. split; [done|]. simpl.
  pose proof (Z.mod_pos_bound (nextread q + 1) (q_size q) Hs).
  repeat (split; [first [done|lia]|]). split.
  - rewrite Hw, Zplus_mod_idemp_l. f_equal. lia.
  - intros k y Hk. rewrite Zplus_mod_idemp_l. rewrite <- (Hc (S k) y Hk). do 2 f_equal. lia.
Qed.

Lemma q_count_spec fuel q l k c :
  queue_repr q l → (k ≤ length l)%nat → (length l ≤ k + fuel)%nat →
  q_count fuel q ((q.(nextread) + Z.of_nat k) mod q.(q_size)) c =
  Some (c + Z.of_nat (length l) - Z.of_nat k).
Proof.
  intros (Hs & Hd & Hr & Hl & Hw & Hc).
  revert k c. induction fuel as [|f IH]; intros k c Hk Hf; simpl; rewrite Hw.
  - replace k with (length l) by lia. rewrite Z.eqb_refl. f_equal. lia.
  - destruct (Z.eqb_spec ((nextread q + Z.of_nat k) mod q_size q)
                ((nextread q + Z.of_nat (length l)) mod q_size q)) as [E|E].
    + apply ring_inj in E; [|lia..]. f_equal. lia.
    + assert (k ≠ length l) by congruence. rewrite ring_step by done.
      replace (nextread q + Z.of_nat k + 1) with (nextread q + Z.of_nat (S k)) by lia.
      rewrite IH by lia. f_equal. lia.
Qed.

Lemma q_len_spec q l :
  queue_repr q l → wp q_len (λ r q', q' = q ∧ r = Z.of_nat (length l)) q.
Proof.
  intros Hq. pose proof Hq as (Hs & Hd & Hr & Hl & Hw & Hc). unfold q_len. apply wp_get.
  pose proof (q_count_spec (Z.to_nat (q_size q)) q l 0 0 Hq) as E.
  rewrite Z.add_0_r, Z.mod_small in E by done. rewrite E by lia. apply wp_ret. split; [done|lia].
Qed.

(** The abstract FIFO: the operations a client sees and what they do to the
    list of waiting elements; [None] is an operation that must not be called. *)
Inductive qop :=
| QAdd (x : V)
| QRem
| QPrealloc (n : Z).

Definition exec_qop km (o : qop) : M (queue V) (Z * option V) :=
  match o with
  | QAdd x => r ← q_addtail 2 km x; mret (r, None)
  | QRem => x ← q_remhead; mret (0, Some x)
  | QPrealloc n => r ← q_preallocate km n; mret (r, None)
  end.

Definition spec_qop (o : qop) (l : list V) : option (option V * list V) :=
  match o, l with
  | QAdd x, _ => Some (None, l ++ [x])
  | QRem, [] => None
  | QRem, x :: l' => Some (Some x, l')
  | QPrealloc _, _ => Some (None, l)
  end.

(** How many cells the operation asks for. *)
Definition cells_for (o : qop) (c : Z) (l : list V) : Z :=
  match o with QAdd _ => cells_for_one c l | QRem => c | QPrealloc n => n end.
End queue.
Arguments QAdd {V} x.
Arguments QRem {V}.
Arguments QPrealloc {V} n.



(** [q_len] terminates and returns the number of elements in the queue, and
    [q_remhead] on an empty queue panics instead of returning a stale element. *)
Lemma queue_len_and_empty {V} (q : queue V) (l : list V) :
  queue_repr q l →
  wp q_len (λ r q', q' = q ∧ r = Z.of_nat (length l)) q ∧
  (l = [] ↔ q_remhead q = Panic q).
Proof.
  intros Hq. split; [by apply q_len_spec|]. split.
  - intros ->. destruct Hq as (Hs & _ & Hr & _ & Hw & _). unfold q_remhead, q_empty.
    simpl in Hw. rewrite Z.add_0_r, Z.mod_small in Hw by done.
    unfold mbind, M_bind, get, kassert. rewrite Hw, Z.eqb_refl, Z.gtb_ltb, (proj2 (Z.ltb_lt _ _)) by done.
    done.
  - intros E. destruct l as [|x l]; [done|]. apply q_remhead_spec in Hq. unfold wp in Hq.
    by rewrite E in Hq.
Qed.

Lemma queue_len_and_empty_witness :
  wp q_len (λ r q', q' = Queue 2 0 1 [0; 8] ∧ r = 1) (Queue 2 0 1 [0; 8]).
Proof.
  apply (queue_len_and_empty (Queue 2 0 1 [0; 8]) [8]).
  repeat split; simpl; try lia. intros [|k] x Hx; simplify_eq/=; reflexivity.
Defined.
