(* ===== verification/Threadlist.v ===== *)
(** * Thread lists (kern/thread/threadlist.c)

    A [threadlist] is a doubly linked list with a head and a tail sentinel
    embedded in the list record; a thread's node is embedded in the thread.
    The model keeps the C heap: a finite map from node addresses to nodes, and
    performs the pointer writes of the source one by one.  [DEBUGASSERT] is
    compiled out by kern/include/lib.h and has no effect.

    [seg h p xs q] says that the nodes [xs] are linked in this order in [h],
    between the neighbours [p] and [q]; [tlist st l ts] that list [l] holds
    exactly the threads [ts], in this order. *)

From Stdlib Require Import ZArith Lia.
From stdpp Require Import base numbers list gmap.
From S2P Require Import Prelude.

(** Node addresses: the sentinels of list [l], the node inside thread [t]. *)
Inductive naddr :=
| AHead (l : nat)
| ATail (l : nat)
| AThr (t : nat).

#[export] Instance naddr_eq_dec : EqDecision naddr.
Proof. solve_decision. Defined.

#[export] Instance naddr_countable : Countable naddr.
Proof.
  refine (inj_countable'
    (λ a, match a with AHead l => inl (inl l) | ATail l => inl (inr l) | AThr t => inr t end)
    (λ s, match s with inl (inl l) => AHead l | inl (inr l) => ATail l | inr t => AThr t end) _).
  by intros [].
Defined.

Record threadlistnode := Tln {
  tln_prev : option naddr;
  tln_next : option naddr;
  tln_self : option nat;
}.

Record tlstate := TlState {
  nodes : gmap naddr threadlistnode;
  tl_count : gmap nat Z;
}.

Definition load (a : naddr) : M tlstate threadlistnode :=
  st ← get; of_opt (nodes st !! a).
Definition store (a : naddr) (n : threadlistnode) : M tlstate unit :=
  modify (λ st, TlState (<[a := n]> (nodes st)) (tl_count st)).
Definition set_prev (a : naddr) (p : option naddr) : M tlstate unit :=
  n ← load a; store a (Tln p (tln_next n) (tln_self n)).
Definition set_next (a : naddr) (p : option naddr) : M tlstate unit :=
  n ← load a; store a (Tln (tln_prev n) p (tln_self n)).
Definition set_self (a : naddr) (s : option nat) : M tlstate unit :=
  n ← load a; store a (Tln (tln_prev n) (tln_next n) s).
Definition count_of (l : nat) : M tlstate Z := st ← get; of_opt (tl_count st !! l).
Definition set_count (l : nat) (c : Z) : M tlstate unit :=
  modify (λ st, TlState (nodes st) (<[l := c]> (tl_count st))).

Definition threadlistnode_init (t : nat) : M tlstate unit :=
  set_next (AThr t) None;;
  set_prev (AThr t) None;;
  set_self (AThr t) (Some t).

Definition threadlistnode_cleanup (t : nat) : M tlstate unit :=
  n ← load (AThr t);
  kassert (bool_decide (tln_next n = None));;
  kassert (bool_decide (tln_prev n = None));;
  kassert (bool_decide (tln_self n ≠ None)).

Definition threadlist_init (l : nat) : M tlstate unit :=
  set_next (AHead l) (Some (ATail l));;
  set_prev (AHead l) None;;
  set_next (ATail l) None;;
  set_prev (ATail l) (Some (AHead l));;
  set_self (AHead l) None;;
  set_self (ATail l) None;;
  set_count l 0.

Definition threadlist_isempty (l : nat) : M tlstate bool :=
  c ← count_of l; mret (c =? 0).

Definition threadlist_cleanup (l : nat) : M tlstate unit :=
  e ← threadlist_isempty l;
  kassert e;;
  c ← count_of l;
  kassert (c =? 0).

Definition threadlist_insertafternode (onlist : naddr) (t : nat) : M tlstate unit :=
  let addee := AThr t in
  set_prev addee (Some onlist);;
  o ← load onlist;
  set_next addee (tln_next o);;
  n ← load addee;
  p ← of_opt (tln_prev n);
  set_next p (Some addee);;
  n ← load addee;
  x ← of_opt (tln_next n);
  set_prev x (Some addee).

Definition threadlist_insertbeforenode (t : nat) (onlist : naddr) : M tlstate unit :=
  let addee := AThr t in
  o ← load onlist;
  set_prev addee (tln_prev o);;
  set_next addee (Some onlist);;
  n ← load addee;
  p ← of_opt (tln_prev n);
  set_next p (Some addee);;
  n ← load addee;
  x ← of_opt (tln_next n);
  set_prev x (Some addee).

Definition threadlist_removenode (a : naddr) : M tlstate unit :=
  n ← load a;
  p ← of_opt (tln_prev n);
  set_next p (tln_next n);;
  n ← load a;
  x ← of_opt (tln_next n);
  set_prev x (tln_prev n);;
  set_prev a None;;
  set_next a None.

Definition count_inc (l : nat) : M tlstate unit :=
  c ← count_of l; set_count l (u32 (c + 1)).
Definition count_dec (l : nat) : M tlstate unit :=
  c ← count_of l; set_count l (u32 (c - 1)).

Definition threadlist_addhead (l t : nat) : M tlstate unit :=
  threadlist_insertafternode (AHead l) t;; count_inc l.

Definition threadlist_addtail (l t : nat) : M tlstate unit :=
  threadlist_insertbeforenode t (ATail l);; count_inc l.

Definition threadlist_remhead (l : nat) : M tlstate (option nat) :=
  h ← load (AHead l);
  tln ← of_opt (tln_next h);
  n ← load tln;
  match tln_next n with
  | None => mret None
  | Some _ =>
      threadlist_removenode tln;;
      count_dec l;;
      n ← load tln;
      mret (tln_self n)
  end.

Definition threadlist_remtail (l : nat) : M tlstate (option nat) :=
  h ← load (ATail l);
  tln ← of_opt (tln_prev h);
  n ← load tln;
  match tln_prev n with
  | None => mret None
  | Some _ =>
      threadlist_removenode tln;;
      count_dec l;;
      n ← load tln;
      mret (tln_self n)
  end.

Definition threadlist_insertafter (l onlist addee : nat) : M tlstate unit :=
  threadlist_insertafternode (AThr onlist) addee;; count_inc l.

Definition threadlist_insertbefore (l addee onlist : nat) : M tlstate unit :=
  threadlist_insertbeforenode addee (AThr onlist);; count_inc l.

Definition threadlist_remove (l t : nat) : M tlstate unit :=
  threadlist_removenode (AThr t);; count_dec l.

(** ** Linked segments *)

Definition self_of (a : naddr) : option nat :=
  match a with AThr t => Some t | _ => None end.

Definition headp (xs : list naddr) (q : option naddr) : option naddr :=
  match xs with [] => q | a :: _ => Some a end.
Definition lastp (p : option naddr) (xs : list naddr) : option naddr :=
  match last xs with None => p | Some a => Some a end.

Fixpoint seg (h : gmap naddr threadlistnode) (p : option naddr) (xs : list naddr)
    (q : option naddr) : Prop :=
  match xs with
  | [] => True
  | a :: xs' => h !! a = Some (Tln p (headp xs' q) (self_of a)) ∧ seg h (Some a) xs' q
  end.

Lemma lastp_cons p a xs : lastp p (a :: xs) = lastp (Some a) xs.
Proof. unfold lastp. destruct xs as [|b xs]; [done|]. by rewrite !last_cons; destruct (last xs). Qed.

Lemma lastp_snoc p xs a : lastp p (xs ++ [a]) = Some a.
Proof. unfold lastp. by rewrite last_snoc. Qed.

Lemma seg_app h p xs ys q :
  seg h p (xs ++ ys) q ↔ seg h p xs (headp ys q) ∧ seg h (lastp p xs) ys q.
Proof.
  revert p. induction xs as [|a xs IH]; intros p; simpl; [tauto|].
  rewrite IH, lastp_cons. replace (headp (xs ++ ys) q) with (headp xs (headp ys q))
    by (by destruct xs). tauto.
Qed.

Lemma seg_frame h p xs q a n : a ∉ xs → seg h p xs q → seg (<[a := n]> h) p xs q.
Proof.
  revert p. induction xs as [|b xs IH]; intros p Hn; simpl; [done|].
  apply not_elem_of_cons in Hn as [? ?]. intros [? ?].
  rewrite lookup_insert_ne by done. auto.
Qed.

(** Changing the outer neighbour of a segment is a write to its end node. *)
Lemma seg_prefix h p xs q a :
  seg h p (xs ++ [a]) q → seg h p xs (Some a).
Proof. intros [H _]%seg_app. done. Qed.

Definition addrs (l : nat) (ts : list nat) : list naddr :=
  AHead l :: (AThr <$> ts) ++ [ATail l].

Definition tlist (st : tlstate) (l : nat) (ts : list nat) : Prop :=
  NoDup ts ∧ seg (nodes st) None (addrs l ts) None ∧
  tl_count st !! l = Some (Z.of_nat (length ts)) ∧ Z.of_nat (length ts) < W32.

(** A thread that is initialised and on no list. *)
Definition off_list (st : tlstate) (t : nat) : Prop :=
  nodes st !! AThr t = Some (Tln None None (Some t)).

(** ** Symbolic execution of heap accesses *)

Lemma wp_load {A} a n (k : _ → M tlstate A) Q st :
  nodes st !! a = Some n → wp (k n) Q st → wp (load a ≫= k) Q st.
Proof. intros Hn Hk. unfold load. apply wp_bind, wp_get. unfold of_opt. rewrite Hn. exact Hk. Qed.

Lemma wp_set_next {A} a p n (k : unit → M tlstate A) Q st :
  nodes st !! a = Some n →
  wp (k tt) Q (TlState (<[a := Tln (tln_prev n) p (tln_self n)]> (nodes st)) (tl_count st)) →
  wp (set_next a p ≫= k) Q st.
Proof. intros Hn Hk. unfold set_next. apply wp_bind. eapply wp_load; [done|]. exact Hk. Qed.

Lemma wp_set_prev {A} a p n (k : unit → M tlstate A) Q st :
  nodes st !! a = Some n →
  wp (k tt) Q (TlState (<[a := Tln p (tln_next n) (tln_self n)]> (nodes st)) (tl_count st)) →
  wp (set_prev a p ≫= k) Q st.
Proof. intros Hn Hk. unfold set_prev. apply wp_bind. eapply wp_load; [done|]. exact Hk. Qed.

(** Run a straight-line pointer program: one load, store or dereference at a
    time, the heap lookups discharged by [simplify_map_eq]. *)
Ltac heap_step :=
  lazymatch goal with
  | |- wp (load _ ≫= _) _ _ => eapply wp_load; [simpl; by simplify_map_eq|]
  | |- wp (set_next _ _ ≫= _) _ _ => eapply wp_set_next; [simpl; by simplify_map_eq|]
  | |- wp (set_prev _ _ ≫= _) _ _ => eapply wp_set_prev; [simpl; by simplify_map_eq|]
  | |- wp (set_next _ _) _ _ => apply wp_bind_ret
  | |- wp (set_prev _ _) _ _ => apply wp_bind_ret
  | _ => wp_step
  end; simpl.
Ltac heap_run := cbv zeta; repeat heap_step.

(** Two neighbours [a], [b] on a list and their surroundings. *)
Lemma seg_split h p xs a b ys q :
  seg h p (xs ++ a :: b :: ys) q ↔
  seg h p xs (Some a) ∧ h !! a = Some (Tln (lastp p xs) (Some b) (self_of a)) ∧
  h !! b = Some (Tln (Some a) (headp ys q) (self_of b)) ∧ seg h (Some b) ys q.
Proof. rewrite seg_app. simpl. tauto. Qed.

(** The heap after [t] has been linked between [a] and [b]. *)
Definition linked (h : gmap naddr threadlistnode) (a b : naddr) (na nb : threadlistnode) (t : nat) :=
  <[b := Tln (Some (AThr t)) (tln_next nb) (tln_self nb)]>
  (<[a := Tln (tln_prev na) (Some (AThr t)) (tln_self na)]>
  (<[AThr t := Tln (Some a) (Some b) (Some t)]> h)).

Lemma linked_seg h p xs a b ys q na nb t :
  seg h p (xs ++ a :: b :: ys) q → NoDup (AThr t :: xs ++ a :: b :: ys) →
  h !! a = Some na → h !! b = Some nb →
  seg (linked h a b na nb t) p (xs ++ a :: AThr t :: b :: ys) q.
Proof.
  intros (Hx & Ha & Hb & Hy)%seg_split Hnd Hna Hnb. unfold linked.
  apply NoDup_cons in Hnd as [Ht Hnd]. apply NoDup_app in Hnd as (_ & Hxs & Hnd).
  apply NoDup_cons in Hnd as [Hanb Hnd]. apply NoDup_cons in Hnd as [Hbn _].
  assert ((a ∉ xs) ∧ (b ∉ xs)) as [? ?] by (split; intros ?%Hxs; set_solver).
  assert (AThr t ≠ a ∧ AThr t ≠ b ∧ a ≠ b) as (? & ? & ?) by set_solver.
  rewrite Hna in Ha. rewrite Hnb in Hb. simplify_eq. simpl.
  apply seg_split. split; [|split; [|split]]; simpl.
  - do 3 (apply seg_frame; [set_solver|]). done.
  - by simplify_map_eq.
  - by simplify_map_eq.
  - split; [by simplify_map_eq|]. do 3 (apply seg_frame; [set_solver|]). done.
Qed.

Lemma neighbours_ne (t : naddr) xs (a b : naddr) ys :
  NoDup (t :: xs ++ a :: b :: ys) → t ≠ a ∧ t ≠ b ∧ a ≠ b.
Proof.
  intros [Hnt Hnd]%NoDup_cons. apply NoDup_app in Hnd as (_ & _ & Hnd).
  apply NoDup_cons in Hnd as [Hanb _]. set_solver.
Qed.

Section insert.
Context (st : tlstate) (p q : option naddr) (xs ys : list naddr) (a b : naddr) (t : nat).
Context (Hseg : seg (nodes st) p (xs ++ a :: b :: ys) q).
Context (Hnd : NoDup (AThr t :: xs ++ a :: b :: ys)).
Context (Ht : off_list st t).

Let inserted : tlstate :=
  TlState (linked (nodes st) a b (Tln (lastp p xs) (Some b) (self_of a))
             (Tln (Some a) (headp ys q) (self_of b)) t) (tl_count st).

Lemma insertafternode_wp :
  wp (threadlist_insertafternode a t) (λ _ st', st' = inserted) st.
Proof using Hseg Hnd Ht.
  pose proof Hseg as (Hx & Ha & Hb & Hy)%seg_split.
  apply neighbours_ne in Hnd as (? & ? & ?). unfold off_list in Ht.
  unfold threadlist_insertafternode. heap_run. unfold inserted, linked; simpl.
  by rewrite insert_insert_eq.
Qed.

Lemma insertbeforenode_wp :
  wp (threadlist_insertbeforenode t b) (λ _ st', st' = inserted) st.
Proof using Hseg Hnd Ht.
  pose proof Hseg as (Hx & Ha & Hb & Hy)%seg_split.
  apply neighbours_ne in Hnd as (? & ? & ?). unfold off_list in Ht.
  unfold threadlist_insertbeforenode. heap_run. unfold inserted, linked; simpl.
  by rewrite insert_insert_eq.
Qed.

Lemma inserted_seg : seg (nodes inserted) p (xs ++ a :: AThr t :: b :: ys) q.
Proof using Hseg Hnd Ht.
  pose proof Hseg as (_ & Ha & Hb & _)%seg_split. by apply linked_seg.
Qed.

Lemma inserted_frame c : c ∉ xs ++ a :: AThr t :: b :: ys → nodes inserted !! c = nodes st !! c.
Proof using.
  clear Hseg Hnd Ht. intros Hc. unfold inserted, linked; simpl.
  by rewrite !lookup_insert_ne by set_solver.
Qed.
End insert.

Section remove.
Context (st : tlstate) (p q : option naddr) (xs ys : list naddr) (a b : naddr) (t : nat).
Context (Hseg : seg (nodes st) p (xs ++ a :: AThr t :: b :: ys) q).
Context (Hnd : NoDup (xs ++ a :: AThr t :: b :: ys)).

Let removed : tlstate :=
  TlState (<[AThr t := Tln None None (Some t)]>
           (<[b := Tln (Some a) (headp ys q) (self_of b)]>
           (<[a := Tln (lastp p xs) (Some b) (self_of a)]> (nodes st)))) (tl_count st).

Lemma removed_perm : NoDup (AThr t :: xs ++ a :: b :: ys).
Proof using Hnd.
  rewrite (Permutation_middle xs (a :: b :: ys) (AThr t)), (perm_swap a (AThr t)). exact Hnd.
Qed.

Lemma removenode_wp : wp (threadlist_removenode (AThr t)) (λ _ st', st' = removed) st.
Proof using Hseg Hnd.
  pose proof removed_perm as (? & ? & ?)%neighbours_ne.
  pose proof Hseg as (Hx & Ha & Hb & Hy & Hys)%seg_split. simpl in Hb.
  unfold threadlist_removenode. heap_run. unfold removed; simpl.
  by rewrite insert_insert_eq.
Qed.

Lemma removed_seg : seg (nodes removed) p (xs ++ a :: b :: ys) q ∧ off_list removed t.
Proof using Hseg Hnd.
  pose proof removed_perm as Hp. pose proof Hp as (? & ? & ?)%neighbours_ne.
  pose proof Hseg as (Hx & Ha & Hb & Hy & Hys)%seg_split.
  apply NoDup_cons in Hp as [Hnt Hp]. apply NoDup_app in Hp as (_ & Hxs & Hp).
  apply NoDup_cons in Hp as [Hanb Hp]. apply NoDup_cons in Hp as [Hbn _].
  assert ((a ∉ xs) ∧ (b ∉ xs)) as [? ?] by (split; intros ?%Hxs; set_solver).
  unfold removed, off_list; simpl. split; [|by simplify_map_eq].
  apply seg_split. split; [|split; [|split]].
  - do 3 (apply seg_frame; [set_solver|]). done.
  - by simplify_map_eq.
  - by simplify_map_eq.
  - do 3 (apply seg_frame; [set_solver|]). done.
Qed.

Lemma removed_frame c : c ∉ xs ++ a :: AThr t :: b :: ys → nodes removed !! c = nodes st !! c.
Proof using.
  clear Hseg Hnd. intros Hc. unfold removed; simpl. by rewrite !lookup_insert_ne by set_solver.
Qed.
End remove.

(** ** Threads on a list *)

Lemma addrs_nodup l ts : NoDup ts → NoDup (addrs l ts).
Proof.
  intros Hts. unfold addrs. apply NoDup_cons. split; [set_solver|].
  apply NoDup_app. split; [by apply NoDup_fmap_2; [intros ?? [=]|]|].
  split; [set_solver|]. apply NoDup_singleton.
Qed.

(** The neighbours between which position [length ts1] lies. *)
Definition left_of (l : nat) (ts1 : list nat) : naddr :=
  match last ts1 with None => AHead l | Some u => AThr u end.
Definition right_of (l : nat) (ts2 : list nat) : naddr :=
  match ts2 with [] => ATail l | u :: _ => AThr u end.

Lemma addrs_split l ts1 ts2 :
  ∃ xs ys, addrs l (ts1 ++ ts2) = xs ++ left_of l ts1 :: right_of l ts2 :: ys ∧
    ∀ t, addrs l (ts1 ++ t :: ts2) = xs ++ left_of l ts1 :: AThr t :: right_of l ts2 :: ys.
Proof.
  assert (∃ xs, AHead l :: (AThr <$> ts1) = xs ++ [left_of l ts1]) as [xs Hxs].
  { destruct ts1 as [|u ts1 _] using rev_ind; [by exists []|].
    exists (AHead l :: (AThr <$> ts1)). unfold left_of. rewrite last_snoc, fmap_app. done. }
  assert (∃ ys, (AThr <$> ts2) ++ [ATail l] = right_of l ts2 :: ys) as [ys Hys].
  { destruct ts2 as [|u ts2]; simpl; eauto. }
  exists xs, ys. unfold addrs. split.
  - rewrite fmap_app, <- app_assoc, Hys, app_comm_cons, Hxs, <- app_assoc. done.
  - intros t. rewrite fmap_app, fmap_cons, <- app_assoc, <- app_comm_cons, Hys.
    by rewrite app_comm_cons, Hxs, <- app_assoc.
Qed.

Lemma off_list_not_in st l ts t : tlist st l ts → off_list st t → t ∉ ts.
Proof.
  intros (_ & Hseg & _) Ht [ts1 [ts2 ->]]%list_elem_of_split.
  destruct (addrs_split l ts1 ts2) as (xs & ys & _ & E). rewrite E in Hseg.
  apply seg_split in Hseg as (_ & _ & Hb & _). unfold off_list in Ht. simpl in *. congruence.
Qed.

(** Everything outside the list is left alone. *)
Definition frame (st st' : tlstate) (l : nat) (ts : list nat) : Prop :=
  (∀ c, c ∉ addrs l ts → nodes st' !! c = nodes st !! c) ∧
  (∀ l', l' ≠ l → tl_count st' !! l' = tl_count st !! l').

Lemma count_inc_wp st l c :
  tl_count st !! l = Some c →
  wp (count_inc l) (λ _ st', st' = TlState (nodes st) (<[l := u32 (c + 1)]> (tl_count st))) st.
Proof. intros Hc. unfold count_inc, count_of. apply wp_bind, wp_get. rewrite Hc. done. Qed.

Lemma count_dec_wp {A} st l c (k : unit → M tlstate A) Q :
  tl_count st !! l = Some c →
  wp (k tt) Q (TlState (nodes st) (<[l := u32 (c - 1)]> (tl_count st))) →
  wp (count_dec l ≫= k) Q st.
Proof.
  intros Hc Hk. unfold count_dec, count_of. apply wp_bind, wp_bind, wp_get. rewrite Hc. exact Hk.
Qed.

Lemma insert_tlist st l ts1 ts2 t (m : M tlstate unit) :
  tlist st l (ts1 ++ ts2) → off_list st t → Z.of_nat (length (ts1 ++ ts2)) + 1 < W32 →
  (m = threadlist_insertafternode (left_of l ts1) t ∨
   m = threadlist_insertbeforenode t (right_of l ts2)) →
  wp (m;; count_inc l)
     (λ _ st', tlist st' l (ts1 ++ t :: ts2) ∧ frame st st' l (ts1 ++ t :: ts2)) st.
Proof.
  intros Htl Ht Hlen Hm. pose proof (off_list_not_in _ _ _ _ Htl Ht) as Hnin.
  destruct Htl as (Hnd & Hseg & Hcnt & _).
  destruct (addrs_split l ts1 ts2) as (xs & ys & E1 & E2). rewrite E1 in Hseg.
  assert (NoDup (ts1 ++ t :: ts2)) as Hnd'.
  { rewrite <- Permutation_middle. by constructor. }
  assert (NoDup (AThr t :: xs ++ left_of l ts1 :: right_of l ts2 :: ys)) as Hnd2.
  { apply (removed_perm xs ys). rewrite <- E2. by apply addrs_nodup. }
  apply wp_bind. eapply wp_mono; [|destruct Hm as [-> | ->];
    [by eapply insertafternode_wp|by eapply insertbeforenode_wp]].
  intros [] ? ->. eapply wp_mono; [|by apply count_inc_wp].
  intros [] ? ->. simpl. split; [split; [done|]|].
  - rewrite E2. split; [by apply inserted_seg|]. simpl. rewrite lookup_insert_eq.
    rewrite u32_small by lia. rewrite !length_app in *. simpl. split; [f_equal|]; lia.
  - split; simpl.
    + rewrite E2. intros c Hc. by apply inserted_frame.
    + intros l' Hl'. by rewrite lookup_insert_ne.
Qed.

Lemma remove_tlist {A} st l ts1 ts2 t (k : unit → M tlstate A) Q :
  tlist st l (ts1 ++ t :: ts2) →
  (∀ st', tlist st' l (ts1 ++ ts2) → off_list st' t → frame st st' l (ts1 ++ t :: ts2) →
     wp (k tt) Q st') →
  wp (threadlist_removenode (AThr t);; (count_dec l ≫= k)) Q st.
Proof.
  intros (Hnd & Hseg & Hcnt & Hlen) Hk.
  destruct (addrs_split l ts1 ts2) as (xs & ys & E1 & E2).
  pose proof (addrs_nodup l _ Hnd) as Hnd2. rewrite E2 in Hseg, Hnd2.
  apply wp_bind. eapply wp_mono; [|by eapply removenode_wp].
  intros [] ? ->. eapply count_dec_wp; [done|]. simpl.
  pose proof (removed_seg st None None xs ys _ _ t Hseg Hnd2) as [Hs Ho].
  apply Hk; simpl.
  - split; [rewrite <- Permutation_middle in Hnd; apply NoDup_cons in Hnd; tauto|].
    rewrite E1. split; [exact Hs|]. simpl. rewrite lookup_insert_eq.
    rewrite !length_app in *. simpl in *. rewrite u32_small by lia. split; [f_equal|]; lia.
  - exact Ho.
  - split; simpl.
    + rewrite E2. intros c Hc. by apply (removed_frame st None None).
    + intros l' Hl'. by rewrite lookup_insert_ne.
Qed.

(** ** The abstract list of threads *)

Inductive tlop :=
| AddHead (t : nat)
| AddTail (t : nat)
| InsertAfter (onlist t : nat)
| InsertBefore (t onlist : nat)
| Remove (t : nat)
| RemHead
| RemTail.

Definition exec_tlop (l : nat) (o : tlop) : M tlstate (option nat) :=
  match o with
  | AddHead t => threadlist_addhead l t;; mret None
  | AddTail t => threadlist_addtail l t;; mret None
  | InsertAfter on t => threadlist_insertafter l on t;; mret None
  | InsertBefore t on => threadlist_insertbefore l t on;; mret None
  | Remove t => threadlist_remove l t;; mret None
  | RemHead => threadlist_remhead l
  | RemTail => threadlist_remtail l
  end.

(** [tlspec o ts r ts']: on the sequence [ts], operation [o] returns [r] and
    leaves [ts']. *)
Inductive tlspec : tlop → list nat → option nat → list nat → Prop :=
| sp_addhead t ts : tlspec (AddHead t) ts None (t :: ts)
| sp_addtail t ts : tlspec (AddTail t) ts None (ts ++ [t])
| sp_after on t ts1 ts2 :
    tlspec (InsertAfter on t) (ts1 ++ on :: ts2) None (ts1 ++ on :: t :: ts2)
| sp_before t on ts1 ts2 :
    tlspec (InsertBefore t on) (ts1 ++ on :: ts2) None (ts1 ++ t :: on :: ts2)
| sp_remove t ts1 ts2 : tlspec (Remove t) (ts1 ++ t :: ts2) None (ts1 ++ ts2)
| sp_remhead t ts : tlspec RemHead (t :: ts) (Some t) ts
| sp_remtail t ts : tlspec RemTail (ts ++ [t]) (Some t) ts
| sp_remhead_nil : tlspec RemHead [] None []
| sp_remtail_nil : tlspec RemTail [] None [].

(** The thread an operation links in, and the one it takes out. *)
Definition added (o : tlop) : option nat :=
  match o with
  | AddHead t | AddTail t | InsertAfter _ t | InsertBefore t _ => Some t
  | _ => None
  end.
Definition taken (o : tlop) (r : option nat) : option nat :=
  match o with Remove t => Some t | _ => r end.

Lemma wp_then_none (m : M tlstate unit) (Q : option nat → tlstate → Prop) st :
  wp m (λ _ st', Q None st') st → wp (m;; mret None) Q st.
Proof. intros H. apply wp_bind. eapply wp_mono; [|exact H]. auto. Qed.

Lemma seg_empty_list st l :
  tlist st l [] →
  nodes st !! AHead l = Some (Tln None (Some (ATail l)) None) ∧
  nodes st !! ATail l = Some (Tln (Some (AHead l)) None None).
Proof. intros (_ & (Hh & Ht & _) & _). done. Qed.

(** Removal at either end, once the end node has been read. *)
Lemma remend_tlist st l ts1 ts2 t :
  tlist st l (ts1 ++ t :: ts2) →
  wp (threadlist_removenode (AThr t);; count_dec l;; n ← load (AThr t); mret (tln_self n))
     (λ r st', r = Some t ∧ tlist st' l (ts1 ++ ts2) ∧ off_list st' t ∧
               frame st st' l (ts1 ++ t :: ts2)) st.
Proof.
  intros Htl. eapply remove_tlist; [done|]. intros st' ? Ho ?.
  eapply wp_load; [exact Ho|]. by apply wp_ret.
Qed.

Lemma threadlist_remove_wp st l ts1 ts2 t :
  tlist st l (ts1 ++ t :: ts2) →
  wp (threadlist_remove l t)
     (λ _ st', tlist st' l (ts1 ++ ts2) ∧ off_list st' t ∧ frame st st' l (ts1 ++ t :: ts2)) st.
Proof.
  intros Htl. apply wp_seq_tt. eapply remove_tlist; [done|]. intros. by apply wp_ret.
Qed.

(** C20. Thread lists implement sequences of threads: each of the seven
    operations, run on the pointer structure, terminates without following a
    null or dangling link, returns what the sequence operation returns, leaves
    a correctly doubly linked list with an exact element count, leaves a
    removed thread unlinked, and changes no node of any other list. *)
Theorem threadlist_refines_sequence (st : tlstate) (l : nat) (o : tlop)
    (ts ts' : list nat) (r : option nat) :
  tlist st l ts → tlspec o ts r ts' → Z.of_nat (length ts) + 1 < W32 →
  (∀ t, added o = Some t → off_list st t) →
  wp (exec_tlop l o)
     (λ r' st', r' = r ∧ tlist st' l ts' ∧ (∀ t, taken o r = Some t → off_list st' t) ∧
        ∃ us, (∀ u, u ∈ us → u ∈ ts ∨ u ∈ ts') ∧ frame st st' l us) st.
Proof.
  intros Htl Hsp Hlen Hadd.
  destruct Hsp as [t ts|t ts|on t ts1 ts2|t on ts1 ts2|t ts1 ts2|t ts|t ts| | ]; simpl in *.
  - apply wp_then_none. eapply wp_mono; [|apply (insert_tlist st l [] ts t); auto].
    intros [] st' [? ?]. do 3 (split; [done|]). exists (t :: ts). auto.
  - apply wp_then_none. eapply wp_mono; [|apply (insert_tlist st l ts [] t); rewrite ?app_nil_r; auto].
    intros [] st' [? ?]. do 3 (split; [done|]). exists (ts ++ [t]). auto.
  - apply wp_then_none.
    replace (ts1 ++ on :: ts2) with ((ts1 ++ [on]) ++ ts2) in * by (by rewrite <- app_assoc).
    eapply wp_mono; [|apply (insert_tlist st l (ts1 ++ [on]) ts2 t); auto].
    + intros [] st' [? ?]. rewrite <- !app_assoc in *. do 3 (split; [done|]).
      exists (ts1 ++ on :: t :: ts2). auto.
    + left. unfold left_of. by rewrite last_snoc.
  - apply wp_then_none. eapply wp_mono; [|apply (insert_tlist st l ts1 (on :: ts2) t); auto].
    intros [] st' [? ?]. do 3 (split; [done|]). exists (ts1 ++ t :: on :: ts2). auto.
  - apply wp_then_none. eapply wp_mono; [|by apply threadlist_remove_wp].
    intros [] st' (? & ? & ?). split; [done|]. split; [done|].
    split; [intros ? [= <-]; done|]. exists (ts1 ++ t :: ts2). auto.
  - pose proof Htl as (_ & (Hh & Ht & _) & _). simpl in Hh, Ht.
    unfold threadlist_remhead. eapply wp_load; [done|]. wp_go. eapply wp_load; [done|]. simpl.
    destruct ts; simpl;
      (eapply wp_mono; [|by apply (remend_tlist st l [])]);
      intros ? st' (-> & ? & ? & ?); (split; [done|]); (split; [done|]);
      (split; [intros ? [= <-]; done|]); eexists; (split; [|done]); auto.
  - pose proof Htl as (_ & Hseg & _). unfold addrs in Hseg.
    rewrite fmap_app, <- app_assoc, app_comm_cons in Hseg. simpl in Hseg.
    apply (seg_split _ _ (AHead l :: (AThr <$> ts)) (AThr t) (ATail l) []) in Hseg as (_ & Ht & Hl & _).
    unfold threadlist_remtail. eapply wp_load; [done|]. wp_go. eapply wp_load; [done|]. simpl.
    assert (∃ p, lastp None (AHead l :: (AThr <$> ts)) = Some p) as [p ->].
    { rewrite lastp_cons. unfold lastp. destruct (last _); eauto. }
    eapply wp_mono; [|by apply (remend_tlist st l ts [] t)].
    rewrite app_nil_r. intros ? st' (-> & ? & ? & ?). do 2 (split; [done|]).
    split; [intros ? [= <-]; done|]. eexists. split; [|done]. auto.
  - apply seg_empty_list in Htl as Hn. destruct Hn as [Hh Ht].
    unfold threadlist_remhead. eapply wp_load; [done|]. wp_go. eapply wp_load; [done|]. wp_go.
    do 2 (split; [done|]). split; [done|]. exists []. split; [auto|by split].
  - apply seg_empty_list in Htl as Hn. destruct Hn as [Hh Ht].
    unfold threadlist_remtail. eapply wp_load; [done|]. wp_go. eapply wp_load; [done|]. wp_go.
    do 2 (split; [done|]). split; [done|]. exists []. split; [auto|by split].
Qed.

(** A list with thread 5, and thread 6 on no list. *)
Definition tl_example : tlstate :=
  TlState {[ AHead 0 := Tln None (Some (AThr 5)) None;
             AThr 5 := Tln (Some (AHead 0)) (Some (ATail 0)) (Some 5%nat);
             ATail 0 := Tln (Some (AThr 5)) None None;
             AThr 6 := Tln None None (Some 6%nat) ]} {[ 0%nat := 1 ]}.

Lemma threadlist_refines_sequence_witness :
  wp (exec_tlop 0 (InsertAfter 5 6))
     (λ r' st', r' = None ∧ tlist st' 0 [5%nat; 6%nat] ∧
        (∀ t, taken (InsertAfter 5 6) None = Some t → off_list st' t) ∧
        ∃ us, (∀ u, u ∈ us → u ∈ [5%nat] ∨ u ∈ [5%nat; 6%nat]) ∧ frame tl_example st' 0 us)
     tl_example.
Proof.
  apply (threadlist_refines_sequence tl_example 0 (InsertAfter 5 6) [5%nat] [5%nat; 6%nat] None).
  - repeat split; try reflexivity. apply NoDup_singleton.
  - exact (sp_after 5 6 [] []).
  - reflexivity.
  - intros t [= <-]. reflexivity.
Defined.
