(* ===== verification/Spinlock.v ===== *)
(** * Interrupt levels and spinlocks (kern/thread/spl.c, kern/thread/spinlock.c)

    Part one models the interrupt-priority calls on the fields of the current
    thread ([t_curspl], [t_iplhigh_count]) and the processor's interrupt
    enable bit.  Part two models the spinlock routines as one processor runs
    them.  Part three interleaves them: a step relation over any number of
    processors, one shared-memory access per step, with the test-and-set of
    kern/arch/mips/include/spinlock.h as the only atomic read-modify-write.
    The theorems show that nested raises keep interrupts off until the last
    lower, and that the spinlock gives mutual exclusion, its holder field is
    right, and its assertions fail only for a processor that misuses it. *)

From Stdlib Require Import ZArith Lia.
From stdpp Require Import base numbers list relations.
From S2P Require Import Prelude.

(** ** Part one: spl *)

Definition IPL_NONE : Z := 0.
Definition IPL_HIGH : Z := 1.

Record splstate := SplState {
  t_curspl : Z;
  t_iplhigh_count : Z;
  irq_on : bool;
}.

(** [cpu] is [CURCPU_EXISTS()]. *)
Definition splraise (cpu : bool) (oldspl newspl : Z) : M splstate unit :=
  kassert (oldspl =? IPL_NONE);;
  kassert (newspl =? IPL_HIGH);;
  if negb cpu then mret tt
  else
    cur ← get;
    when (cur.(t_iplhigh_count) =? 0)
      (modify (λ s, SplState s.(t_curspl) s.(t_iplhigh_count) false));;
    modify (λ s, SplState s.(t_curspl) (s.(t_iplhigh_count) + 1) s.(irq_on)).

Definition spllower (cpu : bool) (oldspl newspl : Z) : M splstate unit :=
  kassert (oldspl =? IPL_HIGH);;
  kassert (newspl =? IPL_NONE);;
  if negb cpu then mret tt
  else
    modify (λ s, SplState s.(t_curspl) (s.(t_iplhigh_count) - 1) s.(irq_on));;
    cur ← get;
    when (cur.(t_iplhigh_count) =? 0)
      (modify (λ s, SplState s.(t_curspl) s.(t_iplhigh_count) true)).

Definition set_curspl (spl : Z) : M splstate unit :=
  modify (λ s, SplState spl s.(t_iplhigh_count) s.(irq_on)).

Definition splx (cpu : bool) (spl : Z) : M splstate Z :=
  cur ← get;
  if cur.(t_curspl) <? spl then
    splraise cpu cur.(t_curspl) spl;;
    cur ← get;
    set_curspl spl;;
    mret cur.(t_curspl)
  else if cur.(t_curspl) >? spl then
    set_curspl spl;;
    spllower cpu cur.(t_curspl) spl;;
    mret cur.(t_curspl)
  else mret spl.

Definition spl0 (cpu : bool) : M splstate Z := splx cpu IPL_NONE.
Definition splhigh (cpu : bool) : M splstate Z := splx cpu IPL_HIGH.

(** [n] raises by spinlocks are outstanding. *)
Definition spl_inv (n : nat) (s : splstate) : Prop :=
  (s.(t_curspl) = IPL_NONE ∨ s.(t_curspl) = IPL_HIGH) ∧
  s.(t_iplhigh_count) = Z.of_nat n + s.(t_curspl) ∧
  s.(irq_on) = (s.(t_iplhigh_count) =? 0).

(** The calls that change the level, as client code interleaves them. *)
Inductive splop :=
| Raise
| Lower
| Splx (spl : Z).

Definition exec_splop (o : splop) : M splstate unit :=
  match o with
  | Raise => splraise true IPL_NONE IPL_HIGH
  | Lower => spllower true IPL_HIGH IPL_NONE
  | Splx spl => splx true spl;; mret tt
  end.

(** Outstanding raises after [o]; [None] when [o] is not allowed. *)
Definition splop_count (o : splop) (n : nat) : option nat :=
  match o, n with
  | Raise, _ => Some (S n)
  | Lower, O => None
  | Lower, S n' => Some n'
  | Splx spl, _ => if (spl =? IPL_NONE) || (spl =? IPL_HIGH) then Some n else None
  end.

Fixpoint exec_splops (os : list splop) : M splstate unit :=
  match os with
  | [] => mret tt
  | o :: os' => exec_splop o;; exec_splops os'
  end.

Fixpoint splops_count (os : list splop) (n : nat) : option nat :=
  match os with
  | [] => Some n
  | o :: os' => match splop_count o n with None => None | Some n' => splops_count os' n' end
  end.

Lemma exec_splop_spec o n n' s :
  spl_inv n s → splop_count o n = Some n' → wp (exec_splop o) (λ _ s', spl_inv n' s' ∧
    s'.(t_curspl) = match o with Splx spl => spl | _ => s.(t_curspl) end) s.
Proof.
  intros (Hc & Hn & Hi) Ho. destruct s as [c k i]; simpl in *. subst i k.
  unfold IPL_NONE, IPL_HIGH in *.
  destruct o as [| |spl]; simpl in *; unfold IPL_NONE, IPL_HIGH in *.
  - simplify_eq. unfold wp, splraise, spl_inv, mbind, M_bind, get, when, modify, kassert, mret, M_ret; simpl.
    destruct (Z.eqb_spec (Z.of_nat n + c) 0); simpl; unfold IPL_NONE, IPL_HIGH; split_and!; zbool.
  - destruct n as [|n]; simplify_eq.
    unfold wp, spllower, spl_inv, mbind, M_bind, get, when, modify, kassert, mret, M_ret; simpl.
    destruct (Z.eqb_spec (Z.of_nat (S n') + c - 1) 0); simpl; unfold IPL_NONE, IPL_HIGH; split_and!; zbool.
  - destruct ((spl =? 0) || (spl =? 1)) eqn:E; simplify_eq.
    apply orb_true_iff in E as [E|E]; apply Z.eqb_eq in E as ->; destruct Hc as [-> | ->];
      unfold wp, splx, splraise, spllower, set_curspl, spl_inv, mbind, M_bind, get, when, modify,
        kassert, mret, M_ret, IPL_NONE, IPL_HIGH; simpl; rewrite ?Z.add_0_r.
    + split_and!; zbool.
    + destruct (Z.eqb_spec (Z.of_nat n' + 1 - 1) 0); simpl; split_and!; zbool.
    + destruct (Z.eqb_spec (Z.of_nat n') 0); simpl; split_and!; zbool.
    + split_and!; zbool.
Qed.

Lemma exec_splops_spec os n n' s :
  spl_inv n s → splops_count os n = Some n' → wp (exec_splops os) (λ _, spl_inv n') s.
Proof.
  revert n s. induction os as [|o os IH]; intros n s Hs Hc; simpl in *; simplify_eq; [by apply wp_ret|].
  destruct (splop_count o n) as [n1|] eqn:Ho; [|done].
  apply wp_bind. eapply wp_mono; [|by eapply exec_splop_spec].
  intros [] s' [? _]. by eapply IH.
Qed.

(** Interrupt-level nesting: after any sequence of spinlock raises and
    lowers and [splx] calls in any order (each lower matching an earlier raise),
    all assertions hold, the level counter is exactly the number of outstanding
    raises plus the thread's own level, and interrupts are enabled exactly when
    nothing at all is outstanding. *)
Theorem spl_nesting (os : list splop) (n n' : nat) (s : splstate) :
  spl_inv n s → splops_count os n = Some n' →
  wp (exec_splops os)
     (λ _ s', s'.(t_iplhigh_count) = Z.of_nat n' + s'.(t_curspl) ∧
              (s'.(irq_on) = true ↔ n' = O ∧ s'.(t_curspl) = IPL_NONE)) s.
Proof.
  intros Hs Hc. eapply wp_mono; [|by eapply exec_splops_spec].
  intros [] s' (Hcur & Hn & Hi). split; [done|]. unfold IPL_NONE, IPL_HIGH in *.
  rewrite Hi, Z.eqb_eq. lia.
Qed.

Lemma spl_nesting_witness :
  wp (exec_splops [Raise; Splx 1; Raise; Splx 0; Lower; Lower])
     (λ _ s', s'.(t_iplhigh_count) = Z.of_nat 0 + s'.(t_curspl) ∧
              (s'.(irq_on) = true ↔ 0%nat = O ∧ s'.(t_curspl) = IPL_NONE)) (SplState 0 0 true).
Proof.
  apply (spl_nesting _ 0 0).
  - unfold spl_inv, IPL_NONE; simpl. auto.
  - reflexivity.
Defined.

(** ** Part two: the spinlock routines on one processor *)

Record spinlock := Spinlock { lk_lock : Z; lk_holder : option nat }.

Definition SPINLOCK_INITIALIZER : spinlock := Spinlock 0 None.

Definition spinlock_init : M spinlock unit :=
  modify (λ l, Spinlock 0 l.(lk_holder));;
  modify (λ l, Spinlock l.(lk_lock) None).

Definition spinlock_cleanup : M spinlock unit :=
  l ← get;
  kassert (bool_decide (l.(lk_holder) = None));;
  kassert (l.(lk_lock) =? 0).

(** [mycpu = None] is the time before [curcpu] exists.  A processor that finds
    the word set by another one spins; seen alone it does so forever. *)
Definition spinlock_acquire (mycpu : option nat) : M spinlock unit :=
  l ← get;
  match mycpu with
  | Some c => when (bool_decide (l.(lk_holder) = Some c)) panic
  | None => mret tt
  end;;
  if negb (l.(lk_lock) =? 0) then diverge
  else
    modify (λ l, Spinlock 1 l.(lk_holder));;
    modify (λ l, Spinlock l.(lk_lock) mycpu).

Definition spinlock_release (mycpu : option nat) : M spinlock unit :=
  l ← get;
  match mycpu with
  | Some c => kassert (bool_decide (l.(lk_holder) = Some c))
  | None => mret tt
  end;;
  modify (λ l, Spinlock l.(lk_lock) None);;
  modify (λ l, Spinlock 0 l.(lk_holder)).

Definition spinlock_do_i_hold (mycpu : option nat) : M spinlock bool :=
  l ← get;
  match mycpu with
  | None => mret true
  | Some c => mret (bool_decide (l.(lk_holder) = Some c))
  end.

(** ** Part three: processors interleaved *)

(** Where a processor is: the point before the next shared access. *)
Inductive spc :=
| SIdle        (* outside the lock *)
| SCheck       (* splraise done, about to look at lk_holder *)
| STest        (* about to read the lock word *)
| STas         (* about to test-and-set *)
| SGot         (* about to store lk_holder *)
| SHeld        (* in the critical section *)
| SRecheck     (* spinlock_acquire called again by the holder *)
| SRel         (* about to store NULL into lk_holder *)
| SClear       (* about to store 0 into the lock word *)
| SLower       (* about to lower the interrupt level *)
| SPanic.      (* panic or failed assertion *)

#[export] Instance spc_eq_dec : EqDecision spc.
Proof. solve_decision. Defined.

Record mpstate := MpState { word : Z; holder : option nat; pc : nat → spc }.

Definition set_pc (f : nat → spc) (c : nat) (p : spc) : nat → spc :=
  λ d, if decide (d = c) then p else f d.

Inductive sstep : mpstate → mpstate → Prop :=
| st_acquire w h f c : f c = SIdle → sstep (MpState w h f) (MpState w h (set_pc f c SCheck))
| st_check w h f c : f c = SCheck →
    sstep (MpState w h f)
          (MpState w h (set_pc f c (if decide (h = Some c) then SPanic else STest)))
| st_test w h f c : f c = STest →
    sstep (MpState w h f) (MpState w h (set_pc f c (if w =? 0 then STas else STest)))
| st_tas w h f c : f c = STas →
    sstep (MpState w h f) (MpState 1 h (set_pc f c (if w =? 0 then SGot else STest)))
| st_tas_fail w h f c : f c = STas →
    sstep (MpState w h f) (MpState w h (set_pc f c STest))
| st_got w h f c : f c = SGot → sstep (MpState w h f) (MpState w (Some c) (set_pc f c SHeld))
| st_again w h f c : f c = SHeld → sstep (MpState w h f) (MpState w h (set_pc f c SRecheck))
| st_recheck w h f c : f c = SRecheck →
    sstep (MpState w h f)
          (MpState w h (set_pc f c (if decide (h = Some c) then SPanic else STest)))
| st_release w h f c : f c = SHeld →
    sstep (MpState w h f)
          (MpState w h (set_pc f c (if decide (h = Some c) then SRel else SPanic)))
| st_misrelease w h f c : f c = SIdle →
    sstep (MpState w h f)
          (MpState w h (set_pc f c (if decide (h = Some c) then SRel else SPanic)))
| st_rel w h f c : f c = SRel → sstep (MpState w h f) (MpState w None (set_pc f c SClear))
| st_clear w h f c : f c = SClear → sstep (MpState w h f) (MpState 0 h (set_pc f c SLower))
| st_lower w h f c : f c = SLower → sstep (MpState w h f) (MpState w h (set_pc f c SIdle)).

Definition sinit : mpstate := MpState 0 None (λ _, SIdle).

(** The processor owns the lock word / is recorded as the holder. *)
Definition owns (p : spc) : bool :=
  match p with SGot | SHeld | SRecheck | SRel | SClear => true | _ => false end.
Definition recorded (p : spc) : bool :=
  match p with SHeld | SRecheck | SRel => true | _ => false end.

Definition sinv (s : mpstate) : Prop :=
  (∀ c d, owns (pc s c) = true → owns (pc s d) = true → c = d) ∧
  (∀ c, owns (pc s c) = true → word s ≠ 0) ∧
  (∀ c, recorded (pc s c) = true → holder s = Some c) ∧
  (∀ c, holder s = Some c → recorded (pc s c) = true ∨ pc s c = SPanic).

Lemma recorded_owns p : recorded p = true → owns p = true.
Proof. by destruct p. Qed.

Lemma sinv_init : sinv sinit.
Proof. split_and!; by intros. Qed.

(** One processor moves from [p] to [p'], the word to [w'] and the holder to
    [h']: what has to be checked for the invariant to survive. *)
Lemma sinv_move w h f w' h' c p p' :
  sinv (MpState w h f) → f c = p →
  (owns p' = true → owns p = true ∨ w = 0) →
  (owns p' = true → w' ≠ 0) →
  (w' = w ∨ w' ≠ 0 ∨ owns p = true) →
  (recorded p' = true → h' = Some c) →
  (h' = Some c → recorded p' = true ∨ p' = SPanic) →
  (h' = h ∨ (h' = Some c ∨ h' = None) ∧ owns p = true) →
  sinv (MpState w' h' (set_pc f c p')).
Proof.
  intros (Hu & Hw & Hr & Hh) Hpc Hown Hword Hw' Hrec Hrec' Hh'; simpl in *. unfold set_pc.
  assert (∀ d, d ≠ c → owns (f d) = true → owns p = true → False) as Hex.
  { intros d Hd H1 H2. rewrite <- Hpc in H2. by specialize (Hu _ _ H1 H2). }
  split_and!; simpl.
  - intros d e. repeat case_decide; subst; try done.
    + intros Hp He. destruct (Hown Hp) as [|E]; [by exfalso; eapply Hex|by apply Hw in He].
    + intros Hd Hp. destruct (Hown Hp) as [|E]; [by exfalso; eapply Hex|by apply Hw in Hd].
    + apply Hu.
  - intros d. case_decide; subst; [done|]. intros Hd. pose proof (Hw _ Hd).
    destruct Hw' as [-> |[?|?]]; [done..|]. by exfalso; eapply Hex.
  - intros d. case_decide as Hd; subst; [done|]. intros Hrd.
    destruct Hh' as [-> |[_ ?]]; [by apply Hr|].
    exfalso; eapply Hex; eauto; by apply recorded_owns.
  - intros d. case_decide as Hd; subst; [done|]. intros ->.
    destruct Hh' as [<- |[[[= ->]|?] _]]; [by apply Hh|done|done].
Qed.

Lemma sinv_step s s' : sinv s → sstep s s' → sinv s'.
Proof.
  intros Hinv Hstep. destruct Hstep as [w h f c Hpc|w h f c Hpc|w h f c Hpc|w h f c Hpc|w h f c Hpc
    |w h f c Hpc|w h f c Hpc|w h f c Hpc|w h f c Hpc|w h f c Hpc|w h f c Hpc|w h f c Hpc|w h f c Hpc];
    pose proof Hinv as (_ & Hw & Hr & Hh);
    specialize (Hw c); specialize (Hr c); specialize (Hh c); simpl in Hw, Hr, Hh;
    rewrite Hpc in Hw, Hr, Hh; simpl in Hw, Hr, Hh;
    (eapply sinv_move; [exact Hinv|exact Hpc|..]); clear Hinv;
    repeat case_decide; try destruct (Z.eqb_spec w 0); simpl; intros; subst; simpl; intuition congruence.
Qed.

Lemma sinv_reachable s : rtc sstep sinit s → sinv s.
Proof.
  intros Hr. assert (∀ s0, sinv s0 → rtc sstep s0 s → sinv s) as H; [|by eapply H; [apply sinv_init|]].
  clear Hr. intros s0 H0 Hr. induction Hr; [done|]. eauto using sinv_step.
Qed.

(** Spinlock safety on any number of processors, under every interleaving
    of their memory accesses: at most one processor is between a successful
    test-and-set and the store that frees the word, so at most one is in the
    critical section; [lk_holder] names a processor exactly while it holds the
    lock, so neither the deadlock check of a processor that does not hold the
    lock nor the assertion in [spinlock_release] of one that does can fail,
    while a processor that acquires a lock it already holds is always caught. *)
Theorem spinlock_mutual_exclusion (s : mpstate) :
  rtc sstep sinit s →
  (∀ c d, owns (pc s c) = true → owns (pc s d) = true → c = d) ∧
  (∀ c, pc s c = SCheck → holder s ≠ Some c) ∧
  (∀ c, pc s c = SHeld ∨ pc s c = SRecheck → holder s = Some c) ∧
  (∀ c s', pc s c = SRecheck → sstep s s' → pc s' c = SRecheck ∨ pc s' c = SPanic).
Proof.
  intros (Hu & Hw & Hr & Hh)%sinv_reachable. split_and!.
  - exact Hu.
  - intros c Hc [Hd|Hd]%Hh; by rewrite Hc in Hd.
  - intros c [Hc|Hc]; apply Hr; by rewrite Hc.
  - intros c s' Hc Hstep. assert (holder s = Some c) as Hhc by (apply Hr; by rewrite Hc).
    destruct Hstep; simpl in *; unfold set_pc; repeat case_decide; subst; try congruence; auto.
Qed.

Lemma spinlock_mutual_exclusion_witness :
  let s := MpState 1 (Some 0%nat) (set_pc (set_pc (λ _, SIdle) 0 SHeld) 1 SCheck) in
  holder s ≠ Some 1%nat.
Proof.
  intros s. apply (spinlock_mutual_exclusion (MpState 1 (Some 0%nat)
    (set_pc (set_pc (set_pc (set_pc (set_pc (set_pc (λ _, SIdle) 0 SCheck) 0 STest) 0 STas) 0 SGot) 0 SHeld) 1 SCheck))).
  - eapply rtc_l; [by apply (st_acquire _ _ _ 0)|]. eapply rtc_l; [by apply (st_check _ _ _ 0)|].
    eapply rtc_l; [by apply (st_test _ _ _ 0)|]. eapply rtc_l; [by apply (st_tas _ _ _ 0)|].
    eapply rtc_l; [by apply (st_got _ _ _ 0)|]. eapply rtc_l; [by apply (st_acquire _ _ _ 1)|].
    apply rtc_refl.
  - reflexivity.
Defined.
