(* ===== verification/Interleave.v ===== *)
(** Interleaved threads: the invariants that the step relations of the blocking
    primitives share.

    A machine here has a list of program points, one per thread, and a few
    shared cells.  Four relations tie the cells to the points:
    - [lockinv]: a lock word names exactly the thread whose point holds it;
    - [queueinv]: a wait queue holds exactly the threads whose point is queued;
    - [pendinv]: the threads taken off a queue and not yet made runnable are
      exactly those some waker still has in hand;
    - [tokens]: a weighted count of the points, for arguments that balance
      wakeups against sleepers.
    Each comes with the lemmas that carry it across the step of one thread. *)

From Stdlib Require Import ZArith Lia.
From stdpp Require Import base numbers list sets.
From S2P Require Import Prelude.

Section points.
Context {P : Type}.
Implicit Types (pcs : list P) (p q : P) (t x : nat).

(** What holds of the point of thread [t]. *)
Definition at_pc pcs t (f : P → Prop) : Prop := ∃ p, pcs !! t = Some p ∧ f p.

Lemma at_pc_eq pcs t p f : pcs !! t = Some p → at_pc pcs t f ↔ f p.
Proof. intros H. unfold at_pc. split; [intros (q & Hq & ?)|]; [congruence|eauto]. Qed.

Lemma at_pc_insert_eq pcs t p p' f : pcs !! t = Some p → at_pc (<[t:=p']> pcs) t f ↔ f p'.
Proof. intros H. apply at_pc_eq, list_lookup_insert_eq. by eapply lookup_lt_Some. Qed.

Lemma at_pc_insert_ne pcs t u p' f : t ≠ u → at_pc (<[t:=p']> pcs) u f ↔ at_pc pcs u f.
Proof. intros H. unfold at_pc. by rewrite list_lookup_insert_ne. Qed.

Lemma at_pc_insert_cases pcs t p p' u f :
  pcs !! t = Some p → at_pc (<[t:=p']> pcs) u f ↔ (u = t ∧ f p') ∨ (u ≠ t ∧ at_pc pcs u f).
Proof.
  intros H. destruct (decide (u = t)) as [->|Hu].
  - rewrite (at_pc_insert_eq _ _ p) by done. naive_solver.
  - rewrite at_pc_insert_ne by done. naive_solver.
Qed.

(** ** Lock words *)

Definition lockinv (holds : P → bool) (lk : option nat) pcs : Prop :=
  ∀ t, lk = Some t ↔ at_pc pcs t (λ p, holds p = true).

Lemma lockinv_keep holds lk pcs t p p' :
  lockinv holds lk pcs → pcs !! t = Some p → holds p' = holds p →
  lockinv holds lk (<[t:=p']> pcs).
Proof.
  intros H Ht Hp u. rewrite (H u). destruct (decide (u = t)) as [->|].
  - by rewrite (at_pc_insert_eq _ _ p), (at_pc_eq _ _ p), Hp by done.
  - by rewrite at_pc_insert_ne by done.
Qed.

Lemma lockinv_acquire holds pcs t p p' :
  lockinv holds None pcs → pcs !! t = Some p → holds p' = true →
  lockinv holds (Some t) (<[t:=p']> pcs).
Proof.
  intros H Ht Hp u. rewrite (at_pc_insert_cases _ _ p) by done. rewrite <- (H u). naive_solver.
Qed.

Lemma lockinv_release holds lk pcs t p p' :
  lockinv holds lk pcs → pcs !! t = Some p → holds p = true → holds p' = false →
  lockinv holds None (<[t:=p']> pcs).
Proof.
  intros H Ht Hp Hp' u. rewrite (at_pc_insert_cases _ _ p) by done. rewrite <- (H u).
  assert (lk = Some t) by (apply H; by rewrite at_pc_eq). naive_solver congruence.
Qed.

Lemma lockinv_holder holds lk pcs t p :
  lockinv holds lk pcs → pcs !! t = Some p → holds p = true → lk = Some t.
Proof. intros H Ht Hp. apply H. by rewrite at_pc_eq. Qed.

Lemma lockinv_unique holds lk pcs t p u q :
  lockinv holds lk pcs → pcs !! t = Some p → pcs !! u = Some q →
  holds p = true → holds q = true → t = u.
Proof.
  intros H Ht Hu Hp Hq. pose proof (lockinv_holder _ _ _ _ _ H Ht Hp).
  pose proof (lockinv_holder _ _ _ _ _ H Hu Hq). congruence.
Qed.

Lemma lockinv_owner holds t pcs : lockinv holds (Some t) pcs → ∃ p, pcs !! t = Some p ∧ holds p = true.
Proof. intros H. by apply H. Qed.

(** ** Wait queues *)

Definition queueinv (queued : P → bool) (qu : list nat) pcs : Prop :=
  NoDup qu ∧ ∀ t, t ∈ qu ↔ at_pc pcs t (λ p, queued p = true).

Lemma queueinv_keep queued qu pcs t p p' :
  queueinv queued qu pcs → pcs !! t = Some p → queued p' = queued p →
  queueinv queued qu (<[t:=p']> pcs).
Proof.
  intros [Hn H] Ht Hp. split; [done|]. intros u. rewrite (H u). destruct (decide (u = t)) as [->|].
  - by rewrite (at_pc_insert_eq _ _ p), (at_pc_eq _ _ p), Hp by done.
  - by rewrite at_pc_insert_ne by done.
Qed.

Lemma queueinv_addtail queued qu pcs t p p' :
  queueinv queued qu pcs → pcs !! t = Some p → queued p = false → queued p' = true →
  queueinv queued (qu ++ [t]) (<[t:=p']> pcs).
Proof.
  intros [Hn H] Ht Hp Hp'.
  assert (t ∉ qu) by (rewrite H, at_pc_eq by done; congruence). split.
  - apply NoDup_app. split_and!; [done| |apply NoDup_singleton]. set_solver.
  - intros u. rewrite (at_pc_insert_cases _ _ p) by done. rewrite <- (H u).
    rewrite elem_of_app, list_elem_of_singleton. destruct (decide (u = t)) as [->|]; naive_solver.
Qed.

Lemma queueinv_remhead queued qu pcs x p p' :
  queueinv queued (x :: qu) pcs → pcs !! x = Some p → queued p' = false →
  queueinv queued qu (<[x:=p']> pcs).
Proof.
  intros [[Hx Hn]%NoDup_cons H] Ht Hp. split; [done|].
  intros u. rewrite (at_pc_insert_cases _ _ p) by done. rewrite <- (H u).
  rewrite elem_of_cons. split; [|naive_solver congruence]. intros Hu. right. split; [by intros ->|auto].
Qed.

Lemma queueinv_in queued qu pcs x : queueinv queued qu pcs → x ∈ qu →
  ∃ p, pcs !! x = Some p ∧ queued p = true.
Proof. intros [_ H]. apply H. Qed.

(** ** Threads in a waker's hands *)

Definition pendinv (pend : P → list nat) (taken : P → option nat) pcs : Prop :=
  (∀ x t, at_pc pcs x (λ q, taken q = Some t) ↔ at_pc pcs t (λ p, x ∈ pend p)) ∧
  (∀ t p, pcs !! t = Some p → NoDup (pend p)).

Lemma pendinv_keep pend taken pcs t p p' :
  pendinv pend taken pcs → pcs !! t = Some p → pend p' = pend p → taken p' = taken p →
  pendinv pend taken (<[t:=p']> pcs).
Proof.
  intros [H Hn] Ht Hp Hq. split.
  - intros x u. rewrite !(at_pc_insert_cases _ _ p) by done. specialize (H x u).
    destruct (decide (x = t)) as [->|], (decide (u = t)) as [->|];
      rewrite ?(at_pc_eq _ _ _ _ Ht) in H; rewrite ?Hp, ?Hq; naive_solver.
  - intros u q Hu. destruct (decide (u = t)) as [->|].
    + rewrite list_lookup_insert_eq in Hu by (by eapply lookup_lt_Some).
      injection Hu as <-. rewrite Hp. eauto.
    + rewrite list_lookup_insert_ne in Hu by done. eauto.
Qed.

(** The waker [t] takes [x] off a queue. *)
Lemma pendinv_take pend taken pcs t p p' x q q' :
  pendinv pend taken pcs → pcs !! t = Some p → pcs !! x = Some q → x ≠ t →
  taken p = None → taken p' = None → pend q = [] → pend q' = [] →
  taken q = None → taken q' = Some t → pend p' = pend p ++ [x] →
  pendinv pend taken (<[t:=p']> (<[x:=q']> pcs)).
Proof.
  intros [H Hn] Ht Hx Hne Hp Hp' Hq Hq' Hk Hk' Hpend.
  assert (<[x:=q']> pcs !! t = Some p) as Ht' by (by rewrite list_lookup_insert_ne).
  assert (x ∉ pend p) as Hxp.
  { intros Hin. specialize (H x t). rewrite (at_pc_eq _ _ _ _ Hx), (at_pc_eq _ _ _ _ Ht) in H.
    apply H in Hin. congruence. }
  split.
  - intros y u. rewrite !(at_pc_insert_cases _ _ _ _ _ _ Ht'), !(at_pc_insert_cases _ _ _ _ _ _ Hx).
    pose proof (H y u) as Hyu.
    destruct (decide (y = t)) as [Hyt|], (decide (u = t)) as [Hut|],
      (decide (y = x)) as [Hyx|], (decide (u = x)) as [Hux|];
      try congruence; try subst y; try subst u;
      rewrite ?(at_pc_eq _ _ _ _ Ht), ?(at_pc_eq _ _ _ _ Hx) in Hyu;
      rewrite ?Hpend, ?Hq', ?Hk', ?Hp', ?Hp, ?Hk, ?Hq in *; set_solver.
  - intros u r Hu. destruct (decide (u = t)) as [->|].
    + rewrite list_lookup_insert_eq in Hu by (by eapply lookup_lt_Some). injection Hu as <-.
      rewrite Hpend. apply NoDup_app. split_and!; [eauto| |apply NoDup_singleton]. set_solver.
    + rewrite list_lookup_insert_ne in Hu by done. destruct (decide (u = x)) as [->|].
      * rewrite list_lookup_insert_eq in Hu by (by eapply lookup_lt_Some). injection Hu as <-.
        rewrite Hq'. apply NoDup_nil_2.
      * rewrite list_lookup_insert_ne in Hu by done. eauto.
Qed.

(** The waker [t] makes the first of its threads runnable. *)
Lemma pendinv_wake pend taken pcs t p p' x q q' :
  pendinv pend taken pcs → pcs !! t = Some p → pcs !! x = Some q → x ≠ t →
  taken p = None → taken p' = None → pend q = [] → pend q' = [] → taken q' = None →
  pend p = x :: pend p' →
  pendinv pend taken (<[t:=p']> (<[x:=q']> pcs)).
Proof.
  intros [H Hn] Ht Hx Hne Hp Hp' Hq Hq' Hk' Hpend.
  assert (<[x:=q']> pcs !! t = Some p) as Ht' by (by rewrite list_lookup_insert_ne).
  pose proof (Hn _ _ Ht) as Hnd. rewrite Hpend in Hnd. apply NoDup_cons in Hnd as [Hxp Hnd].
  assert (taken q = Some t) as Hkq.
  { specialize (H x t). rewrite (at_pc_eq _ _ _ _ Hx), (at_pc_eq _ _ _ _ Ht), Hpend in H. apply H. left. }
  split.
  - intros y u. rewrite !(at_pc_insert_cases _ _ _ _ _ _ Ht'), !(at_pc_insert_cases _ _ _ _ _ _ Hx).
    pose proof (H y u) as Hyu.
    destruct (decide (y = t)) as [Hyt|], (decide (u = t)) as [Hut|],
      (decide (y = x)) as [Hyx|], (decide (u = x)) as [Hux|];
      try congruence; try subst y; try subst u;
      rewrite ?(at_pc_eq _ _ _ _ Ht), ?(at_pc_eq _ _ _ _ Hx) in Hyu;
      rewrite ?Hpend, ?Hq', ?Hk', ?Hp', ?Hp, ?Hkq, ?Hq in *; set_solver.
  - intros u r Hu. destruct (decide (u = t)) as [->|].
    + rewrite list_lookup_insert_eq in Hu by (by eapply lookup_lt_Some). by injection Hu as <-.
    + rewrite list_lookup_insert_ne in Hu by done. destruct (decide (u = x)) as [->|].
      * rewrite list_lookup_insert_eq in Hu by (by eapply lookup_lt_Some). injection Hu as <-.
        rewrite Hq'. apply NoDup_nil_2.
      * rewrite list_lookup_insert_ne in Hu by done. eauto.
Qed.

Lemma pendinv_target pend taken pcs t p x :
  pendinv pend taken pcs → pcs !! t = Some p → x ∈ pend p →
  ∃ q, pcs !! x = Some q ∧ taken q = Some t.
Proof. intros [H _] Ht Hx. apply H. by rewrite at_pc_eq. Qed.

(** ** Weighted counts *)

Definition tokens (tok : P → Z) pcs : Z := foldr (λ p z, tok p + z) 0 pcs.

Lemma tokens_insert tok pcs t p p' :
  pcs !! t = Some p → tokens tok (<[t:=p']> pcs) = tokens tok pcs - tok p + tok p'.
Proof.
  revert t. induction pcs as [|r pcs IH]; intros [|t] Ht; simplify_eq/=; [lia|].
  rewrite IH by done. lia.
Qed.

Lemma tokens_nonneg tok pcs : (∀ p, 0 ≤ tok p) → 0 ≤ tokens tok pcs.
Proof. intros H. induction pcs as [|p pcs IH]; simpl; [lia|]. specialize (H p). lia. Qed.

Lemma tokens_zero tok pcs : (∀ p, p ∈ pcs → tok p = 0) → tokens tok pcs = 0.
Proof.
  induction pcs as [|p pcs IH]; intros H; simpl; [done|].
  rewrite (H p) by left. rewrite IH; [done|]. intros q Hq. apply H. by right.
Qed.

Lemma tokens_ge tok pcs t p : (∀ p, 0 ≤ tok p) → pcs !! t = Some p → tok p ≤ tokens tok pcs.
Proof.
  intros Hn. revert t. induction pcs as [|r pcs IH]; intros [|t] Ht; simplify_eq/=.
  - pose proof (tokens_nonneg tok pcs Hn). lia.
  - specialize (IH _ Ht). specialize (Hn r). lia.
Qed.

Lemma tokens_mono (f g : P → Z) pcs : (∀ p, f p ≤ g p) → tokens f pcs ≤ tokens g pcs.
Proof. intros H. induction pcs as [|p pcs IH]; simpl; [lia|]. specialize (H p). lia. Qed.

(** As many units as threads: each thread has its own. *)
Lemma tokens_full tok pcs p :
  (∀ p, tok p ≤ 1) → Z.of_nat (length pcs) ≤ tokens tok pcs → p ∈ pcs → tok p = 1.
Proof.
  intros Hn. assert (∀ l, tokens tok l ≤ Z.of_nat (length l)) as Hle.
  { induction l as [|q l IH]; simpl; [lia|]. specialize (Hn q). lia. }
  induction pcs as [|q pcs IH]; simpl; intros Hl Hp; [by apply not_elem_of_nil in Hp|].
  specialize (Hle pcs). pose proof (Hn q). apply elem_of_cons in Hp as [->|Hp]; [lia|].
  apply IH; [lia|done].
Qed.

(** A fact about every point survives the step of one thread when the facts of
    the other threads do. *)
Lemma points_insert (f g : nat → P → Prop) pcs t p p' :
  (∀ u q, pcs !! u = Some q → f u q) → pcs !! t = Some p → g t p' →
  (∀ u q, u ≠ t → pcs !! u = Some q → f u q → g u q) →
  ∀ u q, <[t:=p']> pcs !! u = Some q → g u q.
Proof.
  intros Hf Ht Hp' Hothers u q Hu. destruct (decide (u = t)) as [->|].
  - rewrite list_lookup_insert_eq in Hu by (by eapply lookup_lt_Some). by injection Hu as <-.
  - rewrite list_lookup_insert_ne in Hu by done. eauto.
Qed.
End points.
