(* ===== verification/Semaphore.v ===== *)
(** Counting semaphores: [P] and [V] of kern/thread/synch.c, with the wait
    channel they sleep on (kern/thread/thread.c).

    A semaphore is used by any number of threads at once.  The model is a step
    relation: each thread has a program point, one step is one access to the
    shared cells (the spinlock word of the semaphore, the spinlock word of the
    wait channel, the list of sleepers, the count), and steps of different
    threads interleave freely.  A thread that finds a spinlock taken has no
    step until it is freed. *)

From Stdlib Require Import ZArith Lia.
From stdpp Require Import base numbers list relations sets.
From S2P Require Import Prelude Interleave.

Module Sem.

(** Program points.  The boolean of [PAcq] .. [PDec] is true for a thread that
    has been woken since it last looked at the count. *)
Inductive pc :=
| Idle
| PAcq (woken : bool)    (* spinlock_acquire(&sem->sem_lock) *)
| PTest (woken : bool)   (* while (sem->sem_count == 0) *)
| PWLock                 (* wchan_lock *)
| PRel                   (* spinlock_release, channel locked *)
| PAdd                   (* thread_switch: threadlist_addtail *)
| PUnl                   (* thread_switch: wchan_unlock *)
| PAsleep                (* on the channel's list *)
| PTaken (by_ : nat)     (* off the list, in the hands of the waker *)
| PDec (woken : bool)    (* KASSERT(count > 0); count-- *)
| PEnd                   (* spinlock_release *)
| VAcq                   (* spinlock_acquire(&sem->sem_lock) *)
| VInc                   (* count++; KASSERT(count > 0) *)
| VWLock                 (* wchan_wakeone: spinlock_acquire(&wc->wc_lock) *)
| VRem                   (* wchan_wakeone: threadlist_remhead *)
| VWUnl (target : option nat)  (* wchan_wakeone: spinlock_release *)
| VRun (target : option nat)   (* wchan_wakeone: thread_make_runnable *)
| VEnd                   (* spinlock_release *)
| PPanic | VPanic.       (* a KASSERT has failed *)

Record sem := mkSem {
  sem_lock : option nat;
  wc_lock : option nat;
  wc_threads : list nat;
  sem_count : Z;
  pcs : list pc;
  done_P : Z;            (* how many decrements and increments there were *)
  done_V : Z;
}.

Definition goto (t : nat) (p : pc) (s : sem) : sem :=
  mkSem s.(sem_lock) s.(wc_lock) s.(wc_threads) s.(sem_count) (<[t:=p]> s.(pcs)) s.(done_P) s.(done_V).
Definition set_sem_lock (o : option nat) (s : sem) : sem :=
  mkSem o s.(wc_lock) s.(wc_threads) s.(sem_count) s.(pcs) s.(done_P) s.(done_V).
Definition set_wc_lock (o : option nat) (s : sem) : sem :=
  mkSem s.(sem_lock) o s.(wc_threads) s.(sem_count) s.(pcs) s.(done_P) s.(done_V).
Definition set_threads (l : list nat) (s : sem) : sem :=
  mkSem s.(sem_lock) s.(wc_lock) l s.(sem_count) s.(pcs) s.(done_P) s.(done_V).
Definition set_count (c dp dv : Z) (s : sem) : sem :=
  mkSem s.(sem_lock) s.(wc_lock) s.(wc_threads) c s.(pcs) (s.(done_P) + dp) (s.(done_V) + dv).

(** A spinlock that is free is taken; one that is not makes the thread spin. *)
Definition acquire_sem (t : nat) (s : sem) : option sem :=
  match s.(sem_lock) with None => Some (set_sem_lock (Some t) s) | Some _ => None end.
Definition acquire_wc (t : nat) (s : sem) : option sem :=
  match s.(wc_lock) with None => Some (set_wc_lock (Some t) s) | Some _ => None end.

(** ** [P] *)
Definition P_step (t : nat) (p : pc) (s : sem) : option sem :=
  match p with
  | PAcq w => goto t (PTest w) <$> acquire_sem t s
  | PTest w => Some (goto t (if s.(sem_count) =? 0 then PWLock else PDec w) s)
  | PWLock => goto t PRel <$> acquire_wc t s
  | PRel => Some (goto t PAdd (set_sem_lock None s))
  | PDec w =>
      Some (if s.(sem_count) >? 0
            then goto t PEnd (set_count (s.(sem_count) - 1) 1 0 s)
            else goto t PPanic s)
  | PEnd => Some (goto t Idle (set_sem_lock None s))
  | _ => None
  end.

(** ** [wchan_sleep], that is [thread_switch(S_SLEEP, wc)] *)
Definition wchan_sleep_step (t : nat) (p : pc) (s : sem) : option sem :=
  match p with
  | PAdd => Some (goto t PUnl (set_threads (s.(wc_threads) ++ [t]) s))
  | PUnl => Some (goto t PAsleep (set_wc_lock None s))
  | _ => None
  end.

(** ** [wchan_wakeone] *)
Definition wchan_wakeone_step (t : nat) (p : pc) (s : sem) : option sem :=
  match p with
  | VWLock => goto t VRem <$> acquire_wc t s
  | VRem =>
      Some match s.(wc_threads) with
           | [] => goto t (VWUnl None) s
           | x :: l => goto t (VWUnl (Some x)) (goto x (PTaken t) (set_threads l s))
           end
  | VWUnl o => Some (goto t (VRun o) (set_wc_lock None s))
  | VRun None => Some (goto t VEnd s)
  | VRun (Some x) => Some (goto t VEnd (goto x (PAcq true) s))
  | _ => None
  end.

(** ** [V] *)
Definition V_step (t : nat) (p : pc) (s : sem) : option sem :=
  match p with
  | VAcq => goto t VInc <$> acquire_sem t s
  | VInc =>
      let c := s32 (s.(sem_count) + 1) in
      Some (if c >? 0 then goto t VWLock (set_count c 0 1 s)
            else goto t VPanic (set_count c 0 1 s))
  | VEnd => Some (goto t Idle (set_sem_lock None s))
  | _ => None
  end.

(** The next step of thread [t] inside the operation it is in. *)
Definition step (t : nat) (s : sem) : option sem :=
  match s.(pcs) !! t with
  | None => None
  | Some p =>
      match p with
      | PAcq _ | PTest _ | PWLock | PRel | PDec _ | PEnd => P_step t p s
      | PAdd | PUnl => wchan_sleep_step t p s
      | VWLock | VRem | VWUnl _ | VRun _ => wchan_wakeone_step t p s
      | VAcq | VInc | VEnd => V_step t p s
      | Idle | PAsleep | PTaken _ | PPanic | VPanic => None
      end
  end.

Inductive sem_step : sem → sem → Prop :=
| call_P s t : s.(pcs) !! t = Some Idle → sem_step s (goto t (PAcq false) s)
| call_V s t : s.(pcs) !! t = Some Idle → sem_step s (goto t VAcq s)
| run s s' t : step t s = Some s' → sem_step s s'.

(** A schedule: which thread calls what, and which thread runs next. *)
Inductive event := CallP (t : nat) | CallV (t : nat) | Run (t : nat).

Definition exec_event (e : event) (s : sem) : option sem :=
  match e with
  | CallP t => match s.(pcs) !! t with Some Idle => Some (goto t (PAcq false) s) | _ => None end
  | CallV t => match s.(pcs) !! t with Some Idle => Some (goto t VAcq s) | _ => None end
  | Run t => step t s
  end.
Fixpoint exec (l : list event) (s : sem) : option sem :=
  match l with [] => Some s | e :: l => s' ← exec_event e s; exec l s' end.

(** [sem_create] leaves the semaphore unlocked with nobody waiting. *)
Definition sem_init (initial_count : Z) (nthreads : nat) : sem :=
  mkSem None None [] initial_count (replicate nthreads Idle) 0 0.

Lemma exec_rtc l s s' : exec l s = Some s' → rtc sem_step s s'.
Proof.
  revert s. induction l as [|e l IH]; simpl; intros s; [intros [= ->]; apply rtc_refl|].
  intros (s1 & He & Hl)%bind_Some. eapply rtc_l; [|by apply IH].
  destruct e as [t|t|t]; simpl in He; [destruct (pcs s !! t) as [[]|] eqn:Ht; simplify_eq..|];
    eauto using sem_step.
Qed.

(** ** The invariant *)

Definition holds_sem (p : pc) : bool :=
  match p with
  | PTest _ | PWLock | PRel | PDec _ | PEnd | PPanic
  | VInc | VWLock | VRem | VWUnl _ | VRun _ | VEnd | VPanic => true
  | _ => false
  end.
Definition holds_wc (p : pc) : bool :=
  match p with PRel | PAdd | PUnl | VRem | VWUnl _ => true | _ => false end.
Definition queued (p : pc) : bool :=
  match p with PUnl | PAsleep => true | _ => false end.
Definition pend (p : pc) : list nat :=
  match p with VWUnl (Some x) | VRun (Some x) => [x] | _ => [] end.
Definition taken (p : pc) : option nat :=
  match p with PTaken t => Some t | _ => None end.
(** On its way to go to sleep with the channel locked. *)
Definition bridging (p : pc) : bool :=
  match p with PRel | PAdd => true | _ => false end.
(** A wakeup under way: an increment whose [wchan_wakeone] has not looked at
    the channel yet, or a woken thread that has not looked at the count yet. *)
Definition tok (p : pc) : Z :=
  match p with
  | PTaken _ | PAcq true | PTest true | PDec true | VWLock | VRem => 1
  | _ => 0
  end.

Section invariant.
Context (init : Z).

Definition total (s : sem) : Z := init + s.(done_V) - s.(done_P).

(** What the thread at [p] knows of the count. *)
Definition knows (s : sem) (p : pc) : Prop :=
  match p with
  | PWLock => s.(sem_count) = 0
  | PDec _ => s.(sem_count) > 0
  | PPanic => False
  | VPanic => total s = INT_MAX + 1
  | _ => True
  end.

Record inv (s : sem) : Prop := Inv {
  inv_sem : lockinv holds_sem s.(sem_lock) s.(pcs);
  inv_wc : lockinv holds_wc s.(wc_lock) s.(pcs);
  inv_queue : queueinv queued s.(wc_threads) s.(pcs);
  inv_pend : pendinv pend taken s.(pcs);
  inv_knows : ∀ t p, s.(pcs) !! t = Some p → knows s p;
  inv_count : s.(sem_count) = s32 (total s) ∧ 0 ≤ total s ≤ INT_MAX + 1;
  inv_over : total s = INT_MAX + 1 → ∃ t, s.(pcs) !! t = Some VPanic;
  inv_wakeups :
    s.(wc_threads) ≠ [] ∨ (∃ t, at_pc s.(pcs) t (λ p, bridging p = true)) →
    s.(sem_count) ≤ tokens tok s.(pcs);
}.

(** The holder of the semaphore's spinlock reads the true count, unless it is
    the one that overflowed it. *)
Lemma inv_holder_count s t p :
  inv s → s.(pcs) !! t = Some p → holds_sem p = true → p ≠ VPanic →
  s.(sem_count) = total s ∧ 0 ≤ s.(sem_count) ≤ INT_MAX.
Proof.
  intros Hi Ht Hp Hne. destruct (inv_count _ Hi) as [Hc Hr].
  assert (total s ≠ INT_MAX + 1) as Hn.
  { intros (u & Hu)%(inv_over _ Hi).
    pose proof (lockinv_unique _ _ _ _ _ _ _ (inv_sem _ Hi) Ht Hu Hp eq_refl). congruence. }
  unfold INT_MAX, s32 in *. lia.
Qed.

Lemma tok_nonneg p : 0 ≤ tok p.
Proof. destruct p as [|[]|[]| | | | | | |[]| | | | | | | | | |]; simpl; lia. Qed.

(** The components that speak of one thread's point at a time, across the step
    of thread [t] from [p] to [p'] by which the count does not change. *)
Lemma knows_goto s t p p' :
  inv s → s.(pcs) !! t = Some p → knows s p' →
  ∀ u q, <[t:=p']> s.(pcs) !! u = Some q → knows s q.
Proof.
  intros Hi Ht Hp'. eapply (points_insert (λ _, knows s)); [apply Hi|done|done|done].
Qed.

(** A change of the count by the holder of the spinlock. *)
Lemma knows_count s s1 t p p' :
  inv s → s.(pcs) !! t = Some p → holds_sem p = true → knows s1 p' →
  ∀ u q, <[t:=p']> s.(pcs) !! u = Some q → knows s1 q.
Proof.
  intros Hi Ht Hp Hp'. eapply (points_insert (λ _, knows s)); [apply Hi|done|done|].
  intros u q Hne Hu Hk. assert (holds_sem q = false) as Hq.
  { destruct (holds_sem q) eqn:E; [|done].
    by destruct Hne; eapply (lockinv_unique _ _ _ _ _ _ _ (inv_sem _ Hi) Hu Ht). }
  by destruct q.
Qed.

Lemma over_goto s t p p' (T : Z) :
  inv s → s.(pcs) !! t = Some p → p ≠ VPanic → T = total s →
  T = INT_MAX + 1 → ∃ u, <[t:=p']> s.(pcs) !! u = Some VPanic.
Proof.
  intros Hi Ht Hp -> (u & Hu)%(inv_over _ Hi). exists u.
  rewrite list_lookup_insert_ne; [done|]. intros ->. congruence.
Qed.

Lemma bridging_goto pcs0 t p p' :
  pcs0 !! t = Some p → bridging p' = false →
  (∃ u, at_pc (<[t:=p']> pcs0) u (λ q, bridging q = true)) →
  ∃ u, at_pc pcs0 u (λ q, bridging q = true).
Proof.
  intros Ht Hp' (u & Hu). exists u. rewrite (at_pc_insert_cases _ _ _ _ _ _ Ht) in Hu.
  destruct Hu as [[_ ?]|[_ ?]]; [congruence|done].
Qed.

(** A step of one thread that leaves the count and the channel's list alone. *)
Lemma inv_move s t p p' sl wl :
  inv s → s.(pcs) !! t = Some p → p ≠ VPanic →
  lockinv holds_sem sl (<[t:=p']> s.(pcs)) → lockinv holds_wc wl (<[t:=p']> s.(pcs)) →
  queued p' = queued p → pend p' = pend p → taken p' = taken p → knows s p' →
  (tok p ≤ tok p' ∨ s.(sem_count) = 0) →
  (bridging p' = true → bridging p = true ∨ s.(sem_count) = 0) →
  inv (mkSem sl wl s.(wc_threads) s.(sem_count) (<[t:=p']> s.(pcs)) s.(done_P) s.(done_V)).
Proof.
  intros Hi Ht Hv Hsl Hwl Hq Hpe Hta Hk Htok Hbr. split; simpl; [done|done|..].
  - eapply queueinv_keep; [apply Hi|done..].
  - eapply pendinv_keep; [apply Hi|done..].
  - by eapply (knows_goto _ _ _ _ Hi).
  - apply Hi.
  - by eapply over_goto.
  - rewrite (tokens_insert _ _ _ _ _ Ht). intros Hw. pose proof (inv_wakeups _ Hi) as Hold.
    pose proof (tokens_ge _ _ _ _ tok_nonneg Ht). pose proof (tok_nonneg p').
    destruct Htok as [Htok|Htok]; [|lia]. transitivity (tokens tok s.(pcs)); [|lia].
    destruct Hw as [Hw|[u Hu]]; [by apply Hold; left|].
    rewrite (at_pc_insert_cases _ _ _ _ _ _ Ht) in Hu. destruct Hu as [[-> Hp']|[_ Hu]].
    + destruct (Hbr Hp') as [Hp| ->]; [|apply tokens_nonneg, tok_nonneg].
      apply Hold. right. exists t. by rewrite at_pc_eq.
    + apply Hold. right. eauto.
Qed.

(** [threadlist_addtail] of the thread going to sleep. *)
Lemma inv_addtail s t :
  inv s → s.(pcs) !! t = Some PAdd → inv (goto t PUnl (set_threads (s.(wc_threads) ++ [t]) s)).
Proof.
  intros Hi Ht. split; simpl.
  - eapply lockinv_keep; [apply Hi|done..].
  - eapply lockinv_keep; [apply Hi|done..].
  - eapply queueinv_addtail; [apply Hi|done..].
  - eapply pendinv_keep; [apply Hi|done..].
  - by eapply (knows_goto _ _ _ _ Hi).
  - apply Hi.
  - by eapply over_goto.
  - intros _. rewrite (tokens_insert _ _ _ _ _ Ht). simpl.
    assert (sem_count s ≤ tokens tok (pcs s)); [|lia].
    apply (inv_wakeups _ Hi). right. exists t. by rewrite (at_pc_eq _ _ _ _ Ht).
Qed.

(** The decrement of [P]. *)
Lemma inv_dec s t w :
  inv s → s.(pcs) !! t = Some (PDec w) →
  inv (goto t PEnd (set_count (s.(sem_count) - 1) 1 0 s)).
Proof.
  intros Hi Ht. destruct (inv_holder_count _ _ _ Hi Ht eq_refl) as [Hc Hr]; [done|].
  pose proof (inv_knows _ Hi _ _ Ht) as Hk. simpl in Hk.
  split; simpl.
  - eapply lockinv_keep; [apply Hi|done..].
  - eapply lockinv_keep; [apply Hi|done..].
  - eapply queueinv_keep; [apply Hi|done..].
  - eapply pendinv_keep; [apply Hi|done..].
  - by eapply (knows_count s).
  - unfold total, INT_MAX, s32 in *; simpl. lia.
  - unfold total, INT_MAX in *; simpl. lia.
  - rewrite (tokens_insert _ _ _ _ _ Ht). simpl. intros Hw.
    assert (sem_count s ≤ tokens tok (pcs s)); [|destruct w; lia].
    apply (inv_wakeups _ Hi). destruct Hw as [Hw|Hw]; [by left|right].
    eapply bridging_goto in Hw; eauto.
Qed.

(** The increment of [V]. *)
Lemma inv_inc s t :
  inv s → s.(pcs) !! t = Some VInc →
  let c := s32 (s.(sem_count) + 1) in
  inv (if c >? 0 then goto t VWLock (set_count c 0 1 s) else goto t VPanic (set_count c 0 1 s)).
Proof.
  intros Hi Ht c. destruct (inv_holder_count _ _ _ Hi Ht eq_refl) as [Hc Hr]; [done|].
  assert (∀ p', holds_sem p' = true → holds_wc p' = false → queued p' = false → pend p' = [] →
    taken p' = None → bridging p' = false → knows (set_count c 0 1 s) p' →
    (total (set_count c 0 1 s) = INT_MAX + 1 → p' = VPanic) → c ≤ 0 ∨ tok p' = 1 →
    inv (goto t p' (set_count c 0 1 s))) as Hgen.
  { intros p' H1 H2 H3 H4 H5 H6 H7 H8 H9. split; simpl.
    - eapply lockinv_keep; [apply Hi|done..].
    - eapply lockinv_keep; [apply Hi|done..].
    - eapply queueinv_keep; [apply Hi|done..].
    - eapply pendinv_keep; [apply Hi|done..].
    - by eapply (knows_count s _ _ _ _ Hi Ht).
    - unfold c, total, INT_MAX, s32 in *; simpl. lia.
    - intros E. exists t. rewrite <- H8 by done. apply list_lookup_insert_eq. by eapply lookup_lt_Some.
    - rewrite (tokens_insert _ _ _ _ _ Ht). simpl. intros Hw.
      pose proof (tokens_nonneg _ (pcs s) tok_nonneg). pose proof (tok_nonneg p').
      destruct H9 as [?|H9]; [lia|]. rewrite H9.
      assert (sem_count s ≤ tokens tok (pcs s)); [|unfold c, INT_MAX, s32 in *; lia].
      apply (inv_wakeups _ Hi). destruct Hw as [Hw|Hw]; [by left|right].
      eapply bridging_goto in Hw; eauto. }
  destruct (Z.gtb_spec c 0); apply Hgen; try done; simpl;
    unfold c, total, INT_MAX, s32 in *; simpl; lia.
Qed.

(** Nobody is going to sleep while the waker has the channel locked. *)
Lemma no_bridging s t p :
  inv s → s.(pcs) !! t = Some p → holds_wc p = true → bridging p = false →
  ∀ u q, s.(pcs) !! u = Some q → bridging q = false.
Proof.
  intros Hi Ht Hp Hb u q Hu. destruct (bridging q) eqn:E; [|done].
  assert (u = t) as ->; [|congruence].
  eapply (lockinv_unique _ _ _ _ _ _ _ (inv_wc _ Hi) Hu Ht); [|done]. by destruct q.
Qed.

(** [threadlist_remhead] on an empty channel. *)
Lemma inv_remhead_nil s t :
  inv s → s.(pcs) !! t = Some VRem → s.(wc_threads) = [] → inv (goto t (VWUnl None) s).
Proof.
  intros Hi Ht Hnil. split; simpl.
  - eapply lockinv_keep; [apply Hi|done..].
  - eapply lockinv_keep; [apply Hi|done..].
  - eapply queueinv_keep; [apply Hi|done..].
  - eapply pendinv_keep; [apply Hi|done..].
  - by eapply (knows_goto _ _ _ _ Hi).
  - apply Hi.
  - by eapply over_goto.
  - intros [Hw|Hw]; [done|]. eapply bridging_goto in Hw as (u & q & Hu & Hq); [|done..].
    pose proof (no_bridging _ _ _ Hi Ht eq_refl eq_refl _ _ Hu). congruence.
Qed.

(** [threadlist_remhead] takes the head [x] off the channel. *)
Lemma inv_remhead_cons s t x l :
  inv s → s.(pcs) !! t = Some VRem → s.(wc_threads) = x :: l →
  inv (goto t (VWUnl (Some x)) (goto x (PTaken t) (set_threads l s))).
Proof.
  intros Hi Ht Hl. pose proof (inv_queue _ Hi) as Hqu. rewrite Hl in Hqu.
  destruct (queueinv_in _ _ _ x Hqu) as (q & Hx & Hq); [left|].
  assert (x ≠ t) as Hne by (intros ->; rewrite Ht in Hx; simplify_eq).
  assert (q = PAsleep) as ->.
  { destruct q; try done. exfalso.
    by apply Hne, (lockinv_unique _ _ _ _ _ _ _ (inv_wc _ Hi) Hx Ht). }
  assert (<[x:=PTaken t]> s.(pcs) !! t = Some VRem) as Ht' by (by rewrite list_lookup_insert_ne).
  split; simpl.
  - eapply lockinv_keep; [|done..]. eapply lockinv_keep; [apply Hi|done..].
  - eapply lockinv_keep; [|done..]. eapply lockinv_keep; [apply Hi|done..].
  - eapply queueinv_keep; [|done..]. by eapply queueinv_remhead.
  - eapply pendinv_take; [apply Hi|done..].
  - eapply (points_insert (λ _, knows s)); [|done..]. by eapply (knows_goto _ _ _ _ Hi).
  - apply Hi.
  - intros E. destruct (inv_over _ Hi E) as (u & Hu). exists u.
    rewrite !list_lookup_insert_ne; congruence.
  - intros _. rewrite (tokens_insert _ _ _ _ _ Ht'), (tokens_insert _ _ _ _ _ Hx). simpl.
    assert (sem_count s ≤ tokens tok (pcs s)); [|lia]. apply (inv_wakeups _ Hi). left. by rewrite Hl.
Qed.

(** [thread_make_runnable] of the thread taken off the channel. *)
Lemma inv_wake s t x :
  inv s → s.(pcs) !! t = Some (VRun (Some x)) → inv (goto t VEnd (goto x (PAcq true) s)).
Proof.
  intros Hi Ht.
  destruct (pendinv_target _ _ _ _ _ x (inv_pend _ Hi) Ht) as (q & Hx & Hq); [left|].
  destruct q; try done. simpl in Hq. simplify_eq.
  assert (x ≠ t) as Hne by (intros ->; simplify_eq).
  assert (<[x:=PAcq true]> s.(pcs) !! t = Some (VRun (Some x))) as Ht'
    by (by rewrite list_lookup_insert_ne).
  split; simpl.
  - eapply lockinv_keep; [|done..]. eapply lockinv_keep; [apply Hi|done..].
  - eapply lockinv_keep; [|done..]. eapply lockinv_keep; [apply Hi|done..].
  - eapply queueinv_keep; [|done..]. eapply queueinv_keep; [apply Hi|done..].
  - eapply pendinv_wake; [apply Hi|done..].
  - eapply (points_insert (λ _, knows s)); [|done..]. by eapply (knows_goto _ _ _ _ Hi).
  - apply Hi.
  - intros E. destruct (inv_over _ Hi E) as (u & Hu). exists u.
    rewrite !list_lookup_insert_ne; congruence.
  - intros Hw. rewrite (tokens_insert _ _ _ _ _ Ht'), (tokens_insert _ _ _ _ _ Hx). simpl.
    assert (sem_count s ≤ tokens tok (pcs s)); [|lia]. apply (inv_wakeups _ Hi).
    destruct Hw as [Hw|Hw]; [by left|right]. eapply bridging_goto in Hw; [|done..].
    eapply bridging_goto in Hw; eauto.
Qed.

Lemma acquire_sem_Some t s s' : acquire_sem t s = Some s' → s.(sem_lock) = None ∧ s' = set_sem_lock (Some t) s.
Proof. unfold acquire_sem. destruct (sem_lock s); naive_solver. Qed.
Lemma acquire_wc_Some t s s' : acquire_wc t s = Some s' → s.(wc_lock) = None ∧ s' = set_wc_lock (Some t) s.
Proof. unfold acquire_wc. destruct (wc_lock s); naive_solver. Qed.

Ltac lock_tac Hi :=
  first [ eapply lockinv_keep; [apply Hi|eassumption|done]
        | eapply lockinv_release; [apply Hi|eassumption|done|done]
        | eapply lockinv_acquire; [|eassumption|done];
          match goal with H : _ = None |- lockinv _ None _ => rewrite <- H end; apply Hi ].

Ltac move_tac Hi :=
  eapply (inv_move _ _ _ _ _ _ Hi);
  [eassumption|done|lock_tac Hi|lock_tac Hi|done|done|done|simpl; auto with lia
  |try match goal with w : bool |- _ => destruct w end; simpl; auto with lia
  |simpl; auto with lia].

Lemma inv_step s s' t : inv s → step t s = Some s' → inv s'.
Proof.
  intros Hi. unfold step. destruct (s.(pcs) !! t) as [p|] eqn:Ht; [|done].
  pose proof (inv_knows _ Hi _ _ Ht) as Hk.
  destruct p as [|w|w| | | | | | |w| | | | | |o|[x|]| | |]; simpl in *; intros Hs; try done;
    try (apply fmap_Some in Hs as (s1 & [Hn ->]%acquire_sem_Some & ->); move_tac Hi);
    try (apply fmap_Some in Hs as (s1 & [Hn ->]%acquire_wc_Some & ->); move_tac Hi);
    injection Hs as <-.
  - destruct (inv_holder_count _ _ _ Hi Ht eq_refl) as [Hc Hr]; [done|].
    destruct (Z.eqb_spec (sem_count s) 0); move_tac Hi.
  - move_tac Hi.
  - by apply inv_addtail.
  - move_tac Hi.
  - destruct (Z.gtb_spec (sem_count s) 0); [by eapply inv_dec|lia].
  - move_tac Hi.
  - by apply inv_inc.
  - destruct (wc_threads s) as [|x l] eqn:Hl; [by apply inv_remhead_nil|by apply inv_remhead_cons].
  - move_tac Hi.
  - by apply inv_wake.
  - move_tac Hi.
  - move_tac Hi.
Qed.

Lemma inv_sem_step s s' : inv s → sem_step s s' → inv s'.
Proof. intros Hi Hs. inversion Hs; subst; [move_tac Hi|move_tac Hi|by eapply inv_step]. Qed.

Lemma inv_init n : 0 ≤ init ≤ INT_MAX → inv (sem_init init n).
Proof.
  intros Hr. assert (∀ t p, replicate n Idle !! t = Some p → p = Idle) as Hidle.
  { intros t p Hp. by apply lookup_replicate in Hp as [-> _]. }
  unfold INT_MAX in *. split; simpl; try (intros t; split; [done|]; intros (p & ->%Hidle & Hp); done).
  - split; [apply NoDup_nil_2|]. intros t. split; [by intros ?%not_elem_of_nil|].
    intros (p & ->%Hidle & Hp). done.
  - split; [|intros t p ->%Hidle; apply NoDup_nil_2].
    intros x t. split; intros (p & ->%Hidle & Hp); [done|]. by apply not_elem_of_nil in Hp.
  - by intros t p ->%Hidle.
  - unfold total, INT_MAX, s32; simpl. lia.
  - unfold total, INT_MAX; simpl. lia.
  - intros [?|(t & p & ->%Hidle & Hp)]; done.
Qed.

Lemma inv_reachable n s : 0 ≤ init ≤ INT_MAX → rtc sem_step (sem_init init n) s → inv s.
Proof.
  intros Hr. generalize (inv_init n Hr). generalize (sem_init init n). intros s0 H0 Hs.
  induction Hs; eauto using inv_sem_step.
Qed.
End invariant.

(** ** What the semaphore promises *)

(** C1. Counting: from a semaphore made with a legal initial count, in every
    state reachable by any interleaving of [P] and [V], the assertion of [P]
    never fails, and unless some [V] has tripped its overflow assertion the
    count is the initial count plus the increments minus the decrements and
    never negative; the overflow assertion trips only when that sum exceeds
    [INT_MAX]. *)
Theorem sem_count_exact (init : Z) (n : nat) (s : sem) :
  0 ≤ init ≤ INT_MAX → rtc sem_step (sem_init init n) s →
  (∀ t, s.(pcs) !! t ≠ Some PPanic) ∧
  ((∀ t, s.(pcs) !! t ≠ Some VPanic) →
     s.(sem_count) = init + s.(done_V) - s.(done_P) ∧ 0 ≤ s.(sem_count) ≤ INT_MAX) ∧
  (∀ t, s.(pcs) !! t = Some VPanic → init + s.(done_V) - s.(done_P) = INT_MAX + 1).
Proof.
  intros Hr Hi%inv_reachable; [|done]. split_and!.
  - intros t Ht. by apply (inv_knows _ _ Hi) in Ht.
  - intros Hn. destruct (inv_count _ _ Hi) as [Hc Ht].
    assert (total init s ≠ INT_MAX + 1) as Hne by (by intros (t & E%Hn)%(inv_over _ _ Hi)).
    unfold total, INT_MAX, s32 in *. lia.
  - intros t Ht. by apply (inv_knows _ _ Hi) in Ht.
Qed.

Lemma sem_count_exact_witness :
  ∃ s, exec [CallP 0; Run 0; Run 0; Run 0; Run 0] (sem_init 3 2) = Some s ∧
       s.(sem_count) = 3 + 0 - 1 ∧ 0 ≤ s.(sem_count) ≤ INT_MAX.
Proof.
  eexists. split; [vm_compute; reflexivity|].
  apply (sem_count_exact 3 2 (mkSem None None [] 2 [Idle; Idle] 1 0)).
  - unfold INT_MAX. lia.
  - apply (exec_rtc [CallP 0; Run 0; Run 0; Run 0; Run 0]). vm_compute. reflexivity.
  - intros [|[|t]]; done.
Defined.

(** C35. No lost wakeup: when every thread is either outside the semaphore or
    asleep on its channel, and somebody is asleep, the count is zero.  Were the
    channel not locked before the semaphore's spinlock is let go, a [V] could
    slip between the test of the count and the sleep and leave a sleeper with a
    positive count. *)
Theorem sem_no_lost_wakeup (init : Z) (n : nat) (s : sem) :
  0 ≤ init ≤ INT_MAX → rtc sem_step (sem_init init n) s →
  (∀ t p, s.(pcs) !! t = Some p → p = Idle ∨ p = PAsleep) →
  (∃ t, s.(pcs) !! t = Some PAsleep) → s.(sem_count) = 0.
Proof.
  intros Hr Hi%inv_reachable Hq [t Ht]; [|done].
  assert (t ∈ s.(wc_threads)) as Hin
    by (apply (inv_queue _ _ Hi); by rewrite (at_pc_eq _ _ _ _ Ht)).
  assert (tokens tok s.(pcs) = 0) as Htok.
  { apply tokens_zero. intros p [u Hu]%list_elem_of_lookup. by destruct (Hq _ _ Hu) as [-> | ->]. }
  assert (s.(sem_count) ≤ 0) as Hle.
  { rewrite <- Htok. apply (inv_wakeups _ _ Hi). left. by intros E; rewrite E in Hin; apply not_elem_of_nil in Hin. }
  destruct (inv_count _ _ Hi) as [Hc Htot].
  assert (total init s ≠ INT_MAX + 1) as Hne.
  { intros (u & Hu)%(inv_over _ _ Hi). by destruct (Hq _ _ Hu). }
  unfold total, INT_MAX, s32 in *. lia.
Qed.

(** Thread 0 goes to sleep; nobody else has called anything. *)
Definition asleep_schedule : list event := [CallP 0; Run 0; Run 0; Run 0; Run 0; Run 0; Run 0].

Lemma sem_no_lost_wakeup_witness :
  ∃ s, exec asleep_schedule (sem_init 0 2) = Some s ∧ s.(pcs) = [PAsleep; Idle] ∧ s.(sem_count) = 0.
Proof.
  eexists. split; [vm_compute; reflexivity|]. split; [reflexivity|].
  apply (sem_no_lost_wakeup 0 2 (mkSem None None [0%nat] 0 [PAsleep; Idle] 0 0)).
  - unfold INT_MAX. lia.
  - apply (exec_rtc asleep_schedule). vm_compute. reflexivity.
  - intros [|[|t]] p; simpl; intros [= <-]; auto.
  - by exists 0%nat.
Defined.

Lemma step_free_wc s t p : s.(pcs) !! t = Some p → holds_wc p = true → ∃ s', step t s = Some s'.
Proof. intros Ht Hp. unfold step. rewrite Ht. destruct p as [|[]|[]| | | | | | |[]| | | | | |[]|[]| | |]; try done; simpl; eauto. Qed.

Lemma step_holder s t p : s.(pcs) !! t = Some p → holds_sem p = true → p ≠ VPanic → p ≠ PPanic →
  s.(wc_lock) = None → ∃ s', step t s = Some s'.
Proof.
  intros Ht Hp Hv Hpp Hw. unfold step. rewrite Ht.
  destruct p as [|[]|[]| | | | | | |[]| | | | | |[]|[]| | |]; try done; simpl; unfold acquire_wc; rewrite ?Hw; simpl; eauto.
Qed.

Lemma step_outside s t p : s.(pcs) !! t = Some p → holds_sem p = false → holds_wc p = false →
  p ≠ Idle → p ≠ PAsleep → taken p = None → s.(sem_lock) = None → ∃ s', step t s = Some s'.
Proof.
  intros Ht Hp Hv H1 H2 H3 Hw. unfold step. rewrite Ht.
  destruct p as [|[]|[]| | | | | | |[]| | | | | |[]|[]| | |]; try done; simpl; unfold acquire_sem; rewrite ?Hw; simpl; eauto.
Qed.

(** No deadlock: as long as some thread is inside [P] or [V] and awake, or
    asleep but already taken off the channel, some thread can take a step
    (unless a [V] has tripped the overflow assertion). *)
Theorem sem_progress (init : Z) (n : nat) (s : sem) (t : nat) (p : pc) :
  0 ≤ init ≤ INT_MAX → rtc sem_step (sem_init init n) s →
  (∀ u, s.(pcs) !! u ≠ Some VPanic) →
  s.(pcs) !! t = Some p → p ≠ Idle → p ≠ PAsleep →
  ∃ u s', step u s = Some s'.
Proof.
  intros Hr Hi%inv_reachable Hv Ht Hne1 Hne2; [|done].
  destruct (wc_lock s) as [u|] eqn:Hw.
  { pose proof (inv_wc _ _ Hi) as Hl. rewrite Hw in Hl.
    destruct (lockinv_owner _ _ _ Hl) as (q & Hu & Hq). exists u. by eapply step_free_wc. }
  destruct (sem_lock s) as [u|] eqn:Hsl.
  { pose proof (inv_sem _ _ Hi) as Hl. rewrite Hsl in Hl.
    destruct (lockinv_owner _ _ _ Hl) as (q & Hu & Hq). exists u.
    eapply step_holder; [done..| | |done]; intros ->; [by eapply Hv|by apply (inv_knows _ _ Hi) in Hu]. }
  assert (∀ u q, pcs s !! u = Some q → holds_sem q = false ∧ holds_wc q = false) as Hfree.
  { intros u q Hu. split; apply not_true_is_false; intros Hq.
    - pose proof (lockinv_holder _ _ _ _ _ (inv_sem _ _ Hi) Hu Hq). congruence.
    - pose proof (lockinv_holder _ _ _ _ _ (inv_wc _ _ Hi) Hu Hq). congruence. }
  destruct (taken p) as [u|] eqn:Hta.
  - assert (at_pc (pcs s) u (λ q, t ∈ pend q)) as (q & Hu & Hin)
      by (apply (inv_pend _ _ Hi); by rewrite (at_pc_eq _ _ _ _ Ht)).
    destruct (Hfree _ _ Hu) as [Hf _]. destruct q; try done; by apply not_elem_of_nil in Hin.
  - exists t. destruct (Hfree _ _ Ht). by eapply step_outside.
Qed.

Lemma sem_progress_witness :
  ∃ s, exec (asleep_schedule ++ [CallV 1; Run 1; Run 1; Run 1; Run 1]) (sem_init 0 2) = Some s ∧
       s.(pcs) = [PTaken 1; VWUnl (Some 0%nat)] ∧ ∃ u s', step u s = Some s'.
Proof.
  eexists. split; [vm_compute; reflexivity|]. split; [reflexivity|].
  apply (sem_progress 0 2 (mkSem (Some 1%nat) (Some 1%nat) [] 1 [PTaken 1; VWUnl (Some 0%nat)] 0 1)
           0 (PTaken 1)); try done.
  - apply (exec_rtc (asleep_schedule ++ [CallV 1; Run 1; Run 1; Run 1; Run 1])). vm_compute. reflexivity.
  - intros [|[|t]]; done.
Defined.

End Sem.
