(* ===== verification/LockCv.v ===== *)
(** Sleeping locks and condition variables: [lock_*] and [cv_*] of
    kern/thread/synch.c, with the wait channels they sleep on.

    The model is a step relation over one lock and one condition variable used
    by any number of threads, at the granularity of the shared accesses: three
    spinlock words (the lock's, its channel's, the condition variable's
    channel), two lists of sleepers and the holder.  [cv_wait] is composed of
    [wchan_lock], [lock_release], [wchan_sleep] and [lock_acquire] as the code
    has it: the points of [lock_release] carry a flag that is true inside
    [cv_wait]. *)

From Stdlib Require Import ZArith Lia.
From stdpp Require Import base numbers list relations sets.
From S2P Require Import Prelude Interleave.

Module LockCv.

(** How a thread came to be in [lock_acquire]: it has not slept, it has been
    woken since it last looked, or it holds the lock already. *)
Inductive mode := Fresh | Woken | Owner.

(** Program points.  [own]: the thread holds the lock; [w]: in [cv_wait]. *)
Inductive pc :=
| Idle | Held
(* lock_acquire *)
| AAcq (m : mode) | ATest (m : mode) | AWLock | ARel | AAdd | AUnl | AAsleep | ATaken (by_ : nat)
| ASet (m : mode) | AEnd
(* lock_release *)
| RCheck (own w : bool) | RAcq (own w : bool) | RAssert (own w : bool) | RClear (w : bool)
| RWLock (w : bool) | RRem (w : bool) | RWUnl (w : bool) (o : option nat)
| RRun (w : bool) (o : option nat) | REnd (w : bool)
(* cv_wait *)
| CWLock (own : bool) | CAdd | CUnl | CAsleep | CTaken (by_ : nat)
(* cv_signal *)
| SWLock (own : bool) | SRem (own : bool) | SWUnl (own : bool) (o : option nat)
| SRun (own : bool) (o : option nat)
(* cv_broadcast *)
| BWLock (own : bool) | BRem (own : bool) (l : list nat) | BWUnl (own : bool) (l : list nat)
| BRun (own : bool) (l : list nat)
(* a KASSERT of lock_acquire, of lock_release has failed; which spinlocks the
   thread still has *)
| APanicked
| Panicked (own lk cv : bool).

Record lk := mkLk {
  lock_holder : option nat;
  lock_lock : option nat;     (* spinlock of struct lock *)
  wc_lock : option nat;       (* spinlock of lk_wchan *)
  wc_threads : list nat;
  cv_lock : option nat;       (* spinlock of cv_wchan *)
  cv_threads : list nat;
  pcs : list pc;
}.

Definition goto (t : nat) (p : pc) (s : lk) : lk :=
  mkLk s.(lock_holder) s.(lock_lock) s.(wc_lock) s.(wc_threads) s.(cv_lock) s.(cv_threads) (<[t:=p]> s.(pcs)).
Definition set_holder (o : option nat) (s : lk) : lk :=
  mkLk o s.(lock_lock) s.(wc_lock) s.(wc_threads) s.(cv_lock) s.(cv_threads) s.(pcs).
Definition set_lock_lock (o : option nat) (s : lk) : lk :=
  mkLk s.(lock_holder) o s.(wc_lock) s.(wc_threads) s.(cv_lock) s.(cv_threads) s.(pcs).
Definition set_wc_lock (o : option nat) (s : lk) : lk :=
  mkLk s.(lock_holder) s.(lock_lock) o s.(wc_threads) s.(cv_lock) s.(cv_threads) s.(pcs).
Definition set_wc_threads (l : list nat) (s : lk) : lk :=
  mkLk s.(lock_holder) s.(lock_lock) s.(wc_lock) l s.(cv_lock) s.(cv_threads) s.(pcs).
Definition set_cv_lock (o : option nat) (s : lk) : lk :=
  mkLk s.(lock_holder) s.(lock_lock) s.(wc_lock) s.(wc_threads) o s.(cv_threads) s.(pcs).
Definition set_cv_threads (l : list nat) (s : lk) : lk :=
  mkLk s.(lock_holder) s.(lock_lock) s.(wc_lock) s.(wc_threads) s.(cv_lock) l s.(pcs).

(** A spinlock that is free is taken; one that is not makes the thread spin. *)
Definition if_free (o : option nat) (s : lk) : option lk :=
  match o with None => Some s | Some _ => None end.

Definition lock_do_i_hold (t : nat) (s : lk) : bool := bool_decide (s.(lock_holder) = Some t).

Definition outside (own : bool) : pc := if own then Held else Idle.

(** ** [lock_acquire], its [wchan_sleep] included *)
Definition lock_acquire_step (t : nat) (p : pc) (s : lk) : option lk :=
  match p with
  | AAcq m => goto t (ATest m) <$> if_free s.(lock_lock) (set_lock_lock (Some t) s)
  | ATest m =>
      Some (goto t (if bool_decide (is_Some s.(lock_holder)) && negb (lock_do_i_hold t s)
                    then AWLock else ASet m) s)
  | AWLock => goto t ARel <$> if_free s.(wc_lock) (set_wc_lock (Some t) s)
  | ARel => Some (goto t AAdd (set_lock_lock None s))
  | AAdd => Some (goto t AUnl (set_wc_threads (s.(wc_threads) ++ [t]) s))
  | AUnl => Some (goto t AAsleep (set_wc_lock None s))
  | ASet m =>
      Some (if lock_do_i_hold t s then goto t AEnd s
            else if bool_decide (s.(lock_holder) = None) then goto t AEnd (set_holder (Some t) s)
            else goto t APanicked s)
  | AEnd => Some (goto t Held (set_lock_lock None s))
  | _ => None
  end.

(** ** [lock_release], its [wchan_wakeone] included *)
Definition lock_release_step (t : nat) (p : pc) (s : lk) : option lk :=
  match p with
  | RCheck own w =>
      Some (goto t (if bool_decide (is_Some s.(lock_holder)) then RAcq own w
                    else Panicked own false w) s)
  | RAcq own w => goto t (RAssert own w) <$> if_free s.(lock_lock) (set_lock_lock (Some t) s)
  | RAssert own w =>
      Some (goto t (if lock_do_i_hold t s then RClear w else Panicked own true w) s)
  | RClear w => Some (goto t (RWLock w) (set_holder None s))
  | RWLock w => goto t (RRem w) <$> if_free s.(wc_lock) (set_wc_lock (Some t) s)
  | RRem w =>
      Some match s.(wc_threads) with
           | [] => goto t (RWUnl w None) s
           | x :: l => goto t (RWUnl w (Some x)) (goto x (ATaken t) (set_wc_threads l s))
           end
  | RWUnl w o => Some (goto t (RRun w o) (set_wc_lock None s))
  | RRun w None => Some (goto t (REnd w) s)
  | RRun w (Some x) => Some (goto t (REnd w) (goto x (AAcq Woken) s))
  | REnd w => Some (goto t (if w then CAdd else Idle) (set_lock_lock None s))
  | _ => None
  end.

(** ** [cv_wait]: the parts that are not [lock_release] or [lock_acquire] *)
Definition cv_wait_step (t : nat) (p : pc) (s : lk) : option lk :=
  match p with
  | CWLock own => goto t (RCheck own true) <$> if_free s.(cv_lock) (set_cv_lock (Some t) s)
  | CAdd => Some (goto t CUnl (set_cv_threads (s.(cv_threads) ++ [t]) s))
  | CUnl => Some (goto t CAsleep (set_cv_lock None s))
  | _ => None
  end.

(** ** [cv_signal] is [wchan_wakeone]; a woken waiter goes on to [lock_acquire] *)
Definition cv_signal_step (t : nat) (p : pc) (s : lk) : option lk :=
  match p with
  | SWLock own => goto t (SRem own) <$> if_free s.(cv_lock) (set_cv_lock (Some t) s)
  | SRem own =>
      Some match s.(cv_threads) with
           | [] => goto t (SWUnl own None) s
           | x :: l => goto t (SWUnl own (Some x)) (goto x (CTaken t) (set_cv_threads l s))
           end
  | SWUnl own o => Some (goto t (SRun own o) (set_cv_lock None s))
  | SRun own None => Some (goto t (outside own) s)
  | SRun own (Some x) => Some (goto t (outside own) (goto x (AAcq Fresh) s))
  | _ => None
  end.

(** ** [cv_broadcast] is [wchan_wakeall]: the sleepers move to a private list,
    and are made runnable after the channel is unlocked *)
Definition cv_broadcast_step (t : nat) (p : pc) (s : lk) : option lk :=
  match p with
  | BWLock own => goto t (BRem own []) <$> if_free s.(cv_lock) (set_cv_lock (Some t) s)
  | BRem own l =>
      Some match s.(cv_threads) with
           | [] => goto t (BWUnl own l) s
           | x :: q => goto t (BRem own (l ++ [x])) (goto x (CTaken t) (set_cv_threads q s))
           end
  | BWUnl own l => Some (goto t (BRun own l) (set_cv_lock None s))
  | BRun own [] => Some (goto t (outside own) s)
  | BRun own (x :: l) => Some (goto t (BRun own l) (goto x (AAcq Fresh) s))
  | _ => None
  end.

Definition step (t : nat) (s : lk) : option lk :=
  match s.(pcs) !! t with
  | None => None
  | Some p =>
      match p with
      | AAcq _ | ATest _ | AWLock | ARel | AAdd | AUnl | ASet _ | AEnd => lock_acquire_step t p s
      | RCheck _ _ | RAcq _ _ | RAssert _ _ | RClear _ | RWLock _ | RRem _ | RWUnl _ _
      | RRun _ _ | REnd _ => lock_release_step t p s
      | CWLock _ | CAdd | CUnl => cv_wait_step t p s
      | SWLock _ | SRem _ | SWUnl _ _ | SRun _ _ => cv_signal_step t p s
      | BWLock _ | BRem _ _ | BWUnl _ _ | BRun _ _ => cv_broadcast_step t p s
      | Idle | Held | AAsleep | ATaken _ | CAsleep | CTaken _ | APanicked | Panicked _ _ _ => None
      end
  end.

(** The calls a thread may make.  Nothing in the code keeps a thread that does
    not hold the lock from calling [lock_release] or the [cv] operations. *)
Inductive call := Acquire | Release | Wait | Signal | Broadcast.

Definition entry (c : call) (own : bool) : pc :=
  match c with
  | Acquire => AAcq (if own then Owner else Fresh)
  | Release => RCheck own false
  | Wait => CWLock own
  | Signal => SWLock own
  | Broadcast => BWLock own
  end.

Inductive event := Call (t : nat) (c : call) | Run (t : nat).

Definition exec_event (e : event) (s : lk) : option lk :=
  match e with
  | Call t c =>
      match s.(pcs) !! t with
      | Some Idle => Some (goto t (entry c false) s)
      | Some Held => Some (goto t (entry c true) s)
      | _ => None
      end
  | Run t => step t s
  end.

Inductive lk_step : lk → lk → Prop :=
| lk_event s s' e : exec_event e s = Some s' → lk_step s s'.

Fixpoint exec (l : list event) (s : lk) : option lk :=
  match l with [] => Some s | e :: l => s' ← exec_event e s; exec l s' end.

(** [lock_create] and [cv_create] leave everything free and empty. *)
Definition lk_init (nthreads : nat) : lk :=
  mkLk None None None [] None [] (replicate nthreads Idle).

Lemma lk_exec_rtc l s s' : exec l s = Some s' → rtc lk_step s s'.
Proof.
  revert s. induction l as [|e l IH]; simpl; intros s; [intros [= ->]; apply rtc_refl|].
  intros (s1 & He & Hl)%bind_Some. eapply rtc_l; [by econstructor|by apply IH].
Qed.

(** ** The invariant *)

Definition owns (p : pc) : bool :=
  match p with
  | Held | AAcq Owner | ATest Owner | ASet Owner | AEnd
  | RCheck true _ | RAcq true _ | RAssert true _ | RClear _ | CWLock true
  | SWLock true | SRem true | SWUnl true _ | SRun true _
  | BWLock true | BRem true _ | BWUnl true _ | BRun true _ | Panicked true _ _ => true
  | _ => false
  end.
Definition holds_lk (p : pc) : bool :=
  match p with
  | ATest _ | AWLock | ARel | ASet _ | AEnd | APanicked
  | RAssert _ _ | RClear _ | RWLock _ | RRem _ | RWUnl _ _ | RRun _ _ | REnd _
  | Panicked _ true _ => true
  | _ => false
  end.
Definition holds_wc (p : pc) : bool :=
  match p with ARel | AAdd | AUnl | RRem _ | RWUnl _ _ => true | _ => false end.
Definition holds_cv (p : pc) : bool :=
  match p with
  | RCheck _ true | RAcq _ true | RAssert _ true | RClear true | RWLock true | RRem true
  | RWUnl true _ | RRun true _ | REnd true | CAdd | CUnl
  | SRem _ | SWUnl _ _ | BRem _ _ | BWUnl _ _ | Panicked _ _ true => true
  | _ => false
  end.
Definition queued_lk (p : pc) : bool := match p with AUnl | AAsleep => true | _ => false end.
Definition queued_cv (p : pc) : bool := match p with CUnl | CAsleep => true | _ => false end.
Definition pend_lk (p : pc) : list nat :=
  match p with RWUnl _ (Some x) | RRun _ (Some x) => [x] | _ => [] end.
Definition pend_cv (p : pc) : list nat :=
  match p with
  | SWUnl _ (Some x) | SRun _ (Some x) => [x]
  | BRem _ l | BWUnl _ l | BRun _ l => l
  | _ => []
  end.
Definition taken_lk (p : pc) : option nat := match p with ATaken t => Some t | _ => None end.
Definition taken_cv (p : pc) : option nat := match p with CTaken t => Some t | _ => None end.
Definition bridging (p : pc) : bool := match p with ARel | AAdd => true | _ => false end.
(** A wakeup of the lock's channel under way. *)
Definition tok (p : pc) : Z :=
  match p with
  | ATaken _ | AAcq Woken | ATest Woken | ASet Woken | RWLock _ | RRem _ => 1
  | _ => 0
  end.

(** What thread [t] at [p] knows of the holder. *)
Definition knows (h : option nat) (t : nat) (p : pc) : Prop :=
  match p with
  | AWLock => h ≠ None
  | ASet _ => h = None ∨ h = Some t
  | APanicked | Panicked true _ _ => False
  | _ => True
  end.

Record linv (s : lk) : Prop := Linv {
  linv_own : lockinv owns s.(lock_holder) s.(pcs);
  linv_lk : lockinv holds_lk s.(lock_lock) s.(pcs);
  linv_wc : lockinv holds_wc s.(wc_lock) s.(pcs);
  linv_cv : lockinv holds_cv s.(cv_lock) s.(pcs);
  linv_wcq : queueinv queued_lk s.(wc_threads) s.(pcs);
  linv_cvq : queueinv queued_cv s.(cv_threads) s.(pcs);
  linv_plk : pendinv pend_lk taken_lk s.(pcs);
  linv_pcv : pendinv pend_cv taken_cv s.(pcs);
  linv_knows : ∀ t p, s.(pcs) !! t = Some p → knows s.(lock_holder) t p;
  linv_wakeups :
    s.(wc_threads) ≠ [] ∨ (∃ t, at_pc s.(pcs) t (λ p, bridging p = true)) →
    s.(lock_holder) ≠ None ∨ 1 ≤ tokens tok s.(pcs);
}.

Lemma lk_tok_nonneg p : 0 ≤ tok p.
Proof.
  destruct p as [| |[]|[]| | | | | |?|[]| |? ?|? ?|? ?|?|?|?|? ?|? ?|?|?| | | |?|?|?|? ?|? ?|?|? ?|? ?|? ?| |? ? ?];
    simpl; lia.
Qed.

Lemma lk_bridging_goto pcs0 t p p' :
  pcs0 !! t = Some p → bridging p' = false →
  (∃ u, at_pc (<[t:=p']> pcs0) u (λ q, bridging q = true)) →
  ∃ u, at_pc pcs0 u (λ q, bridging q = true).
Proof.
  intros Ht Hp' (u & Hu). exists u. rewrite (at_pc_insert_cases _ _ _ _ _ _ Ht) in Hu.
  destruct Hu as [[_ ?]|[_ ?]]; [congruence|done].
Qed.

(** The holder seen by threads that are not at a point of the changing thread. *)
Lemma lk_knows_holder s t p p' h' :
  linv s → s.(pcs) !! t = Some p → holds_lk p = true → knows h' t p' →
  ∀ u q, <[t:=p']> s.(pcs) !! u = Some q → knows h' u q.
Proof.
  intros Hi Ht Hp Hp'. eapply (points_insert (knows s.(lock_holder))); [apply Hi|done|done|].
  intros u q Hne Hu Hk. assert (holds_lk q = false) as Hq.
  { destruct (holds_lk q) eqn:E; [|done].
    by destruct Hne; eapply (lockinv_unique _ _ _ _ _ _ _ (linv_lk _ Hi) Hu Ht). }
  by destruct q.
Qed.

(** A step of one thread that leaves the lists and the holder alone. *)
Lemma linv_move s t p p' ll wl cl :
  linv s → s.(pcs) !! t = Some p →
  lockinv holds_lk ll (<[t:=p']> s.(pcs)) → lockinv holds_wc wl (<[t:=p']> s.(pcs)) →
  lockinv holds_cv cl (<[t:=p']> s.(pcs)) →
  owns p' = owns p → queued_lk p' = queued_lk p → queued_cv p' = queued_cv p →
  pend_lk p' = pend_lk p → taken_lk p' = taken_lk p →
  pend_cv p' = pend_cv p → taken_cv p' = taken_cv p →
  knows s.(lock_holder) t p' →
  (tok p ≤ tok p' ∨ s.(lock_holder) ≠ None) →
  (bridging p' = true → bridging p = true ∨ s.(lock_holder) ≠ None) →
  linv (mkLk s.(lock_holder) ll wl s.(wc_threads) cl s.(cv_threads) (<[t:=p']> s.(pcs))).
Proof.
  intros Hi Ht Hll Hwl Hcl Ho Hq1 Hq2 Hp1 Ht1 Hp2 Ht2 Hk Htok Hbr. split; simpl; try done.
  - eapply lockinv_keep; [apply Hi|done..].
  - eapply queueinv_keep; [apply Hi|done..].
  - eapply queueinv_keep; [apply Hi|done..].
  - eapply pendinv_keep; [apply Hi|done..].
  - eapply pendinv_keep; [apply Hi|done..].
  - eapply (points_insert (knows s.(lock_holder))); [apply Hi|done..].
  - rewrite (tokens_insert _ _ _ _ _ Ht). intros Hw. pose proof (linv_wakeups _ Hi) as Hold.
    destruct Htok as [Htok|?]; [|by left].
    destruct Hw as [Hw|[u Hu]]; [destruct (Hold (or_introl Hw)); [by left|right; lia]|].
    rewrite (at_pc_insert_cases _ _ _ _ _ _ Ht) in Hu. destruct Hu as [[-> Hp']|[_ Hu]].
    + destruct (Hbr Hp') as [Hp|?]; [|by left].
      destruct Hold as [?|?]; [|by left|right; lia]. right. exists t. by rewrite (at_pc_eq _ _ _ _ Ht).
    + destruct Hold as [?|?]; [|by left|right; lia]. right. eauto.
Qed.

(** The new holder. *)
Lemma linv_take_lock s t m :
  linv s → s.(pcs) !! t = Some (ASet m) → s.(lock_holder) = None →
  linv (goto t AEnd (set_holder (Some t) s)).
Proof.
  intros Hi Ht Hh. assert (m ≠ Owner) as Hm.
  { intros ->. by rewrite (lockinv_holder _ _ _ _ _ (linv_own _ Hi) Ht eq_refl) in Hh. }
  split; simpl.
  - eapply lockinv_acquire; [|done..]. rewrite <- Hh. apply Hi.
  - eapply lockinv_keep; [apply Hi|done..].
  - eapply lockinv_keep; [apply Hi|done..].
  - eapply lockinv_keep; [apply Hi|done..].
  - eapply queueinv_keep; [apply Hi|done..].
  - eapply queueinv_keep; [apply Hi|done..].
  - eapply pendinv_keep; [apply Hi|done..].
  - eapply pendinv_keep; [apply Hi|done..].
  - by eapply (lk_knows_holder _ _ _ _ _ Hi Ht).
  - intros _. by left.
Qed.

(** [lock->lock_holder = NULL] of [lock_release]. *)
Lemma linv_clear_lock s t w :
  linv s → s.(pcs) !! t = Some (RClear w) → linv (goto t (RWLock w) (set_holder None s)).
Proof.
  intros Hi Ht. split; simpl.
  - eapply lockinv_release; [apply Hi|done..].
  - eapply lockinv_keep; [apply Hi|done..].
  - eapply lockinv_keep; [apply Hi|done..].
  - eapply lockinv_keep; [apply Hi|done|by destruct w].
  - eapply queueinv_keep; [apply Hi|done..].
  - eapply queueinv_keep; [apply Hi|done..].
  - eapply pendinv_keep; [apply Hi|done..].
  - eapply pendinv_keep; [apply Hi|done..].
  - by eapply (lk_knows_holder _ _ _ _ _ Hi Ht).
  - intros _. right. rewrite (tokens_insert _ _ _ _ _ Ht).
    pose proof (tokens_nonneg _ (pcs s) lk_tok_nonneg). simpl. lia.
Qed.

(** [threadlist_addtail] onto the lock's channel and onto the condition
    variable's. *)
Lemma linv_wc_addtail s t :
  linv s → s.(pcs) !! t = Some AAdd → linv (goto t AUnl (set_wc_threads (s.(wc_threads) ++ [t]) s)).
Proof.
  intros Hi Ht. split; simpl; try (eapply lockinv_keep; [apply Hi|done..]);
    try (eapply pendinv_keep; [apply Hi|done..]).
  - eapply queueinv_addtail; [apply Hi|done..].
  - eapply queueinv_keep; [apply Hi|done..].
  - eapply (points_insert (knows s.(lock_holder))); [apply Hi|done..].
  - intros _. rewrite (tokens_insert _ _ _ _ _ Ht). simpl.
    destruct (linv_wakeups _ Hi) as [?|?]; [|by left|right; lia].
    right. exists t. by rewrite (at_pc_eq _ _ _ _ Ht).
Qed.

Lemma linv_cv_addtail s t :
  linv s → s.(pcs) !! t = Some CAdd → linv (goto t CUnl (set_cv_threads (s.(cv_threads) ++ [t]) s)).
Proof.
  intros Hi Ht. split; simpl; try (eapply lockinv_keep; [apply Hi|done..]);
    try (eapply pendinv_keep; [apply Hi|done..]).
  - eapply queueinv_keep; [apply Hi|done..].
  - eapply queueinv_addtail; [apply Hi|done..].
  - eapply (points_insert (knows s.(lock_holder))); [apply Hi|done..].
  - intros Hw. rewrite (tokens_insert _ _ _ _ _ Ht). simpl.
    destruct (linv_wakeups _ Hi) as [?|?]; [|by left|right; lia].
    destruct Hw as [Hw|Hw]; [by left|right]. eapply lk_bridging_goto in Hw; eauto.
Qed.

(** [threadlist_remhead] of the lock's channel. *)
Lemma linv_wc_remhead_nil s t w :
  linv s → s.(pcs) !! t = Some (RRem w) → s.(wc_threads) = [] → linv (goto t (RWUnl w None) s).
Proof.
  intros Hi Ht Hnil. split; simpl; try (eapply lockinv_keep; [apply Hi|done|by destruct w]);
    try (eapply pendinv_keep; [apply Hi|done..]); try (eapply queueinv_keep; [apply Hi|done..]).
  - eapply (points_insert (knows s.(lock_holder))); [apply Hi|done..].
  - intros [Hw|Hw]; [done|]. eapply lk_bridging_goto in Hw as (u & q & Hu & Hq); [|done..].
    assert (u = t) as ->; [|rewrite Ht in Hu; by simplify_eq].
    eapply (lockinv_unique _ _ _ _ _ _ _ (linv_wc _ Hi) Hu Ht); [|done]. by destruct q.
Qed.

Lemma linv_wc_remhead_cons s t w x l :
  linv s → s.(pcs) !! t = Some (RRem w) → s.(wc_threads) = x :: l →
  linv (goto t (RWUnl w (Some x)) (goto x (ATaken t) (set_wc_threads l s))).
Proof.
  intros Hi Ht Hl. pose proof (linv_wcq _ Hi) as Hqu. rewrite Hl in Hqu.
  destruct (queueinv_in _ _ _ x Hqu) as (q & Hx & Hq); [left|].
  assert (x ≠ t) as Hne by (intros ->; rewrite Ht in Hx; simplify_eq).
  assert (q = AAsleep) as ->.
  { destruct q; try done. exfalso.
    by apply Hne, (lockinv_unique _ _ _ _ _ _ _ (linv_wc _ Hi) Hx Ht). }
  assert (<[x:=ATaken t]> s.(pcs) !! t = Some (RRem w)) as Ht' by (by rewrite list_lookup_insert_ne).
  split; simpl;
    try (eapply lockinv_keep; [|done|by destruct w]; eapply lockinv_keep; [apply Hi|done..]).
  - eapply queueinv_keep; [|done..]. by eapply queueinv_remhead.
  - eapply queueinv_keep; [|done..]. eapply queueinv_keep; [apply Hi|done..].
  - eapply pendinv_take; [apply Hi|done..].
  - eapply pendinv_keep; [|done..]. eapply pendinv_keep; [apply Hi|done..].
  - eapply (points_insert (knows s.(lock_holder))); [|done..].
    eapply (points_insert (knows s.(lock_holder))); [apply Hi|done..].
  - intros _. rewrite (tokens_insert _ _ _ _ _ Ht'), (tokens_insert _ _ _ _ _ Hx). simpl.
    destruct (linv_wakeups _ Hi) as [?|?]; [|by left|right; lia]. left. by rewrite Hl.
Qed.

Lemma linv_wc_wake s t w x :
  linv s → s.(pcs) !! t = Some (RRun w (Some x)) → linv (goto t (REnd w) (goto x (AAcq Woken) s)).
Proof.
  intros Hi Ht.
  destruct (pendinv_target _ _ _ _ _ x (linv_plk _ Hi) Ht) as (q & Hx & Hq); [left|].
  destruct q; try done. simpl in Hq. simplify_eq.
  assert (x ≠ t) as Hne by (intros ->; simplify_eq).
  assert (<[x:=AAcq Woken]> s.(pcs) !! t = Some (RRun w (Some x))) as Ht'
    by (by rewrite list_lookup_insert_ne).
  split; simpl;
    try (eapply lockinv_keep; [|done|by destruct w]; eapply lockinv_keep; [apply Hi|done..]);
    try (eapply queueinv_keep; [|done..]; eapply queueinv_keep; [apply Hi|done..]).
  - eapply pendinv_wake; [apply Hi|done..].
  - eapply pendinv_keep; [|done..]. eapply pendinv_keep; [apply Hi|done..].
  - eapply (points_insert (knows s.(lock_holder))); [|done..].
    eapply (points_insert (knows s.(lock_holder))); [apply Hi|done..].
  - intros Hw. rewrite (tokens_insert _ _ _ _ _ Ht'), (tokens_insert _ _ _ _ _ Hx). simpl.
    destruct (linv_wakeups _ Hi) as [?|?]; [|by left|right; lia].
    destruct Hw as [Hw|Hw]; [by left|right]. eapply lk_bridging_goto in Hw; [|done..].
    eapply lk_bridging_goto in Hw; eauto.
Qed.

(** [threadlist_remhead] of the condition variable's channel, by a signaller or
    a broadcaster moving from [p] to [p']. *)
Lemma linv_cv_remhead s t p p' x l :
  linv s → s.(pcs) !! t = Some p → s.(cv_threads) = x :: l →
  holds_cv p = true → holds_cv p' = true → queued_cv p = false → queued_cv p' = false →
  pend_cv p' = pend_cv p ++ [x] → taken_cv p = None → taken_cv p' = None →
  owns p' = owns p → holds_lk p' = holds_lk p → holds_wc p' = holds_wc p →
  queued_lk p' = queued_lk p → pend_lk p' = pend_lk p → taken_lk p' = taken_lk p →
  tok p' = tok p → bridging p' = false → (∀ h, knows h t p') →
  linv (goto t p' (goto x (CTaken t) (set_cv_threads l s))).
Proof.
  intros Hi Ht Hl H1 H2 H3 H4 H5 H6 H7 H8 H9 H10 H11 H12 H13 H14 H15 H16.
  pose proof (linv_cvq _ Hi) as Hqu. rewrite Hl in Hqu.
  destruct (queueinv_in _ _ _ x Hqu) as (q & Hx & Hq); [left|].
  assert (x ≠ t) as Hne by (intros ->; congruence).
  assert (q = CAsleep) as ->.
  { destruct q; try done. exfalso.
    by apply Hne, (lockinv_unique _ _ _ _ _ _ _ (linv_cv _ Hi) Hx Ht). }
  assert (<[x:=CTaken t]> s.(pcs) !! t = Some p) as Ht' by (by rewrite list_lookup_insert_ne).
  split; simpl;
    try (eapply lockinv_keep; [|done|congruence]; eapply lockinv_keep; [apply Hi|done..]).
  - eapply queueinv_keep; [|done..]. eapply queueinv_keep; [apply Hi|done..].
  - eapply queueinv_keep; [|done|congruence]. by eapply queueinv_remhead.
  - eapply pendinv_keep; [|done..]. eapply pendinv_keep; [apply Hi|done..].
  - eapply pendinv_take; [apply Hi|done..].
  - eapply (points_insert (knows s.(lock_holder))); [|done..].
    eapply (points_insert (knows s.(lock_holder))); [apply Hi|done..].
  - intros Hw. rewrite (tokens_insert _ _ _ _ _ Ht'), (tokens_insert _ _ _ _ _ Hx). simpl.
    destruct (linv_wakeups _ Hi) as [?|?]; [|by left|right; lia].
    destruct Hw as [Hw|Hw]; [by left|right]. eapply lk_bridging_goto in Hw; [|done..].
    eapply lk_bridging_goto in Hw; eauto.
Qed.

(** [thread_make_runnable] of a waiter: it goes on to [lock_acquire]. *)
Lemma linv_cv_wake s t p p' x :
  linv s → s.(pcs) !! t = Some p → pend_cv p = x :: pend_cv p' →
  taken_cv p = None → taken_cv p' = None → holds_cv p' = holds_cv p → queued_cv p' = queued_cv p →
  owns p' = owns p → holds_lk p' = holds_lk p → holds_wc p' = holds_wc p →
  queued_lk p' = queued_lk p → pend_lk p' = pend_lk p → taken_lk p' = taken_lk p →
  tok p' = tok p → bridging p' = false → (∀ h, knows h t p') →
  linv (goto t p' (goto x (AAcq Fresh) s)).
Proof.
  intros Hi Ht H1 H2 H3 H4 H5 H6 H7 H8 H9 H10 H11 H12 H13 H14.
  destruct (pendinv_target _ _ _ _ _ x (linv_pcv _ Hi) Ht) as (q & Hx & Hq); [rewrite H1; left|].
  destruct q; try done. simpl in Hq. simplify_eq.
  assert (x ≠ t) as Hne by (intros ->; rewrite Ht in Hx; by simplify_eq).
  assert (<[x:=AAcq Fresh]> s.(pcs) !! t = Some p) as Ht' by (by rewrite list_lookup_insert_ne).
  split; simpl;
    try (eapply lockinv_keep; [|done|congruence]; eapply lockinv_keep; [apply Hi|done..]);
    try (eapply queueinv_keep; [|done..]; eapply queueinv_keep; [apply Hi|done..]).
  - eapply pendinv_keep; [|done..]. eapply pendinv_keep; [apply Hi|done..].
  - eapply pendinv_wake; [apply Hi|done..].
  - eapply (points_insert (knows s.(lock_holder))); [|done..].
    eapply (points_insert (knows s.(lock_holder))); [apply Hi|done..].
  - intros Hw. rewrite (tokens_insert _ _ _ _ _ Ht'), (tokens_insert _ _ _ _ _ Hx). simpl.
    destruct (linv_wakeups _ Hi) as [?|?]; [|by left|right; lia].
    destruct Hw as [Hw|Hw]; [by left|right]. eapply lk_bridging_goto in Hw; [|done..].
    eapply lk_bridging_goto in Hw; eauto.
Qed.

Lemma if_free_Some o s s' : if_free o s = Some s' → o = None ∧ s' = s.
Proof. destruct o; naive_solver. Qed.

Ltac flags := repeat match goal with b : bool |- _ => destruct b | m : mode |- _ => destruct m end; done.

Ltac lk_lock_tac Hi :=
  first [ eapply lockinv_keep; [apply Hi|eassumption|flags]
        | eapply lockinv_release; [apply Hi|eassumption|flags|flags]
        | eapply lockinv_acquire; [|eassumption|flags];
          match goal with H : _ = None |- lockinv _ None _ => rewrite <- H end; apply Hi ].

Ltac lk_move Hi :=
  eapply (linv_move _ _ _ _ _ _ _ Hi);
  [eassumption|lk_lock_tac Hi|lk_lock_tac Hi|lk_lock_tac Hi|flags..
  |simpl; auto|try (left; flags); auto|simpl; auto].

Lemma linv_step s s' t : linv s → step t s = Some s' → linv s'.
Proof.
  intros Hi. unfold step. destruct (s.(pcs) !! t) as [p|] eqn:Ht; [|done].
  pose proof (linv_knows _ Hi _ _ Ht) as Hk. pose proof (lockinv_holder _ _ _ _ _ (linv_own _ Hi) Ht) as Ho.
  destruct p as [| |m|m| | | | | |?|m| |own w|own w|own w|w|w|w|w o|w [x|]|w|own| | | |?|own|own|own o|own [x|]|own|own l|own l|own [|x l]| |? ? ?];
    simpl in *; intros Hs; try done;
    try (apply fmap_Some in Hs as (s1 & [Hn ->]%if_free_Some & ->); lk_move Hi; done);
    injection Hs as <-; try (lk_move Hi; done).
  - (* the loop test *)
    unfold lock_do_i_hold. destruct (lock_holder s) as [u|] eqn:Eh;
      [rewrite (bool_decide_true (is_Some _)) by done|].
    + case_bool_decide as H2; simpl; [lk_move Hi; right; congruence|].
      destruct m; [lk_move Hi; by rewrite Eh|lk_move Hi; try right; by rewrite Eh|by rewrite Ho in H2].
    + lk_move Hi; left; congruence.
  - by apply linv_wc_addtail.
  - unfold lock_do_i_hold. case_bool_decide as H1; [|case_bool_decide as H2].
    + apply (linv_own _ Hi) in H1. rewrite (at_pc_eq _ _ _ _ Ht) in H1. destruct m; [done..|lk_move Hi].
    + by eapply linv_take_lock.
    + by destruct Hk.
  - case_bool_decide as H1; [lk_move Hi|]. destruct own; [|lk_move Hi]. destruct H1; by rewrite Ho.
  - unfold lock_do_i_hold. case_bool_decide as H1; [|destruct own; [by rewrite Ho in H1|lk_move Hi]].
    apply (linv_own _ Hi) in H1. rewrite (at_pc_eq _ _ _ _ Ht) in H1. destruct own; [lk_move Hi|done].
  - by apply linv_clear_lock.
  - destruct (wc_threads s) as [|x l] eqn:Hl; [by apply linv_wc_remhead_nil|by apply linv_wc_remhead_cons].
  - by apply linv_wc_wake.
  - destruct w; lk_move Hi.
  - by apply linv_cv_addtail.
  - destruct (cv_threads s) as [|x l] eqn:Hl; [lk_move Hi|].
    eapply (linv_cv_remhead _ _ _ _ _ _ Hi Ht Hl); flags.
  - eapply (linv_cv_wake _ _ _ _ _ Hi Ht); flags.
  - destruct own; lk_move Hi.
  - destruct (cv_threads s) as [|x q] eqn:Hl; [lk_move Hi|].
    eapply (linv_cv_remhead _ _ _ _ _ _ Hi Ht Hl); flags.
  - destruct own; lk_move Hi.
  - eapply (linv_cv_wake _ _ _ _ _ Hi Ht); flags.
Qed.

Lemma linv_lk_step s s' : linv s → lk_step s s' → linv s'.
Proof.
  intros Hi Hs. inversion Hs as [s0 s1 [t c|t] He]; subst; simpl in He; [|by eapply linv_step].
  destruct (pcs s !! t) as [[]|] eqn:Ht; simplify_eq; destruct c; simpl; lk_move Hi.
Qed.

Lemma linv_init n : linv (lk_init n).
Proof.
  assert (∀ t p, replicate n Idle !! t = Some p → p = Idle) as Hidle.
  { intros t p Hp. by apply lookup_replicate in Hp as [-> _]. }
  split; simpl; try (intros t; split; [done|]; intros (p & ->%Hidle & Hp); done);
    try (split; [apply NoDup_nil_2|]; intros t; split; [by intros ?%not_elem_of_nil|];
         intros (p & ->%Hidle & Hp); done);
    try (split; [|intros t p ->%Hidle; apply NoDup_nil_2];
         intros x t; split; intros (p & ->%Hidle & Hp); [done|]; by apply not_elem_of_nil in Hp).
  - by intros t p ->%Hidle.
  - intros [?|(t & p & ->%Hidle & Hp)]; done.
Qed.

Lemma linv_reachable n s : rtc lk_step (lk_init n) s → linv s.
Proof.
  generalize (linv_init n). generalize (lk_init n). intros s0 H0 Hs.
  induction Hs; eauto using linv_lk_step.
Qed.

(** ** What the lock and the condition variable promise *)

(** C2. Lock safety under every interleaving: at most one thread holds the
    lock and [lock_holder] names it, so [lock_do_i_hold] answers truly; none of
    the assertions of [lock_acquire] fails, nor any of [lock_release] when the
    caller holds the lock, while a caller that does not hold it always fails
    one. *)
Theorem lock_mutual_exclusion (n : nat) (s : lk) :
  rtc lk_step (lk_init n) s →
  (∀ t u, s.(pcs) !! t = Some Held → s.(pcs) !! u = Some Held → t = u) ∧
  (∀ t p, s.(pcs) !! t = Some p → lock_do_i_hold t s = owns p) ∧
  (∀ t, s.(pcs) !! t ≠ Some APanicked) ∧
  (∀ t l c, s.(pcs) !! t ≠ Some (Panicked true l c)) ∧
  (∀ t w, s.(pcs) !! t = Some (RAssert false w) → step t s = Some (goto t (Panicked false true w) s)).
Proof.
  intros Hi%linv_reachable.
  assert (∀ t p, s.(pcs) !! t = Some p → lock_do_i_hold t s = owns p) as Hown.
  { intros t p Ht. unfold lock_do_i_hold. apply eq_true_iff_eq. rewrite bool_decide_eq_true.
    etransitivity; [apply (linv_own _ Hi)|]. by rewrite (at_pc_eq _ _ _ _ Ht). }
  split_and!.
  - intros t u Ht Hu. by eapply (lockinv_unique _ _ _ _ _ _ _ (linv_own _ Hi) Ht Hu).
  - exact Hown.
  - intros t Ht. by apply (linv_knows _ Hi) in Ht.
  - intros t l c Ht. by apply (linv_knows _ Hi) in Ht.
  - intros t w Ht. unfold step. rewrite Ht. simpl. by rewrite (Hown _ _ Ht).
Qed.

(** Thread 0 takes the lock, and then waits on the condition variable. *)
Definition takes_lock (t : nat) : list event := Call t Acquire :: replicate 4 (Run t).
Definition waiter_asleep : list event := takes_lock 0 ++ Call 0 Wait :: replicate 12 (Run 0).

Lemma lock_mutual_exclusion_witness :
  let s := mkLk (Some 0%nat) None None [] None [] [Held; AAcq Fresh] in
  lock_do_i_hold 0 s = true ∧ lock_do_i_hold 1 s = false.
Proof.
  assert (rtc lk_step (lk_init 2) (mkLk (Some 0%nat) None None [] None [] [Held; AAcq Fresh])) as Hr.
  { apply (lk_exec_rtc (takes_lock 0 ++ [Call 1 Acquire])). vm_compute. reflexivity. }
  destruct (lock_mutual_exclusion 2 _ Hr) as (_ & H & _).
  split; [exact (H 0%nat _ eq_refl)|exact (H 1%nat _ eq_refl)].
Defined.

(** No lost wakeup on a lock: when nobody is inside an operation awake and
    nobody holds the lock, nobody is asleep waiting for it. *)
Theorem lock_no_lost_wakeup (n : nat) (s : lk) :
  rtc lk_step (lk_init n) s →
  (∀ t p, s.(pcs) !! t = Some p → p = Idle ∨ p = AAsleep ∨ p = CAsleep) →
  s.(wc_threads) = [] ∧ ∀ t, s.(pcs) !! t ≠ Some AAsleep.
Proof.
  intros Hi%linv_reachable Hq.
  assert (s.(wc_threads) = []) as Hnil.
  { destruct (wc_threads s) eqn:E; [done|]. exfalso.
    destruct (linv_wakeups _ Hi) as [Hh|Htok]; [by left; rewrite E| |].
    - destruct (lock_holder s) as [u|] eqn:Eh; [|done].
      apply (linv_own _ Hi) in Eh as (p & Hu & Hp). by destruct (Hq _ _ Hu) as [-> |[-> | ->]].
    - rewrite tokens_zero in Htok; [lia|]. intros p [u Hu]%list_elem_of_lookup.
      by destruct (Hq _ _ Hu) as [-> |[-> | ->]]. }
  split; [done|]. intros t Ht.
  assert (t ∈ s.(wc_threads)) as Hin by (apply (linv_wcq _ Hi); by rewrite (at_pc_eq _ _ _ _ Ht)).
  rewrite Hnil in Hin. by apply not_elem_of_nil in Hin.
Qed.

Lemma lock_no_lost_wakeup_witness :
  let s := mkLk None None None [] None [0%nat] [CAsleep; Idle] in
  s.(wc_threads) = [] ∧ ∀ t, s.(pcs) !! t ≠ Some AAsleep.
Proof.
  apply (lock_no_lost_wakeup 2 (mkLk None None None [] None [0%nat] [CAsleep; Idle])).
  - apply (lk_exec_rtc waiter_asleep). vm_compute. reflexivity.
  - intros [|[|u]] q; simpl; intros [= <-]; auto.
Defined.

(** Inside [cv_wait], the lock released, not signalled yet. *)
Definition waiting (p : pc) : bool :=
  match p with
  | RWLock true | RRem true | RWUnl true _ | RRun true _ | REnd true
  | CAdd | CUnl | CAsleep => true
  | _ => false
  end.

Lemma waiting_queued s t p u q :
  linv s → s.(pcs) !! t = Some p → holds_cv p = true → waiting p = false →
  s.(pcs) !! u = Some q → waiting q = true → u ∈ s.(cv_threads).
Proof.
  intros Hi Ht Hp Hw Hu Hq. apply (linv_cvq _ Hi). rewrite (at_pc_eq _ _ _ _ Hu).
  destruct (queued_cv q) eqn:E; [done|]. assert (u = t) as ->; [|congruence].
  eapply (lockinv_unique _ _ _ _ _ _ _ (linv_cv _ Hi) Hu Ht); [|done].
  by destruct q as [| |[]|[]| | | | | |?|[]| |? []|? []|? []|[]|[]|[]|[] ?|[] ?|[]|?| | | |?|?|?|? ?|? ?|?|? ?|? ?|? ?| |? ? ?].
Qed.

(** No lost signal: a [cv_signal] that looks at the channel while some
    thread has given the lock up inside [cv_wait] and has not been signalled
    wakes a waiter, the one that has been on the channel longest. *)
Theorem cv_signal_wakes (n : nat) (s : lk) (t u : nat) (own : bool) (q : pc) :
  rtc lk_step (lk_init n) s →
  s.(pcs) !! t = Some (SRem own) → s.(pcs) !! u = Some q → waiting q = true →
  ∃ x l s1, s.(cv_threads) = x :: l ∧ step t s = Some s1 ∧
    s1.(cv_threads) = l ∧ s1.(pcs) !! x = Some (CTaken t) ∧ s1.(pcs) !! t = Some (SWUnl own (Some x)).
Proof.
  intros Hi%linv_reachable Ht Hu Hq.
  pose proof (waiting_queued _ _ _ _ _ Hi Ht eq_refl eq_refl Hu Hq) as Hin.
  destruct (cv_threads s) as [|x l] eqn:Hl; [by apply not_elem_of_nil in Hin|].
  pose proof (linv_cvq _ Hi) as Hqu. rewrite Hl in Hqu.
  destruct (queueinv_in _ _ _ x Hqu) as (r & Hx & Hr); [left|].
  assert (t ≠ x) as Hne by (intros ->; rewrite Ht in Hx; by simplify_eq).
  exists x, l. unfold step. rewrite Ht. simpl. rewrite Hl. eexists. split; [done|]. split; [done|].
  simpl. split; [done|]. split.
  - rewrite list_lookup_insert_ne by done. apply list_lookup_insert_eq. by eapply lookup_lt_Some.
  - apply list_lookup_insert_eq. rewrite length_insert. by eapply lookup_lt_Some.
Qed.

Lemma cv_signal_wakes_witness :
  ∃ s1, step 1 (mkLk None None None [] (Some 1%nat) [0%nat] [CAsleep; SRem false]) = Some s1 ∧
        s1.(pcs) !! 0%nat = Some (CTaken 1).
Proof.
  assert (rtc lk_step (lk_init 2)
    (mkLk None None None [] (Some 1%nat) [0%nat] [CAsleep; SRem false])) as Hr.
  { apply (lk_exec_rtc (waiter_asleep ++ [Call 1 Signal; Run 1])). vm_compute. reflexivity. }
  destruct (cv_signal_wakes 2 _ 1 0 false CAsleep Hr eq_refl eq_refl eq_refl)
    as (x & l & s1 & Hq & Hs & _ & Hx & _).
  exists s1. split; [exact Hs|]. injection Hq as <- <-. exact Hx.
Defined.

Lemma exec_run t l s : exec (Run t :: l) s = step t s ≫= exec l.
Proof. done. Qed.

(** A broadcast reaches everyone: from the point where [cv_broadcast] has
    the channel locked, running it alone to the end of its loop empties the
    channel, and every thread that had given the lock up inside [cv_wait] by
    then is in the list it makes runnable. *)
Theorem cv_broadcast_wakes_all (n : nat) (s : lk) (t : nat) (own : bool) :
  rtc lk_step (lk_init n) s → s.(pcs) !! t = Some (BRem own []) →
  ∃ s1, exec (replicate (S (length s.(cv_threads))) (Run t)) s = Some s1 ∧
    s1.(cv_threads) = [] ∧ s1.(pcs) !! t = Some (BWUnl own s.(cv_threads)) ∧
    ∀ u q, s.(pcs) !! u = Some q → waiting q = true →
      u ∈ s.(cv_threads) ∧ s1.(pcs) !! u = Some (CTaken t).
Proof.
  intros Hi%linv_reachable Ht0.
  assert (∀ l acc s0, linv s0 → s0.(cv_threads) = l → s0.(pcs) !! t = Some (BRem own acc) →
    ∃ s1, exec (replicate (S (length l)) (Run t)) s0 = Some s1 ∧ linv s1 ∧
      s1.(cv_threads) = [] ∧ s1.(pcs) !! t = Some (BWUnl own (acc ++ l))) as Hloop.
  { induction l as [|x l IH]; intros acc s0 Hi0 Hl Ht.
    - eexists. simpl. unfold step. rewrite Ht. simpl. rewrite Hl. split; [done|]. simpl.
      split_and!; [eapply (linv_step s0 _ t); [done|]; unfold step; rewrite Ht; simpl; by rewrite Hl|done|].
      rewrite app_nil_r. apply list_lookup_insert_eq. by eapply lookup_lt_Some.
    - assert (step t s0 = Some (goto t (BRem own (acc ++ [x])) (goto x (CTaken t) (set_cv_threads l s0)))) as Hs
        by (unfold step; rewrite Ht; simpl; by rewrite Hl).
      destruct (IH (acc ++ [x]) _ (linv_step _ _ _ Hi0 Hs)) as (s1 & He & Hi1 & Hq & Hp); [done| |].
      { simpl. apply list_lookup_insert_eq. rewrite length_insert. by eapply lookup_lt_Some. }
      exists s1. rewrite <- app_assoc in Hp. split_and!; [|done..].
      by rewrite replicate_S, exec_run, Hs. }
  destruct (Hloop s.(cv_threads) [] s Hi eq_refl Ht0) as (s1 & He & Hi1 & Hnil & Ht1).
  exists s1. split_and!; [done..|]. intros u q Hu Hq.
  pose proof (waiting_queued _ _ _ _ _ Hi Ht0 eq_refl eq_refl Hu Hq) as Hin. split; [done|].
  destruct (pendinv_target _ _ _ _ _ u (linv_pcv _ Hi1) Ht1 Hin) as (r & Hr & Hk).
  destruct r; try done. simpl in Hk. by simplify_eq.
Qed.

Lemma cv_broadcast_wakes_all_witness :
  rtc lk_step (lk_init 2) (mkLk None None None [] (Some 1%nat) [0%nat] [CAsleep; BRem false []]) ∧
  ∃ s1, s1.(cv_threads) = [] ∧ s1.(pcs) !! 1%nat = Some (BWUnl false [0%nat]) ∧
        s1.(pcs) !! 0%nat = Some (CTaken 1).
Proof.
  assert (rtc lk_step (lk_init 2)
    (mkLk None None None [] (Some 1%nat) [0%nat] [CAsleep; BRem false []])) as Hr.
  { apply (lk_exec_rtc (waiter_asleep ++ [Call 1 Broadcast; Run 1])). vm_compute. reflexivity. }
  split; [exact Hr|].
  destruct (cv_broadcast_wakes_all 2 _ 1 false Hr eq_refl) as (s1 & _ & H1 & H2 & H3).
  exists s1. split; [exact H1|]. split; [exact H2|]. exact (proj2 (H3 0%nat CAsleep eq_refl eq_refl)).
Defined.

Ltac by_points p :=
  destruct p as [| |[]|[]| | | | | |?|[]| |[] []|[] []|[] []|[]|[]|[]|[] ?|[] []|[]|?| | | |?|?|?|? ?|? []|?|? ?|? ?|? []| |? [] []].

Lemma lk_step_wc_holder s t p : s.(pcs) !! t = Some p → holds_wc p = true → ∃ s', step t s = Some s'.
Proof. intros Ht Hp. unfold step. rewrite Ht. by_points p; try done; simpl; eauto. Qed.

Definition panicked (p : pc) : bool :=
  match p with APanicked | Panicked _ _ _ => true | _ => false end.

Lemma lk_step_lk_holder s t p : s.(pcs) !! t = Some p → holds_lk p = true → panicked p = false →
  s.(wc_lock) = None → ∃ s', step t s = Some s'.
Proof.
  intros Ht Hp Hn Hw. unfold step. rewrite Ht. by_points p; try done; simpl; rewrite ?Hw; simpl; eauto.
Qed.

(** Neither asleep (on a list or in a waker's hands) nor outside. *)
Definition awake (p : pc) : bool :=
  match p with Idle | Held | AAsleep | CAsleep | ATaken _ | CTaken _ => false | _ => true end.

Lemma lk_step_rest s t p : s.(pcs) !! t = Some p → awake p = true → panicked p = false →
  holds_lk p = false → s.(lock_lock) = None → holds_cv p = true ∨ s.(cv_lock) = None →
  ∃ s', step t s = Some s'.
Proof.
  intros Ht Ha Hn Hp Hl Hc. unfold step. rewrite Ht.
  by_points p; try done; simpl; rewrite ?Hl; simpl; eauto; destruct Hc as [Hc|Hc];
    try done; rewrite Hc; simpl; eauto.
Qed.

(** No deadlock among the spinlocks: as long as some thread is inside a
    lock or condition-variable operation and awake, or taken off a channel but
    not yet running, some thread can take a step, unless an assertion has
    failed. *)
Theorem lock_progress (n : nat) (s : lk) (t : nat) (p : pc) :
  rtc lk_step (lk_init n) s →
  (∀ u q, s.(pcs) !! u = Some q → panicked q = false) →
  s.(pcs) !! t = Some p → p ∉ [Idle; Held; AAsleep; CAsleep] →
  ∃ u s', step u s = Some s'.
Proof.
  intros Hi%linv_reachable Hn Ht Hp.
  destruct (wc_lock s) as [u|] eqn:Hw.
  { apply (linv_wc _ Hi) in Hw as (q & Hu & Hq). exists u. by eapply lk_step_wc_holder. }
  destruct (lock_lock s) as [u|] eqn:Hl.
  { apply (linv_lk _ Hi) in Hl as (q & Hu & Hq). exists u. eapply lk_step_lk_holder; eauto. }
  assert (∀ u q, pcs s !! u = Some q → holds_lk q = false) as Hfree.
  { intros u q Hu. apply not_true_is_false; intros Hq.
    pose proof (lockinv_holder _ _ _ _ _ (linv_lk _ Hi) Hu Hq). congruence. }
  destruct (cv_lock s) as [u|] eqn:Hc.
  { apply (linv_cv _ Hi) in Hc as (q & Hu & Hq). exists u. eapply lk_step_rest; eauto.
    by by_points q. }
  assert (∀ u q, pcs s !! u = Some q → awake q = true → ∃ u s', step u s = Some s') as Hrun.
  { intros u q Hu Hq. exists u. eapply lk_step_rest; eauto. }
  destruct (awake p) eqn:Ha; [eauto|].
  destruct (taken_lk p) as [u|] eqn:Hta.
  - assert (at_pc (pcs s) u (λ q, t ∈ pend_lk q)) as (q & Hu & Hin)
      by (apply (linv_plk _ Hi); by rewrite (at_pc_eq _ _ _ _ Ht)).
    apply (Hrun _ _ Hu). destruct q; try done; by apply not_elem_of_nil in Hin.
  - destruct (taken_cv p) as [u|] eqn:Htc; [|by destruct p; try done; destruct Hp; set_solver].
    assert (at_pc (pcs s) u (λ q, t ∈ pend_cv q)) as (q & Hu & Hin)
      by (apply (linv_pcv _ Hi); by rewrite (at_pc_eq _ _ _ _ Ht)).
    apply (Hrun _ _ Hu). destruct q; try done; by apply not_elem_of_nil in Hin.
Qed.

Lemma lock_progress_witness :
  ∃ u s', step u (mkLk None None None [] (Some 1%nat) [] [CTaken 1; SWUnl false (Some 0%nat)]) = Some s'.
Proof.
  apply (lock_progress 2 (mkLk None None None [] (Some 1%nat) [] [CTaken 1; SWUnl false (Some 0%nat)])
           0 (CTaken 1)).
  - apply (lk_exec_rtc (waiter_asleep ++ [Call 1 Signal; Run 1; Run 1])). vm_compute. reflexivity.
  - intros [|[|u]] q; simpl; intros [= <-]; done.
  - reflexivity.
  - set_solver.
Defined.

End LockCv.
