(* ===== verification/SynchObj.v ===== *)
(** The objects behind the synchronisation primitives: creation and destruction of
    wait channels (kern/thread/thread.c), semaphores, locks and condition variables
    (kern/thread/synch.c).

    The heap is a map from addresses to the objects in it.  [knew] is [kmalloc]: an
    address for a new block, or [None]; its contract is that the address is not in
    use.  A wait channel holds the spinlock's state and the threads asleep on it. *)

From Stdlib Require Import ZArith Lia.
From stdpp Require Import base numbers list gmap.
From S2P Require Import Prelude.

Record wchan := Wchan { wc_name : nat; wc_locked : bool; wc_threads : list nat }.

Inductive cell :=
| CString (s : list Z)
| CWchan (w : wchan)
| CSem (sem_name sem_wchan : nat) (sem_locked : bool) (sem_count : Z)
| CLock (lk_name lk_wchan : nat) (lock_locked : bool) (lock_holder : option nat)
| CCv (cv_name cv_wchan : nat).

Abbreviation heap := (gmap nat cell).

Section synch.
Context (knew : heap → option nat).

Definition kmalloc_cell (c : cell) : M heap (option nat) :=
  h ← get;
  match knew h with
  | None => mret None
  | Some a => modify (<[a:=c]>);; mret (Some a)
  end.
Definition kfree_cell (a : nat) : M heap unit :=
  h ← get;
  c ← of_opt (h !! a);
  modify (delete a).

Definition kstrdup (s : list Z) : M heap (option nat) := kmalloc_cell (CString s).

(** ** Wait channels *)

Definition wchan_create (name : nat) : M heap (option nat) := kmalloc_cell (CWchan (Wchan name false [])).

(** [spinlock_cleanup] and [threadlist_cleanup] assert that the lock is free and the
    list empty. *)
Definition wchan_destroy (a : nat) : M heap unit :=
  h ← get;
  c ← of_opt (h !! a);
  match c with
  | CWchan w =>
      kassert (negb w.(wc_locked));;
      kassert (bool_decide (w.(wc_threads) = []));;
      kfree_cell a
  | _ => fault
  end.

(** The steps the three constructors share: the name and the wait channel of the
    object at [obj], whose other fields [mk] sets; everything is given back when
    one of them cannot be had. *)
Definition finish_create (obj : nat) (name : list Z) (mk : nat → nat → cell) : M heap (option nat) :=
  n ← kstrdup name;
  match n with
  | None => kfree_cell obj;; mret None
  | Some n =>
      w ← wchan_create n;
      match w with
      | None => kfree_cell n;; kfree_cell obj;; mret None
      | Some w => modify (<[obj:=mk n w]>);; mret (Some obj)
      end
  end.

(** ** Semaphores, locks, condition variables

    [raw] is what the new block holds before it is filled in. *)

Definition sem_create (raw : cell) (name : list Z) (initial_count : Z) : M heap (option nat) :=
  kassert (initial_count >=? 0);;
  sem ← kmalloc_cell raw;
  match sem with
  | None => mret None
  | Some sem => finish_create sem name (λ n w, CSem n w false initial_count)
  end.

Definition sem_destroy (sem : nat) : M heap unit :=
  h ← get;
  c ← of_opt (h !! sem);
  match c with
  | CSem n w locked _ => kassert (negb locked);; wchan_destroy w;; kfree_cell n;; kfree_cell sem
  | _ => fault
  end.

Definition lock_create (raw : cell) (name : list Z) : M heap (option nat) :=
  lock ← kmalloc_cell raw;
  match lock with
  | None => mret None
  | Some lock => finish_create lock name (λ n w, CLock n w false None)
  end.

(** Nothing looks at the holder. *)
Definition lock_destroy (lock : nat) : M heap unit :=
  h ← get;
  c ← of_opt (h !! lock);
  match c with
  | CLock n w locked _ => kassert (negb locked);; wchan_destroy w;; kfree_cell n;; kfree_cell lock
  | _ => fault
  end.

Definition cv_create (raw : cell) (name : list Z) : M heap (option nat) :=
  cv ← kmalloc_cell raw;
  match cv with
  | None => mret None
  | Some cv => finish_create cv name CCv
  end.

Definition cv_destroy (cv : nat) : M heap unit :=
  h ← get;
  c ← of_opt (h !! cv);
  match c with
  | CCv n w => wchan_destroy w;; kfree_cell n;; kfree_cell cv
  | _ => fault
  end.
End synch.

(** ** Nothing is lost *)

Section ledger.
Context (knew : heap → option nat) (Hknew : ∀ h a, knew h = Some a → h !! a = None).
Implicit Types h : heap.

(** An object with its name and its empty wait channel, on top of [h]. *)
Definition built h (obj n w : nat) (c : cell) (name : list Z) (h' : heap) : Prop :=
  h !! obj = None ∧ h !! n = None ∧ h !! w = None ∧ obj ≠ n ∧ obj ≠ w ∧ n ≠ w ∧
  h' = <[obj:=c]> (<[w:=CWchan (Wchan n false [])]> (<[n:=CString name]> h)).

Lemma kfree_ret h a c : h !! a = Some c → kfree_cell a h = Ret tt (delete a h).
Proof. intros E. unfold kfree_cell. rewrite get_bind, E. by erewrite bind_Ret by reflexivity. Qed.

(** Either nothing, and the heap as it was, or the object. *)
Lemma create_wp (raw : cell) (name : list Z) (mk : nat → nat → cell) h :
  wp (o ← kmalloc_cell knew raw; match o with None => mret None | Some o => finish_create knew o name mk end)
    (λ r h', match r with None => h' = h | Some o => ∃ n w, built h o n w (mk n w) name h' end) h.
Proof.
  apply wp_bind. unfold kmalloc_cell at 1. apply wp_get. destruct (knew h) as [o|] eqn:Eo; [|by do 2 apply wp_ret].
  apply wp_modify, wp_ret. pose proof (Hknew _ _ Eo) as Ho. unfold finish_create, kstrdup, kmalloc_cell. apply wp_bind, wp_get.
  destruct (knew (<[o:=raw]> h)) as [n|] eqn:En.
  2: { apply wp_ret. eapply wp_run; [eapply kfree_ret, lookup_insert_eq|]. apply wp_ret. by rewrite delete_insert_id. }
  apply wp_modify, wp_ret. pose proof (Hknew _ _ En) as Hn. assert (o ≠ n) as Hon by (intros ->; by rewrite lookup_insert_eq in Hn).
  rewrite lookup_insert_ne in Hn by done. unfold wchan_create, kmalloc_cell. apply wp_bind, wp_get. destruct (knew (<[n:=CString name]> (<[o:=raw]> h))) as [w|] eqn:Ew.
  2: { apply wp_ret. eapply wp_run; [eapply kfree_ret, lookup_insert_eq|]. rewrite delete_insert_id by (by rewrite lookup_insert_ne).
       eapply wp_run; [eapply kfree_ret, lookup_insert_eq|]. apply wp_ret. by rewrite delete_insert_id. }
  apply wp_modify, wp_ret. pose proof (Hknew _ _ Ew) as Hw. assert (n ≠ w) by (intros ->; by rewrite lookup_insert_eq in Hw).
  rewrite lookup_insert_ne in Hw by done. assert (o ≠ w) by (intros ->; by rewrite lookup_insert_eq in Hw). rewrite lookup_insert_ne in Hw by done.
  apply wp_modify, wp_ret. exists n, w. split_and!; try done. 
  apply map_eq. intros i. destruct (decide (i = o)) as [->|Hio]; [by rewrite !lookup_insert_eq|]. rewrite !(lookup_insert_ne _ o) by done.
  destruct (decide (i = w)) as [->|Hiw]; [by rewrite !lookup_insert_eq|]. rewrite !(lookup_insert_ne _ w) by done.
  destruct (decide (i = n)) as [->|Hin]; [by rewrite !lookup_insert_eq|]. rewrite !(lookup_insert_ne _ n) by done. by rewrite lookup_insert_ne.
Qed.

(** Taking it apart again. *)
Lemma destroy_wp h h' obj n w c name :
  built h obj n w c name h' → wp (wchan_destroy w;; kfree_cell n;; kfree_cell obj) (λ _ h'', h'' = h) h'.
Proof.
  intros (Ho & Hn & Hw & H1 & H2 & H3 & ->). apply wp_bind. unfold wchan_destroy. apply wp_get. eapply wp_of_opt; [by rewrite lookup_insert_ne, lookup_insert_eq|].
  apply wp_kassert; [done|]. apply wp_kassert; [done|]. eapply wp_intro; [eapply kfree_ret; by rewrite lookup_insert_ne, lookup_insert_eq|].
  rewrite delete_insert_ne, delete_insert_id by (rewrite ?lookup_insert_ne; done).
  eapply wp_run; [eapply kfree_ret; by rewrite lookup_insert_ne, lookup_insert_eq|]. rewrite delete_insert_ne, delete_insert_id by done.
  eapply wp_intro; [eapply kfree_ret; by rewrite lookup_insert_eq|]. by apply delete_insert_id.
Qed.

(** Creating and destroying semaphores, locks and condition variables neither
    loses nor invents memory: whichever of the allocations fail, creation returns
    [NULL] and leaves the heap exactly as it was; otherwise it returns a new object
    in its initial state - the count asked for, no holder, nobody waiting - on top
    of the heap, and destroying it gives back exactly the heap from before. *)
Theorem synch_objects_roundtrip (raw : cell) (name : list Z) (count : Z) h :
  0 ≤ count →
  wp (sem_create knew raw name count) (λ r h', match r with
    | None => h' = h
    | Some sem => ∃ n w, built h sem n w (CSem n w false count) name h' ∧ wp (sem_destroy sem) (λ _ h'', h'' = h) h' end) h ∧
  wp (lock_create knew raw name) (λ r h', match r with
    | None => h' = h
    | Some lock => ∃ n w, built h lock n w (CLock n w false None) name h' ∧ wp (lock_destroy lock) (λ _ h'', h'' = h) h' end) h ∧
  wp (cv_create knew raw name) (λ r h', match r with
    | None => h' = h
    | Some cv => ∃ n w, built h cv n w (CCv n w) name h' ∧ wp (cv_destroy cv) (λ _ h'', h'' = h) h' end) h.
Proof.
  intros Hc. split_and!.
  - unfold sem_create. apply wp_kassert; [rewrite Z.geb_leb; by apply Z.leb_le|].
    eapply wp_mono; [|apply create_wp]. intros [o|] h' H; [|done]. destruct H as (n & w & B). exists n, w. split; [done|].
    unfold sem_destroy. apply wp_get. eapply wp_of_opt; [by destruct B as (_ & _ & _ & _ & _ & _ & ->); rewrite lookup_insert_eq|].
    apply wp_kassert; [done|]. by eapply destroy_wp.
  - unfold lock_create. eapply wp_mono; [|apply create_wp]. intros [o|] h' H; [|done]. destruct H as (n & w & B). exists n, w. split; [done|].
    unfold lock_destroy. apply wp_get. eapply wp_of_opt; [by destruct B as (_ & _ & _ & _ & _ & _ & ->); rewrite lookup_insert_eq|].
    apply wp_kassert; [done|]. by eapply destroy_wp.
  - unfold cv_create. eapply wp_mono; [|apply create_wp]. intros [o|] h' H; [|done]. destruct H as (n & w & B). exists n, w. split; [done|].
    unfold cv_destroy. apply wp_get. eapply wp_of_opt; [by destruct B as (_ & _ & _ & _ & _ & _ & ->); rewrite lookup_insert_eq|].
    by eapply destroy_wp.
Qed.
End ledger.

(** A thread asleep keeps the object alive: destruction panics. *)
Lemma destroy_with_waiters (h : heap) sem n w t ts count :
  h !! sem = Some (CSem n w false count) → h !! w = Some (CWchan (Wchan n false (t :: ts))) → ∃ h', sem_destroy sem h = Panic h'.
Proof.
  intros E1 E2. exists h. unfold sem_destroy. rewrite get_bind, E1. erewrite bind_Ret by reflexivity. cbv iota. erewrite bind_Ret by reflexivity.
  apply bind_Panic. unfold wchan_destroy. rewrite get_bind, E2. erewrite bind_Ret by reflexivity. cbv iota. by erewrite bind_Ret by reflexivity.
Qed.

Definition ex_knew (h : heap) : option nat := if bool_decide (size h < 5)%nat then Some (fresh (dom h)) else None.

Lemma synch_objects_roundtrip_witness :
  wp (lock_create ex_knew (CString []) [108]) (λ r h', match r with
    | None => h' = ∅
    | Some lock => ∃ n w, built ∅ lock n w (CLock n w false None) [108] h' ∧ wp (lock_destroy lock) (λ _ h'', h'' = ∅) h' end) (∅ : heap).
Proof.
  refine (proj1 (proj2 (synch_objects_roundtrip ex_knew _ (CString []) [108] 0 ∅ ltac:(lia)))).
  intros h a. unfold ex_knew. case_bool_decide; [|done]. intros [= <-]. apply not_elem_of_dom, is_fresh.
Defined.
