(* ===== verification/CatMouse.v ===== *)
(** Cats and mice (kern/synchprobs/catmouse.c and bowls.c, built where the
    option synchprobs is on): the synchronisation exercise that is written with
    the kernel's locks, condition variables and semaphores.

    The model is a step function over any number of cats and mice, one step per
    access to a shared variable: [eating_cats++] is a load and a store.  The
    primitives are taken at the level of their contracts: [lock_acquire] waits
    until the lock is free, and does nothing for the thread that has it;
    [lock_release] asserts that the caller has it; [cv_wait] gives up the lock
    and joins the sleepers at once, since it has the channel locked in between,
    and takes the lock again once it is woken; [cv_broadcast] empties the
    channel, whoever calls it.  What bowls.c does between [P(mutex)] and
    [V(mutex)] is one step.

    The rules of the exercise hold in every run that never splits an update of
    [eating_cats] or [eating_mice]; the updates after a meal are made without
    [lock[0]], and the last lemmas show what comes of that. *)

From Stdlib Require Import ZArith Lia.
From stdpp Require Import base numbers list relations sets.
From S2P Require Import Prelude Interleave.

Module CatMouse.

Inductive kind := Cat | Mouse.

Definition other (k : kind) : kind := match k with Cat => Mouse | Mouse => Cat end.

#[global] Instance kind_eq_dec : EqDecision kind.
Proof. solve_decision. Defined.

(** The pairs of globals [eating_cats]/[eating_mice], [cat_wchan]/[mouse_wchan],
    [wait_cats]/[wait_mice], [eating_cats_count]/[eating_mice_count]. *)
Record both (A : Type) := mkBoth { of_cats : A; of_mice : A }.
Arguments mkBoth {_} _ _. Arguments of_cats {_} _. Arguments of_mice {_} _.

Definition sel {A} (k : kind) (b : both A) : A :=
  match k with Cat => b.(of_cats) | Mouse => b.(of_mice) end.
Definition upd {A} (k : kind) (a : A) (b : both A) : both A :=
  match k with Cat => mkBoth a b.(of_mice) | Mouse => mkBoth b.(of_cats) a end.

(** Program points of [cat_simulation] and [mouse_simulation]; [j] is the bowl,
    [v] a counter that has been loaded and not yet stored. *)
Inductive pc :=
| Loop | Acq0 | TestOwn | TestOther | Wait | Asleep | SetFlag
| Scan (j : nat) | AcqBowl (j : nat)
| IncLoad (j : nat) | IncStore (j : nat) (v : Z) | SetBowl (j : nat) | Rel0 (j : nat)
| EatStart (j : nat) | EatEnd (j : nat)
| DecLoad (j : nat) | DecStore (j : nat) (v : Z) | ClrBowl (j : nat)
| BcastOther (j : nat) | TestFlag (j : nat) | TestEating (j : nat) | BcastOwn (j : nat)
| ClrFlag (j : nat) | RelBowl (j : nat)
| Finish | Done | Panicked.

(** A thread: what it simulates, the loop counter [i], how often it has eaten,
    and where it is. *)
Record thr := mkThr { who : kind; loop_i : nat; meals : nat; at_ : pc }.

Record cm := mkCm {
  eating : both Z;               (* catmouse.c *)
  wchan : both bool;
  bowl : list (option kind);
  lock : list (option nat);      (* the holder of each *)
  waiting : both (list nat);     (* the sleepers on wait_cats, wait_mice *)
  bowls : option (list (option kind));   (* bowls.c; None once it is freed *)
  eating_count : both Z;
  CatMouseWait : Z;              (* the count of the semaphore *)
  main_ps : nat;                 (* how often the driver has returned from P *)
  threads : list thr;
}.

Definition set_thr (t : nat) (x : thr) (s : cm) : cm :=
  mkCm s.(eating) s.(wchan) s.(bowl) s.(lock) s.(waiting) s.(bowls) s.(eating_count)
       s.(CatMouseWait) s.(main_ps) (<[t:=x]> s.(threads)).
Definition set_eating (e : both Z) (s : cm) : cm :=
  mkCm e s.(wchan) s.(bowl) s.(lock) s.(waiting) s.(bowls) s.(eating_count)
       s.(CatMouseWait) s.(main_ps) s.(threads).
Definition set_wchan (w : both bool) (s : cm) : cm :=
  mkCm s.(eating) w s.(bowl) s.(lock) s.(waiting) s.(bowls) s.(eating_count)
       s.(CatMouseWait) s.(main_ps) s.(threads).
Definition set_bowl (b : list (option kind)) (s : cm) : cm :=
  mkCm s.(eating) s.(wchan) b s.(lock) s.(waiting) s.(bowls) s.(eating_count)
       s.(CatMouseWait) s.(main_ps) s.(threads).
Definition set_lock (l : list (option nat)) (s : cm) : cm :=
  mkCm s.(eating) s.(wchan) s.(bowl) l s.(waiting) s.(bowls) s.(eating_count)
       s.(CatMouseWait) s.(main_ps) s.(threads).
Definition set_waiting (w : both (list nat)) (s : cm) : cm :=
  mkCm s.(eating) s.(wchan) s.(bowl) s.(lock) w s.(bowls) s.(eating_count)
       s.(CatMouseWait) s.(main_ps) s.(threads).
Definition set_bowls (b : option (list (option kind))) (c : both Z) (s : cm) : cm :=
  mkCm s.(eating) s.(wchan) s.(bowl) s.(lock) s.(waiting) b c
       s.(CatMouseWait) s.(main_ps) s.(threads).
Definition set_sem (v : Z) (m : nat) (s : cm) : cm :=
  mkCm s.(eating) s.(wchan) s.(bowl) s.(lock) s.(waiting) s.(bowls) s.(eating_count)
       v m s.(threads).

(** ** The contracts of the primitives *)

Definition may_acquire (t i : nat) (s : cm) : bool :=
  match s.(lock) !! i with
  | Some None => true
  | Some (Some u) => bool_decide (u = t)
  | None => false
  end.
Definition acquire (t i : nat) (s : cm) : cm := set_lock (<[i:=Some t]> s.(lock)) s.
Definition holds (t i : nat) (s : cm) : bool := bool_decide (s.(lock) !! i = Some (Some t)).
Definition release (i : nat) (s : cm) : cm := set_lock (<[i:=None]> s.(lock)) s.
Definition broadcast (k : kind) (s : cm) : cm := set_waiting (upd k [] s.(waiting)) s.

(** ** bowls.c: the two critical sections of [cat_eat] and [mouse_eat].  [None] is
    a panic, a failed assertion, or a call after [cleanup_bowls]. *)

Definition initialize_bowls (bowlcount : Z) : option (list (option kind)) :=
  if bool_decide (bowlcount = 0) then None else Some (replicate (Z.to_nat bowlcount) None).

Definition eat_start (k : kind) (bowlnumber : nat) (s : cm) : option cm :=
  b ← s.(bowls);
  if bool_decide (bowlnumber = 0%nat) || (length b <? bowlnumber)%nat then None else
  if bool_decide (b !! (bowlnumber - 1)%nat = Some (Some k)) then None else
  if sel (other k) s.(eating_count) >? 0 then None else
  if negb (bool_decide (b !! (bowlnumber - 1)%nat = Some None)) then None else
  if negb (sel (other k) s.(eating_count) =? 0) then None else
  Some (set_bowls (Some (<[(bowlnumber - 1)%nat:=Some k]> b))
                  (upd k (sel k s.(eating_count) + 1) s.(eating_count)) s).

Definition eat_end (k : kind) (bowlnumber : nat) (s : cm) : option cm :=
  b ← s.(bowls);
  if negb (sel k s.(eating_count) >? 0) then None else
  if negb (bool_decide (b !! (bowlnumber - 1)%nat = Some (Some k))) then None else
  Some (set_bowls (Some (<[(bowlnumber - 1)%nat:=None]> b))
                  (upd k (sel k s.(eating_count) - 1) s.(eating_count)) s).

Definition cleanup_bowls (s : cm) : cm := set_bowls None s.(eating_count) s.

(** ** catmouse.c *)

(** The checks [catmouse] makes of its arguments; [arg n] is [atoi(args[n])].
    The four times are stored unchecked: their tests read [NumLoops]. *)
Record params := mkParams {
  p_NumBowls : Z; p_NumCats : Z; p_NumMice : Z; p_NumLoops : Z;
  p_times : option (Z * Z * Z * Z) }.

Definition catmouse_args (nargs : Z) (arg : nat → Z) : option params :=
  if negb (nargs =? 9) && negb (nargs =? 5) then None else
  if arg 1%nat <=? 0 then None else
  if arg 2%nat <? 0 then None else
  if arg 3%nat <? 0 then None else
  if arg 4%nat <=? 0 then None else
  Some (mkParams (arg 1%nat) (arg 2%nat) (arg 3%nat) (arg 4%nat)
          (if nargs =? 9 then Some (arg 5%nat, arg 6%nat, arg 7%nat, arg 8%nat) else None)).

(** A step of a run: by one of the threads, or by the driver. *)
Inductive event := Thread (t : nat) | Main.

#[global] Instance event_eq_dec : EqDecision event.
Proof. solve_decision. Defined.

Section simulation.
Context (NumBowls NumLoops : nat).
Implicit Types (s : cm) (t u i j : nat) (x y : thr) (k : kind).

Definition goto (t : nat) (x : thr) (p : pc) (s : cm) : cm :=
  set_thr t (mkThr x.(who) x.(loop_i) x.(meals) p) s.
(** The end of the body of the loop: [i++]. *)
Definition next_loop (t : nat) (x : thr) (s : cm) : cm :=
  set_thr t (mkThr x.(who) (S x.(loop_i)) x.(meals) Loop) s.
Definition ate (x : thr) : thr := mkThr x.(who) x.(loop_i) (S x.(meals)) x.(at_).
Definition or_panic (t : nat) (x : thr) (p : pc) (o : option cm) (s : cm) : option cm :=
  Some match o with Some s' => goto t x p s' | None => goto t x Panicked s end.

(** [lock_release], with the assertion that the caller has the lock. *)
Definition lock_release (t i : nat) (s : cm) : option cm :=
  if holds t i s then Some (release i s) else None.

(** The two simulations are the same text with cats and mice exchanged. *)
Definition simulation (t : nat) (x : thr) (s : cm) : option cm :=
  let k := x.(who) in
  match x.(at_) with
  | Loop => Some (goto t x (if (x.(loop_i) <? NumLoops)%nat then Acq0 else Finish) s)
  | Acq0 => if may_acquire t 0 s then Some (goto t x TestOwn (acquire t 0 s)) else None
  | TestOwn =>
      Some (goto t x (if sel k s.(eating) =? Z.of_nat NumBowls then Wait else TestOther) s)
  | TestOther => Some (goto t x (if sel (other k) s.(eating) >? 0 then Wait else Scan 0) s)
  | Wait =>
      or_panic t x Asleep
        (set_waiting (upd k (sel k s.(waiting) ++ [t]) s.(waiting)) <$> lock_release t 0 s) s
  | Asleep =>
      if bool_decide (t ∈ sel k s.(waiting)) then None
      else if may_acquire t 0 s then Some (goto t x SetFlag (acquire t 0 s)) else None
  | SetFlag => Some (goto t x TestOwn (set_wchan (upd k true s.(wchan)) s))
  | Scan j =>
      Some (if (j <? NumBowls)%nat
            then goto t x (if bool_decide (s.(bowl) !! j = Some None) then AcqBowl j
                           else Scan (S j)) s
            else next_loop t x s)
  | AcqBowl j =>
      if may_acquire t (S j) s then Some (goto t x (IncLoad j) (acquire t (S j) s)) else None
  | IncLoad j => Some (goto t x (IncStore j (sel k s.(eating))) s)
  | IncStore j v => Some (goto t x (SetBowl j) (set_eating (upd k (v + 1) s.(eating)) s))
  | SetBowl j => Some (goto t x (Rel0 j) (set_bowl (<[j:=Some k]> s.(bowl)) s))
  | Rel0 j => or_panic t x (EatStart j) (lock_release t 0 s) s
  | EatStart j => or_panic t x (EatEnd j) (eat_start k (S j) s) s
  | EatEnd j => or_panic t (ate x) (DecLoad j) (eat_end k (S j) s) s
  | DecLoad j => Some (goto t x (DecStore j (sel k s.(eating))) s)
  | DecStore j v => Some (goto t x (ClrBowl j) (set_eating (upd k (v - 1) s.(eating)) s))
  | ClrBowl j => Some (goto t x (BcastOther j) (set_bowl (<[j:=None]> s.(bowl)) s))
  | BcastOther j => Some (goto t x (TestFlag j) (broadcast (other k) s))
  | TestFlag j =>
      Some (goto t x (if sel (other k) s.(wchan) then ClrFlag j else TestEating j) s)
  | TestEating j =>
      Some (goto t x (if sel (other k) s.(eating) =? 0 then BcastOwn j else ClrFlag j) s)
  | BcastOwn j => Some (goto t x (ClrFlag j) (broadcast k s))
  | ClrFlag j => Some (goto t x (RelBowl j) (set_wchan (upd (other k) false s.(wchan)) s))
  | RelBowl j =>
      Some match lock_release t (S j) s with
           | Some s' => next_loop t x s'
           | None => goto t x Panicked s
           end
  | Finish => Some (goto t x Done (set_sem (s.(CatMouseWait) + 1) s.(main_ps) s))
  | Done | Panicked => None
  end.

Definition cat_simulation (t : nat) (i n : nat) (p : pc) : cm → option cm :=
  simulation t (mkThr Cat i n p).
Definition mouse_simulation (t : nat) (i n : nat) (p : pc) : cm → option cm :=
  simulation t (mkThr Mouse i n p).

Definition thread_step (t : nat) (s : cm) : option cm :=
  match s.(threads) !! t with
  | None => None
  | Some x =>
      match x.(who) with
      | Cat => cat_simulation t x.(loop_i) x.(meals) x.(at_) s
      | Mouse => mouse_simulation t x.(loop_i) x.(meals) x.(at_) s
      end
  end.

(** The end of [catmouse]: one [P] per thread, then [cleanup_bowls]. *)
Definition catmouse_wait (s : cm) : option cm :=
  if (s.(main_ps) <? length s.(threads))%nat
  then if s.(CatMouseWait) >? 0 then Some (set_sem (s.(CatMouseWait) - 1) (S s.(main_ps)) s) else None
  else if bool_decide (is_Some s.(bowls)) then Some (cleanup_bowls s) else None.

(** What [catmouse] has set up when the threads are forked; the counters and flags
    have their static initial values, which [catmouse] itself does not set. *)
Definition catmouse_start (NumCats NumMice : nat) : cm :=
  mkCm (mkBoth 0 0) (mkBoth false false) (replicate NumBowls None) (replicate (S NumBowls) None)
       (mkBoth [] []) (initialize_bowls (Z.of_nat NumBowls)) (mkBoth 0 0) 0 0
       (replicate NumCats (mkThr Cat 0 0 Loop) ++ replicate NumMice (mkThr Mouse 0 0 Loop)).

Definition exec_event (e : event) (s : cm) : option cm :=
  match e with Thread t => thread_step t s | Main => catmouse_wait s end.

Fixpoint exec (l : list event) (s : cm) : option cm :=
  match l with [] => Some s | e :: l => s' ← exec_event e s; exec l s' end.

(** A thread is between the load and the store of a counter. *)
Definition half (p : pc) : option Z :=
  match p with IncStore _ v | DecStore _ v => Some v | _ => None end.
Definition quiet (e : event) (s : cm) : bool :=
  forallb (λ '(u, x), bool_decide (e = Thread u) || bool_decide (half x.(at_) = None))
          (imap pair s.(threads)).

Inductive cm_step (s s' : cm) : Prop :=
| Step e : exec_event e s = Some s' → cm_step s s'.
(** Steps of runs that do not split the update of a counter. *)
Inductive cm_step_quiet (s s' : cm) : Prop :=
| Step_quiet e : quiet e s = true → exec_event e s = Some s' → cm_step_quiet s s'.

Fixpoint exec_quiet (l : list event) (s : cm) : option cm :=
  match l with
  | [] => Some s
  | e :: l => if quiet e s then s' ← exec_event e s; exec_quiet l s' else None
  end.

Lemma cm_exec_rtc l s s' : exec l s = Some s' → rtc cm_step s s'.
Proof.
  revert s. induction l as [|e l IH]; simpl; intros s; [intros [= ->]; apply rtc_refl|].
  intros (s1 & He & Hl)%bind_Some. eapply rtc_l; [by econstructor|by apply IH].
Qed.

Lemma cm_exec_quiet_rtc l s s' : exec_quiet l s = Some s' → rtc cm_step_quiet s s'.
Proof.
  revert s. induction l as [|e l IH]; simpl; intros s; [intros [= ->]; apply rtc_refl|].
  destruct (quiet e s) eqn:Hq; [|done].
  intros (s1 & He & Hl)%bind_Some. eapply rtc_l; [by econstructor|by apply IH].
Qed.

(** ** The invariant of those runs *)

Definition holds0 (p : pc) : bool :=
  match p with
  | TestOwn | TestOther | Wait | SetFlag | Scan _ | AcqBowl _ | IncLoad _ | IncStore _ _
  | SetBowl _ | Rel0 _ => true
  | _ => false
  end.
(** The thread has seen that none of the other kind is eating. *)
Definition cleared (p : pc) : bool :=
  match p with Scan _ | AcqBowl _ | IncLoad _ | IncStore _ _ => true | _ => false end.
Definition bowl_of (p : pc) : option nat :=
  match p with
  | IncLoad j | IncStore j _ | SetBowl j | Rel0 j | EatStart j | EatEnd j | DecLoad j
  | DecStore j _ | ClrBowl j | BcastOther j | TestFlag j | TestEating j | BcastOwn j
  | ClrFlag j | RelBowl j => Some j
  | _ => None
  end.
Definition counted (p : pc) : bool :=
  match p with
  | SetBowl _ | Rel0 _ | EatStart _ | EatEnd _ | DecLoad _ | DecStore _ _ => true
  | _ => false
  end.
Definition eats (p : pc) : bool := match p with EatEnd _ => true | _ => false end.
Definition is_done (p : pc) : bool := match p with Done => true | _ => false end.

(** One unit for a thread of kind [k] at a point of [f]. *)
Definition tok (f : pc → bool) (k : kind) (x : thr) : Z :=
  if bool_decide (x.(who) = k) && f x.(at_) then 1 else 0.
Definition tok_done (x : thr) : Z := if is_done x.(at_) then 1 else 0.

(** What thread [t] may rely on. *)
Record ok (l : list (option nat)) (e : both Z) (t : nat) (x : thr) : Prop := Ok {
  ok_lock0 : holds0 x.(at_) = true → l !! 0%nat = Some (Some t);
  ok_lockb : ∀ j, bowl_of x.(at_) = Some j → l !! S j = Some (Some t);
  ok_clear : cleared x.(at_) = true → sel (other x.(who)) e = 0;
  ok_half : ∀ v, half x.(at_) = Some v → v = sel x.(who) e;
  ok_runs : x.(at_) ≠ Panicked;
}.

(** bowls.c agrees with who is eating. *)
Definition bowls_inv (bw : option (list (option kind))) (c : both Z) (l : list thr) : Prop :=
  (∀ k, sel k c = tokens (tok eats k) l) ∧
  match bw with
  | None => ∀ x, x ∈ l → x.(at_) = Done
  | Some b =>
      length b = NumBowls ∧
      ∀ j k, b !! j = Some (Some k) ↔ ∃ t, at_pc l t (λ x, x.(who) = k ∧ x.(at_) = EatEnd j)
  end.

Record inv (s : cm) : Prop := Inv {
  inv_ok : ∀ t x, s.(threads) !! t = Some x → ok s.(lock) s.(eating) t x;
  inv_locks : length s.(lock) = S NumBowls;
  inv_eating : ∀ k, sel k s.(eating) = tokens (tok counted k) s.(threads);
  inv_excl : ∀ k, sel k s.(eating) = 0 ∨ sel (other k) s.(eating) = 0;
  inv_bowls : bowls_inv s.(bowls) s.(eating_count) s.(threads);
  inv_sem : s.(CatMouseWait) + Z.of_nat s.(main_ps) = tokens tok_done s.(threads);
  inv_wait : 0 ≤ s.(CatMouseWait);
}.

Lemma sel_upd {A} k k' (a : A) b : sel k' (upd k a b) = if decide (k = k') then a else sel k' b.
Proof. by destruct k, k', b. Qed.
Lemma other_ne k : k ≠ other k.
Proof. by destruct k. Qed.
Lemma other_other k : other (other k) = k.
Proof. by destruct k. Qed.
Lemma ne_other k k' : k ≠ k' → k' = other k.
Proof. by destruct k, k'. Qed.

Lemma tok_range f k x : 0 ≤ tok f k x ≤ 1.
Proof. unfold tok. destruct (_ && _); lia. Qed.
Lemma tok_own f x : tok f x.(who) x = if f x.(at_) then 1 else 0.
Proof. unfold tok. by rewrite bool_decide_eq_true_2. Qed.
Lemma tok_ne f k x : x.(who) ≠ k → tok f k x = 0.
Proof. intros H. unfold tok. by rewrite bool_decide_eq_false_2. Qed.
Lemma tok_same f k x y : x.(who) = y.(who) → f x.(at_) = f y.(at_) → tok f k x = tok f k y.
Proof. unfold tok. by intros -> ->. Qed.

Lemma quiet_others t u x s :
  quiet (Thread t) s = true → s.(threads) !! u = Some x → u ≠ t → half x.(at_) = None.
Proof.
  unfold quiet. intros Hq Hu Hne. rewrite forallb_forall in Hq.
  assert ((u, x) ∈ imap pair s.(threads)) as Hin.
  { apply list_elem_of_lookup_2 with u. by rewrite list_lookup_imap, Hu. }
  apply list_elem_of_In, Hq in Hin. apply orb_true_iff in Hin as [Hin%bool_decide_eq_true|Hin].
  - congruence.
  - by apply bool_decide_eq_true in Hin.
Qed.

Lemma eating_nonneg s k : inv s → 0 ≤ sel k s.(eating).
Proof. intros Hi. rewrite (inv_eating _ Hi). apply tokens_nonneg. intros x. apply tok_range. Qed.

(** A thread of the count leaves nothing to the other kind. *)
Lemma eating_excludes s t x :
  inv s → s.(threads) !! t = Some x → counted x.(at_) = true →
  1 ≤ sel x.(who) s.(eating) ∧ sel (other x.(who)) s.(eating) = 0.
Proof.
  intros Hi Ht Hc. assert (1 ≤ sel x.(who) s.(eating)) as H1.
  { rewrite (inv_eating _ Hi). etrans; [|eapply tokens_ge, Ht; intros; apply tok_range].
    rewrite tok_own, Hc. lia. }
  destruct (inv_excl _ Hi x.(who)); [lia|done].
Qed.

Lemma tokens_move f k l t x p n m :
  l !! t = Some x →
  tokens (tok f k) (<[t:=mkThr x.(who) n m p]> l)
  = tokens (tok f k) l + (if bool_decide (x.(who) = k)
                          then (if f p then 1 else 0) - (if f x.(at_) then 1 else 0) else 0).
Proof.
  intros H. rewrite (tokens_insert _ _ _ x) by done. unfold tok; simpl.
  destruct (bool_decide _), (f p), (f x.(at_)); simpl; lia.
Qed.

Lemma bowls_inv_move bw c l t x n m p :
  bowls_inv bw c l → l !! t = Some x → eats x.(at_) = false → eats p = false →
  x.(at_) ≠ Done → bowls_inv bw c (<[t:=mkThr x.(who) n m p]> l).
Proof.
  intros [Hc Hb] Ht Hx Hp Hd. split.
  - intros k. rewrite (tokens_move _ _ _ _ x), Hx, Hp, (Hc k) by done. destruct (bool_decide _); lia.
  - destruct bw as [b|].
    + destruct Hb as [Hl Hb]. split; [done|]. intros j k. rewrite (Hb j k). split; intros [u Hu]; exists u.
      * rewrite (at_pc_insert_cases _ _ x) by done. right. split; [|done]. intros ->.
        rewrite (at_pc_eq _ _ x) in Hu by done. destruct Hu as [_ Hu]. by rewrite Hu in Hx.
      * rewrite (at_pc_insert_cases _ _ x) in Hu by done. destruct Hu as [(-> & _ & Hu)|[_ Hu]]; [|done].
        simpl in Hu. by rewrite Hu in Hp.
    + destruct Hd. apply Hb. by eapply list_elem_of_lookup_2.
Qed.

(** A thread starts to eat at a free bowl, and the one at a bowl stops. *)
Lemma bowls_inv_start b c l t x n m j :
  bowls_inv (Some b) c l → l !! t = Some x → eats x.(at_) = false → b !! j = Some None →
  bowls_inv (Some (<[j:=Some x.(who)]> b)) (upd x.(who) (sel x.(who) c + 1) c)
            (<[t:=mkThr x.(who) n m (EatEnd j)]> l).
Proof.
  intros (Hc & Hl & Hb) Ht Hx Hj. split_and!.
  - intros k. rewrite (tokens_move _ _ _ _ x), Hx, sel_upd by done; simpl.
    destruct (decide _) as [<-|]; [rewrite bool_decide_eq_true_2 by done|rewrite bool_decide_eq_false_2 by done];
      rewrite Hc; lia.
  - by rewrite length_insert.
  - intros j' k. setoid_rewrite (at_pc_insert_cases _ _ x); [|done]. simpl.
    destruct (decide (j' = j)) as [->|Hne].
    + rewrite list_lookup_insert_eq by (by eapply lookup_lt_Some). split.
      * intros [= <-]. exists t. by left.
      * intros (u & [(-> & <- & _)|[_ Hu]]); [done|]. assert (b !! j = Some (Some k)) by (apply Hb; eauto).
        congruence.
    + rewrite list_lookup_insert_ne, (Hb j' k) by done. split; intros (u & Hu).
      * exists u. right. split; [|done]. intros ->. rewrite (at_pc_eq _ _ x) in Hu by done.
        destruct Hu as [_ Hu]. by rewrite Hu in Hx.
      * destruct Hu as [(_ & _ & [= ->])|[_ Hu]]; [done|eauto].
Qed.

Lemma bowls_inv_end b c l t x n m j p :
  bowls_inv (Some b) c l → l !! t = Some x → x.(at_) = EatEnd j → eats p = false →
  (∀ u y, l !! u = Some y → y.(at_) = EatEnd j → u = t) →
  bowls_inv (Some (<[j:=None]> b)) (upd x.(who) (sel x.(who) c - 1) c) (<[t:=mkThr x.(who) n m p]> l).
Proof.
  intros (Hc & Hl & Hb) Ht Hx Hp Hu. assert (b !! j = Some (Some x.(who))) as Hj.
  { apply Hb. exists t. by rewrite (at_pc_eq _ _ x). }
  split_and!.
  - intros k. rewrite (tokens_move _ _ _ _ x), Hx, Hp, sel_upd by done; simpl.
    destruct (decide _) as [<-|]; [rewrite bool_decide_eq_true_2 by done|rewrite bool_decide_eq_false_2 by done];
      rewrite Hc; lia.
  - by rewrite length_insert.
  - intros j' k. setoid_rewrite (at_pc_insert_cases _ _ x); [|done]. simpl.
    destruct (decide (j' = j)) as [->|Hne].
    + rewrite list_lookup_insert_eq by (by eapply lookup_lt_Some). split; [done|].
      intros (u & [(_ & _ & ->)|[Hne (y & Hy & _ & Hat)]]); [done|]. by destruct Hne; eauto.
    + rewrite list_lookup_insert_ne, (Hb j' k) by done. split; intros (u & Hv).
      * exists u. right. split; [|done]. intros ->. rewrite (at_pc_eq _ _ x) in Hv by done.
        destruct Hv as [_ Hv]. congruence.
      * destruct Hv as [(_ & _ & ->)|[_ Hv]]; [done|eauto].
Qed.

(** The others, when [t] changes locks of its own and a counter. *)
Lemma ok_others s t x l' e' u y :
  inv s → quiet (Thread t) s = true → s.(threads) !! t = Some x → s.(threads) !! u = Some y → u ≠ t →
  (∀ i, s.(lock) !! i = Some (Some u) → l' !! i = Some (Some u)) →
  holds0 x.(at_) = true ∨ (∀ k, sel k s.(eating) = 0 → sel k e' = 0) → ok l' e' u y.
Proof.
  intros Hi Hq Ht Hu Hne Hl He. destruct (inv_ok _ Hi _ _ Hu) as [H0 Hb Hc Hh Hr]. split; auto.
  - intros Hy. destruct He as [He|He]; [|auto].
    assert (holds0 (at_ y) = true) as Hy0 by (by destruct (at_ y)).
    specialize (H0 Hy0). pose proof (ok_lock0 _ _ _ _ (inv_ok _ Hi _ _ Ht) He). congruence.
  - intros v Hv. by rewrite (quiet_others _ _ _ _ Hq Hu Hne) in Hv.
Qed.

(** A step of thread [t] that does not touch bowls.c. *)
Lemma cm_inv_move s t x n m p e' w' b' l' wt' v' :
  inv s → quiet (Thread t) s = true → s.(threads) !! t = Some x →
  eats x.(at_) = false → eats p = false → x.(at_) ≠ Done →
  length l' = length s.(lock) →
  (∀ u i, u ≠ t → s.(lock) !! i = Some (Some u) → l' !! i = Some (Some u)) →
  (∀ k, sel k e' = sel k s.(eating) + (if bool_decide (x.(who) = k)
     then (if counted p then 1 else 0) - (if counted x.(at_) then 1 else 0) else 0)) →
  (counted p = true → counted x.(at_) = true ∨ cleared x.(at_) = true) →
  v' = s.(CatMouseWait) + (if is_done p then 1 else 0) →
  ok l' e' t (mkThr x.(who) n m p) →
  inv (mkCm e' w' b' l' wt' s.(bowls) s.(eating_count) v' s.(main_ps)
            (<[t:=mkThr x.(who) n m p]> s.(threads))).
Proof.
  intros Hi Hq Ht Hx Hp Hd Hll Hl He Hc -> Hok. split; simpl.
  - eapply (points_insert (ok s.(lock) s.(eating))); [apply Hi|done|done|].
    intros u y Hne Hu _. eapply ok_others; [done..|by auto|].
    destruct (holds0 (at_ x)) eqn:H0; [by left|right]. intros k Hk.
    pose proof (He k) as Hek. rewrite Hk in Hek. revert Hek.
    case_bool_decide as Hw; [|lia]. subst k. destruct (counted p) eqn:Ep.
    + destruct Hc as [Hc|Hc]; [done|rewrite Hc; lia|]. by destruct (at_ x).
    + destruct (counted (at_ x)) eqn:Ex; [|lia]. pose proof (eating_excludes _ _ _ Hi Ht Ex). lia.
  - rewrite Hll. apply Hi.
  - intros k. rewrite (tokens_move _ _ _ _ x), (He k), (inv_eating _ Hi) by done. done.
  - assert (∀ k, x.(who) ≠ k → counted p = true → sel k s.(eating) = 0) as Hz.
    { intros k Hk%ne_other Ep. subst k. destruct (Hc Ep) as [Hcx|Hcl].
      - by apply (eating_excludes _ _ _ Hi Ht).
      - by apply (inv_ok _ Hi _ _ Ht). }
    assert (∀ k, 0 ≤ sel k e' ≤ sel k s.(eating) ∨ (counted p = true ∧ who x = k)) as Hle.
    { intros k. rewrite (He k). pose proof (eating_nonneg _ k Hi). case_bool_decide; [|lia].
      destruct (counted p); [by right|]. destruct (counted (at_ x)) eqn:Ex; [|lia].
      pose proof (eating_excludes _ _ _ Hi Ht Ex). subst k. lia. }
    intros k. destruct (Hle k) as [H1|[Ep Hw]], (Hle (other k)) as [H2|[Ep' Hw']].
    + destruct (inv_excl _ Hi k); lia.
    + left. rewrite (Hz k) in H1; [lia|rewrite Hw'; apply not_eq_sym, other_ne|done].
    + right. rewrite (Hz (other k)) in H2; [lia|rewrite Hw; apply other_ne|done].
    + destruct (other_ne k). congruence.
  - apply bowls_inv_move; [apply Hi|done..].
  - rewrite (tokens_insert _ _ _ x) by done. rewrite <- (inv_sem _ Hi). unfold tok_done; simpl.
    destruct (at_ x); simpl; try done; destruct (is_done p); lia.
  - pose proof (inv_wait _ Hi). destruct (is_done p); lia.
Qed.

Lemma may_acquire_keeps s t i :
  may_acquire t i s = true →
  (i < length s.(lock))%nat ∧
  (∀ u i', s.(lock) !! i' = Some (Some u) → <[i:=Some t]> s.(lock) !! i' = Some (Some u)) ∧
  <[i:=Some t]> s.(lock) !! i = Some (Some t).
Proof.
  unfold may_acquire. destruct (s.(lock) !! i) as [o|] eqn:E; [|done]. intros Ho.
  assert (i < length s.(lock))%nat by (by eapply lookup_lt_Some). split_and!; [done| |].
  - intros u i' Hu. destruct (decide (i' = i)) as [->|]; [|by rewrite list_lookup_insert_ne].
    rewrite list_lookup_insert_eq by done. destruct o; simplify_eq. by apply bool_decide_eq_true in Ho as ->.
  - by rewrite list_lookup_insert_eq.
Qed.

Lemma holds_release s t i :
  holds t i s = true →
  ∀ u i', u ≠ t → s.(lock) !! i' = Some (Some u) → <[i:=None]> s.(lock) !! i' = Some (Some u).
Proof.
  intros Hh%bool_decide_eq_true u i' Hne Hu. destruct (decide (i' = i)) as [->|]; [congruence|].
  by rewrite list_lookup_insert_ne.
Qed.

Lemma holds_true s t i : s.(lock) !! i = Some (Some t) → holds t i s = true.
Proof. intros H. by apply bool_decide_eq_true_2. Qed.

(** ** Every step preserves it *)

Section step.
Context (s : cm) (t : nat) (x : thr) (Hi : inv s) (Hq : quiet (Thread t) s = true)
        (Ht : s.(threads) !! t = Some x).

(** The counters and the locks stay. *)
Lemma inv_silent n m p w' b' wt' :
  eats x.(at_) = false → eats p = false → is_done p = false → x.(at_) ≠ Done →
  counted p = counted x.(at_) →
  (holds0 p = true → holds0 x.(at_) = true) →
  (∀ j, bowl_of p = Some j → bowl_of x.(at_) = Some j) →
  (cleared p = true → cleared x.(at_) = true ∨ sel (other x.(who)) s.(eating) = 0) →
  (∀ v, half p = Some v → v = sel x.(who) s.(eating)) → p ≠ Panicked →
  inv (mkCm s.(eating) w' b' s.(lock) wt' s.(bowls) s.(eating_count) s.(CatMouseWait) s.(main_ps)
            (<[t:=mkThr x.(who) n m p]> s.(threads))).
Proof.
  intros Hx Hp Hdp Hd Hc H0 Hb Hcl Hh Hr.
  apply cm_inv_move with (x := x); try done.
  - intros k. rewrite Hc. destruct (bool_decide _), (counted (at_ x)); lia.
  - rewrite Hc. auto.
  - rewrite Hdp. lia.
  - pose proof (inv_ok _ Hi _ _ Ht) as [? ? ? ? ?]. split; simpl; auto.
    intros H. destruct (Hcl H); auto.
Qed.

(** [lock_acquire] of lock [i]. *)
Lemma inv_acquire i p :
  may_acquire t i s = true →
  (i = 0%nat ∧ bowl_of x.(at_) = None ∧ bowl_of p = None ∧ cleared p = false) ∨
    (∃ j, i = S j ∧ x.(at_) = AcqBowl j ∧ p = IncLoad j) →
  eats x.(at_) = false → eats p = false → is_done p = false → x.(at_) ≠ Done →
  counted x.(at_) = false → counted p = false → half p = None → p ≠ Panicked →
  inv (goto t x p (acquire t i s)).
Proof.
  intros (Hlt & Hkeep & Hown)%may_acquire_keeps Hcase Hx Hp Hdp Hd Hcx Hcp Hh Hr.
  unfold goto, acquire, set_thr, set_lock; simpl.
  apply cm_inv_move with (x := x); try done.
  - apply length_insert.
  - eauto.
  - intros k. rewrite Hcx, Hcp. destruct (bool_decide _); lia.
  - congruence.
  - rewrite Hdp. lia.
  - pose proof (inv_ok _ Hi _ _ Ht) as [? ? ? ? ?]. split; simpl; [| | |congruence|done].
    + intros _. destruct Hcase as [[-> _]|(j & -> & Hxj & ->)]; [done|]. rewrite Hxj in *. auto.
    + intros j Hj. destruct Hcase as [(_ & _ & ? & _)|(j' & -> & Hxj & ->)]; simplify_eq/=. done.
    + intros Hcl. destruct Hcase as [(_ & _ & _ & ?)|(j' & -> & Hxj & ->)]; [congruence|].
      rewrite Hxj in *. auto.
Qed.

(** [lock_release] of lock [i] by its holder. *)
Lemma inv_release n m i p wt' :
  s.(lock) !! i = Some (Some t) →
  (i = 0%nat ∧ bowl_of p = bowl_of x.(at_)) ∨ bowl_of p = None →
  eats x.(at_) = false → eats p = false → is_done p = false → x.(at_) ≠ Done →
  counted p = counted x.(at_) → holds0 p = false → half p = None → p ≠ Panicked →
  inv (mkCm s.(eating) s.(wchan) s.(bowl) (<[i:=None]> s.(lock)) wt' s.(bowls) s.(eating_count)
            s.(CatMouseWait) s.(main_ps) (<[t:=mkThr x.(who) n m p]> s.(threads))).
Proof.
  intros Hl Hcase Hx Hp Hdp Hd Hc H0 Hh Hr. apply cm_inv_move with (x := x); try done.
  - apply length_insert.
  - intros u i' Hne Hu. by apply (holds_release s t i); [apply holds_true|..].
  - intros k. rewrite Hc. destruct (bool_decide _), (counted (at_ x)); lia.
  - rewrite Hc. auto.
  - rewrite Hdp. lia.
  - pose proof (inv_ok _ Hi _ _ Ht) as [? Hb ? ? ?]. split; simpl; [congruence| | |congruence|done].
    + intros j Hj. destruct Hcase as [[-> Hcase]|?]; [|congruence]. rewrite Hj in Hcase.
      rewrite list_lookup_insert_ne by done. auto.
    + intros Hcl. by destruct p.
Qed.

(** The store of an update of a counter. *)
Lemma inv_store p z :
  half x.(at_) = Some (z - ((if counted p then 1 else 0) - (if counted x.(at_) then 1 else 0))) →
  (counted p = true → cleared x.(at_) = true) → eats p = false → is_done p = false →
  (holds0 p = true → holds0 x.(at_) = true) →
  bowl_of p = bowl_of x.(at_) → cleared p = false → half p = None → p ≠ Panicked →
  inv (goto t x p (set_eating (upd x.(who) z s.(eating)) s)).
Proof.
  intros Hz Hc Hp Hdp H0 Hb Hcl Hh Hr. pose proof (inv_ok _ Hi _ _ Ht) as [? ? ? Hv ?].
  pose proof (Hv _ Hz) as Hz'. apply (cm_inv_move s) with (x := x); try done.
  - by destruct (at_ x).
  - intros E. by rewrite E in Hz.
  - intros k. simpl. rewrite sel_upd. destruct (decide (who x = k)) as [<-|].
    + rewrite bool_decide_eq_true_2 by done. lia.
    + rewrite bool_decide_eq_false_2 by done. lia.
  - auto.
  - simpl. rewrite Hdp. lia.
  - split; simpl; [auto|rewrite Hb; auto|congruence|congruence|done].
Qed.

(** A step inside the meal. *)
Lemma inv_eat_move n m p bw c :
  counted x.(at_) = true → counted p = true → bowl_of p = bowl_of x.(at_) → is_done p = false →
  holds0 p = false → cleared p = false → half p = None → p ≠ Panicked →
  bowls_inv bw c (<[t:=mkThr x.(who) n m p]> s.(threads)) →
  inv (mkCm s.(eating) s.(wchan) s.(bowl) s.(lock) s.(waiting) bw c s.(CatMouseWait) s.(main_ps)
            (<[t:=mkThr x.(who) n m p]> s.(threads))).
Proof.
  intros Hcx Hcp Hb Hdp H0 Hcl Hh Hr Hbw. split; simpl; try apply Hi; [| |done|].
  - eapply (points_insert (ok s.(lock) s.(eating))); [apply Hi|done| |done].
    pose proof (inv_ok _ Hi _ _ Ht) as [? ? ? ? ?]. split; simpl; congruence || auto. rewrite Hb. auto.
  - intros k. rewrite (tokens_move _ _ _ _ x), Hcx, Hcp, (inv_eating _ Hi) by done.
    destruct (bool_decide _); lia.
  - rewrite (tokens_insert _ _ _ x), (inv_sem _ Hi) by done. unfold tok_done; simpl.
    rewrite Hdp. destruct (at_ x); simplify_eq/=; lia.
Qed.

(** The first critical section of [cat_eat] and [mouse_eat] goes through. *)
Lemma eat_start_ok j :
  x.(at_) = EatStart j → ∃ s', eat_start x.(who) (S j) s = Some s' ∧ inv (goto t x (EatEnd j) s').
Proof.
  intros Hx. pose proof (inv_ok _ Hi _ _ Ht) as [? Hlk ? ? ?]. rewrite Hx in Hlk.
  specialize (Hlk j eq_refl). pose proof (lookup_lt_Some _ _ _ Hlk) as Hj. rewrite (inv_locks _ Hi) in Hj.
  destruct (inv_bowls _ Hi) as [Hc Hb]. destruct s.(bowls) as [b|] eqn:Eb; last first.
  { rewrite (Hb x) in Hx by (by eapply list_elem_of_lookup_2). done. }
  destruct Hb as [Hl Hb]. assert (b !! j = Some None) as Hbj.
  { destruct (lookup_lt_is_Some_2 b j) as [[k|] Hk]; [lia| |done].
    apply Hb in Hk as (u & y & Hu & _ & Hy). pose proof (inv_ok _ Hi _ _ Hu) as [_ Hlu _ _ _].
    rewrite Hy in Hlu. specialize (Hlu j eq_refl). assert (u = t) as -> by congruence. congruence. }
  assert (sel (other x.(who)) s.(eating_count) = 0) as Hz.
  { pose proof (eating_excludes _ _ _ Hi Ht) as [_ Hz]; [by rewrite Hx|].
    rewrite (inv_eating _ Hi) in Hz. rewrite Hc. apply Z.le_antisymm.
    - rewrite <- Hz. apply tokens_mono. intros y. unfold tok.
      destruct (bool_decide _), (at_ y); simpl; lia.
    - apply tokens_nonneg. intros. apply tok_range. }
  eexists. split.
  { unfold eat_start. rewrite Eb; simpl. rewrite Nat.sub_0_r, Hbj, Hz.
    rewrite (proj2 (Nat.ltb_ge _ _)) by lia. reflexivity. }
  unfold goto, ate, set_thr, set_bowls; simpl. apply inv_eat_move; rewrite ?Hx; try done.
  apply bowls_inv_start; [|done|by rewrite Hx|done]. rewrite <- Eb. apply Hi.
Qed.

(** And so does the second. *)
Lemma eat_end_ok j :
  x.(at_) = EatEnd j → ∃ s', eat_end x.(who) (S j) s = Some s' ∧ inv (goto t (ate x) (DecLoad j) s').
Proof.
  intros Hx. pose proof (inv_ok _ Hi _ _ Ht) as [? Hlk ? ? ?]. rewrite Hx in Hlk.
  specialize (Hlk j eq_refl). pose proof (inv_bowls _ Hi) as [Hc Hb].
  destruct s.(bowls) as [b|] eqn:Eb; last first.
  { rewrite (Hb x) in Hx by (by eapply list_elem_of_lookup_2). done. }
  destruct Hb as [Hl Hb]. assert (b !! j = Some (Some x.(who))) as Hbj.
  { apply Hb. exists t. by rewrite (at_pc_eq _ _ x). }
  assert (0 < sel x.(who) s.(eating_count)) as Hz.
  { rewrite Hc. pose proof (tokens_ge (tok eats x.(who)) _ _ _ (λ y, proj1 (tok_range _ _ y)) Ht) as Hge.
    rewrite tok_own, Hx in Hge. simpl in Hge. lia. }
  eexists. split.
  { unfold eat_end. rewrite Eb; simpl. rewrite Nat.sub_0_r, Hbj, bool_decide_eq_true_2 by done.
    rewrite (proj2 (Z.gtb_lt _ _)) by lia. reflexivity. }
  unfold goto, ate, set_thr, set_bowls; simpl. apply inv_eat_move; rewrite ?Hx; try done.
  apply bowls_inv_end with (j := j); [rewrite <- Eb; apply Hi|done..|].
  intros u y Hu Hy. pose proof (inv_ok _ Hi _ _ Hu) as [_ Hlu _ _ _]. rewrite Hy in Hlu.
  specialize (Hlu j eq_refl). congruence.
Qed.

Lemma inv_finish : x.(at_) = Finish → inv (goto t x Done (set_sem (s.(CatMouseWait) + 1) s.(main_ps) s)).
Proof.
  intros Hx. apply (cm_inv_move s) with (x := x); rewrite ?Hx; try done.
  - intros k. simpl. destruct (bool_decide _); lia.
Qed.

(** The part before the meal. *)
Lemma inv_arrive s' :
  match x.(at_) with
  | Loop | Acq0 | TestOwn | TestOther | Wait | Asleep | SetFlag | Scan _ | AcqBowl _ => true
  | _ => false
  end = true → simulation t x s = Some s' → inv s'.
Proof.
  intros Hp Hs. pose proof (inv_ok _ Hi _ _ Ht) as [H0 ? ? ? ?].
  unfold simulation in Hs. destruct (at_ x) eqn:Hx; try done; simpl in *.
  - destruct (_ <? _)%nat; simplify_eq; apply inv_silent; rewrite ?Hx; done.
  - destruct (may_acquire _ _ _) eqn:E; simplify_eq.
    apply inv_acquire; rewrite ?Hx; try done. by left.
  - destruct (_ =? _); simplify_eq; apply inv_silent; rewrite ?Hx; done.
  - pose proof (eating_nonneg _ (other (who x)) Hi).
    destruct (Z.gtb_spec (sel (other (who x)) s.(eating)) 0); simplify_eq;
      apply inv_silent; rewrite ?Hx; try done. right. lia.
  - unfold or_panic, lock_release in Hs. rewrite (holds_true _ _ _ (H0 eq_refl)) in Hs. simplify_eq/=.
    apply inv_release; rewrite ?Hx; try done; auto.
  - case_bool_decide; [done|]. destruct (may_acquire _ _ _) eqn:E; simplify_eq.
    apply inv_acquire; rewrite ?Hx; try done. by left.
  - simplify_eq. apply inv_silent; rewrite ?Hx; done.
  - simplify_eq. destruct (_ <? _)%nat.
    + case_bool_decide; apply inv_silent; rewrite ?Hx; try done; auto.
    + apply inv_silent; rewrite ?Hx; done.
  - destruct (may_acquire _ _ _) eqn:E; simplify_eq.
    apply inv_acquire; rewrite ?Hx; try done. eauto.
Qed.

(** The meal and what follows it. *)
Lemma inv_simulation s' : simulation t x s = Some s' → inv s'.
Proof.
  intros Hs. pose proof (inv_ok _ Hi _ _ Ht) as [H0 Hb ? Hh Hr].
  assert (∀ z, half x.(at_) = Some z → z = sel x.(who) s.(eating)) as Hz by done.
  destruct (at_ x) eqn:Hx; try (apply inv_arrive; [by rewrite Hx|done]);
    unfold simulation in Hs; rewrite Hx in Hs; simpl in *;
    try (simplify_eq; apply inv_silent; rewrite ?Hx; simpl; solve [congruence | by auto]).
  - simplify_eq. apply inv_store; rewrite ?Hx; try done. simpl. f_equal. lia.
  - unfold or_panic, lock_release in Hs. rewrite (holds_true _ _ _ (H0 eq_refl)) in Hs. simplify_eq/=.
    apply inv_release; rewrite ?Hx; try done; auto.
  - destruct (eat_start_ok j Hx) as (s1 & E & Hs1). unfold or_panic in Hs. rewrite E in Hs. by simplify_eq.
  - destruct (eat_end_ok j Hx) as (s1 & E & Hs1). unfold or_panic in Hs. rewrite E in Hs. by simplify_eq.
  - simplify_eq. apply inv_store; rewrite ?Hx; try done. simpl. f_equal. lia.
  - destruct (sel _ _); simplify_eq; apply inv_silent; rewrite ?Hx; done.
  - destruct (_ =? _); simplify_eq; apply inv_silent; rewrite ?Hx; done.
  - unfold lock_release in Hs. rewrite (holds_true _ _ _ (Hb _ eq_refl)) in Hs. simplify_eq/=.
    apply inv_release; rewrite ?Hx; try done; auto.
  - simplify_eq. by apply inv_finish.
Qed.
End step.

Lemma cm_inv_step s s' : inv s → cm_step_quiet s s' → inv s'.
Proof.
  intros Hi [[t|] Hq He]; simpl in He.
  - unfold thread_step in He. destruct (s.(threads) !! t) as [x|] eqn:Ht; [|done].
    apply (inv_simulation s t x); [done..|].
    destruct x as [[] i m p]; apply He.
  - unfold catmouse_wait in He. destruct (Nat.ltb_spec s.(main_ps) (length s.(threads))).
    + destruct (Z.gtb_spec s.(CatMouseWait) 0); simplify_eq.
      split; simpl; try apply Hi; [|lia]. rewrite <- (inv_sem _ Hi). lia.
    + case_bool_decide; simplify_eq. split; simpl; try apply Hi.
      split; [apply Hi|]. intros x Hx.
      assert (tok_done x = 1) as Hd; [|unfold tok_done in Hd; by destruct (at_ x)].
      apply (tokens_full tok_done s.(threads)); [|rewrite <- (inv_sem _ Hi)|done].
      * intros y. unfold tok_done. destruct (is_done _); lia.
      * pose proof (inv_wait _ Hi). lia.
Qed.

Lemma inv_start NumCats NumMice : (0 < NumBowls)%nat → inv (catmouse_start NumCats NumMice).
Proof.
  intros Hn. assert (∀ x, x ∈ (catmouse_start NumCats NumMice).(threads) → x.(at_) = Loop) as Hl.
  { simpl. intros x [Hx|Hx]%elem_of_app; by apply elem_of_replicate in Hx as [-> _]. }
  assert (∀ f k, f Loop = false → tokens (tok f k) (catmouse_start NumCats NumMice).(threads) = 0) as Hz.
  { intros f k Hf. apply tokens_zero. intros x Hx. unfold tok. rewrite (Hl x Hx), Hf.
    by rewrite andb_false_r. }
  unfold catmouse_start, initialize_bowls in *. split.
  - intros t x Ht%list_elem_of_lookup_2. apply Hl in Ht. by split; rewrite Ht.
  - simpl. by rewrite length_replicate.
  - intros k. rewrite Hz by done. by destruct k.
  - intros []; by left.
  - simpl. rewrite bool_decide_eq_false_2 by lia. split; [intros k; rewrite Hz by done; by destruct k|].
    rewrite Nat2Z.id, length_replicate. split; [done|]. intros j k. split.
    + intros Hj%lookup_replicate. naive_solver.
    + intros (t & x & Ht%list_elem_of_lookup_2 & _ & Hx). apply Hl in Ht. congruence.
  - simpl. rewrite tokens_zero; [done|]. intros x Hx. unfold tok_done. by rewrite (Hl x Hx).
  - simpl. lia.
Qed.

Lemma inv_reachable_quiet NumCats NumMice s :
  (0 < NumBowls)%nat → rtc cm_step_quiet (catmouse_start NumCats NumMice) s → inv s.
Proof.
  intros Hn Hr. eapply rtc_ind_r; [by apply inv_start|intros; by eapply cm_inv_step|done].
Qed.

(** A thread is in [cat_eat] or [mouse_eat], at its bowl. *)
Definition eating_at (s : cm) (t : nat) (k : kind) (j : nat) : Prop :=
  at_pc s.(threads) t (λ x, x.(who) = k ∧ x.(at_) = EatEnd j).
End simulation.

Lemma catmouse_args_range nargs arg p :
  catmouse_args nargs arg = Some p →
  0 < p.(p_NumBowls) ∧ 0 ≤ p.(p_NumCats) ∧ 0 ≤ p.(p_NumMice) ∧ 0 < p.(p_NumLoops).
Proof.
  unfold catmouse_args. destruct (_ && _); [done|].
  destruct (Z.leb_spec (arg 1%nat) 0); [done|]. destruct (Z.ltb_spec (arg 2%nat) 0); [done|].
  destruct (Z.ltb_spec (arg 3%nat) 0); [done|]. destruct (Z.leb_spec (arg 4%nat) 0); [done|].
  intros [= <-]. simpl. lia.
Qed.

(** What [catmouse] starts from its arguments, and how it goes on. *)
Definition catmouse (p : params) : cm :=
  catmouse_start (Z.to_nat p.(p_NumBowls)) (Z.to_nat p.(p_NumCats)) (Z.to_nat p.(p_NumMice)).
Definition catmouse_run (p : params) : relation cm :=
  cm_step_quiet (Z.to_nat p.(p_NumBowls)) (Z.to_nat p.(p_NumLoops)).

(** C36. Cats and mice keep the rules: with any arguments [catmouse] accepts, in
    every run that does not split the update of a counter between two threads,
    no check of [cat_eat] and [mouse_eat] and no assertion of a lock ever fails,
    no cat eats while a mouse does, no two threads eat from one bowl, and the
    bowls are freed only when every thread has finished. *)
Theorem catmouse_rules (nargs : Z) (arg : nat → Z) (p : params) (s : cm) :
  catmouse_args nargs arg = Some p → rtc (catmouse_run p) (catmouse p) s →
  (∀ t x, s.(threads) !! t = Some x → x.(at_) ≠ Panicked) ∧
  (∀ t u i j, ¬ (eating_at s t Cat i ∧ eating_at s u Mouse j)) ∧
  (∀ t u k k' j, eating_at s t k j → eating_at s u k' j → t = u) ∧
  (s.(bowls) = None → ∀ x, x ∈ s.(threads) → x.(at_) = Done).
Proof.
  intros (Hn & _)%catmouse_args_range Hr.
  assert (inv (Z.to_nat p.(p_NumBowls)) s) as Hi by (eapply inv_reachable_quiet, Hr; lia).
  split_and!.
  - intros t x Ht. apply (inv_ok _ _ Hi _ _ Ht).
  - intros t u i j [(x & Ht & Hk & Hx) (y & Hu & Hk' & Hy)].
    destruct (eating_excludes _ _ _ _ Hi Ht) as [H1 _]; [by rewrite Hx|].
    destruct (eating_excludes _ _ _ _ Hi Hu) as [_ H2]; [by rewrite Hy|].
    rewrite Hk in H1. rewrite Hk' in H2. simpl in *. lia.
  - intros t u k k' j (x & Ht & _ & Hx) (y & Hu & _ & Hy).
    destruct (inv_ok _ _ Hi _ _ Ht) as [_ H1 _ _ _], (inv_ok _ _ Hi _ _ Hu) as [_ H2 _ _ _].
    rewrite Hx in H1. rewrite Hy in H2. specialize (H1 j eq_refl). specialize (H2 j eq_refl). congruence.
  - intros Hb. destruct (inv_bowls _ _ Hi) as [_ Hd]. by rewrite Hb in Hd.
Qed.

(** Two cats at two bowls, with a mouse waiting for them. *)
Lemma catmouse_rules_witness :
  let arg := λ n : nat, match n with 1%nat | 2%nat => 2 | _ => 1 end in
  ∃ p s, catmouse_args 5 arg = Some p ∧ rtc (catmouse_run p) (catmouse p) s ∧
    eating_at s 0 Cat 0 ∧ eating_at s 1 Cat 1 ∧ ¬ eating_at s 2 Mouse 0.
Proof.
  intros arg. eexists (mkParams 2 2 1 1 None).
  destruct (exec_quiet 2 1 (replicate 11 (Thread 0) ++ replicate 12 (Thread 1) ++ replicate 5 (Thread 2))
              (catmouse (mkParams 2 2 1 1 None))) as [s|] eqn:E; [|by vm_compute in E].
  exists s. assert (rtc (catmouse_run (mkParams 2 2 1 1 None)) (catmouse (mkParams 2 2 1 1 None)) s) as Hr.
  { by eapply (cm_exec_quiet_rtc 2 1). }
  assert (eating_at s 0 Cat 0) as H0. { vm_compute in E. injection E as <-. eexists. by split. }
  split_and!; [reflexivity|done|done| |].
  - vm_compute in E. injection E as <-. eexists. by split.
  - intros Hm. destruct (catmouse_rules 5 arg (mkParams 2 2 1 1 None) s eq_refl Hr) as (_ & Hx & _).
    exact (Hx 0%nat 2%nat 0%nat 0%nat (conj H0 Hm)).
Defined.

(** The update of [eating_cats] after a meal is not protected: when it falls
    between the load and the store of another cat's, a count is lost, and a mouse
    is let in while a cat eats; the check of [mouse_eat] panics. *)
Lemma catmouse_race :
  ∃ s, rtc (cm_step 2 1) (catmouse_start 2 2 1) s ∧ sel Cat s.(eating) = 0 ∧ eating_at s 1 Cat 1 ∧
    at_pc s.(threads) 2 (λ x, x.(at_) = Panicked).
Proof.
  destruct (exec 2 1 (replicate 12 (Thread 0) ++ replicate 8 (Thread 1) ++
              [Thread 0; Thread 1; Thread 0; Thread 1; Thread 1; Thread 1] ++
              replicate 7 (Thread 0) ++ replicate 11 (Thread 2)) (catmouse_start 2 2 1))
    as [s|] eqn:E; [|by vm_compute in E].
  exists s. split; [by eapply cm_exec_rtc|]. vm_compute in E. injection E as <-.
  split_and!; [done|eexists; by split..].
Qed.

(** A cat that looks for a bowl after another has been taken off [eating_cats]
    and before its bowl is marked free finds none: it skips the meal and ends
    with [lock[0]], so the next cat and the driver wait for ever. *)
Lemma catmouse_skipped_meal :
  ∃ s, rtc (cm_step_quiet 1 1) (catmouse_start 1 3 0) s ∧ (∀ e, exec_event 1 1 e s = None) ∧
    s.(lock) !! 0%nat = Some (Some 1%nat) ∧
    s.(threads) !! 1%nat = Some (mkThr Cat 1 0 Done) ∧
    s.(threads) !! 2%nat = Some (mkThr Cat 0 0 Acq0).
Proof.
  destruct (exec_quiet 1 1 (replicate 14 (Thread 0) ++ replicate 8 (Thread 1) ++ replicate 9 (Thread 0) ++
              [Thread 2; Main; Main]) (catmouse_start 1 3 0)) as [s|] eqn:E; [|by vm_compute in E].
  exists s. split; [by eapply cm_exec_quiet_rtc|]. vm_compute in E. injection E as <-.
  split_and!; [|done..]. by intros [[|[|[|t]]]|].
Qed.

(** The broadcast after a meal is made without [lock[0]], so it can come between
    a mouse's test and its [cv_wait]: the mouse sleeps for ever, and no one eats. *)
Lemma catmouse_lost_wakeup :
  ∃ s, rtc (cm_step_quiet 1 1) (catmouse_start 1 1 1) s ∧ (∀ e, exec_event 1 1 e s = None) ∧
    s.(eating) = mkBoth 0 0 ∧
    s.(threads) = [mkThr Cat 1 1 Done; mkThr Mouse 0 0 Asleep].
Proof.
  destruct (exec_quiet 1 1 (replicate 11 (Thread 0) ++ replicate 4 (Thread 1) ++ replicate 12 (Thread 0) ++
              [Thread 1; Main]) (catmouse_start 1 1 1)) as [s|] eqn:E; [|by vm_compute in E].
  exists s. split; [by eapply cm_exec_quiet_rtc|]. vm_compute in E. injection E as <-.
  split_and!; [|done..]. by intros [[|[|t]]|].
Qed.

End CatMouse.
