(* ===== verification/Coremap.v ===== *)
(** Physical memory: the boot-time allocator (kern/arch/mips/vm/ram.c) and the
    coremap (kern/vm/coremap.c).

    One state, [pmm], holds the globals of both files and the contents of
    physical memory as a function from byte addresses to bytes.  [ramtop] is the
    amount of memory the machine has: an access above it is a bus error.
    Addresses are 32-bit; [mycpu] is the processor that runs ([None] before
    [curcpu] exists), which the spinlock [stealmem_lock] records. *)

From Stdlib Require Import ZArith Lia.
From stdpp Require Import base numbers list.
From S2P Require Import Prelude Spinlock.

Inductive frame_state := FREE | USED.
Inductive frame_owner := NO | KERNEL | USER.

Record frame := Frame { f_pa : Z; f_state : frame_state; f_owner : frame_owner; f_page_num : Z }.

#[export] Instance frame_state_eq_dec : EqDecision frame_state.
Proof. solve_decision. Defined.
#[export] Instance frame_owner_eq_dec : EqDecision frame_owner.
Proof. solve_decision. Defined.
#[export] Instance frame_eq_dec : EqDecision frame.
Proof. solve_decision. Defined.

Record pmm := Pmm {
  coremaps : list frame;
  coremap_size : Z;
  page_start : Z;
  ref_ : Z;
  after_init : bool;
  stealmem_lock : spinlock;
  paddr_max : Z;
  pvictim : Z;
  firstpaddr : Z;
  lastpaddr : Z;
  ramtop : Z;
  pmem : Z → Z;
}.

Definition set_coremaps (l : list frame) (s : pmm) : pmm :=
  Pmm l s.(coremap_size) s.(page_start) s.(ref_) s.(after_init) s.(stealmem_lock) s.(paddr_max)
      s.(pvictim) s.(firstpaddr) s.(lastpaddr) s.(ramtop) s.(pmem).
Definition set_ref (r : Z) (s : pmm) : pmm :=
  Pmm s.(coremaps) s.(coremap_size) s.(page_start) r s.(after_init) s.(stealmem_lock) s.(paddr_max)
      s.(pvictim) s.(firstpaddr) s.(lastpaddr) s.(ramtop) s.(pmem).
Definition set_lock (l : spinlock) (s : pmm) : pmm :=
  Pmm s.(coremaps) s.(coremap_size) s.(page_start) s.(ref_) s.(after_init) l s.(paddr_max)
      s.(pvictim) s.(firstpaddr) s.(lastpaddr) s.(ramtop) s.(pmem).
Definition set_pvictim (v : Z) (s : pmm) : pmm :=
  Pmm s.(coremaps) s.(coremap_size) s.(page_start) s.(ref_) s.(after_init) s.(stealmem_lock)
      s.(paddr_max) v s.(firstpaddr) s.(lastpaddr) s.(ramtop) s.(pmem).
Definition set_ram (fp lp : Z) (s : pmm) : pmm :=
  Pmm s.(coremaps) s.(coremap_size) s.(page_start) s.(ref_) s.(after_init) s.(stealmem_lock)
      s.(paddr_max) s.(pvictim) fp lp s.(ramtop) s.(pmem).
Definition set_pmem (m : Z → Z) (s : pmm) : pmm :=
  Pmm s.(coremaps) s.(coremap_size) s.(page_start) s.(ref_) s.(after_init) s.(stealmem_lock)
      s.(paddr_max) s.(pvictim) s.(firstpaddr) s.(lastpaddr) s.(ramtop) m.
Definition set_page_start (a : Z) (s : pmm) : pmm :=
  Pmm s.(coremaps) s.(coremap_size) a s.(ref_) s.(after_init) s.(stealmem_lock)
      s.(paddr_max) s.(pvictim) s.(firstpaddr) s.(lastpaddr) s.(ramtop) s.(pmem).
Definition set_after_init (s : pmm) : pmm :=
  Pmm s.(coremaps) s.(coremap_size) s.(page_start) s.(ref_) true s.(stealmem_lock)
      s.(paddr_max) s.(pvictim) s.(firstpaddr) s.(lastpaddr) s.(ramtop) s.(pmem).

(** ** ram.c *)

(** [firstfree] is what start.S saved, [ramsize] what the bus reports. *)
Definition MIPS_KSEG0 : Z := 0x80000000.
Definition ram_bootstrap (firstfree ramsize : Z) : M pmm unit :=
  let ramsize := if ramsize >? 508 * 1024 * 1024 then 508 * 1024 * 1024 else ramsize in
  modify (set_ram (u32 (firstfree - MIPS_KSEG0)) ramsize).

Definition ram_stealmem (npages : Z) : M pmm Z :=
  s ← get;
  let size := u32 (npages * PAGE_SIZE) in
  if u32 (s.(firstpaddr) + size) >? s.(lastpaddr) then mret 0
  else
    let paddr := s.(firstpaddr) in
    modify (set_ram (u32 (s.(firstpaddr) + size)) s.(lastpaddr));;
    mret paddr.

Definition ram_getsize : M pmm (Z * Z) :=
  s ← get;
  modify (set_ram 0 0);;
  mret (s.(firstpaddr), s.(lastpaddr)).

(** ** coremap.c *)

(** [bzero((void * )PADDR_TO_KVADDR(pa), n)]. *)
Definition bzero (pa n : Z) : M pmm unit :=
  s ← get;
  if (0 <=? pa) && (pa + n <=? s.(ramtop))
  then modify (set_pmem (λ a, if (pa <=? a) && (a <? pa + n) then 0 else s.(pmem) a))
  else fault.

(** [coremaps[i]], read and written. *)
Definition frame_at (i : Z) : M pmm frame :=
  s ← get; of_opt (zlookup s.(coremaps) i).
Definition frame_put (i : Z) (f : frame → frame) : M pmm unit :=
  s ← get;
  c ← of_opt (zlookup s.(coremaps) i);
  l ← of_opt (zupd s.(coremaps) i (f c));
  modify (set_coremaps l).

Definition set_state (x : frame_state) (c : frame) : frame := Frame c.(f_pa) x c.(f_owner) c.(f_page_num).
Definition set_run (owner : frame_owner) (n : Z) (c : frame) : frame := Frame c.(f_pa) c.(f_state) owner n.
Definition free_frame (c : frame) : frame := Frame c.(f_pa) FREE NO 0.

Definition init_coremap (freeaddr : Z) : M pmm unit :=
  modify (set_page_start freeaddr);;
  s ← get;
  for_up (Z.to_nat s.(coremap_size)) 0 (λ i,
    frame_put i (λ _, Frame (u32 (freeaddr + i * PAGE_SIZE)) FREE NO 0));;
  modify set_after_init;;
  modify (set_pvictim 0).

Definition lock_stealmem (mycpu : option nat) : M pmm unit :=
  zoom stealmem_lock set_lock (spinlock_acquire mycpu).
Definition unlock_stealmem (mycpu : option nat) : M pmm unit :=
  zoom stealmem_lock set_lock (spinlock_release mycpu).

Definition reset_coremap (mycpu : option nat) : M pmm unit :=
  lock_stealmem mycpu;;
  s ← get;
  for_up (Z.to_nat s.(coremap_size)) 0 (λ i,
    c ← frame_at i;
    when (bool_decide (c.(f_owner) = USER))
      (frame_put i free_frame;; bzero c.(f_pa) PAGE_SIZE));;
  unlock_stealmem mycpu.

(** [freeppages] computes [index] and [psize] before it takes the lock. *)
Definition freeppages (mycpu : option nat) (paddr : Z) : M pmm unit :=
  s ← get;
  let index := u32 (paddr - s.(page_start)) / PAGE_SIZE in
  c ← frame_at index;
  let psize := c.(f_page_num) in
  lock_stealmem mycpu;;
  for_up (Z.to_nat psize) 0 (λ i,
    frame_put (i + index) free_frame;;
    c ← frame_at (i + index);
    bzero c.(f_pa) PAGE_SIZE);;
  unlock_stealmem mycpu.

(** The scan of [find_free_frame]: the address where the current run of free
    frames starts, and the index of the frame that completes a run of [npages]. *)
Fixpoint find_run (n : nat) (i current_size rpa npages : Z) : M pmm (Z * option Z) :=
  match n with
  | O => mret (rpa, None)
  | S n =>
      c ← frame_at i;
      if decide (c.(f_state) = FREE) then
        let rpa := if current_size =? 0 then c.(f_pa) else rpa in
        if current_size + 1 =? npages then mret (rpa, Some i)
        else find_run n (i + 1) (current_size + 1) rpa npages
      else find_run n (i + 1) 0 rpa npages
  end.

Definition mark_run (i npages : Z) (owner : frame_owner) : M pmm unit :=
  for_up (Z.to_nat npages) 0 (λ j,
    frame_put (i - j) (set_state USED);;
    frame_put i (set_run owner npages)).

(** [while (1)]: the next used frame from [index] on, round the table. *)
Fixpoint next_used (fuel : nat) (index : Z) : M pmm Z :=
  match fuel with
  | O => diverge
  | S fuel =>
      s ← get;
      let index := if index >=? s.(coremap_size) then 0 else index in
      c ← frame_at index;
      if decide (c.(f_state) = USED) then mret index else next_used fuel (index + 1)
  end.

Definition find_free_frame (mycpu : option nat) (npages : Z) (owner : frame_owner) : M pmm Z :=
  s ← get;
  r ← find_run (Z.to_nat s.(coremap_size)) 0 0 0 npages;
  match r with
  | (rpa, Some i) =>
      mark_run i npages owner;;
      when (s.(ref_) =? -1) (modify (set_ref i));;
      mret rpa
  | (rpa, None) =>
      if s.(after_init) then
        c ← frame_at s.(ref_);
        modify (set_pvictim c.(f_pa));;
        freeppages mycpu c.(f_pa);;
        index ← next_used (Z.to_nat (2 * s.(coremap_size) + 1)) s.(ref_);
        modify (set_ref index);;
        mret c.(f_pa)
      else mret rpa
  end.

Definition getppages (mycpu : option nat) (npages : Z) (owner : frame_owner) : M pmm Z :=
  lock_stealmem mycpu;;
  s ← get;
  let steal addr :=
    addr ← (if (addr =? 0) && negb s.(after_init) then ram_stealmem npages else mret addr);
    unlock_stealmem mycpu;;
    mret addr in
  if npages >? 0 then
    addr ← find_free_frame mycpu npages owner;
    if addr >=? u32 (s.(paddr_max) - 4096) then unlock_stealmem mycpu;; mret 0
    else steal addr
  else steal 0.

(** ** Runs of free frames *)

(** Frames [k .. k+n-1] exist and are free. *)
Definition free_at (l : list frame) (k n : Z) : Prop :=
  0 ≤ k ∧ ∀ j, k ≤ j < k + n → ∃ c, zlookup l j = Some c ∧ c.(f_state) = FREE.

(** The lowest run of [n] free frames. *)
Definition first_free (l : list frame) (k n : Z) : Prop :=
  free_at l k n ∧ ∀ k', k' < k → ¬ free_at l k' n.

(** The table after frames [k .. k+n-1] are handed out: only the last of them
    records the owner and the length of the run. *)
Definition marked (l : list frame) (k m n : Z) (owner : frame_owner) : list frame :=
  imap (λ idx c,
    let i := Z.of_nat idx in
    if (k <=? i) && (i <? k + m) then
      if i =? k + m - 1 then Frame c.(f_pa) USED owner n
      else Frame c.(f_pa) USED c.(f_owner) c.(f_page_num)
    else c) l.
Definition allocated (l : list frame) (k n : Z) (owner : frame_owner) : list frame :=
  marked l k n n owner.

Record cm_wf (s : pmm) : Prop := CmWf {
  wf_len : Z.of_nat (length s.(coremaps)) = s.(coremap_size);
  wf_pa : ∀ i c, zlookup s.(coremaps) i = Some c → c.(f_pa) = s.(page_start) + i * PAGE_SIZE;
  wf_start : 0 < s.(page_start) ∧ s.(page_start) mod PAGE_SIZE = 0;
  wf_fits : s.(page_start) + s.(coremap_size) * PAGE_SIZE ≤ W32;
  wf_max : PAGE_SIZE ≤ s.(paddr_max) ≤ s.(ramtop) ∧ s.(ramtop) < W32;
  wf_free : ∀ i c, zlookup s.(coremaps) i = Some c → c.(f_state) = FREE →
            c.(f_owner) = NO ∧ c.(f_page_num) = 0;
  wf_lock : s.(stealmem_lock) = SPINLOCK_INITIALIZER;
  wf_init : s.(after_init) = true;
  wf_ref : s.(ref_) = -1 ∨ 0 ≤ s.(ref_) < s.(coremap_size);
}.

Lemma frame_at_ret i s c : zlookup s.(coremaps) i = Some c → frame_at i s = Ret c s.
Proof. intros H. unfold frame_at, get, mbind, M_bind. by rewrite H. Qed.

(** *** The scan *)

Lemma find_run_spec s np : 1 ≤ np →
  ∀ n i cur rpa,
  Z.of_nat (length s.(coremaps)) = i + Z.of_nat n → 0 ≤ cur < np → cur ≤ i →
  (∀ j, i - cur ≤ j < i → ∃ c, zlookup s.(coremaps) j = Some c ∧ c.(f_state) = FREE) →
  (0 < i - cur → ∃ c, zlookup s.(coremaps) (i - cur - 1) = Some c ∧ c.(f_state) = USED) →
  (∀ k, k + np ≤ i → ¬ free_at s.(coremaps) k np) →
  (0 < cur → ∃ c, zlookup s.(coremaps) (i - cur) = Some c ∧ rpa = c.(f_pa)) →
  ∃ r, find_run n i cur rpa np s = Ret r s ∧
    match r with
    | (a, Some e) => ∃ k c, e = k + np - 1 ∧ first_free s.(coremaps) k np ∧
                            zlookup s.(coremaps) k = Some c ∧ a = c.(f_pa)
    | (_, None) => ∀ k, ¬ free_at s.(coremaps) k np
    end.
Proof.
  intros Hnp. induction n as [|n IH]; intros i cur rpa Hlen Hcur Hci Hrun Hbefore Hnone Hrpa.
  { exists (rpa, None). split; [done|]. intros k Hk. apply (Hnone k); [|done].
    destruct Hk as [Hk0 Hk]. destruct (Hk (k + np - 1)) as (c & Hc & _); [lia|].
    apply zlookup_Some_lt in Hc. lia. }
  destruct (zlookup_is_Some s.(coremaps) i) as [c Hc]; [lia|].
  cbn [find_run]. unfold mbind, M_bind. rewrite (frame_at_ret _ _ _ Hc).
  assert (∀ k, free_at s.(coremaps) k np → k + np = i + 1 → k = i + 1 - np) by lia.
  case_decide as Hf.
  - assert (∀ j, i + 1 - (cur + 1) ≤ j < i + 1 → ∃ c, zlookup (coremaps s) j = Some c ∧ f_state c = FREE) as Hrun'.
    { intros j Hj. destruct (decide (j = i)) as [-> |]; [eauto|apply Hrun; lia]. }
    assert (∃ c', zlookup (coremaps s) (i - cur) = Some c' ∧
              (if cur =? 0 then f_pa c else rpa) = f_pa c') as Hstart.
    { destruct (Z.eqb_spec cur 0) as [-> |]; [exists c; by rewrite Z.sub_0_r|apply Hrpa; lia]. }
    destruct (Z.eqb_spec (cur + 1) np) as [E|E].
    + eexists. split; [reflexivity|]. destruct Hstart as (c' & Hc' & Hpa).
      exists (i - cur), c'. split_and!; [lia| |done..]. split.
      * split; [lia|]. intros j Hj. apply Hrun'. lia.
      * intros k' Hk' Hfree. destruct (Z.le_gt_cases (k' + np) i); [by apply (Hnone k')|].
        destruct Hfree as [Hk0 Hfree]. destruct (Hfree (i - cur - 1)) as (c1 & Hc1 & Hs1); [lia|].
        destruct Hbefore as (c2 & Hc2 & Hs2); [lia|]. congruence.
    + apply IH; [lia|lia|lia|exact Hrun'| | |].
      * replace (i + 1 - (cur + 1) - 1) with (i - cur - 1) by lia. intros. apply Hbefore. lia.
      * intros k Hk Hfree. destruct (Z.le_gt_cases (k + np) i); [by apply (Hnone k)|].
        destruct Hfree as [Hk0 Hfree]. destruct (Hfree (i - cur - 1)) as (c1 & Hc1 & Hs1); [lia|].
        destruct Hbefore as (c2 & Hc2 & Hs2); [lia|]. congruence.
      * intros _. replace (i + 1 - (cur + 1)) with (i - cur) by lia. exact Hstart.
  - assert (f_state c = USED) as Hu by (by destruct (f_state c)).
    apply IH; [lia|lia|lia|lia| | |lia].
    + intros _. exists c. by replace (i + 1 - 0 - 1) with i by lia.
    + intros k Hk Hfree. destruct (Z.le_gt_cases (k + np) i); [by apply (Hnone k)|].
      destruct Hfree as [Hk0 Hfree]. destruct (Hfree i) as (c1 & Hc1 & Hs1); [lia|]. congruence.
Qed.

(** *** Marking the run *)

Lemma zlookup_imap {A B} (f : nat → A → B) l i :
  zlookup (imap f l) i = f (Z.to_nat i) <$> zlookup l i.
Proof. unfold zlookup. case_match; [by rewrite list_lookup_imap|done]. Qed.

Lemma frame_put_ret i f s c :
  zlookup s.(coremaps) i = Some c →
  frame_put i f s = Ret tt (set_coremaps (<[Z.to_nat i := f c]> s.(coremaps)) s).
Proof.
  intros H. pose proof (zlookup_Some_lt _ _ _ H). unfold frame_put, get, mbind, M_bind.
  by rewrite H; simpl; rewrite zupd_Some by done.
Qed.

Lemma wp_frame_put i f s c Q :
  zlookup s.(coremaps) i = Some c →
  Q tt (set_coremaps (<[Z.to_nat i := f c]> s.(coremaps)) s) → wp (frame_put i f) Q s.
Proof. intros H HQ. eapply wp_intro; [by apply frame_put_ret|done]. Qed.

Lemma zlookup_marked l k m n owner i :
  zlookup (marked l k m n owner) i =
  (λ c, if (k <=? i) && (i <? k + m) then
          if i =? k + m - 1 then Frame c.(f_pa) USED owner n
          else Frame c.(f_pa) USED c.(f_owner) c.(f_page_num)
        else c) <$> zlookup l i.
Proof.
  unfold marked. rewrite zlookup_imap. destruct (zlookup l i) as [c|] eqn:E; [|done].
  apply zlookup_Some_lt in E. simpl. by rewrite Z2Nat.id by lia.
Qed.

Lemma length_marked l k m n owner : length (marked l k m n owner) = length l.
Proof. apply length_imap. Qed.

Lemma marked_nil l k n owner : marked l k 0 n owner = l.
Proof.
  apply zlist_eq. intros i. rewrite zlookup_marked. destruct (zlookup l i); [|done]. simpl. f_equal.
  zbool.
Qed.

Lemma mark_run_ret s k n owner :
  1 ≤ n → 0 ≤ k → k + n ≤ Z.of_nat (length s.(coremaps)) →
  mark_run (k + n - 1) n owner s = Ret tt (set_coremaps (allocated s.(coremaps) k n owner) s).
Proof.
  intros Hn Hk Hlen. set (e := k + n - 1).
  destruct (wp_inv (mark_run e n owner) (λ _ s', s' = set_coremaps (allocated s.(coremaps) k n owner) s) s)
    as ([] & s' & -> & ->); [|done].
  unfold mark_run.
  apply (wp_for_up (λ j s', s' = set_coremaps (marked s.(coremaps) (e - j + 1) j n owner) s)).
  - rewrite marked_nil. by destruct s.
  - intros j s' Hj ->. apply wp_bind.
    destruct (zlookup_is_Some s.(coremaps) (e - j)) as [c Hc]; [lia|].
    destruct (zlookup_is_Some s.(coremaps) e) as [ce Hce]; [lia|].
    eapply wp_frame_put; simpl; [by rewrite zlookup_marked, Hc|].
    destruct (decide (j = 0)) as [-> |Hj0].
    + rewrite marked_nil in *. rewrite Z.sub_0_r in *. simplify_eq.
      eapply wp_frame_put; simpl; [rewrite zlookup_insert, Z.eqb_refl by lia; reflexivity|].
      unfold set_coremaps; simpl. f_equal. rewrite list_insert_insert_eq. apply zlist_eq. intros i.
      rewrite zlookup_insert, zlookup_marked by lia.
      destruct (Z.eqb_spec e i) as [<- |]; [rewrite Hc; simpl; zbool|].
      destruct (zlookup (coremaps s) i); simpl; zbool.
    + eapply wp_frame_put; simpl.
      { rewrite zlookup_insert, (proj2 (Z.eqb_neq _ _)), zlookup_marked, Hce by (rewrite ?length_marked; lia).
        reflexivity. }
      unfold set_coremaps; simpl. f_equal. apply zlist_eq. intros i.
      rewrite !zlookup_insert, !zlookup_marked by (rewrite ?length_insert, ?length_marked; lia).
      destruct (Z.eqb_spec e i) as [<- |]; [rewrite Hce; simpl; zbool|].
      destruct (Z.eqb_spec (e - j) i) as [<- |]; [rewrite Hc; simpl; zbool|].
      destruct (zlookup (coremaps s) i); simpl; zbool.
  - intros s' ->. unfold allocated. do 2 f_equal; lia.
Qed.

(** *** The lock *)

Lemma lock_stealmem_ret mycpu s :
  s.(stealmem_lock) = SPINLOCK_INITIALIZER →
  lock_stealmem mycpu s = Ret tt (set_lock (Spinlock 1 mycpu) s).
Proof. intros H. unfold lock_stealmem, zoom. rewrite H. by destruct mycpu. Qed.

Lemma unlock_stealmem_ret mycpu s :
  s.(stealmem_lock) = Spinlock 1 mycpu →
  unlock_stealmem mycpu s = Ret tt (set_lock SPINLOCK_INITIALIZER s).
Proof.
  intros H. unfold unlock_stealmem, zoom. rewrite H.
  destruct mycpu as [c|]; [|done]. unfold spinlock_release, get, mbind, M_bind, kassert; simpl.
  by rewrite bool_decide_true.
Qed.

Lemma lock_stealmem_again c s :
  s.(stealmem_lock) = Spinlock 1 (Some c) → lock_stealmem (Some c) s = Panic s.
Proof.
  intros H. unfold lock_stealmem, zoom. rewrite H.
  unfold spinlock_acquire, get, mbind, M_bind; simpl. rewrite bool_decide_true by done. simpl.
  rewrite <- H. by destruct s.
Qed.

(** *** Handing out frames *)

(** The state after the run at [k] is handed out. *)
Definition gave (s : pmm) (k n : Z) (owner : frame_owner) : pmm :=
  set_ref (if s.(ref_) =? -1 then k + n - 1 else s.(ref_))
    (set_coremaps (allocated s.(coremaps) k n owner) s).

Lemma first_free_bounds s k n : 1 ≤ n → free_at s.(coremaps) k n →
  0 ≤ k ∧ k + n ≤ Z.of_nat (length s.(coremaps)).
Proof.
  intros Hn [Hk Hf]. split; [done|]. destruct (Hf (k + n - 1)) as (c & Hc & _); [lia|].
  apply zlookup_Some_lt in Hc. lia.
Qed.

Lemma gave_wf s k n owner : cm_wf s → 1 ≤ n → free_at s.(coremaps) k n → cm_wf (gave s k n owner).
Proof.
  intros Hwf Hn Hfree. destruct (first_free_bounds _ _ _ Hn Hfree) as [Hk Hkn].
  destruct Hwf. split; simpl; try done.
  - by unfold allocated; rewrite length_marked.
  - intros i c. unfold allocated. rewrite zlookup_marked. intros (c0 & Hc0 & ->)%fmap_Some.
    rewrite <- (wf_pa0 _ _ Hc0). by repeat case_match.
  - intros i c. unfold allocated. rewrite zlookup_marked. intros (c0 & Hc0 & ->)%fmap_Some.
    repeat case_match; try done. eauto.
  - zbool.
Qed.

Lemma find_free_frame_found mycpu s k n owner :
  Z.of_nat (length s.(coremaps)) = s.(coremap_size) → 1 ≤ n → first_free s.(coremaps) k n →
  ∃ c, zlookup s.(coremaps) k = Some c ∧
       find_free_frame mycpu n owner s = Ret c.(f_pa) (gave s k n owner).
Proof.
  intros Hlen Hn [Hfree Hleast].
  destruct (find_run_spec s n Hn (Z.to_nat s.(coremap_size)) 0 0 0) as ([a [e|]] & Hr & Hpost); try lia.
  { intros k' Hk' [Hk0 _]. lia. }
  2: { by destruct (Hpost k). }
  destruct Hpost as (k' & c & -> & [Hfree' Hleast'] & Hc & ->).
  assert (k' = k) as ->.
  { destruct (Z.lt_trichotomy k k') as [H|[H|H]]; [by destruct (Hleast' _ H)|done|by destruct (Hleast _ H)]. }
  exists c. split; [done|]. destruct (first_free_bounds _ _ _ Hn Hfree) as [Hk Hkn].
  unfold find_free_frame, get, mbind, M_bind. rewrite Hr, mark_run_ret by lia.
  unfold gave. destruct (s.(ref_) =? -1) eqn:E; unfold when, modify; simpl; [done|]. by destruct s.
Qed.

Lemma find_free_frame_none c s n owner :
  cm_wf (set_lock SPINLOCK_INITIALIZER s) → s.(stealmem_lock) = Spinlock 1 (Some c) → 1 ≤ n →
  (∀ k, ¬ free_at s.(coremaps) k n) →
  find_free_frame (Some c) n owner s =
    if s.(ref_) =? -1 then Fault
    else Panic (set_pvictim (s.(page_start) + s.(ref_) * PAGE_SIZE) s).
Proof.
  intros Hwf Hl Hn Hnone. destruct Hwf; simpl in *.
  destruct (find_run_spec s n Hn (Z.to_nat s.(coremap_size)) 0 0 0) as ([a [e|]] & Hr & Hpost); try lia.
  { intros k' Hk' [Hk0 _]. lia. }
  { destruct Hpost as (k & ? & _ & [Hk _] & _). by destruct (Hnone k). }
  unfold find_free_frame, get, mbind, M_bind. rewrite Hr, wf_init0. destruct (Z.eqb_spec s.(ref_) (-1)) as [E|E].
  { rewrite E. unfold frame_at, get, mbind, M_bind. done. }
  destruct (zlookup_is_Some s.(coremaps) s.(ref_)) as [f Hf]; [lia|].
  rewrite (frame_at_ret _ _ _ Hf). rewrite (wf_pa0 _ _ Hf). simpl.
  unfold freeppages, get, mbind, M_bind; simpl.
  unfold PAGE_SIZE, W32 in *.
  replace (s.(page_start) + s.(ref_) * 4096 - s.(page_start)) with (s.(ref_) * 4096) by lia.
  rewrite u32_small by (unfold W32; lia). rewrite Z.div_mul by lia.
  rewrite (frame_at_ret _ (set_pvictim _ s) _ Hf). rewrite lock_stealmem_again by done. done.
Qed.

Lemma getppages_ret c n owner s k :
  cm_wf s → 1 ≤ n → first_free s.(coremaps) k n →
  getppages (Some c) n owner s =
    Ret (let a := s.(page_start) + k * PAGE_SIZE in if a >=? s.(paddr_max) - 4096 then 0 else a)
        (gave s k n owner).
Proof.
  intros Hwf Hn Hk.
  destruct (find_free_frame_found (Some c) (set_lock (Spinlock 1 (Some c)) s) k n owner)
    as (f & Hf & Hr); [apply Hwf|done|done|].
  unfold getppages, get, mbind, M_bind, mret, M_ret. rewrite lock_stealmem_ret by apply Hwf.
  destruct (Z.gtb_spec n 0); [|lia]. rewrite Hr. simpl. rewrite (wf_pa _ Hwf _ _ Hf).
  pose proof (wf_max _ Hwf). pose proof (wf_start _ Hwf). pose proof (zlookup_Some_lt _ _ _ Hf).
  unfold PAGE_SIZE, W32 in *. rewrite u32_small by (unfold W32; lia).
  assert (unlock_stealmem (Some c) (gave (set_lock (Spinlock 1 (Some c)) s) k n owner)
          = Ret tt (gave s k n owner)) as Hu.
  { rewrite unlock_stealmem_ret by done. unfold gave; simpl. rewrite <- (wf_lock _ Hwf). by destruct s. }
  destruct (Z.geb_spec (s.(page_start) + k * 4096) (s.(paddr_max) - 4096)).
  - by rewrite Hu.
  - rewrite (wf_init _ Hwf), andb_false_r. by rewrite Hu.
Qed.

Lemma getppages_none c s n owner :
  cm_wf s → 1 ≤ n → (∀ k, ¬ free_at s.(coremaps) k n) →
  getppages (Some c) n owner s =
    if s.(ref_) =? -1 then Fault
    else Panic (set_pvictim (s.(page_start) + s.(ref_) * PAGE_SIZE) (set_lock (Spinlock 1 (Some c)) s)).
Proof.
  intros Hwf Hn Hnone. unfold getppages, get, mbind, M_bind. rewrite lock_stealmem_ret by apply Hwf.
  destruct (Z.gtb_spec n 0); [|lia].
  rewrite find_free_frame_none; [by destruct (_ =? -1)| |done..].
  replace (set_lock SPINLOCK_INITIALIZER (set_lock (Spinlock 1 (Some c)) s)) with s; [done|].
  rewrite <- (wf_lock _ Hwf). by destruct s.
Qed.

(** C29. First fit: from a well-formed coremap, a request for [n] pages takes
    the lowest run of [n] free frames, marks exactly that run used and leaves
    the coremap well formed; the address is that of the first frame, or 0 when
    that frame is the last page of memory or lies above it (the run stays
    marked all the same).  With no such run the request does not come back: the
    replacement path takes the coremap's spinlock a second time, which panics
    (before the first allocation it indexes the table with -1). *)
Theorem getppages_first_fit (c : nat) (n : Z) (owner : frame_owner) (s : pmm) :
  cm_wf s → 1 ≤ n →
  (∀ k, first_free s.(coremaps) k n →
     getppages (Some c) n owner s =
       Ret (let a := s.(page_start) + k * PAGE_SIZE in if a >=? s.(paddr_max) - 4096 then 0 else a)
           (gave s k n owner) ∧
     cm_wf (gave s k n owner)) ∧
  ((∀ k, ¬ free_at s.(coremaps) k n) →
     getppages (Some c) n owner s =
       if s.(ref_) =? -1 then Fault
       else Panic (set_pvictim (s.(page_start) + s.(ref_) * PAGE_SIZE)
                     (set_lock (Spinlock 1 (Some c)) s))).
Proof.
  intros Hwf Hn. split.
  - intros k Hk. split; [by apply getppages_ret|by apply gave_wf; [..|apply Hk]].
  - intros Hnone. by apply getppages_none.
Qed.

(** *** Giving frames back *)

(** The table after frames [k .. k+n-1] are freed. *)
Definition freed (l : list frame) (k n : Z) : list frame :=
  imap (λ idx c, if (k <=? Z.of_nat idx) && (Z.of_nat idx <? k + n) then free_frame c else c) l.

Lemma zlookup_freed l k n i :
  zlookup (freed l k n) i =
  (λ c, if (k <=? i) && (i <? k + n) then free_frame c else c) <$> zlookup l i.
Proof.
  unfold freed. rewrite zlookup_imap. destruct (zlookup l i) as [c|] eqn:E; [|done].
  apply zlookup_Some_lt in E. simpl. by rewrite Z2Nat.id by lia.
Qed.

Definition zeroed (m : Z → Z) (pa n : Z) : Z → Z :=
  λ a, if (pa <=? a) && (a <? pa + n) then 0 else m a.

Lemma bzero_ret pa n s :
  0 ≤ pa → pa + n ≤ s.(ramtop) → bzero pa n s = Ret tt (set_pmem (zeroed s.(pmem) pa n) s).
Proof.
  intros H1 H2. unfold bzero, get, mbind, M_bind.
  rewrite (proj2 (Z.leb_le _ _) H1), (proj2 (Z.leb_le _ _) H2). done.
Qed.

(** The loop of [freeppages]: [n] frames from [k] on, all inside memory. *)
Lemma free_loop_ret s k n :
  cm_wf (set_lock SPINLOCK_INITIALIZER s) → 0 ≤ k → 0 ≤ n → k + n ≤ s.(coremap_size) →
  s.(page_start) + (k + n) * PAGE_SIZE ≤ s.(ramtop) →
  ∃ m, for_up (Z.to_nat n) 0 (λ i, frame_put (i + k) free_frame;;
         c ← frame_at (i + k); bzero c.(f_pa) PAGE_SIZE) s =
       Ret tt (set_pmem m (set_coremaps (freed s.(coremaps) k n) s)) ∧
       ∀ a, m a = zeroed s.(pmem) (s.(page_start) + k * PAGE_SIZE) (n * PAGE_SIZE) a.
Proof.
  intros Hwf Hk Hn Hkn Hram. destruct Hwf; simpl in *. unfold PAGE_SIZE in *.
  edestruct (wp_inv (for_up (Z.to_nat n) 0 (λ i, frame_put (i + k) free_frame;;
         c ← frame_at (i + k); bzero c.(f_pa) 4096))
    (λ _ s', ∃ m, s' = set_pmem m (set_coremaps (freed s.(coremaps) k n) s) ∧
       ∀ a, m a = zeroed s.(pmem) (s.(page_start) + k * 4096) (n * 4096) a) s)
    as ([] & s' & Hr & m & -> & Hm); [|eauto].
  apply (wp_for_up (λ j s', ∃ m, s' = set_pmem m (set_coremaps (freed s.(coremaps) k j) s) ∧
    ∀ a, m a = zeroed s.(pmem) (s.(page_start) + k * 4096) (j * 4096) a)).
  - exists s.(pmem). split.
    + replace (freed s.(coremaps) k 0) with s.(coremaps); [by destruct s|].
      apply zlist_eq. intros i. rewrite zlookup_freed. destruct (zlookup _ i); simpl; [f_equal|done]. zbool.
    + intros a. unfold zeroed. zbool.
  - intros j s' Hj (m & -> & Hm). apply wp_bind.
    destruct (zlookup_is_Some s.(coremaps) (j + k)) as [c Hc]; [lia|].
    assert (Z.of_nat (length (freed s.(coremaps) k j)) = s.(coremap_size)) as Hl
      by (unfold freed; rewrite length_imap; lia).
    eapply wp_frame_put; simpl.
    { rewrite zlookup_freed, Hc. simpl. rewrite (proj2 (Z.ltb_ge (j + k) (k + j))) by lia.
      rewrite andb_false_r. reflexivity. }
    apply wp_bind. eapply wp_intro.
    { apply frame_at_ret. simpl. rewrite zlookup_insert, Z.eqb_refl by lia. reflexivity. }
    simpl. rewrite (wf_pa0 _ _ Hc). unfold PAGE_SIZE.
    eapply wp_intro; [apply bzero_ret; simpl; lia|].
    eexists. split.
    + unfold set_pmem, set_coremaps; simpl. f_equal. apply zlist_eq. intros i.
      rewrite zlookup_insert, !zlookup_freed by lia.
      destruct (Z.eqb_spec (j + k) i) as [<- |]; [rewrite Hc; simpl; zbool|].
      destruct (zlookup (coremaps s) i); simpl; zbool.
    + intros a. unfold zeroed in *; simpl. rewrite Hm. zbool.
  - intros s' (m & -> & Hm). rewrite Z.add_0_l, Z2Nat.id in * by lia. eauto.
Qed.

Lemma freeppages_ret c0 s k n c :
  cm_wf s → zlookup s.(coremaps) k = Some c → c.(f_page_num) = n → 0 ≤ n → k + n ≤ s.(coremap_size) →
  s.(page_start) + (k + n) * PAGE_SIZE ≤ s.(ramtop) →
  ∃ m, freeppages (Some c0) (s.(page_start) + k * PAGE_SIZE) s =
       Ret tt (set_pmem m (set_coremaps (freed s.(coremaps) k n) s)) ∧
       ∀ a, m a = zeroed s.(pmem) (s.(page_start) + k * PAGE_SIZE) (n * PAGE_SIZE) a.
Proof.
  intros Hwf Hc Hn Hn0 Hkn Hram. pose proof (zlookup_Some_lt _ _ _ Hc) as Hk.
  pose proof (wf_len _ Hwf). pose proof (wf_fits _ Hwf). pose proof (wf_start _ Hwf).
  assert (set_lock SPINLOCK_INITIALIZER (set_lock (Spinlock 1 (Some c0)) s) = s) as Hs
    by (rewrite <- (wf_lock _ Hwf); by destruct s).
  destruct (free_loop_ret (set_lock (Spinlock 1 (Some c0)) s) k n) as (m & Hloop & Hm); simpl; try done; try lia.
  { by rewrite Hs. }
  exists m. split; [|done].
  unfold freeppages. rewrite get_bind.
  replace (s.(page_start) + k * PAGE_SIZE - s.(page_start)) with (k * PAGE_SIZE) by lia.
  rewrite u32_small, Z.div_mul by (unfold PAGE_SIZE, W32 in *; lia).
  rewrite (bind_Ret _ _ _ _ _ (frame_at_ret _ _ _ Hc)), Hn.
  erewrite bind_Ret by (apply lock_stealmem_ret, Hwf).
  rewrite (bind_Ret _ _ _ _ _ Hloop), unlock_stealmem_ret by done.
  simpl. rewrite <- (wf_lock _ Hwf). by destruct s.
Qed.

(** The table with one frame handed out and taken back. *)
Lemma freed_allocated_one l k c owner :
  zlookup l k = Some c → c = Frame c.(f_pa) FREE NO 0 → freed (allocated l k 1 owner) k 1 = l.
Proof.
  intros Hk Hc. apply zlist_eq. intros i. unfold allocated. rewrite zlookup_freed, zlookup_marked.
  destruct (decide (i = k)) as [-> |Hne].
  - rewrite Hk. simpl. zbool. by rewrite Hc.
  - destruct (zlookup l i); simpl; zbool.
Qed.

Lemma wf_free_frame s k c : cm_wf s → zlookup s.(coremaps) k = Some c → c.(f_state) = FREE →
  c = Frame c.(f_pa) FREE NO 0.
Proof. intros Hwf Hk Hs. destruct (wf_free _ Hwf _ _ Hk Hs) as [<- <-]. rewrite <- Hs. by destruct c. Qed.

(** Page round trip: a single page that was handed out lies inside memory,
    and giving it back restores the coremap exactly; the page is zeroed and no
    other byte of memory changes. *)
Theorem getppages_freeppages (c : nat) (owner : frame_owner) (s s1 : pmm) (k a : Z) :
  cm_wf s → first_free s.(coremaps) k 1 →
  getppages (Some c) 1 owner s = Ret a s1 → a ≠ 0 →
  a + PAGE_SIZE < s.(paddr_max) ∧
  ∃ s2, freeppages (Some c) a s1 = Ret tt s2 ∧ s2.(coremaps) = s.(coremaps) ∧
    ∀ x, s2.(pmem) x = if (a <=? x) && (x <? a + PAGE_SIZE) then 0 else s.(pmem) x.
Proof.
  intros Hwf Hk Hget Ha. pose proof Hk as [Hf _].
  destruct (first_free_bounds s k 1 ltac:(lia) Hf) as [Hk0 Hkl].
  destruct Hf as [_ Hf]. destruct (Hf k) as (f & Hfk & Hfs); [lia|].
  rewrite (getppages_ret c 1 owner s k) in Hget by done. cbn zeta in Hget.
  destruct (Z.geb_spec (s.(page_start) + k * PAGE_SIZE) (s.(paddr_max) - 4096)) as [|Hlt];
    injection Hget as <- <-; [done|].
  pose proof (wf_max _ Hwf). pose proof (wf_len _ Hwf). split; [unfold PAGE_SIZE in *; lia|].
  assert (zlookup (gave s k 1 owner).(coremaps) k = Some (Frame f.(f_pa) USED owner 1)) as Hk1.
  { simpl. unfold allocated. rewrite zlookup_marked, Hfk. simpl. zbool. }
  destruct (freeppages_ret c (gave s k 1 owner) k 1 _ (gave_wf s k 1 owner Hwf ltac:(lia) (proj1 Hk)) Hk1)
    as (m & Hfree & Hm); simpl in *; [done|lia|lia|unfold PAGE_SIZE in *; lia|].
  exists (set_pmem m (set_coremaps (freed (allocated s.(coremaps) k 1 owner) k 1) (gave s k 1 owner))).
  split; [done|]. split.
  - simpl. apply (freed_allocated_one _ _ f); [done|]. by eapply wf_free_frame.
  - intros x. simpl. rewrite Hm. unfold zeroed. by rewrite Z.mul_1_l.
Qed.

(** Runs of two or more pages are never given back: [freeppages] on the
    address [getppages] returned for such a run finds a length of zero in the
    first frame and changes nothing, so every frame of the run stays used. *)
Theorem multi_page_run_leaks (c : nat) (n : Z) (owner : frame_owner) (s : pmm) (k : Z) :
  cm_wf s → 2 ≤ n → free_at s.(coremaps) k n →
  freeppages (Some c) (s.(page_start) + k * PAGE_SIZE) (gave s k n owner) =
    Ret tt (gave s k n owner) ∧
  ∀ i, k ≤ i < k + n → ∃ f, zlookup (gave s k n owner).(coremaps) i = Some f ∧ f.(f_state) = USED.
Proof.
  intros Hwf Hn Hfree. destruct (first_free_bounds s k n ltac:(lia) Hfree) as [Hk0 Hkl].
  destruct Hfree as [_ Hfree]. split.
  - destruct (Hfree k) as (f & Hfk & Hfs); [lia|].
    pose proof (wf_free_frame _ _ _ Hwf Hfk Hfs) as Hf.
    assert (zlookup (gave s k n owner).(coremaps) k = Some (Frame f.(f_pa) USED NO 0)) as Hk1.
    { simpl. unfold allocated. rewrite zlookup_marked, Hfk, Hf. simpl. zbool. }
    assert (cm_wf (gave s k n owner)) as Hwf' by (apply gave_wf; [done|lia|done]).
    pose proof (wf_fits _ Hwf). pose proof (wf_start _ Hwf). pose proof (wf_len _ Hwf).
    unfold freeppages. rewrite get_bind. simpl.
    replace (s.(page_start) + k * PAGE_SIZE - s.(page_start)) with (k * PAGE_SIZE) by lia.
    rewrite u32_small, Z.div_mul by (unfold PAGE_SIZE, W32 in *; lia).
    rewrite (bind_Ret _ _ _ _ _ (frame_at_ret _ _ _ Hk1)). simpl.
    erewrite bind_Ret by (apply lock_stealmem_ret, Hwf').
    erewrite (bind_Ret (for_up _ _ _)) by reflexivity.
    rewrite unlock_stealmem_ret by done. unfold gave; simpl. rewrite <- (wf_lock _ Hwf). by destruct s.
  - intros i Hi. destruct (Hfree i) as (f & Hf & _); [lia|].
    simpl. unfold allocated. rewrite zlookup_marked, Hf. simpl. eexists. split; [done|].
    rewrite (proj2 (Z.leb_le k i)), (proj2 (Z.ltb_lt i (k + n))) by lia. by destruct (_ =? _).
Qed.

(** ** Setting the coremap up *)

Definition fresh_frames (freeaddr : Z) (n : nat) : list frame :=
  (λ i, Frame (freeaddr + Z.of_nat i * PAGE_SIZE) FREE NO 0) <$> seq 0 n.

Lemma zlookup_fresh freeaddr n i c :
  zlookup (fresh_frames freeaddr n) i = Some c ↔
  0 ≤ i < Z.of_nat n ∧ c = Frame (freeaddr + i * PAGE_SIZE) FREE NO 0.
Proof.
  unfold zlookup, fresh_frames. destruct (Z.leb_spec 0 i); [|split; [done|lia]].
  rewrite list_lookup_fmap, fmap_Some. setoid_rewrite lookup_seq. split.
  - intros (j & [-> Hj] & ->). split; [lia|]. f_equal. unfold PAGE_SIZE. lia.
  - intros [Hi ->]. exists (Z.to_nat i). split; [lia|]. f_equal. unfold PAGE_SIZE. lia.
Qed.

Lemma init_coremap_ret freeaddr s :
  Z.of_nat (length s.(coremaps)) = s.(coremap_size) → 0 ≤ freeaddr →
  freeaddr + s.(coremap_size) * PAGE_SIZE ≤ W32 →
  init_coremap freeaddr s =
    Ret tt (set_pvictim 0 (set_after_init (set_coremaps
      (fresh_frames freeaddr (Z.to_nat s.(coremap_size))) (set_page_start freeaddr s)))).
Proof.
  intros Hlen Hf Hfit. unfold init_coremap. mrun. rewrite get_bind. simpl.
  set (s0 := set_page_start freeaddr s). set (N := Z.to_nat s.(coremap_size)).
  edestruct (wp_inv (for_up N 0 (λ i, frame_put i (λ _, Frame (u32 (freeaddr + i * PAGE_SIZE)) FREE NO 0)))
    (λ _ s', s' = set_coremaps (fresh_frames freeaddr N) s0) s0) as ([] & s' & Hr & ->);
    [|by rewrite (bind_Ret _ _ _ _ _ Hr)].
  apply (wp_for_up (λ j s', ∃ l, s' = set_coremaps l s0 ∧ length l = N ∧
    ∀ i c, 0 ≤ i < j → zlookup l i = Some c → c = Frame (freeaddr + i * PAGE_SIZE) FREE NO 0)).
  - exists s.(coremaps). split_and!; [by destruct s|lia|lia].
  - intros j s' Hj (l & -> & Hl & Hlk). destruct (zlookup_is_Some l j) as [c Hc]; [lia|].
    eapply wp_frame_put; [exact Hc|]. eexists. split; [reflexivity|]. simpl.
    split; [by rewrite length_insert|]. intros i c' Hi. rewrite zlookup_insert by lia.
    rewrite u32_small by (unfold PAGE_SIZE, W32 in *; lia).
    destruct (Z.eqb_spec j i) as [<- |]; [by intros [= <-]|apply Hlk; lia].
  - intros s' (l & -> & Hl & Hlk). unfold set_coremaps; simpl. f_equal. apply zlist_eq. intros i.
    destruct (zlookup l i) as [c|] eqn:E; symmetry.
    + pose proof (zlookup_Some_lt _ _ _ E). apply zlookup_fresh. split; [lia|]. apply Hlk; [lia|done].
    + destruct (zlookup (fresh_frames freeaddr N) i) as [c|] eqn:E'; [|done].
      apply zlookup_fresh in E' as [Hi _]. destruct (zlookup_is_Some l i); [lia|]. congruence.
Qed.

(** Setting up: [init_coremap] on a table of [coremap_size] entries, at a
    page-aligned address from which that many pages can be addressed, leaves a
    well-formed coremap in which every frame is free, so that the first
    single-page request is served from frame 0. *)
Lemma init_coremap_wf (freeaddr : Z) (s : pmm) :
  Z.of_nat (length s.(coremaps)) = s.(coremap_size) →
  0 < freeaddr → freeaddr mod PAGE_SIZE = 0 →
  freeaddr + s.(coremap_size) * PAGE_SIZE ≤ W32 →
  PAGE_SIZE ≤ s.(paddr_max) ≤ s.(ramtop) → s.(ramtop) < W32 →
  s.(stealmem_lock) = SPINLOCK_INITIALIZER → s.(ref_) = -1 →
  ∃ s1, init_coremap freeaddr s = Ret tt s1 ∧ cm_wf s1 ∧
    (∀ n, 1 ≤ n ≤ s.(coremap_size) → first_free s1.(coremaps) 0 n) ∧
    s1.(page_start) = freeaddr ∧ s1.(coremap_size) = s.(coremap_size).
Proof.
  intros Hlen Hpos Hal Hfit Hmax Htop Hlock Href. eexists. split; [apply init_coremap_ret; [done|lia|done]|].
  split_and!; [split; simpl|..|done|done].
  - unfold fresh_frames. rewrite length_fmap, length_seq. lia.
  - by intros i c [_ ->]%zlookup_fresh.
  - done.
  - done.
  - done.
  - by intros i c [_ ->]%zlookup_fresh.
  - done.
  - done.
  - by left.
  - intros n Hn; simpl. split; [|by intros k Hk [Hk0 _]; lia]. split; [lia|].
    intros j Hj. eexists. split; [apply zlookup_fresh; split; [lia|reflexivity]|done].
Qed.

(** Eight frames at 64k, of which the last two lie above the memory. *)
Definition example_raw : pmm :=
  Pmm (replicate 8 (Frame 0 USED KERNEL 7)) 8 0 (-1) false SPINLOCK_INITIALIZER
      0x16000 0 0 0 0x16000 (λ _, 170).
Definition example_pmm : pmm :=
  Pmm (fresh_frames 0x10000 8) 8 0x10000 (-1) true SPINLOCK_INITIALIZER 0x16000 0 0 0 0x16000 (λ _, 170).

Lemma init_coremap_wf_witness :
  ∃ s1, init_coremap 0x10000 example_raw = Ret tt s1 ∧ cm_wf s1.
Proof.
  destruct (init_coremap_wf 0x10000 example_raw) as (s1 & H & Hwf & _); try reflexivity; try done.
  exists s1. split; assumption.
Defined.

Lemma example_wf : cm_wf example_pmm.
Proof.
  split; simpl; try done.
  - by intros i c [_ ->]%(zlookup_fresh 0x10000 8).
  - by intros i c [_ ->]%(zlookup_fresh 0x10000 8).
  - by left.
Qed.

Lemma example_free k n : 0 ≤ k → 1 ≤ n → k + n ≤ 8 → free_at example_pmm.(coremaps) k n.
Proof.
  intros. split; [done|]. intros j Hj. eexists. split; [apply (zlookup_fresh 0x10000 8); split; [lia|reflexivity]|done].
Qed.

Lemma example_first n : 1 ≤ n ≤ 8 → first_free example_pmm.(coremaps) 0 n.
Proof. intros. split; [apply example_free; lia|]. intros k Hk [Hk0 _]. lia. Qed.

Lemma getppages_first_fit_witness :
  getppages (Some 0%nat) 3 KERNEL example_pmm = Ret 0x10000 (gave example_pmm 0 3 KERNEL) ∧
  (∃ s, getppages (Some 0%nat) 9 KERNEL (set_ref 0 example_pmm) = Panic s).
Proof.
  split.
  - exact (proj1 (proj1 (getppages_first_fit 0 3 KERNEL example_pmm example_wf ltac:(lia)) 0
             (example_first 3 ltac:(lia)))).
  - eexists. refine (proj2 (getppages_first_fit 0 9 KERNEL (set_ref 0 example_pmm) _ _) _).
    + destruct example_wf. split; simpl; try assumption. right. lia.
    + lia.
    + intros k [Hk0 Hk]. destruct (Hk (k + 8)) as (c & Hc & _); [lia|].
      apply zlookup_Some_lt in Hc. simpl in Hc. lia.
Defined.

Lemma getppages_freeppages_witness :
  ∃ s2, freeppages (Some 0%nat) 0x10000 (gave example_pmm 0 1 USER) = Ret tt s2 ∧
        s2.(coremaps) = example_pmm.(coremaps).
Proof.
  destruct (getppages_freeppages 0 USER example_pmm (gave example_pmm 0 1 USER) 0 0x10000 example_wf
    (example_first 1 ltac:(lia))) as (_ & s2 & H & Hc & _).
  - exact (getppages_ret 0 1 USER example_pmm 0 example_wf ltac:(lia) (example_first 1 ltac:(lia))).
  - done.
  - exists s2. split; assumption.
Defined.

Lemma multi_page_run_leaks_witness :
  freeppages (Some 0%nat) 0x10000 (gave example_pmm 0 2 KERNEL) = Ret tt (gave example_pmm 0 2 KERNEL).
Proof.
  exact (proj1 (multi_page_run_leaks 0 2 KERNEL example_pmm 0 example_wf ltac:(lia)
    (example_free 0 2 ltac:(lia) ltac:(lia) ltac:(lia)))).
Defined.
