(* ===== verification/Addrspace.v ===== *)
(** Address spaces: page-table entries (kern/vm/pt.c) and the address-space
    operations of kern/vm/addrspace.c that do not touch the TLB.

    An [addrspace] is passed by value: an operation of the code that updates its
    argument returns the updated record.  [pt1], [pt2], [pt3] are NULL ([None])
    or arrays of entries.  The block [kmalloc] returns is not initialised:
    [as_create] is given its previous contents [raw] and overwrites the fields
    the code overwrites. *)

From Stdlib Require Import ZArith Lia.
From stdpp Require Import base numbers list.
From S2P Require Import Prelude Spinlock Coremap.

Record pte := Pte { pfn : Z; valid : Z; dirty : Z; p_ref : Z; sw : Z }.

#[export] Instance pte_eq_dec : EqDecision pte.
Proof. solve_decision. Defined.

Definition pte_create (pfn valid dirty : Z) : pte := Pte pfn valid dirty 0 (-1).

(** [sizeof(struct pte)] and the stack's size. *)
Definition sizeof_pte : Z := 20.
Definition STACKPAGES : Z := 12.

Record addrspace := Addrspace {
  as_vbase1 : Z; as_npages1 : Z; as_flag1 : Z;
  as_vbase2 : Z; as_npages2 : Z; as_flag2 : Z;
  vn : Z;
  offset1 : Z; offset2 : Z; filesz1 : Z; filesz2 : Z; is_exec1 : Z; is_exec2 : Z;
  pt1 : option (list pte); pt2 : option (list pte); pt3 : option (list pte);
}.

Definition set_region1 (b n f : Z) (p : option (list pte)) (a : addrspace) : addrspace :=
  Addrspace b n f a.(as_vbase2) a.(as_npages2) a.(as_flag2) a.(vn) a.(offset1) a.(offset2)
    a.(filesz1) a.(filesz2) a.(is_exec1) a.(is_exec2) p a.(pt2) a.(pt3).
Definition set_region2 (b n f : Z) (p : option (list pte)) (a : addrspace) : addrspace :=
  Addrspace a.(as_vbase1) a.(as_npages1) a.(as_flag1) b n f a.(vn) a.(offset1) a.(offset2)
    a.(filesz1) a.(filesz2) a.(is_exec1) a.(is_exec2) a.(pt1) p a.(pt3).
Definition set_pt3 (p : option (list pte)) (a : addrspace) : addrspace :=
  Addrspace a.(as_vbase1) a.(as_npages1) a.(as_flag1) a.(as_vbase2) a.(as_npages2) a.(as_flag2)
    a.(vn) a.(offset1) a.(offset2) a.(filesz1) a.(filesz2) a.(is_exec1) a.(is_exec2)
    a.(pt1) a.(pt2) p.

(** [find_pte]: the loop has no bound; past the end of the table it reads
    whatever follows. *)
Fixpoint find_pte_from (l : list pte) (i pa : Z) : option Z :=
  match l with
  | [] => None
  | e :: l => if e.(pfn) =? pa then Some i else find_pte_from l (i + 1) pa
  end.
Definition find_pte {S} (a : addrspace) (pa segment : Z) : M S Z :=
  let ptTemp := if segment =? 1 then a.(pt1) else if segment =? 2 then a.(pt2) else a.(pt3) in
  match ptTemp with
  | None => mret 0
  | Some l => of_opt (find_pte_from l 0 pa)
  end.

(** ** alloc_kpages, free_kpages (vm.c) *)

Definition PADDR_TO_KVADDR (pa : Z) : Z := u32 (pa + MIPS_KSEG0).

Definition alloc_kpages (mycpu : option nat) (npages : Z) : M pmm Z :=
  pa ← getppages mycpu npages KERNEL;
  if pa =? 0 then mret 0 else mret (PADDR_TO_KVADDR pa).

Definition free_kpages (mycpu : option nat) (addr : Z) : M pmm unit :=
  freeppages mycpu (u32 (addr - 0x80000000)).

(** ** addrspace.c *)

(** [k1], [k2]: whether the two calls of [kmalloc] succeed.  The second is not
    checked before the table is filled in. *)
Definition as_create {S} (k1 k2 : bool) (raw : addrspace) : M S (option addrspace) :=
  if negb k1 then mret None
  else
    let a := set_region1 0 0 raw.(as_flag1) None (set_region2 0 0 raw.(as_flag2) None raw) in
    if negb k2 then fault
    else mret (Some (set_pt3 (Some (replicate (Z.to_nat STACKPAGES) (pte_create 0 0 0))) a)).

Definition as_prepare_load {S} (a : addrspace) : M S Z := mret 0.
Definition as_complete_load {S} (a : addrspace) : M S Z := mret 0.

Definition USERSTACK : Z := 0x80000000.
Definition as_define_stack {S} (a : addrspace) : M S (Z * Z) := mret (0, USERSTACK).

Definition as_copy {S} (k1 k2 : bool) (raw old : addrspace) : M S (Z + addrspace) :=
  new ← as_create k1 k2 raw;
  match new with
  | None => mret (inl ENOMEM)
  | Some a =>
      let a := set_region1 old.(as_vbase1) old.(as_npages1) a.(as_flag1) a.(pt1) a in
      let a := set_region2 old.(as_vbase2) old.(as_npages2) a.(as_flag2) a.(pt2) a in
      r ← as_prepare_load a;
      if negb (r =? 0) then mret (inl ENOMEM) else mret (inr a)
  end.

(** The page table of a new region: [pnum] pages from [alloc_kpages], which may
    have returned NULL, filled with [npages] empty entries. *)
Definition new_page_table (mycpu : option nat) (npages : Z) : M pmm (option (list pte)) :=
  let bytes := u32 (npages * sizeof_pte) in
  let pnum := if negb (bytes mod PAGE_SIZE =? 0) then bytes / PAGE_SIZE + 1 else bytes / PAGE_SIZE in
  kv ← alloc_kpages mycpu pnum;
  if kv =? 0 then if npages =? 0 then mret None else fault
  else mret (Some (replicate (Z.to_nat npages) (pte_create 0 0 0))).

Definition as_define_region (mycpu : option nat) (a : addrspace)
    (vaddr sz readable writeable executable : Z) : M pmm (Z * addrspace) :=
  let sz := u32 (sz + Z.land vaddr (u32 (Z.lnot PAGE_FRAME))) in
  let vaddr := Z.land vaddr PAGE_FRAME in
  let sz := Z.land (u32 (sz + PAGE_SIZE - 1)) PAGE_FRAME in
  let npages := sz / PAGE_SIZE in
  let flags := Z.lor (Z.lor readable writeable) executable in
  if a.(as_vbase1) =? 0 then
    p ← new_page_table mycpu npages;
    mret (0, set_region1 vaddr npages flags p a)
  else if a.(as_vbase2) =? 0 then
    p ← new_page_table mycpu npages;
    mret (0, set_region2 vaddr npages flags p a)
  else mret (EUNIMP, a).

(** ** Regions *)

Definition PF_X : Z := 1.
Definition PF_W : Z := 2.
Definition PF_R : Z := 4.

(** Every entry is unmapped and in no swap slot. *)
Definition blank (p : option (list pte)) (npages : Z) : Prop :=
  p = Some (replicate (Z.to_nat npages) (pte_create 0 0 0)).

Lemma land_offset x : 0 ≤ x < W32 → Z.land x (u32 (Z.lnot PAGE_FRAME)) = x mod 4096.
Proof.
  intros Hx. change (u32 (Z.lnot PAGE_FRAME)) with (Z.ones 12). rewrite Z.land_ones by lia. done.
Qed.

(** The page-aligned region that [as_define_region] computes. *)
Definition region_base (vaddr : Z) : Z := vaddr / 4096 * 4096.
Definition region_pages (vaddr sz : Z) : Z := (sz + vaddr mod 4096 + 4095) / 4096.

Lemma region_covers vaddr sz :
  0 ≤ vaddr → 0 ≤ sz →
  region_base vaddr mod 4096 = 0 ∧ region_base vaddr ≤ vaddr ∧
  vaddr + sz ≤ region_base vaddr + region_pages vaddr sz * 4096 < vaddr + sz + 4096.
Proof. unfold region_base, region_pages. lia. Qed.

(** The pages of a table of [npages] entries. *)
Definition table_pages (npages : Z) : Z := (npages * sizeof_pte + 4095) / 4096.

Lemma new_page_table_ret c npages s k :
  cm_wf s → 1 ≤ npages → npages * sizeof_pte < W32 →
  first_free s.(coremaps) k (table_pages npages) →
  s.(page_start) + k * PAGE_SIZE < s.(paddr_max) - 4096 → s.(ramtop) < MIPS_KSEG0 →
  new_page_table (Some c) npages s =
    Ret (Some (replicate (Z.to_nat npages) (pte_create 0 0 0))) (gave s k (table_pages npages) KERNEL).
Proof.
  intros Hwf Hn Hsz Hk Hmax Hram. pose proof (wf_max _ Hwf). pose proof (wf_start _ Hwf).
  pose proof Hk as [[Hk0 _] _]. unfold new_page_table. unfold sizeof_pte, MIPS_KSEG0, PAGE_SIZE, W32 in *.
  rewrite (u32_small (npages * 20)) by (unfold W32; lia).
  assert ((if negb ((npages * 20) mod 4096 =? 0) then npages * 20 / 4096 + 1 else npages * 20 / 4096)
          = table_pages npages) as -> by (unfold table_pages, sizeof_pte; zbool).
  assert (1 ≤ table_pages npages) by (unfold table_pages, sizeof_pte; lia).
  unfold alloc_kpages, mbind, M_bind. rewrite (getppages_ret c _ _ _ k) by done. cbn zeta.
  destruct (Z.geb_spec (s.(page_start) + k * PAGE_SIZE) (s.(paddr_max) - 4096)); unfold PAGE_SIZE in *; [lia|].
  destruct (Z.eqb_spec (s.(page_start) + k * 4096) 0); [lia|].
  unfold mret at 1, M_ret at 1. unfold PADDR_TO_KVADDR, MIPS_KSEG0.
  rewrite u32_small by (unfold W32; lia).
  by destruct (Z.eqb_spec (s.(page_start) + k * 4096 + 0x80000000) 0); [lia|].
Qed.

Lemma define_region_args vaddr sz :
  0 ≤ vaddr → 0 ≤ sz → vaddr + sz + 8192 < W32 →
  Z.land vaddr PAGE_FRAME = region_base vaddr ∧
  Z.land (u32 (u32 (sz + Z.land vaddr (u32 (Z.lnot PAGE_FRAME))) + PAGE_SIZE - 1)) PAGE_FRAME / PAGE_SIZE
    = region_pages vaddr sz.
Proof.
  intros Hv Hs Hb. unfold W32 in *.
  rewrite land_offset, land_page_frame by (unfold W32; lia). split; [done|]. unfold PAGE_SIZE.
  rewrite (u32_small (sz + _)) by (unfold W32; lia). rewrite u32_small by (unfold W32; lia).
  rewrite land_page_frame by (unfold W32; lia). unfold region_pages. lia.
Qed.

(** Defining regions: the first two calls on an address space record a
    page-aligned region that covers the segment and exceeds it by less than a
    page at the end, with the segment's permissions and a page table of one
    empty entry per page, taken from the coremap; a third call is refused and
    changes nothing. *)
Theorem as_define_region_spec (c : nat) (a : addrspace) (vaddr sz r w x : Z) (s : pmm) (k : Z) :
  let b := region_base vaddr in
  let n := region_pages vaddr sz in
  let flags := Z.lor (Z.lor r w) x in
  let table := Some (replicate (Z.to_nat n) (pte_create 0 0 0)) in
  cm_wf s → 0 ≤ vaddr → 1 ≤ sz → vaddr + sz + 8192 < MIPS_KSEG0 →
  first_free s.(coremaps) k (table_pages n) →
  s.(page_start) + k * PAGE_SIZE < s.(paddr_max) - 4096 → s.(ramtop) < MIPS_KSEG0 →
  b mod 4096 = 0 ∧ b ≤ vaddr ∧ vaddr + sz ≤ b + n * 4096 < vaddr + sz + 4096 ∧
  as_define_region (Some c) a vaddr sz r w x s =
    if a.(as_vbase1) =? 0 then
      Ret (0, set_region1 b n flags table a) (gave s k (table_pages n) KERNEL)
    else if a.(as_vbase2) =? 0 then
      Ret (0, set_region2 b n flags table a) (gave s k (table_pages n) KERNEL)
    else Ret (EUNIMP, a) s.
Proof.
  intros b n flags table Hwf Hv Hs Hb Hk Hmax Hram. unfold MIPS_KSEG0 in *.
  destruct (region_covers vaddr sz) as (H1 & H2 & H3); [lia|lia|]. split_and!; [done|done|lia|lia|].
  unfold as_define_region.
  destruct (define_region_args vaddr sz) as [-> ->]; [lia|lia|unfold W32; lia|].
  fold b n. assert (1 ≤ n) by (unfold n, region_pages; lia).
  assert (n * sizeof_pte < W32) by (unfold n, region_pages, sizeof_pte, W32; lia).
  destruct (_ =? 0); [|destruct (_ =? 0); [|done]].
  all: by rewrite (bind_Ret _ _ _ _ _ (new_page_table_ret c n s k Hwf ltac:(done) ltac:(done) Hk Hmax Hram)).
Qed.

Definition raw_addrspace : addrspace :=
  Addrspace 9 9 9 9 9 9 9 9 9 9 9 9 9 None None None.

Lemma as_define_region_spec_witness :
  as_define_region (Some 0%nat) (set_region1 0 0 0 None raw_addrspace) 0x400010 5000 4 0 1 example_pmm =
    Ret (0, set_region1 0x400000 2 5 (Some [pte_create 0 0 0; pte_create 0 0 0]) raw_addrspace)
        (gave example_pmm 0 1 KERNEL).
Proof.
  assert (first_free (coremaps example_pmm) 0 (table_pages (region_pages 0x400010 5000))) as Hk
    by (apply example_first; vm_compute; split; discriminate).
  refine (proj2 (proj2 (proj2 (as_define_region_spec 0 (set_region1 0 0 0 None raw_addrspace)
    0x400010 5000 4 0 1 example_pmm 0 example_wf _ _ _ Hk _ _)))); vm_compute; done.
Defined.

(** What a copy is: [as_copy] reproduces the two regions' bases and sizes
    and nothing else.  The page tables of both regions are NULL, every stack
    page is unmapped, and the permissions, the executable's vnode, offsets and
    sizes are whatever the new block of memory held. *)
Lemma as_copy_layout_only (S : Type) (raw old : addrspace) (s : S) :
  ∃ a, as_copy true true raw old s = Ret (inr a) s ∧
    a.(as_vbase1) = old.(as_vbase1) ∧ a.(as_npages1) = old.(as_npages1) ∧
    a.(as_vbase2) = old.(as_vbase2) ∧ a.(as_npages2) = old.(as_npages2) ∧
    a.(pt1) = None ∧ a.(pt2) = None ∧ blank a.(pt3) STACKPAGES ∧
    a.(as_flag1) = raw.(as_flag1) ∧ a.(as_flag2) = raw.(as_flag2) ∧
    a.(vn) = raw.(vn) ∧ a.(filesz1) = raw.(filesz1) ∧ a.(filesz2) = raw.(filesz2).
Proof. eexists. split; [reflexivity|]. by split_and!. Qed.
