(* ===== verification/Sched.v ===== *)
(** Threads and scheduling (kern/thread/thread.c, kern/thread/clock.c, with
    [proc_addthread] and [proc_remthread] of kern/proc/proc.c).

    A [struct threadlist] is the sequence of its threads: file Threadlist shows
    that the linked lists implement sequences as long as a thread is put on a list
    only when it is on none, and here [addtail] faults otherwise.  What a spinlock
    protects is one atomic step (file Spinlock); [thread_switch] holds the lock of
    the run queue from the moment it puts the current thread away until the next
    thread has taken over, and gives it up only while the processor idles.

    A [thread] carries, besides its fields, what is on its stack while it is not
    running: the variable [next] of its last [thread_switch] ([t_next]; [None] for
    a thread that has not run and starts in [thread_startup]), and the threads it
    has taken off a wait channel and has still to make runnable ([t_op]).  A
    [cpu] carries the same for an interrupt handler ([c_irq], [c_victims]).
    Interrupt levels are in file Spinlock, the TLB in file Vm; of the latter there
    is only [c_as], the process for which the TLB was last flushed. *)

From Stdlib Require Import ZArith Lia.
From stdpp Require Import base numbers list gmap relations.
From S2P Require Import Prelude.

(** ** State *)

Inductive threadstate := S_RUN | S_READY | S_SLEEP | S_ZOMBIE.
#[export] Instance threadstate_eq_dec : EqDecision threadstate.
Proof. solve_decision. Defined.

(** [t_wchan_name]: a string constant, or the name of a wait channel. *)
Inductive wname := WNew | WNull | WZombie | WChan (w : nat).

(** A wakeup in progress: the thread in hand, or the private list. *)
Inductive wakeop := WNone | WOne (target : nat) | WAll (l : list nat).

Definition THREAD_STACK_MAGIC : Z := 0xbaadf00d.

Record thread := Thread {
  t_wchan_name : wname;
  t_state : threadstate;
  t_stack : option (list Z);
  t_cpu : option nat;
  t_proc : option nat;
  t_in_interrupt : bool;
  t_next : option nat;
  t_op : wakeop;
}.

Definition IPI_PANIC : Z := 0.
Definition IPI_OFFLINE : Z := 1.
Definition IPI_UNIDLE : Z := 2.
Definition IPI_TLBSHOOTDOWN : Z := 3.
Definition TLBSHOOTDOWN_ALL : Z := -1.
Definition TLBSHOOTDOWN_MAX : Z := 16.

(** Where an interrupt handler is: between two device handlers, in a wakeup, or
    in [hardclock], whose migration goes through its loops one lock at a time. *)
Inductive irq :=
| IRet
| IWake (o : wakeop)
| ICount (i my_count total_count : Z)
| ITake (one_share to_send : Z)
| IGive (i one_share to_send : Z)
| IPut
| IYield.

(** [c_woken]: an interrupt has been taken since the processor began to wait. *)
Record cpu := Cpu {
  c_curthread : nat;
  c_zombies : list nat;
  c_hardclocks : Z;
  c_isidle : bool;
  c_runqueue : list nat;
  c_ipi_pending : Z;
  c_shootdown : list Z;
  c_numshootdown : Z;
  c_as : option nat;
  c_irq : option irq;
  c_victims : list nat;
  c_woken : bool;
  c_halted : bool;
}.

Record sys := Sys {
  threads : gmap nat thread;
  cpus : list cpu;
  wchans : gmap nat (list nat);
  p_threads : gmap nat (list nat);
}.

Definition set_state (x : threadstate) (t : thread) : thread :=
  Thread t.(t_wchan_name) x t.(t_stack) t.(t_cpu) t.(t_proc) t.(t_in_interrupt) t.(t_next) t.(t_op).
Definition set_wname (x : wname) (t : thread) : thread :=
  Thread x t.(t_state) t.(t_stack) t.(t_cpu) t.(t_proc) t.(t_in_interrupt) t.(t_next) t.(t_op).
Definition set_stack (x : option (list Z)) (t : thread) : thread :=
  Thread t.(t_wchan_name) t.(t_state) x t.(t_cpu) t.(t_proc) t.(t_in_interrupt) t.(t_next) t.(t_op).
Definition set_cpu (x : option nat) (t : thread) : thread :=
  Thread t.(t_wchan_name) t.(t_state) t.(t_stack) x t.(t_proc) t.(t_in_interrupt) t.(t_next) t.(t_op).
Definition set_proc (x : option nat) (t : thread) : thread :=
  Thread t.(t_wchan_name) t.(t_state) t.(t_stack) t.(t_cpu) x t.(t_in_interrupt) t.(t_next) t.(t_op).
Definition set_in_interrupt (x : bool) (t : thread) : thread :=
  Thread t.(t_wchan_name) t.(t_state) t.(t_stack) t.(t_cpu) t.(t_proc) x t.(t_next) t.(t_op).
Definition set_tnext (x : option nat) (t : thread) : thread :=
  Thread t.(t_wchan_name) t.(t_state) t.(t_stack) t.(t_cpu) t.(t_proc) t.(t_in_interrupt) x t.(t_op).
Definition set_op (x : wakeop) (t : thread) : thread :=
  Thread t.(t_wchan_name) t.(t_state) t.(t_stack) t.(t_cpu) t.(t_proc) t.(t_in_interrupt) t.(t_next) x.

Definition set_curthread (x : nat) (c : cpu) : cpu :=
  Cpu x c.(c_zombies) c.(c_hardclocks) c.(c_isidle) c.(c_runqueue) c.(c_ipi_pending) c.(c_shootdown) c.(c_numshootdown)
    c.(c_as) c.(c_irq) c.(c_victims) c.(c_woken) c.(c_halted).
Definition set_zombies (x : list nat) (c : cpu) : cpu :=
  Cpu c.(c_curthread) x c.(c_hardclocks) c.(c_isidle) c.(c_runqueue) c.(c_ipi_pending) c.(c_shootdown) c.(c_numshootdown)
    c.(c_as) c.(c_irq) c.(c_victims) c.(c_woken) c.(c_halted).
Definition set_hardclocks (x : Z) (c : cpu) : cpu :=
  Cpu c.(c_curthread) c.(c_zombies) x c.(c_isidle) c.(c_runqueue) c.(c_ipi_pending) c.(c_shootdown) c.(c_numshootdown)
    c.(c_as) c.(c_irq) c.(c_victims) c.(c_woken) c.(c_halted).
Definition set_idle (x : bool) (c : cpu) : cpu :=
  Cpu c.(c_curthread) c.(c_zombies) c.(c_hardclocks) x c.(c_runqueue) c.(c_ipi_pending) c.(c_shootdown) c.(c_numshootdown)
    c.(c_as) c.(c_irq) c.(c_victims) c.(c_woken) c.(c_halted).
Definition set_runqueue (x : list nat) (c : cpu) : cpu :=
  Cpu c.(c_curthread) c.(c_zombies) c.(c_hardclocks) c.(c_isidle) x c.(c_ipi_pending) c.(c_shootdown) c.(c_numshootdown)
    c.(c_as) c.(c_irq) c.(c_victims) c.(c_woken) c.(c_halted).
Definition set_ipi (x : Z) (sh : list Z) (n : Z) (c : cpu) : cpu :=
  Cpu c.(c_curthread) c.(c_zombies) c.(c_hardclocks) c.(c_isidle) c.(c_runqueue) x sh n
    c.(c_as) c.(c_irq) c.(c_victims) c.(c_woken) c.(c_halted).
Definition set_as (x : option nat) (c : cpu) : cpu :=
  Cpu c.(c_curthread) c.(c_zombies) c.(c_hardclocks) c.(c_isidle) c.(c_runqueue) c.(c_ipi_pending) c.(c_shootdown) c.(c_numshootdown)
    x c.(c_irq) c.(c_victims) c.(c_woken) c.(c_halted).
Definition set_irq (x : option irq) (c : cpu) : cpu :=
  Cpu c.(c_curthread) c.(c_zombies) c.(c_hardclocks) c.(c_isidle) c.(c_runqueue) c.(c_ipi_pending) c.(c_shootdown) c.(c_numshootdown)
    c.(c_as) x c.(c_victims) c.(c_woken) c.(c_halted).
Definition set_victims (x : list nat) (c : cpu) : cpu :=
  Cpu c.(c_curthread) c.(c_zombies) c.(c_hardclocks) c.(c_isidle) c.(c_runqueue) c.(c_ipi_pending) c.(c_shootdown) c.(c_numshootdown)
    c.(c_as) c.(c_irq) x c.(c_woken) c.(c_halted).
Definition set_woken (x : bool) (c : cpu) : cpu :=
  Cpu c.(c_curthread) c.(c_zombies) c.(c_hardclocks) c.(c_isidle) c.(c_runqueue) c.(c_ipi_pending) c.(c_shootdown) c.(c_numshootdown)
    c.(c_as) c.(c_irq) c.(c_victims) x c.(c_halted).
Definition set_halted (x : bool) (c : cpu) : cpu :=
  Cpu c.(c_curthread) c.(c_zombies) c.(c_hardclocks) c.(c_isidle) c.(c_runqueue) c.(c_ipi_pending) c.(c_shootdown) c.(c_numshootdown)
    c.(c_as) c.(c_irq) c.(c_victims) c.(c_woken) x.

(** ** Access *)

Definition get_thread (t : nat) : M sys thread := s ← get; of_opt (s.(threads) !! t).
Definition get_cpu (c : nat) : M sys cpu := s ← get; of_opt (s.(cpus) !! c).
Definition put_thread (t : nat) (x : thread) (s : sys) : sys := Sys (<[t:=x]> s.(threads)) s.(cpus) s.(wchans) s.(p_threads).
Definition put_cpu (c : nat) (x : cpu) (s : sys) : sys := Sys s.(threads) (<[c:=x]> s.(cpus)) s.(wchans) s.(p_threads).
Definition put_wchan (w : nat) (l : list nat) (s : sys) : sys := Sys s.(threads) s.(cpus) (<[w:=l]> s.(wchans)) s.(p_threads).
Definition put_pthreads (p : nat) (l : list nat) (s : sys) : sys := Sys s.(threads) s.(cpus) s.(wchans) (<[p:=l]> s.(p_threads)).
Definition upd_thread (t : nat) (f : thread → thread) : M sys unit := x ← get_thread t; modify (put_thread t (f x)).
Definition upd_cpu (c : nat) (f : cpu → cpu) : M sys unit := x ← get_cpu c; modify (put_cpu c (f x)).

(** The threads on some list. *)
Definition op_list (o : wakeop) : list nat := match o with WAll l => l | _ => [] end.
Definition irq_op (i : option irq) : wakeop := match i with Some (IWake o) => o | _ => WNone end.
Definition cpu_lists (c : cpu) : list nat := c.(c_runqueue) ++ c.(c_zombies) ++ c.(c_victims) ++ op_list (irq_op c.(c_irq)).
Definition on_list (t : nat) (s : sys) : bool :=
  existsb (λ c, bool_decide (t ∈ cpu_lists c)) s.(cpus) ||
  existsb (λ p : nat * list nat, bool_decide (t ∈ p.2)) (map_to_list s.(wchans)) ||
  existsb (λ p : nat * thread, bool_decide (t ∈ op_list p.2.(t_op))) (map_to_list s.(threads)).

(** Putting a thread on a list is defined only for a thread that is on none. *)
Definition off_lists (t : nat) : M sys unit := s ← get; if on_list t s then fault else mret tt.

(** ** Interprocessor interrupts *)

(** A processor that has halted holds its own lock for ever. *)
Definition ipi_lock (target : nat) : M sys unit := c ← get_cpu target; if c.(c_halted) then diverge else mret tt.

Definition ipi_send (target : nat) (code : Z) : M sys unit :=
  kassert ((code >=? 0) && (code <? 32));;
  ipi_lock target;;
  upd_cpu target (λ c, set_ipi (Z.lor c.(c_ipi_pending) (Z.shiftl 1 code)) c.(c_shootdown) c.(c_numshootdown) c).

Definition ipi_broadcast (me : nat) (code : Z) : M sys unit :=
  s ← get;
  for_up (length s.(cpus)) 0 (λ i, if (Z.to_nat i =? me)%nat then mret tt else ipi_send (Z.to_nat i) code).

Definition ipi_tlbshootdown (target : nat) (mapping : Z) : M sys unit :=
  ipi_lock target;;
  c ← get_cpu target;
  let n := c.(c_numshootdown) in
  (if n =? TLBSHOOTDOWN_MAX then
     modify (put_cpu target (set_ipi c.(c_ipi_pending) c.(c_shootdown) TLBSHOOTDOWN_ALL c))
   else
     l ← of_opt (zupd c.(c_shootdown) n mapping);
     modify (put_cpu target (set_ipi c.(c_ipi_pending) l (s32 (n + 1)) c)));;
  upd_cpu target (λ c, set_ipi (Z.lor c.(c_ipi_pending) (Z.shiftl 1 IPI_TLBSHOOTDOWN)) c.(c_shootdown) c.(c_numshootdown) c).

(** [vm_tlbshootdown_all] and [vm_tlbshootdown] (kern/vm/vm.c) are calls of [panic]. *)
Definition interprocessor_interrupt (me : nat) : M sys unit :=
  c ← get_cpu me;
  let bits := c.(c_ipi_pending) in
  if Z.testbit bits IPI_PANIC then upd_cpu me (set_halted true)
  else if Z.testbit bits IPI_OFFLINE then upd_cpu me (set_halted true)
  else
    when (Z.testbit bits IPI_TLBSHOOTDOWN)
      (if c.(c_numshootdown) =? TLBSHOOTDOWN_ALL then panic
       else
         when (0 <? c.(c_numshootdown)) panic;;
         upd_cpu me (λ c, set_ipi c.(c_ipi_pending) c.(c_shootdown) 0 c));;
    upd_cpu me (λ c, set_ipi 0 c.(c_shootdown) c.(c_numshootdown) c).

(** ** Creation and destruction *)

(** [km1], [km2]: the block for the thread and the copy of its name. *)
Definition thread_create (km1 km2 : bool) : M sys (option nat) :=
  if negb km1 then mret None
  else if negb km2 then mret None
  else
    s ← get;
    let t := fresh (dom s.(threads)) in
    modify (put_thread t (Thread WNew S_READY None None None false None WNone));;
    mret (Some t).

Definition thread_checkstack_init (t : nat) : M sys unit :=
  upd_thread t (set_stack (Some (replicate 4 THREAD_STACK_MAGIC))).

Definition thread_checkstack (t : nat) : M sys unit :=
  x ← get_thread t;
  match x.(t_stack) with
  | None => mret tt
  | Some g => for_up 4 0 (λ i, w ← of_opt (zlookup g i); kassert (w =? THREAD_STACK_MAGIC))
  end.

(** [km]: whether the array of threads can grow. *)
Definition proc_addthread (p t : nat) (km : bool) : M sys Z :=
  x ← get_thread t;
  kassert (bool_decide (x.(t_proc) = None));;
  s ← get;
  l ← of_opt (s.(p_threads) !! p);
  if negb km then mret ENOMEM
  else
    modify (put_pthreads p (l ++ [t]));;
    upd_thread t (set_proc (Some p));;
    mret 0.

(** The first occurrence, the rest moving down. *)
Fixpoint remove_first (t : nat) (l : list nat) : option (list nat) :=
  match l with
  | [] => None
  | x :: l => if (x =? t)%nat then Some l else (cons x) <$> remove_first t l
  end.

Definition proc_remthread (t : nat) : M sys unit :=
  x ← get_thread t;
  match x.(t_proc) with
  | None => panic
  | Some p =>
      s ← get;
      l ← of_opt (s.(p_threads) !! p);
      match remove_first t l with
      | None => panic
      | Some l' => modify (put_pthreads p l');; upd_thread t (set_proc None)
      end
  end.

Definition thread_destroy (me t : nat) : M sys unit :=
  c ← get_cpu me;
  kassert (negb (t =? c.(c_curthread))%nat);;
  x ← get_thread t;
  kassert (negb (bool_decide (x.(t_state) = S_RUN)));;
  kassert (bool_decide (x.(t_proc) = None));;
  s ← get;
  kassert (negb (on_list t s));;
  modify (λ s, Sys (delete t s.(threads)) s.(cpus) s.(wchans) s.(p_threads)).

Fixpoint exorcise_loop (fuel : nat) (me : nat) : M sys unit :=
  match fuel with
  | O => diverge
  | S fuel =>
      c ← get_cpu me;
      match c.(c_zombies) with
      | [] => mret tt
      | z :: zs =>
          modify (put_cpu me (set_zombies zs c));;
          kassert (negb (z =? c.(c_curthread))%nat);;
          x ← get_thread z;
          kassert (bool_decide (x.(t_state) = S_ZOMBIE));;
          thread_destroy me z;;
          exorcise_loop fuel me
      end
  end.

Definition exorcise (me : nat) : M sys unit :=
  c ← get_cpu me;
  exorcise_loop (S (length c.(c_zombies))) me.

Definition thread_shutdown (me : nat) : M sys unit := ipi_broadcast me IPI_OFFLINE.

(** ** Switching *)

Definition thread_make_runnable (target : nat) : M sys unit :=
  x ← get_thread target;
  targetcpu ← of_opt x.(t_cpu);
  c ← get_cpu targetcpu;
  off_lists target;;
  modify (put_cpu targetcpu (set_runqueue (c.(c_runqueue) ++ [target]) c));;
  when c.(c_isidle) (ipi_send targetcpu IPI_UNIDLE).

(** [km1] to [km4]: the allocations of the thread, its name, its stack and its
    place in the process. *)
Definition thread_fork (me : nat) (proc : option nat) (km1 km2 km3 km4 : bool) : M sys Z :=
  r ← thread_create km1 km2;
  match r with
  | None => mret ENOMEM
  | Some newthread =>
      if negb km3 then thread_destroy me newthread;; mret ENOMEM
      else
        thread_checkstack_init newthread;;
        c ← get_cpu me;
        cur ← get_thread c.(c_curthread);
        upd_thread newthread (set_cpu cur.(t_cpu));;
        p ← of_opt (match proc with Some p => Some p | None => cur.(t_proc) end);
        result ← proc_addthread p newthread km4;
        if negb (result =? 0) then thread_destroy me newthread;; mret result
        else thread_make_runnable newthread;; mret 0
  end.

Section switch.
(** The processes that have an address space. *)
Context (has_as : nat → bool).

Definition activate_as (me : nat) : M sys unit :=
  c ← get_cpu me;
  x ← get_thread c.(c_curthread);
  match x.(t_proc) with
  | Some p => when (has_as p) (upd_cpu me (set_as (Some p)))
  | None => mret tt
  end.

(** The statements of [thread_switch] after [switchframe_switch], with the
    variables [cur] and [next] of the thread that runs now. *)
Definition switch_return (me cur next : nat) : M sys unit :=
  upd_thread cur (λ x, set_state S_RUN (set_wname WNull x));;
  when (negb (cur =? next)%nat) (activate_as me);;
  exorcise me.

(** Up to the call of the entry point. *)
Definition thread_startup (me : nat) : M sys unit :=
  c ← get_cpu me;
  upd_thread c.(c_curthread) (λ x, set_state S_RUN (set_wname WNull x));;
  activate_as me;;
  exorcise me.

(** [switchframe_switch]: the processor goes on with the stack of the current
    thread, inside a handler if that is where it stopped. *)
Definition resume (me : nat) : M sys unit :=
  c ← get_cpu me;
  x ← get_thread c.(c_curthread);
  upd_cpu me (set_irq (if x.(t_in_interrupt) then Some IRet else None));;
  match x.(t_next) with
  | None => thread_startup me
  | Some next => switch_return me c.(c_curthread) next
  end.

(** One pass of the loop that waits for a thread. *)
Definition switch_next (me : nat) : M sys unit :=
  c ← get_cpu me;
  match c.(c_runqueue) with
  | [] => upd_cpu me (set_woken false)
  | next :: rest =>
      modify (put_cpu me (set_curthread next (set_idle false (set_runqueue rest c))));;
      upd_thread c.(c_curthread) (set_tnext (Some next));;
      resume me
  end.

Definition wchan_addtail (w t : nat) : M sys unit :=
  s ← get;
  l ← of_opt (s.(wchans) !! w);
  off_lists t;;
  modify (put_wchan w (l ++ [t])).

(** Putting the current thread where its new state says. *)
Definition switch_away (me : nat) (newstate : threadstate) (wc : option nat) : M sys unit :=
  c ← get_cpu me;
  let cur := c.(c_curthread) in
  match newstate with
  | S_RUN => panic
  | S_READY => thread_make_runnable cur
  | S_SLEEP =>
      w ← of_opt wc;
      upd_thread cur (set_wname (WChan w));;
      wchan_addtail w cur
  | S_ZOMBIE =>
      upd_thread cur (set_wname WZombie);;
      off_lists cur;;
      upd_cpu me (λ c, set_zombies (c.(c_zombies) ++ [cur]) c)
  end;;
  upd_thread cur (set_state newstate).

Definition thread_switch (me : nat) (newstate : threadstate) (wc : option nat) : M sys unit :=
  c ← get_cpu me;
  if c.(c_isidle) then mret tt
  else
    thread_checkstack c.(c_curthread);;
    if bool_decide (newstate = S_READY) && bool_decide (c.(c_runqueue) = []) then mret tt
    else
      switch_away me newstate wc;;
      upd_cpu me (set_idle true);;
      switch_next me.

Definition thread_yield (me : nat) : M sys unit := thread_switch me S_READY None.

Definition thread_exit (me : nat) : M sys unit :=
  c ← get_cpu me;
  let cur := c.(c_curthread) in
  proc_remthread cur;;
  x ← get_thread cur;
  kassert (bool_decide (x.(t_proc) = None));;
  thread_checkstack cur;;
  thread_switch me S_ZOMBIE None.

(** ** Wait channels *)

Definition wchan_create (km : bool) : M sys (option nat) :=
  if negb km then mret None
  else
    s ← get;
    let w := fresh (dom s.(wchans)) in
    modify (put_wchan w []);;
    mret (Some w).

Definition wchan_destroy (w : nat) : M sys unit :=
  s ← get;
  l ← of_opt (s.(wchans) !! w);
  kassert (bool_decide (l = []));;
  modify (λ s, Sys s.(threads) s.(cpus) (delete w s.(wchans)) s.(p_threads)).

Definition wchan_sleep (me w : nat) : M sys unit :=
  c ← get_cpu me;
  x ← get_thread c.(c_curthread);
  kassert (negb x.(t_in_interrupt));;
  thread_switch me S_SLEEP (Some w).

(** Up to the release of the channel's lock; what is in hand afterwards. *)
Definition wakeone_take (w : nat) : M sys wakeop :=
  s ← get;
  l ← of_opt (s.(wchans) !! w);
  match l with
  | [] => mret WNone
  | target :: rest => modify (put_wchan w rest);; mret (WOne target)
  end.

(** The loop that moves every thread to the private list, under the lock. *)
Definition wakeall_take (w : nat) : M sys wakeop :=
  s ← get;
  l ← of_opt (s.(wchans) !! w);
  modify (put_wchan w []);;
  mret (WAll l).

(** The next thread of a wakeup, with [save] to store what is left. *)
Definition wake_next (o : wakeop) (save : wakeop → M sys unit) : M sys unit :=
  match o with
  | WNone => mret tt
  | WOne target => save WNone;; thread_make_runnable target
  | WAll [] => save WNone
  | WAll (target :: rest) => save (WAll rest);; thread_make_runnable target
  end.

(** Without interference. *)
Definition wchan_wakeone (w : nat) : M sys unit :=
  o ← wakeone_take w; wake_next o (λ _, mret tt).

Fixpoint make_all_runnable (l : list nat) : M sys unit :=
  match l with [] => mret tt | target :: rest => thread_make_runnable target;; make_all_runnable rest end.

Definition wchan_wakeall (w : nat) : M sys unit :=
  o ← wakeall_take w; make_all_runnable (op_list o).

Definition wchan_isempty (w : nat) : M sys bool :=
  s ← get; l ← of_opt (s.(wchans) !! w); mret (bool_decide (l = [])).

(** ** Migration *)

Definition tl_count (l : list nat) : Z := u32 (Z.of_nat (length l)).

(** The body of the first loop. *)
Definition mig_count (me : nat) (i my_count total_count : Z) : M sys (Z * Z) :=
  c ← get_cpu (Z.to_nat i);
  mret (if (Z.to_nat i =? me)%nat then tl_count c.(c_runqueue) else my_count,
        u32 (total_count + tl_count c.(c_runqueue))).

Definition one_share (total_count numcpus : Z) : Z := u32 (u32 (total_count + numcpus) - 1) / numcpus.

(** The second loop: [to_send] threads from the tail of the run queue, in order. *)
Fixpoint mig_take (n : nat) (me : nat) : M sys unit :=
  match n with
  | O => mret tt
  | S n =>
      c ← get_cpu me;
      t ← of_opt (last c.(c_runqueue));
      modify (put_cpu me (set_victims (t :: c.(c_victims)) (set_runqueue (removelast c.(c_runqueue)) c)));;
      mig_take n me
  end.

(** The inner loop for processor [c]; what is left of [to_send]. *)
Fixpoint mig_give (fuel : nat) (me c : nat) (share to_send : Z) : M sys Z :=
  match fuel with
  | O => diverge
  | S fuel =>
      x ← get_cpu c;
      if (tl_count x.(c_runqueue) <? share) && (to_send >? 0) then
        m ← get_cpu me;
        match m.(c_victims) with
        | [] => fault
        | t :: rest =>
            if (t =? m.(c_curthread))%nat then
              modify (put_cpu me (set_victims (rest ++ [t]) m));;
              mig_give fuel me c share (to_send - 1)
            else
              modify (put_cpu me (set_victims rest m));;
              upd_thread t (set_cpu (Some c));;
              thread_make_runnable t;;
              mig_give fuel me c share (to_send - 1)
        end
      else mret to_send
  end.

(** The body of the third loop; [continue] for the processor's own entry. *)
Definition mig_cpu (me : nat) (i share to_send : Z) : M sys Z :=
  if (Z.to_nat i =? me)%nat then mret to_send
  else mig_give (S (Z.to_nat to_send)) me (Z.to_nat i) share to_send.

(** The leftovers. *)
Definition mig_put (me : nat) : M sys unit :=
  upd_cpu me (λ c, set_victims [] (set_runqueue (c.(c_runqueue) ++ c.(c_victims)) c)).

(** Where the first loop leads when it is done. *)
Definition mig_decide (my_count total_count numcpus : Z) : irq :=
  let share := one_share total_count numcpus in
  if my_count <? share then IYield else ITake share (my_count - share).

(** One lock's worth of [thread_consider_migration], from one point to the next. *)
Definition mig_step (me : nat) (p : irq) : M sys irq :=
  s ← get;
  let numcpus := Z.of_nat (length s.(cpus)) in
  match p with
  | ICount i my_count total_count =>
      if i <? numcpus then
        r ← mig_count me i my_count total_count;
        mret (ICount (i + 1) r.1 r.2)
      else mret (mig_decide my_count total_count numcpus)
  | ITake share to_send => mig_take (Z.to_nat to_send) me;; mret (IGive 0 share to_send)
  | IGive i share to_send =>
      if (i <? numcpus) && (to_send >? 0) then
        r ← mig_cpu me i share to_send;
        mret (IGive (i + 1) share r)
      else mret IPut
  | IPut => mig_put me;; mret IYield
  | _ => mret p
  end.

(** Without interference: from point to point until the clock interrupt goes on. *)
Fixpoint mig_run (fuel : nat) (me : nat) (p : irq) : M sys unit :=
  match fuel with
  | O => diverge
  | S fuel => match p with IYield => mret tt | _ => p' ← mig_step me p; mig_run fuel me p' end
  end.

Definition thread_consider_migration (me : nat) : M sys unit :=
  s ← get; mig_run (2 * length s.(cpus) + 5) me (ICount 0 0 0).

(** [schedule] is empty. *)
Definition SCHEDULE_HARDCLOCKS : Z := 4.
Definition MIGRATE_HARDCLOCKS : Z := 16.
Definition schedule : M sys unit := mret tt.

(** Up to the migration; where the handler is then. *)
Definition hardclock_tick (me : nat) : M sys irq :=
  upd_cpu me (λ c, set_hardclocks (u32 (c.(c_hardclocks) + 1)) c);;
  c ← get_cpu me;
  when (c.(c_hardclocks) mod SCHEDULE_HARDCLOCKS =? 0) schedule;;
  mret (if c.(c_hardclocks) mod MIGRATE_HARDCLOCKS =? 0 then ICount 0 0 0 else IYield).

Definition hardclock (me : nat) : M sys unit :=
  p ← hardclock_tick me;
  s ← get;
  mig_run (2 * length s.(cpus) + 5) me p;;
  thread_yield me.

(** ** Start-up *)

(** The allocations: the structure, its place in the array of processors, the
    thread and its name, the place in the process, the stack. *)
Definition cpu_create (kproc : nat) (kc ka km1 km2 kp ks : bool) : M sys nat :=
  (if negb kc then panic else mret tt);;
  (if negb ka then panic else mret tt);;
  s ← get;
  let c := length s.(cpus) in
  r ← thread_create km1 km2;
  match r with
  | None => panic
  | Some t =>
      modify (λ s, Sys s.(threads) (s.(cpus) ++ [Cpu t [] 0 false [] 0 (replicate 16 0) 0 None None [] false false]) s.(wchans) s.(p_threads));;
      result ← proc_addthread kproc t kp;
      if negb (result =? 0) then panic
      else
        (if (c =? 0)%nat then mret tt
         else if negb ks then panic else thread_checkstack_init t);;
        upd_thread t (set_cpu (Some c));;
        mret c
  end.

Definition thread_bootstrap (kproc : nat) (kc ka km1 km2 kp : bool) : M sys unit :=
  modify (λ s, Sys s.(threads) [] s.(wchans) s.(p_threads));;
  bootcpu ← cpu_create kproc kc ka km1 km2 kp true;
  c ← get_cpu bootcpu;
  upd_thread c.(c_curthread) (set_cpu (Some bootcpu));;
  x ← get_thread c.(c_curthread);
  kassert (bool_decide (x.(t_proc) ≠ None)).

(** ** All processors together

    One action is what a processor does under one lock. *)

Inductive action :=
| AFork (proc : option nat) (km1 km2 km3 km4 : bool)
| AYield
| ASleep (w : nat)
| AExit
| AWakeone (w : nat)
| AWakeall (w : nat)
| AWakeNext
| ACreate (km : bool)
| AInterrupt
| AIdle
| AHardclock
| ATimerclock (lbolt : nat)
| AIrqWakeone (w : nat)
| AIpi
| AIrqNext
| AIret.

Definition set_top (me : nat) (o : wakeop) : M sys unit := c ← get_cpu me; upd_thread c.(c_curthread) (set_op o).
Definition goto (me : nat) (p : irq) : M sys unit := upd_cpu me (set_irq (Some p)).

Definition act (me : nat) (a : action) : M sys unit :=
  match a with
  | AFork proc km1 km2 km3 km4 => thread_fork me proc km1 km2 km3 km4;; mret tt
  | AYield => thread_yield me
  | ASleep w => wchan_sleep me w
  | AExit => thread_exit me
  | AWakeone w => o ← wakeone_take w; set_top me o
  | AWakeall w => o ← wakeall_take w; set_top me o
  | AWakeNext => c ← get_cpu me; x ← get_thread c.(c_curthread); wake_next x.(t_op) (set_top me)
  | ACreate km => wchan_create km;; mret tt
  | AInterrupt => c ← get_cpu me; upd_thread c.(c_curthread) (set_in_interrupt true);; goto me IRet
  | AIdle => switch_next me
  | AHardclock => p ← hardclock_tick me; goto me p
  | ATimerclock w => o ← wakeall_take w; goto me (IWake o)
  | AIrqWakeone w => o ← wakeone_take w; goto me (IWake o)
  | AIpi => interprocessor_interrupt me
  | AIrqNext =>
      c ← get_cpu me;
      match c.(c_irq) with
      | Some (IWake o) =>
          match o with WNone | WAll [] => goto me IRet | _ => wake_next o (λ o, goto me (IWake o)) end
      | Some IYield => goto me IRet;; thread_yield me
      | Some p => goto me IPut;; p' ← mig_step me p; goto me p'
      | None => mret tt
      end
  | AIret =>
      c ← get_cpu me;
      upd_thread c.(c_curthread) (set_in_interrupt false);;
      upd_cpu me (λ c, set_irq None (if c.(c_isidle) then set_woken true c else c))
  end.
End switch.

(** (In [AIrqNext] the handler's point is [IPut] while a step of the migration
    runs; nothing reads it there.)

    When a processor can do what: the code of a thread only outside a handler and
    while the processor is not idle, one thing after the other; a device's handler
    after another. *)
Definition thread_mode (s : sys) (c : cpu) : Prop :=
  c.(c_isidle) = false ∧ c.(c_irq) = None ∧ c.(c_halted) = false.
Definition top_op (s : sys) (c : cpu) : wakeop :=
  match s.(threads) !! c.(c_curthread) with Some x => x.(t_op) | None => WNone end.

Definition enabled (s : sys) (me : nat) (a : action) : Prop :=
  ∃ c, s.(cpus) !! me = Some c ∧ c.(c_halted) = false ∧
  match a with
  | AFork proc _ _ _ _ =>
      thread_mode s c ∧ top_op s c = WNone ∧
      ∃ p, is_Some (s.(p_threads) !! p) ∧
           (proc = Some p ∨ proc = None ∧ ∃ x, s.(threads) !! c.(c_curthread) = Some x ∧ x.(t_proc) = Some p)
  | AYield | ACreate _ => thread_mode s c ∧ top_op s c = WNone
  | AExit => thread_mode s c ∧ top_op s c = WNone ∧ ∃ x, s.(threads) !! c.(c_curthread) = Some x ∧ x.(t_proc) ≠ None
  | ASleep w | AWakeone w | AWakeall w => thread_mode s c ∧ top_op s c = WNone ∧ is_Some (s.(wchans) !! w)
  | AWakeNext => thread_mode s c ∧ top_op s c ≠ WNone
  | AInterrupt => c.(c_irq) = None
  | AIdle => c.(c_isidle) = true ∧ c.(c_irq) = None
  | AHardclock | AIpi | AIret => c.(c_irq) = Some IRet
  | ATimerclock w | AIrqWakeone w => c.(c_irq) = Some IRet ∧ is_Some (s.(wchans) !! w)
  | AIrqNext => ∃ p, c.(c_irq) = Some p ∧ p ≠ IRet
  end.

Definition step (has_as : nat → bool) (s s' : sys) : Prop :=
  ∃ me a, enabled s me a ∧ act has_as me a s = Ret tt s'.

(** ** Counting the places of a thread *)

Fixpoint occs (t : nat) (l : list nat) : nat :=
  match l with [] => 0 | x :: l => (if decide (x = t) then 1 else 0) + occs t l end.

Lemma occs_app t l k : occs t (l ++ k) = (occs t l + occs t k)%nat.
Proof. induction l as [|x l IH]; simpl; [done|]. rewrite IH. lia. Qed.

Lemma occs_elem t l : t ∈ l ↔ (0 < occs t l)%nat.
Proof.
  induction l as [|x l IH]; simpl; [split; [by intros ?%elem_of_nil|lia]|].
  rewrite elem_of_cons, IH. destruct (decide (x = t)); naive_solver lia.
Qed.

Definition msum {A} (f : A → nat) (m : gmap nat A) : nat := sum_list_with (λ p : nat * A, f p.2) (map_to_list m).

Lemma sum_list_with_perm {A} (f : A → nat) l k : l ≡ₚ k → sum_list_with f l = sum_list_with f k.
Proof. induction 1; simpl; lia. Qed.

Lemma msum_new {A} (f : A → nat) (m : gmap nat A) k x : m !! k = None → msum f (<[k:=x]> m) = (f x + msum f m)%nat.
Proof. intros H. unfold msum. by rewrite (sum_list_with_perm _ _ _ (map_to_list_insert m k x H)). Qed.

Lemma msum_delete {A} (f : A → nat) (m : gmap nat A) k x : m !! k = Some x → msum f m = (f x + msum f (delete k m))%nat.
Proof. intros H. rewrite <- (insert_delete_id m k x H) at 1. apply msum_new, lookup_delete_eq. Qed.

Lemma msum_insert {A} (f : A → nat) (m : gmap nat A) k x y :
  m !! k = Some x → (msum f (<[k:=y]> m) + f x = msum f m + f y)%nat.
Proof.
  intros H. rewrite <- insert_delete_eq, msum_new by apply lookup_delete_eq. rewrite (msum_delete f m k x H). lia.
Qed.

Lemma msum_elem {A} (f : A → nat) (m : gmap nat A) k x : m !! k = Some x → (f x ≤ msum f m)%nat.
Proof. intros H. rewrite (msum_delete f m k x H). lia. Qed.

Lemma sum_insert {A} (f : A → nat) (l : list A) i x y :
  l !! i = Some x → (sum_list_with f (<[i:=y]> l) + f x = sum_list_with f l + f y)%nat.
Proof.
  revert i. induction l as [|a l IH]; intros [|i] H; simplify_eq/=; [lia|]. specialize (IH i H). lia.
Qed.

Lemma sum_elem {A} (f : A → nat) (l : list A) i x : l !! i = Some x → (f x ≤ sum_list_with f l)%nat.
Proof. revert i. induction l as [|a l IH]; intros [|i] H; simplify_eq/=; [lia|]. specialize (IH i H). lia. Qed.

Definition op_threads (o : wakeop) : list nat := match o with WNone => [] | WOne t => [t] | WAll l => l end.

(** A processor that is not idle has a running thread; [skip] leaves out the one
    that is in the middle of a switch. *)
Definition running (skip : bool) (c : cpu) : list nat := if c.(c_isidle) || skip then [] else [c.(c_curthread)].
Definition cpu_places (skip : bool) (c : cpu) : list nat :=
  c.(c_runqueue) ++ c.(c_zombies) ++ c.(c_victims) ++ op_threads (irq_op c.(c_irq)) ++ running skip c.

Definition cpu_occ (e : option nat) (t : nat) (p : nat * cpu) : nat :=
  occs t (cpu_places (bool_decide (e = Some p.1)) p.2).
Definition cpus_occ (e : option nat) (t : nat) (l : list cpu) : nat := sum_list_with (cpu_occ e t) (imap pair l).

(** How many places thread [t] has. *)
Definition places (e : option nat) (s : sys) (t : nat) : nat :=
  cpus_occ e t s.(cpus) + msum (occs t) s.(wchans) + msum (λ x, occs t (op_threads x.(t_op))) s.(threads).

Lemma cpus_occ_insert e t l i x y :
  l !! i = Some x →
  (cpus_occ e t (<[i:=y]> l) + occs t (cpu_places (bool_decide (e = Some i)) x) =
   cpus_occ e t l + occs t (cpu_places (bool_decide (e = Some i)) y))%nat.
Proof.
  intros H. unfold cpus_occ.
  replace (imap pair (<[i:=y]> l)) with (<[i:=(i, y)]> (imap pair l)).
  - apply (sum_insert (cpu_occ e t) _ i (i, x) (i, y)). by rewrite list_lookup_imap, H.
  - apply list_eq. intros j. rewrite list_lookup_imap. destruct (decide (i = j)) as [<-|Hj].
    + rewrite !list_lookup_insert_eq; [done|by eapply lookup_lt_Some|]. rewrite length_imap. by eapply lookup_lt_Some.
    + by rewrite !list_lookup_insert_ne, list_lookup_imap by done.
Qed.

Lemma cpus_occ_elem e t l i x :
  l !! i = Some x → (occs t (cpu_places (bool_decide (e = Some i)) x) ≤ cpus_occ e t l)%nat.
Proof.
  intros H. apply (sum_elem (cpu_occ e t) _ i (i, x)). by rewrite list_lookup_imap, H.
Qed.

(** Entering and leaving a switch. *)
Lemma cpu_occ_ne t i a b : a ≠ i → cpu_occ None t (a, b) = cpu_occ (Some i) t (a, b).
Proof.
  intros H. unfold cpu_occ. simpl. repeat case_bool_decide; simplify_eq; done.
Qed.

Lemma cpu_occ_eq t i b : c_isidle b = false → cpu_occ None t (i, b) = (cpu_occ (Some i) t (i, b) + occs t [c_curthread b])%nat.
Proof.
  intros H. unfold cpu_occ, cpu_places, running. simpl. rewrite H. repeat case_bool_decide; try done.
  simpl. rewrite !occs_app. simpl. lia.
Qed.

Lemma cpus_occ_skip t l i x :
  l !! i = Some x → c_isidle x = false →
  (cpus_occ None t l = cpus_occ (Some i) t l + occs t [c_curthread x])%nat.
Proof.
  intros H Hi. unfold cpus_occ.
  assert (∀ k : list (nat * cpu), i ∉ k.*1 → sum_list_with (cpu_occ None t) k = sum_list_with (cpu_occ (Some i) t) k) as Hn.
  { induction k as [|[a b] k IH]; [done|]. cbn [fmap list_fmap fst sum_list_with]. intros [H1 H2]%not_elem_of_cons.
    by rewrite IH, (cpu_occ_ne t i) by congruence. }
  assert (∀ (k : list (nat * cpu)) j, k !! j = Some (i, x) → NoDup (k.*1) →
    sum_list_with (cpu_occ None t) k = (sum_list_with (cpu_occ (Some i) t) k + occs t [c_curthread x])%nat) as Hk.
  { induction k as [|[a b] k IH]; intros [|j] Hj Hd; cbn [lookup list_lookup] in Hj; simplify_eq;
      cbn [fmap list_fmap fst sum_list_with] in *; apply NoDup_cons in Hd as [Ha Hd].
    - rewrite Hn, cpu_occ_eq by done. lia.
    - rewrite (IH j), (cpu_occ_ne t i); [lia| |done..]. intros ->. apply Ha.
      apply list_elem_of_fmap. exists (i, x). split; [done|]. by eapply list_elem_of_lookup_2. }
  apply (Hk _ i); [by rewrite list_lookup_imap, H|].
  apply NoDup_alt. intros a b c. rewrite !list_lookup_fmap, !list_lookup_imap.
  destruct (l !! a), (l !! b); simpl; congruence.
Qed.
