(* ===== verification/SchedInv.v ===== *)
(** The invariant of the thread system (file Sched) over every interleaving of any
    number of processors, and what it gives: every thread has exactly one place, no
    two processors share a thread, no assertion fails, no idle processor sleeps on
    a thread it could run, the TLB belongs to the process that runs. *)

From Stdlib Require Import ZArith Lia.
From stdpp Require Import base numbers list gmap relations.
From S2P Require Import Prelude Sched.

Section inv.
Context (has_as : nat → bool).
Implicit Types (s : sys) (x : thread) (y : cpu) (c me t : nat).

(** ** The invariant

    [e] is the processor that is in the middle of a switch, [d] one whose new
    thread has not yet set up the processor, [H] the threads in hand. *)

Record thread_ok s t x : Prop := {
  to_cpu : ∃ c, x.(t_cpu) = Some c ∧ is_Some (s.(cpus) !! c);
  to_stack : ∀ g, x.(t_stack) = Some g → g = replicate 4 THREAD_STACK_MAGIC;
  to_proc : ∀ p, x.(t_proc) = Some p → ∃ l, s.(p_threads) !! p = Some l ∧ t ∈ l;
  to_next : x.(t_next) = Some t → ∃ c y, x.(t_cpu) = Some c ∧ s.(cpus) !! c = Some y ∧ y.(c_curthread) = t;
}.

Definition as_ok x y : Prop := ∀ p, x.(t_proc) = Some p → has_as p = true → y.(c_as) = Some p.

Definition irq_ok y : Prop :=
  match y.(c_irq) with
  | Some (ICount i my _) => 0 ≤ i ∧ 0 ≤ my ≤ Z.of_nat (length y.(c_runqueue)) ∧ y.(c_victims) = []
  | Some (ITake _ n) => 0 ≤ n ≤ Z.of_nat (length y.(c_runqueue)) ∧ y.(c_victims) = []
  | Some (IGive i _ n) => 0 ≤ i ∧ 0 ≤ n ≤ Z.of_nat (length y.(c_victims))
  | Some IPut => True
  | _ => y.(c_victims) = []
  end.

Definition zombie x : Prop := x.(t_state) = S_ZOMBIE ∧ x.(t_proc) = None ∧ x.(t_op) = WNone.

(** A processor that waits, with nothing to tell it to stop, has nothing to do. *)
Definition idle_ok y : Prop :=
  y.(c_isidle) = true → y.(c_irq) = None → y.(c_woken) = false → y.(c_runqueue) ≠ [] →
  Z.testbit y.(c_ipi_pending) IPI_UNIDLE = true.

Record cpu_ok (e d : option nat) s c y : Prop := {
  co_cur : ∃ x, s.(threads) !! y.(c_curthread) = Some x ∧ x.(t_cpu) = Some c ∧
           (d ≠ Some c → as_ok x y ∧ x.(t_in_interrupt) = bool_decide (is_Some y.(c_irq)));
  co_lists : ∀ t, t ∈ y.(c_runqueue) ++ y.(c_zombies) ++ y.(c_victims) →
             ∃ x, s.(threads) !! t = Some x ∧ x.(t_cpu) = Some c;
  co_zombies : ∀ t, t ∈ y.(c_zombies) → ∃ x, s.(threads) !! t = Some x ∧ zombie x;
  co_irq : irq_ok y;
  co_idle : e ≠ Some c → idle_ok y;
  co_ipi : y.(c_halted) = false ∧ (y.(c_ipi_pending) = 0 ∨ y.(c_ipi_pending) = 4);
}.

Record sinv (e d : option nat) (H : list nat) s : Prop := {
  si_place : ∀ t, (places e s t + occs t H = if decide (is_Some (s.(threads) !! t)) then 1 else 0)%nat;
  si_thread : ∀ t x, s.(threads) !! t = Some x → thread_ok s t x;
  si_cpu : ∀ c y, s.(cpus) !! c = Some y → cpu_ok e d s c y;
}.

(** ** A thread in one place is in no other *)

Lemma on_list_places s t : on_list t s = true → ∀ e, (0 < places e s t)%nat.
Proof.
  unfold on_list, places. intros Ho e. apply orb_true_iff in Ho as [Ho|Ho]; [apply orb_true_iff in Ho as [Ho|Ho]|].
  - apply existsb_exists in Ho as (y & [c Hc]%list_elem_of_In%list_elem_of_lookup & Ht%bool_decide_eq_true).
    pose proof (cpus_occ_elem e t _ c y Hc). assert (0 < occs t (cpu_places (bool_decide (e = Some c)) y))%nat; [|lia].
    revert Ht. unfold cpu_lists, cpu_places. rewrite occs_elem, !occs_app. destruct (irq_op (c_irq y)); simpl; lia.
  - apply existsb_exists in Ho as ([w l] & Hw%list_elem_of_In%elem_of_map_to_list & Ht%bool_decide_eq_true%occs_elem).
    pose proof (msum_elem (occs t) _ w l Hw). simpl in *. lia.
  - apply existsb_exists in Ho as ([u x] & Hw%list_elem_of_In%elem_of_map_to_list & Ht%bool_decide_eq_true%occs_elem).
    pose proof (msum_elem (λ x, occs t (op_threads (t_op x))) _ u x Hw). simpl in *. destruct (t_op x); simpl in *; lia.
Qed.

Lemma hand_places e d H s t : sinv e d H s → t ∈ H → places e s t = 0%nat ∧ is_Some (s.(threads) !! t).
Proof.
  intros [P _ _] Ht%occs_elem. specialize (P t). destruct (decide _); [|lia]. split; [lia|done].
Qed.

Lemma hand_off_list e d H s t : sinv e d H s → t ∈ H → on_list t s = false.
Proof.
  intros Hs Ht. destruct (hand_places e d H s t Hs Ht) as [E _]. destruct (on_list t s) eqn:Ho; [|done].
  pose proof (on_list_places s t Ho e). lia.
Qed.

Lemma list_place e s c y t sk :
  s.(cpus) !! c = Some y → sk = bool_decide (e = Some c) → t ∈ cpu_places sk y → (0 < places e s t)%nat.
Proof. intros Hc -> Ht%occs_elem. pose proof (cpus_occ_elem e t _ c y Hc). unfold places. lia. Qed.

Lemma hand_not_zombie e d H s t c y : sinv e d H s → t ∈ H → s.(cpus) !! c = Some y → t ∉ y.(c_zombies).
Proof.
  intros Hs Ht Hc Hz. destruct (hand_places e d H s t Hs Ht) as [E _].
  pose proof (list_place e s c y t _ Hc eq_refl) as Hp. rewrite E in Hp. apply Nat.lt_irrefl with 0%nat, Hp.
  unfold cpu_places. set_solver.
Qed.

(** Two processors have different current threads. *)
Lemma cur_inj e d H s c c' y y' :
  sinv e d H s → s.(cpus) !! c = Some y → s.(cpus) !! c' = Some y' → y.(c_curthread) = y'.(c_curthread) → c = c'.
Proof.
  intros Hs Hc Hc' E. destruct (co_cur _ _ _ _ _ (si_cpu _ _ _ _ Hs c y Hc)) as (x & Hx & Hx1 & _).
  destruct (co_cur _ _ _ _ _ (si_cpu _ _ _ _ Hs c' y' Hc')) as (x' & Hx' & Hx1' & _). congruence.
Qed.

(** ** Updates *)

Lemma put_cpu_inv e d H H' s c y y' :
  sinv e d H s → s.(cpus) !! c = Some y → y'.(c_curthread) = y.(c_curthread) → cpu_ok e d s c y' →
  (∀ t, let sk := bool_decide (e = Some c) in
        (occs t (cpu_places sk y') + occs t H' = occs t (cpu_places sk y) + occs t H)%nat) →
  sinv e d H' (put_cpu c y' s).
Proof.
  intros [P T C] Hc Ec Hy Ho. split.
  - intros t. specialize (P t). specialize (Ho t). simpl in Ho. pose proof (cpus_occ_insert e t _ c y y' Hc).
    change (threads (put_cpu c y' s)) with (threads s). unfold places in *. simpl. lia.
  - intros t x Hx. destruct (T t x Hx) as [(c1 & E1 & I1) T2 T3 T4]. split; try done.
    + exists c1. split; [done|]. simpl. apply lookup_lt_is_Some. rewrite length_insert. by apply lookup_lt_is_Some.
    + intros E. destruct (T4 E) as (c2 & y2 & H1 & H2 & H3). simpl. destruct (decide (c2 = c)) as [->|Hne].
      * exists c, y'. rewrite list_lookup_insert_eq by (by eapply lookup_lt_Some). split_and!; try done. congruence.
      * exists c2, y2. by rewrite list_lookup_insert_ne.
  - intros c1 y1. simpl. intros H1. destruct (decide (c1 = c)) as [->|Hne].
    + rewrite list_lookup_insert_eq in H1 by (by eapply lookup_lt_Some). simplify_eq. destruct Hy. by split.
    + rewrite list_lookup_insert_ne in H1 by done. destruct (C c1 y1 H1). by split.
Qed.

Lemma put_thread_inv e d H H' s t x x' :
  sinv e d H s → s.(threads) !! t = Some x → thread_ok s t x' → x'.(t_cpu) = x.(t_cpu) →
  (∀ c y, s.(cpus) !! c = Some y → y.(c_curthread) = t → d ≠ Some c →
     as_ok x' y ∧ x'.(t_in_interrupt) = bool_decide (is_Some y.(c_irq))) →
  (∀ c y, s.(cpus) !! c = Some y → t ∈ y.(c_zombies) → zombie x') →
  (∀ u, (occs u (op_threads x'.(t_op)) + occs u H' = occs u (op_threads x.(t_op)) + occs u H)%nat) →
  sinv e d H' (put_thread t x' s).
Proof.
  intros [P T C] Ht Hok Ecpu Hcur Hz Ho. split.
  - intros u. specialize (P u). specialize (Ho u). unfold places in *. simpl.
    pose proof (msum_insert (λ x, occs u (op_threads (t_op x))) _ t x x' Ht) as Hm. simpl in Hm.
    assert (is_Some (<[t:=x']> (threads s) !! u) ↔ is_Some (threads s !! u)) as E.
    { destruct (decide (u = t)) as [->|]; [rewrite lookup_insert_eq, Ht|rewrite lookup_insert_ne by done]; naive_solver. }
    destruct (decide (is_Some (<[t:=x']> _ !! u))), (decide (is_Some (threads s !! u))); try tauto; lia.
  - intros u z Hu. simpl in Hu. destruct (decide (u = t)) as [->|Hne].
    + rewrite lookup_insert_eq in Hu. simplify_eq. by destruct Hok.
    + rewrite lookup_insert_ne in Hu by done. by destruct (T u z Hu).
  - intros c y Hc. destruct (C c y Hc) as [(x0 & A1 & A2 & A3) C2 C3 C4 C5 C6].
    assert (∀ u, (∃ z, threads s !! u = Some z ∧ t_cpu z = Some c) → ∃ z, <[t:=x']> (threads s) !! u = Some z ∧ t_cpu z = Some c) as Hu.
    { intros u (z & H1 & H2). destruct (decide (u = t)) as [->|]; [exists x'; rewrite lookup_insert_eq; split; [done|congruence]|].
      exists z. by rewrite lookup_insert_ne. }
    split; try done; simpl.
    + destruct (decide (c_curthread y = t)) as [E|Hne].
      * exists x'. rewrite E, lookup_insert_eq. split; [done|]. split; [congruence|]. intros Hd. by apply (Hcur c).
      * exists x0. by rewrite lookup_insert_ne.
    + intros u Hu1. apply Hu. auto.
    + intros u Hu1. destruct (decide (u = t)) as [->|Hne]; [exists x'; rewrite lookup_insert_eq; split; [done|by apply (Hz c y)]|].
      destruct (C3 u Hu1) as (z & ? & ?). exists z. by rewrite lookup_insert_ne.
Qed.

Lemma put_wchan_inv e d H H' s w l l' :
  sinv e d H s → s.(wchans) !! w = Some l → (∀ t, (occs t l' + occs t H' = occs t l + occs t H)%nat) →
  sinv e d H' (put_wchan w l' s).
Proof.
  intros [P T C] Hw Ho. split.
  - intros t. specialize (P t). specialize (Ho t). unfold places in *. simpl. pose proof (msum_insert (occs t) _ w l l' Hw). lia.
  - intros t x Hx. by destruct (T t x Hx).
  - intros c y Hc. by destruct (C c y Hc).
Qed.

(** ** Rules *)

Lemma wp_get_cpu {A} c y s (k : cpu → M sys A) Q : s.(cpus) !! c = Some y → wp (k y) Q s → wp (get_cpu c ≫= k) Q s.
Proof. intros H Hk. unfold get_cpu. apply wp_bind, wp_get. unfold of_opt. by rewrite H. Qed.

Lemma wp_get_thread {A} t x s (k : thread → M sys A) Q : s.(threads) !! t = Some x → wp (k x) Q s → wp (get_thread t ≫= k) Q s.
Proof. intros H Hk. unfold get_thread. apply wp_bind, wp_get. unfold of_opt. by rewrite H. Qed.

Lemma wp_upd_cpu {A} c y f s (k : unit → M sys A) Q :
  s.(cpus) !! c = Some y → wp (k tt) Q (put_cpu c (f y) s) → wp (upd_cpu c f ≫= k) Q s.
Proof. intros H Hk. unfold upd_cpu. apply wp_bind. by eapply wp_get_cpu; [done|]. Qed.

Lemma wp_upd_thread {A} t x f s (k : unit → M sys A) Q :
  s.(threads) !! t = Some x → wp (k tt) Q (put_thread t (f x) s) → wp (upd_thread t f ≫= k) Q s.
Proof. intros H Hk. unfold upd_thread. apply wp_bind. by eapply wp_get_thread; [done|]. Qed.

Lemma wp_upd_cpu' c y f s (Q : unit → sys → Prop) :
  s.(cpus) !! c = Some y → Q tt (put_cpu c (f y) s) → wp (upd_cpu c f) Q s.
Proof. intros H Hk. unfold upd_cpu. by eapply wp_get_cpu. Qed.

Lemma wp_upd_thread' t x f s (Q : unit → sys → Prop) :
  s.(threads) !! t = Some x → Q tt (put_thread t (f x) s) → wp (upd_thread t f) Q s.
Proof. intros H Hk. unfold upd_thread. by eapply wp_get_thread. Qed.

Lemma ipi_bit n : n = 0 ∨ n = 4 → Z.lor n (Z.shiftl 1 IPI_UNIDLE) = 4.
Proof. by intros [-> | ->]. Qed.

(** The processor of a thread that has been made runnable. *)
Definition with_ready t y : cpu :=
  let y1 := set_runqueue (y.(c_runqueue) ++ [t]) y in
  if y.(c_isidle) then set_ipi 4 y.(c_shootdown) y.(c_numshootdown) y1 else y1.

Lemma make_runnable_inv e d H s t :
  sinv e d (t :: H) s →
  wp (thread_make_runnable t)
     (λ _ s', sinv e d H s' ∧ ∃ x c y, s.(threads) !! t = Some x ∧ x.(t_cpu) = Some c ∧ s.(cpus) !! c = Some y ∧
        s' = put_cpu c (with_ready t y) s) s.
Proof.
  intros Hs. destruct (hand_places e d _ s t Hs) as [E [x Hx]]; [by left|].
  pose proof (si_thread _ _ _ _ Hs t x Hx) as [(c & Ec & [y Hc]) _ _ _].
  pose proof (si_cpu _ _ _ _ Hs c y Hc) as [C1 C2 C3 C4 C5 [C6 C7]].
  unfold thread_make_runnable. eapply wp_get_thread; [done|]. eapply wp_of_opt; [done|]. eapply wp_get_cpu; [done|].
  unfold off_lists. apply wp_bind, wp_get. rewrite (hand_off_list e d (t :: H)) by (done || by left). apply wp_ret, wp_modify.
  set (y1 := set_runqueue (c_runqueue y ++ [t]) y).
  assert (∀ t0, t0 ∈ c_runqueue y1 ++ c_zombies y1 ++ c_victims y1 → ∃ x, threads s !! t0 = Some x ∧ t_cpu x = Some c) as Hl.
  { intros u Hu. simpl in Hu. destruct (decide (u = t)) as [->|]; [by exists x|]. apply C2. set_solver. }
  assert (irq_ok y1) as Hi.
  { revert C4. unfold irq_ok. simpl. destruct (c_irq y) as [[]|]; rewrite ?length_app; simpl; try done; intros; split_and?; try tauto; lia. }
  assert (∀ u (sk : bool), (occs u (cpu_places sk y1) + occs u H = occs u (cpu_places sk y) + occs u (t :: H))%nat) as Ho.
  { intros u sk. unfold cpu_places, running. simpl. rewrite !occs_app. simpl. lia. }
  destruct (c_isidle y) eqn:Ei; cbn [when].
  - unfold ipi_send. apply wp_kassert; [done|]. unfold ipi_lock.
    assert (cpus (put_cpu c y1 s) !! c = Some y1) as Hc1 by (simpl; apply list_lookup_insert_eq; by eapply lookup_lt_Some).
    apply wp_bind. eapply wp_get_cpu; [done|]. simpl. rewrite C6. apply wp_ret.
    eapply wp_upd_cpu'; [done|]. cbn [c_ipi_pending set_runqueue y1]. rewrite ipi_bit by done.
    set (y2 := set_ipi _ _ _ y1). assert (put_cpu c y2 (put_cpu c y1 s) = put_cpu c y2 s) as ->.
    { unfold put_cpu. simpl. by rewrite list_insert_insert_eq. }
    split; [|exists x, c, y; unfold with_ready; by rewrite Ei]. eapply put_cpu_inv; [done|done|done| |].
    + split; try done. split; [done|by right].
    + intros u. apply Ho.
  - apply wp_ret. split; [|exists x, c, y; unfold with_ready; by rewrite Ei].
    eapply put_cpu_inv; [done|done|done| |].
    + split; try done. intros _ Hi1. simpl in Hi1. congruence.
    + intros u. apply Ho.
Qed.

(** ** Destroying threads *)

Definition del_thread t s : sys := Sys (delete t s.(threads)) s.(cpus) s.(wchans) s.(p_threads).

Lemma del_thread_inv e d H s t x :
  sinv e d (t :: H) s → s.(threads) !! t = Some x → x.(t_op) = WNone →
  (∀ c y, s.(cpus) !! c = Some y → y.(c_curthread) ≠ t) → sinv e d H (del_thread t s).
Proof.
  intros Hs Ht Hop Hcur. pose proof Hs as [P T C]. split.
  - intros u. specialize (P u). unfold places in *. simpl in *.
    pose proof (msum_delete (λ x, occs u (op_threads (t_op x))) _ t x Ht) as Hm. simpl in Hm. rewrite Hop in Hm. simpl in Hm.
    destruct (decide (t = u)) as [<-|Hne].
    + rewrite lookup_delete_eq. rewrite Ht in P. destruct (decide (is_Some (Some x))) as [_|n]; [|by destruct n].
      destruct (decide (is_Some None)) as [[? ?]|_]; [done|lia].
    + rewrite lookup_delete_ne by done. lia.
  - intros u z Hu. simpl in Hu. apply lookup_delete_Some in Hu as [_ Hu]. by destruct (T u z Hu).
  - intros c y Hc. destruct (C c y Hc) as [(x0 & A1 & A2 & A3) C2 C3 C4 C5 C6].
    assert (t ∉ cpu_places (bool_decide (e = Some c)) y) as Hn.
    { intros Hn. destruct (hand_places e d _ s t Hs) as [E _]; [by left|]. pose proof (list_place e s c y t _ Hc eq_refl Hn). lia. }
    unfold cpu_places in Hn. split; try done; simpl.
    + exists x0. rewrite lookup_delete_ne; [done|]. intros E. by apply (Hcur c y Hc).
    + intros u Hu. rewrite lookup_delete_ne by set_solver. auto.
    + intros u Hu. rewrite lookup_delete_ne by set_solver. auto.
Qed.

(** What a processor keeps of itself. *)
Definition same_cpu (y y' : cpu) : Prop :=
  y'.(c_curthread) = y.(c_curthread) ∧ y'.(c_isidle) = y.(c_isidle) ∧ y'.(c_irq) = y.(c_irq) ∧ y'.(c_runqueue) = y.(c_runqueue) ∧
  y'.(c_victims) = y.(c_victims) ∧ y'.(c_as) = y.(c_as).

Lemma lookup_put_cpu c y y0 s : s.(cpus) !! c = Some y0 → (put_cpu c y s).(cpus) !! c = Some y.
Proof. intros H. simpl. apply list_lookup_insert_eq. by eapply lookup_lt_Some. Qed.

Lemma exorcise_one d H s me y z zs :
  sinv None d H s → s.(cpus) !! me = Some y → y.(c_isidle) = false → y.(c_zombies) = z :: zs →
  sinv None d (z :: H) (put_cpu me (set_zombies zs y) s) ∧ z ≠ y.(c_curthread) ∧
  ∃ x, s.(threads) !! z = Some x ∧ zombie x ∧ x.(t_cpu) = Some me.
Proof.
  intros Hs Hc Hi Ez. pose proof (si_cpu _ _ _ _ Hs me y Hc) as [C1 C2 C3 C4 C5 C6].
  destruct (C3 z) as (x & Hx & Hzx); [rewrite Ez; by left|]. destruct (C2 z) as (x' & Hx' & Hcx); [rewrite Ez, !elem_of_app, elem_of_cons; tauto|]. simplify_eq.
  split.
  - eapply put_cpu_inv; [done|done|done| |].
    + split; try done; simpl; intros u Hu; [apply C2|apply C3]; rewrite Ez; rewrite ?elem_of_app, ?elem_of_cons in *; tauto.
    + intros u. unfold cpu_places, running. simpl. rewrite Ez, !occs_app. simpl. lia.
  - split; [|by exists x]. intros E. pose proof (si_place _ _ _ _ Hs z) as P. pose proof (cpus_occ_elem None z _ me y Hc) as P2.
    unfold cpu_places, running in P2. rewrite Hi, Ez in P2. rewrite !occs_app in P2. unfold places in P.
    replace (bool_decide (None = Some me)) with false in P2 by (symmetry; by apply bool_decide_false).
    simpl in P2. destruct (decide (z = z)); [|done]. destruct (decide (c_curthread y = z)); [|done].
    destruct (decide (is_Some (threads s !! z))); lia.
Qed.

Lemma exorcise_inv n d H s me y :
  sinv None d H s → s.(cpus) !! me = Some y → y.(c_isidle) = false → length y.(c_zombies) = n →
  wp (exorcise_loop (S n) me)
     (λ _ s', sinv None d H s' ∧ s'.(wchans) = s.(wchans) ∧ s'.(p_threads) = s.(p_threads) ∧
        ∃ y', s'.(cpus) = <[me:=y']> s.(cpus) ∧ same_cpu y y' ∧ y'.(c_zombies) = [] ∧
        ∀ t, t ∉ y.(c_zombies) → s'.(threads) !! t = s.(threads) !! t) s.
Proof.
  revert s y. induction n as [|n IH]; intros s y Hs Hc Hi Hn; cbn [exorcise_loop].
  - destruct (c_zombies y) eqn:Ez; [|done]. eapply wp_get_cpu; [done|]. rewrite Ez. apply wp_ret.
    split_and!; try done. exists y. split; [by rewrite list_insert_id|]. by split.
  - destruct (c_zombies y) as [|z zs] eqn:Ez; [done|]. eapply wp_get_cpu; [done|]. rewrite Ez. simplify_eq/=.
    destruct (exorcise_one d H s me y z zs Hs Hc Hi Ez) as (Hs1 & Hne & x & Hx & (Z1 & Z2 & Z3) & Zc).
    apply wp_modify. apply wp_kassert; [apply negb_true_iff; by apply Nat.eqb_neq|]. eapply wp_get_thread; [done|].
    apply wp_kassert; [by apply bool_decide_true|].
    set (s1 := put_cpu me (set_zombies zs y) s) in *. assert (cpus s1 !! me = Some (set_zombies zs y)) as Hc1 by (by eapply lookup_put_cpu).
    assert (wp (thread_destroy me z) (λ _ s', s' = del_thread z s1) s1) as Hd.
    { unfold thread_destroy. eapply wp_get_cpu; [done|]. apply wp_kassert; [apply negb_true_iff; by apply Nat.eqb_neq|].
      eapply wp_get_thread; [exact Hx|]. apply wp_kassert; [apply negb_true_iff, bool_decide_false; congruence|].
      apply wp_kassert; [by apply bool_decide_true|]. apply wp_get. apply wp_kassert; [|done].
      apply negb_true_iff. eapply hand_off_list; [done|by left]. }
    apply wp_bind. eapply wp_mono; [|exact Hd]. intros [] s2 ->.
    assert (sinv None d H (del_thread z s1)) as Hs2.
    { eapply del_thread_inv; [done|exact Hx|done|]. intros c y1 Hc2 E.
      assert (c_curthread (set_zombies zs y) ≠ z) by (simpl; congruence).
      destruct (co_cur _ _ _ _ _ (si_cpu _ _ _ _ Hs1 c y1 Hc2)) as (x1 & Hx1 & Hc3 & _).
      rewrite E in Hx1. change (threads s1) with (threads s) in Hx1. simplify_eq. }
    eapply wp_mono; [|apply (IH _ (set_zombies zs y) Hs2 Hc1 Hi); done].
    intros _ s3 (G1 & G2 & G3 & y3 & G4 & G5 & G6 & G7). split_and!; try done. exists y3. split.
    { rewrite G4. unfold s1. simpl. apply list_insert_insert_eq. }
    split; [done|]. split; [done|]. intros t Ht. rewrite G7 by set_solver. simpl. apply lookup_delete_ne. set_solver.
Qed.

(** ** Switching *)

(** A thread that runs is in no list. *)
Lemma running_places d H s me y :
  sinv None d H s → s.(cpus) !! me = Some y → y.(c_isidle) = false →
  ∀ c y', s.(cpus) !! c = Some y' → y.(c_curthread) ∉ y'.(c_runqueue) ++ y'.(c_zombies) ++ y'.(c_victims).
Proof.
  intros Hs Hc Hi c y' Hc' Hin. pose proof (si_cpu _ _ _ _ Hs c y' Hc') as [_ C2 _ _ _ _].
  destruct (C2 _ Hin) as (x & Hx & Ex). destruct (co_cur _ _ _ _ _ (si_cpu _ _ _ _ Hs me y Hc)) as (x' & Hx' & Ex' & _). assert (me = c) by congruence.
  subst me. assert (y' = y) by congruence. subst y'.
  pose proof (si_place _ _ _ _ Hs (c_curthread y)) as P. rewrite Hx in P. destruct (decide (is_Some (Some x))) as [_|n]; [|by destruct n].
  pose proof (cpus_occ_elem None (c_curthread y) _ c y Hc) as P2. unfold places in P.
  apply occs_elem in Hin. unfold cpu_places, running in P2. rewrite Hi in P2.
  replace (bool_decide (None = Some c)) with false in P2 by (symmetry; by apply bool_decide_false).
  rewrite !occs_app in *. simpl in P2. destruct (decide (c_curthread y = c_curthread y)); [lia|done].
Qed.

(** Changing what is only for show. *)
Lemma show_inv e d H s t x st w :
  sinv e d H s → s.(threads) !! t = Some x → (∀ c y, s.(cpus) !! c = Some y → t ∉ y.(c_zombies)) →
  sinv e d H (put_thread t (set_state st (set_wname w x)) s).
Proof.
  intros Hs Hx Hz. eapply put_thread_inv; [done|done| |done| | |done].
  - by destruct (si_thread _ _ _ _ Hs t x Hx).
  - intros c y Hc E Hd. destruct (co_cur _ _ _ _ _ (si_cpu _ _ _ _ Hs c y Hc)) as (x' & Hx' & _ & Ha).
    rewrite E, Hx in Hx'. simplify_eq. by destruct (Ha Hd).
  - intros c y Hc Hin. by destruct (Hz c y Hc).
Qed.

Lemma clear_d e me H s y x :
  sinv e (Some me) H s → s.(cpus) !! me = Some y → s.(threads) !! y.(c_curthread) = Some x → as_ok x y →
  x.(t_in_interrupt) = bool_decide (is_Some y.(c_irq)) → sinv e None H s.
Proof.
  intros [P T C] Hc Hx Ha Hi. split; [done..|]. intros c y' Hc'. destruct (C c y' Hc') as [(x' & A1 & A2 & A3) C2 C3 C4 C5 C6].
  split; try done. exists x'. split; [done|]. split; [done|]. intros _. destruct (decide (c = me)) as [->|]; [|apply A3; congruence].
  by simplify_eq.
Qed.

Lemma as_activate_inv me H s y x :
  sinv None (Some me) H s → s.(cpus) !! me = Some y → s.(threads) !! y.(c_curthread) = Some x →
  x.(t_in_interrupt) = bool_decide (is_Some y.(c_irq)) →
  wp (activate_as has_as me)
     (λ _ s', sinv None None H s' ∧ ∃ a, s' = put_cpu me (set_as a y) s) s.
Proof.
  intros Hs Hc Hx Hi. unfold activate_as. eapply wp_get_cpu; [done|]. eapply wp_get_thread; [done|].
  assert (∀ a, (∀ p, x.(t_proc) = Some p → has_as p = true → a = Some p) → sinv None None H (put_cpu me (set_as a y) s)) as Hput.
  { intros a Ha. assert (sinv None (Some me) H (put_cpu me (set_as a y) s)) as Hs1.
    { eapply put_cpu_inv; [done|done|done| |done]. destruct (si_cpu _ _ _ _ Hs me y Hc) as [(x0 & ? & ? & _) ? ? ? ? ?].
      split; try done. by exists x0. }
    by eapply (clear_d _ _ _ _ (set_as a y) x); [done|by eapply lookup_put_cpu|..]. }
  assert (put_cpu me (set_as (c_as y) y) s = s) as Hid.
  { destruct s, y. unfold put_cpu, set_as. simpl in *. by rewrite list_insert_id. }
  destruct (t_proc x) as [p|] eqn:Ep; [destruct (has_as p) eqn:Ea|]; cbn [when].
  - eapply wp_upd_cpu'; [done|]. split; [|by exists (Some p)]. apply Hput. intros q E _. by simplify_eq.
  - apply wp_ret. rewrite <- Hid. split; [|exists (c_as y); by rewrite Hid]. apply Hput. intros q E Hq. simplify_eq. congruence.
  - apply wp_ret. rewrite <- Hid. split; [|exists (c_as y); by rewrite Hid]. by apply Hput.
Qed.

(** Nothing of a handler is pending but its return. *)
Definition quiet y : Prop := y.(c_irq) = None ∨ y.(c_irq) = Some IRet.

Lemma quiet_op y : quiet y → irq_op y.(c_irq) = WNone.
Proof. by intros [-> | ->]. Qed.

(** What the tail of a switch leaves. *)
Definition switched (me : nat) (y : cpu) s s' : Prop :=
  s'.(wchans) = s.(wchans) ∧ s'.(p_threads) = s.(p_threads) ∧
  (∀ t, t ∉ y.(c_zombies) → t ≠ y.(c_curthread) → s'.(threads) !! t = s.(threads) !! t) ∧
  ∃ y', s'.(cpus) = <[me:=y']> s.(cpus) ∧ y'.(c_curthread) = y.(c_curthread) ∧ y'.(c_isidle) = false ∧
        y'.(c_runqueue) = y.(c_runqueue) ∧ y'.(c_zombies) = [] ∧ quiet y'.

(** The end of [thread_switch] and of [thread_startup]. *)
Lemma exorcise_tail me H s y y0 s0 :
  sinv None None H s → s.(cpus) = <[me:=y]> s0.(cpus) → is_Some (s0.(cpus) !! me) → y.(c_isidle) = false → quiet y →
  y.(c_curthread) = y0.(c_curthread) → y.(c_runqueue) = y0.(c_runqueue) → y.(c_zombies) = y0.(c_zombies) →
  s.(wchans) = s0.(wchans) → s.(p_threads) = s0.(p_threads) →
  (∀ t, t ≠ y0.(c_curthread) → s.(threads) !! t = s0.(threads) !! t) →
  wp (exorcise me) (λ _ s', sinv None None H s' ∧ switched me y0 s0 s') s.
Proof.
  intros Hs Hc [z Hz] Hi Hq E1 E2 E3 Ew Ep Et. unfold exorcise.
  assert (cpus s !! me = Some y) as Hy by (rewrite Hc; apply list_lookup_insert_eq; by eapply lookup_lt_Some).
  eapply wp_get_cpu; [done|]. eapply wp_mono; [|by eapply (exorcise_inv _ _ _ _ _ y)].
  intros _ s' (G1 & G2 & G3 & y' & G4 & (F1 & F2 & F3 & F4 & F5 & F6) & G6 & G7). split; [done|].
  split; [congruence|]. split; [congruence|]. split; [intros t H1 H2; rewrite G7 by congruence; by apply Et|].
  exists y'. split; [rewrite G4, Hc; apply list_insert_insert_eq|]. split; [congruence|]. split; [congruence|].
  split; [congruence|]. split; [done|]. unfold quiet. by rewrite F3.
Qed.

Lemma resume_inv me H s y x :
  sinv None (Some me) H s → s.(cpus) !! me = Some y → y.(c_isidle) = false → quiet y →
  s.(threads) !! y.(c_curthread) = Some x → (x.(t_next) = Some y.(c_curthread) → as_ok x y) →
  wp (resume has_as me) (λ _ s', sinv None None H s' ∧ switched me y s s') s.
Proof.
  intros Hs Hc Hi Hq Hx Has. unfold resume. eapply wp_get_cpu; [done|]. eapply wp_get_thread; [done|].
  eapply wp_upd_cpu; [done|]. set (q := if t_in_interrupt x then Some IRet else None). set (y1 := set_irq q y). set (s1 := put_cpu me y1 s).
  pose proof (si_cpu _ _ _ _ Hs me y Hc) as [C1 C2 C3 C4 C5 C6].
  assert (quiet y1) as Hq1 by (unfold quiet, y1, q; simpl; destruct (t_in_interrupt x); auto).
  assert (irq_ok y1) as Hirq.
  { revert C4. unfold irq_ok. simpl. unfold q. destruct Hq as [-> | ->], (t_in_interrupt x); done. }
  assert (sinv None (Some me) H s1) as Hs1.
  { eapply put_cpu_inv; [done|done|done| |].
    - destruct C1 as (x0 & A1 & A2 & _). split; try done; [by exists x0|]. intros _ Hi1. simpl in Hi1. congruence.
    - intros t sk. unfold cpu_places. rewrite (quiet_op y Hq), (quiet_op y1 Hq1). done. }
  assert (cpus s1 !! me = Some y1) as Hc1 by (by eapply lookup_put_cpu).
  assert (t_in_interrupt x = bool_decide (is_Some (c_irq y1))) as Hint.
  { simpl. unfold q. by destruct (t_in_interrupt x). }
  set (x' := set_state S_RUN (set_wname WNull x)). set (s2 := put_thread (c_curthread y) x' s1).
  assert (sinv None (Some me) H s2) as Hs2.
  { apply show_inv; [done|done|]. intros c y' Hc' Hz. apply (running_places _ _ s1 me y1 Hs1 Hc1 Hi c y' Hc'). simpl. set_solver. }
  assert (threads s2 !! c_curthread y1 = Some x') as Hx2 by (simpl; apply lookup_insert_eq).
  assert (∀ t, t ≠ c_curthread y → threads s2 !! t = threads s !! t) as Ht by (intros t Hn; simpl; by rewrite lookup_insert_ne).
  assert (wp (activate_as has_as me ≫= λ _, exorcise me) (λ _ s', sinv None None H s' ∧ switched me y s s') s2) as Hact.
  { apply wp_bind. eapply wp_mono; [|by eapply (as_activate_inv me H s2 y1 x')]. intros [] s3 (Hs3 & a & ->).
    eapply (exorcise_tail _ _ _ (set_as a y1)); try done. simpl. by rewrite list_insert_insert_eq. }
  destruct (t_next x) as [next|] eqn:En.
  - unfold switch_return. eapply wp_upd_thread; [done|]. change (wp (when (negb (c_curthread y =? next)%nat) (activate_as has_as me) ≫= λ _, exorcise me)
      (λ _ s', sinv None None H s' ∧ switched me y s s') s2).
    destruct (Nat.eqb_spec (c_curthread y) next) as [E|Hne]; cbn [negb when]; [|done]. apply wp_bind, wp_ret.
    eapply (exorcise_tail _ _ _ y1); try done. eapply (clear_d _ _ _ _ y1 x'); try done. intros p Hp. apply Has; [congruence|done].
  - unfold thread_startup. eapply wp_get_cpu; [done|]. by eapply wp_upd_thread.
Qed.

(** One pass of the loop: the processor has put its thread away. *)
Definition next_done (me : nat) (y : cpu) s s' : Prop :=
  match y.(c_runqueue) with
  | [] => s' = put_cpu me (set_woken false y) s
  | next :: rest => ∃ y', s'.(cpus) = <[me:=y']> s.(cpus) ∧ y'.(c_curthread) = next ∧ y'.(c_isidle) = false ∧ y'.(c_runqueue) = rest ∧
                          y'.(c_zombies) = [] ∧ quiet y' ∧ s'.(wchans) = s.(wchans)
  end.

Lemma cpus_occ_idle t l i y : l !! i = Some y → y.(c_isidle) = true → cpus_occ (Some i) t l = cpus_occ None t l.
Proof.
  intros H Hi. unfold cpus_occ.
  assert (∀ k : list (nat * cpu), (∀ a b, (a, b) ∈ k → a = i → b = y) → sum_list_with (cpu_occ (Some i) t) k = sum_list_with (cpu_occ None t) k) as Hk.
  { induction k as [|[a b] k IH]; intros Hk; [done|]. cbn [sum_list_with]. rewrite IH by (intros; eapply Hk; [by right|done]). f_equal.
    destruct (decide (a = i)) as [->|]; [|by rewrite (cpu_occ_ne t i)]. rewrite (Hk i b) by (done || by left).
    unfold cpu_occ, cpu_places, running. simpl. by rewrite Hi, !orb_true_l. }
  apply Hk. intros a b [j Hj]%list_elem_of_lookup ->. rewrite list_lookup_imap in Hj.
  destruct (l !! j) eqn:E; simpl in Hj; simplify_eq. done.
Qed.

(** The next thread becomes the current one. *)
Lemma take_next_inv e me H s y x next rest :
  e = None ∨ e = Some me → sinv e None H s → s.(cpus) !! me = Some y → y.(c_isidle) = true → quiet y →
  s.(threads) !! y.(c_curthread) = Some x → y.(c_runqueue) = next :: rest →
  let y1 := set_curthread next (set_idle false (set_runqueue rest y)) in
  let s1 := put_thread y.(c_curthread) (set_tnext (Some next) x) (put_cpu me y1 s) in
  sinv None (Some me) H s1 ∧ ∃ x1, s1.(threads) !! next = Some x1 ∧ (x1.(t_next) = Some next → as_ok x1 y1).
Proof.
  intros He Hs Hc Hi Hq Hx Hr y1 s1. pose proof Hs as [P T C].
  pose proof (C me y Hc) as [(x0 & A1 & A2 & A3) C2 C3 C4 C5 C6]. rewrite Hx in A1. injection A1 as <-.
  destruct (C2 next) as (xn & Hxn & Ecn); [rewrite Hr; by left|].
  assert (∀ t z, s1.(threads) !! t = Some z → ∃ z0, s.(threads) !! t = Some z0 ∧ t_cpu z = t_cpu z0 ∧ t_stack z = t_stack z0 ∧ t_proc z = t_proc z0 ∧
            t_op z = t_op z0 ∧ t_state z = t_state z0 ∧ t_in_interrupt z = t_in_interrupt z0 ∧
            (t = y.(c_curthread) ∧ t_next z = Some next ∨ t ≠ y.(c_curthread) ∧ z = z0)) as Hback.
  { intros t z. simpl. destruct (decide (t = c_curthread y)) as [->|Hne].
    - rewrite lookup_insert_eq. intros [= <-]. exists x. split_and!; try done. by left.
    - rewrite lookup_insert_ne by done. intros Hz. exists z. split_and!; try done. by right. }
  assert (∀ t z0, s.(threads) !! t = Some z0 → ∃ z, s1.(threads) !! t = Some z ∧ t_cpu z = t_cpu z0 ∧ (zombie z0 → zombie z) ∧
            t_in_interrupt z = t_in_interrupt z0 ∧ t_proc z = t_proc z0) as Hfwd.
  { intros t z0 Hz. simpl. destruct (decide (t = c_curthread y)) as [->|Hne]; [exists (set_tnext (Some next) x); rewrite lookup_insert_eq; by simplify_eq|].
    exists z0. by rewrite lookup_insert_ne. }
  assert (∀ c, s1.(cpus) !! c = if decide (c = me) then Some y1 else s.(cpus) !! c) as Hcpu.
  { intros c. simpl. destruct (decide (c = me)) as [->|]; [apply list_lookup_insert_eq; by eapply lookup_lt_Some|by apply list_lookup_insert_ne]. }
  split; [split|].
  - intros t. specialize (P t). unfold places in *. simpl.
    assert (cpus_occ None t (<[me:=y1]> (cpus s)) = cpus_occ e t (cpus s)) as ->.
    { pose proof (cpus_occ_insert None t _ me y y1 Hc) as E. replace (cpus_occ e t (cpus s)) with (cpus_occ None t (cpus s)).
      - rewrite (bool_decide_false (None = Some me)) in E by done. revert E. unfold cpu_places, running.
        cbn. rewrite Hi, Hr, !occs_app. cbn. lia.
      - destruct He as [-> | ->]; [done|]. symmetry. by eapply cpus_occ_idle. }
    pose proof (msum_insert (λ x, occs t (op_threads (t_op x))) _ _ x (set_tnext (Some next) x) Hx) as Hm. simpl in Hm.
    assert (is_Some (<[c_curthread y:=set_tnext (Some next) x]> (threads s) !! t) ↔ is_Some (threads s !! t)) as E.
    { destruct (decide (t = c_curthread y)) as [->|]; [rewrite lookup_insert_eq, Hx|rewrite lookup_insert_ne by done]; naive_solver. }
    destruct (decide (is_Some (<[_:=_]> _ !! t))), (decide (is_Some (threads s !! t))); try tauto; lia.
  - intros t z Hz. destruct (Hback t z Hz) as (z0 & Hz0 & E1 & E2 & E3 & _ & _ & _ & Hn). destruct (T t z0 Hz0) as [(c1 & T1 & I1) T2 T3 T4].
    split; rewrite ?E1, ?E2, ?E3; try done.
    + exists c1. split; [done|]. rewrite Hcpu. destruct (decide (c1 = me)); [by eexists|done].
    + intros Ht. destruct Hn as [[-> Hn]|[Hne ->]].
      * exists me, y1. rewrite Hcpu, decide_True by done. split_and!; [congruence|done|]. simpl. congruence.
      * destruct (T4 Ht) as (c2 & y2 & H1 & H2 & H3). exists c2, y2. rewrite Hcpu, decide_False; [done|]. intros ->. congruence.
  - intros c yc Hyc. rewrite Hcpu in Hyc. destruct (decide (c = me)) as [->|Hne].
    + injection Hyc as <-. split; simpl.
      * destruct (Hfwd next xn Hxn) as (z & Hz & Ez & _). exists z. split; [exact Hz|]. split; [congruence|done].
      * intros t Ht. destruct (C2 t) as (z0 & Hz0 & E0); [rewrite Hr; rewrite ?elem_of_app, ?elem_of_cons in *; tauto|].
        destruct (Hfwd t z0 Hz0) as (z & Hz & Ez & _). exists z. split; [exact Hz|congruence].
      * intros t Ht. destruct (C3 t Ht) as (z0 & Hz0 & E0). destruct (Hfwd t z0 Hz0) as (z & Hz & _ & Ez & _). exists z. split; [exact Hz|auto].
      * revert C4. unfold irq_ok. simpl. by destruct Hq as [-> | ->].
      * intros _ Hi1. done.
      * done.
    + destruct (C c yc Hyc) as [(z0 & B1 & B2 & B3) D2 D3 D4 D5 D6]. split; try done.
      * destruct (Hfwd _ z0 B1) as (z & Hz & Ez & _ & Ei & Ep). exists z. split; [exact Hz|]. split; [congruence|].
        intros _. destruct (B3 ltac:(done)) as [Q1 Q2]. split; [|congruence]. intros p Hp. apply Q1. congruence.
      * intros t Ht. destruct (D2 t Ht) as (w0 & Hw0 & E0). destruct (Hfwd t w0 Hw0) as (z & Hz & Ez & _). exists z. split; [exact Hz|congruence].
      * intros t Ht. destruct (D3 t Ht) as (w0 & Hw0 & E0). destruct (Hfwd t w0 Hw0) as (z & Hz & _ & Ez & _). exists z. split; [exact Hz|auto].
      * intros _. apply D5. destruct He as [-> | ->]; congruence.
  - destruct (Hfwd next xn Hxn) as (z & Hz & _ & _ & _ & Ep). exists z. split; [exact Hz|]. intros En.
    destruct (Hback next z Hz) as (z0 & Hz0 & Ec & _ & _ & _ & _ & _ & [[E _]|[Hne ->]]).
    + destruct (A3 ltac:(done)) as [Q1 _]. intros p Hp. apply Q1. rewrite E in Hxn. congruence.
    + destruct (T next z0 Hz0) as [_ _ _ T4]. destruct (T4 En) as (c2 & y2 & H1 & H2 & H3). congruence.
Qed.

Lemma retag_idle me H s y :
  sinv (Some me) None H s → s.(cpus) !! me = Some y → y.(c_isidle) = true → idle_ok y → sinv None None H s.
Proof.
  intros [P T C] Hc Hi Hk. split; [|done|].
  - intros t. specialize (P t). unfold places in *. by rewrite (cpus_occ_idle _ _ _ y) in P.
  - intros c y' Hc'. destruct (C c y' Hc') as [C1 C2 C3 C4 C5 C6]. split; try done. intros _.
    destruct (decide (c = me)) as [->|]; [by simplify_eq|apply C5; congruence].
Qed.

Lemma switch_next_inv e me H s y :
  e = None ∨ e = Some me → sinv e None H s → s.(cpus) !! me = Some y → y.(c_isidle) = true → quiet y →
  (y.(c_runqueue) = [] → y.(c_irq) = None) →
  wp (switch_next has_as me) (λ _ s', sinv None None H s' ∧ next_done me y s s') s.
Proof.
  intros He Hs Hc Hi Hq Hn. unfold switch_next, next_done. eapply wp_get_cpu; [done|].
  pose proof (si_cpu _ _ _ _ Hs me y Hc) as [(x & Hx & _) C2 C3 C4 C5 C6].
  destruct (c_runqueue y) as [|next rest] eqn:Er.
  - eapply wp_upd_cpu'; [done|]. split; [|done].
    assert (sinv None None H s) as Hs'.
    { destruct He as [-> | ->]; [done|]. eapply retag_idle; [done..|]. by intros _ _ _ ?. }
    eapply put_cpu_inv; [done|done|done| |done]. destruct (si_cpu _ _ _ _ Hs' me y Hc). split; try done.
    intros _ _ _ _ Hr. simpl in Hr. congruence.
  - apply wp_modify. eapply wp_upd_thread; [exact Hx|].
    destruct (take_next_inv e me H s y x next rest He Hs Hc Hi Hq Hx Er) as (Hs1 & x1 & Hx1 & Has).
    eapply wp_mono; [|eapply (resume_inv me H _ (set_curthread next (set_idle false (set_runqueue rest y))) x1); try done].
    + intros _ s' (G1 & G2 & G3 & _ & y' & G4 & G5 & G6 & G7 & G8 & G9). split; [done|]. exists y'.
      split; [rewrite G4; apply list_insert_insert_eq|done].
    + by eapply lookup_put_cpu.
Qed.

Lemma enter_switch H s me y :
  sinv None None H s → s.(cpus) !! me = Some y → y.(c_isidle) = false → sinv (Some me) None (y.(c_curthread) :: H) s.
Proof.
  intros [P T C] Hc Hi. split; [|done|].
  - intros t. specialize (P t). unfold places in *. rewrite (cpus_occ_skip t _ me y) in P by done. simpl in *. lia.
  - intros c y' Hc'. destruct (C c y' Hc'). split; auto.
Qed.

Lemma rq_not_zombie e d H s c y t c' y' :
  sinv e d H s → s.(cpus) !! c = Some y → t ∈ y.(c_runqueue) → s.(cpus) !! c' = Some y' → t ∉ y'.(c_zombies).
Proof.
  intros Hs Hc Ht Hc' Hz. destruct (co_lists _ _ _ _ _ (si_cpu _ _ _ _ Hs c y Hc) t) as (x & Hx & E); [set_solver|].
  destruct (co_lists _ _ _ _ _ (si_cpu _ _ _ _ Hs c' y' Hc') t) as (x' & Hx' & E'); [set_solver|].
  assert (c = c') by congruence. subst c'. assert (y = y') by congruence. subst y'.
  pose proof (si_place _ _ _ _ Hs t) as P. pose proof (cpus_occ_elem e t _ c y Hc) as P2. unfold places in P.
  apply occs_elem in Ht, Hz. unfold cpu_places in P2. rewrite !occs_app in P2. destruct (decide _); lia.
Qed.

Lemma set_state_eta st x : set_state st x = set_state st (set_wname x.(t_wchan_name) x).
Proof. by destruct x. Qed.

Lemma away_ready_inv me H s y :
  sinv (Some me) None (y.(c_curthread) :: H) s → s.(cpus) !! me = Some y → y.(c_isidle) = false →
  wp (switch_away me S_READY None)
     (λ _ s', sinv (Some me) None H s' ∧ s'.(wchans) = s.(wchans) ∧
        s'.(cpus) = <[me:=set_runqueue (y.(c_runqueue) ++ [y.(c_curthread)]) y]> s.(cpus)) s.
Proof.
  intros Hs Hc Hi. unfold switch_away. eapply wp_get_cpu; [done|]. apply wp_bind.
  eapply wp_mono; [|by apply make_runnable_inv]. intros [] s' (Hs' & x & c & y0 & Hx & Ec & Hc0 & ->).
  destruct (co_cur _ _ _ _ _ (si_cpu _ _ _ _ Hs me y Hc)) as (x' & Hx' & Ec' & _). assert (c = me) by congruence. subst c.
  assert (y0 = y) by congruence. subst y0. unfold with_ready in *. rewrite Hi in *.
  eapply wp_upd_thread'; [exact Hx|]. split; [|done]. rewrite set_state_eta. apply show_inv; [done|done|].
  intros c yc Hyc. eapply (rq_not_zombie _ _ _ _ me); [done|by eapply lookup_put_cpu| |done]. simpl. set_solver.
Qed.

Lemma away_sleep_inv me H s y w l :
  sinv (Some me) None (y.(c_curthread) :: H) s → s.(cpus) !! me = Some y → s.(wchans) !! w = Some l →
  wp (switch_away me S_SLEEP (Some w))
     (λ _ s', sinv (Some me) None H s' ∧ s'.(wchans) = <[w:=l ++ [y.(c_curthread)]]> s.(wchans) ∧ s'.(cpus) = s.(cpus)) s.
Proof.
  intros Hs Hc Hw. unfold switch_away. eapply wp_get_cpu; [done|]. set (t := c_curthread y) in *.
  destruct (hand_places _ _ _ _ t Hs) as [_ [x Hx]]; [by left|].
  apply wp_bind. eapply wp_of_opt; [done|]. eapply wp_upd_thread; [done|]. set (s1 := put_thread t (set_wname (WChan w) x) s).
  assert (sinv (Some me) None (t :: H) s1) as Hs1.
  { replace (set_wname (WChan w) x) with (set_state x.(t_state) (set_wname (WChan w) x)) by (by destruct x).
    apply show_inv; [done|done|]. intros c yc Hyc. eapply hand_not_zombie; [done|by left|done]. }
  unfold wchan_addtail. apply wp_get. eapply wp_of_opt; [exact Hw|]. apply wp_bind, wp_get. rewrite (hand_off_list _ _ _ _ t Hs1) by (by left).
  apply wp_ret. apply wp_modify'. eapply wp_upd_thread'; [simpl; apply lookup_insert_eq|]. split; [|done].
  set (x2 := set_state S_SLEEP _). change (sinv (Some me) None H (put_wchan w (l ++ [t]) (put_thread t x2 s1))).
  eapply (put_wchan_inv _ _ (t :: H) H); [|exact Hw|intros u; rewrite occs_app; simpl; lia].
  unfold x2. rewrite set_state_eta. apply show_inv; [done|simpl; apply lookup_insert_eq|]. intros c yc Hyc. eapply hand_not_zombie; [done|by left|done].
Qed.

Lemma away_zombie_inv me H s y x :
  sinv (Some me) None (y.(c_curthread) :: H) s → s.(cpus) !! me = Some y → s.(threads) !! y.(c_curthread) = Some x →
  x.(t_proc) = None → x.(t_op) = WNone →
  wp (switch_away me S_ZOMBIE None)
     (λ _ s', sinv (Some me) None H s' ∧ s'.(wchans) = s.(wchans) ∧
        s'.(cpus) = <[me:=set_zombies (y.(c_zombies) ++ [y.(c_curthread)]) y]> s.(cpus)) s.
Proof.
  intros Hs Hc Hx Hp Hop. unfold switch_away. eapply wp_get_cpu; [done|]. set (t := c_curthread y) in *.
  apply wp_bind. eapply wp_upd_thread; [done|]. set (s1 := put_thread t (set_wname WZombie x) s).
  assert (∀ z, (∃ st w, z = set_state st (set_wname w x)) → sinv (Some me) None (t :: H) (put_thread t z s)) as Hshow.
  { intros z (st & w & ->). apply show_inv; [done|done|]. intros c yc Hyc. eapply hand_not_zombie; [done|by left|done]. }
  assert (sinv (Some me) None (t :: H) s1) as Hs1.
  { apply Hshow. exists x.(t_state), WZombie. by destruct x. }
  unfold off_lists. apply wp_bind, wp_get. rewrite (hand_off_list _ _ _ _ t Hs1) by (by left). apply wp_ret.
  eapply wp_upd_cpu'; [exact Hc|]. eapply wp_upd_thread'; [simpl; apply lookup_insert_eq|]. split; [|done].
  set (x2 := set_state S_ZOMBIE (set_wname WZombie x)). set (y2 := set_zombies _ y).
  replace (put_thread _ _ _) with (put_cpu me y2 (put_thread t x2 s)).
  2:{ unfold put_cpu, put_thread, s1. simpl. by rewrite insert_insert_eq. }
  assert (sinv (Some me) None (t :: H) (put_thread t x2 s)) as Hs2 by (apply Hshow; by exists S_ZOMBIE, WZombie).
  eapply put_cpu_inv; [exact Hs2|exact Hc|done| |].
  - destruct (si_cpu _ _ _ _ Hs2 me y Hc) as [C1 C2 C3 C4 C5 C6]. destruct C1 as (x0 & A1 & A2 & A3).
    split; try done; simpl; [by exists x0|..].
    + intros u Hu. destruct (decide (u = t)) as [->|]; [by exists x0|]. apply C2. rewrite !elem_of_app in *. set_solver.
    + intros u [Hu|Hu%list_elem_of_singleton]%elem_of_app; [by apply C3|]. subst u. exists x2. rewrite lookup_insert_eq. done.
  - intros u. unfold cpu_places, running. simpl. rewrite !occs_app. simpl. lia.
Qed.

Lemma checkstack_ok e d H s t x : sinv e d H s → s.(threads) !! t = Some x → thread_checkstack t s = Ret tt s.
Proof.
  intros Hs Hx. unfold thread_checkstack, get_thread. rewrite bind_assoc, get_bind. rewrite Hx. rewrite (bind_Ret _ _ _ x s) by done.
  pose proof (to_stack _ _ _ (si_thread _ _ _ _ Hs t x Hx)) as Hg. destruct (t_stack x) as [g|]; [|done]. by rewrite (Hg g).
Qed.

(** The rest of [thread_switch] once the thread has been put away. *)
Lemma switch_rest_inv me H s y :
  sinv (Some me) None H s → s.(cpus) !! me = Some y → quiet y → (y.(c_runqueue) = [] → y.(c_irq) = None) →
  wp (upd_cpu me (set_idle true) ≫= λ _, switch_next has_as me)
     (λ _ s', sinv None None H s' ∧ next_done me (set_idle true y) (put_cpu me (set_idle true y) s) s') s.
Proof.
  intros Hs Hc Hq Hn. eapply wp_upd_cpu; [done|].
  apply (switch_next_inv (Some me)); [by right| |by eapply lookup_put_cpu|done..].
  eapply put_cpu_inv; [done|done|done| |].
  - destruct (si_cpu _ _ _ _ Hs me y Hc). by split.
  - intros t. unfold cpu_places, running. rewrite (bool_decide_true (Some me = Some me)) by done. by rewrite !orb_true_r.
Qed.

(** What the caller of [thread_switch] has to see to. *)
Definition may_switch s (y : cpu) (newstate : threadstate) (wc : option nat) : Prop :=
  match newstate with
  | S_RUN => False
  | S_READY => wc = None
  | S_SLEEP => y.(c_irq) = None ∧ ∃ w, wc = Some w ∧ is_Some (s.(wchans) !! w)
  | S_ZOMBIE => wc = None ∧ y.(c_irq) = None ∧
                ∃ x, s.(threads) !! y.(c_curthread) = Some x ∧ x.(t_proc) = None ∧ x.(t_op) = WNone
  end.

Lemma thread_switch_inv me H s y newstate wc :
  sinv None None H s → s.(cpus) !! me = Some y → quiet y → may_switch s y newstate wc →
  wp (thread_switch has_as me newstate wc) (λ _ s', sinv None None H s') s.
Proof.
  intros Hs Hc Hq Hm. unfold thread_switch. eapply wp_get_cpu; [done|]. destruct (c_isidle y) eqn:Hi; [by apply wp_ret|].
  destruct (co_cur _ _ _ _ _ (si_cpu _ _ _ _ Hs me y Hc)) as (x & Hx & _).
  eapply wp_run; [by eapply checkstack_ok|]. pose proof (enter_switch H s me y Hs Hc Hi) as Hs1.
  destruct newstate; simpl in Hm; [done|..]; cbn [bool_decide andb].
  - subst wc. rewrite bool_decide_true by done. cbn [andb]. destruct (decide (c_runqueue y = [])) as [E|Hne].
    { rewrite bool_decide_true by done. by apply wp_ret. }
    rewrite bool_decide_false by done. apply wp_bind. eapply wp_mono; [|by apply (away_ready_inv me H s y)].
    intros [] s' (Hs' & _ & Ec). eapply wp_mono; [|eapply switch_rest_inv; [done|rewrite Ec; apply list_lookup_insert_eq; by eapply lookup_lt_Some|done|]].
    + by intros _ s'' [? _].
    + simpl. by intros [_ ?]%app_eq_nil.
  - destruct Hm as [Hirq (w & -> & l & Hw)]. rewrite bool_decide_false by done. apply wp_bind.
    eapply wp_mono; [|by eapply (away_sleep_inv me H s y w l)]. intros [] s' (Hs' & _ & Ec).
    eapply wp_mono; [|eapply (switch_rest_inv _ _ _ y); [done|by rewrite Ec|done|done]]. by intros _ s'' [? _].
  - destruct Hm as (-> & Hirq & x' & Hx' & Hp & Hop). rewrite bool_decide_false by done. apply wp_bind.
    eapply wp_mono; [|by eapply (away_zombie_inv me H s y x')]. intros [] s' (Hs' & _ & Ec).
    eapply wp_mono; [|eapply switch_rest_inv; [done|rewrite Ec; apply list_lookup_insert_eq; by eapply lookup_lt_Some|done|done]]. by intros _ s'' [? _].
Qed.

(** ** New threads, leaving threads *)

Lemma new_thread_inv H s t x pt :
  sinv None None H s → s.(threads) !! t = None → x.(t_op) = WNone →
  thread_ok (Sys (<[t:=x]> s.(threads)) s.(cpus) s.(wchans) pt) t x →
  (∀ p l, s.(p_threads) !! p = Some l → ∃ l', pt !! p = Some l' ∧ l ⊆ l') →
  sinv None None (t :: H) (Sys (<[t:=x]> s.(threads)) s.(cpus) s.(wchans) pt).
Proof.
  intros [P T C] Ht Hop Hok Hpt.
  assert (∀ u z, threads s !! u = Some z → <[t:=x]> (threads s) !! u = Some z) as Hu by (intros u z Hu; rewrite lookup_insert_ne; [done|congruence]).
  split.
  - intros u. specialize (P u). unfold places in *. simpl. rewrite msum_new by done. rewrite Hop. simpl.
    destruct (decide (t = u)) as [<-|].
    + rewrite lookup_insert_eq. rewrite Ht in P. destruct (decide (is_Some None)) as [[? ?]|_]; [done|].
      destruct (decide (is_Some (Some x))) as [_|n]; [lia|by destruct n].
    + rewrite lookup_insert_ne by done. lia.
  - intros u z Hz. simpl in Hz. destruct (decide (u = t)) as [->|]; [rewrite lookup_insert_eq in Hz; by simplify_eq|].
    rewrite lookup_insert_ne in Hz by done. destruct (T u z Hz) as [T1 T2 T3 T4]. split; try done. simpl.
    intros p Hp. destruct (T3 p Hp) as (l & Hl & Hin). destruct (Hpt p l Hl) as (l' & Hl' & Hsub). exists l'. split; [done|by apply Hsub].
  - intros c y Hc. destruct (C c y Hc) as [(x0 & A1 & A2 & A3) C2 C3 C4 C5 C6]. split; try done; simpl.
    + exists x0. split; [by apply Hu|done].
    + intros u Hin. destruct (C2 u Hin) as (z & ? & ?). exists z. split; [by apply Hu|done].
    + intros u Hin. destruct (C3 u Hin) as (z & ? & ?). exists z. split; [by apply Hu|done].
Qed.

(** A thread that exists nowhere else can be taken back. *)
Lemma destroy_new_wp me s y t x :
  sinv None None [] s → s.(cpus) !! me = Some y → s.(threads) !! t = None → x.(t_op) = WNone → x.(t_state) = S_READY → x.(t_proc) = None →
  wp (thread_destroy me t) (λ _ s', s' = s) (put_thread t x s).
Proof.
  intros Hs Hc Ht Hop Hst Hp. unfold thread_destroy. eapply wp_get_cpu; [exact Hc|].
  destruct (co_cur _ _ _ _ _ (si_cpu _ _ _ _ Hs me y Hc)) as (x0 & A1 & _).
  apply wp_kassert; [apply negb_true_iff, Nat.eqb_neq; congruence|]. eapply wp_get_thread; [simpl; apply lookup_insert_eq|].
  apply wp_kassert; [rewrite Hst; done|]. apply wp_kassert; [by apply bool_decide_true|]. apply wp_get. apply wp_kassert.
  - apply negb_true_iff. destruct (on_list t _) eqn:Ho; [|done]. pose proof (on_list_places _ _ Ho None) as Hpl. revert Hpl.
    unfold places. simpl. rewrite msum_new by done. rewrite Hop. simpl. pose proof (si_place _ _ _ _ Hs t) as P. unfold places in P.
    rewrite Ht in P. destruct (decide (is_Some None)) as [[? ?]|_]; [done|]. simpl in P. lia.
  - apply wp_modify'. destruct s. unfold put_thread. simpl in *. by rewrite delete_insert_id.
Qed.

Lemma thread_fork_inv me s y proc p km1 km2 km3 km4 :
  sinv None None [] s → s.(cpus) !! me = Some y → is_Some (s.(p_threads) !! p) →
  (proc = Some p ∨ proc = None ∧ ∃ x, s.(threads) !! y.(c_curthread) = Some x ∧ x.(t_proc) = Some p) →
  wp (thread_fork me proc km1 km2 km3 km4) (λ _ s', sinv None None [] s') s.
Proof.
  intros Hs Hc [l Hl] Hproc. unfold thread_fork, thread_create. apply wp_bind.
  destruct km1; [|by apply wp_ret, wp_ret]. destruct km2; [|by apply wp_ret, wp_ret]. cbn [negb]. apply wp_get, wp_modify, wp_ret.
  set (t := fresh (dom (threads s))). assert (threads s !! t = None) as Ht by (apply not_elem_of_dom, is_fresh).
  destruct (co_cur _ _ _ _ _ (si_cpu _ _ _ _ Hs me y Hc)) as (x0 & A1 & A2 & A3).
  destruct km3; cbn [negb].
  2:{ apply wp_bind. eapply wp_mono; [|by eapply destroy_new_wp]. intros [] s' ->. by apply wp_ret. }
  unfold thread_checkstack_init. eapply wp_upd_thread; [simpl; apply lookup_insert_eq|]. eapply wp_get_cpu; [exact Hc|].
  eapply wp_get_thread; [simpl; rewrite !lookup_insert_ne by congruence; exact A1|]. eapply wp_upd_thread; [simpl; apply lookup_insert_eq|].
  eapply wp_of_opt; [instantiate (1 := p); destruct Hproc as [-> |(-> & x & Hx & Hp)]; [done|congruence]|].
  unfold put_thread; cbn [threads cpus wchans p_threads]. rewrite !insert_insert_eq. set (x1 := set_cpu _ _).
  unfold proc_addthread. apply wp_bind. eapply wp_get_thread; [simpl; apply lookup_insert_eq|]. apply wp_kassert; [done|].
  apply wp_get. eapply wp_of_opt; [exact Hl|]. destruct km4; cbn [negb].
  2:{ apply wp_ret. change (ENOMEM =? 0) with false. cbn [negb]. apply wp_bind.
      eapply wp_mono; [|by eapply (destroy_new_wp me s y t x1)]. intros [] s' ->. by apply wp_ret. }
  apply wp_modify. eapply wp_upd_thread; [simpl; apply lookup_insert_eq|]. apply wp_ret. cbn [Z.eqb negb].
  unfold put_thread, put_pthreads; cbn [threads cpus wchans p_threads]. rewrite insert_insert_eq. apply wp_bind.
  eapply wp_mono; [|apply make_runnable_inv; apply new_thread_inv; try done].
  - intros [] s' [? _]. by apply wp_ret.
  - split; simpl.
    + exists me. split; [done|by eexists].
    + by intros g [= <-].
    + intros q [= <-]. exists (l ++ [t]). rewrite lookup_insert_eq. split; [done|set_solver].
    + done.
  - intros q lq Hq. destruct (decide (q = p)) as [->|]; [exists (l ++ [t]); rewrite lookup_insert_eq; split; [done|]; simplify_eq; set_solver|].
    exists lq. by rewrite lookup_insert_ne.
Qed.

Lemma remove_first_elem t l : t ∈ l → ∃ l', remove_first t l = Some l' ∧ ∀ u, u ≠ t → u ∈ l → u ∈ l'.
Proof.
  induction l as [|a l IH]; intros Ht; [by apply elem_of_nil in Ht|]. simpl. destruct (Nat.eqb_spec a t) as [->|Hne].
  - exists l. split; [done|]. intros u Hu [->|?]%elem_of_cons; done.
  - destruct IH as (l' & -> & Hl'); [by apply elem_of_cons in Ht as [->|]|]. exists (a :: l'). split; [done|].
    intros u Hu [->|H]%elem_of_cons; [by left|right; auto].
Qed.

Lemma proc_remthread_inv H s t x p :
  sinv None None H s → s.(threads) !! t = Some x → x.(t_proc) = Some p → (∀ c y, s.(cpus) !! c = Some y → t ∉ y.(c_zombies)) →
  wp (proc_remthread t) (λ _ s', sinv None None H s' ∧ s'.(cpus) = s.(cpus) ∧ s'.(threads) = <[t:=set_proc None x]> s.(threads)) s.
Proof.
  intros Hs Hx Hp Hz. unfold proc_remthread. eapply wp_get_thread; [done|]. rewrite Hp. apply wp_get.
  destruct (si_thread _ _ _ _ Hs t x Hx) as [T1 T2 T3 T4]. destruct (T3 p Hp) as (l & Hl & Hin).
  eapply wp_of_opt; [done|]. destruct (remove_first_elem t l Hin) as (l' & -> & Hl'). apply wp_modify.
  eapply wp_upd_thread'; [exact Hx|]. split; [|done].
  set (x' := set_proc None x). change (sinv None None H (put_pthreads p l' (put_thread t x' s))).
  assert (sinv None None H (put_thread t x' s)) as [P T C].
  { eapply put_thread_inv; [done|done| |done| | |done].
    - split; done.
    - intros c y Hc E Hd. destruct (co_cur _ _ _ _ _ (si_cpu _ _ _ _ Hs c y Hc)) as (x0 & A1 & _ & A3).
      rewrite E, Hx in A1. simplify_eq. destruct (A3 Hd) as [_ Q]. split; [by intros q Hq|done].
    - intros c y Hc Hin2. by destruct (Hz c y Hc). }
  split; [done| |].
  - intros u z Hu. destruct (T u z Hu) as [U1 U2 U3 U4]. split; try done. intros q Hq. destruct (U3 q Hq) as (lq & Hlq & Hin2). simpl in *.
    destruct (decide (q = p)) as [->|]; [|exists lq; by rewrite lookup_insert_ne]. exists l'. rewrite lookup_insert_eq. split; [done|].
    assert (lq = l) by congruence. subst lq. apply Hl'; [|done]. intros ->. rewrite lookup_insert_eq in Hu. by simplify_eq.
  - intros c y Hc. by destruct (C c y Hc).
Qed.

Lemma thread_exit_inv me s y x :
  sinv None None [] s → s.(cpus) !! me = Some y → y.(c_isidle) = false → y.(c_irq) = None →
  s.(threads) !! y.(c_curthread) = Some x → x.(t_proc) ≠ None → x.(t_op) = WNone →
  wp (thread_exit has_as me) (λ _ s', sinv None None [] s') s.
Proof.
  intros Hs Hc Hi Hq Hx Hp Hop. unfold thread_exit. eapply wp_get_cpu; [done|]. destruct (t_proc x) as [p|] eqn:Ep; [|done].
  apply wp_bind. eapply wp_mono; [|eapply (proc_remthread_inv [] s _ x p); try done].
  2:{ intros c y' Hc' Hz. apply (running_places _ _ s me y Hs Hc Hi c y' Hc'). set_solver. }
  intros [] s1 (Hs1 & Ec & Et). assert (threads s1 !! c_curthread y = Some (set_proc None x)) as Hx1 by (rewrite Et; apply lookup_insert_eq).
  eapply wp_get_thread; [done|]. apply wp_kassert; [done|]. eapply wp_run; [by eapply checkstack_ok|].
  eapply (thread_switch_inv me [] s1 y); [done|by rewrite Ec|by left|]. split; [done|]. split; [done|]. by exists (set_proc None x).
Qed.

(** ** Wakeups *)

Lemma wakeone_take_inv H s w l :
  sinv None None H s → s.(wchans) !! w = Some l →
  wp (wakeone_take w) (λ o s', sinv None None (op_threads o ++ H) s' ∧ s'.(threads) = s.(threads) ∧ s'.(cpus) = s.(cpus)) s.
Proof.
  intros Hs Hw. unfold wakeone_take. apply wp_get. eapply wp_of_opt; [done|]. destruct l as [|t l]; [by apply wp_ret|].
  apply wp_modify, wp_ret. split; [|done]. eapply put_wchan_inv; [done|done|]. intros u. simpl. lia.
Qed.

Lemma wakeall_take_inv H s w l :
  sinv None None H s → s.(wchans) !! w = Some l →
  wp (wakeall_take w) (λ o s', sinv None None (op_threads o ++ H) s' ∧ s'.(threads) = s.(threads) ∧ s'.(cpus) = s.(cpus)) s.
Proof.
  intros Hs Hw. unfold wakeall_take. apply wp_get. eapply wp_of_opt; [done|]. apply wp_modify, wp_ret. split; [|done].
  eapply put_wchan_inv; [done|done|]. intros u. simpl. rewrite occs_app. lia.
Qed.

(** The current thread's wakeup changes. *)
Lemma set_top_inv me s y x o H H' :
  sinv None None H s → s.(cpus) !! me = Some y → y.(c_isidle) = false → s.(threads) !! y.(c_curthread) = Some x →
  (∀ u, (occs u (op_threads o) + occs u H' = occs u (op_threads x.(t_op)) + occs u H)%nat) →
  wp (set_top me o) (λ _ s', sinv None None H' s') s.
Proof.
  intros Hs Hc Hi Hx Ho. unfold set_top. eapply wp_get_cpu; [done|]. eapply wp_upd_thread'; [done|].
  eapply put_thread_inv; [done|done| |done| | |done].
  - by destruct (si_thread _ _ _ _ Hs _ x Hx).
  - intros c y' Hc' E Hd. destruct (co_cur _ _ _ _ _ (si_cpu _ _ _ _ Hs c y' Hc')) as (x0 & A1 & _ & A3).
    rewrite E, Hx in A1. simplify_eq. by destruct (A3 Hd).
  - intros c y' Hc' Hz. destruct (running_places _ _ s me y Hs Hc Hi c y' Hc'). set_solver.
Qed.

(** The next thread of a wakeup, wherever the rest is kept. *)
Lemma wake_next_inv (o : wakeop) save s :
  (∀ o' H', (∀ u, occs u (op_threads o' ++ H') = occs u (op_threads o)) → wp (save o') (λ _ s', sinv None None H' s') s) →
  o ≠ WNone → wp (wake_next o save) (λ _ s', sinv None None [] s') s.
Proof.
  intros Hsave Hne. destruct o as [|t|[|t l]]; [done|..]; cbn [wake_next].
  - apply wp_bind. eapply wp_mono; [|apply (Hsave WNone [t])]; [|intros u; simpl; lia]. intros [] s' Hs'.
    eapply wp_mono; [|by apply make_runnable_inv]. by intros _ s'' [? _].
  - apply Hsave. done.
  - apply wp_bind. eapply wp_mono; [|apply (Hsave (WAll l) [t])]; [|intros u; simpl; rewrite occs_app; simpl; lia]. intros [] s' Hs'.
    eapply wp_mono; [|by apply make_runnable_inv]. by intros _ s'' [? _].
Qed.

(** ** Handlers *)

Lemma goto_inv me s y p H H' :
  sinv None None H s → s.(cpus) !! me = Some y → is_Some y.(c_irq) → irq_ok (set_irq (Some p) y) →
  (∀ u, (occs u (op_threads (irq_op (Some p))) + occs u H' = occs u (op_threads (irq_op y.(c_irq))) + occs u H)%nat) →
  wp (goto me p) (λ _ s', sinv None None H' s' ∧ s' = put_cpu me (set_irq (Some p) y) s) s.
Proof.
  intros Hs Hc [q Hq] Hok Ho. unfold goto. eapply wp_upd_cpu'; [done|]. split; [|done]. eapply put_cpu_inv; [done|done|done| |].
  - destruct (si_cpu _ _ _ _ Hs me y Hc) as [(x & A1 & A2 & A3) C2 C3 C4 C5 C6]. split; try done.
    exists x. split; [done|]. split; [done|]. intros Hd. destruct (A3 Hd) as [Q1 Q2]. split; [done|]. by rewrite Q2, Hq.
  - intros u. specialize (Ho u). unfold cpu_places, running. simpl in *. rewrite !occs_app. lia.
Qed.

Lemma weaken_d me H s : sinv None None H s → sinv None (Some me) H s.
Proof.
  intros [P T C]. split; [done..|]. intros c y Hc. destruct (C c y Hc) as [(x & A1 & A2 & A3) C2 C3 C4 C5 C6]. split; try done.
  exists x. split; [done|]. split; [done|]. intros _. by apply A3.
Qed.

(** Entering and leaving a handler. *)
Lemma set_interrupt_inv me s y x b q w :
  sinv None None [] s → s.(cpus) !! me = Some y → s.(threads) !! y.(c_curthread) = Some x → quiet y → quiet (set_irq q y) → b = bool_decide (is_Some q) → (q = None → w = true) →
  let y' := set_irq q (if y.(c_isidle) then set_woken w y else y) in
  sinv None None [] (put_cpu me y' (put_thread y.(c_curthread) (set_in_interrupt b x) s)).
Proof.
  intros Hs Hc Hx Hq Hq' Hb Hw y'. pose proof (weaken_d me _ _ Hs) as Hs1.
  pose proof (si_cpu _ _ _ _ Hs1 me y Hc) as [_ C2 C3 C4 C5 C6].
  destruct (co_cur _ _ _ _ _ (si_cpu _ _ _ _ Hs me y Hc)) as (x1 & Hx1 & _ & A3). assert (x1 = x) by congruence. subst x1.
  set (x' := set_in_interrupt b x).
  assert (sinv None (Some me) [] (put_thread (c_curthread y) x' s)) as Hs2.
  { eapply put_thread_inv; [done|done| |done| | |done].
    - by destruct (si_thread _ _ _ _ Hs _ x Hx).
    - intros c yc Hyc E Hd. destruct Hd. f_equal. eapply cur_inj; [exact Hs|done|done|congruence].
    - intros c yc Hyc Hz. destruct (co_zombies _ _ _ _ _ (si_cpu _ _ _ _ Hs1 c yc Hyc) _ Hz) as (z & ? & ?). by simplify_eq. }
  assert (c_curthread y' = c_curthread y) as Ecur by (unfold y'; by destruct (c_isidle y)).
  assert (sinv None (Some me) [] (put_cpu me y' (put_thread (c_curthread y) x' s))) as Hs3.
  { pose proof (si_cpu _ _ _ _ Hs2 me y Hc) as [D1 D2 D3 D4 D5 D6].
    assert (irq_ok y) as V by done. assert (c_victims y = []) as Hv by (revert V; unfold irq_ok; by destruct Hq as [-> | ->]).
    eapply put_cpu_inv; [done|exact Hc|done| |].
    - destruct D1 as (x2 & B1 & B2 & _). unfold y'. destruct (c_isidle y) eqn:Ei; split; try done; try (by exists x2).
      1,3: destruct Hq' as [E|E]; simpl in E; subst q; unfold irq_ok; simpl; done.
      all: intros _ E1 E2 E3; simpl in *; try congruence; by rewrite (Hw E2) in E3.
    - intros u. unfold cpu_places, running, y'. pose proof (quiet_op _ Hq) as E1. pose proof (quiet_op _ Hq') as E2. simpl in E2.
      destruct (c_isidle y) eqn:Ei; simpl; rewrite E1, E2, Ei; done. }
  eapply (clear_d _ _ _ _ y' x'); [done|by eapply lookup_put_cpu|rewrite Ecur; apply lookup_insert_eq| |].
  - destruct (A3 ltac:(done)) as [Q _]. intros p Hp Ha. specialize (Q p Hp Ha). unfold y'. by destruct (c_isidle y).
  - unfold y'. by destruct (c_isidle y).
Qed.

Lemma create_inv s km :
  sinv None None [] s → wp (wchan_create km) (λ _ s', sinv None None [] s') s.
Proof.
  intros Hs. unfold wchan_create. destruct km; [|by apply wp_ret]. cbn [negb]. apply wp_get, wp_modify, wp_ret.
  destruct Hs as [P T C]. split.
  - intros t. specialize (P t). unfold places in *. simpl. rewrite msum_new; [done|]. apply not_elem_of_dom, is_fresh.
  - intros t x Hx. by destruct (T t x Hx).
  - intros c y Hc. by destruct (C c y Hc).
Qed.

Lemma ipi_inv me s y :
  sinv None None [] s → s.(cpus) !! me = Some y → is_Some y.(c_irq) → wp (interprocessor_interrupt me) (λ _ s', sinv None None [] s') s.
Proof.
  intros Hs Hc [q Hq]. unfold interprocessor_interrupt. eapply wp_get_cpu; [done|].
  pose proof (si_cpu _ _ _ _ Hs me y Hc) as [C1 C2 C3 C4 C5 [C6 C7]].
  assert (Z.testbit (c_ipi_pending y) IPI_PANIC = false ∧ Z.testbit (c_ipi_pending y) IPI_OFFLINE = false ∧
          Z.testbit (c_ipi_pending y) IPI_TLBSHOOTDOWN = false) as (-> & -> & ->) by (by destruct C7 as [-> | ->]).
  cbn [when]. apply wp_bind, wp_ret. eapply wp_upd_cpu'; [done|]. eapply put_cpu_inv; [done|done|done| |done].
  split; try done; [|split; [done|by left]]. intros _ _ E. simpl in E. congruence.
Qed.

Lemma tick_inv me s y :
  sinv None None [] s → s.(cpus) !! me = Some y → y.(c_irq) = Some IRet →
  wp (p ← hardclock_tick me; goto me p) (λ _ s', sinv None None [] s') s.
Proof.
  intros Hs Hc Hq. unfold hardclock_tick. apply wp_bind. eapply wp_upd_cpu; [done|]. set (y1 := set_hardclocks _ y).
  set (s1 := put_cpu me y1 s). assert (cpus s1 !! me = Some y1) as Hc1 by (by eapply lookup_put_cpu).
  pose proof (si_cpu _ _ _ _ Hs me y Hc) as [C1 C2 C3 C4 C5 C6]. revert C4. unfold irq_ok. rewrite Hq. intros Hv.
  assert (sinv None None [] s1) as Hs1.
  { eapply put_cpu_inv; [done|done|done| |done]. split; try done. unfold irq_ok. simpl. by rewrite Hq. }
  eapply wp_get_cpu; [done|]. unfold schedule. apply wp_bind. destruct (_ =? 0) eqn:E1; cbn [when]; apply wp_ret, wp_ret.
  all: eapply wp_mono; [|eapply (goto_inv me s1 y1); try done].
  all: try (by intros _ s' [? _]); try (by exists IRet).
  all: change (c_irq y1) with (c_irq y); rewrite ?Hq; destruct (c_hardclocks y1 `mod` MIGRATE_HARDCLOCKS =? 0); try done.
  all: split; [done|]; split; [simpl; lia|done].
Qed.

(** ** Migration *)

(** A thread in hand can be given to another processor if it is nobody's current
    thread. *)
Lemma rehome_inv e d H s t x c :
  sinv e d (t :: H) s → s.(threads) !! t = Some x → is_Some (s.(cpus) !! c) → (∀ c y, s.(cpus) !! c = Some y → y.(c_curthread) ≠ t) →
  sinv e d (t :: H) (put_thread t (set_cpu (Some c) x) s).
Proof.
  intros Hs Hx Hc Hcur. pose proof Hs as [P T C]. destruct (hand_places e d _ s t Hs) as [E _]; [by left|]. split.
  - intros u. specialize (P u). unfold places in *. simpl in *.
    pose proof (msum_insert (λ x, occs u (op_threads (t_op x))) _ t x (set_cpu (Some c) x) Hx) as Hm. simpl in Hm.
    assert (is_Some (<[t:=set_cpu (Some c) x]> (threads s) !! u) ↔ is_Some (threads s !! u)) as Eu.
    { destruct (decide (u = t)) as [->|]; [rewrite lookup_insert_eq, Hx|rewrite lookup_insert_ne by done]; naive_solver. }
    destruct (decide (is_Some (<[t:=_]> _ !! u))), (decide (is_Some (threads s !! u))); try tauto; lia.
  - intros u z Hz. simpl in Hz. destruct (decide (u = t)) as [->|].
    + rewrite lookup_insert_eq in Hz. simplify_eq. destruct (T t x Hx) as [T1 T2 T3 T4]. split; try done; simpl; [by exists c|].
      intros En. destruct (T4 En) as (c2 & y2 & _ & H2 & H3). by destruct (Hcur c2 y2).
    + rewrite lookup_insert_ne in Hz by done. by destruct (T u z Hz).
  - intros c1 y1 Hc1. destruct (C c1 y1 Hc1) as [(x0 & A1 & A2 & A3) C2 C3 C4 C5 C6].
    assert (t ∉ cpu_places (bool_decide (e = Some c1)) y1) as Hn.
    { intros Hn. pose proof (list_place e s c1 y1 t _ Hc1 eq_refl Hn). lia. }
    unfold cpu_places in Hn. rewrite !not_elem_of_app in Hn. split; try done; simpl.
    + exists x0. rewrite lookup_insert_ne; [done|]. intros Et. by apply (Hcur c1 y1 Hc1).
    + intros u Hu. rewrite lookup_insert_ne; [auto|]. rewrite !elem_of_app in Hu. intros <-. tauto.
    + intros u Hu. rewrite lookup_insert_ne; [auto|]. intros <-. tauto.
Qed.

(** The victims, from the tail of the run queue. *)
Lemma mig_take_eq n me s y :
  s.(cpus) !! me = Some y → (n ≤ length y.(c_runqueue))%nat →
  mig_take n me s = Ret tt (put_cpu me (set_victims (drop (length y.(c_runqueue) - n) y.(c_runqueue) ++ y.(c_victims))
                                          (set_runqueue (take (length y.(c_runqueue) - n) y.(c_runqueue)) y)) s).
Proof.
  revert s y. induction n as [|n IH]; intros s y Hc Hn; cbn [mig_take].
  - rewrite Nat.sub_0_r, drop_all, firstn_all. unfold mret, M_ret. f_equal. destruct s, y. unfold put_cpu. simpl in *.
    by rewrite list_insert_id.
  - destruct (exists_last (l := c_runqueue y)) as (l & t & Er); [by intros E; rewrite E in Hn; simpl in Hn; lia|].
    rewrite Er in Hn. rewrite length_app in Hn. simpl in Hn.
    unfold get_cpu. rewrite bind_assoc, get_bind, Hc. rewrite (bind_Ret _ _ _ y s) by done. rewrite Er, last_snoc.
    rewrite (bind_Ret _ _ _ t s) by done. rewrite (bind_Ret _ _ _ tt _) by reflexivity. rewrite removelast_last.
    set (y1 := set_victims _ _). rewrite (IH _ y1); [|by eapply lookup_put_cpu|simpl; lia]. f_equal.
    unfold put_cpu, y1, set_victims, set_runqueue. cbn. rewrite list_insert_insert_eq, length_app. simpl.
    replace (length l + 1 - S n)%nat with (length l - n)%nat by lia. rewrite take_app_le, drop_app_le by lia. by rewrite <- app_assoc.
Qed.

(** Lists of the processor that runs the migration, rearranged. *)
Lemma relist_inv me s y y' :
  sinv None None [] s → s.(cpus) !! me = Some y → y.(c_irq) = Some IPut →
  y' = set_victims y'.(c_victims) (set_runqueue y'.(c_runqueue) y) →
  y'.(c_runqueue) ++ y'.(c_victims) ≡ₚ y.(c_runqueue) ++ y.(c_victims) → sinv None None [] (put_cpu me y' s).
Proof.
  intros Hs Hc Hq Ey Hp. rewrite Ey. clear Ey. set (r := c_runqueue y') in *. set (v := c_victims y') in *.
  pose proof (si_cpu _ _ _ _ Hs me y Hc) as [C1 C2 C3 C4 C5 C6]. eapply put_cpu_inv; [done|done|done| |].
  - split; try done; simpl.
    + intros t Ht. apply C2. assert (t ∈ r ++ v ↔ t ∈ c_runqueue y ++ c_victims y) as E by (by rewrite Hp). rewrite !elem_of_app in *. tauto.
    + unfold irq_ok. simpl. by rewrite Hq.
    + intros _ _ E. simpl in E. congruence.
  - intros u sk. assert (occs u (r ++ v) = occs u (c_runqueue y ++ c_victims y)) as E.
    { clear -Hp. induction Hp; simpl; lia. }
    unfold cpu_places, running. simpl. rewrite !occs_app in *. lia.
Qed.

(** One victim goes to processor [c]. *)
Lemma wp_give_one {A} me c s y yc t rest (k : M sys A) Q :
  sinv None None [] s → s.(cpus) !! me = Some y → y.(c_irq) = Some IPut → c ≠ me → s.(cpus) !! c = Some yc →
  y.(c_victims) = t :: rest → t ≠ y.(c_curthread) →
  (∀ s', sinv None None [] s' → s'.(cpus) = <[c:=with_ready t yc]> (<[me:=set_victims rest y]> s.(cpus)) → wp k Q s') →
  wp (modify (put_cpu me (set_victims rest y));; upd_thread t (set_cpu (Some c));; thread_make_runnable t;; k) Q s.
Proof.
  intros Hs Hc Hq Hne Hyc Ev Et Hk. pose proof (si_cpu _ _ _ _ Hs me y Hc) as [(x0 & A1 & A2 & A3) C2 C3 C4 C5 C6].
  apply wp_modify. set (y1 := set_victims rest y). set (s1 := put_cpu me y1 s).
  assert (sinv None None [t] s1) as Hs1.
  { eapply put_cpu_inv; [done|done|done| |].
    - split; try done; simpl; [by exists x0| |by unfold irq_ok; simpl; rewrite Hq].
      intros u Hu. apply C2. rewrite Ev. rewrite !elem_of_app, ?elem_of_cons in *. tauto.
    - intros u. unfold cpu_places, running. simpl. rewrite Ev, !occs_app. simpl. lia. }
  destruct (C2 t) as (x & Hx & Ex); [rewrite Ev, !elem_of_app, elem_of_cons; tauto|].
  eapply wp_upd_thread; [exact Hx|]. set (s2 := put_thread t (set_cpu (Some c) x) s1).
  assert (cpus s1 !! c = Some yc) as Hyc1 by (unfold s1; simpl; by rewrite list_lookup_insert_ne).
  assert (sinv None None [t] s2) as Hs2.
  { apply rehome_inv; [done|exact Hx|by eexists|]. intros c2 y2 Hc2 E2.
    destruct (co_cur _ _ _ _ _ (si_cpu _ _ _ _ Hs1 c2 y2 Hc2)) as (x2 & Hx2 & Ex2 & _). rewrite E2 in Hx2. simpl in Hx2.
    assert (c2 = me) by congruence. subst c2. assert (cpus s1 !! me = Some y1) by (by eapply lookup_put_cpu).
    assert (y2 = y1) by congruence. subst y2. by apply Et. }
  apply wp_bind. eapply wp_mono; [|by apply make_runnable_inv]. intros [] s3 (Hs3 & x3 & c3 & y3 & Hx3 & Ex3 & Hy3 & ->).
  assert (c3 = c) as ->. { simpl in Hx3. rewrite lookup_insert_eq in Hx3. by simplify_eq/=. }
  change (cpus s2) with (cpus s1) in Hy3. rewrite Hyc1 in Hy3. simplify_eq. by apply Hk.
Qed.

(** What the loops keep of the processor that runs them. *)
Definition mig_same (y y' : cpu) : Prop := y'.(c_curthread) = y.(c_curthread) ∧ y'.(c_irq) = y.(c_irq).

Lemma mig_give_inv n fuel me c share s y :
  sinv None None [] s → s.(cpus) !! me = Some y → y.(c_irq) = Some IPut → c ≠ me → is_Some (s.(cpus) !! c) →
  0 ≤ n ≤ Z.of_nat (length y.(c_victims)) → (Z.to_nat n < fuel)%nat →
  wp (mig_give fuel me c share n)
     (λ r s', sinv None None [] s' ∧ ∃ y', s'.(cpus) !! me = Some y' ∧ mig_same y y' ∧ 0 ≤ r ≤ Z.of_nat (length y'.(c_victims))) s.
Proof.
  revert n s y. induction fuel as [|fuel IH]; intros n s y Hs Hc Hq Hne [yc Hyc] Hn Hf; [lia|]. cbn [mig_give].
  eapply wp_get_cpu; [done|]. destruct ((tl_count (c_runqueue yc) <? share) && (n >? 0)) eqn:Eg.
  2:{ apply wp_ret. split; [done|]. by exists y. }
  apply andb_true_iff in Eg as [_ Hn1]. apply Z.gtb_lt in Hn1. eapply wp_get_cpu; [done|].
  destruct (c_victims y) as [|t rest] eqn:Ev; [simpl in Hn; lia|]. simpl in Hn.
  destruct (Nat.eqb_spec t (c_curthread y)) as [Et|Et].
  - apply wp_modify. set (y1 := set_victims (rest ++ [t]) y).
    eapply wp_mono; [|apply (IH (n - 1) _ y1); try done; [|by eapply lookup_put_cpu|simpl|unfold y1; simpl; rewrite length_app; simpl; lia|lia]].
    + intros r s' (G1 & y' & G3 & (G4 & G5) & G7). split; [done|]. by exists y'.
    + eapply relist_inv; [done|done|done|by destruct y|]. unfold y1. simpl. rewrite Ev. f_equiv. by rewrite Permutation_app_comm.
    + rewrite list_lookup_insert_ne by done. by eexists.
  - eapply wp_give_one; try done. intros s' Hs' Ec.
    eapply wp_mono; [|apply (IH (n - 1) _ (set_victims rest y)); try done; [rewrite Ec|rewrite Ec|simpl; lia|lia]].
    + intros r s2 (G1 & y' & G3 & (G4 & G5) & G7). split; [done|]. by exists y'.
    + rewrite list_lookup_insert_ne by done. apply list_lookup_insert_eq. by eapply lookup_lt_Some.
    + apply lookup_lt_is_Some. rewrite !length_insert. by eapply lookup_lt_Some.
Qed.

Lemma one_share_nonneg total n : 0 < n → 0 ≤ one_share total n.
Proof. intros Hn. unfold one_share, u32. apply Z.div_pos; lia. Qed.

Lemma tl_count_le l : 0 ≤ tl_count l ≤ Z.of_nat (length l).
Proof. unfold tl_count, u32. lia. Qed.

Definition migrating (p : irq) : bool := match p with ICount _ _ _ | ITake _ _ | IGive _ _ _ | IPut => true | _ => false end.

Lemma mig_step_inv me s y p :
  sinv None None [] s → s.(cpus) !! me = Some y → y.(c_irq) = Some IPut → migrating p = true →
  irq_ok (set_irq (Some p) y) →
  wp (mig_step me p) (λ p' s', sinv None None [] s' ∧ ∃ y', s'.(cpus) !! me = Some y' ∧ y'.(c_irq) = Some IPut ∧
                                 irq_ok (set_irq (Some p') y') ∧ irq_op (Some p') = WNone) s.
Proof.
  intros Hs Hc Hq Hp Hok. unfold mig_step. apply wp_get. assert (me < length (cpus s))%nat as Hme by (by eapply lookup_lt_Some).
  destruct p as [|?|i my total|share n|i share n| |]; try done; unfold irq_ok in Hok; simpl in Hok.
  - destruct Hok as (Hi & Hmy & Hv). destruct (Z.ltb_spec i (Z.of_nat (length (cpus s)))).
    + unfold mig_count. destruct (lookup_lt_is_Some_2 (cpus s) (Z.to_nat i)) as [yi Hyi]; [lia|]. apply wp_bind.
      eapply wp_get_cpu; [done|]. apply wp_ret, wp_ret. split; [done|]. exists y. split; [done|]. split; [done|]. split; [|done].
      unfold irq_ok. simpl. split; [lia|]. split; [|done]. destruct (Nat.eqb_spec (Z.to_nat i) me) as [E|]; [|done].
      rewrite E, Hc in Hyi. simplify_eq. apply tl_count_le.
    + apply wp_ret. split; [done|]. exists y. split; [done|]. split; [done|]. unfold mig_decide.
      pose proof (one_share_nonneg total (Z.of_nat (length (cpus s)))). destruct (Z.ltb_spec my (one_share total (Z.of_nat (length (cpus s))))).
      * split; [by unfold irq_ok|done].
      * split; [|done]. unfold irq_ok. simpl. split; [lia|done].
  - destruct Hok as [Hn Hv]. eapply wp_run; [apply (mig_take_eq _ _ _ y); [done|lia]|]. rewrite Hv, app_nil_r.
    set (k := (length (c_runqueue y) - Z.to_nat n)%nat). set (y1 := set_victims _ _). apply wp_ret. split.
    + eapply relist_inv; [done|done|done|by destruct y|]. simpl. by rewrite Hv, app_nil_r, take_drop.
    + exists y1. split; [by eapply lookup_put_cpu|]. split; [done|]. split; [|done]. unfold irq_ok. simpl. rewrite length_drop. unfold k. lia.
  - destruct Hok as [Hi Hn]. destruct (Z.ltb_spec i (Z.of_nat (length (cpus s)))), (Z.gtb_spec n 0); cbn [andb].
    + apply wp_bind. unfold mig_cpu. destruct (Nat.eqb_spec (Z.to_nat i) me).
      * apply wp_ret, wp_ret. split; [done|]. exists y. split_and!; try done. unfold irq_ok. simpl. lia.
      * eapply wp_mono; [|apply (mig_give_inv n _ me (Z.to_nat i) share s y); try done; [apply lookup_lt_is_Some_2; lia|lia]].
        intros r s' (G1 & y' & G3 & (G4 & G5) & G7). apply wp_ret. split; [done|]. exists y'. split; [done|]. split; [congruence|].
        split; [|done]. unfold irq_ok. simpl. lia.
    + apply wp_ret. split; [done|]. by exists y.
    + apply wp_ret. split; [done|]. by exists y.
    + apply wp_ret. split; [done|]. by exists y.
  - unfold mig_put. eapply wp_upd_cpu; [done|]. set (y1 := set_victims _ _). apply wp_ret. split.
    + eapply relist_inv; [done|done|done|by destruct y|]. simpl. by rewrite app_nil_r.
    + exists y1. split; [by eapply lookup_put_cpu|]. by split_and!.
Qed.

(** ** Every action *)

Lemma irq_next_inv me s y p :
  sinv None None [] s → s.(cpus) !! me = Some y → y.(c_irq) = Some p → p ≠ IRet →
  wp (act has_as me AIrqNext) (λ _ s', sinv None None [] s') s.
Proof.
  intros Hs Hc Hq Hp. cbn [act]. eapply wp_get_cpu; [done|]. rewrite Hq.
  pose proof (co_irq _ _ _ _ _ (si_cpu _ _ _ _ Hs me y Hc)) as Hok.
  assert (∀ p' H, irq_ok (set_irq (Some p') y) → (∀ u, (occs u (op_threads (irq_op (Some p'))) + occs u H = occs u (op_threads (irq_op (Some p))))%nat) →
    wp (goto me p') (λ _ s', sinv None None H s' ∧ s' = put_cpu me (set_irq (Some p') y) s) s) as Hgo.
  { intros p' H Hok' Ho. eapply goto_inv; [done|done|by eexists|done|]. intros u. rewrite Hq, (Ho u). simpl. lia. }
  assert (∀ o, wakeop → p = IWake o → c_victims y = []) as Hv by (intros o _ ->; revert Hok; unfold irq_ok; by rewrite Hq).
  destruct (migrating p) eqn:Em.
  { assert (wp (goto me IPut;; p' ← mig_step me p; goto me p') (λ _ s', sinv None None [] s') s) as Hm; [|by destruct p].
    apply wp_bind. eapply wp_mono; [|apply (Hgo IPut []); [done|intros u; by destruct p]]. intros [] s1 [Hs1 ->].
    apply wp_bind. eapply wp_mono; [|eapply (mig_step_inv me _ (set_irq (Some IPut) y) p); [done|by eapply lookup_put_cpu|done|done|]].
    - intros p' s2 (Hs2 & y2 & Hc2 & Hq2 & Hok2 & Hop). eapply wp_mono; [|eapply (goto_inv me s2 y2 p' [] []); [done|done|by rewrite Hq2; eexists|done|]].
      + by intros _ s3 [? _].
      + intros u. by rewrite Hop, Hq2.
    - revert Hok. unfold irq_ok. simpl. by rewrite Hq. }
  destruct p as [|o| | | | |]; try done.
  - assert (wp (goto me IRet) (λ _ s', sinv None None [] s') s ∨ op_threads o ≠ []) as Hr.
    { destruct (op_threads o) eqn:Eo; [left|by right]. eapply wp_mono; [|apply (Hgo IRet [])]; [by intros _ s' [? _]|by apply (Hv o)|].
      intros u. simpl. by rewrite Eo. }
    assert (o ≠ WNone → wp (wake_next o (λ o, goto me (IWake o))) (λ _ s', sinv None None [] s') s) as Hn.
    { intros Ho. apply wake_next_inv; [|done]. intros o' H' Hocc. eapply wp_mono; [|apply (Hgo (IWake o') H')].
      - by intros _ s' [? _].
      - by apply (Hv o).
      - intros u. specialize (Hocc u). rewrite occs_app in Hocc. simpl. lia. }
    destruct o as [|t|[|t l]]; try (by apply Hn); by destruct Hr.
  - apply wp_bind. eapply wp_mono; [|apply (Hgo IRet []); [|done]].
    + intros [] s1 [Hs1 ->]. unfold thread_yield. eapply (thread_switch_inv me [] _ (set_irq (Some IRet) y)); [done|by eapply lookup_put_cpu|by right|done].
    + revert Hok. unfold irq_ok. by rewrite Hq.
Qed.

Lemma top_op_eq s y x : s.(threads) !! y.(c_curthread) = Some x → top_op s y = x.(t_op).
Proof. unfold top_op. by intros ->. Qed.

Lemma act_inv s me a :
  sinv None None [] s → enabled s me a → wp (act has_as me a) (λ _ s', sinv None None [] s') s.
Proof.
  intros Hs (y & Hc & Hh & He). destruct (co_cur _ _ _ _ _ (si_cpu _ _ _ _ Hs me y Hc)) as (x & Hx & Ex & Hint).
  destruct (Hint ltac:(done)) as [_ Ein]. rewrite (top_op_eq s y x Hx) in He.
  assert (∀ w take, (∃ l, s.(wchans) !! w = Some l) → (take = wakeone_take w ∨ take = wakeall_take w) → y.(c_isidle) = false → t_op x = WNone →
    wp (o ← take; set_top me o) (λ _ s', sinv None None [] s') s) as Hwake.
  { intros w take [l Hl] Ht Hi Ho. apply wp_bind. eapply wp_mono; [|destruct Ht as [-> | ->]; [by apply (wakeone_take_inv [] s w l)|by apply (wakeall_take_inv [] s w l)]].
    intros o s1 (Hs1 & Et & Ec). eapply (set_top_inv me s1 y x); [done|by rewrite Ec|done|by rewrite Et|].
    intros u. rewrite Ho, occs_app. simpl. lia. }
  assert (∀ w take, (∃ l, s.(wchans) !! w = Some l) → (take = wakeone_take w ∨ take = wakeall_take w) → y.(c_irq) = Some IRet →
    wp (o ← take; goto me (IWake o)) (λ _ s', sinv None None [] s') s) as Hirq.
  { intros w take [l Hl] Ht Hq. apply wp_bind. eapply wp_mono; [|destruct Ht as [-> | ->]; [by apply (wakeone_take_inv [] s w l)|by apply (wakeall_take_inv [] s w l)]].
    intros o s1 (Hs1 & Et & Ec). eapply wp_mono; [|eapply (goto_inv me s1 y); [done|by rewrite Ec|by eexists| |]].
    - by intros _ s' [? _].
    - pose proof (co_irq _ _ _ _ _ (si_cpu _ _ _ _ Hs me y Hc)) as Hok. revert Hok. unfold irq_ok. by rewrite Hq.
    - intros u. rewrite Hq, occs_app. simpl. lia. }
  destruct a as [proc km1 km2 km3 km4| |w| |w|w| |km| | | |w|w| | |]; cbn [act].
  - destruct He as (_ & _ & p & Hp & Hproc). apply wp_bind. eapply wp_mono; [|by eapply thread_fork_inv]. intros r s' Hs'. by apply wp_ret.
  - destruct He as ((Hi & Hq & _) & _). eapply (thread_switch_inv me [] s y); [done|done|by left|done].
  - destruct He as ((Hi & Hq & _) & _ & Hw). unfold wchan_sleep. eapply wp_get_cpu; [done|]. eapply wp_get_thread; [done|].
    rewrite Ein, Hq. apply wp_kassert; [done|]. eapply (thread_switch_inv me [] s y); [done|done|by left|]. split; [done|by exists w].
  - destruct He as ((Hi & Hq & _) & Ho & x' & Hx' & Hp). assert (x' = x) by congruence. subst x'. by eapply thread_exit_inv.
  - destruct He as ((Hi & Hq & _) & Ho & Hw). by apply (Hwake w); [|left|..].
  - destruct He as ((Hi & Hq & _) & Ho & Hw). by apply (Hwake w); [|right|..].
  - destruct He as ((Hi & Hq & _) & Ho). eapply wp_get_cpu; [done|]. eapply wp_get_thread; [done|]. apply wake_next_inv; [|done].
    intros o' H' Hocc. eapply (set_top_inv me s y x); try done. intros u. rewrite <- (Hocc u), occs_app. simpl. lia.
  - apply wp_bind. eapply wp_mono; [|by apply create_inv]. intros r s' Hs'. by apply wp_ret.
  - eapply wp_get_cpu; [done|]. eapply wp_upd_thread; [done|]. eapply wp_upd_cpu'; [exact Hc|].
    replace (set_irq (Some IRet) y) with (set_irq (Some IRet) (if c_isidle y then set_woken (c_woken y) y else y)) by (destruct y; simpl; by destruct c_isidle).
    apply set_interrupt_inv; try done; [by left|by right].
  - destruct He as [Hi Hq]. eapply wp_mono; [|eapply (switch_next_inv None me [] s y); [by left|done..|by left|done]]. by intros _ s' [? _].
  - by eapply tick_inv.
  - destruct He as [Hq Hw]. by apply (Hirq w); [|right|..].
  - destruct He as [Hq Hw]. by apply (Hirq w); [|left|..].
  - eapply ipi_inv; [done|done|by eexists].
  - destruct He as (p & Hq & Hp). by eapply irq_next_inv.
  - eapply wp_get_cpu; [done|]. eapply wp_upd_thread; [done|]. eapply wp_upd_cpu'; [exact Hc|].
    apply set_interrupt_inv; try done; [by right|by left].
Qed.

(** ** Start-up *)

Definition new_cpu t : cpu := Cpu t [] 0 false [] 0 (replicate 16 0) 0 None None [] false false.

Lemma cpus_occ_snoc e t l y : cpus_occ e t (l ++ [y]) = (cpus_occ e t l + cpu_occ e t (length l, y))%nat.
Proof.
  unfold cpus_occ. rewrite imap_app. simpl. rewrite Nat.add_0_r. generalize (imap pair l). intros k.
  induction k as [|p k IH]; simpl; [lia|]. rewrite IH. lia.
Qed.

(** A processor joins, with its first thread. *)
Definition joined (kproc : nat) (l : list nat) s : sys :=
  let t := fresh (dom s.(threads)) in
  let c := length s.(cpus) in
  let g := if (c =? 0)%nat then None else Some (replicate 4 THREAD_STACK_MAGIC) in
  Sys (<[t:=Thread WNew S_READY g (Some c) (Some kproc) false None WNone]> s.(threads)) (s.(cpus) ++ [new_cpu t]) s.(wchans)
      (<[kproc:=l ++ [t]]> s.(p_threads)).

Lemma cpu_create_run kproc s l :
  s.(p_threads) !! kproc = Some l →
  wp (cpu_create kproc true true true true true true) (λ c s', c = length s.(cpus) ∧ s' = joined kproc l s) s.
Proof.
  intros Hl. unfold cpu_create, thread_create. cbn [negb]. apply wp_bind, wp_ret, wp_bind, wp_ret, wp_get.
  apply wp_bind, wp_get, wp_modify, wp_ret, wp_modify.
  unfold proc_addthread. apply wp_bind. eapply wp_get_thread; [simpl; apply lookup_insert_eq|]. apply wp_kassert; [done|]. apply wp_get.
  eapply wp_of_opt; [exact Hl|]. cbn [negb]. apply wp_modify. eapply wp_upd_thread; [simpl; apply lookup_insert_eq|]. apply wp_ret. cbn [Z.eqb negb].
  unfold thread_checkstack_init, joined. apply wp_bind. destruct (length (cpus s) =? 0)%nat.
  - apply wp_ret. eapply wp_upd_thread; [simpl; apply lookup_insert_eq|]. apply wp_ret. split; [done|]. unfold put_thread. simpl. by rewrite !insert_insert_eq.
  - eapply wp_upd_thread'; [simpl; apply lookup_insert_eq|]. eapply wp_upd_thread; [simpl; apply lookup_insert_eq|]. apply wp_ret. split; [done|].
    unfold put_thread. simpl. by rewrite !insert_insert_eq.
Qed.

Lemma joined_inv kproc s l :
  sinv None None [] s → s.(p_threads) !! kproc = Some l → has_as kproc = false → sinv None None [] (joined kproc l s).
Proof.
  intros [P T C] Hl Has. unfold joined. set (t := fresh (dom (threads s))).
  assert (threads s !! t = None) as Ht by (apply not_elem_of_dom, is_fresh).
  set (c := length (cpus s)). set (g := if (c =? 0)%nat then None else Some (replicate 4 THREAD_STACK_MAGIC)).
  set (x1 := Thread WNew S_READY g (Some c) (Some kproc) false None WNone). set (s1 := Sys _ _ _ _).
  assert (∀ u z, threads s !! u = Some z → threads s1 !! u = Some z) as Hu by (intros u z Hu; simpl; rewrite lookup_insert_ne; [done|congruence]).
  assert (∀ c1 y1, cpus s !! c1 = Some y1 → cpus s1 !! c1 = Some y1) as Hcp by (intros c1 y1 Hc1; simpl; by apply lookup_app_l_Some).
  assert (cpus s1 !! c = Some (new_cpu t)) as Hc by (simpl; rewrite lookup_app_r by done; by rewrite Nat.sub_diag).
  split.
  - intros u. specialize (P u). unfold places in *. simpl. rewrite cpus_occ_snoc, msum_new by done. simpl in *.
    change (cpu_occ None u (length (cpus s), new_cpu t)) with (occs u [t]). simpl. destruct (decide (t = u)) as [<-|].
    + rewrite lookup_insert_eq. rewrite Ht in P. destruct (decide (is_Some None)) as [[? ?]|_]; [done|].
      destruct (decide (is_Some (Some x1))) as [_|n]; [lia|by destruct n].
    + rewrite lookup_insert_ne by done. lia.
  - intros u z Hz. simpl in Hz. destruct (decide (u = t)) as [->|].
    + rewrite lookup_insert_eq in Hz. injection Hz as <-. split; simpl.
      * exists c. split; [done|by eexists].
      * intros g'. unfold g. destruct (c =? 0)%nat; [done|]. by intros [= <-].
      * intros p [= <-]. exists (l ++ [t]). rewrite lookup_insert_eq. split; [done|set_solver].
      * done.
    + rewrite lookup_insert_ne in Hz by done. destruct (T u z Hz) as [(c1 & T1 & y1 & Hy1) T2 T3 T4]. split; try done.
      * exists c1. split; [done|]. exists y1. by apply Hcp.
      * intros p Hp. destruct (T3 p Hp) as (lp & Hlp & Hin). simpl. destruct (decide (p = kproc)) as [->|]; [|exists lp; by rewrite lookup_insert_ne].
        exists (l ++ [t]). rewrite lookup_insert_eq. split; [done|]. assert (lp = l) by congruence. subst lp. set_solver.
      * intros En. destruct (T4 En) as (c2 & y2 & H1 & H2 & H3). exists c2, y2. split_and!; try done. by apply Hcp.
  - intros c1 y1 Hc1. simpl in Hc1. apply lookup_app_Some in Hc1 as [Hc1|[Hge Hc1]].
    + destruct (C c1 y1 Hc1) as [(x2 & A1 & A2 & A3) C2 C3 C4 C5 C6]. split; try done.
      * exists x2. split; [by apply Hu|done].
      * intros u Hin. destruct (C2 u Hin) as (z & ? & ?). exists z. split; [by apply Hu|done].
      * intros u Hin. destruct (C3 u Hin) as (z & ? & ?). exists z. split; [by apply Hu|done].
    + apply list_lookup_singleton_Some in Hc1 as [E <-]. assert (c1 = c) as -> by (unfold c; lia). split; simpl; try done.
      * exists x1. rewrite lookup_insert_eq. split; [done|]. split; [done|]. intros _. split; [|done]. intros p [= <-]. congruence.
      * by intros u ?%elem_of_nil.
      * by intros u ?%elem_of_nil.
      * split; [done|by left].
Qed.

Fixpoint more_cpus (n kproc : nat) : M sys unit :=
  match n with O => mret tt | S n => cpu_create kproc true true true true true true;; more_cpus n kproc end.

(** The boot processor and [n] more; every process of [pt] is without threads. *)
Definition boot (kproc n : nat) : M sys unit := thread_bootstrap kproc true true true true true;; more_cpus n kproc.
Definition reachable (kproc n : nat) (pt : gmap nat (list nat)) s : Prop :=
  ∃ s0, boot kproc n (Sys ∅ [] ∅ pt) = Ret tt s0 ∧ rtc (step has_as) s0 s.

Lemma empty_inv pt : sinv None None [] (Sys ∅ [] ∅ pt).
Proof. split; [|done..]. intros t. simpl. rewrite lookup_empty. destruct (decide (is_Some None)) as [[? ?]|_]; done. Qed.

Lemma boot_inv kproc n pt :
  is_Some (pt !! kproc) → has_as kproc = false → wp (boot kproc n) (λ _ s, sinv None None [] s) (Sys ∅ [] ∅ pt).
Proof.
  intros [l Hl] Has. unfold boot, thread_bootstrap. apply wp_bind, wp_modify, wp_bind. simpl.
  eapply wp_mono; [|by apply (cpu_create_run kproc (Sys ∅ [] ∅ pt) l)]. intros c s [-> ->].
  pose proof (joined_inv kproc (Sys ∅ [] ∅ pt) l (empty_inv pt) Hl Has) as Hs1. set (s1 := joined _ _ _) in *.
  assert (is_Some (p_threads s1 !! kproc)) as Hk by (exists (l ++ [fresh (dom (∅ : gmap nat thread))]); simpl; apply lookup_insert_eq).
  eapply wp_get_cpu; [done|]. simpl. eapply wp_upd_thread; [simpl; apply lookup_insert_eq|].
  eapply wp_get_thread; [simpl; apply lookup_insert_eq|]. unfold kassert. simpl. apply wp_ret.
  replace (put_thread _ _ s1) with s1; [|unfold put_thread, s1, joined; simpl; by rewrite insert_insert_eq].
  clearbody s1. clear Hl l. revert s1 Hs1 Hk. induction n as [|n IH]; intros s Hs [l Hl]; cbn [more_cpus]; [by apply wp_ret|].
  apply wp_bind. eapply wp_mono; [|by apply (cpu_create_run kproc s l)]. intros c s' [_ ->]. apply IH; [by apply joined_inv|].
  unfold joined. simpl. rewrite lookup_insert_eq. by eexists.
Qed.

Lemma reachable_inv kproc n pt s :
  reachable kproc n pt s → is_Some (pt !! kproc) → has_as kproc = false → sinv None None [] s.
Proof.
  intros (s0 & Hb & Hr) Hk Has. pose proof (boot_inv kproc n pt Hk Has) as H0. unfold wp in H0. rewrite Hb in H0.
  clear Hb. revert H0. induction Hr as [|s1 s2 s3 (me & a & He & Ha) _ IH]; intros Hs; [done|]. apply IH.
  pose proof (act_inv s1 me a Hs He) as Hw. unfold wp in Hw. by rewrite Ha in Hw.
Qed.

(** ** Runs that can be evaluated *)

Definition no_irq y : bool := match y.(c_irq) with None => true | _ => false end.
Definition at_ret y : bool := match y.(c_irq) with Some IRet => true | _ => false end.
Definition no_op (o : wakeop) : bool := match o with WNone => true | _ => false end.
Definition has {A} (m : gmap nat A) (k : nat) : bool := match m !! k with Some _ => true | None => false end.
Definition proc_of s t : option nat := match s.(threads) !! t with Some x => x.(t_proc) | None => None end.

Definition enabledb s me (a : action) : bool :=
  match s.(cpus) !! me with
  | None => false
  | Some y =>
      let code := negb y.(c_isidle) && no_irq y in
      let next := code && no_op (top_op s y) in
      negb y.(c_halted) &&
      match a with
      | AFork proc _ _ _ _ =>
          match match proc with Some p => Some p | None => proc_of s y.(c_curthread) end with
          | Some p => next && has s.(p_threads) p
          | None => false
          end
      | AYield | ACreate _ => next
      | AExit => match proc_of s y.(c_curthread) with Some _ => next | None => false end
      | ASleep w | AWakeone w | AWakeall w => next && has s.(wchans) w
      | AWakeNext => code && negb (no_op (top_op s y))
      | AInterrupt => no_irq y
      | AIdle => y.(c_isidle) && no_irq y
      | AHardclock | AIpi | AIret => at_ret y
      | ATimerclock w | AIrqWakeone w => at_ret y && has s.(wchans) w
      | AIrqNext => negb (no_irq y) && negb (at_ret y)
      end
  end.

Lemma no_irq_spec y : no_irq y = true → y.(c_irq) = None.
Proof. unfold no_irq. by destruct (c_irq y). Qed.

Lemma at_ret_spec y : at_ret y = true → y.(c_irq) = Some IRet.
Proof. unfold at_ret. by destruct (c_irq y) as [[]|]. Qed.

Lemma has_spec {A} (m : gmap nat A) k : has m k = true → is_Some (m !! k).
Proof. unfold has. by destruct (m !! k). Qed.

Lemma thread_code_spec s y :
  negb y.(c_halted) = true → negb y.(c_isidle) && no_irq y = true → thread_mode s y.
Proof. intros H1 [H2 H3]%andb_true_iff. split_and!; [by apply negb_true_iff|by apply no_irq_spec|by apply negb_true_iff]. Qed.

Lemma next_spec s y :
  negb y.(c_halted) = true → negb y.(c_isidle) && no_irq y && no_op (top_op s y) = true → thread_mode s y ∧ top_op s y = WNone.
Proof. intros H1 [H2 H3]%andb_true_iff. split; [by apply thread_code_spec|by destruct (top_op s y)]. Qed.

Lemma enabledb_sound s me a : enabledb s me a = true → enabled s me a.
Proof.
  unfold enabledb, enabled. destruct (cpus s !! me) as [y|]; [|done]. intros [Hh H]%andb_true_iff.
  exists y. split; [done|]. split; [by apply negb_true_iff|]. destruct a.
  - destruct proc as [p|]; [|destruct (proc_of s (c_curthread y)) as [p|] eqn:Ep; [|done]]; apply andb_true_iff in H as [H H2];
      apply next_spec in H as [? ?]; [|done| |done]; (split; [done|]; split; [done|]; exists p; split; [by apply has_spec|]); [by left|].
    right. split; [done|]. unfold proc_of in Ep. destruct (threads s !! c_curthread y) as [x|]; [|done]. by exists x.
  - by apply next_spec.
  - apply andb_true_iff in H as [H H2]. apply next_spec in H as [? ?]; [|done]. split_and!; [done..|by apply has_spec].
  - destruct (proc_of s (c_curthread y)) as [p|] eqn:Ep; [|done]. apply next_spec in H as [? ?]; [|done]. split_and!; [done..|].
    unfold proc_of in Ep. destruct (threads s !! c_curthread y) as [x|]; [|done]. exists x. by rewrite Ep.
  - apply andb_true_iff in H as [H H2]. apply next_spec in H as [? ?]; [|done]. split_and!; [done..|by apply has_spec].
  - apply andb_true_iff in H as [H H2]. apply next_spec in H as [? ?]; [|done]. split_and!; [done..|by apply has_spec].
  - apply andb_true_iff in H as [H H2]. split; [by apply thread_code_spec|]. by destruct (top_op s y).
  - by apply next_spec.
  - by apply no_irq_spec.
  - apply andb_true_iff in H as [H H2]. split; [done|by apply no_irq_spec].
  - by apply at_ret_spec.
  - apply andb_true_iff in H as [H H2]. split; [by apply at_ret_spec|by apply has_spec].
  - apply andb_true_iff in H as [H H2]. split; [by apply at_ret_spec|by apply has_spec].
  - by apply at_ret_spec.
  - unfold no_irq, at_ret in H. destruct (c_irq y) as [p|]; [|done]. exists p. split; [done|]. by intros ->.
  - by apply at_ret_spec.
Qed.

(** A run: each action by the processor named, where it is enabled. *)
Fixpoint run_acts (l : list (nat * action)) s : option sys :=
  match l with
  | [] => Some s
  | (me, a) :: l => if enabledb s me a then match act has_as me a s with Ret _ s' => run_acts l s' | _ => None end else None
  end.

Definition after (kproc n : nat) (pt : gmap nat (list nat)) (l : list (nat * action)) : option sys :=
  match boot kproc n (Sys ∅ [] ∅ pt) with Ret _ s => run_acts l s | _ => None end.

Lemma run_acts_rtc l s s' : run_acts l s = Some s' → rtc (step has_as) s s'.
Proof.
  revert s. induction l as [|[me a] l IH]; intros s H; simpl in H; [by simplify_eq|].
  destruct (enabledb s me a) eqn:E; [|done]. destruct (act has_as me a s) as [[] s1| | |] eqn:Ea; try done.
  eapply rtc_l; [|by apply IH]. exists me, a. split; [by apply enabledb_sound|done].
Qed.

Lemma after_reachable kproc n pt l s : after kproc n pt l = Some s → reachable kproc n pt s.
Proof.
  unfold after. destruct (boot kproc n _) as [[] s0| | |] eqn:Eb; try done. intros H. exists s0. split; [done|]. by apply run_acts_rtc in H.
Qed.

(** C3. Threads are neither lost nor duplicated.  From boot on, under every
    interleaving of forks, yields, sleeps, exits, wakeups, clock interrupts and
    migrations on any number of processors, a thread that exists is in exactly one
    place: running on one processor, on one run queue, one wait channel or one
    list of zombies, or in the hands of one migration or wakeup; a run queue
    holds threads of its own processor only; two processors never have the same
    current thread, and a processor's TLB was last flushed for the process that
    runs on it. *)
Theorem threads_have_one_place (kproc n : nat) (pt : gmap nat (list nat)) s :
  reachable kproc n pt s → is_Some (pt !! kproc) → has_as kproc = false →
  (∀ t, places None s t = if decide (is_Some (s.(threads) !! t)) then 1%nat else 0%nat) ∧
  (∀ c y t, s.(cpus) !! c = Some y → t ∈ y.(c_runqueue) → ∃ x, s.(threads) !! t = Some x ∧ x.(t_cpu) = Some c) ∧
  (∀ c c' y y', s.(cpus) !! c = Some y → s.(cpus) !! c' = Some y' → y.(c_curthread) = y'.(c_curthread) → c = c') ∧
  (∀ c y, s.(cpus) !! c = Some y → ∃ x, s.(threads) !! y.(c_curthread) = Some x ∧
     ∀ p, x.(t_proc) = Some p → has_as p = true → y.(c_as) = Some p).
Proof.
  intros Hr Hk Has. pose proof (reachable_inv kproc n pt s Hr Hk Has) as Hs. split_and!.
  - intros t. pose proof (si_place _ _ _ _ Hs t) as P. simpl in P. lia.
  - intros c y t Hc Ht. apply (co_lists _ _ _ _ _ (si_cpu _ _ _ _ Hs c y Hc)). set_solver.
  - intros c c' y y' Hc Hc' E. by eapply cur_inj.
  - intros c y Hc. destruct (co_cur _ _ _ _ _ (si_cpu _ _ _ _ Hs c y Hc)) as (x & Hx & _ & Ha). exists x. split; [done|]. by apply Ha.
Qed.

(** C4. The thread system does not fail by itself.  In every reachable state, every
    action a processor can take - forking, yielding, sleeping, exiting, waking,
    taking an interrupt, each step of the clock interrupt and of the migration -
    returns: no assertion of the code fails, no thread is put on a list while it is
    on one, no list is asked for a thread it does not have, and every loop ends. *)
Theorem sched_actions_return (kproc n : nat) (pt : gmap nat (list nat)) s me a :
  reachable kproc n pt s → is_Some (pt !! kproc) → has_as kproc = false → enabled s me a →
  ∃ s', act has_as me a s = Ret tt s'.
Proof.
  intros Hr Hk Has He. pose proof (reachable_inv kproc n pt s Hr Hk Has) as Hs.
  destruct (wp_inv _ _ _ (act_inv s me a Hs He)) as ([] & s' & H & _). by exists s'.
Qed.

(** C6. No processor sleeps on work.  In every reachable state a processor that
    sits in [cpu_idle], has taken no interrupt since it began to wait and has a
    thread on its run queue, has an interprocessor interrupt pending that wakes
    it; what it then takes first is the head of its run queue. *)
Theorem idle_processor_is_woken (kproc n : nat) (pt : gmap nat (list nat)) s me y t l :
  reachable kproc n pt s → is_Some (pt !! kproc) → has_as kproc = false →
  s.(cpus) !! me = Some y → y.(c_isidle) = true → y.(c_irq) = None → y.(c_runqueue) = t :: l →
  (y.(c_woken) = false → Z.testbit y.(c_ipi_pending) IPI_UNIDLE = true) ∧
  ∃ s' y', act has_as me AIdle s = Ret tt s' ∧ s'.(cpus) !! me = Some y' ∧ y'.(c_curthread) = t ∧ y'.(c_isidle) = false ∧ y'.(c_runqueue) = l.
Proof.
  intros Hr Hk Has Hc Hi Hq Hl. pose proof (reachable_inv kproc n pt s Hr Hk Has) as Hs. split.
  - intros Hw. apply (co_idle _ _ _ _ _ (si_cpu _ _ _ _ Hs me y Hc)); try done. by rewrite Hl.
  - destruct (wp_inv _ _ _ (switch_next_inv None me [] s y (or_introl eq_refl) Hs Hc Hi (or_introl Hq) (λ _, Hq))) as ([] & s' & H & _ & Hd).
    unfold next_done in Hd. rewrite Hl in Hd. destruct Hd as (y' & E & G1 & G2 & G3 & _). exists s', y'. split; [done|].
    rewrite E. split; [apply list_lookup_insert_eq; by eapply lookup_lt_Some|done].
Qed.
End inv.

(** ** Examples: two processors, one process with an address space

    Processor 0 makes a wait channel, a thread of processor 1 sleeps on it (so that
    processor 1 is idle), processor 0 forks a thread into the process and wakes the
    sleeper up; a clock interrupt is in progress on processor 0. *)

Definition ex_as (p : nat) : bool := (p =? 1)%nat.
Definition ex_procs : gmap nat (list nat) := {[0%nat := []; 1%nat := []]}.
Definition ex_acts : list (nat * action) :=
  [(0, ACreate true); (1, ASleep 0); (0, AFork (Some 1) true true true true); (0, AWakeone 0); (0, AWakeNext);
   (0, AInterrupt); (0, AHardclock)]%nat.
Definition ex_state : sys := default (Sys ∅ [] ∅ ∅) (after ex_as 0 1 ex_procs ex_acts).

Lemma ex_reachable : reachable ex_as 0 1 ex_procs ex_state.
Proof. apply (after_reachable ex_as 0 1 ex_procs ex_acts). vm_compute. reflexivity. Qed.

Lemma threads_have_one_place_witness :
  places None ex_state 1 = 1%nat ∧ places None ex_state 2 = 1%nat ∧ places None ex_state 3 = 0%nat.
Proof.
  destruct (threads_have_one_place ex_as 0 1 ex_procs ex_state ex_reachable) as [H _]; [by eexists|done|].
  split; [rewrite H; vm_compute; reflexivity|]. split; rewrite H; vm_compute; reflexivity.
Defined.

Lemma sched_actions_return_witness : ∃ s', act ex_as 0 AIrqNext ex_state = Ret tt s'.
Proof.
  apply (sched_actions_return ex_as 0 1 ex_procs ex_state 0 AIrqNext ex_reachable); [by eexists|done|].
  apply enabledb_sound. vm_compute. reflexivity.
Defined.

Lemma idle_processor_is_woken_witness :
  ∃ y s' y', ex_state.(cpus) !! 1%nat = Some y ∧ y.(c_woken) = false ∧ Z.testbit y.(c_ipi_pending) IPI_UNIDLE = true ∧
    act ex_as 1 AIdle ex_state = Ret tt s' ∧ s'.(cpus) !! 1%nat = Some y' ∧ y'.(c_curthread) = 1%nat.
Proof.
  destruct (ex_state.(cpus) !! 1%nat) as [y|] eqn:E; [|vm_compute in E; discriminate].
  destruct (idle_processor_is_woken ex_as 0 1 ex_procs ex_state 1 y 1 [] ex_reachable) as [H1 (s' & y' & H2 & H3 & H4 & _)];
    [by eexists|done|done|vm_compute in E; by simplify_eq..|].
  exists y, s', y'. assert (c_woken y = false) as Hw by (vm_compute in E; by simplify_eq). by rewrite (H1 Hw).
Defined.
