(* ===== verification/SchedMig.v ===== *)
(** Fairness and load (file Sched): yielding is round robin, migration evens the
    run queues out.  Also examples of reachable states. *)

From Stdlib Require Import ZArith Lia.
From stdpp Require Import base numbers list gmap relations.
From S2P Require Import Prelude Sched SchedInv.

Section fair.
Context (has_as : nat → bool).
Implicit Types (s : sys) (x : thread) (y : cpu) (c me t : nat).

(** ** Round robin *)

Fixpoint yields (k me : nat) : M sys unit :=
  match k with O => mret tt | S k => thread_yield has_as me;; yields k me end.

(** The current thread and those that wait behind it. *)
Definition line y : list nat := y.(c_curthread) :: y.(c_runqueue).

Lemma yield_wp me s y :
  sinv has_as None None [] s → s.(cpus) !! me = Some y → y.(c_isidle) = false → quiet y →
  wp (thread_yield has_as me)
     (λ _ s', sinv has_as None None [] s' ∧ ∃ y', s'.(cpus) = <[me:=y']> s.(cpus) ∧ line y' = y.(c_runqueue) ++ [y.(c_curthread)] ∧ y'.(c_isidle) = false ∧ quiet y') s.
Proof.
  intros Hs Hc Hi Hq. unfold thread_yield, thread_switch. eapply wp_get_cpu; [done|]. rewrite Hi.
  destruct (co_cur _ _ _ _ _ _ (si_cpu _ _ _ _ _ Hs me y Hc)) as (x & Hx & _).
  eapply wp_run; [by eapply checkstack_ok|]. pose proof (enter_switch _ [] s me y Hs Hc Hi) as Hs1.
  rewrite bool_decide_true by done. cbn [andb]. destruct (c_runqueue y) as [|t l] eqn:Er.
  - rewrite bool_decide_true by done. apply wp_ret. split; [done|]. exists y. rewrite list_insert_id by done. unfold line. by rewrite Er.
  - rewrite bool_decide_false by done. apply wp_bind. eapply wp_mono; [|by apply (away_ready_inv has_as me [] s y)].
    intros [] s' (Hs' & _ & Ec). rewrite Er in Ec.
    eapply wp_mono; [|eapply (switch_rest_inv has_as); [done|rewrite Ec; apply list_lookup_insert_eq; by eapply lookup_lt_Some|done|done]].
    intros _ s2 [Hs2 Hd]. split; [done|]. unfold next_done in Hd. simpl in Hd. destruct Hd as (y' & E & G1 & G2 & G3 & _ & G5 & _).
    exists y'. split; [rewrite E, Ec, !list_insert_insert_eq; done|]. split; [|done]. unfold line. by rewrite G1, G3.
Qed.

(** C7. Yielding is round robin: after [k] yields on a processor that runs, the
    current thread and its run queue are the old ones rotated by [k] places, so
    each thread that waits runs after as many switches as there are threads before
    it, and no other processor's queue has changed. *)
Theorem yield_round_robin (k : nat) me s y :
  (k ≤ length (line y))%nat → sinv has_as None None [] s → s.(cpus) !! me = Some y → y.(c_isidle) = false → y.(c_irq) = None →
  ∃ s' y', yields k me s = Ret tt s' ∧ s'.(cpus) = <[me:=y']> s.(cpus) ∧ line y' = drop k (line y) ++ take k (line y).
Proof.
  intros Hk Hs Hc Hi Hq0. assert (quiet y) as Hq by (by left). clear Hq0.
  revert s y Hk Hs Hc Hi Hq. induction k as [|k IH]; intros s y Hk Hs Hc Hi Hq.
  - exists s, y. rewrite list_insert_id by done. by rewrite app_nil_r.
  - destruct (wp_inv _ _ _ (yield_wp me s y Hs Hc Hi Hq)) as ([] & s1 & H & Hs1 & y1 & E1 & L1 & I1 & Q1). simpl in Hk.
    assert (k ≤ length (line y1))%nat as Hk1 by (rewrite L1, length_app; simpl; lia).
    destruct (IH s1 y1 Hk1 Hs1) as (s' & y' & H' & E' & L'); [rewrite E1; apply list_lookup_insert_eq; by eapply lookup_lt_Some|done..|].
    exists s', y'. cbn [yields]. rewrite (bind_Ret _ _ _ _ _ H). split; [done|]. split; [by rewrite E', E1, list_insert_insert_eq|].
    rewrite L', L1, drop_app_le, take_app_le by lia. unfold line. simpl. by rewrite <- app_assoc.
Qed.

(** ** Migration *)

Lemma tl_count_small l : Z.of_nat (length l) < W32 → tl_count l = Z.of_nat (length l).
Proof. intros H. apply u32_small. lia. Qed.

(** What processor [c] gets: as much as brings it up to the share. *)
Lemma mig_give_exact fuel me c share s y yc :
  sinv has_as None None [] s → s.(cpus) !! me = Some y → y.(c_irq) = Some IPut → c ≠ me → s.(cpus) !! c = Some yc →
  y.(c_curthread) ∉ y.(c_victims) → Z.of_nat (length yc.(c_runqueue) + length y.(c_victims)) < W32 → 0 ≤ share →
  (length y.(c_victims) < fuel)%nat →
  let g := Nat.min (length y.(c_victims)) (Z.to_nat share - length yc.(c_runqueue)) in
  wp (mig_give fuel me c share (Z.of_nat (length y.(c_victims))))
     (λ r s', sinv has_as None None [] s' ∧ r = Z.of_nat (length (drop g y.(c_victims))) ∧
        ∃ yc', s'.(cpus) = <[c:=yc']> (<[me:=set_victims (drop g y.(c_victims)) y]> s.(cpus)) ∧
               yc'.(c_runqueue) = yc.(c_runqueue) ++ take g y.(c_victims)) s.
Proof.
  revert s y yc. induction fuel as [|fuel IH]; intros s y yc Hs Hc Hq Hne Hyc Hcur Hw Hsh Hf; [lia|]. cbn [mig_give].
  eapply wp_get_cpu; [done|]. rewrite tl_count_small by lia.
  assert (<[c:=yc]> (<[me:=set_victims (drop 0 (c_victims y)) y]> (cpus s)) = cpus s) as Hid.
  { rewrite (list_insert_id _ me) by (rewrite Hc; by destruct y). by rewrite list_insert_id. }
  destruct ((Z.of_nat (length (c_runqueue yc)) <? share) && (Z.of_nat (length (c_victims y)) >? 0)) eqn:Eg.
  2:{ apply wp_ret. split; [done|]. replace (Nat.min _ _) with 0%nat.
      - split; [done|]. exists yc. by rewrite Hid, take_0, app_nil_r.
      - apply andb_false_iff in Eg as [Eg|Eg]; [apply Z.ltb_ge in Eg|rewrite Z.gtb_ltb in Eg; apply Z.ltb_ge in Eg]; lia. }
  apply andb_true_iff in Eg as [H1%Z.ltb_lt H2%Z.gtb_lt]. eapply wp_get_cpu; [done|].
  destruct (c_victims y) as [|t rest] eqn:Ev; [simpl in H2; lia|]. apply not_elem_of_cons in Hcur as [Et Hcur]. simpl length in *.
  rewrite (proj2 (Nat.eqb_neq t (c_curthread y))) by congruence.
  eapply wp_give_one; try done. intros s' Hs' Ec. replace (Z.of_nat (S (length rest)) - 1) with (Z.of_nat (length rest)) by lia.
  assert (c_runqueue (with_ready t yc) = c_runqueue yc ++ [t]) as Er by (unfold with_ready; by destruct (c_isidle yc)).
  eapply wp_mono; [|apply (IH s' (set_victims rest y) (with_ready t yc)); try done].
  - intros r s2 (G1 & G2 & yc' & G3 & G4). simpl in G2, G3, G4. rewrite Er, length_app in *. simpl in *.
    replace (Z.to_nat share - length (c_runqueue yc))%nat with (S (Z.to_nat share - (length (c_runqueue yc) + 1))) by lia.
    split; [done|]. split; [done|]. exists yc'. split; [|rewrite G4, <- app_assoc; done].
    rewrite G3, Ec. rewrite (list_insert_insert_ne _ me c) by done. by rewrite !list_insert_insert_eq.
  - rewrite Ec, list_lookup_insert_ne by done. apply list_lookup_insert_eq. by eapply lookup_lt_Some.
  - rewrite Ec. apply list_lookup_insert_eq. rewrite length_insert. by eapply lookup_lt_Some.
  - rewrite Er, length_app. simpl. lia.
  - simpl. lia.
Qed.

(** What each processor from the [i]th on gets of the victims [v]. *)
Fixpoint deal (share me i : nat) (qs : list (list nat)) (v : list nat) : list (list nat) :=
  match qs with
  | [] => []
  | q :: qs =>
      let g := if (i =? me)%nat then 0%nat else Nat.min (length v) (share - length q) in
      take g v :: deal share me (S i) qs (drop g v)
  end.

(** Room on the other processors. *)
Fixpoint room (share me i : nat) (qs : list (list nat)) : nat :=
  match qs with [] => 0 | q :: qs => (if (i =? me)%nat then 0 else share - length q) + room share me (S i) qs end.

Lemma deal_all share me i qs v : (length v ≤ room share me i qs)%nat → concat (deal share me i qs v) = v.
Proof.
  revert i v. induction qs as [|q qs IH]; intros i v H; simpl in *; [by destruct v; simpl in *; [|lia]|].
  rewrite IH; [apply take_drop|]. rewrite length_drop. destruct (i =? me)%nat; lia.
Qed.

Lemma deal_nil share me i qs : zip_with app qs (deal share me i qs []) = qs ∧ concat (deal share me i qs []) = [].
Proof.
  revert i. induction qs as [|q qs IH]; intros i; simpl; [done|]. rewrite take_nil, drop_nil. destruct (IH (S i)) as [-> ->].
  by rewrite app_nil_r.
Qed.

Definition queues s : list (list nat) := c_runqueue <$> s.(cpus).

Lemma queues_lookup s c y : s.(cpus) !! c = Some y → queues s !! c = Some y.(c_runqueue).
Proof. intros H. unfold queues. by rewrite list_lookup_fmap, H. Qed.

Lemma queues_length s : length (queues s) = length s.(cpus).
Proof. apply length_fmap. Qed.

(** What the third loop leaves when it starts at processor [i] with victims [v]. *)
Record dealt (me i : nat) (share : Z) (v : list nat) s s' : Prop := {
  de_queues : queues s' = take i (queues s) ++ zip_with app (drop i (queues s)) (deal (Z.to_nat share) me i (drop i (queues s)) v);
  de_me : ∃ y', s'.(cpus) !! me = Some y' ∧ y'.(c_irq) = Some IPut ∧
          y'.(c_victims) = drop (length (concat (deal (Z.to_nat share) me i (drop i (queues s)) v))) v;
}.

Lemma dealt_nil me i share s y :
  s.(cpus) !! me = Some y → y.(c_irq) = Some IPut → y.(c_victims) = [] → dealt me i share [] s s.
Proof.
  intros Hc Hq Hv. split.
  - destruct (deal_nil (Z.to_nat share) me i (drop i (queues s))) as [-> _]. by rewrite take_drop.
  - exists y. by rewrite drop_nil.
Qed.

(** One processor further. *)
Lemma dealt_cons me i share v q g s s1 s' :
  queues s !! i = Some q → g = (if (i =? me)%nat then 0%nat else Nat.min (length v) (Z.to_nat share - length q)) →
  queues s1 = <[i:=q ++ take g v]> (queues s) → dealt me (S i) share (drop g v) s1 s' → dealt me i share v s s'.
Proof.
  intros Hi -> Eq [D1 (y' & D2 & D3 & D4)]. assert (i < length (queues s))%nat by (by eapply lookup_lt_Some).
  assert (drop (S i) (queues s1) = drop (S i) (queues s)) as Ed by (rewrite Eq; by apply drop_insert_lt; lia).
  rewrite Ed in D1, D4. set (g := if (i =? me)%nat then _ else _) in *. split.
  - rewrite D1, Eq, (drop_S _ q i Hi). simpl. fold g.
    rewrite (take_S_r _ _ (q ++ take g v)) by (by rewrite list_lookup_insert_eq). rewrite take_insert_ge by lia. by rewrite <- app_assoc.
  - exists y'. split; [done|]. split; [done|]. rewrite D4, drop_drop, (drop_S _ q i Hi). simpl. fold g. rewrite length_app. f_equal.
    rewrite length_take. unfold g. destruct (i =? me)%nat; lia.
Qed.

Lemma mig_run_step fuel me p s Q :
  p ≠ IYield → wp (mig_step me p) (λ p' s', wp (mig_run fuel me p') Q s') s → wp (mig_run (S fuel) me p) Q s.
Proof. intros Hp H. destruct p; try done; cbn [mig_run]; by apply wp_bind. Qed.

Lemma give_loop k i f me share s y Q :
  (i + k = length s.(cpus))%nat → sinv has_as None None [] s → s.(cpus) !! me = Some y → y.(c_irq) = Some IPut →
  y.(c_curthread) ∉ y.(c_victims) → 0 ≤ share →
  (∀ c yc, s.(cpus) !! c = Some yc → Z.of_nat (length yc.(c_runqueue) + length y.(c_victims)) < W32) →
  (∀ f' s', (f ≤ f')%nat → sinv has_as None None [] s' → dealt me i share y.(c_victims) s s' → wp (mig_run f' me IPut) Q s') →
  wp (mig_run (k + 1 + f) me (IGive (Z.of_nat i) share (Z.of_nat (length y.(c_victims))))) Q s.
Proof.
  revert i s y. induction k as [|k IH]; intros i s y Hk Hs Hc Hq Hcur Hsh Hw HQ;
    (apply mig_run_step; [done|]; unfold mig_step; apply wp_get).
  - rewrite (proj2 (Z.ltb_ge _ _)) by lia. cbn [andb]. apply wp_ret. apply HQ; [lia|done|]. split.
    + rewrite drop_ge, take_ge by (rewrite queues_length; lia). by rewrite app_nil_r.
    + exists y. split; [done|]. split; [done|]. by rewrite (drop_ge (queues s)) by (rewrite queues_length; lia).
  - rewrite (proj2 (Z.ltb_lt _ _)) by lia. destruct (Z.gtb_spec (Z.of_nat (length (c_victims y))) 0) as [Hv|Hv]; cbn [andb].
    2:{ assert (c_victims y = []) as Ev by (by destruct (c_victims y); simpl in *; [|lia]). rewrite Ev in HQ. apply wp_ret.
        apply (HQ (k + 1 + f)%nat); [lia|done|]. by eapply dealt_nil. }
    destruct (lookup_lt_is_Some_2 (cpus s) i) as [yi Hyi]; [lia|]. pose proof (queues_lookup s i yi Hyi) as Hqi.
    replace (Z.of_nat i + 1) with (Z.of_nat (S i)) by lia. unfold mig_cpu. rewrite Nat2Z.id. apply wp_bind.
    destruct (Nat.eqb_spec i me) as [->|Hne].
    + apply wp_ret, wp_ret. apply IH; try done; [lia|]. intros f' s' Hf Hs' Hd. apply HQ; [done|done|].
      eapply (dealt_cons _ _ _ _ _ 0%nat); [done|by rewrite Nat.eqb_refl| |done]. by rewrite take_0, app_nil_r, list_insert_id.
    + eapply wp_mono; [|by apply (mig_give_exact _ me i share s y yi); try done; [apply Hw with i|lia]].
      intros r s1 (Hs1 & -> & yc' & Ec & Er). apply wp_ret. set (g := Nat.min _ _) in *. set (y1 := set_victims (drop g (c_victims y)) y) in *.
      assert (cpus s1 !! me = Some y1) as Hc1 by (rewrite Ec, list_lookup_insert_ne by done; apply list_lookup_insert_eq; by eapply lookup_lt_Some).
      change (drop g (c_victims y)) with (c_victims y1). apply IH; try done.
      * rewrite Ec, !length_insert. lia.
      * unfold y1. simpl. intros Hin. apply Hcur. by eapply elem_of_drop in Hin as (? & ? & _) || (eapply list_elem_of_lookup in Hin as [j Hj]; rewrite lookup_drop in Hj; by eapply list_elem_of_lookup_2).
      * intros c yc Hyc. rewrite Ec in Hyc. unfold y1. simpl. rewrite length_drop. destruct (decide (c = i)) as [->|Hci].
        { rewrite list_lookup_insert_eq in Hyc by (rewrite length_insert; lia). injection Hyc as <-. rewrite Er, length_app, length_take.
          pose proof (Hw i yi Hyi). unfold g. lia. }
        rewrite list_lookup_insert_ne in Hyc by done. destruct (decide (c = me)) as [->|Hcm].
        { rewrite list_lookup_insert_eq in Hyc by (by eapply lookup_lt_Some). injection Hyc as <-. simpl. pose proof (Hw me y Hc). lia. }
        rewrite list_lookup_insert_ne in Hyc by done. pose proof (Hw c yc Hyc). lia.
      * intros f' s' Hf Hs' Hd. apply HQ; [done|done|]. eapply (dealt_cons _ _ _ _ _ g); [done|by rewrite (proj2 (Nat.eqb_neq _ _) Hne)| |done].
        unfold queues. rewrite Ec, !list_fmap_insert, Er. f_equal. apply list_insert_id. by rewrite list_lookup_fmap, Hc.
Qed.

Definition total (qs : list (list nat)) : nat := sum_list_with length qs.

(** The first loop only reads. *)
Lemma count_loop k i f me my s y Q :
  (i + k = length s.(cpus))%nat → s.(cpus) !! me = Some y → Z.of_nat (total (queues s)) < W32 →
  my = (if (i <=? me)%nat then 0 else Z.of_nat (length y.(c_runqueue))) →
  wp (mig_run f me (mig_decide (Z.of_nat (length y.(c_runqueue))) (Z.of_nat (total (queues s))) (Z.of_nat (length s.(cpus))))) Q s →
  wp (mig_run (k + 1 + f) me (ICount (Z.of_nat i) my (Z.of_nat (total (take i (queues s)))))) Q s.
Proof.
  intros Hk Hc Hw. revert i my Hk. induction k as [|k IH]; intros i my Hk Emy HQ; (apply mig_run_step; [done|]; unfold mig_step; apply wp_get).
  - rewrite (proj2 (Z.ltb_ge _ _)) by lia. apply wp_ret. rewrite take_ge by (rewrite queues_length; lia).
    rewrite (proj2 (Nat.leb_gt i me)) in Emy by (assert (me < length (cpus s))%nat by (by eapply lookup_lt_Some); lia). by subst my.
  - rewrite (proj2 (Z.ltb_lt _ _)) by lia. destruct (lookup_lt_is_Some_2 (cpus s) i) as [yi Hyi]; [lia|].
    pose proof (queues_lookup s i yi Hyi) as Hqi. pose proof (take_S_r _ _ _ Hqi) as Et.
    assert (total (take (S i) (queues s)) ≤ total (queues s))%nat as Hle.
    { unfold total. rewrite <- (take_drop (S i) (queues s)) at 2. rewrite sum_list_with_app. lia. }
    assert (total (take (S i) (queues s)) = total (take i (queues s)) + length (c_runqueue yi))%nat as E1.
    { unfold total. rewrite Et, sum_list_with_app. simpl. lia. }
    unfold mig_count. rewrite Nat2Z.id. apply wp_bind. eapply wp_get_cpu; [done|]. apply wp_ret, wp_ret.
    rewrite tl_count_small by lia. cbn [fst snd]. rewrite u32_small by lia.
    replace (Z.of_nat i + 1) with (Z.of_nat (S i)) by lia. rewrite <- Nat2Z.inj_add, <- E1. apply IH; [lia| |done].
    subst my. destruct (Nat.eqb_spec i me) as [->|Hne].
    + rewrite Hc in Hyi. simplify_eq. by rewrite (proj2 (Nat.leb_gt (S me) me)) by lia.
    + destruct (Nat.leb_spec i me), (Nat.leb_spec (S i) me); try done; lia.
Qed.

Definition fair_share s : nat := (total (queues s) + length s.(cpus) - 1) / length s.(cpus).

Lemma one_share_exact s :
  (0 < length s.(cpus))%nat → Z.of_nat (total (queues s) + length s.(cpus)) < W32 →
  one_share (Z.of_nat (total (queues s))) (Z.of_nat (length s.(cpus))) = Z.of_nat (fair_share s).
Proof.
  intros H1 H2. unfold one_share, fair_share. rewrite (u32_small (Z.of_nat _ + Z.of_nat _)) by lia. rewrite u32_small by lia.
  rewrite Nat2Z.inj_div. f_equal. lia.
Qed.

Lemma fair_share_enough s : (0 < length s.(cpus))%nat → (total (queues s) ≤ length (queues s) * fair_share s)%nat.
Proof.
  intros H. rewrite queues_length. unfold fair_share. set (n := length (cpus s)) in *.
  pose proof (Nat.div_mod_eq (total (queues s) + n - 1) n). pose proof (Nat.mod_upper_bound (total (queues s) + n - 1) n). lia.
Qed.

Lemma room_rest share me i qs : (me < i)%nat → (length qs * share ≤ room share me i qs + total qs)%nat.
Proof.
  revert i. induction qs as [|q qs IH]; intros i H; simpl; [lia|]. specialize (IH (S i)). unfold total in *. simpl.
  rewrite (proj2 (Nat.eqb_neq i me)) by lia. lia.
Qed.

Lemma room_enough share me i qs q :
  qs !! me = Some q → (length qs * share + length q ≤ room share (i + me) i qs + total qs + share)%nat.
Proof.
  revert me i. induction qs as [|q' qs IH]; intros [|me] i H; simplify_eq/=; unfold total in *; simpl.
  - rewrite Nat.add_0_r, Nat.eqb_refl. pose proof (room_rest share i (S i) qs). unfold total in *. lia.
  - specialize (IH me (S i) H). replace (S i + me)%nat with (i + S me)%nat in IH by lia.
    rewrite (proj2 (Nat.eqb_neq i (i + S me))) by lia. lia.
Qed.

Lemma deal_me share me i qs v : (me < length qs)%nat → deal share (i + me) i qs v !! me = Some [].
Proof.
  revert me i v. induction qs as [|q qs IH]; intros [|me] i v H; simpl in *; try lia.
  - by rewrite Nat.add_0_r, Nat.eqb_refl, take_0.
  - replace (i + S me)%nat with (S i + me)%nat by lia. apply IH. lia.
Qed.

Lemma deal_bound share me i qs v c q g :
  qs !! c = Some q → deal share me i qs v !! c = Some g → g ≠ [] → (length (q ++ g) ≤ share)%nat.
Proof.
  revert c i v. induction qs as [|q' qs IH]; intros [|c] i v H1 H2 Hg; simplify_eq/=; [|by eapply IH].
  rewrite length_app, length_take. destruct (i =? me)%nat; [by rewrite take_0 in Hg|].
  destruct (decide (share - length q = 0)%nat) as [E|]; [|lia]. rewrite E, Nat.min_0_r, take_0 in Hg. done.
Qed.

Lemma running_not_queued s me y :
  sinv has_as None None [] s → s.(cpus) !! me = Some y → y.(c_isidle) = false → y.(c_curthread) ∉ y.(c_runqueue).
Proof.
  intros Hs Hc Hi Hin%occs_elem. pose proof (si_place _ _ _ _ _ Hs (c_curthread y)) as P. unfold places in P.
  pose proof (cpus_occ_elem None (c_curthread y) _ me y Hc) as Hle. revert Hle. unfold cpu_places, running. rewrite Hi, !occs_app. simpl.
  rewrite decide_True by done. destruct (decide (is_Some _)); lia.
Qed.

(** The taking and the giving, with the share known. *)
Lemma migrate_wp me share s y :
  sinv has_as None None [] s → s.(cpus) !! me = Some y → y.(c_irq) = Some IPut → y.(c_victims) = [] →
  y.(c_curthread) ∉ y.(c_runqueue) → (share ≤ length y.(c_runqueue))%nat → Z.of_nat (total (queues s) + length s.(cpus)) < W32 →
  (total (queues s) ≤ length (queues s) * share)%nat →
  let rq := y.(c_runqueue) in let qs := <[me:=take share rq]> (queues s) in let gifts := deal share me 0 qs (drop share rq) in
  wp (mig_run (length s.(cpus) + 4) me (ITake (Z.of_nat share) (Z.of_nat (length rq) - Z.of_nat share)))
     (λ _ s', queues s' = zip_with app qs gifts ∧ concat gifts = drop share rq) s.
Proof.
  intros Hs Hc Hq Hv Hcur Hsh Hw Hen rq qs gifts. pose proof (queues_lookup s me y Hc) as Hqm.
  assert (total qs + length rq = total (queues s) + length (take share rq))%nat as Et by (by apply sum_insert).
  assert (concat gifts = drop share rq) as Eg.
  { apply deal_all. rewrite length_drop. pose proof (room_enough share me 0 qs (take share rq)) as Hr.
    specialize (Hr (list_lookup_insert_eq _ _ _ (lookup_lt_Some _ _ _ Hqm))). simpl in Hr.
    unfold qs in Hr at 1. rewrite length_insert, length_take in Hr. rewrite length_take in Et. unfold rq in *. lia. }
  replace (length (cpus s) + 4)%nat with (S (length (cpus s) + 1 + 2)) by lia. apply mig_run_step; [done|].
  unfold mig_step. apply wp_get. eapply wp_run; [apply (mig_take_eq has_as _ _ _ y); [done|unfold rq; lia]|].
  replace (length (c_runqueue y) - Z.to_nat _)%nat with share by (unfold rq; lia). rewrite Hv, app_nil_r. fold rq.
  set (y1 := set_victims (drop share rq) (set_runqueue (take share rq) y)). set (s1 := put_cpu me y1 s). apply wp_ret.
  assert (queues s1 = qs) as Eq1 by (unfold queues, s1, put_cpu; simpl; by rewrite list_fmap_insert).
  replace (Z.of_nat (length rq) - Z.of_nat share) with (Z.of_nat (length (c_victims y1))) by (simpl; rewrite length_drop; unfold rq; lia).
  change (IGive 0) with (IGive (Z.of_nat 0)).
  eapply (give_loop (length (cpus s)) 0); [by unfold s1; simpl; rewrite length_insert| |by eapply lookup_put_cpu|done| |lia| |].
  - eapply relist_inv; [done|done|done|by destruct y|]. simpl. by rewrite Hv, app_nil_r, take_drop.
  - simpl. intros Hin. apply Hcur. rewrite <- (take_drop share (c_runqueue y)). apply elem_of_app. by right.
  - intros c yc Hyc%queues_lookup. rewrite Eq1 in Hyc. pose proof (sum_elem length _ _ _ Hyc) as Hle. fold (total qs) in Hle. simpl.
    rewrite length_drop. rewrite length_take in Et. unfold rq in *. lia.
  - intros f' s' Hf Hs' [D1 (y' & D2 & D3 & D4)]. rewrite Nat2Z.id, Eq1 in D1, D4. change (c_victims y1) with (drop share rq) in D1, D4.
    rewrite drop_0 in D1, D4. rewrite take_0 in D1. fold gifts in D1, D4. rewrite Eg, drop_all in D4.
    destruct f' as [|[|f']]; [lia..|]. apply mig_run_step; [done|]. unfold mig_step. apply wp_get.
    unfold mig_put. eapply wp_upd_cpu; [done|]. apply wp_ret. cbn [mig_run]. apply wp_ret. split; [|done].
    unfold queues, put_cpu. simpl. rewrite list_fmap_insert. simpl. rewrite D4, app_nil_r.
    rewrite list_insert_id by (by apply queues_lookup). done.
Qed.

(** C5. Migration gives away the excess, evenly: on a processor that runs, with
    fewer threads in all than a machine word counts, [thread_consider_migration]
    returns; the processor keeps the first threads of its run queue up to its
    share (the average, rounded up), in order; all the others, none lost and none
    twice, are appended to the other processors' queues in order; and no processor
    is given a thread beyond its share. *)
Theorem migration_balances me s y :
  sinv has_as None None [] s → s.(cpus) !! me = Some y → y.(c_irq) = Some IPut → y.(c_isidle) = false → y.(c_victims) = [] →
  Z.of_nat (total (queues s) + length s.(cpus)) < W32 →
  let share := fair_share s in
  ∃ s' gifts, thread_consider_migration me s = Ret tt s' ∧
    queues s' = zip_with app (<[me:=take share y.(c_runqueue)]> (queues s)) gifts ∧
    concat gifts = drop share y.(c_runqueue) ∧ gifts !! me = Some [] ∧
    ∀ c q g, queues s' !! c = Some q → gifts !! c = Some g → g ≠ [] → (length q ≤ share)%nat.
Proof.
  intros Hs Hc Hq Hi Hv Hw share. assert (me < length (cpus s))%nat as Hme by (by eapply lookup_lt_Some).
  set (qs := <[me:=take share (c_runqueue y)]> (queues s)). set (gifts := deal share me 0 qs (drop share (c_runqueue y))).
  assert (wp (thread_consider_migration me) (λ _ s', queues s' = zip_with app qs gifts ∧ concat gifts = drop share (c_runqueue y)) s) as Hwp.
  { unfold thread_consider_migration. apply wp_get. replace (2 * length (cpus s) + 5)%nat with (length (cpus s) + 1 + (length (cpus s) + 4))%nat by lia.
    eapply (count_loop (length (cpus s)) 0 _ me 0 s y); [done|done|lia|by destruct me|].
    unfold mig_decide. rewrite one_share_exact by lia. fold share. destruct (Z.ltb_spec (Z.of_nat (length (c_runqueue y))) (Z.of_nat share)).
    - rewrite Nat.add_comm. cbn [mig_run Nat.add]. apply wp_ret. unfold gifts, qs. rewrite drop_ge, take_ge by lia.
      rewrite list_insert_id by (by apply queues_lookup). by destruct (deal_nil share me 0 (queues s)) as [-> ->].
    - apply migrate_wp; try done; [by eapply running_not_queued|lia|apply fair_share_enough; lia]. }
  destruct (wp_inv _ _ _ Hwp) as ([] & s' & Hr & E1 & E2). exists s', gifts. split; [done|]. split; [done|]. split; [done|].
  split; [apply (deal_me share me 0); unfold qs; rewrite length_insert, queues_length; done|].
  intros c q g H1 H2 Hg. rewrite E1, lookup_zip_with, H2 in H1. destruct (qs !! c) as [q0|] eqn:E0; simplify_eq/=.
  by eapply deal_bound.
Qed.
End fair.

(** ** Examples: two processors; processor 0 has forked four threads *)

Definition ex_forks : list (nat * action) := replicate 4 (0%nat, AFork (Some 1%nat) true true true true).
Definition forked : sys := default (Sys ∅ [] ∅ ∅) (after ex_as 0 1 ex_procs ex_forks).

Lemma forked_inv : sinv ex_as None None [] forked.
Proof.
  apply (reachable_inv ex_as 0 1 ex_procs); [|by eexists|done]. apply (after_reachable ex_as 0 1 ex_procs ex_forks). vm_compute. reflexivity.
Qed.

Definition cpu0 s : cpu := default (Cpu 0 [] 0 false [] 0 [] 0 None None [] false false) (s.(cpus) !! 0%nat).

Lemma yield_round_robin_witness :
  ∃ s' y', yields ex_as 2 0 forked = Ret tt s' ∧ s'.(cpus) = <[0%nat:=y']> forked.(cpus) ∧ line y' = [3; 4; 5; 0; 2]%nat.
Proof.
  destruct (yield_round_robin ex_as 2 0 forked (cpu0 forked)) as (s' & y' & H1 & H2 & H3);
    [vm_compute; lia|apply forked_inv|vm_compute; reflexivity..|]. exists s', y'. split; [done|]. split; [done|].
  rewrite H3. vm_compute. reflexivity.
Defined.

(** In the handler, at the migration. *)
Definition in_handler : sys := default (Sys ∅ [] ∅ ∅) (after ex_as 0 1 ex_procs (ex_forks ++ [(0, AInterrupt); (0, AHardclock)]%nat)).
Definition migrating0 : sys := put_cpu 0 (set_irq (Some IPut) (cpu0 in_handler)) in_handler.

Lemma migration_balances_witness :
  ∃ s' gifts, thread_consider_migration 0 migrating0 = Ret tt s' ∧ queues s' = zip_with app [[2; 3]; []]%nat gifts ∧
              concat gifts = [4; 5]%nat ∧ gifts !! 0%nat = Some [].
Proof.
  destruct (migration_balances ex_as 0 migrating0 (cpu0 migrating0)) as (s' & gifts & H1 & H2 & H3 & H4 & _);
    [|vm_compute; reflexivity..|].
  - assert (sinv ex_as None None [] in_handler) as Hs.
    { apply (reachable_inv ex_as 0 1 ex_procs); [|by eexists|done].
      apply (after_reachable ex_as 0 1 ex_procs (ex_forks ++ [(0, AInterrupt); (0, AHardclock)]%nat)). vm_compute. reflexivity. }
    destruct (wp_inv _ _ _ (goto_inv ex_as 0 in_handler (cpu0 in_handler) IPut [] [] Hs eq_refl (ex_intro _ IYield eq_refl) I (λ u, eq_refl))) as (? & ? & _ & Hs' & ->).
    exact Hs'.
  - exists s', gifts. split; [done|]. split; [by rewrite H2|]. split; [by rewrite H3|done].
Defined.
