(* ===== verification/Kmalloc.v ===== *)
(** The kernel heap (kern/vm/kmalloc.c).

    Pages come from the page allocator through the class [KPages]: handing out
    and taking back pages, and the 32-bit words of kernel memory at their
    addresses; [KPagesLaws] is what the heap relies on, and the coremap
    implements it.  A pointer to a [struct pageref] is its index in the table
    [pagerefs], NULL is [None]; the free list of a page is threaded through the
    words of its free blocks, as in the source.  SLOW and SLOWER are off, so
    [checksubpage] and [checksubpages] are empty. *)

From Stdlib Require Import ZArith Lia.
From stdpp Require Import base numbers list.
From S2P Require Import Prelude Bitmap Spinlock Coremap Addrspace.

(** What the heap uses of the rest of memory management.  [kp_owned p a]: the
    page at virtual address [a] is handed out; [kp_ready p]: a call for one
    page returns; [kp_refused p]: it returns NULL. *)
Class KPages (P : Type) := {
  kp_alloc : Z → M P Z;
  kp_free : Z → M P unit;
  kp_peek : P → Z → Z;
  kp_poke : Z → Z → P → P;
  kp_inv : P → Prop;
  kp_owned : P → Z → Prop;
  kp_ready : P → Prop;
  kp_refused : P → Prop;
}.

(** The words of the page at [b] are the same. *)
Definition same_page {P} `{!KPages P} (p p' : P) (b : Z) : Prop :=
  ∀ x, x mod 4 = 0 → b ≤ x < b + PAGE_SIZE → kp_peek p' x = kp_peek p x.

Class KPagesLaws (P : Type) `{!KPages P} := {
  kp_aligned p a : kp_inv p → kp_owned p a →
    a mod PAGE_SIZE = 0 ∧ MIPS_KSEG0 ≤ a ∧ a + PAGE_SIZE ≤ 0xa0000000;
  kp_alloc_law p : kp_inv p → kp_ready p →
    wp (kp_alloc 1) (λ a p', kp_inv p' ∧
      (∀ b, kp_owned p b → kp_owned p' b ∧ same_page p p' b) ∧
      (a = 0 ∧ kp_refused p ∨ ¬ kp_refused p ∧ ¬ kp_owned p a ∧ kp_owned p' a)) p;
  kp_stuck_law p : kp_inv p → ¬ kp_ready p → ∀ a p', kp_alloc 1 p ≠ Ret a p';
  kp_free_law p a : kp_inv p → kp_owned p a →
    wp (kp_free a) (λ _ p', kp_inv p' ∧
      ∀ b, b ≠ a → kp_owned p b → kp_owned p' b ∧ same_page p p' b) p;
  kp_poke_law p a b v : kp_inv p → kp_owned p b → b ≤ a < b + PAGE_SIZE → a mod 4 = 0 → 0 ≤ v < W32 →
    kp_inv (kp_poke a v p) ∧ (∀ c, kp_owned p c ↔ kp_owned (kp_poke a v p) c) ∧
    ∀ x, x mod 4 = 0 → kp_peek (kp_poke a v p) x = if x =? a then v else kp_peek p x;
}.

Record pageref := Pageref {
  next_samesize : option Z;
  next_all : option Z;
  pageaddr_and_blocktype : Z;
  freelist_offset : Z;
  nfree : Z;
}.

Definition sizes : list Z := [16; 32; 64; 128; 256; 512; 1024; 2048].
Definition NSIZES : Z := 8.
Definition LARGEST_SUBPAGE_SIZE : Z := 2048.
Definition INVALID_OFFSET : Z := 0xffff.
(** [sizeof(struct pageref)] is 16. *)
Definition NPAGEREFS : Z := PAGE_SIZE / 16.
Definition INUSE_WORDS : Z := NPAGEREFS / 32.

Definition PR_PAGEADDR (pr : pageref) : Z := Z.land pr.(pageaddr_and_blocktype) PAGE_FRAME.
Definition PR_BLOCKTYPE (pr : pageref) : Z := Z.land pr.(pageaddr_and_blocktype) (u32 (Z.lnot PAGE_FRAME)).
Definition MKPAB (pa blk : Z) : Z := Z.lor (Z.land pa PAGE_FRAME) (Z.land blk (u32 (Z.lnot PAGE_FRAME))).
Definition u16 (x : Z) : Z := x mod 65536.

Record kheap (P : Type) := Kheap {
  pagerefs : list pageref;
  pagerefs_inuse : list Z;
  sizebases : list (option Z);
  allbase : option Z;
  kmalloc_spinlock : spinlock;
  pages : P;
}.
Arguments Kheap {P} _ _ _ _ _ _.
Arguments pagerefs {P} _.
Arguments pagerefs_inuse {P} _.
Arguments sizebases {P} _.
Arguments allbase {P} _.
Arguments kmalloc_spinlock {P} _.
Arguments pages {P} _.

Section kmalloc.
Context {P : Type} `{!KPages P} (mycpu : option nat).
Implicit Types s : kheap P.

Definition set_pagerefs (l : list pageref) s : kheap P :=
  Kheap l s.(pagerefs_inuse) s.(sizebases) s.(allbase) s.(kmalloc_spinlock) s.(pages).
Definition set_inuse (l : list Z) s : kheap P :=
  Kheap s.(pagerefs) l s.(sizebases) s.(allbase) s.(kmalloc_spinlock) s.(pages).
Definition set_sizebases (l : list (option Z)) s : kheap P :=
  Kheap s.(pagerefs) s.(pagerefs_inuse) l s.(allbase) s.(kmalloc_spinlock) s.(pages).
Definition set_allbase (o : option Z) s : kheap P :=
  Kheap s.(pagerefs) s.(pagerefs_inuse) s.(sizebases) o s.(kmalloc_spinlock) s.(pages).
Definition set_kmlock (l : spinlock) s : kheap P :=
  Kheap s.(pagerefs) s.(pagerefs_inuse) s.(sizebases) s.(allbase) l s.(pages).
Definition set_pages (p : P) s : kheap P :=
  Kheap s.(pagerefs) s.(pagerefs_inuse) s.(sizebases) s.(allbase) s.(kmalloc_spinlock) p.

Definition km_lock : M (kheap P) unit := zoom kmalloc_spinlock set_kmlock (spinlock_acquire mycpu).
Definition km_unlock : M (kheap P) unit := zoom kmalloc_spinlock set_kmlock (spinlock_release mycpu).

(** [*(uint32_t * )a]. *)
Definition rd (a : Z) : M (kheap P) Z := gets (λ s, kp_peek s.(pages) a).
Definition wr (a v : Z) : M (kheap P) unit := modify (λ s, set_pages (kp_poke a v s.(pages)) s).

Definition pr_at (i : Z) : M (kheap P) pageref := s ← get; of_opt (zlookup s.(pagerefs) i).
Definition pr_put (i : Z) (f : pageref → pageref) : M (kheap P) unit :=
  s ← get;
  pr ← of_opt (zlookup s.(pagerefs) i);
  l ← of_opt (zupd s.(pagerefs) i (f pr));
  modify (set_pagerefs l).

Definition set_free (off n : Z) (pr : pageref) : pageref :=
  Pageref pr.(next_samesize) pr.(next_all) pr.(pageaddr_and_blocktype) off n.
Definition set_next_samesize (o : option Z) (pr : pageref) : pageref :=
  Pageref o pr.(next_all) pr.(pageaddr_and_blocktype) pr.(freelist_offset) pr.(nfree).
Definition set_next_all (o : option Z) (pr : pageref) : pageref :=
  Pageref pr.(next_samesize) o pr.(pageaddr_and_blocktype) pr.(freelist_offset) pr.(nfree).

Definition fill_deadbeef (ptr len : Z) : M (kheap P) unit :=
  for_up (Z.to_nat (len / 4)) 0 (λ i, wr (u32 (ptr + 4 * i)) 0xdeadbeef).

(** ** The table of pagerefs *)

Definition inuse_put (i w : Z) : M (kheap P) unit :=
  s ← get;
  l ← of_opt (zupd s.(pagerefs_inuse) i w);
  modify (set_inuse l).

Definition allocpageref : M (kheap P) (option Z) :=
  for_find (Z.to_nat INUSE_WORDS) 0 (λ i,
    s ← get;
    w ← of_opt (zlookup s.(pagerefs_inuse) i);
    if w =? 0xffffffff then mret None
    else
      r ← for_find 32 0 (λ j,
        let k := Z.shiftl 1 j in
        if Z.land w k =? 0 then inuse_put i (Z.lor w k);; mret (Some (i * 32 + j))
        else mret None);
      match r with Some x => mret (Some x) | None => panic end).

Definition freepageref (j : Z) : M (kheap P) unit :=
  kassert (j <? NPAGEREFS);;
  let i := j / 32 in
  let k := Z.shiftl 1 (j mod 32) in
  s ← get;
  w ← of_opt (zlookup s.(pagerefs_inuse) i);
  kassert (negb (Z.land w k =? 0));;
  inuse_put i (Z.land w (Z.lnot k)).

(** ** The lists of pages *)

Definition sizebase_put (blktype : Z) (o : option Z) : M (kheap P) unit :=
  s ← get;
  l ← of_opt (zupd s.(sizebases) blktype o);
  modify (set_sizebases l).

(** Every list is shorter than the table. *)
Definition list_fuel : nat := Z.to_nat NPAGEREFS + 1.

(** [for (guy = ...; *guy; guy = &( *guy)->next)]: [guy] is what writing through
    the pointer does, [cur] the value it points to. *)
Fixpoint unlink (fuel : nat) (next : pageref → option Z) (set_next : option Z → pageref → pageref)
    (pr : Z) (guy : option Z → M (kheap P) unit) (cur : option Z) : M (kheap P) unit :=
  match fuel with
  | O => diverge
  | S fuel =>
      match cur with
      | None => mret tt
      | Some g =>
          p ← pr_at g;
          if g =? pr then guy (next p)
          else unlink fuel next set_next pr (λ o, pr_put g (set_next o)) (next p)
      end
  end.

Definition remove_lists (pr blktype : Z) : M (kheap P) unit :=
  kassert ((blktype >=? 0) && (blktype <? NSIZES));;
  s ← get;
  b ← of_opt (zlookup s.(sizebases) blktype);
  unlink list_fuel next_samesize set_next_samesize pr (sizebase_put blktype) b;;
  s ← get;
  unlink list_fuel next_all set_next_all pr (λ o, modify (set_allbase o)) s.(allbase).

Definition blocktype (sz : Z) : M (kheap P) Z :=
  r ← for_find (Z.to_nat NSIZES) 0 (λ i,
    n ← of_opt (zlookup sizes i);
    mret (if sz <=? n then Some i else None));
  match r with Some i => mret i | None => panic end.

(** ** Allocation *)

(** The label [doalloc]: take the first free block of page [pr]. *)
Definition doalloc (pr : Z) : M (kheap P) Z :=
  p ← pr_at pr;
  kassert (p.(freelist_offset) <? PAGE_SIZE);;
  let prpage := PR_PAGEADDR p in
  let retptr := u32 (prpage + p.(freelist_offset)) in
  fl ← rd retptr;
  let n := u16 (p.(nfree) - 1) in
  (if negb (fl =? 0) then
     kassert (n >? 0);;
     kassert (u32 (fl - prpage) <? PAGE_SIZE);;
     pr_put pr (set_free (u16 (fl - prpage)) n)
   else
     kassert (n =? 0);;
     pr_put pr (set_free INVALID_OFFSET n));;
  km_unlock;;
  mret retptr.

(** The loop over the pages of one size. *)
Fixpoint find_page (fuel : nat) (blktype : Z) (cur : option Z) : M (kheap P) (option Z) :=
  match fuel with
  | O => diverge
  | S fuel =>
      match cur with
      | None => mret None
      | Some pr =>
          p ← pr_at pr;
          kassert (PR_BLOCKTYPE p =? blktype);;
          if p.(nfree) >? 0 then mret (Some pr) else find_page fuel blktype p.(next_samesize)
      end
  end.

(** Every block of the page linked to the one below it; the result is the last. *)
Definition init_freelist (prpage n size : Z) : M (kheap P) Z :=
  wr prpage 0;;
  for_up (Z.to_nat (n - 1)) 1 (λ i,
    let fl := u32 (prpage + i * size) in
    wr fl (u32 (prpage + (i - 1) * size));;
    next ← rd fl;
    kassert (negb (fl =? next)));;
  mret (u32 (prpage + (n - 1) * size)).

(** A fresh page: its pageref filled in, its blocks on the free list, and the
    pageref on both lists. *)
Definition new_page (pr prpage blktype size : Z) : M (kheap P) unit :=
  let n := u16 (PAGE_SIZE / size) in
  pr_put pr (λ p, Pageref p.(next_samesize) p.(next_all) (MKPAB prpage blktype) p.(freelist_offset) n);;
  fla ← init_freelist prpage n size;
  let off := u16 (fla - prpage) in
  pr_put pr (set_free off n);;
  kassert (off =? (n - 1) * size);;
  s ← get;
  b ← of_opt (zlookup s.(sizebases) blktype);
  pr_put pr (set_next_samesize b);;
  sizebase_put blktype (Some pr);;
  s ← get;
  pr_put pr (set_next_all s.(allbase));;
  modify (set_allbase (Some pr)).

Definition kp_call {A} (m : M P A) : M (kheap P) A := zoom pages set_pages m.

Definition subpage_kmalloc (sz : Z) : M (kheap P) Z :=
  blktype ← blocktype sz;
  size ← of_opt (zlookup sizes blktype);
  km_lock;;
  s ← get;
  b ← of_opt (zlookup s.(sizebases) blktype);
  found ← find_page list_fuel blktype b;
  match found with
  | Some pr => doalloc pr
  | None =>
      km_unlock;;
      prpage ← kp_call (kp_alloc 1);
      if prpage =? 0 then mret 0
      else
        km_lock;;
        r ← allocpageref;
        match r with
        | None => km_unlock;; kp_call (kp_free prpage);; mret 0
        | Some pr =>
            new_page pr prpage blktype size;;
            doalloc pr
        end
  end.

(** ** Freeing *)

(** The page that holds [ptraddr]. *)
Fixpoint find_owner (fuel : nat) (ptraddr : Z) (cur : option Z) : M (kheap P) (option Z) :=
  match fuel with
  | O => diverge
  | S fuel =>
      match cur with
      | None => mret None
      | Some pr =>
          p ← pr_at pr;
          kassert ((PR_BLOCKTYPE p >=? 0) && (PR_BLOCKTYPE p <? NSIZES));;
          if (ptraddr >=? PR_PAGEADDR p) && (ptraddr <? u32 (PR_PAGEADDR p + PAGE_SIZE)) then mret (Some pr)
          else find_owner fuel ptraddr p.(next_all)
      end
  end.

(** -1 if the address is on none of the heap's pages. *)
Definition subpage_kfree (ptr : Z) : M (kheap P) Z :=
  km_lock;;
  s ← get;
  owner ← find_owner list_fuel ptr s.(allbase);
  match owner with
  | None => km_unlock;; mret (-1)
  | Some pr =>
      p ← pr_at pr;
      let prpage := PR_PAGEADDR p in
      let blktype := PR_BLOCKTYPE p in
      size ← of_opt (zlookup sizes blktype);
      let offset := u32 (ptr - prpage) in
      (if (offset >=? PAGE_SIZE) || negb (offset mod size =? 0) then panic else mret tt);;
      fill_deadbeef ptr size;;
      let fla := u32 (prpage + offset) in
      wr fla (if p.(freelist_offset) =? INVALID_OFFSET then 0 else u32 (prpage + p.(freelist_offset)));;
      let n := u16 (p.(nfree) + 1) in
      pr_put pr (set_free (u16 offset) n);;
      kassert (n <=? PAGE_SIZE / size);;
      (if n =? PAGE_SIZE / size then
         remove_lists pr blktype;;
         freepageref pr;;
         km_unlock;;
         kp_call (kp_free prpage)
       else km_unlock);;
      mret 0
  end.

Definition kmalloc (sz : Z) : M (kheap P) Z :=
  if sz >=? LARGEST_SUBPAGE_SIZE then
    let npages := u32 (sz + PAGE_SIZE - 1) / PAGE_SIZE in
    kp_call (kp_alloc npages)
  else subpage_kmalloc sz.

Definition kfree (ptr : Z) : M (kheap P) unit :=
  if ptr =? 0 then mret tt
  else
    r ← subpage_kfree ptr;
    if negb (r =? 0) then kassert (ptr mod PAGE_SIZE =? 0);; kp_call (kp_free ptr) else mret tt.
End kmalloc.

(** ** Abstraction

    The heap as a list of pages, in the order of [allbase]: the pageref, the
    address, the block type and the offsets on the free list, first to last. *)

Record apage := APage { ap_ref : Z; ap_addr : Z; ap_type : Z; ap_free : list Z }.
#[export] Instance apage_eq_dec : EqDecision apage.
Proof. solve_decision. Defined.

Definition bsize (k : Z) : Z := default 0 (zlookup sizes k).

(** The address a free list starts at, and the list threaded through memory. *)
Definition fl_head (page : Z) (l : list Z) : Z := match l with [] => 0 | o :: _ => page + o end.
Fixpoint fl_chain (pk : Z → Z) (page : Z) (l : list Z) : Prop :=
  match l with
  | [] => True
  | o :: l => pk (page + o) = fl_head page l ∧ fl_chain pk page l
  end.

(** The pagerefs [l] are linked through [next], from [start] to NULL. *)
Fixpoint pchain (next : pageref → option Z) (prs : list pageref) (start : option Z) (l : list Z) : Prop :=
  match l with
  | [] => start = None
  | r :: l => start = Some r ∧ ∃ p, zlookup prs r = Some p ∧ pchain next prs (next p) l
  end.

Definition block_at (k o : Z) : Prop := 0 ≤ o < PAGE_SIZE ∧ o mod bsize k = 0.

Record apage_ok (prs : list pageref) (pk : Z → Z) (a : apage) : Prop := ApageOk {
  ok_ref : ∃ p, zlookup prs a.(ap_ref) = Some p ∧ PR_PAGEADDR p = a.(ap_addr) ∧
    PR_BLOCKTYPE p = a.(ap_type) ∧ p.(nfree) = Z.of_nat (length a.(ap_free)) ∧
    p.(freelist_offset) = match a.(ap_free) with [] => INVALID_OFFSET | o :: _ => o end;
  ok_type : 0 ≤ a.(ap_type) < NSIZES;
  ok_nodup : NoDup a.(ap_free);
  ok_free : Forall (block_at a.(ap_type)) a.(ap_free);
  ok_chain : fl_chain pk a.(ap_addr) a.(ap_free);
}.

Definition inuse_bit (l : list Z) (r : Z) : bool :=
  Z.testbit (default 0 (zlookup l (r / 32))) (r mod 32).

(** A live block: its address and its size. *)
Definition live (H : list apage) (b n : Z) : Prop :=
  ∃ a o, a ∈ H ∧ n = bsize a.(ap_type) ∧ b = a.(ap_addr) + o ∧ block_at a.(ap_type) o ∧ o ∉ a.(ap_free).

Section rep.
Context {P : Type} `{!KPages P} `{!KPagesLaws P}.
Implicit Types (s : kheap P) (H : list apage).

(** [s] holds the pages [H]; the lock is not part of it. *)
Record heap_rep s H : Prop := HeapRep {
  hr_len : length s.(pagerefs) = 256%nat ∧ length s.(pagerefs_inuse) = 8%nat ∧ length s.(sizebases) = 8%nat;
  hr_words : ∀ i w, zlookup s.(pagerefs_inuse) i = Some w → 0 ≤ w < W32;
  hr_inuse : ∀ r, 0 ≤ r < NPAGEREFS → inuse_bit s.(pagerefs_inuse) r = true ↔ r ∈ ap_ref <$> H;
  hr_range : ∀ r, r ∈ ap_ref <$> H → 0 ≤ r < NPAGEREFS;
  hr_refs : NoDup (ap_ref <$> H);
  hr_addrs : NoDup (ap_addr <$> H);
  hr_all : pchain next_all s.(pagerefs) s.(allbase) (ap_ref <$> H);
  hr_size : ∀ k b, zlookup s.(sizebases) k = Some b →
    pchain next_samesize s.(pagerefs) b (ap_ref <$> filter (λ a, ap_type a = k) H);
  hr_pages : Forall (apage_ok s.(pagerefs) (kp_peek s.(pages))) H;
  hr_owned : ∀ a, a ∈ H → kp_owned s.(pages) a.(ap_addr);
  hr_inv : kp_inv s.(pages);
}.

Definition unlocked s : Prop := s.(kmalloc_spinlock) = SPINLOCK_INITIALIZER.

(** *** Sizes and addresses *)

Lemma bsize_cases k : 0 ≤ k < NSIZES →
  zlookup sizes k = Some (bsize k) ∧
  (bsize k = 16 ∨ bsize k = 32 ∨ bsize k = 64 ∨ bsize k = 128 ∨ bsize k = 256 ∨ bsize k = 512 ∨
   bsize k = 1024 ∨ bsize k = 2048).
Proof.
  unfold NSIZES. intros. assert (k = 0 ∨ k = 1 ∨ k = 2 ∨ k = 3 ∨ k = 4 ∨ k = 5 ∨ k = 6 ∨ k = 7) as Hk by lia.
  repeat destruct Hk as [->|Hk]; try subst k; vm_compute; naive_solver.
Qed.

Lemma bsize_div k : 0 ≤ k < NSIZES →
  16 ≤ bsize k ≤ 2048 ∧ bsize k mod 16 = 0 ∧ PAGE_SIZE mod bsize k = 0 ∧ PAGE_SIZE = bsize k * (PAGE_SIZE / bsize k).
Proof.
  intros Hk. destruct (bsize_cases k Hk) as [_ Hc]. unfold PAGE_SIZE.
  repeat destruct Hc as [->|Hc]; try rewrite Hc; vm_compute; intuition discriminate.
Qed.

(** The block at [o] ends where the next begins, or with the page. *)
Lemma block_end k o : 0 ≤ k < NSIZES → block_at k o → o + bsize k ≤ PAGE_SIZE ∧ o mod 16 = 0.
Proof.
  intros Hk [Ho Hm]. destruct (bsize_div k Hk) as (Hs & H16 & _ & Hp).
  set (n := PAGE_SIZE / bsize k) in *. set (z := bsize k) in *.
  assert (o = z * (o / z)) as E by (rewrite (Z.div_mod o z) at 1 by lia; lia).
  split; [|rewrite E; assert (z = 16 * (z / 16)) as -> by lia; rewrite <- Z.mul_assoc, Z.mul_comm; by rewrite Z.mod_mul].
  rewrite E, Hp. assert (o / z < n) by nia. nia.
Qed.

Lemma blocks_disjoint k o o' : 0 ≤ k < NSIZES → block_at k o → block_at k o' → o ≠ o' →
  o + bsize k ≤ o' ∨ o' + bsize k ≤ o.
Proof.
  intros Hk [Ho Hm] [Ho' Hm'] Hne. destruct (bsize_div k Hk) as (Hs & _). set (z := bsize k) in *.
  assert (o = z * (o / z)) as E by (rewrite (Z.div_mod o z) at 1 by lia; lia).
  assert (o' = z * (o' / z)) as E' by (rewrite (Z.div_mod o' z) at 1 by lia; lia).
  clear Ho Hm Ho' Hm'. revert E E'. generalize (o / z) (o' / z). intros q q' -> ->.
  assert (q ≠ q') by congruence. destruct (Z.lt_trichotomy q q') as [|[|]]; [left; nia|done|right; nia].
Qed.

Lemma owned_bounds p a : kp_inv p → kp_owned p a →
  a mod 4096 = 0 ∧ 0x80000000 ≤ a ∧ a + 4096 ≤ 0xa0000000.
Proof. apply kp_aligned. Qed.

Lemma land_0xfff x : Z.land x (u32 (Z.lnot PAGE_FRAME)) = x mod 4096.
Proof. change (u32 (Z.lnot PAGE_FRAME)) with (Z.ones 12). by rewrite Z.land_ones. Qed.

Lemma mkpab_spec pa k : pa mod 4096 = 0 → 0 ≤ pa < W32 → 0 ≤ k < NSIZES →
  MKPAB pa k = pa + k ∧ Z.land (pa + k) PAGE_FRAME = pa ∧
  Z.land (pa + k) (u32 (Z.lnot PAGE_FRAME)) = k.
Proof.
  intros Hm Hpa Hk. unfold NSIZES, W32 in *. unfold MKPAB.
  rewrite land_page_frame, !land_0xfff, land_page_frame by (unfold W32; lia).
  rewrite (Z.mod_small k) by lia. replace (pa / 4096 * 4096) with pa by lia.
  split; [|split; lia]. pose proof (land_aligned_low pa k Hm ltac:(lia)) as Hz.
  rewrite <- Z.lxor_lor by done. symmetry. by apply Z.add_nocarry_lxor.
Qed.

(** *** Chains *)

Lemma pchain_ext next prs prs' start l :
  (∀ r, r ∈ l → next <$> zlookup prs' r = next <$> zlookup prs r) →
  pchain next prs start l → pchain next prs' start l.
Proof.
  revert start. induction l as [|r l IH]; intros start Hx; [done|]. intros (-> & p & Hp & Hc). split; [done|].
  specialize (Hx r ltac:(left)) as Hr. rewrite Hp in Hr. destruct (zlookup prs' r) as [p'|] eqn:Hp'; [|done].
  injection Hr as Hr. exists p'. split; [done|]. rewrite Hr. apply IH; [|done]. intros. apply Hx. by right.
Qed.

Lemma fl_chain_ext pk pk' page l :
  (∀ o, o ∈ l → pk' (page + o) = pk (page + o)) → fl_chain pk page l → fl_chain pk' page l.
Proof.
  induction l as [|o l IH]; [done|]. intros Hx [H1 H2]. split; [by rewrite Hx by left|].
  apply IH; [|done]. intros. apply Hx. by right.
Qed.

Lemma fl_chain_same pk pk' page k l :
  0 ≤ k < NSIZES → page mod 4096 = 0 → Forall (block_at k) l →
  (∀ x, x mod 4 = 0 → page ≤ x < page + PAGE_SIZE → pk' x = pk x) →
  fl_chain pk page l → fl_chain pk' page l.
Proof.
  intros Hk Hp Hl Hx. induction Hl as [|o l Ho Hl IH]; [done|]. intros [H1 H2]. split; [|by apply IH].
  destruct (block_end k o Hk Ho) as [_ Hm]. destruct Ho as [Ho _]. rewrite Hx by (unfold PAGE_SIZE in *; lia). done.
Qed.

Lemma apage_ok_ext prs prs' pk pk' a :
  a.(ap_addr) mod 4096 = 0 → zlookup prs' a.(ap_ref) = zlookup prs a.(ap_ref) ∨
    (∃ p p', zlookup prs a.(ap_ref) = Some p ∧ zlookup prs' a.(ap_ref) = Some p' ∧
       p'.(pageaddr_and_blocktype) = p.(pageaddr_and_blocktype) ∧
       p'.(nfree) = p.(nfree) ∧ p'.(freelist_offset) = p.(freelist_offset)) →
  (∀ x, x mod 4 = 0 → a.(ap_addr) ≤ x < a.(ap_addr) + PAGE_SIZE → pk' x = pk x) →
  apage_ok prs pk a → apage_ok prs' pk' a.
Proof.
  intros Hm Hp Hx [(p & H1 & H2 & H3 & H4 & H5) Ht Hn Hf Hc]. split; try done; [|by eapply fl_chain_same].
  destruct Hp as [Hp|(q & p' & Hq & Hp' & E1 & E2 & E3)]; [rewrite Hp; eauto 10|].
  rewrite H1 in Hq. injection Hq as <-. exists p'. unfold PR_PAGEADDR, PR_BLOCKTYPE in *. rewrite E1, E2, E3. eauto 10.
Qed.

Lemma rep_aligned s H a : heap_rep s H → a ∈ H →
  a.(ap_addr) mod 4096 = 0 ∧ 0x80000000 ≤ a.(ap_addr) ∧ a.(ap_addr) + 4096 ≤ 0xa0000000.
Proof. intros Hr Ha. apply (owned_bounds s.(pages)); [apply Hr|by apply Hr]. Qed.

Lemma rep_page s H a : heap_rep s H → a ∈ H → apage_ok s.(pagerefs) (kp_peek s.(pages)) a.
Proof. intros Hr Ha. eapply Forall_forall in Ha; [exact Ha|apply Hr]. Qed.

(** There are at most as many pages as pagerefs. *)
Lemma rep_length s H : heap_rep s H → (length H ≤ 256)%nat.
Proof.
  intros Hr. rewrite <- (length_fmap ap_ref). change 256%nat with (length (seqZ 0 256)).
  apply submseteq_length, NoDup_submseteq; [apply Hr|]. intros r Hin. apply elem_of_seqZ.
  apply (hr_range _ _ Hr) in Hin. exact Hin.
Qed.

(** All pagerefs are in use exactly when there are 256 pages. *)
Lemma rep_full s H :
  heap_rep s H → length H = 256%nat ↔ ∀ r, 0 ≤ r < NPAGEREFS → inuse_bit s.(pagerefs_inuse) r = true.
Proof.
  intros Hr. split.
  - intros Hl r Hrr. apply (hr_inuse _ _ Hr); [done|]. destruct (decide (r ∈ ap_ref <$> H)) as [|Hn]; [done|]. exfalso.
    assert (length (r :: (ap_ref <$> H)) ≤ length (seqZ 0 256))%nat as Hle; [|simpl in Hle; rewrite length_fmap, Hl in Hle; lia].
    apply submseteq_length, NoDup_submseteq; [apply NoDup_cons; split; [done|apply Hr]|].
    intros x [->|Hx]%elem_of_cons; apply elem_of_seqZ; [exact Hrr|exact (hr_range _ _ Hr _ Hx)].
  - intros Ha. pose proof (rep_length _ _ Hr). apply Nat.le_antisymm; [done|].
    rewrite <- (length_fmap ap_ref). change 256%nat with (length (seqZ 0 256)).
    apply submseteq_length, NoDup_submseteq; [apply NoDup_seqZ|]. intros x Hx%elem_of_seqZ.
    apply (hr_inuse _ _ Hr); [exact Hx|]. by apply Ha.
Qed.

Lemma filter_replace (a a' : apage) H1 H2 k :
  a'.(ap_ref) = a.(ap_ref) → a'.(ap_type) = a.(ap_type) →
  ap_ref <$> filter (λ a, ap_type a = k) (H1 ++ a' :: H2) =
  ap_ref <$> filter (λ a, ap_type a = k) (H1 ++ a :: H2).
Proof.
  intros Hr Ht. rewrite !filter_app, !fmap_app, !filter_cons, Ht. f_equal. case_decide; [|done].
  simpl. by rewrite Hr.
Qed.

(** Two pages of the heap do not overlap. *)
Lemma rep_apart s H1 a H2 b : heap_rep s (H1 ++ a :: H2) → b ∈ H1 ++ H2 →
  b.(ap_ref) ≠ a.(ap_ref) ∧
  (b.(ap_addr) + PAGE_SIZE ≤ a.(ap_addr) ∨ a.(ap_addr) + PAGE_SIZE ≤ b.(ap_addr)).
Proof.
  intros Hr Hb. pose proof (hr_refs _ _ Hr) as Hnr. pose proof (hr_addrs _ _ Hr) as Hna.
  rewrite <- Permutation_middle, fmap_cons in Hnr, Hna. apply NoDup_cons in Hnr as [Hnr _], Hna as [Hna _].
  split; [intros E; apply Hnr; rewrite <- E; by apply list_elem_of_fmap_2|].
  assert (b.(ap_addr) ≠ a.(ap_addr)) by (intros E; apply Hna; rewrite <- E; by apply list_elem_of_fmap_2).
  destruct (rep_aligned _ _ a Hr) as (Ha & _); [apply elem_of_app; right; left|].
  destruct (rep_aligned _ _ b Hr) as (Hb' & _); [rewrite <- Permutation_middle; by right|].
  unfold PAGE_SIZE. lia.
Qed.

(** The free list of one page changes, and with it words of that page. *)
Lemma rep_update s s' H1 a H2 p off l :
  heap_rep s (H1 ++ a :: H2) → zlookup s.(pagerefs) a.(ap_ref) = Some p →
  s' = set_pagerefs (<[Z.to_nat a.(ap_ref) := set_free off (Z.of_nat (length l)) p]> s.(pagerefs))
         (set_pages s'.(pages) (set_kmlock s'.(kmalloc_spinlock) s)) →
  off = match l with [] => INVALID_OFFSET | o :: _ => o end →
  NoDup l → Forall (block_at a.(ap_type)) l → fl_chain (kp_peek s'.(pages)) a.(ap_addr) l →
  kp_inv s'.(pages) → (∀ b, kp_owned s.(pages) b → kp_owned s'.(pages) b) →
  (∀ b, b ∈ H1 ++ H2 → same_page s.(pages) s'.(pages) b.(ap_addr)) →
  heap_rep s' (H1 ++ APage a.(ap_ref) a.(ap_addr) a.(ap_type) l :: H2).
Proof.
  intros Hr Hp Es Eo Hnd Hbl Hch Hinv Hown Hsame. set (a' := APage _ _ _ _).
  assert (a ∈ H1 ++ a :: H2) as Ha by (apply elem_of_app; right; left).
  pose proof (rep_page _ _ _ Hr Ha) as Hok. pose proof (zlookup_Some_lt _ _ _ Hp) as Hlt.
  assert (s'.(pagerefs) = <[Z.to_nat a.(ap_ref) := set_free off (Z.of_nat (length l)) p]> s.(pagerefs)) as E1 by (by rewrite Es).
  assert (s'.(pagerefs_inuse) = s.(pagerefs_inuse)) as E2 by (by rewrite Es).
  assert (s'.(sizebases) = s.(sizebases)) as E3 by (by rewrite Es).
  assert (s'.(allbase) = s.(allbase)) as E4 by (by rewrite Es).
  assert (∀ next : pageref → option Z, (∀ q o n, next (set_free o n q) = next q) → ∀ r,
    next <$> zlookup s'.(pagerefs) r = next <$> zlookup s.(pagerefs) r) as Hnext.
  { intros next Hn r. rewrite E1, zlookup_insert by done.
    destruct (Z.eqb_spec a.(ap_ref) r) as [<- |]; [|done]. rewrite Hp. simpl. by rewrite Hn. }
  pose proof Hr as [[L1 [L2 L3]] Hw Hi Hrg Hre Had Hall Hsz Hpg How _].
  assert (ap_ref <$> H1 ++ a' :: H2 = ap_ref <$> H1 ++ a :: H2) as Er by (by rewrite !fmap_app).
  assert (ap_addr <$> H1 ++ a' :: H2 = ap_addr <$> H1 ++ a :: H2) as Ea by (by rewrite !fmap_app).
  split; rewrite ?Er, ?Ea, ?E2, ?E3, ?E4; try done.
  - by rewrite E1, length_insert.
  - eapply pchain_ext; [|exact Hall]. intros r _. by apply Hnext.
  - intros k b Hb. rewrite (filter_replace a) by done. eapply pchain_ext; [|by apply Hsz].
    intros r _. by apply Hnext.
  - apply Forall_forall. intros b Hb. rewrite E1. rewrite <- Permutation_middle in Hb. apply elem_of_cons in Hb as [->|Hb].
    + destruct Hok as [(q & Q1 & Q2 & Q3 & Q4 & Q5) Ht _ _ _]. rewrite Hp in Q1. injection Q1 as <-.
      split; try done. simpl. exists (set_free off (Z.of_nat (length l)) p).
      rewrite zlookup_insert, Z.eqb_refl by done. by subst off.
    + destruct (rep_apart s H1 a H2 b Hr Hb) as [Hne _].
      assert (b ∈ H1 ++ a :: H2) as Hb' by (rewrite <- Permutation_middle; by right).
      eapply apage_ok_ext; [by eapply rep_aligned| |by apply Hsame|by eapply Forall_forall in Hb'; [exact Hb'|]].
      left. rewrite zlookup_insert by done. by rewrite (proj2 (Z.eqb_neq _ _)).
  - intros b Hb. apply Hown. rewrite <- Permutation_middle in Hb. apply elem_of_cons in Hb as [->|Hb].
    + by apply (How a).
    + apply How. rewrite <- Permutation_middle. by right.
Qed.
End rep.

Section alloc.
Context {P : Type} `{!KPages P} `{!KPagesLaws P} (mycpu : option nat).
Implicit Types (s : kheap P) (H : list apage).

Lemma km_lock_ret s : unlocked s → km_lock mycpu s = Ret tt (set_kmlock (Spinlock 1 mycpu) s).
Proof. unfold unlocked, km_lock, zoom. intros ->. by destruct mycpu. Qed.

Lemma km_unlock_ret s :
  s.(kmalloc_spinlock) = Spinlock 1 mycpu → km_unlock mycpu s = Ret tt (set_kmlock SPINLOCK_INITIALIZER s).
Proof.
  unfold km_unlock, zoom. intros ->. destruct mycpu as [c|]; [|done].
  unfold spinlock_release, get, mbind, M_bind, kassert; simpl. by rewrite bool_decide_true.
Qed.

Lemma pr_at_ret s i p : zlookup s.(pagerefs) i = Some p → pr_at i s = Ret p s.
Proof. intros Hp. unfold pr_at, get, mbind, M_bind. by rewrite Hp. Qed.

Lemma pr_put_ret s i p f : zlookup s.(pagerefs) i = Some p →
  pr_put i f s = Ret tt (set_pagerefs (<[Z.to_nat i := f p]> s.(pagerefs)) s).
Proof.
  intros Hp. pose proof (zlookup_Some_lt _ _ _ Hp). unfold pr_put, get, mbind, M_bind. rewrite Hp. simpl.
  by rewrite zupd_Some.
Qed.

(** The lock does not matter to the representation. *)
Lemma rep_lock s H l : heap_rep s H → heap_rep (set_kmlock l s) H.
Proof. by intros []. Qed.

Lemma find_page_ret s k L cur fuel :
  pchain next_samesize s.(pagerefs) cur (ap_ref <$> L) →
  Forall (apage_ok s.(pagerefs) (kp_peek s.(pages))) L → Forall (λ a, ap_type a = k) L → (length L < fuel)%nat →
  (∃ L1 a L2, L = L1 ++ a :: L2 ∧ a.(ap_free) ≠ [] ∧ find_page fuel k cur s = Ret (Some a.(ap_ref)) s) ∨
  Forall (λ a, ap_free a = []) L ∧ find_page fuel k cur s = Ret None s.
Proof.
  revert cur fuel. induction L as [|a L IH]; intros cur fuel Hc Hok Ht Hf; (destruct fuel as [|fuel]; [simpl in Hf; lia|]).
  - right. simpl in Hc. by subst cur.
  - destruct Hc as (-> & p & Hp & Hc). apply Forall_cons in Hok as [Ha Hok], Ht as [Hta Ht].
    destruct Ha as [(q & Hq & _ & Hbt & Hn & _) _ _ _ _]. rewrite Hp in Hq. injection Hq as <-.
    cbn [find_page]. rewrite (bind_Ret _ _ _ _ _ (pr_at_ret _ _ _ Hp)), Hbt, Hta, Z.eqb_refl. mrun.
    destruct (ap_free a) as [|o l] eqn:Ef.
    + rewrite Hn. simpl. destruct (IH _ fuel Hc Hok Ht) as [(L1 & a' & L2 & -> & Hne & E)|[Hall E]];
        [simpl in Hf; lia| |right; split; [by constructor|done]].
      left. exists (a :: L1), a', L2. by split_and!.
    + left. exists [], a, L. rewrite Hn. split_and!; [done|by rewrite Ef|]. simpl. by destruct (Z.gtb_spec (Z.pos (Pos.of_succ_nat (length l))) 0).
Qed.

(** What taking the first free block of a page does. *)
Lemma doalloc_ret s H1 a H2 o l :
  heap_rep s (H1 ++ a :: H2) → a.(ap_free) = o :: l → s.(kmalloc_spinlock) = Spinlock 1 mycpu →
  ∃ s', doalloc mycpu a.(ap_ref) s = Ret (a.(ap_addr) + o) s' ∧ unlocked s' ∧ s'.(pages) = s.(pages) ∧
    heap_rep s' (H1 ++ APage a.(ap_ref) a.(ap_addr) a.(ap_type) l :: H2).
Proof.
  intros Hr Ef Hl. assert (a ∈ H1 ++ a :: H2) as Ha by (apply elem_of_app; right; left).
  destruct (rep_aligned _ _ _ Hr Ha) as (Hm & Hlo & Hhi). pose proof (rep_length _ _ Hr) as Hlen.
  pose proof (rep_page _ _ _ Hr Ha) as [(p & Hp & Hpa & Hbt & Hn & Ho) Ht Hnd Hbl Hch]. rewrite Ef in *.
  apply Forall_cons in Hbl as [Hbo Hbl]. destruct Hch as [Hpk Hch]. pose proof (proj1 Hbo) as Hor.
  apply NoDup_cons in Hnd as [Hno Hnd].
  assert (length l ≤ 4096)%nat as Hll.
  { change 4096%nat with (length (seqZ 0 4096)). apply submseteq_length, NoDup_submseteq; [done|].
    intros x Hx. eapply Forall_forall in Hx; [|exact Hbl]. destruct Hx as [Hx _]. apply elem_of_seqZ. unfold PAGE_SIZE in Hx. lia. }
  set (s' := set_kmlock SPINLOCK_INITIALIZER (set_pagerefs (<[Z.to_nat a.(ap_ref) :=
    set_free (match l with [] => INVALID_OFFSET | o :: _ => o end) (Z.of_nat (length l)) p]> s.(pagerefs)) s)).
  exists s'. split_and!; [|done|done|].
  2:{ eapply (rep_update s s' H1 a H2 p); [exact Hr|exact Hp|by destruct s|done..|by apply Hr|done|by intros ??]. }
  unfold doalloc. rewrite (bind_Ret _ _ _ _ _ (pr_at_ret _ _ _ Hp)), Hpa, Ho, (proj2 (Z.ltb_lt _ _)) by lia. mrun.
  rewrite (u32_small (a.(ap_addr) + o)) by (unfold PAGE_SIZE, W32 in *; lia). mrun. rewrite Hpk.
  replace (u16 (nfree p - 1)) with (Z.of_nat (length l)) by (rewrite Hn; unfold u16; simpl length; lia).
  destruct l as [|o' l]; simpl fl_head.
  - cbn [Z.eqb negb]. erewrite bind_Ret by (mrun; by apply pr_put_ret). by erewrite (bind_Ret (km_unlock mycpu)) by (by apply km_unlock_ret).
  - apply Forall_cons in Hbl as [[Hbo' _] _]. unfold PAGE_SIZE in *.
    rewrite (proj2 (Z.eqb_neq _ 0)) by lia. cbn [negb]. replace (a.(ap_addr) + o' - a.(ap_addr)) with o' by lia.
    rewrite (proj2 (Z.gtb_lt _ _)), u32_small, (proj2 (Z.ltb_lt _ _)) by (unfold W32; simpl length; lia).
    replace (u16 o') with o' by (unfold u16; lia).
    erewrite bind_Ret by (do 2 mrun; by apply pr_put_ret). by erewrite (bind_Ret (km_unlock mycpu)) by (by apply km_unlock_ret).
Qed.

(** *** Words of a page *)

(** From [s] to [s'] only words between [lo] and [hi] have changed. *)
Definition mem_step (lo hi : Z) s s' : Prop :=
  s' = set_pages s'.(pages) s ∧ kp_inv s'.(pages) ∧ (∀ c, kp_owned s.(pages) c ↔ kp_owned s'.(pages) c) ∧
  ∀ x, x mod 4 = 0 → ¬ lo ≤ x < hi → kp_peek s'.(pages) x = kp_peek s.(pages) x.

Lemma mem_step_refl lo hi s : kp_inv s.(pages) → mem_step lo hi s s.
Proof. intros Hi. split_and!; try done. by destruct s. Qed.

Lemma mem_step_trans lo hi s1 s2 s3 : mem_step lo hi s1 s2 → mem_step lo hi s2 s3 → mem_step lo hi s1 s3.
Proof.
  intros (E1 & _ & O1 & F1) (E2 & I2 & O2 & F2). split_and!; [rewrite E2; simpl; by rewrite E1|done| |].
  - intros c. by rewrite O1.
  - intros x Hx Hr. by rewrite F2, F1.
Qed.

Lemma wr_step s page lo hi a v :
  kp_inv s.(pages) → kp_owned s.(pages) page → page ≤ a < page + PAGE_SIZE → lo ≤ a < hi →
  a mod 4 = 0 → 0 ≤ v < W32 →
  ∃ s', wr a v s = Ret tt s' ∧ mem_step lo hi s s' ∧
    ∀ x, x mod 4 = 0 → kp_peek s'.(pages) x = if x =? a then v else kp_peek s.(pages) x.
Proof.
  intros Hi Ho Ha Hr Hm Hv. destruct (kp_poke_law s.(pages) a page v) as (I & O & X); try done.
  eexists. split; [reflexivity|]. split; [|done]. split_and!; try done. intros x Hx Hn. simpl. rewrite X by done.
  rewrite (proj2 (Z.eqb_neq x a)) by lia. done.
Qed.

(** The offsets [(m-1)*z, ..., z, 0]. *)
Fixpoint down (m : nat) (z : Z) : list Z :=
  match m with O => [] | S m => Z.of_nat m * z :: down m z end.

Lemma down_spec m z : 0 < z → ∀ o, o ∈ down m z → ∃ j, 0 ≤ j < Z.of_nat m ∧ o = j * z.
Proof.
  intros Hz. induction m as [|m IH]; intros o Ho; simpl in Ho; [by apply elem_of_nil in Ho|].
  apply elem_of_cons in Ho as [->|Ho]; [exists (Z.of_nat m); lia|]. destruct (IH o Ho) as (j & Hj & ->). exists j. lia.
Qed.

Lemma down_nodup m z : 0 < z → NoDup (down m z).
Proof.
  intros Hz. induction m as [|m IH]; simpl; constructor; [|done]. intros Ho.
  apply down_spec in Ho as (j & Hj & E); [nia|done].
Qed.

Lemma down_length m z : length (down m z) = m.
Proof. induction m; simpl; congruence. Qed.

Lemma down_chain pk page m z :
  (∀ j, 0 ≤ j < Z.of_nat m → pk (page + j * z) = if j =? 0 then 0 else page + (j - 1) * z) →
  fl_chain pk page (down m z).
Proof.
  induction m as [|m IH]; intros Hpk; simpl; [done|]. split; [|apply IH; intros; apply Hpk; lia].
  rewrite Hpk by lia. destruct m as [|m]; [done|]. rewrite (proj2 (Z.eqb_neq _ 0)) by lia. simpl. f_equal. f_equal. lia.
Qed.

(** The number of blocks on a page, and where they are. *)
Definition nblocks (k : Z) : Z := PAGE_SIZE / bsize k.

Lemma block_index k j : 0 ≤ k < NSIZES → 0 ≤ j < nblocks k → block_at k (j * bsize k).
Proof.
  intros Hk Hj. destruct (bsize_div k Hk) as (Hs & _ & _ & Hp). fold (nblocks k) in Hp.
  split; [nia|]. apply Z.mod_mul. lia.
Qed.

Lemma nblocks_bounds k : 0 ≤ k < NSIZES → 2 ≤ nblocks k ≤ 256 ∧ PAGE_SIZE = bsize k * nblocks k.
Proof.
  intros Hk. destruct (bsize_cases k Hk) as [_ Hc]. unfold nblocks, PAGE_SIZE.
  repeat destruct Hc as [->|Hc]; try rewrite Hc; vm_compute; intuition discriminate.
Qed.

Lemma init_freelist_ret s page k :
  kp_inv s.(pages) → kp_owned s.(pages) page → 0 ≤ k < NSIZES →
  wp (init_freelist page (nblocks k) (bsize k)) (λ fl s', fl = page + (nblocks k - 1) * bsize k ∧
    mem_step page (page + PAGE_SIZE) s s' ∧
    fl_chain (kp_peek s'.(pages)) page (down (Z.to_nat (nblocks k)) (bsize k))) s.
Proof.
  intros Hi Ho Hk. destruct (owned_bounds _ _ Hi Ho) as (Hm & Hlo & Hhi).
  destruct (nblocks_bounds k Hk) as [Hn Hp]. destruct (bsize_div k Hk) as (Hz & H16 & _).
  set (n := nblocks k) in *. set (z := bsize k) in *.
  assert (∀ j, 0 ≤ j < n → 0 ≤ j * z < 4096 ∧ (j * z) mod 4 = 0) as Hj.
  { intros j Hj. destruct (block_index k j Hk Hj) as [Hb1 Hb2]. split; [exact Hb1|].
    destruct (block_end k (j * z) Hk (block_index k j Hk Hj)). fold z in Hb1. lia. }
  destruct (wr_step s page page (page + PAGE_SIZE) page 0) as (s1 & E1 & M1 & X1); try done; try (unfold PAGE_SIZE, W32; lia).
  unfold init_freelist. eapply wp_run; [exact E1|].
  assert (wp (for_up (Z.to_nat (n - 1)) 1 (λ i, let fl := u32 (page + i * z) in
    wr fl (u32 (page + (i - 1) * z));; next ← rd fl; kassert (negb (fl =? next))))
    (λ _ s', mem_step page (page + PAGE_SIZE) s s' ∧ ∀ j, 0 ≤ j < n →
       kp_peek s'.(pages) (page + j * z) = if j =? 0 then 0 else page + (j - 1) * z) s1) as Hloop.
  { apply (wp_for_up (λ i s', mem_step page (page + PAGE_SIZE) s s' ∧ ∀ j, 0 ≤ j < i →
       kp_peek s'.(pages) (page + j * z) = if j =? 0 then 0 else page + (j - 1) * z)).
    - split; [done|]. intros j Hj'. assert (j = 0) as -> by lia. rewrite Z.mul_0_l, Z.add_0_r. rewrite X1 by lia. by rewrite Z.eqb_refl.
    - intros i s2 Hi2 (M2 & X2). pose proof M2 as (E2 & I2 & O2 & _).
      destruct (Hj i ltac:(lia)) as [Hi3 Hi4]. destruct (Hj (i - 1) ltac:(lia)) as [Hi5 Hi6].
      cbv zeta. rewrite !u32_small by (unfold W32; lia).
      destruct (wr_step s2 page page (page + PAGE_SIZE) (page + i * z) (page + (i - 1) * z)) as (s3 & E3 & M3 & X3);
        try done; try (unfold PAGE_SIZE, W32; lia); [by apply O2|].
      unfold wp. rewrite (bind_Ret _ _ _ _ _ E3). mrun. rewrite X3, Z.eqb_refl by lia.
      rewrite (proj2 (Z.eqb_neq _ _)) by nia. cbn [negb kassert mret M_ret]. split; [by eapply mem_step_trans|].
      intros j Hj'. destruct (Hj j ltac:(lia)) as [_ Hj4]. rewrite X3 by lia. destruct (decide (j = i)) as [-> |].
      + rewrite Z.eqb_refl. by rewrite (proj2 (Z.eqb_neq i 0)) by lia.
      + rewrite (proj2 (Z.eqb_neq (page + j * z) _)) by nia. apply X2. lia.
    - intros s2 (M2 & X2). split; [done|]. intros j Hj'. apply X2. lia. }
  apply wp_bind. eapply wp_mono; [|exact Hloop]. intros [] s2 (M2 & X2). apply wp_ret.
  destruct (Hj (n - 1) ltac:(lia)). split_and!; [rewrite u32_small by (unfold W32; lia); done|done|].
  apply down_chain. intros j Hj'. apply X2. lia.
Qed.

(** *** Pagerefs *)

Lemma all_bits w : 0 ≤ w < W32 → (∀ j, 0 ≤ j < 32 → Z.testbit w j = true) → w = 0xffffffff.
Proof.
  intros Hw Hb. apply Z.bits_inj'. intros n Hn. change 0xffffffff with (Z.ones 32).
  destruct (Z.lt_ge_cases n 32); [rewrite Hb, Z.ones_spec_low by lia; done|].
  rewrite Z.ones_spec_high by lia. rewrite <- (Z.mod_small w (2 ^ 32)) by (unfold W32 in Hw; lia).
  by apply Z.mod_pow2_bits_high.
Qed.

Lemma lor_bound w j : 0 ≤ w < W32 → 0 ≤ j < 32 → 0 ≤ Z.lor w (Z.shiftl 1 j) < W32.
Proof.
  intros Hw Hj. assert (0 ≤ Z.shiftl 1 j < 2 ^ 32) as Hs.
  { rewrite Z.shiftl_1_l. split; [apply Z.pow_nonneg; lia|apply Z.pow_lt_mono_r; lia]. }
  assert (Z.shiftr (Z.lor w (Z.shiftl 1 j)) 32 = 0) as E.
  { rewrite Z.shiftr_lor, !Z.shiftr_div_pow2 by lia. change (2 ^ 32) with 4294967296 in *. unfold W32 in Hw.
    by rewrite !Z.div_small. }
  rewrite Z.shiftr_div_pow2 in E by lia. change (2 ^ 32) with 4294967296 in E.
  assert (0 ≤ Z.lor w (Z.shiftl 1 j)) by (apply Z.lor_nonneg; lia). unfold W32. lia.
Qed.

Lemma land_bound w m : 0 ≤ w < W32 → 0 ≤ Z.land w m < W32.
Proof.
  intros Hw. assert (0 ≤ Z.land w m) by (apply Z.land_nonneg; lia).
  assert (Z.shiftr (Z.land w m) 32 = 0) as E.
  { rewrite Z.shiftr_land, Z.shiftr_div_pow2 by lia. change (2 ^ 32) with 4294967296. unfold W32 in Hw.
    by rewrite Z.div_small, Z.land_0_l. }
  rewrite Z.shiftr_div_pow2 in E by lia. change (2 ^ 32) with 4294967296 in E. unfold W32. lia.
Qed.

(** Marking pageref [x]. *)
Lemma inuse_bit_mark l i j w y :
  zlookup l i = Some w → 0 ≤ j < 32 → 0 ≤ y →
  inuse_bit (<[Z.to_nat i := Z.lor w (Z.shiftl 1 j)]> l) y = inuse_bit l y || (y =? i * 32 + j).
Proof.
  intros Hw Hj Hy. pose proof (zlookup_Some_lt _ _ _ Hw). unfold inuse_bit. rewrite zlookup_insert by done.
  destruct (Z.eqb_spec i (y / 32)) as [E|E].
  - rewrite <- E, Hw. simpl. rewrite testbit_lor_mask by lia. f_equal.
    destruct (Z.eqb_spec (y mod 32) j), (Z.eqb_spec y (i * 32 + j)); lia.
  - destruct (Z.eqb_spec y (i * 32 + j)); [exfalso; lia|]. by rewrite orb_false_r.
Qed.

Lemma inuse_bit_clear l i j w y :
  zlookup l i = Some w → 0 ≤ j < 32 → 0 ≤ y →
  inuse_bit (<[Z.to_nat i := Z.land w (Z.lnot (Z.shiftl 1 j))]> l) y = inuse_bit l y && negb (y =? i * 32 + j).
Proof.
  intros Hw Hj Hy. pose proof (zlookup_Some_lt _ _ _ Hw). unfold inuse_bit. rewrite zlookup_insert by done.
  destruct (Z.eqb_spec i (y / 32)) as [E|E].
  - rewrite <- E, Hw. simpl. rewrite testbit_land_lnot by lia. f_equal. f_equal.
    destruct (Z.eqb_spec (y mod 32) j), (Z.eqb_spec y (i * 32 + j)); lia.
  - destruct (Z.eqb_spec y (i * 32 + j)); [exfalso; lia|]. by rewrite andb_true_r.
Qed.

Definition words_ok (l : list Z) : Prop := length l = 8%nat ∧ ∀ i w, zlookup l i = Some w → 0 ≤ w < W32.

Lemma words_ok_put l i w : words_ok l → 0 ≤ w < W32 → words_ok (<[Z.to_nat i := w]> l).
Proof.
  intros [Hl Hw] Hr. split; [by rewrite length_insert|]. intros i' w'. unfold zlookup. destruct (Z.leb_spec 0 i'); [|done].
  intros [[_ [<- _]]|[_ E]]%list_lookup_insert_Some; [done|]. apply (Hw i'). unfold zlookup.
  by rewrite (proj2 (Z.leb_le _ _)).
Qed.

Lemma allocpageref_wp s :
  words_ok s.(pagerefs_inuse) →
  wp allocpageref (λ r s', match r with
    | None => s' = s ∧ ∀ x, 0 ≤ x < NPAGEREFS → inuse_bit s.(pagerefs_inuse) x = true
    | Some x => 0 ≤ x < NPAGEREFS ∧ inuse_bit s.(pagerefs_inuse) x = false ∧
        ∃ l, s' = set_inuse l s ∧ words_ok l ∧
          ∀ y, 0 ≤ y → inuse_bit l y = inuse_bit s.(pagerefs_inuse) y || (y =? x)
    end) s.
Proof.
  intros [Hlen Hwd].
  apply (wp_for_find (λ i s', s' = s ∧ ∀ x, 0 ≤ x < 32 * i → inuse_bit s.(pagerefs_inuse) x = true)); [split; [done|lia]| |done].
  change (Z.of_nat (Z.to_nat INUSE_WORDS)) with 8. intros i ? Hi [-> Hall].
  destruct (zlookup_is_Some s.(pagerefs_inuse) i) as [w Hw]; [lia|]. pose proof (Hwd i w Hw) as Hwr.
  apply wp_get. eapply wp_of_opt; [exact Hw|]. destruct (Z.eqb_spec w 0xffffffff) as [->|Hne].
  { apply wp_ret. split; [done|]. intros x Hx. destruct (Z.lt_ge_cases x (32 * i)); [apply Hall; lia|].
    unfold inuse_bit. replace (x / 32) with i by lia. rewrite Hw. simpl. change 0xffffffff with (Z.ones 32).
    apply Z.ones_spec_low. lia. }
  apply wp_bind, (wp_for_find (λ j s', s' = s ∧ ∀ b, 0 ≤ b < j → Z.testbit w b = true)).
  - split; [done|lia].
  - intros j ? Hj [-> Hb]. cbv zeta beta. rewrite land_mask by lia. destruct (Z.testbit w j) eqn:Ej.
    + rewrite (proj2 (Z.eqb_neq _ 0)) by (pose proof (Z.pow_pos_nonneg 2 j); lia). apply wp_ret. split; [done|].
      intros b Hb'. destruct (decide (b = j)) as [-> |]; [done|apply Hb; lia].
    + cbn [Z.eqb]. unfold inuse_put. apply wp_bind, wp_get. rewrite zupd_Some by lia. apply wp_bind, wp_ret, wp_modify', wp_ret, wp_ret.
      split; [unfold NPAGEREFS, PAGE_SIZE; lia|]. split.
      * unfold inuse_bit. replace ((i * 32 + j) / 32) with i by lia. replace ((i * 32 + j) mod 32) with j by lia. by rewrite Hw.
      * eexists. split; [reflexivity|]. split; [apply words_ok_put; [done|by apply lor_bound; [|lia]]|].
        intros y Hy. by apply inuse_bit_mark; [|lia|].
  - intros ? [-> Hb]. exfalso. apply Hne, all_bits; [done|]. intros b Hb'. apply Hb. lia.
Qed.

Lemma rep_words s H : heap_rep s H → words_ok s.(pagerefs_inuse).
Proof. intros Hr. split; [apply Hr|apply Hr]. Qed.

(** The rest of memory management has moved, the heap's pages have not. *)
Lemma rep_pages s H p :
  heap_rep s H → kp_inv p →
  (∀ a, a ∈ H → kp_owned p a.(ap_addr) ∧ same_page s.(pages) p a.(ap_addr)) → heap_rep (set_pages p s) H.
Proof.
  intros Hr Hi Ho. pose proof Hr as []. split; try done; simpl.
  - apply Forall_forall. intros a Ha. eapply apage_ok_ext; [by eapply rep_aligned|by left|by apply Ho|by eapply rep_page].
  - intros a Ha. by apply Ho.
Qed.

(** A page that is not the heap's joins it. *)
Lemma rep_cons s s' H r page k l q p' :
  heap_rep s H → 0 ≤ r < NPAGEREFS → inuse_bit s.(pagerefs_inuse) r = false → 0 ≤ k < NSIZES →
  zlookup s.(sizebases) k = Some q → page ∉ ap_addr <$> H →
  s'.(pagerefs) = <[Z.to_nat r := p']> s.(pagerefs) → s'.(sizebases) = <[Z.to_nat k := Some r]> s.(sizebases) →
  s'.(allbase) = Some r → next_all p' = s.(allbase) → next_samesize p' = q →
  words_ok s'.(pagerefs_inuse) → (∀ y, 0 ≤ y → inuse_bit s'.(pagerefs_inuse) y = inuse_bit s.(pagerefs_inuse) y || (y =? r)) →
  (∀ b, b ∈ H → kp_owned s'.(pages) b.(ap_addr) ∧ same_page s.(pages) s'.(pages) b.(ap_addr)) →
  kp_inv s'.(pages) → kp_owned s'.(pages) page →
  apage_ok s'.(pagerefs) (kp_peek s'.(pages)) (APage r page k l) →
  heap_rep s' (APage r page k l :: H).
Proof.
  intros Hr Hrr Hrb Hk Hq Hpg E1 E3 E4 Ena Ens Hw Hbits Hsame Hinv Hown Hok.
  pose proof Hr as [[L1 [L2 L3]] _ Hi Hrg Hre Had Hall Hsz Hpgs How _].
  assert (r ∉ ap_ref <$> H) as Hnr by (intros Hin; apply Hi in Hin; [congruence|done]).
  assert (∀ x, x ∈ ap_ref <$> H → zlookup s'.(pagerefs) x = zlookup s.(pagerefs) x) as Hlk.
  { intros x Hx. rewrite E1, zlookup_insert by (rewrite L1; exact Hrr). rewrite (proj2 (Z.eqb_neq r x)); [done|]. by intros ->. }
  assert (zlookup s'.(pagerefs) r = Some p') as Hp'.
  { rewrite E1, zlookup_insert by (rewrite L1; exact Hrr). by rewrite Z.eqb_refl. }
  split; try done.
  - by rewrite E1, E3, !length_insert; destruct Hw.
  - apply Hw.
  - intros y Hy. rewrite Hbits by lia. rewrite orb_true_iff, Hi, Z.eqb_eq, fmap_cons, elem_of_cons by done. simpl. naive_solver.
  - intros y. rewrite fmap_cons, elem_of_cons. simpl. intros [->|Hy]; [done|by apply Hrg].
  - rewrite fmap_cons. by constructor.
  - rewrite fmap_cons. by constructor.
  - simpl. split; [done|]. exists p'. split; [done|]. rewrite Ena. eapply pchain_ext; [|exact Hall]. intros x Hx. by rewrite Hlk.
  - intros k' b. rewrite E3, zlookup_insert by (rewrite L3; exact Hk). rewrite filter_cons. simpl.
    assert (∀ x b', pchain next_samesize (pagerefs s) b' (ap_ref <$> filter (λ a, ap_type a = x) H) →
      pchain next_samesize (pagerefs s') b' (ap_ref <$> filter (λ a, ap_type a = x) H)) as Hext.
    { intros x b'. apply pchain_ext. intros y Hy. rewrite Hlk; [done|].
      apply list_elem_of_fmap in Hy as (a & -> & Ha). apply list_elem_of_filter in Ha as [_ Ha]. by apply list_elem_of_fmap_2. }
    destruct (Z.eqb_spec k k') as [<- |Hne]; case_decide as Hd; try congruence.
    + intros [= <-]. split; [done|]. exists p'. split; [done|]. rewrite Ens. by apply Hext, Hsz.
    + intros Hb. by apply Hext, Hsz.
  - constructor; [done|]. apply Forall_forall. intros b Hb. eapply apage_ok_ext; [by eapply rep_aligned| |by apply Hsame|by eapply rep_page].
    left. apply Hlk. by apply list_elem_of_fmap_2.
  - intros b [->|Hb]%elem_of_cons; [done|by apply Hsame].
Qed.

Lemma new_page_wp s r p page k b :
  zlookup s.(pagerefs) r = Some p → kp_inv s.(pages) → kp_owned s.(pages) page → 0 ≤ k < NSIZES →
  zlookup s.(sizebases) k = Some b →
  wp (new_page r page k (bsize k)) (λ _ s',
    (∃ p', s'.(pagerefs) = <[Z.to_nat r := p']> s.(pagerefs) ∧
      p' = Pageref b s.(allbase) (page + k) ((nblocks k - 1) * bsize k) (nblocks k)) ∧
    s'.(sizebases) = <[Z.to_nat k := Some r]> s.(sizebases) ∧ s'.(allbase) = Some r ∧
    s'.(pagerefs_inuse) = s.(pagerefs_inuse) ∧ s'.(kmalloc_spinlock) = s.(kmalloc_spinlock) ∧
    mem_step page (page + PAGE_SIZE) s (set_pages s'.(pages) s) ∧
    fl_chain (kp_peek s'.(pages)) page (down (Z.to_nat (nblocks k)) (bsize k))) s.
Proof.
  intros Hp Hi Ho Hk Hb. destruct (owned_bounds _ _ Hi Ho) as (Hm & Hlo & Hhi).
  destruct (nblocks_bounds k Hk) as [Hn Hpz]. destruct (bsize_div k Hk) as (Hz & _).
  destruct (mkpab_spec page k Hm ltac:(unfold W32; lia) Hk) as [Hpab _].
  pose proof (zlookup_Some_lt _ _ _ Hp) as Hlt. pose proof (zlookup_Some_lt _ _ _ Hb) as Hltb.
  assert (∀ (f : pageref) (st : kheap P), st.(pagerefs) = <[Z.to_nat r := f]> s.(pagerefs) → zlookup st.(pagerefs) r = Some f) as Hlk.
  { intros f st ->. rewrite zlookup_insert by done. by rewrite Z.eqb_refl. }
  unfold new_page. fold (nblocks k). replace (u16 (nblocks k)) with (nblocks k) by (unfold u16; lia). cbv zeta. rewrite Hpab.
  eapply wp_run; [by apply pr_put_ret|]. set (s1 := set_pagerefs _ s).
  apply wp_bind. eapply wp_mono; [|by apply (init_freelist_ret s1)]. intros fl s2 (-> & M2 & C2).
  replace (page + (nblocks k - 1) * bsize k - page) with ((nblocks k - 1) * bsize k) by lia.
  replace (u16 ((nblocks k - 1) * bsize k)) with ((nblocks k - 1) * bsize k) by (unfold u16, PAGE_SIZE in *; nia).
  pose proof M2 as (E2 & I2 & O2 & X2). set (q := s2.(pages)) in *. clearbody q. subst s2.
  eapply wp_run; [apply pr_put_ret; apply Hlk; reflexivity|]. simpl. rewrite list_insert_insert_eq. unfold set_free; simpl.
  rewrite Z.eqb_refl. apply wp_kassert; [done|]. apply wp_get. eapply wp_of_opt; [exact Hb|].
  eapply wp_run; [apply pr_put_ret; apply Hlk; reflexivity|]. simpl. rewrite list_insert_insert_eq. unfold set_next_samesize; simpl.
  unfold sizebase_put. apply wp_bind, wp_get. simpl. rewrite zupd_Some by done. apply wp_bind, wp_ret, wp_modify', wp_get.
  eapply wp_run; [apply pr_put_ret; apply Hlk; reflexivity|]. simpl. rewrite list_insert_insert_eq. unfold set_next_all; simpl.
  apply wp_modify'. simpl. split_and!; try done. by eexists.
Qed.

(** *** Live blocks *)

Lemma live_perm H H' b n : H ≡ₚ H' → live H b n ↔ live H' b n.
Proof. intros Hp. unfold live. by setoid_rewrite Hp. Qed.

Lemma live_cons a H b n :
  live (a :: H) b n ↔
  (∃ o, n = bsize a.(ap_type) ∧ b = a.(ap_addr) + o ∧ block_at a.(ap_type) o ∧ o ∉ a.(ap_free)) ∨ live H b n.
Proof.
  unfold live. split.
  - intros (c & o & [->|Hc]%elem_of_cons & E & Hb & Ho & Hf); [left; eauto|right; by exists c, o].
  - intros [(o & E & Hb & Ho & Hf)|(c & o & Hc & E & Hb & Ho & Hf)]; [exists a, o; split; [left|done]|].
    exists c, o. split; [by right|done].
Qed.

Lemma live_middle H1 a H2 b n : live (H1 ++ a :: H2) b n ↔ live (a :: H1 ++ H2) b n.
Proof. apply live_perm. symmetry. apply Permutation_middle. Qed.

(** Taking the first free block of a page makes exactly that block live. *)
Lemma live_take r pa k o l H1 H2 b n :
  NoDup (o :: l) → block_at k o →
  live (H1 ++ APage r pa k l :: H2) b n ↔
  live (H1 ++ APage r pa k (o :: l) :: H2) b n ∨ (b = pa + o ∧ n = bsize k).
Proof.
  intros Hnd Ho. apply NoDup_cons in Hnd as [Hno _]. rewrite !live_middle, !live_cons; simpl. split.
  - intros [(x & -> & -> & Hx & Hl)|]; [|by left; right]. destruct (decide (x = o)) as [-> |Hne]; [by right|].
    left; left. exists x. split_and!; try done. by rewrite not_elem_of_cons.
  - intros [[(x & -> & -> & Hx & Hl)|]|[-> ->]]; [left|by right|left].
    + exists x. apply not_elem_of_cons in Hl as [_ Hl]. done.
    + by exists o.
Qed.

Lemma live_page s H b n : heap_rep s H → live H b n →
  ∃ a, a ∈ H ∧ n = bsize a.(ap_type) ∧ 0 ≤ a.(ap_type) < NSIZES ∧ block_at a.(ap_type) (b - a.(ap_addr)) ∧
    a.(ap_addr) ≤ b ∧ b + n ≤ a.(ap_addr) + PAGE_SIZE ∧ b - a.(ap_addr) ∉ a.(ap_free).
Proof.
  intros Hr (a & o & Ha & -> & -> & Ho & Hf). exists a. pose proof (ok_type _ _ _ (rep_page _ _ _ Hr Ha)) as Ht.
  destruct (block_end _ o Ht Ho). replace (a.(ap_addr) + o - a.(ap_addr)) with o by lia.
  pose proof (proj1 Ho). split_and!; try done; lia.
Qed.

(** No two live blocks overlap. *)
Lemma live_disjoint s H b n b' n' : heap_rep s H → live H b n → live H b' n' →
  (b = b' ∧ n = n') ∨ b + n ≤ b' ∨ b' + n' ≤ b.
Proof.
  intros Hr Hb Hb'. destruct (live_page _ _ _ _ Hr Hb) as (a & Ha & -> & Ht & Ho & H1 & H2 & _).
  destruct (live_page _ _ _ _ Hr Hb') as (a' & Ha' & -> & Ht' & Ho' & H1' & H2' & _).
  destruct (decide (a = a')) as [<- |Hne].
  - destruct (decide (b = b')) as [|Hb2]; [by left|right].
    destruct (blocks_disjoint _ _ _ Ht Ho Ho'); [|left|right]; lia.
  - right. apply list_elem_of_split in Ha as (L1 & L2 & ->). rewrite <- Permutation_middle in Ha'.
    apply elem_of_cons in Ha' as [|Ha']; [congruence|]. destruct (rep_apart _ _ _ _ a' Hr Ha') as [_ [|]]; [right|left]; lia.
Qed.

(** A free block overlaps no live one. *)
Lemma free_disjoint s H a o b n : heap_rep s H → a ∈ H → o ∈ a.(ap_free) → live H b n →
  b + n ≤ a.(ap_addr) + o ∨ a.(ap_addr) + o + bsize a.(ap_type) ≤ b.
Proof.
  intros Hr Ha Ho Hb. pose proof (rep_page _ _ _ Hr Ha) as [_ Ht _ Hbl _]. eapply Forall_forall in Hbl; [|exact Ho].
  destruct (block_end _ o Ht Hbl) as [He _]. pose proof (proj1 Hbl).
  destruct (live_page _ _ _ _ Hr Hb) as (a' & Ha' & -> & Ht' & Ho' & H1' & H2' & Hf').
  destruct (decide (a = a')) as [<- |Hne].
  - destruct (blocks_disjoint _ o (b - a.(ap_addr)) Ht Hbl Ho'); [|lia..]. by intros ->.
  - apply list_elem_of_split in Ha as (L1 & L2 & ->). rewrite <- Permutation_middle in Ha'.
    apply elem_of_cons in Ha' as [|Ha']; [congruence|]. destruct (rep_apart _ _ _ _ a' Hr Ha') as [_ [|]]; lia.
Qed.

(** The words of the live blocks are what they were. *)
Definition kept H s s' : Prop :=
  ∀ b n x, live H b n → x mod 4 = 0 → b ≤ x < b + n → kp_peek s'.(pages) x = kp_peek s.(pages) x.

Lemma kept_pages s s' H : heap_rep s H →
  (∀ a, a ∈ H → same_page s.(pages) s'.(pages) a.(ap_addr)) → kept H s s'.
Proof.
  intros Hr Hs b n x Hb Hx Hin. destruct (live_page _ _ _ _ Hr Hb) as (a & Ha & _ & _ & _ & H1 & H2 & _).
  apply (Hs a Ha); [done|lia].
Qed.

(** The smallest class that fits. *)
Lemma bsize_double k : 0 < k < NSIZES → bsize k = 2 * bsize (k - 1).
Proof.
  unfold NSIZES. intros. assert (k = 1 ∨ k = 2 ∨ k = 3 ∨ k = 4 ∨ k = 5 ∨ k = 6 ∨ k = 7) as Hk by lia.
  repeat destruct Hk as [->|Hk]; try subst k; done.
Qed.

Lemma blocktype_wp sz s : 0 ≤ sz ≤ 2048 →
  wp (blocktype sz) (λ k s', s' = s ∧ 0 ≤ k < NSIZES ∧ sz ≤ bsize k ∧ (bsize k = 16 ∨ bsize k < 2 * sz)) s.
Proof.
  intros Hsz. unfold blocktype. apply wp_bind.
  apply (wp_for_find (λ j s', s' = s ∧ (0 < j → bsize (j - 1) < sz))); change (Z.of_nat (Z.to_nat NSIZES)) with 8.
  - split; [done|lia].
  - intros j ? Hj [-> Hb]. destruct (bsize_cases j) as [Hz _]; [unfold NSIZES; lia|]. eapply wp_of_opt; [exact Hz|]. apply wp_ret.
    destruct (Z.leb_spec sz (bsize j)).
    + apply wp_ret. split_and!; [done|unfold NSIZES; lia..|]. destruct (decide (j = 0)) as [-> |]; [by left|right].
      rewrite bsize_double by (unfold NSIZES; lia). specialize (Hb ltac:(lia)). lia.
    + split; [done|]. intros _. by replace (j + 1 - 1) with j by lia.
  - intros ? [-> Hb]. specialize (Hb ltac:(lia)). change (bsize (0 + 8 - 1)) with 2048 in Hb. lia.
Qed.

(** Block type [k] is the one for [sz] bytes. *)
Definition fits (sz k : Z) : Prop := sz ≤ bsize k ∧ (bsize k = 16 ∨ bsize k < 2 * sz).

Lemma fits_unique sz k k' : 0 ≤ k < NSIZES → 0 ≤ k' < NSIZES → fits sz k → fits sz k' → k = k'.
Proof.
  intros Hk Hk' [F1 F2] [F1' F2'].
  assert (∀ i j, 0 ≤ i < NSIZES → i < j < NSIZES → 2 * bsize i ≤ bsize j ∧ bsize j ≠ 16) as Hmono.
  { unfold NSIZES. clear. intros i j Hi Hj.
    assert (i = 0 ∨ i = 1 ∨ i = 2 ∨ i = 3 ∨ i = 4 ∨ i = 5 ∨ i = 6 ∨ i = 7) as Hc by lia.
    assert (j = 1 ∨ j = 2 ∨ j = 3 ∨ j = 4 ∨ j = 5 ∨ j = 6 ∨ j = 7) as Hc' by lia.
    repeat destruct Hc as [->|Hc]; try subst i; repeat destruct Hc' as [->|Hc']; try subst j; try lia; by vm_compute. }
  destruct (Z.lt_trichotomy k k') as [Hlt|[|Hlt]]; [|done|].
  - destruct (Hmono k k'); lia.
  - destruct (Hmono k' k); lia.
Qed.

(** No block of the size for [sz] bytes is free. *)
Definition no_fit (sz : Z) H : Prop := ∀ a, a ∈ H → fits sz a.(ap_type) → a.(ap_free) = [].

(** There is none and none can be made: no page, or no pageref for one. *)
Definition out_of_memory (sz : Z) H s : Prop := no_fit sz H ∧ (kp_refused s.(pages) ∨ length H = 256%nat).

(** What an allocation of [sz] bytes promises: the heap is consistent, no word of
    a live block has changed, and the result is NULL with the same live blocks,
    or a new block of a size at least [sz], apart from all of them. *)
Definition allocates (sz : Z) H s (a : Z) s' : Prop :=
  ∃ H', heap_rep s' H' ∧ unlocked s' ∧ kept H s s' ∧
    ((a = 0 ∧ out_of_memory sz H s ∧ ∀ b n, live H' b n ↔ live H b n) ∨
     ∃ n, a ≠ 0 ∧ ¬ out_of_memory sz H s ∧ a mod 8 = 0 ∧ sz ≤ n ∧ (n = 16 ∨ n < 2 * sz) ∧
       (∀ b m, live H' b m ↔ live H b m ∨ (b = a ∧ m = n)) ∧
       ∀ b m, live H b m → b + m ≤ a ∨ a + n ≤ b).

(** From a state whose page [a] has a free block. *)
Lemma doalloc_allocates sz s H1 a H2 s0 H0 :
  heap_rep s (H1 ++ a :: H2) → a.(ap_free) ≠ [] → s.(kmalloc_spinlock) = Spinlock 1 mycpu →
  sz ≤ bsize a.(ap_type) → bsize a.(ap_type) = 16 ∨ bsize a.(ap_type) < 2 * sz →
  (∀ b n, live (H1 ++ a :: H2) b n ↔ live H0 b n) → kept H0 s0 s → ¬ out_of_memory sz H0 s0 →
  wp (doalloc mycpu a.(ap_ref)) (allocates sz H0 s0) s.
Proof.
  intros Hr Hf Hl Hsz Hcl Hlive Hk Hmem. destruct a as [r pa k [|o l]]; [done|]. simpl in *.
  destruct (doalloc_ret s H1 (APage r pa k (o :: l)) H2 o l Hr eq_refl Hl) as (s' & E & Hu & Ep & Hr'). simpl in *.
  eapply wp_intro; [exact E|]. assert (APage r pa k (o :: l) ∈ H1 ++ APage r pa k (o :: l) :: H2) as Ha by (apply elem_of_app; right; left).
  pose proof (rep_page _ _ _ Hr Ha) as [_ Ht Hnd Hbl _]. simpl in *. apply Forall_cons in Hbl as [Ho _].
  destruct (rep_aligned _ _ _ Hr Ha) as (Hm & Hlo & Hhi). simpl in *. destruct (block_end k o Ht Ho) as [He H16].
  exists (H1 ++ APage r pa k l :: H2). split_and!; [done|done|intros b n x; rewrite Ep; apply Hk|].
  assert (∀ b m, live (H1 ++ APage r pa k l :: H2) b m ↔ live H0 b m ∨ (b = pa + o ∧ m = bsize k)) as Hl'.
  { intros b m. rewrite <- Hlive. by apply live_take. }
  right. exists (bsize k). pose proof (proj1 Ho). split_and!; [lia|done|lia|done|done|done|]. intros b m Hb.
  apply Hlive in Hb. apply (free_disjoint s _ _ o b m Hr Ha); [left|done].
Qed.

Lemma rep_sizebase s H k : heap_rep s H → 0 ≤ k < NSIZES → ∃ b, zlookup s.(sizebases) k = Some b.
Proof. intros Hr Hk. apply zlookup_is_Some. destruct (hr_len _ _ Hr) as (_ & _ & ->). exact Hk. Qed.

(** A page from the page allocator becomes the first page of the heap. *)
Lemma fresh_page_wp s H r page k l0 p0 :
  heap_rep s H → 0 ≤ r < NPAGEREFS → inuse_bit s.(pagerefs_inuse) r = false → 0 ≤ k < NSIZES →
  kp_inv p0 → kp_owned p0 page → page ∉ ap_addr <$> H →
  (∀ b, b ∈ H → kp_owned p0 b.(ap_addr) ∧ same_page s.(pages) p0 b.(ap_addr)) →
  words_ok l0 → (∀ y, 0 ≤ y → inuse_bit l0 y = inuse_bit s.(pagerefs_inuse) y || (y =? r)) →
  wp (new_page r page k (bsize k)) (λ _ s', 
    heap_rep s' (APage r page k (down (Z.to_nat (nblocks k)) (bsize k)) :: H) ∧
    s'.(kmalloc_spinlock) = s.(kmalloc_spinlock) ∧ ∀ b, b ∈ H → same_page s.(pages) s'.(pages) b.(ap_addr))
    (set_inuse l0 (set_pages p0 s)).
Proof.
  intros Hr Hrr Hrb Hk Hinv Hown Hpg Hsame Hw Hbits. destruct (rep_sizebase s H k Hr Hk) as [b Hb].
  destruct (zlookup_is_Some s.(pagerefs) r) as [p Hp].
  { destruct (hr_len _ _ Hr) as (-> & _). exact Hrr. }
  destruct (owned_bounds _ _ Hinv Hown) as (Hm & Hlo & Hhi).
  eapply wp_mono; [|by apply (new_page_wp _ r p page k b)].
  intros [] s' ((p' & E1 & Ep) & E3 & E4 & E2 & El & (_ & Hi' & Ho' & Hx') & Hch). simpl in *.
  assert (∀ c, c ∈ H → same_page s.(pages) s'.(pages) c.(ap_addr)) as Hsame'.
  { intros c Hc x Hx Hin. destruct (Hsame c Hc) as [Hc1 Hc2]. rewrite Hx', Hc2; try done. intros Hr2.
    destruct (owned_bounds _ _ Hinv Hc1) as (Hcm & _). apply Hpg. replace page with c.(ap_addr) by (unfold PAGE_SIZE in *; lia).
    by apply list_elem_of_fmap_2. }
  split; [|by split]. destruct (nblocks_bounds k Hk) as [Hn Hpz]. destruct (bsize_div k Hk) as (Hz & _).
  destruct (mkpab_spec page k Hm ltac:(unfold W32; lia) Hk) as (_ & Hpa & Hbt).
  eapply (rep_cons s s' H r page k _ b p'); try done; try (by rewrite ?Ep, ?E2).
  - intros c Hc. split; [by apply Ho', Hsame|by apply Hsame'].
  - by apply Ho'.
  - split; simpl; try done.
    + exists p'. rewrite E1, zlookup_insert by (destruct (hr_len _ _ Hr) as (-> & _); exact Hrr). rewrite Z.eqb_refl, Ep.
      unfold PR_PAGEADDR, PR_BLOCKTYPE. simpl. rewrite down_length. split_and!; try done; [lia|].
      destruct (Z.to_nat (nblocks k)) as [|m] eqn:Em; [lia|]. simpl. f_equal. lia.
    + apply down_nodup. lia.
    + apply Forall_forall. intros o Ho. apply down_spec in Ho as (j & Hj & ->); [|lia]. apply block_index; [done|lia].
Qed.

Lemma live_fresh r page k H b n : 0 ≤ k < NSIZES →
  live (APage r page k (down (Z.to_nat (nblocks k)) (bsize k)) :: H) b n ↔ live H b n.
Proof.
  intros Hk. rewrite live_cons. simpl. split; [|by right]. intros [(o & -> & -> & Ho & Hf)|]; [|done]. exfalso. apply Hf.
  destruct (bsize_div k Hk) as (Hz & _ & _ & Hp). fold (nblocks k) in Hp. destruct Ho as [Ho Hm].
  assert (o = (o / bsize k) * bsize k) as E by (rewrite (Z.div_mod o (bsize k)) at 1 by lia; lia).
  revert E. generalize (o / bsize k). intros q ->. assert (0 ≤ q < nblocks k) as Hq by nia. clear -Hq.
  remember (Z.to_nat (nblocks k)) as m eqn:Em. assert (0 ≤ q < Z.of_nat m) as Hq' by lia. clear -Hq'.
  induction m as [|m IH]; [lia|]. simpl. destruct (decide (q = Z.of_nat m)) as [-> |]; [left|right; apply IH; lia].
Qed.

(** The part of [subpage_kmalloc] after the search has failed. *)
Lemma new_alloc_wp sz s H k :
  heap_rep s H → unlocked s → 0 ≤ k < NSIZES → sz ≤ bsize k → bsize k = 16 ∨ bsize k < 2 * sz →
  no_fit sz H → kp_ready s.(pages) →
  wp (prpage ← kp_call (kp_alloc 1);
      if prpage =? 0 then mret 0
      else
        km_lock mycpu;;
        r ← allocpageref;
        match r with
        | None => km_unlock mycpu;; kp_call (kp_free prpage);; mret 0
        | Some pr => new_page pr prpage k (bsize k);; doalloc mycpu pr
        end) (allocates sz H s) s.
Proof.
  intros Hr Hu Hk Hfit Hcl Hnf Hrd. apply wp_bind, wp_zoom.
  eapply wp_mono; [|apply kp_alloc_law; [apply Hr|done]]. intros page p (Hi & Hold & Hpage).
  assert (∀ a, a ∈ H → kp_owned p a.(ap_addr) ∧ same_page s.(pages) p a.(ap_addr)) as Hsame.
  { intros a Ha. by apply Hold, Hr. }
  assert (heap_rep (set_pages p s) H) as Hr1 by by apply rep_pages.
  assert (∀ s', (∀ a, a ∈ H → same_page s.(pages) s'.(pages) a.(ap_addr)) → kept H s s') as Hkept.
  { intros s' Hs'. by apply kept_pages. }
  destruct Hpage as [[-> Href]|(Hnr & Hno & Hpo)].
  { apply wp_ret. exists H. split_and!; [done|done|apply Hkept; intros a Ha; by apply Hsame|]. left. split; [done|]. split; [|done].
    split; [done|by left]. }
  destruct (owned_bounds _ _ Hi Hpo) as (_ & Hlo & _). rewrite (proj2 (Z.eqb_neq page 0)) by (unfold MIPS_KSEG0 in *; lia). eapply wp_run; [by apply km_lock_ret|].
  assert (page ∉ ap_addr <$> H) as Hpg.
  { intros (a & -> & Ha)%list_elem_of_fmap. by apply Hno, Hr. }
  apply wp_bind. eapply wp_mono; [|apply allocpageref_wp; exact (rep_words _ _ Hr)].
  intros [r|] s2.
  - intros (Hrr & Hrb & l0 & -> & Hw & Hbits). apply wp_bind.
    change (set_inuse l0 _) with (set_inuse l0 (set_pages p (set_kmlock (Spinlock 1 mycpu) s))).
    eapply wp_mono; [|by eapply (fresh_page_wp (set_kmlock (Spinlock 1 mycpu) s) H r page k); [apply rep_lock|..]].
    intros [] s3 (Hr3 & Hl3 & Hs3). destruct (nblocks_bounds k Hk) as [Hn _].
    apply (doalloc_allocates sz s3 [] (APage r page k (down (Z.to_nat (nblocks k)) (bsize k))) H s H); simpl; try done.
    + destruct (Z.to_nat (nblocks k)) eqn:E; [lia|done].
    + intros b n. by apply live_fresh.
    + by apply Hkept.
    + intros [_ [?|Hl]]; [done|]. apply (rep_full _ _ Hr) with (r := r) in Hl; [|done]. simpl in Hrb. congruence.
  - intros [-> Hall]. eapply wp_run; [by apply km_unlock_ret|]. apply wp_bind, wp_zoom. simpl.
    eapply wp_mono; [|by apply kp_free_law]. intros [] p' (Hi' & Hold'). apply wp_ret.
    assert (∀ a, a ∈ H → kp_owned p' a.(ap_addr) ∧ same_page s.(pages) p' a.(ap_addr)) as Hsame'.
    { intros a Ha. destruct (Hold' a.(ap_addr)) as [Ho' Hs']; [intros <-; apply Hpg; by apply list_elem_of_fmap_2|by apply Hsame|].
      split; [done|]. intros x Hx Hin. rewrite Hs' by done. by apply (proj2 (Hsame a Ha)). }
    exists H. split_and!; [|done|apply Hkept; intros a Ha; by apply Hsame'|].
    2:{ left. split; [done|]. split; [|done]. split; [done|]. right. by apply (rep_full _ _ Hr). }
    apply (rep_pages (set_kmlock SPINLOCK_INITIALIZER s)); [by apply rep_lock|done|done].
Qed.

(** One step of a run, for any property of how it ends. *)
Lemma run_step {S A B} (Q : outcome S B → Prop) (m : M S A) (k : A → M S B) (s s' : S) (a : A) :
  m s = Ret a s' → Q (k a s') → Q ((m ≫= k) s).
Proof. intros E. by erewrite bind_Ret. Qed.

(** The search, with the two ways it can end. *)
Lemma subpage_kmalloc_run sz s H (Q : outcome (kheap P) Z → Prop) :
  heap_rep s H → unlocked s → 0 ≤ sz ≤ 2048 →
  (¬ no_fit sz H → ∀ o, wp (λ _, o) (allocates sz H s) s → Q o) →
  (no_fit sz H → ∀ k, 0 ≤ k < NSIZES → sz ≤ bsize k → bsize k = 16 ∨ bsize k < 2 * sz →
     Q ((prpage ← kp_call (kp_alloc 1);
         if prpage =? 0 then mret 0
         else
           km_lock mycpu;;
           r ← allocpageref;
           match r with
           | None => km_unlock mycpu;; kp_call (kp_free prpage);; mret 0
           | Some pr => new_page pr prpage k (bsize k);; doalloc mycpu pr
           end) s)) →
  Q (subpage_kmalloc mycpu sz s).
Proof.
  intros Hr Hu Hsz Hfound Hnew. unfold subpage_kmalloc.
  destruct (wp_inv _ _ _ (blocktype_wp sz s Hsz)) as (k & ? & E0 & -> & Hk & Hfit & Hcl). apply (run_step Q _ _ _ _ _ E0).
  destruct (bsize_cases k Hk) as [Hz _]. rewrite Hz. eapply (run_step Q); [reflexivity|].
  eapply (run_step Q); [by apply km_lock_ret|]. eapply (run_step Q); [reflexivity|]. destruct (rep_sizebase s H k Hr Hk) as [b Hb].
  eapply (run_step Q); [cbn [sizebases set_kmlock]; rewrite Hb; reflexivity|].
  set (s1 := set_kmlock _ s). assert (heap_rep s1 H) as Hr1 by by apply rep_lock.
  assert (Forall (apage_ok s1.(pagerefs) (kp_peek s1.(pages))) (filter (λ a, ap_type a = k) H)) as Hok.
  { apply Forall_forall. intros a [_ Ha]%list_elem_of_filter. by eapply rep_page. }
  assert (Forall (λ a, ap_type a = k) (filter (λ a, ap_type a = k) H)) as Htk.
  { apply Forall_forall. by intros a [Ha _]%list_elem_of_filter. }
  assert (length (filter (λ a, ap_type a = k) H) < list_fuel)%nat as Hfuel.
  { pose proof (length_filter (λ a, ap_type a = k) H). pose proof (rep_length _ _ Hr). change list_fuel with 257%nat. lia. }
  destruct (find_page_ret s1 k _ b list_fuel (hr_size _ _ Hr1 _ _ Hb) Hok Htk Hfuel) as [(L1 & a & L2 & EL & Hf & E)|[Hnone E]];
    (apply (run_step Q _ _ _ _ _ E)).
  - assert (a ∈ filter (λ a, ap_type a = k) H) as Ha by (rewrite EL; apply elem_of_app; right; left).
    apply list_elem_of_filter in Ha as [<- Ha]. assert (¬ no_fit sz H) as Hnf by (intros Hn; by apply Hf, Hn).
    apply Hfound; [done|]. apply list_elem_of_split in Ha as (H1 & H2 & ->).
    apply (doalloc_allocates sz s1 H1 a H2 s); try done. by intros [? _].
  - eapply (run_step Q); [by apply km_unlock_ret|].
    replace (set_kmlock SPINLOCK_INITIALIZER s1) with s by (destruct s; unfold s1, unlocked in *; simpl in *; by subst).
    apply Hnew; try done. intros a Ha Hfa. eapply Forall_forall in Hnone; [exact Hnone|]. apply list_elem_of_filter. split; [|done].
    apply (fits_unique sz); [eapply (ok_type _ _ _ (rep_page _ _ _ Hr Ha))|done..].
Qed.

Lemma subpage_kmalloc_wp sz s H :
  heap_rep s H → unlocked s → 0 ≤ sz ≤ 2048 → (no_fit sz H → kp_ready s.(pages)) →
  wp (subpage_kmalloc mycpu sz) (allocates sz H s) s.
Proof.
  intros Hr Hu Hsz Hrd. unfold wp. apply (subpage_kmalloc_run sz s H); [done..|by intros|].
  intros Hn k Hk Hf Hc. by apply new_alloc_wp; auto.
Qed.

(** With no fitting block and no page the request does not come back. *)
Lemma subpage_kmalloc_stuck sz s H a s' :
  heap_rep s H → unlocked s → 0 ≤ sz ≤ 2048 → no_fit sz H → ¬ kp_ready s.(pages) → subpage_kmalloc mycpu sz s ≠ Ret a s'.
Proof.
  intros Hr Hu Hsz Hn Hrd. apply (subpage_kmalloc_run sz s H (λ o, o ≠ Ret a s')); [done..|].
  intros _ k _ _ _. unfold kp_call, zoom, mbind, M_bind. destruct (kp_alloc 1 s.(pages)) as [x p| | |] eqn:E; try done.
  by apply kp_stuck_law in E; [|apply Hr|].
Qed.
End alloc.

(** ** Freeing *)

Section unlinking.
Context {P : Type} `{!KPages P} `{!KPagesLaws P}.
Context (next : pageref → option Z) (set_next : option Z → pageref → pageref).
Implicit Types s : kheap P.

(** The rest of a pageref. *)
Context {T : Type} (rest : pageref → T).
Hypothesis next_set : ∀ o p, next (set_next o p) = o.
Hypothesis rest_set : ∀ o p, rest (set_next o p) = rest p.

Lemma unlink_walk fuel r l1 l2 guy cur s p :
  pchain next s.(pagerefs) cur (l1 ++ r :: l2) → r ∉ l1 → zlookup s.(pagerefs) r = Some p → (length l1 < fuel)%nat →
  unlink fuel next set_next r guy cur s =
    match last l1 with None => guy (next p) s | Some g => pr_put g (set_next (next p)) s end.
Proof.
  revert fuel guy cur. induction l1 as [|g l1 IH]; intros fuel guy cur Hc Hr Hp Hf; (destruct fuel as [|fuel]; [simpl in Hf; lia|]).
  - destruct Hc as (-> & p' & Hp' & _). assert (p' = p) as -> by congruence. cbn [unlink].
    rewrite (bind_Ret _ _ _ _ _ (pr_at_ret _ _ _ Hp)). by rewrite Z.eqb_refl.
  - destruct Hc as (-> & q & Hq & Hc). apply not_elem_of_cons in Hr as [Hrg Hr]. cbn [unlink].
    rewrite (bind_Ret _ _ _ _ _ (pr_at_ret _ _ _ Hq)), (proj2 (Z.eqb_neq _ _)) by done.
    rewrite (IH fuel _ _ Hc Hr Hp) by (simpl in Hf; lia). rewrite last_cons. by destruct (last l1).
Qed.

Lemma pchain_app prs start l1 r l2 :
  pchain next prs start (l1 ++ r :: l2) → ∃ p, zlookup prs r = Some p ∧ pchain next prs (next p) l2.
Proof.
  revert start. induction l1 as [|g l1 IH]; intros start; simpl; [intros (_ & p & Hp & Hc); eauto|].
  intros (_ & p & _ & Hc). eauto.
Qed.

(** The chain with [g] made to skip [r]. *)
Lemma pchain_skip prs start l1 g r l2 p q :
  pchain next prs start (l1 ++ g :: r :: l2) → NoDup (l1 ++ g :: r :: l2) →
  zlookup prs g = Some q → zlookup prs r = Some p →
  pchain next (<[Z.to_nat g := set_next (next p) q]> prs) start (l1 ++ g :: l2).
Proof.
  intros Hc Hnd Hq Hp. pose proof (zlookup_Some_lt _ _ _ Hq) as Hlt. revert start Hc.
  induction l1 as [|x l1 IH]; intros start; simpl.
  - intros (-> & q' & Hq' & _ & p' & Hp' & Hc). split; [done|]. exists (set_next (next p) q).
    rewrite zlookup_insert, Z.eqb_refl, next_set by done. split; [done|]. assert (p' = p) as -> by congruence.
    eapply pchain_ext; [|exact Hc]. intros y Hy. rewrite zlookup_insert by done. destruct (Z.eqb_spec g y) as [-> |]; [|done].
    simpl in Hnd. apply NoDup_cons in Hnd as [Hnd _]. exfalso. apply Hnd. by right.
  - intros (-> & q' & Hq' & Hc). split; [done|]. simpl in Hnd. apply NoDup_cons in Hnd as [Hx Hnd].
    exists q'. rewrite zlookup_insert by done. destruct (Z.eqb_spec g x) as [-> |].
    + exfalso. apply Hx, elem_of_app. right. left.
    + split; [done|]. by apply IH.
Qed.

(** Unlinking [r] from a chain whose first link [guy] writes. *)
Lemma unlink_spec fuel r l1 l2 guy cur s :
  pchain next s.(pagerefs) cur (l1 ++ r :: l2) → NoDup (l1 ++ r :: l2) → (length l1 < fuel)%nat →
  ∃ prs start, pchain next prs start (l1 ++ l2) ∧ length prs = length s.(pagerefs) ∧
    (∀ x, rest <$> zlookup prs x = rest <$> zlookup s.(pagerefs) x) ∧
    (∀ x, x ∉ l1 → zlookup prs x = zlookup s.(pagerefs) x) ∧
    ((prs = s.(pagerefs) ∧ unlink fuel next set_next r guy cur s = guy start s) ∨
     (start = cur ∧ unlink fuel next set_next r guy cur s = Ret tt (set_pagerefs prs s))).
Proof.
  intros Hc Hnd Hf. destruct (pchain_app _ _ _ _ _ Hc) as (p & Hp & Hc2).
  assert (r ∉ l1) as Hr by (apply NoDup_app in Hnd as (_ & Hd & _); intros Hr; apply (Hd r Hr); left).
  pose proof (unlink_walk fuel r l1 l2 guy cur s p Hc Hr Hp Hf) as E.
  destruct l1 as [|g l1 _] using rev_ind.
  - exists s.(pagerefs), (next p). split_and!; try done. by left.
  - rewrite last_snoc in E. rewrite <- app_assoc in *. simpl in *.
    destruct (pchain_app _ _ _ _ _ Hc) as (q & Hq & _). pose proof (zlookup_Some_lt _ _ _ Hq) as Hlt.
    eexists _, cur. split; [by eapply pchain_skip|]. rewrite length_insert. split; [done|]. split_and!.
    + intros x. rewrite zlookup_insert by done. destruct (Z.eqb_spec g x) as [<- |]; [|done]. rewrite Hq. simpl. by rewrite rest_set.
    + intros x Hx. rewrite zlookup_insert by done. destruct (Z.eqb_spec g x) as [<- |]; [|done].
      exfalso. apply Hx, elem_of_app. right. left.
    + right. split; [done|]. rewrite E. by apply pr_put_ret.
Qed.
End unlinking.

Section free.
Context {P : Type} `{!KPages P} `{!KPagesLaws P} (mycpu : option nat).
Implicit Types (s : kheap P) (H : list apage).

(** The part of a pageref that describes its page. *)
Definition prcore (p : pageref) : Z * Z * Z := (p.(pageaddr_and_blocktype), p.(freelist_offset), p.(nfree)).

(** A page leaves the heap. *)
Lemma rep_remove s s' H1 a H2 :
  heap_rep s (H1 ++ a :: H2) →
  length s'.(pagerefs) = length s.(pagerefs) → length s'.(sizebases) = length s.(sizebases) →
  (∀ x, prcore <$> zlookup s'.(pagerefs) x = prcore <$> zlookup s.(pagerefs) x) →
  pchain next_all s'.(pagerefs) s'.(allbase) (ap_ref <$> H1 ++ H2) →
  (∀ k b, zlookup s'.(sizebases) k = Some b →
     pchain next_samesize s'.(pagerefs) b (ap_ref <$> filter (λ a, ap_type a = k) (H1 ++ H2))) →
  words_ok s'.(pagerefs_inuse) →
  (∀ y, 0 ≤ y → inuse_bit s'.(pagerefs_inuse) y = inuse_bit s.(pagerefs_inuse) y && negb (y =? a.(ap_ref))) →
  kp_inv s'.(pages) →
  (∀ b, b ∈ H1 ++ H2 → kp_owned s'.(pages) b.(ap_addr) ∧ same_page s.(pages) s'.(pages) b.(ap_addr)) →
  heap_rep s' (H1 ++ H2).
Proof.
  intros Hr L1 L3 Hcore Hall Hsz Hw Hbits Hinv Hsame. pose proof Hr as [[M1 [M2 M3]] _ Hi Hrg Hre Had _ _ _ _ _].
  assert (∀ b, b ∈ H1 ++ H2 → b ∈ H1 ++ a :: H2) as Hin by (intros b Hb; rewrite <- Permutation_middle; by right).
  assert (ap_ref <$> H1 ++ a :: H2 ≡ₚ a.(ap_ref) :: (ap_ref <$> H1 ++ H2)) as Pr by (by rewrite <- Permutation_middle).
  assert (ap_addr <$> H1 ++ a :: H2 ≡ₚ a.(ap_addr) :: (ap_addr <$> H1 ++ H2)) as Pa by (by rewrite <- Permutation_middle).
  rewrite Pr in Hre. rewrite Pa in Had. apply NoDup_cons in Hre as [Hna Hre], Had as [_ Had].
  split; try done.
  - by destruct Hw; rewrite L1, L3.
  - apply Hw.
  - intros r Hrr. rewrite Hbits by lia. rewrite andb_true_iff, Hi, Pr, elem_of_cons, negb_true_iff, Z.eqb_neq by done.
    split; [intros [[->|] ]; [done|done]|]. intros Hx. split; [by right|]. by intros ->.
  - intros r Hx. apply Hrg. rewrite Pr. by right.
  - apply Forall_forall. intros b Hb. eapply apage_ok_ext; [by eapply rep_aligned, Hin| |by apply Hsame|by eapply rep_page, Hin].
    specialize (Hcore b.(ap_ref)). right. pose proof (rep_page _ _ _ Hr (Hin b Hb)) as [(p & Hp & _) _ _ _ _].
    rewrite Hp in Hcore. destruct (zlookup s'.(pagerefs) b.(ap_ref)) as [p'|] eqn:Hp'; [|done].
    injection Hcore as E1 E2 E3. by exists p, p'.
  - intros b Hb. by apply Hsame.
Qed.

Lemma filter_middle (a : apage) H1 H2 :
  ap_ref <$> filter (λ b, ap_type b = a.(ap_type)) (H1 ++ a :: H2) =
  (ap_ref <$> filter (λ b, ap_type b = a.(ap_type)) H1) ++ a.(ap_ref) :: (ap_ref <$> filter (λ b, ap_type b = a.(ap_type)) H2).
Proof. rewrite filter_app, fmap_app, filter_cons_True by done. done. Qed.

Lemma filter_refs_nodup H k : NoDup (ap_ref <$> H) → NoDup (ap_ref <$> filter (λ b, ap_type b = k) H).
Proof.
  induction H as [|a H IH]; simpl; [done|]. intros [Ha Hn]%NoDup_cons. rewrite filter_cons. case_decide; [|by apply IH].
  simpl. constructor; [|by apply IH]. intros (b & E & Hb)%list_elem_of_fmap. apply list_elem_of_filter in Hb as [_ Hb].
  apply Ha. rewrite E. by apply list_elem_of_fmap_2.
Qed.

(** Both lists lose the page. *)
Lemma remove_lists_wp s H1 a H2 :
  heap_rep s (H1 ++ a :: H2) →
  wp (remove_lists a.(ap_ref) a.(ap_type)) (λ _ s', ∃ prs sb ab, s' = set_allbase ab (set_sizebases sb (set_pagerefs prs s)) ∧
    length prs = length s.(pagerefs) ∧ length sb = length s.(sizebases) ∧
    (∀ x, prcore <$> zlookup prs x = prcore <$> zlookup s.(pagerefs) x) ∧
    pchain next_all prs ab (ap_ref <$> H1 ++ H2) ∧
    (∀ k b, zlookup sb k = Some b → pchain next_samesize prs b (ap_ref <$> filter (λ a, ap_type a = k) (H1 ++ H2)))) s.
Proof.
  intros Hr. assert (a ∈ H1 ++ a :: H2) as Ha by (apply elem_of_app; right; left).
  pose proof (ok_type _ _ _ (rep_page _ _ _ Hr Ha)) as Ht. set (k := a.(ap_type)) in *.
  destruct (rep_sizebase s _ k Hr Ht) as [b Hb]. pose proof (zlookup_Some_lt _ _ _ Hb) as Hlt.
  pose proof (hr_refs _ _ Hr) as Hnd. pose proof (hr_size _ _ Hr k b Hb) as Hck. pose proof (rep_length _ _ Hr) as Hlen.
  rewrite length_app in Hlen. simpl in Hlen.
  pose proof (filter_refs_nodup _ k Hnd) as Hndk. unfold k in Hck, Hndk. rewrite filter_middle in Hck, Hndk. fold k in Hck, Hndk.
  set (F1 := filter (λ b, ap_type b = k) H1) in *. set (F2 := filter (λ b, ap_type b = k) H2) in *.
  assert (length F1 ≤ length H1)%nat as HF1 by apply length_filter.
  unfold remove_lists. apply wp_kassert; [unfold NSIZES in *; apply andb_true_iff; rewrite Z.geb_leb, Z.leb_le, Z.ltb_lt; lia|].
  apply wp_get. eapply wp_of_opt; [exact Hb|].
  destruct (unlink_spec next_samesize set_next_samesize (λ p, (prcore p, next_all p)) ltac:(done) ltac:(done)
    list_fuel a.(ap_ref) _ _ (sizebase_put k) b s Hck Hndk) as (prs & start & Hc1 & Hl1 & Hrest & Hsame & Hun);
    [rewrite length_fmap; change list_fuel with 257%nat; lia|].
  assert (∃ sb, unlink list_fuel next_samesize set_next_samesize (ap_ref a) (sizebase_put k) b s =
    Ret tt (set_sizebases sb (set_pagerefs prs s)) ∧ sb = <[Z.to_nat k := start]> s.(sizebases)) as (sb & Eu & Esb).
  { destruct Hun as [[Ep ->]|[-> ->]].
    - eexists. split; [|done]. unfold sizebase_put, get, mbind, M_bind. rewrite zupd_Some by done. rewrite Ep. by destruct s.
    - eexists. split; [|done]. f_equal. rewrite list_insert_id; [by destruct s|]. rewrite <- zlookup_nat, Z2Nat.id by lia. done. }
  eapply wp_run; [exact Eu|]. apply wp_get.
  pose proof (hr_all _ _ Hr) as Hall. rewrite fmap_app, fmap_cons in Hall, Hnd.
  assert (pchain next_all prs s.(allbase) ((ap_ref <$> H1) ++ a.(ap_ref) :: (ap_ref <$> H2))) as Hall1.
  { eapply pchain_ext; [|exact Hall]. intros r _. specialize (Hrest r).
    destruct (zlookup prs r), (zlookup s.(pagerefs) r); try done. simpl in *. congruence. }
  destruct (unlink_spec next_all set_next_all (λ p, (prcore p, next_samesize p)) ltac:(done) ltac:(done)
    list_fuel a.(ap_ref) _ _ (λ o, modify (set_allbase o)) s.(allbase) (set_sizebases sb (set_pagerefs prs s)) Hall1 Hnd)
    as (prs2 & ab & Hc2 & Hl2 & Hrest2 & _ & Hun2); [rewrite length_fmap; change list_fuel with 257%nat; lia|].
  assert (unlink list_fuel next_all set_next_all (ap_ref a) (λ o, modify (set_allbase o)) (allbase s)
    (set_sizebases sb (set_pagerefs prs s)) = Ret tt (set_allbase ab (set_sizebases sb (set_pagerefs prs2 s)))) as E2.
  { destruct Hun2 as [[Ep ->]|[-> ->]]; simpl in *; [by subst prs2|done]. }
  eapply wp_intro; [exact E2|]. exists prs2, sb, ab. simpl in *.
  assert (∀ x, prcore <$> zlookup prs2 x = prcore <$> zlookup s.(pagerefs) x) as Hcore.
  { intros x. specialize (Hrest x). specialize (Hrest2 x). destruct (zlookup prs2 x), (zlookup prs x), (zlookup s.(pagerefs) x); simpl in *; congruence. }
  split_and!; [done|congruence|subst sb; by rewrite length_insert|done|by rewrite fmap_app|].
  assert (∀ x b', pchain next_samesize prs b' x → pchain next_samesize prs2 b' x) as Hext.
  { intros x b'. apply pchain_ext. intros y _. specialize (Hrest2 y). destruct (zlookup prs2 y), (zlookup prs y); simpl in *; congruence. }
  intros k' b'. subst sb. rewrite zlookup_insert by done. rewrite filter_app, fmap_app.
  destruct (Z.eqb_spec k k') as [<- |Hne]; [intros [= <-]; by apply Hext|]. intros Hb'. apply Hext.
  pose proof (hr_size _ _ Hr k' b' Hb') as Hk'. rewrite filter_app, filter_cons_False, fmap_app in Hk' by done.
  eapply pchain_ext; [|exact Hk']. intros r Hrin. rewrite Hsame; [done|]. intros (x & -> & Hx)%list_elem_of_fmap.
  apply list_elem_of_filter in Hx as [Hxk Hx]. rewrite <- fmap_app, <- filter_app in Hrin.
  apply list_elem_of_fmap in Hrin as (y & Exy & Hy). apply list_elem_of_filter in Hy as [Hyk Hy].
  assert (x ∈ H1 ++ a :: H2) as Hxi by (apply elem_of_app; by left).
  assert (y ∈ H1 ++ a :: H2) as Hyi by (rewrite <- Permutation_middle; by right).
  pose proof (rep_page _ _ _ Hr Hxi) as [(p & Hp & _ & Hpt & _) _ _ _ _]. pose proof (rep_page _ _ _ Hr Hyi) as [(p' & Hp' & _ & Hpt' & _) _ _ _ _].
  rewrite Exy in Hp. congruence.
Qed.

(** The page an address lies on is found, whatever precedes it on the list. *)
Definition on_page (ptr : Z) (a : apage) : Prop := a.(ap_addr) ≤ ptr < a.(ap_addr) + PAGE_SIZE.

#[export] Instance on_page_dec ptr a : Decision (on_page ptr a).
Proof. unfold on_page. apply _. Defined.

Lemma find_owner_ret s ptr L cur fuel :
  pchain next_all s.(pagerefs) cur (ap_ref <$> L) →
  (∀ a, a ∈ L → apage_ok s.(pagerefs) (kp_peek s.(pages)) a ∧ 0 ≤ a.(ap_addr) ∧ a.(ap_addr) + PAGE_SIZE < W32) →
  (length L < fuel)%nat →
  (∃ L1 a L2, L = L1 ++ a :: L2 ∧ on_page ptr a ∧ find_owner fuel ptr cur s = Ret (Some a.(ap_ref)) s) ∨
  (∀ a, a ∈ L → ¬ on_page ptr a) ∧ find_owner fuel ptr cur s = Ret None s.
Proof.
  revert cur fuel. induction L as [|a L IH]; intros cur fuel Hc Hok Hf; (destruct fuel as [|fuel]; [simpl in Hf; lia|]).
  - right. simpl in Hc. subst cur. split; [by intros a Ha%elem_of_nil|done].
  - destruct Hc as (-> & p & Hp & Hc). destruct (Hok a ltac:(left)) as ([(q & Hq & Hpa & Hbt & _) Ht _ _ _] & Hlo & Hhi).
    rewrite Hp in Hq. injection Hq as <-. cbn [find_owner]. rewrite (bind_Ret _ _ _ _ _ (pr_at_ret _ _ _ Hp)), Hbt, Hpa.
    assert ((ap_type a >=? 0) && (ap_type a <? NSIZES) = true) as -> by (apply andb_true_iff; rewrite Z.geb_leb, Z.leb_le, Z.ltb_lt; lia).
    mrun. rewrite u32_small by (unfold PAGE_SIZE in *; lia).
    destruct (decide (on_page ptr a)) as [Hon|Hoff].
    + left. exists [], a, L. split; [done|]. split; [done|]. unfold on_page in Hon.
      by rewrite Z.geb_leb, (proj2 (Z.leb_le _ _)), (proj2 (Z.ltb_lt _ _)) by lia.
    + replace ((ptr >=? ap_addr a) && (ptr <? ap_addr a + PAGE_SIZE)) with false
        by (unfold on_page in Hoff; destruct (Z.geb_spec ptr (ap_addr a)), (Z.ltb_spec ptr (ap_addr a + PAGE_SIZE)); simpl; done || lia).
      destruct (IH (next_all p) fuel Hc) as [(L1 & a' & L2 & -> & Hon & E)|[Hno E]].
      * intros; apply Hok; by right.
      * simpl in Hf; lia.
      * left. exists (a :: L1), a', L2. split; [done|by split].
      * right. split; [|done]. intros x [->|Hx]%elem_of_cons; [done|by apply Hno].
Qed.

Lemma fill_deadbeef_wp s page ptr n :
  kp_inv s.(pages) → kp_owned s.(pages) page → page ≤ ptr → ptr + n ≤ page + PAGE_SIZE → ptr mod 4 = 0 → 0 ≤ n →
  wp (fill_deadbeef ptr n) (λ _ s', mem_step ptr (ptr + n) s s') s.
Proof.
  intros Hi Ho Hlo Hhi Hm Hn. destruct (owned_bounds _ _ Hi Ho) as (Hpm & Hplo & Hphi). unfold PAGE_SIZE in *.
  apply (wp_for_up (λ _ s', mem_step ptr (ptr + n) s s')); [by apply mem_step_refl| |done].
  intros j s1 Hj M1. pose proof M1 as (_ & I1 & O1 & _).
  destruct (wr_step s1 page ptr (ptr + n) (u32 (ptr + 4 * j)) 0xdeadbeef) as (s2 & E & M2 & _);
    rewrite ?u32_small in * by (unfold W32; lia); try done; try lia; [by apply O1|unfold PAGE_SIZE; lia|].
  eapply wp_intro; [exact E|]. by eapply mem_step_trans.
Qed.

Lemma freepageref_ret s r : words_ok s.(pagerefs_inuse) → 0 ≤ r < NPAGEREFS → inuse_bit s.(pagerefs_inuse) r = true →
  ∃ l, freepageref r s = Ret tt (set_inuse l s) ∧ words_ok l ∧
    ∀ y, 0 ≤ y → inuse_bit l y = inuse_bit s.(pagerefs_inuse) y && negb (y =? r).
Proof.
  intros Hw Hr Hb. pose proof Hw as [Hl Hwd]. unfold NPAGEREFS, PAGE_SIZE in *.
  destruct (zlookup_is_Some s.(pagerefs_inuse) (r / 32)) as [w Hz]; [lia|].
  unfold inuse_bit in Hb. rewrite Hz in Hb. simpl in Hb. eexists. split; [|split].
  - unfold freepageref. unfold NPAGEREFS, PAGE_SIZE. rewrite (proj2 (Z.ltb_lt _ _)) by lia. mrun. rewrite get_bind, Hz. mrun.
    rewrite land_mask, Hb by lia. rewrite (proj2 (Z.eqb_neq _ 0)) by (pose proof (Z.pow_pos_nonneg 2 (r mod 32)); lia). mrun.
    unfold inuse_put. rewrite get_bind. rewrite zupd_Some by lia. reflexivity.
  - apply words_ok_put; [done|]. apply land_bound. by apply (Hwd _ _ Hz).
  - intros y Hy. rewrite inuse_bit_clear with (w := w) by (done || lia). f_equal. f_equal. f_equal. lia.
Qed.

(** At most [nblocks] blocks are free, and then all of them are. *)
Lemma free_count k l : 0 ≤ k < NSIZES → NoDup l → Forall (block_at k) l →
  Z.of_nat (length l) ≤ nblocks k ∧ (Z.of_nat (length l) = nblocks k → ∀ o, block_at k o → o ∈ l).
Proof.
  intros Hk Hnd Hbl. destruct (nblocks_bounds k Hk) as [Hn _]. destruct (bsize_div k Hk) as (Hz & _).
  set (d := down (Z.to_nat (nblocks k)) (bsize k)).
  assert (∀ o, block_at k o → o ∈ d) as Hd.
  { intros o Ho. destruct (decide (o ∈ d)) as [|Hnot]; [done|]. exfalso.
    assert (live [APage 0 0 k d] o (bsize k)) as Hl by (exists (APage 0 0 k d), o; split_and!; [left|done|simpl; lia|done|done]).
    apply live_fresh in Hl; [|done]. destruct Hl as (a & _ & Ha & _). by apply elem_of_nil in Ha. }
  assert (l ⊆+ d) as Hs.
  { apply NoDup_submseteq; [done|]. intros o Ho. eapply Forall_forall in Ho; [|exact Hbl]. by apply Hd. }
  pose proof (submseteq_length _ _ Hs) as Hlen. unfold d in Hlen. rewrite down_length in Hlen. split; [lia|].
  intros E o Ho. assert (l ≡ₚ d) as ->; [|by apply Hd]. apply submseteq_length_Permutation; [done|].
  unfold d. rewrite down_length. lia.
Qed.

(** What freeing the block [(b, n)] promises. *)
Definition releases H s (b n : Z) s' : Prop :=
  ∃ H', heap_rep s' H' ∧ unlocked s' ∧
    (∀ c m, live H' c m ↔ live H c m ∧ ¬ (c = b ∧ m = n)) ∧
    ∀ c m x, live H' c m → x mod 4 = 0 → c ≤ x < c + m → kp_peek s'.(pages) x = kp_peek s.(pages) x.

(** Giving a block back to its page kills exactly that block. *)
Lemma live_give r pa k o l H1 H2 b n :
  NoDup (pa :: (ap_addr <$> H1 ++ H2)) → (∀ a, a ∈ H1 ++ H2 → a.(ap_addr) mod 4096 = 0 ∧ 0 ≤ a.(ap_type) < NSIZES) →
  pa mod 4096 = 0 → o ∉ l → block_at k o →
  live (H1 ++ APage r pa k (o :: l) :: H2) b n ↔
  live (H1 ++ APage r pa k l :: H2) b n ∧ ¬ (b = pa + o ∧ n = bsize k).
Proof.
  intros Hnd Hal Hpa Hno Ho. rewrite !live_middle, !live_cons; simpl. split.
  - intros [(x & -> & -> & Hx & Hl)|Hl]; [apply not_elem_of_cons in Hl as [Hne Hl]|].
    + split; [left; eauto|]. intros [E _]. apply Hne. lia.
    + split; [by right|]. intros [-> ->]. destruct Hl as (a & o' & Ha & _ & E & Ho' & _).
      destruct (Hal a Ha) as [Ha1 _]. pose proof (proj1 Ho). pose proof (proj1 Ho'). apply NoDup_cons in Hnd as [Hnd _].
      apply Hnd. replace pa with a.(ap_addr) by (unfold PAGE_SIZE in *; lia). by apply list_elem_of_fmap_2.
  - intros [[(x & -> & -> & Hx & Hl)|Hl] Hne]; [left|by right]. exists x. split_and!; try done.
    apply not_elem_of_cons. split; [|done]. intros ->. by apply Hne.
Qed.

Lemma live_full r pa k l H1 H2 b n :
  (∀ o, block_at k o → o ∈ l) → live (H1 ++ APage r pa k l :: H2) b n ↔ live (H1 ++ H2) b n.
Proof.
  intros Hl. rewrite live_middle, live_cons; simpl. split; [|by right].
  intros [(o & _ & _ & Ho & Hno)|]; [|done]. exfalso. by apply Hno, Hl.
Qed.

(** The last part of [subpage_kfree]: the page, now with [l] free, goes if all of it is. *)
Lemma retire_page_wp s H1 a H2 b n (s0 : kheap P) H :
  heap_rep s (H1 ++ a :: H2) → s.(kmalloc_spinlock) = Spinlock 1 mycpu →
  (∀ c m, live (H1 ++ a :: H2) c m ↔ live H c m ∧ ¬ (c = b ∧ m = n)) →
  (∀ c m x, live (H1 ++ a :: H2) c m → x mod 4 = 0 → c ≤ x < c + m → kp_peek s.(pages) x = kp_peek s0.(pages) x) →
  wp ((if Z.of_nat (length a.(ap_free)) =? PAGE_SIZE / bsize a.(ap_type) then
         remove_lists a.(ap_ref) a.(ap_type);;
         freepageref a.(ap_ref);;
         km_unlock mycpu;;
         kp_call (kp_free a.(ap_addr))
       else km_unlock mycpu);; mret 0) (λ r s', r = 0 ∧ releases H s0 b n s') s.
Proof.
  intros Hr Hl Hlive Hmem. assert (a ∈ H1 ++ a :: H2) as Ha by (apply elem_of_app; right; left).
  pose proof (rep_page _ _ _ Hr Ha) as [_ Ht Hnd Hbl _].
  assert (a.(ap_ref) ∈ ap_ref <$> H1 ++ a :: H2) as Hin by (by apply list_elem_of_fmap_2).
  destruct (Z.eqb_spec (Z.of_nat (length a.(ap_free))) (PAGE_SIZE / bsize a.(ap_type))) as [E|E].
  - apply wp_bind. apply wp_bind. eapply wp_mono; [|by apply remove_lists_wp].
    intros [] s1 (prs & sb & ab & -> & L1 & L3 & Hcore & Hall & Hsz).
    destruct (freepageref_ret (set_allbase ab (set_sizebases sb (set_pagerefs prs s))) a.(ap_ref)) as (l & Ef & Hw & Hbits).
    { exact (rep_words _ _ Hr). } { by apply (hr_range _ _ Hr). } { simpl. apply (hr_inuse _ _ Hr); [by apply (hr_range _ _ Hr)|done]. }
    eapply wp_run; [exact Ef|]. eapply wp_run; [by apply km_unlock_ret|]. apply wp_zoom. simpl.
    eapply wp_mono; [|apply kp_free_law; [apply Hr|by apply Hr]]. intros [] p' (Hi' & Hold). apply wp_ret. split; [done|].
    assert (∀ c, c ∈ H1 ++ H2 → kp_owned p' c.(ap_addr) ∧ same_page s.(pages) p' c.(ap_addr)) as Hsame.
    { intros c Hc. destruct (rep_apart _ _ _ _ c Hr Hc) as [_ Hap]. apply Hold; [unfold PAGE_SIZE in *; lia|].
      apply (hr_owned _ _ Hr). rewrite <- Permutation_middle. by right. }
    destruct a as [ra pa k lf]; simpl in *.
    assert (∀ c m, live (H1 ++ H2) c m ↔ live H c m ∧ ¬ (c = b ∧ m = n)) as Hlive'.
    { intros c m. rewrite <- Hlive. symmetry. apply live_full. by apply free_count. }
    exists (H1 ++ H2). set (s' := set_pages p' _).
    assert (heap_rep s' (H1 ++ H2)) as Hr' by (eapply (rep_remove s s'); by eauto).
    split_and!; [done|done|done|]. intros c m x Hc Hx Hcx. change (pages s') with p'.
    destruct (live_page s' _ c m Hr' Hc) as (d & Hd & _ & _ & _ & Hd1 & Hd2 & _).
    rewrite (proj2 (Hsame d Hd)) by (done || lia). apply (Hmem c m); [|done..]. by apply Hlive, Hlive'.
  - apply wp_bind. eapply wp_intro; [by apply km_unlock_ret|]. apply wp_ret. split; [done|].
    exists (H1 ++ a :: H2). split_and!; [by apply rep_lock|done|done|exact Hmem].
Qed.

(** The block goes on the free list of its page. *)
Lemma give_block_wp s H1 a H2 b n (s0 : kheap P) :
  heap_rep s (H1 ++ a :: H2) → s.(kmalloc_spinlock) = Spinlock 1 mycpu → s.(pages) = s0.(pages) →
  n = bsize a.(ap_type) → block_at a.(ap_type) (b - a.(ap_addr)) → b - a.(ap_addr) ∉ a.(ap_free) →
  wp (p ← pr_at a.(ap_ref);
      let prpage := PR_PAGEADDR p in
      let blktype := PR_BLOCKTYPE p in
      size ← of_opt (zlookup sizes blktype);
      let offset := u32 (b - prpage) in
      (if (offset >=? PAGE_SIZE) || negb (offset mod size =? 0) then panic else mret tt);;
      fill_deadbeef b size;;
      let fla := u32 (prpage + offset) in
      wr fla (if p.(freelist_offset) =? INVALID_OFFSET then 0 else u32 (prpage + p.(freelist_offset)));;
      let n := u16 (p.(nfree) + 1) in
      pr_put a.(ap_ref) (set_free (u16 offset) n);;
      kassert (n <=? PAGE_SIZE / size);;
      (if n =? PAGE_SIZE / size then
         remove_lists a.(ap_ref) blktype;;
         freepageref a.(ap_ref);;
         km_unlock mycpu;;
         kp_call (kp_free prpage)
       else km_unlock mycpu);;
      mret 0) (λ r s', r = 0 ∧ releases (H1 ++ a :: H2) s0 b n s') s.
Proof.
  intros Hr Hl Ep En Ho Hnf. assert (a ∈ H1 ++ a :: H2) as Ha by (apply elem_of_app; right; left).
  pose proof (rep_page _ _ _ Hr Ha) as [(p & Hp & Hpa & Hbt & Hn & Hoff) Ht Hnd Hbl Hch].
  destruct (rep_aligned _ _ _ Hr Ha) as (Hm & Hlo & Hhi). destruct (bsize_cases _ Ht) as [Hz _].
  destruct (block_end _ _ Ht Ho) as [He H16]. pose proof (proj1 Ho) as Hor. pose proof (proj2 Ho) as Hom.
  destruct (bsize_div _ Ht) as (Hbs & _). set (o := b - a.(ap_addr)) in *. rewrite <- En in *.
  set (l := o :: a.(ap_free)). assert (NoDup l) as Hndl by (by constructor).
  assert (Forall (block_at a.(ap_type)) l) as Hbll by (by constructor).
  destruct (free_count _ l Ht Hndl Hbll) as [Hcnt _]. unfold nblocks in Hcnt. rewrite <- En in Hcnt.
  destruct (nblocks_bounds _ Ht) as [Hnb _]. unfold nblocks in Hnb. rewrite <- En in Hnb.
  eapply wp_run; [by apply pr_at_ret|]. cbv zeta. rewrite Hpa, Hbt. eapply wp_of_opt; [exact Hz|].
  fold o. unfold PAGE_SIZE in Hor. rewrite (u32_small o) by (unfold W32; lia).
  assert ((o >=? PAGE_SIZE) || negb (o mod n =? 0) = false) as ->.
  { rewrite Hom, Z.geb_leb, (proj2 (Z.leb_gt _ _)) by (unfold PAGE_SIZE; lia). done. }
  apply wp_bind, wp_ret, wp_bind. assert (a.(ap_addr) + o = b) as Eb by (unfold o; lia).
  eapply wp_mono; [|apply (fill_deadbeef_wp s a.(ap_addr) b n); [apply Hr|by apply Hr|unfold PAGE_SIZE in *; lia..]].
  intros [] s2 M2. pose proof M2 as (E2 & I2 & O2 & X2). rewrite Eb, (u32_small b) by (unfold W32; lia).
  set (v := if freelist_offset p =? INVALID_OFFSET then 0 else _).
  assert (v = fl_head a.(ap_addr) a.(ap_free) ∧ 0 ≤ v < W32) as [Ev Hv].
  { unfold v. rewrite Hoff. destruct (ap_free a) as [|o' l'] eqn:Ef; [done|]. apply Forall_cons in Hbl as [[Ho' _] _].
    unfold INVALID_OFFSET, PAGE_SIZE in *. rewrite (proj2 (Z.eqb_neq _ _)), u32_small by (unfold W32; lia). simpl. unfold W32. lia. }
  destruct (wr_step s2 a.(ap_addr) b (b + n) b v) as (s3 & E3 & M3 & X3); try done; try (unfold PAGE_SIZE; lia); [by apply O2, Hr|].
  eapply wp_run; [exact E3|]. pose proof (mem_step_trans _ _ _ _ _ M2 M3) as (E23 & I3 & O3 & X23).
  set (q := s3.(pages)) in *. clearbody q. clear E3 M3. subst s3.
  replace (u16 o) with o by (unfold u16; lia).
  assert (Z.of_nat (length l) = nfree p + 1) as Hll by (rewrite Hn; unfold l; cbn [length]; lia).
  replace (u16 (nfree p + 1)) with (Z.of_nat (length l)) by (unfold u16; lia).
  eapply wp_run; [by apply (pr_put_ret (set_pages q s))|]. apply wp_kassert; [apply Z.leb_le; lia|].
  assert (∀ c, c ∈ H1 ++ H2 → same_page s.(pages) q c.(ap_addr)) as Hsame.
  { intros c Hc x Hx Hcx. destruct (rep_apart _ _ _ _ c Hr Hc) as [_ Hap]. apply X23; [done|]. unfold PAGE_SIZE in *. lia. }
  set (s4 := set_pagerefs _ (set_pages q s)).
  assert (heap_rep s4 (H1 ++ APage a.(ap_ref) a.(ap_addr) a.(ap_type) l :: H2)) as Hr4.
  { eapply (rep_update s s4 H1 a H2 p o l); try done; [|intros c; by apply O3]. split.
    - simpl. rewrite X3, Eb, Z.eqb_refl by lia. done.
    - eapply fl_chain_ext; [|exact Hch]. intros o' Ho'. assert (o ≠ o') by (by intros ->).
      eapply Forall_forall in Ho'; [|exact Hbl]. destruct (block_end _ _ Ht Ho') as [_ H16'].
      destruct (blocks_disjoint _ o o' Ht Ho Ho') as [Hd|Hd]; [done|..]; rewrite <- En in Hd; apply X23; lia. }
  change a.(ap_ref) with (APage a.(ap_ref) a.(ap_addr) a.(ap_type) l).(ap_ref).
  rewrite En in *. apply (retire_page_wp s4 H1 (APage a.(ap_ref) a.(ap_addr) a.(ap_type) l) H2); try done.
  - intros c m. pose proof (hr_addrs _ _ Hr) as Hna. rewrite <- Permutation_middle, fmap_cons in Hna. rewrite <- Eb.
    destruct a as [ra pa k la]. simpl in *. apply live_give; try done.
    intros x Hx. assert (x ∈ H1 ++ APage ra pa k la :: H2) as Hx' by (rewrite <- Permutation_middle; by right).
    split; [by apply (rep_aligned _ _ _ Hr Hx')|apply (ok_type _ _ _ (rep_page _ _ _ Hr Hx'))].
  - intros c m x Hc Hx Hcx. rewrite <- Ep. simpl. apply X23; [done|].
    destruct (free_disjoint s4 _ (APage a.(ap_ref) a.(ap_addr) a.(ap_type) l) o c m Hr4); simpl in *; try done; try lia.
    + apply elem_of_app. right. left.
    + left.
Qed.

Lemma subpage_kfree_wp s H b n :
  heap_rep s H → unlocked s → live H b n →
  wp (subpage_kfree mycpu b) (λ r s', r = 0 ∧ releases H s b n s') s.
Proof.
  intros Hr Hu Hb. destruct (live_page _ _ _ _ Hr Hb) as (a & Ha & En & Ht & Ho & Hb1 & Hb2 & Hnf).
  unfold subpage_kfree. eapply wp_run; [by apply km_lock_ret|]. apply wp_get. set (s1 := set_kmlock _ s).
  assert (heap_rep s1 H) as Hr1 by by apply rep_lock.
  destruct (bsize_div _ Ht) as (Hz & _ & _ & _). rewrite <- En in Hz.
  destruct (find_owner_ret s1 b H s1.(allbase) list_fuel (hr_all _ _ Hr1)) as [(L1 & a' & L2 & EL & Hon & E)|[Hno _]].
  { intros c Hc. split; [by eapply rep_page|]. destruct (rep_aligned _ _ c Hr Hc) as (_ & ? & ?). unfold PAGE_SIZE, W32. lia. }
  { pose proof (rep_length _ _ Hr). change list_fuel with 257%nat. lia. }
  2:{ destruct (Hno a Ha). unfold on_page. lia. }
  assert (a' = a) as ->.
  { subst H. destruct (decide (a = a')) as [|Hne]; [done|]. exfalso. rewrite <- Permutation_middle in Ha.
    apply elem_of_cons in Ha as [|Ha]; [congruence|]. destruct (rep_apart _ _ _ _ a Hr Ha) as [_ Hap].
    unfold on_page in Hon. lia. }
  subst H. eapply wp_run; [exact E|]. by apply (give_block_wp s1 L1 a L2 b n s).
Qed.
End free.

(** ** What the heap promises *)

Section promises.
Context {P : Type} `{!KPages P} `{!KPagesLaws P} (mycpu : option nat).
Implicit Types (s : kheap P) (H : list apage).

(** C26. Allocation of less than 2048 bytes in a consistent heap.  If a block of the
    size for the request is free, or the page allocator has a page, the request
    returns, and leaves the heap consistent with every word of every live block as
    it was.  The result is NULL, with the live blocks the same, exactly when no such
    block is free and the page allocator answers NULL or all 256 page references
    are in use.  Otherwise it is an aligned block of a size that fits the request
    (at least [sz], and less than twice [sz] or 16), which overlaps no live block and
    is the only block that becomes live.  With no such block and no page the request
    does not come back. *)
Theorem kmalloc_fresh_block (sz : Z) s H :
  heap_rep s H → unlocked s → 0 ≤ sz < LARGEST_SUBPAGE_SIZE →
  ((no_fit sz H → kp_ready s.(pages)) → wp (kmalloc mycpu sz) (allocates sz H s) s) ∧
  (no_fit sz H → ¬ kp_ready s.(pages) → ∀ a s', kmalloc mycpu sz s ≠ Ret a s').
Proof.
  intros Hr Hu Hsz. unfold kmalloc. unfold LARGEST_SUBPAGE_SIZE in *. destruct (Z.geb_spec sz 2048); [lia|]. split.
  - intros Hrd. apply subpage_kmalloc_wp; try done. lia.
  - intros Hn Hrd a s'. apply (subpage_kmalloc_stuck mycpu sz s H); (done || lia).
Qed.

(** C27. Freeing: giving back a live block returns, kills exactly that block, and
    leaves the heap consistent and every word of every other live block as it
    was. *)
Theorem kfree_releases_block s H (b n : Z) :
  heap_rep s H → unlocked s → live H b n → wp (kfree mycpu b) (λ _ s', releases H s b n s') s.
Proof.
  intros Hr Hu Hb. destruct (live_page _ _ _ _ Hr Hb) as (a & Ha & _ & _ & _ & Hb1 & _ & _).
  destruct (rep_aligned _ _ a Hr Ha) as (_ & Hlo & _). unfold kfree. rewrite (proj2 (Z.eqb_neq b 0)) by lia.
  apply wp_bind. eapply wp_mono; [|by apply subpage_kfree_wp]. intros r s' [-> Hs']. by apply wp_ret.
Qed.
End promises.

(** ** The coremap as the source of pages

    The words of kernel memory are the bytes of physical memory at the same place
    below MIPS_KSEG0, most significant first. *)

Section coremap.
Context (cpu : nat).

Definition peek32 (p : pmm) (a : Z) : Z := word_at p.(pmem) (a - MIPS_KSEG0).
Definition poke32 (a v : Z) (p : pmm) : pmm := set_pmem (word_put p.(pmem) (a - MIPS_KSEG0) v) p.

(** The page at virtual address [a] is a frame handed out by itself. *)
Definition frame_owned (p : pmm) (a : Z) : Prop :=
  ∃ k c, zlookup p.(coremaps) k = Some c ∧ c.(f_state) = USED ∧ c.(f_page_num) = 1 ∧
    a = p.(page_start) + k * PAGE_SIZE + MIPS_KSEG0 ∧ p.(page_start) + (k + 1) * PAGE_SIZE ≤ p.(ramtop).

(** [ram_bootstrap] never takes more than 508 megabytes. *)
Definition MAXRAM : Z := 508 * 1024 * 1024.

#[export] Instance coremap_pages : KPages pmm := {
  kp_alloc n := alloc_kpages (Some cpu) n;
  kp_free a := free_kpages (Some cpu) a;
  kp_peek := peek32;
  kp_poke := poke32;
  kp_inv p := cm_wf p ∧ p.(ramtop) ≤ MAXRAM;
  kp_owned := frame_owned;
  kp_ready p := ∃ k, free_at p.(coremaps) k 1;
  kp_refused p := ∃ k, first_free p.(coremaps) k 1 ∧ p.(paddr_max) - 4096 ≤ p.(page_start) + k * PAGE_SIZE;
}.

Lemma freed_wf s k m : cm_wf s → cm_wf (set_pmem m (set_coremaps (freed s.(coremaps) k 1) s)).
Proof.
  intros [H1 H2 H3 H4 H5 H6 H7 H8 H9]. split; simpl; try done.
  - unfold freed. by rewrite length_imap.
  - intros i c. rewrite zlookup_freed. destruct (zlookup s.(coremaps) i) as [c'|] eqn:E; [|done]. intros [= <-].
    rewrite <- (H2 i c' E). by destruct (_ && _).
  - intros i c. rewrite zlookup_freed. destruct (zlookup s.(coremaps) i) as [c'|] eqn:E; [|done]. intros [= <-].
    destruct (_ && _); [done|]. intros Hf. by apply (H6 i).
Qed.

Lemma peek32_same (p p' : pmm) b :
  (∀ x, b ≤ x < b + PAGE_SIZE → p'.(pmem) (x - MIPS_KSEG0) = p.(pmem) (x - MIPS_KSEG0)) →
  b mod 4 = 0 → same_page p p' b.
Proof.
  intros Hx Hb x Hm Hin. apply word_at_ext. intros y Hy. unfold PAGE_SIZE in *.
  replace y with (y + MIPS_KSEG0 - MIPS_KSEG0) by lia. apply Hx. lia.
Qed.

(** If a frame is free there is a lowest one. *)
Lemma lowest_free (l : list frame) : (∃ k, free_at l k 1) → ∃ k, first_free l k 1.
Proof.
  assert (∀ j, free_at l j 1 ↔ 0 ≤ j ∧ f_state <$> zlookup l j = Some FREE) as Hf.
  { intros j. unfold free_at. split; intros [Hj H]; (split; [done|]).
    - destruct (H j) as (c & -> & Hc); [lia|]. simpl. by rewrite Hc.
    - intros i Hi. replace i with j by lia. destruct (zlookup l j) as [c|]; simplify_eq/=. by exists c. }
  intros [k Hk]. pose proof (proj1 Hk) as Hk0. assert (∀ n : nat, (∃ j, first_free l j 1) ∨ ∀ j, j < Z.of_nat n → ¬ free_at l j 1) as Hn.
  { induction n as [|n [IH|IH]]; [right; intros j Hj [? _]; lia|by left|].
    destruct (decide (f_state <$> zlookup l (Z.of_nat n) = Some FREE)) as [Hd|Hd].
    - left. exists (Z.of_nat n). split; [apply Hf; split; [lia|done]|done].
    - right. intros j Hj. destruct (decide (j = Z.of_nat n)) as [->|]; [rewrite Hf; tauto|apply IH; lia]. }
  destruct (Hn (S (Z.to_nat k))) as [|Hno]; [done|]. destruct (Hno k); [lia|done].
Qed.

Lemma alloc_kpages_stuck p : kp_inv p → ¬ kp_ready p → ∀ a p', kp_alloc 1 p ≠ Ret a p'.
Proof.
  intros [Hwf _] Hn a p'. unfold kp_alloc; simpl. unfold alloc_kpages, mbind, M_bind.
  rewrite getppages_none by (done || lia || (intros k Hk; apply Hn; by exists k)). by destruct (_ =? -1).
Qed.

Lemma alloc_kpages_one p : kp_inv p → kp_ready p →
  wp (kp_alloc 1) (λ a p', kp_inv p' ∧
      (∀ b, kp_owned p b → kp_owned p' b ∧ same_page p p' b) ∧ 
      (a = 0 ∧ kp_refused p ∨ ¬ kp_refused p ∧ ¬ kp_owned p a ∧ kp_owned p' a)) p.
Proof.
  intros [Hwf Hram] [k Hk]%lowest_free. unfold kp_alloc; simpl. unfold alloc_kpages.
  pose proof (getppages_ret cpu 1 KERNEL p k Hwf ltac:(lia) Hk) as E. eapply wp_run; [exact E|]. clear E.
  destruct (first_free_bounds p k 1 ltac:(lia) (proj1 Hk)) as [Hk0 Hkl].
  destruct (proj2 (proj1 Hk) k ltac:(lia)) as (f & Hfk & Hfs).
  pose proof (gave_wf p k 1 KERNEL Hwf ltac:(lia) (proj1 Hk)) as Hwf'.
  pose proof (wf_start _ Hwf) as [Hst Hal]. pose proof (wf_max _ Hwf) as [Hmx _].
  assert (∀ i, zlookup (gave p k 1 KERNEL).(coremaps) i =
    if decide (i = k) then Some (Frame f.(f_pa) USED KERNEL 1) else zlookup p.(coremaps) i) as Hlk.
  { intros i. simpl. unfold allocated. rewrite zlookup_marked. case_decide as Hi.
    - subst i. rewrite Hfk. simpl. zbool.
    - destruct (zlookup p.(coremaps) i); simpl; zbool. }
  assert (∀ b, frame_owned p b → frame_owned (gave p k 1 KERNEL) b ∧ same_page p (gave p k 1 KERNEL) b) as Hold.
  { intros b (i & c & Hi & Hu & Hn & -> & Hle). split; [|apply peek32_same; [done|unfold PAGE_SIZE, MIPS_KSEG0 in *; lia]].
    exists i, c. rewrite Hlk. case_decide; [congruence|]. done. }
  assert (kp_inv (gave p k 1 KERNEL)) as Hinv by done.
  cbv zeta. destruct (Z.geb_spec (p.(page_start) + k * PAGE_SIZE) (p.(paddr_max) - 4096)) as [|Hlt].
  { apply wp_ret. split; [done|]. split; [done|]. left. split; [done|]. by exists k. }
  rewrite (proj2 (Z.eqb_neq _ 0)) by (unfold PAGE_SIZE in *; lia). apply wp_ret. split; [done|]. split; [done|]. right.
  unfold PADDR_TO_KVADDR. rewrite u32_small by (unfold W32, MAXRAM, PAGE_SIZE, MIPS_KSEG0 in *; lia). split; [|split].
  - intros (k' & Hk' & Hle). assert (k' = k) as ->; [|lia]. destruct Hk as [Hk1 Hk2], Hk' as [Hk3 Hk4].
    destruct (Z.lt_trichotomy k' k) as [Hl|[|Hl]]; [by destruct (Hk2 k')|done|by destruct (Hk4 k)].
  - intros (i & c & Hi & Hu & _ & E & _). assert (i = k) as -> by (unfold PAGE_SIZE in *; lia). congruence.
  - exists k. eexists. rewrite Hlk, decide_True by done. split_and!; try done. simpl. unfold PAGE_SIZE in *. lia.
Qed.

Lemma free_kpages_one p a : kp_inv p → kp_owned p a →
  wp (kp_free a) (λ _ p', kp_inv p' ∧ ∀ b, b ≠ a → kp_owned p b → kp_owned p' b ∧ same_page p p' b) p.
Proof.
  intros [Hwf Hram] (k & c & Hk & Hu & Hn & -> & Hle). pose proof (zlookup_Some_lt _ _ _ Hk).
  pose proof (wf_start _ Hwf) as [Hst Hal]. pose proof (wf_len _ Hwf).
  destruct (freeppages_ret cpu p k 1 c Hwf Hk Hn) as (m & E & Hm); [lia..|].
  unfold kp_free; simpl. unfold free_kpages.
  replace (p.(page_start) + k * PAGE_SIZE + MIPS_KSEG0 - 0x80000000) with (p.(page_start) + k * PAGE_SIZE) by (unfold MIPS_KSEG0; lia).
  rewrite u32_small by (unfold W32, MAXRAM, PAGE_SIZE in *; lia). eapply wp_intro; [exact E|].
  split; [split; [by apply freed_wf|done]|]. intros b Hb (i & f & Hi & Hfu & Hfn & -> & Hfl).
  assert (i ≠ k) as Hik by (intros ->; done). split.
  - exists i, f. simpl. rewrite zlookup_freed, Hi. simpl. split_and!; try done. f_equal. zbool.
  - apply peek32_same; [|unfold PAGE_SIZE, MIPS_KSEG0 in *; lia]. intros x Hx. simpl. rewrite Hm. unfold zeroed. unfold PAGE_SIZE in *. zbool.
Qed.

Lemma poke32_law p a b v : kp_inv p → kp_owned p b → b ≤ a < b + PAGE_SIZE → a mod 4 = 0 → 0 ≤ v < W32 →
  kp_inv (kp_poke a v p) ∧ (∀ c, kp_owned p c ↔ kp_owned (kp_poke a v p) c) ∧
  ∀ x, x mod 4 = 0 → kp_peek (kp_poke a v p) x = if x =? a then v else kp_peek p x.
Proof.
  intros [Hwf Hram] _ _ Ha Hv. split; [split; [by destruct Hwf|done]|]. split; [done|].
  intros x Hx. unfold kp_peek, kp_poke; simpl. unfold peek32, poke32; simpl.
  destruct (Z.eqb_spec x a) as [-> |Hne]; [by apply word_at_put|].
  apply word_at_ext. intros y Hy. apply word_put_other. unfold MIPS_KSEG0 in *. lia.
Qed.

#[export] Instance coremap_pages_laws : KPagesLaws pmm.
Proof.
  split; [|exact alloc_kpages_one|exact alloc_kpages_stuck|exact free_kpages_one|exact poke32_law].
  intros p a [Hwf Hram] (k & c & Hk & _ & _ & -> & Hle). pose proof (zlookup_Some_lt _ _ _ Hk).
  pose proof (wf_start _ Hwf) as [Hst Hal]. unfold PAGE_SIZE, MIPS_KSEG0, MAXRAM in *. lia.
Qed.
End coremap.

(** ** Examples: the heap at boot, over eight free frames *)

Definition example_heap : kheap pmm :=
  Kheap (replicate 256 (Pageref None None 0 0 0)) (replicate 8 0) (replicate 8 None) None
    SPINLOCK_INITIALIZER example_pmm.

Lemma zlookup_replicate_inv {A} n (x y : A) i : zlookup (replicate n x) i = Some y → y = x.
Proof. unfold zlookup. destruct (0 <=? i); [|done]. intros Hy. by apply lookup_replicate in Hy as [-> _]. Qed.

Lemma example_heap_rep : @heap_rep pmm (coremap_pages 0) example_heap [].
Proof.
  split; try done.
  - intros i w Hw. by apply (zlookup_replicate_inv 8 0) in Hw as ->.
  - intros r Hr. split; [|by intros ?%elem_of_nil]. unfold inuse_bit.
    destruct (zlookup _ _) as [w|] eqn:E; simpl; [|by rewrite Z.bits_0].
    apply (zlookup_replicate_inv 8 0) in E as ->. by rewrite Z.bits_0.
  - intros r Hr. by apply elem_of_nil in Hr.
  - constructor.
  - constructor.
  - intros k b Hb. by apply (zlookup_replicate_inv 8 None) in Hb as ->.
  - intros a Ha. by apply elem_of_nil in Ha.
  - split; [apply example_wf|done].
Qed.

Lemma example_ready : @kp_ready pmm (coremap_pages 0) example_pmm.
Proof. exists 0. apply example_first. lia. Qed.

Lemma kmalloc_fresh_block_witness :
  @wp _ _ (@kmalloc pmm (coremap_pages 0) (Some 0%nat) 100) (@allocates pmm (coremap_pages 0) 100 [] example_heap) example_heap.
Proof.
  apply (@kmalloc_fresh_block pmm (coremap_pages 0) (coremap_pages_laws 0) (Some 0%nat) 100 example_heap []).
  - exact example_heap_rep.
  - reflexivity.
  - unfold LARGEST_SUBPAGE_SIZE. lia.
  - intros _. exact example_ready.
Defined.

(** The block handed out first is given back. *)
Lemma kfree_releases_block_witness :
  @wp _ _ (@kmalloc pmm (coremap_pages 0) (Some 0%nat) 100)
    (λ a s, a = 0 ∨ ∃ H n, @wp _ _ (@kfree pmm (coremap_pages 0) (Some 0%nat) a)
       (λ _ s', @releases pmm (coremap_pages 0) H s a n s') s) example_heap.
Proof.
  apply (wp_mono _ (@allocates pmm (coremap_pages 0) 100 [] example_heap)).
  - intros a s' (H & Hr & Hu & _ & [[-> _]|(n & _ & _ & _ & _ & _ & Hl & _)]); [left; reflexivity|right].
    exists H, n. apply (@kfree_releases_block pmm (coremap_pages 0) (coremap_pages_laws 0) (Some 0%nat) s' H a n Hr Hu).
    apply Hl. right. split; reflexivity.
  - apply (@subpage_kmalloc_wp pmm (coremap_pages 0) (coremap_pages_laws 0) (Some 0%nat) 100 example_heap []).
    + exact example_heap_rep.
    + reflexivity.
    + lia.
    + intros _. exact example_ready.
Defined.

(** The first request of that size takes the last block of a new page. *)
Lemma example_first_block :
  ∃ s, @kmalloc pmm (coremap_pages 0) (Some 0%nat) 100 example_heap = Ret 0x80010f80 s.
Proof. eexists. vm_compute. reflexivity. Qed.
