(* ===== verification/Vm.v ===== *)
(** Virtual memory: page faults, the TLB, the fault statistics and the swap
    file (kern/vm/vm.c, kern/vm/uw-vmstats.c, kern/vm/swapfile.c, [as_activate]
    of kern/vm/addrspace.c).

    [vm] gathers what the fault handler touches: physical memory and its
    allocator ([pm]), the 64 TLB entries, the round-robin victim, the statistics,
    the interrupt level of the current thread, and the current process with its
    address space.  [vm_fault] is split along the code: the checks, the part of
    each segment, the fill of a TLB slot (free or victim) with the load of the
    page.  Files are reached through [VOP_READ], an argument here: given a vnode,
    an offset and a length it gives an error code and the bytes it stored. *)

From Stdlib Require Import ZArith Lia.
From stdpp Require Import base numbers list.
From S2P Require Import Prelude Spinlock Coremap Addrspace.

Record vm := Vm {
  pm : pmm;
  tlb : list (Z * Z);
  next_victim : Z;
  stats_lock : bool;
  stats_counts : list Z;
  ipl : splstate;
  curproc : option (option addrspace);
  swap_partition : list bool;
}.

Definition set_pm (p : pmm) (s : vm) : vm :=
  Vm p s.(tlb) s.(next_victim) s.(stats_lock) s.(stats_counts) s.(ipl) s.(curproc) s.(swap_partition).
Definition set_tlb (t : list (Z * Z)) (s : vm) : vm :=
  Vm s.(pm) t s.(next_victim) s.(stats_lock) s.(stats_counts) s.(ipl) s.(curproc) s.(swap_partition).
Definition set_victim (v : Z) (s : vm) : vm :=
  Vm s.(pm) s.(tlb) v s.(stats_lock) s.(stats_counts) s.(ipl) s.(curproc) s.(swap_partition).
Definition set_stats (b : bool) (c : list Z) (s : vm) : vm :=
  Vm s.(pm) s.(tlb) s.(next_victim) b c s.(ipl) s.(curproc) s.(swap_partition).
Definition set_ipl (i : splstate) (s : vm) : vm :=
  Vm s.(pm) s.(tlb) s.(next_victim) s.(stats_lock) s.(stats_counts) i s.(curproc) s.(swap_partition).
Definition set_proc (p : option (option addrspace)) (s : vm) : vm :=
  Vm s.(pm) s.(tlb) s.(next_victim) s.(stats_lock) s.(stats_counts) s.(ipl) p s.(swap_partition).
Definition set_swap (l : list bool) (s : vm) : vm :=
  Vm s.(pm) s.(tlb) s.(next_victim) s.(stats_lock) s.(stats_counts) s.(ipl) s.(curproc) l.

(** A routine on physical memory, on the larger state. *)
Definition in_pm {A} (m : M pmm A) : M vm A := zoom pm set_pm m.

(** ** Statistics (uw-vmstats.c) *)

Definition VMSTAT_COUNT : Z := 10.

(** [_vmstats_inc] between taking and letting go of the lock. *)
Definition vmstats_inc (index : Z) : M vm unit :=
  s ← get;
  kassert s.(stats_lock);;
  kassert (index <? VMSTAT_COUNT);;
  v ← of_opt (zlookup s.(stats_counts) index);
  l ← of_opt (zupd s.(stats_counts) index (u32 (v + 1)));
  modify (set_stats s.(stats_lock) l).

(** [lock_create]: what creating the lock does to physical memory, and whether
    it succeeds. *)
Definition vmstats_init (lock_create : M pmm bool) : M vm unit :=
  s ← get;
  kassert (negb s.(stats_lock));;
  created ← in_pm lock_create;
  kassert created;;
  modify (set_stats true (replicate (Z.to_nat VMSTAT_COUNT) 0)).

(** The figures [_vmstats_print] compares, and the three warnings it may print. *)
Definition vmstats_print : M vm (list Z * bool * bool * bool) :=
  s ← get;
  kassert s.(stats_lock);;
  let c i := default 0 (s.(stats_counts) !! i) in
  let tlb_faults := c 0%nat in
  let free_plus_replace := s32 (c 1%nat + c 2%nat) in
  let disk_plus_zeroed_plus_reload := s32 (c 6%nat + c 5%nat + c 4%nat) in
  let elf_plus_swap_reads := s32 (c 7%nat + c 8%nat) in
  mret (s.(stats_counts),
        negb (s32 tlb_faults =? free_plus_replace),
        negb (s32 tlb_faults =? disk_plus_zeroed_plus_reload),
        negb (s32 (c 6%nat) =? elf_plus_swap_reads)).

(** ** The TLB (mips/tlb.h) *)

Definition NUM_TLB : Z := 64.
Definition TLBLO_DIRTY : Z := 0x400.
Definition TLBLO_VALID : Z := 0x200.
Definition TLBHI_INVALID (entryno : Z) : Z := u32 (Z.shiftl (0x80000 + entryno) 12).
Definition TLBLO_INVALID : Z := 0.

Definition tlb_write (ehi elo index : Z) : M vm unit :=
  s ← get; l ← of_opt (zupd s.(tlb) index (ehi, elo)); modify (set_tlb l).
Definition tlb_read (index : Z) : M vm (Z * Z) :=
  s ← get; of_opt (zlookup s.(tlb) index).

Definition tlb_get_rr_victim : M vm Z :=
  s ← get;
  let victim := s.(next_victim) in
  modify (set_victim ((victim + 1) mod NUM_TLB));;
  mret victim.

Section fault.
Context (mycpu : option nat).
Context (VOP_READ : Z → Z → Z → Z * list Z).

Definition vm_splhigh : M vm Z := zoom ipl set_ipl (splhigh (bool_decide (is_Some mycpu))).
Definition vm_splx (spl : Z) : M vm unit :=
  zoom ipl set_ipl (splx (bool_decide (is_Some mycpu)) spl);; mret tt.

(** ** as_activate *)
Definition as_activate : M vm unit :=
  s ← get;
  match s.(curproc) with
  | Some (Some _) =>
      spl ← vm_splhigh;
      vmstats_inc 3;;
      for_up (Z.to_nat NUM_TLB) 0 (λ i, tlb_write (TLBHI_INVALID i) TLBLO_INVALID i);;
      vm_splx spl
  | _ => mret tt
  end.

(** ** swapfile.c

    Both routines hand [VOP_READ]/[VOP_WRITE] a [struct uio] whose offset and
    vector count were never set. *)
Definition swap_num : Z := 9 * 1024 * 1024 / PAGE_SIZE.
(** [swap_alloc]: opening the file, creating the lock and allocating the table. *)
Definition swap_initialize (swap_alloc : M pmm bool) : M vm unit :=
  allocated ← in_pm swap_alloc;
  if allocated : bool then modify (set_swap (replicate (Z.to_nat swap_num) false)) else fault.
Definition uninitialised_uio : M vm unit := fault.
Definition read_from_swap (pfn index : Z) : M vm unit :=
  uninitialised_uio;;
  s ← get;
  l ← of_opt (zupd s.(swap_partition) index false);
  modify (set_swap l);;
  vmstats_inc 8.
Definition write_to_swap : M vm Z :=
  r ← for_find (Z.to_nat swap_num) 0 (λ i,
    s ← get;
    b ← of_opt (zlookup s.(swap_partition) i);
    if b : bool then mret None
    else
      l ← of_opt (zupd s.(swap_partition) i true);
      modify (set_swap l);;
      uninitialised_uio;;
      mret (Some i));
  vmstats_inc 9;;
  mret (default swap_num r).

(** ** vm.c *)

Definition vm_bzero (pa : Z) : M vm unit := in_pm (bzero pa PAGE_SIZE).

Definition store_bytes (m : Z → Z) (pa : Z) (bs : list Z) : Z → Z :=
  λ a, if (pa <=? a) && (a <? pa + Z.of_nat (length bs)) then default 0 (zlookup bs (a - pa)) else m a.

(** [load_segment]: the bytes are stored through KSEG0 at [paddr]. *)
Definition load_segment (v offset paddr memsize filesize : Z) : M vm Z :=
  let filesize := if filesize >? memsize then memsize else filesize in
  let '(result, bs) := VOP_READ v offset filesize in
  s ← get;
  if (paddr <? 0) || (s.(pm).(ramtop) <? paddr + Z.of_nat (length bs)) then fault
  else
    modify (set_pm (set_pmem (store_bytes s.(pm).(pmem) paddr bs) s.(pm)));;
    if negb (result =? 0) then mret result
    else if negb (filesize - Z.of_nat (length bs) =? 0) then mret ENOEXEC
    else mret result.

(** The page table of a segment. *)
Definition pt_of (seg : Z) (a : addrspace) : option (list pte) :=
  if seg =? 1 then a.(pt1) else if seg =? 2 then a.(pt2) else a.(pt3).
Definition set_pt (seg : Z) (l : list pte) (a : addrspace) : addrspace :=
  if seg =? 1 then set_region1 a.(as_vbase1) a.(as_npages1) a.(as_flag1) (Some l) a
  else if seg =? 2 then set_region2 a.(as_vbase2) a.(as_npages2) a.(as_flag2) (Some l) a
  else set_pt3 (Some l) a.

Definition cur_as : M vm addrspace :=
  s ← get; match s.(curproc) with Some (Some a) => mret a | _ => fault end.
Definition pte_read (seg vpn : Z) : M vm pte :=
  a ← cur_as; l ← of_opt (pt_of seg a); of_opt (zlookup l vpn).
Definition pte_write (seg vpn : Z) (f : pte → pte) : M vm unit :=
  a ← cur_as;
  l ← of_opt (pt_of seg a);
  e ← of_opt (zlookup l vpn);
  l ← of_opt (zupd l vpn (f e));
  modify (set_proc (Some (Some (set_pt seg l a)))).

Definition set_dirty (d : Z) (e : pte) : pte := Pte e.(pfn) e.(valid) d e.(p_ref) e.(sw).
Definition set_sw (x : Z) (e : pte) : pte := Pte e.(pfn) e.(valid) e.(dirty) e.(p_ref) x.
Definition map_pte (pa d : Z) (e : pte) : pte := Pte pa 1 d e.(p_ref) e.(sw).

(** The part under [if (entry.sw != -1)]. *)
Definition swap_in (seg vpn : Z) (entry : pte) : M vm unit :=
  read_from_swap entry.(pfn) entry.(sw);;
  s ← get;
  when (negb (s.(pm).(pvictim) =? 0))
    (a ← cur_as;
     pte_index ← find_pte a s.(pm).(pvictim) seg;
     modify (λ s, set_pm (set_pvictim 0 s.(pm)) s);;
     pte_write seg pte_index (λ e, Pte e.(pfn) 0 0 0 e.(sw));;
     x ← write_to_swap;
     pte_write seg pte_index (set_sw x));;
  pte_write seg vpn (set_sw (-1)).

Inductive faulttype := VM_FAULT_READ | VM_FAULT_WRITE | VM_FAULT_READONLY | VM_FAULT_OTHER.
#[global] Instance faulttype_eq_dec : EqDecision faulttype.
Proof. solve_decision. Defined.
(** What the first half of [vm_fault] finds: segment, page number in it,
    permissions, frame, and whether the page has to be loaded. *)
Record found := Found { fd_seg : Z; fd_vpn : Z; fd_flag : Z; fd_paddr : Z; fd_load : bool }.

(** A page of segment 1 or 2 ([seg]) whose entry is not valid gets a frame; a
    valid one is checked for write permission. *)
Definition fault_page (ft : faulttype) (seg vpn flag : Z) : M vm (Z + found) :=
  entry ← pte_read seg vpn;
  if entry.(valid) =? 0 then
    paddr ← in_pm (getppages mycpu 1 USER);
    when (negb (entry.(sw) =? -1)) (swap_in seg vpn entry);;
    if paddr =? 0 then mret (inl ENOMEM)
    else
      pte_write seg vpn (map_pte paddr (if negb (Z.land flag 2 =? 0) then 1 else 0));;
      mret (inr (Found seg vpn flag paddr true))
  else if (entry.(dirty) =? 0) && bool_decide (ft = VM_FAULT_WRITE) then mret (inl EPERM)
  else mret (inr (Found seg vpn flag entry.(pfn) false)).

Definition fault_segment1 (ft : faulttype) (a : addrspace) (faultaddress : Z) : M vm (Z + found) :=
  fault_page ft 1 ((faultaddress - a.(as_vbase1)) / PAGE_SIZE) a.(as_flag1).

Definition fault_segment2 (ft : faulttype) (a : addrspace) (faultaddress : Z) : M vm (Z + found) :=
  fault_page ft 2 ((faultaddress - a.(as_vbase2)) / PAGE_SIZE) a.(as_flag2).

Definition stackbase : Z := USERSTACK - STACKPAGES * PAGE_SIZE.
Definition stacktop : Z := USERSTACK.

(** The stack: writable always, and loaded (zeroed) on every fault. *)
Definition fault_stack (faultaddress : Z) : M vm (Z + found) :=
  let flag := Z.lor PF_R PF_W in
  let vpn := (faultaddress - stackbase) / PAGE_SIZE in
  entry ← pte_read 3 vpn;
  if entry.(valid) =? 0 then
    paddr ← in_pm (getppages mycpu 1 USER);
    when (negb (entry.(sw) =? -1)) (swap_in 3 vpn entry);;
    if paddr =? 0 then mret (inl ENOMEM)
    else
      pte_write 3 vpn (map_pte paddr 1);;
      mret (inr (Found 3 vpn flag paddr true))
  else mret (inr (Found 3 vpn flag entry.(pfn) true)).

(** The checks, and which segment the address is in. *)
Definition fault_lookup (ft : faulttype) (faultaddress : Z) : M vm (Z + found) :=
  match ft with
  | VM_FAULT_READONLY | VM_FAULT_OTHER => mret (inl EINVAL)
  | VM_FAULT_READ | VM_FAULT_WRITE =>
      s ← get;
      match s.(curproc) with
      | None | Some None => mret (inl EFAULT)
      | Some (Some a) =>
          kassert (negb (a.(as_vbase1) =? 0));;
          kassert (negb (a.(as_npages1) =? 0));;
          kassert (negb (a.(as_vbase2) =? 0));;
          kassert (negb (a.(as_npages2) =? 0));;
          kassert (Z.land a.(as_vbase1) PAGE_FRAME =? a.(as_vbase1));;
          kassert (Z.land a.(as_vbase2) PAGE_FRAME =? a.(as_vbase2));;
          let vtop1 := u32 (a.(as_vbase1) + a.(as_npages1) * PAGE_SIZE) in
          let vtop2 := u32 (a.(as_vbase2) + a.(as_npages2) * PAGE_SIZE) in
          if (faultaddress >=? a.(as_vbase1)) && (faultaddress <? vtop1) then
            fault_segment1 ft a faultaddress
          else if (faultaddress >=? a.(as_vbase2)) && (faultaddress <? vtop2) then
            fault_segment2 ft a faultaddress
          else if (faultaddress >=? stackbase) && (faultaddress <? stacktop) then
            fault_stack faultaddress
          else mret (inl EFAULT)
      end
  end.

(** Loading a page of segment [seg] (1 or 2) from the executable: a whole page,
    the last partial page, or zeroes past the end of the file's part.  The entry
    is marked dirty meanwhile. *)
Definition load_page (seg vpn faultaddress paddr base off filesz : Z) : M vm Z :=
  e ← pte_read seg vpn;
  let d := e.(dirty) in
  pte_write seg vpn (set_dirty 1);;
  a ← cur_as;
  let off := faultaddress - base + off in
  let index := filesz / PAGE_SIZE in
  let r := filesz mod PAGE_SIZE in
  result ←
    (if index >? vpn then
       vmstats_inc 7;; load_segment a.(vn) off paddr PAGE_SIZE PAGE_SIZE
     else if (index =? vpn) && negb (r =? 0) then
       vmstats_inc 7;; load_segment a.(vn) off paddr PAGE_SIZE r
     else
       vmstats_inc 5;; vm_bzero paddr;; mret 0);
  pte_write seg vpn (set_dirty d);;
  mret result.

(** The load of whichever segment it is; 0 or an error code. *)
Definition load_found (f : found) (faultaddress : Z) : M vm Z :=
  a ← cur_as;
  if f.(fd_seg) =? 1 then
    load_page 1 f.(fd_vpn) faultaddress f.(fd_paddr) a.(as_vbase1) a.(offset1) a.(filesz1)
  else if f.(fd_seg) =? 2 then
    load_page 2 f.(fd_vpn) faultaddress f.(fd_paddr) a.(as_vbase2) a.(offset2) a.(filesz2)
  else vmstats_inc 5;; vm_bzero f.(fd_paddr);; mret 0.

(** The low word of the entry: writable iff the segment is. *)
Definition elo_of (f : found) : Z :=
  if Z.land f.(fd_flag) 2 =? 0 then Z.lor f.(fd_paddr) TLBLO_VALID
  else Z.lor (Z.lor f.(fd_paddr) TLBLO_DIRTY) TLBLO_VALID.

(** Filling TLB slot [i].  When the load fails the handler returns at once: the
    temporary writable entry stays and the interrupt level is not restored. *)
Definition fill_slot (f : found) (faultaddress spl i : Z) : M vm Z :=
  if f.(fd_load) then
    tlb_write faultaddress (Z.lor (Z.lor f.(fd_paddr) TLBLO_DIRTY) TLBLO_VALID) i;;
    result ← load_found f faultaddress;
    if negb (result =? 0) then mret result
    else tlb_write faultaddress (elo_of f) i;; vm_splx spl;; mret 0
  else
    vmstats_inc 4;;
    tlb_write faultaddress (elo_of f) i;;
    vm_splx spl;;
    mret 0.

Definition fill_free (f : found) (faultaddress spl i : Z) : M vm Z :=
  vmstats_inc 0;; vmstats_inc 1;; fill_slot f faultaddress spl i.

Definition fill_victim (f : found) (faultaddress spl : Z) : M vm Z :=
  vmstats_inc 0;; vmstats_inc 2;;
  victim ← tlb_get_rr_victim;
  fill_slot f faultaddress spl victim.

(** The scan of the TLB for the page or for a free slot. *)
Definition scan_tlb (f : found) (faultaddress spl : Z) : M vm (option Z) :=
  for_find (Z.to_nat NUM_TLB) 0 (λ i,
    e ← tlb_read i;
    if negb (Z.land e.2 TLBLO_VALID =? 0) then
      if e.1 =? faultaddress then vmstats_inc 4;; mret (Some 0) else mret None
    else
      r ← fill_free f faultaddress spl i; mret (Some r)).

Definition vm_fault (ft : faulttype) (faultaddress : Z) : M vm Z :=
  let faultaddress := Z.land faultaddress PAGE_FRAME in
  r ← fault_lookup ft faultaddress;
  match r with
  | inl e => mret e
  | inr f =>
      kassert (negb (f.(fd_paddr) =? 0));;
      kassert (Z.land f.(fd_paddr) PAGE_FRAME =? f.(fd_paddr));;
      spl ← vm_splhigh;
      r ← scan_tlb f faultaddress spl;
      match r with
      | Some r => mret r
      | None => fill_victim f faultaddress spl
      end
  end.

(** ** vm_bootstrap *)

Definition sizeof_coremap : Z := 20.

(** [raw]: what the memory that becomes the coremap held. *)
Definition vm_bootstrap (lock_create swap_alloc : M pmm bool) (raw : nat → frame) : M vm unit :=
  spl ← vm_splhigh;
  vmstats_init lock_create;;
  lohi ← in_pm ram_getsize;
  let '(lo, hi) := lohi in
  let page_num := u32 (hi - lo) / PAGE_SIZE in
  let bytes := u32 (page_num * sizeof_coremap) in
  let freeaddr :=
    if negb (bytes mod PAGE_SIZE =? 0) then u32 (lo + PAGE_SIZE + Z.land bytes 0xfffff000)
    else u32 (lo + Z.land bytes 0xfffff000) in
  in_pm (modify (λ p, Pmm (raw <$> seq 0 (Z.to_nat page_num)) page_num p.(page_start) p.(ref_)
                        p.(after_init) p.(stealmem_lock) hi p.(pvictim) p.(firstpaddr)
                        p.(lastpaddr) p.(ramtop) p.(pmem)));;
  in_pm (init_coremap freeaddr);;
  swap_initialize swap_alloc;;
  vm_splx spl.

Definition vm_tlbshootdown_all : M vm unit := panic.
Definition vm_tlbshootdown : M vm unit := panic.
End fault.

(** ** How the pieces run *)

(** The state after one statistic is counted. *)
Definition bump (i : nat) (s : vm) : vm :=
  set_stats s.(stats_lock) (alter (λ v, u32 (v + 1)) i s.(stats_counts)) s.

(** The state the fault handler needs: allocator, TLB, statistics. *)
Record machine_ok (s : vm) : Prop := MachineOk {
  mo_pm : cm_wf s.(pm);
  mo_tlb : length s.(tlb) = 64%nat;
  mo_victim : 0 ≤ s.(next_victim) < NUM_TLB;
  mo_stats : s.(stats_lock) = true ∧ length s.(stats_counts) = 10%nat;
  mo_ipl : spl_inv 0 s.(ipl);
}.

Lemma vmstats_inc_ret (i : nat) s :
  s.(stats_lock) = true → length s.(stats_counts) = 10%nat → (i < 10)%nat →
  vmstats_inc (Z.of_nat i) s = Ret tt (bump i s).
Proof.
  intros Hl Hn Hi. unfold vmstats_inc. rewrite get_bind, Hl. unfold VMSTAT_COUNT.
  rewrite (proj2 (Z.ltb_lt (Z.of_nat i) 10)) by lia.
  destruct (lookup_lt_is_Some_2 s.(stats_counts) i) as [v Hv]; [lia|].
  unfold mbind, M_bind; simpl. rewrite zlookup_nat, Hv. simpl.
  rewrite zupd_Some by lia. rewrite Nat2Z.id. simpl. unfold bump, modify. rewrite Hl.
  do 2 f_equal. apply list_eq. intros j. destruct (decide (j = i)) as [-> |].
  - rewrite list_lookup_insert_eq, list_lookup_alter_eq, Hv by lia. done.
  - by rewrite list_lookup_insert_ne, list_lookup_alter_ne.
Qed.

Lemma tlb_write_ret ehi elo i s :
  0 ≤ i < Z.of_nat (length s.(tlb)) →
  tlb_write ehi elo i s = Ret tt (set_tlb (<[Z.to_nat i := (ehi, elo)]> s.(tlb)) s).
Proof. intros Hi. unfold tlb_write. rewrite get_bind, zupd_Some by done. done. Qed.

(** Raising the level and putting it back. *)
Definition raised (s : vm) : vm :=
  set_ipl (SplState IPL_HIGH
             (if s.(ipl).(t_curspl) =? IPL_HIGH then s.(ipl).(t_iplhigh_count) else s.(ipl).(t_iplhigh_count) + 1)
             false) s.

Section runs.
Context (c : nat) (VOP_READ : Z → Z → Z → Z * list Z).

Lemma vm_splhigh_ret s : spl_inv 0 s.(ipl) → vm_splhigh (Some c) s = Ret s.(ipl).(t_curspl) (raised s).
Proof.
  intros (Hcur & Hn & Hirq). unfold vm_splhigh, raised, zoom. rewrite bool_decide_true by done.
  destruct s as [? ? ? ? ? [cur n irq] ? ?]; simpl in *. unfold IPL_NONE, IPL_HIGH in *. subst n irq.
  destruct Hcur as [-> | ->]; done.
Qed.

Lemma vm_splx_ret s s' :
  spl_inv 0 s.(ipl) → s'.(ipl) = (raised s).(ipl) →
  vm_splx (Some c) s.(ipl).(t_curspl) s' = Ret tt (set_ipl s.(ipl) s').
Proof.
  intros (Hcur & Hn & Hirq) Hs'. unfold vm_splx, zoom, mbind, M_bind. rewrite Hs', bool_decide_true by done.
  destruct s as [? ? ? ? ? [cur n irq] ? ?]; simpl in *. unfold IPL_NONE, IPL_HIGH in *. subst n irq.
  destruct Hcur as [-> | ->]; done.
Qed.
(** No valid entry is for page [p]. *)
Definition no_match (t : list (Z * Z)) (p : Z) : Prop :=
  ∀ i e, t !! i = Some e → Z.land e.2 TLBLO_VALID ≠ 0 → e.1 ≠ p.

Definition first_invalid (t : list (Z * Z)) : option nat :=
  fst <$> list_find (λ e, Z.land e.2 TLBLO_VALID = 0) t.

(** The slot the handler fills, and the state with its choice counted. *)
Definition chosen (s : vm) : Z :=
  match first_invalid s.(tlb) with Some i => Z.of_nat i | None => s.(next_victim) end.
Definition counted (s : vm) : vm :=
  match first_invalid s.(tlb) with
  | Some _ => bump 1 (bump 0 s)
  | None => set_victim ((s.(next_victim) + 1) mod NUM_TLB) (bump 2 (bump 0 s))
  end.

Lemma tlb_read_ret s (i : nat) e : s.(tlb) !! i = Some e → tlb_read (Z.of_nat i) s = Ret e s.
Proof. intros H. unfold tlb_read. by rewrite get_bind, zlookup_nat, H. Qed.

Lemma scan_body_skip f p spl s (i : nat) e :
  s.(tlb) !! i = Some e → Z.land e.2 TLBLO_VALID ≠ 0 → e.1 ≠ p →
  (e ← tlb_read (Z.of_nat i);
   if negb (Z.land e.2 TLBLO_VALID =? 0) then
     if e.1 =? p then vmstats_inc 4;; mret (Some 0) else mret None
   else r ← fill_free (Some c) VOP_READ f p spl (Z.of_nat i); mret (Some r)) s = Ret None s.
Proof.
  intros Hi Hv Hp. rewrite (bind_Ret _ _ _ _ _ (tlb_read_ret _ _ _ Hi)).
  by rewrite (proj2 (Z.eqb_neq _ _) Hv), (proj2 (Z.eqb_neq _ _) Hp).
Qed.

Lemma bumps_ok s i : s.(stats_lock) = true ∧ length s.(stats_counts) = 10%nat →
  (bump i s).(stats_lock) = true ∧ length (bump i s).(stats_counts) = 10%nat.
Proof. intros [H1 H2]. simpl. by rewrite length_alter. Qed.

(** Scan and fill together: a page that is not in the TLB goes to the chosen slot. *)
Lemma tlb_fill f p spl s :
  length s.(tlb) = 64%nat → s.(stats_lock) = true ∧ length s.(stats_counts) = 10%nat →
  no_match s.(tlb) p →
  (r ← scan_tlb (Some c) VOP_READ f p spl;
   match r with Some r => mret r | None => fill_victim (Some c) VOP_READ f p spl end) s =
  fill_slot (Some c) VOP_READ f p spl (chosen s) (counted s).
Proof.
  intros Hlen Hst Hno. unfold chosen, counted, first_invalid.
  destruct (list_find (λ e, Z.land e.2 TLBLO_VALID = 0) s.(tlb)) as [[i e]|] eqn:Hf; simpl.
  - apply list_find_Some in Hf as (Hi & He & Hbefore). pose proof (lookup_lt_Some _ _ _ Hi).
    unfold scan_tlb. change (Z.to_nat NUM_TLB) with 64%nat.
    unfold mbind at 1, M_bind at 1. replace 64%nat with (i + (64 - i))%nat by lia.
    rewrite for_find_skip.
    2:{ intros j Hj. destruct (lookup_lt_is_Some_2 s.(tlb) (Z.to_nat j)) as [e' He']; [lia|].
        replace j with (Z.of_nat (Z.to_nat j)) by lia.
        assert (Z.land e'.2 TLBLO_VALID ≠ 0) as Hv by (eapply Hbefore; [done|lia]).
        eapply scan_body_skip; eauto. }
    destruct (64 - i)%nat as [|m] eqn:Em; [lia|]. unfold for_find; fold (@for_find vm Z). rewrite Z.add_0_l.
    unfold mbind at 1, M_bind at 1. erewrite bind_Ret by (by apply tlb_read_ret).
    rewrite He. simpl. unfold fill_free. unfold mbind, M_bind.
    change 0 with (Z.of_nat 0). rewrite vmstats_inc_ret by (tauto || lia).
    change 1 with (Z.of_nat 1). rewrite vmstats_inc_ret by (simpl; rewrite ?length_alter; (tauto || lia)).
    simpl. by destruct (fill_slot _ _ _ _ _ _ _).
  - apply list_find_None in Hf. unfold scan_tlb. change (Z.to_nat NUM_TLB) with (64 + 0)%nat.
    unfold mbind at 1, M_bind at 1. rewrite for_find_skip.
    2:{ intros j Hj. destruct (lookup_lt_is_Some_2 s.(tlb) (Z.to_nat j)) as [e' He']; [lia|].
        replace j with (Z.of_nat (Z.to_nat j)) by lia.
        assert (Z.land e'.2 TLBLO_VALID ≠ 0) as Hv
          by (rewrite Forall_forall in Hf; apply (Hf e'); by eapply list_elem_of_lookup_2).
        eapply scan_body_skip; eauto. }
    change (for_find 0 _ _) with (mret None : M vm (option Z)). unfold mret, M_ret.
    unfold fill_victim. unfold mbind, M_bind.
    change 0 with (Z.of_nat 0) at 1. rewrite vmstats_inc_ret by (tauto || lia).
    change 2 with (Z.of_nat 2). rewrite vmstats_inc_ret by (simpl; rewrite ?length_alter; (tauto || lia)).
    done.
Qed.
End runs.

(** ** Looking the page up *)

Definition has_table (p : option (list pte)) (n : Z) : Prop :=
  ∃ l, p = Some l ∧ Z.of_nat (length l) = n.

Record as_layout (a : addrspace) : Prop := AsLayout {
  ao_base1 : 0 < a.(as_vbase1) ∧ a.(as_vbase1) mod 4096 = 0;
  ao_base2 : 0 < a.(as_vbase2) ∧ a.(as_vbase2) mod 4096 = 0;
  ao_top1 : 0 < a.(as_npages1) ∧ a.(as_vbase1) + a.(as_npages1) * 4096 ≤ USERSTACK;
  ao_top2 : 0 < a.(as_npages2) ∧ a.(as_vbase2) + a.(as_npages2) * 4096 ≤ USERSTACK;
}.

Record as_ok (a : addrspace) : Prop := AsOk {
  ao_layout : as_layout a;
  ao_pt1 : has_table a.(pt1) a.(as_npages1);
  ao_pt2 : has_table a.(pt2) a.(as_npages2);
  ao_pt3 : has_table a.(pt3) STACKPAGES;
}.

(** Segment, page number and permissions of a page, or none. *)
Definition segment_of (a : addrspace) (p : Z) : option (Z * Z * Z) :=
  if (a.(as_vbase1) <=? p) && (p <? a.(as_vbase1) + a.(as_npages1) * 4096) then
    Some (1, (p - a.(as_vbase1)) / 4096, a.(as_flag1))
  else if (a.(as_vbase2) <=? p) && (p <? a.(as_vbase2) + a.(as_npages2) * 4096) then
    Some (2, (p - a.(as_vbase2)) / 4096, a.(as_flag2))
  else if (stackbase <=? p) && (p <? stacktop) then Some (3, (p - stackbase) / 4096, 6)
  else None.

Lemma fault_lookup_ret mycpu ft p s a :
  ft = VM_FAULT_READ ∨ ft = VM_FAULT_WRITE → s.(curproc) = Some (Some a) → as_layout a →
  fault_lookup mycpu ft p s =
    match segment_of a p with
    | None => Ret (inl EFAULT) s
    | Some (seg, vpn, flag) =>
        if seg =? 3 then fault_stack mycpu p s else fault_page mycpu ft seg vpn flag s
    end.
Proof.
  intros Hft Hc [[B1 A1] [B2 A2] [N1 T1] [N2 T2]]. unfold USERSTACK in *.
  transitivity (match s.(curproc) with
    | Some (Some a) => (kassert (negb (a.(as_vbase1) =? 0));; kassert (negb (a.(as_npages1) =? 0));;
          kassert (negb (a.(as_vbase2) =? 0));; kassert (negb (a.(as_npages2) =? 0));;
          kassert (Z.land a.(as_vbase1) PAGE_FRAME =? a.(as_vbase1));;
          kassert (Z.land a.(as_vbase2) PAGE_FRAME =? a.(as_vbase2));;
          let vtop1 := u32 (a.(as_vbase1) + a.(as_npages1) * PAGE_SIZE) in
          let vtop2 := u32 (a.(as_vbase2) + a.(as_npages2) * PAGE_SIZE) in
          if (p >=? a.(as_vbase1)) && (p <? vtop1) then fault_segment1 mycpu ft a p
          else if (p >=? a.(as_vbase2)) && (p <? vtop2) then fault_segment2 mycpu ft a p
          else if (p >=? stackbase) && (p <? stacktop) then fault_stack mycpu p
          else mret (inl EFAULT)) s
    | _ => Ret (inl EFAULT) s end).
  { unfold fault_lookup. destruct Hft as [-> | ->]; rewrite get_bind; by destruct (curproc s) as [[]|]. }
  rewrite Hc. rewrite !(proj2 (Z.eqb_neq _ 0)) by lia. unfold W32 in *.
  rewrite !land_page_frame by (unfold W32; lia).
  rewrite !(proj2 (Z.eqb_eq (_ / 4096 * 4096) _)) by lia. unfold kassert, mbind, M_bind; simpl.
  unfold mret, M_ret, PAGE_SIZE. rewrite !u32_small by (unfold W32; lia).
  unfold segment_of. rewrite !Z.geb_leb.
  destruct ((as_vbase1 a <=? p) && _); [done|]. destruct ((as_vbase2 a <=? p) && _); [done|].
  by destruct ((stackbase <=? p) && _).
Qed.

(** The entry of page [vpn] of segment [seg]. *)
Definition entry_of (a : addrspace) (seg vpn : Z) : option pte :=
  l ← pt_of seg a; zlookup l vpn.

Lemma pte_read_ret s a seg vpn e :
  s.(curproc) = Some (Some a) → entry_of a seg vpn = Some e → pte_read seg vpn s = Ret e s.
Proof.
  intros Hc (l & Hl & He)%bind_Some. unfold pte_read, cur_as, get, mbind, M_bind. rewrite Hc.
  unfold mret, M_ret. rewrite Hl. simpl. by rewrite He.
Qed.

Definition with_entry (a : addrspace) (seg vpn : Z) (e : pte) : addrspace :=
  match pt_of seg a with
  | Some l => set_pt seg (<[Z.to_nat vpn := e]> l) a
  | None => a
  end.

Lemma pte_write_ret s a seg vpn e f :
  s.(curproc) = Some (Some a) → entry_of a seg vpn = Some e →
  pte_write seg vpn f s = Ret tt (set_proc (Some (Some (with_entry a seg vpn (f e)))) s).
Proof.
  intros Hc (l & Hl & He)%bind_Some. pose proof (zlookup_Some_lt _ _ _ He).
  unfold pte_write, cur_as, with_entry, get, mbind, M_bind. rewrite Hc.
  unfold mret, M_ret. rewrite Hl. simpl. rewrite He. simpl. by rewrite zupd_Some.
Qed.

Lemma pt_of_set_pt seg l a : 1 ≤ seg ≤ 3 → pt_of seg (set_pt seg l a) = Some l.
Proof. intros. unfold pt_of, set_pt. by destruct (seg =? 1), (seg =? 2). Qed.

Lemma entry_with_entry a seg vpn e e' :
  1 ≤ seg ≤ 3 → entry_of a seg vpn = Some e → entry_of (with_entry a seg vpn e') seg vpn = Some e'.
Proof.
  intros Hs (l & Hl & He)%bind_Some. pose proof (zlookup_Some_lt _ _ _ He).
  unfold entry_of, with_entry. rewrite Hl, pt_of_set_pt by done. simpl.
  by rewrite zlookup_insert, Z.eqb_refl.
Qed.

Lemma with_entry_twice a seg vpn e e' :
  1 ≤ seg ≤ 3 → with_entry (with_entry a seg vpn e) seg vpn e' = with_entry a seg vpn e'.
Proof.
  intros Hs. unfold with_entry. destruct (pt_of seg a) as [l|] eqn:Hl; [|by rewrite Hl].
  rewrite pt_of_set_pt by done. rewrite list_insert_insert_eq.
  unfold set_pt. by destruct (seg =? 1), (seg =? 2).
Qed.

Lemma with_entry_same a seg vpn e :
  entry_of a seg vpn = Some e → with_entry a seg vpn e = a.
Proof.
  intros (l & Hl & He)%bind_Some. unfold with_entry. rewrite Hl.
  rewrite list_insert_id by (unfold zlookup in He; by destruct (0 <=? vpn)).
  unfold set_pt, pt_of in *. destruct a; simpl in *.
  destruct (seg =? 1); [by rewrite <- Hl|]. destruct (seg =? 2); by rewrite <- Hl.
Qed.

Lemma with_entry_file a seg vpn e :
  (with_entry a seg vpn e).(vn) = a.(vn) ∧ (with_entry a seg vpn e).(offset1) = a.(offset1) ∧
  (with_entry a seg vpn e).(offset2) = a.(offset2) ∧ (with_entry a seg vpn e).(filesz1) = a.(filesz1) ∧
  (with_entry a seg vpn e).(filesz2) = a.(filesz2) ∧ (with_entry a seg vpn e).(as_vbase1) = a.(as_vbase1) ∧
  (with_entry a seg vpn e).(as_vbase2) = a.(as_vbase2).
Proof. unfold with_entry, set_pt. destruct (pt_of seg a); [|done]. by destruct (seg =? 1), (seg =? 2). Qed.

(** ** What the TLB says *)

(** The translation of page [p]: its frame, and whether writes are allowed. *)
Definition tlb_translate (t : list (Z * Z)) (p : Z) : option (Z * bool) :=
  (λ r, (Z.land r.2.2 PAGE_FRAME, negb (Z.land r.2.2 TLBLO_DIRTY =? 0))) <$>
    list_find (λ e, Z.land e.2 TLBLO_VALID ≠ 0 ∧ e.1 = p) t.

Lemma tlb_translate_insert t p (i : nat) elo :
  no_match t p → (i < length t)%nat → Z.land elo TLBLO_VALID ≠ 0 →
  tlb_translate (<[i := (p, elo)]> t) p =
    Some (Z.land elo PAGE_FRAME, negb (Z.land elo TLBLO_DIRTY =? 0)).
Proof.
  intros Hno Hi Hv. unfold tlb_translate.
  assert (list_find (λ e, Z.land e.2 TLBLO_VALID ≠ 0 ∧ e.1 = p) (<[i := (p, elo)]> t) = Some (i, (p, elo))) as ->;
    [|done].
  apply list_find_Some. split_and!; [by apply list_lookup_insert_eq|done|done|].
  intros j e Hj Hlt [H1 H2]. rewrite list_lookup_insert_ne in Hj by lia. by apply (Hno j e).
Qed.

Lemma elo_of_bits f :
  0 ≤ f.(fd_paddr) < W32 → f.(fd_paddr) mod 4096 = 0 →
  Z.land (elo_of f) PAGE_FRAME = f.(fd_paddr) ∧
  Z.land (elo_of f) TLBLO_VALID ≠ 0 ∧
  negb (Z.land (elo_of f) TLBLO_DIRTY =? 0) = negb (Z.land f.(fd_flag) 2 =? 0).
Proof.
  intros Hr Ha. pose proof (proj2 (land_page_aligned _ Hr) Ha) as Hf.
  unfold elo_of, TLBLO_VALID, TLBLO_DIRTY. destruct (Z.land (fd_flag f) 2 =? 0); rewrite !Z.land_lor_distr_l, Hf;
    rewrite !(land_aligned_low f.(fd_paddr)) by (done || lia); unfold PAGE_FRAME; simpl;
    rewrite ?Z.lor_0_r; done.
Qed.

Section theorems.
Context (c : nat) (VOP_READ : Z → Z → Z → Z * list Z).

Lemma counted_raised s : chosen (raised s) = chosen s ∧ counted (raised s) = raised (counted s).
Proof. unfold chosen, counted. simpl. by destruct (first_invalid (tlb s)). Qed.

Lemma chosen_range s : machine_ok s → 0 ≤ chosen s < 64.
Proof.
  intros Hm. pose proof (mo_victim _ Hm). pose proof (mo_tlb _ Hm). unfold chosen, first_invalid, NUM_TLB in *.
  destruct (list_find _ s.(tlb)) as [[i e]|] eqn:E; simpl; [|lia].
  apply list_find_Some in E as (Hi & _). apply lookup_lt_Some in Hi. lia.
Qed.

(** The second half of the handler, for a page the first half has found. *)
Lemma vm_fault_found ft addr s s1 f :
  fault_lookup (Some c) ft (Z.land addr PAGE_FRAME) s = Ret (inr f) s1 →
  machine_ok s1 → no_match s1.(tlb) (Z.land addr PAGE_FRAME) →
  0 < f.(fd_paddr) < W32 → f.(fd_paddr) mod 4096 = 0 →
  vm_fault (Some c) VOP_READ ft addr s =
    fill_slot (Some c) VOP_READ f (Z.land addr PAGE_FRAME) s1.(ipl).(t_curspl) (chosen s1) (raised (counted s1)).
Proof.
  intros Hl Hm Hno Hp Ha. unfold vm_fault. cbv zeta. rewrite (bind_Ret _ _ _ _ _ Hl).
  rewrite (proj2 (Z.eqb_neq f.(fd_paddr) 0)) by lia.
  rewrite (proj2 (Z.eqb_eq (Z.land f.(fd_paddr) PAGE_FRAME) _)) by (by apply land_page_aligned; [lia|]).
  unfold kassert at 1 2. simpl negb. cbv iota.
  do 2 (mrun).
  rewrite (bind_Ret _ _ _ _ _ (vm_splhigh_ret c s1 (mo_ipl _ Hm))).
  rewrite tlb_fill; [|apply Hm|apply Hm|done].
  by destruct (counted_raised s1) as [-> ->].
Qed.

Lemma fault_page_resident ft seg vpn flag s a e :
  s.(curproc) = Some (Some a) → entry_of a seg vpn = Some e → e.(valid) ≠ 0 →
  fault_page (Some c) ft seg vpn flag s =
    if (e.(dirty) =? 0) && bool_decide (ft = VM_FAULT_WRITE) then Ret (inl EPERM) s
    else Ret (inr (Found seg vpn flag e.(pfn) false)) s.
Proof.
  intros Hc He Hv. unfold fault_page. rewrite (bind_Ret _ _ _ _ _ (pte_read_ret _ _ _ _ _ Hc He)).
  rewrite (proj2 (Z.eqb_neq _ _) Hv). by destruct ((e.(dirty) =? 0) && _).
Qed.

(** A TLB miss on a resident page of the program: writing to a page that
    is not writable is refused with [EPERM] and nothing changes; otherwise the
    handler returns 0, and the only effects are that the first free TLB slot (or
    the round-robin victim when there is none) now translates the page to the
    frame of its page-table entry, writable exactly when the segment is, and
    that the fault is counted.  Memory, page tables and interrupt level are as
    before. *)
Theorem vm_fault_resident (ft : faulttype) (addr : Z) (s : vm) (a : addrspace) (seg vpn flag : Z) (e : pte) :
  let p := Z.land addr PAGE_FRAME in
  ft = VM_FAULT_READ ∨ ft = VM_FAULT_WRITE → machine_ok s → s.(curproc) = Some (Some a) → as_ok a →
  segment_of a p = Some (seg, vpn, flag) → seg ≠ 3 →
  entry_of a seg vpn = Some e → e.(valid) ≠ 0 → 0 < e.(pfn) < W32 → e.(pfn) mod 4096 = 0 →
  no_match s.(tlb) p →
  if (e.(dirty) =? 0) && bool_decide (ft = VM_FAULT_WRITE) then
    vm_fault (Some c) VOP_READ ft addr s = Ret EPERM s
  else
    ∃ elo, vm_fault (Some c) VOP_READ ft addr s =
      Ret 0 (set_tlb (<[Z.to_nat (chosen s) := (p, elo)]> s.(tlb)) (bump 4 (counted s))) ∧
    tlb_translate (<[Z.to_nat (chosen s) := (p, elo)]> s.(tlb)) p =
      Some (e.(pfn), negb (Z.land flag 2 =? 0)).
Proof.
  intros p Hft Hm Hc Ha Hseg Hne He Hv Hr Hal Hno.
  assert (fault_lookup (Some c) ft p s = fault_page (Some c) ft seg vpn flag s) as Hl.
  { rewrite (fault_lookup_ret _ _ _ _ a) by (done || apply Ha). rewrite Hseg. by rewrite (proj2 (Z.eqb_neq _ _) Hne). }
  rewrite (fault_page_resident _ _ _ _ _ _ _ Hc He Hv) in Hl.
  destruct ((e.(dirty) =? 0) && _).
  { unfold vm_fault. cbv zeta. by rewrite (bind_Ret _ _ _ _ _ Hl). }
  set (f := Found seg vpn flag e.(pfn) false) in *.
  destruct (elo_of_bits f) as (E1 & E2 & E3); [simpl; lia|done|].
  exists (elo_of f). pose proof (chosen_range _ Hm) as Hch. pose proof (mo_tlb _ Hm) as Ht. split.
  - rewrite (vm_fault_found _ _ _ _ _ Hl Hm Hno) by done. unfold fill_slot. change (fd_load f) with false. cbv iota.
    change 4 with (Z.of_nat 4). destruct (mo_stats _ Hm) as [S1 S2].
    assert ((raised (counted s)).(stats_lock) = true ∧ length (raised (counted s)).(stats_counts) = 10%nat) as [S3 S4]
      by (unfold counted; destruct (first_invalid _); simpl; by rewrite ?length_alter).
    erewrite bind_Ret by (apply vmstats_inc_ret; [done|done|lia]).
    assert ((bump 4 (raised (counted s))).(tlb) = s.(tlb)) as Htlb by (unfold counted; by destruct (first_invalid _)).
    erewrite bind_Ret by (apply tlb_write_ret; rewrite Htlb; lia).
    erewrite bind_Ret by (apply (vm_splx_ret c s); [apply Hm|unfold counted; by destruct (first_invalid _)]).
    unfold counted. destruct (first_invalid _); by destruct s.
  - rewrite tlb_translate_insert by (done || lia). by rewrite E1, E3.
Qed.

(** ** First touch of a page *)

(** How many bytes of page [vpn] come from the file; 0 for a page of zeroes. *)
Definition load_amount (filesz vpn : Z) : Z :=
  if filesz / 4096 >? vpn then 4096 else if filesz / 4096 =? vpn then filesz mod 4096 else 0.

(** The result of loading a page: error code, memory, statistic counted. *)
Definition load_result (m : Z → Z) (v off pa n : Z) : Z * (Z → Z) * nat :=
  if n =? 0 then (0, zeroed m pa 4096, 5%nat)
  else
    let '(r, bs) := VOP_READ v off n in
    (if negb (r =? 0) then r else if Z.of_nat (length bs) =? n then 0 else ENOEXEC,
     store_bytes m pa bs, 7%nat).

(** What [VOP_READ] promises: it stores at most what it is asked for. *)
Definition read_bounded : Prop := ∀ v o n, 0 ≤ n → Z.of_nat (length (VOP_READ v o n).2) ≤ n.

Lemma load_segment_ret s v off pa n :
  read_bounded → 0 < n ≤ 4096 → 0 ≤ pa → pa + 4096 ≤ s.(pm).(ramtop) →
  let '(r, m, _) := load_result s.(pm).(pmem) v off pa n in
  load_segment VOP_READ v off pa PAGE_SIZE n s = Ret r (set_pm (set_pmem m s.(pm)) s).
Proof.
  intros Hb Hn Hpa Hram. unfold load_result, load_segment, PAGE_SIZE.
  rewrite (proj2 (Z.eqb_neq n 0)) by lia. specialize (Hb v off n ltac:(lia)).
  destruct (Z.gtb_spec n 4096); [lia|]. destruct (VOP_READ v off n) as [r bs]; simpl in *.
  rewrite get_bind. rewrite (proj2 (Z.ltb_ge pa 0)), (proj2 (Z.ltb_ge _ _)) by lia. simpl.
  unfold mbind, M_bind, modify. destruct (Z.eqb_spec r 0) as [-> |]; simpl; [|done].
  destruct (Z.eqb_spec (Z.of_nat (length bs)) n), (Z.eqb_spec (n - Z.of_nat (length bs)) 0); done || lia.
Qed.

Lemma vm_bzero_ret s pa :
  0 ≤ pa → pa + 4096 ≤ s.(pm).(ramtop) →
  vm_bzero pa s = Ret tt (set_pm (set_pmem (zeroed s.(pm).(pmem) pa 4096) s.(pm)) s).
Proof. intros H1 H2. unfold vm_bzero, in_pm, zoom. by rewrite bzero_ret. Qed.

Definition stats_ok (s : vm) : Prop := s.(stats_lock) = true ∧ length s.(stats_counts) = 10%nat.

Lemma load_page_ret s a seg vpn e p pa base off filesz :
  read_bounded → 1 ≤ seg ≤ 3 → 0 ≤ filesz → s.(curproc) = Some (Some a) → entry_of a seg vpn = Some e →
  stats_ok s → 0 ≤ pa → pa + 4096 ≤ s.(pm).(ramtop) →
  let '(r, m, i) := load_result s.(pm).(pmem) a.(vn) (p - base + off) pa (load_amount filesz vpn) in
  load_page VOP_READ seg vpn p pa base off filesz s =
    Ret r (set_pm (set_pmem m s.(pm)) (bump i s)).
Proof.
  intros Hb Hseg Hfs Hc He [S1 S2] Hpa Hram.
  set (a1 := with_entry a seg vpn (set_dirty 1 e)).
  assert (∀ s2 : vm, s2.(curproc) = Some (Some a1) →
    pte_write seg vpn (set_dirty e.(dirty)) s2 = Ret tt (set_proc (Some (Some a)) s2)) as Hback.
  { intros s2 Hs2. erewrite pte_write_ret by (done || by eapply entry_with_entry).
    unfold a1. rewrite with_entry_twice by done. do 5 f_equal. destruct e. by apply with_entry_same. }
  unfold load_page. rewrite (bind_Ret _ _ _ _ _ (pte_read_ret _ _ _ _ _ Hc He)).
  rewrite (bind_Ret _ _ _ _ _ (pte_write_ret _ _ _ _ _ (set_dirty 1) Hc He)). fold a1.
  set (s1 := set_proc (Some (Some a1)) s).
  erewrite (bind_Ret cur_as) by reflexivity.
  replace a1.(vn) with a.(vn) by (symmetry; apply with_entry_file).
  assert (∀ m i, set_proc (Some (Some a)) (set_pm m (bump i s1)) = set_pm m (bump i s)) as Hs1
    by (intros; destruct s; simpl in *; by subst).
  unfold load_amount, PAGE_SIZE in *.
  destruct (Z.gtb_spec (filesz / 4096) vpn) as [Hgt|Hle].
  - pose proof (load_segment_ret (bump 7 s1) a.(vn) (p - base + off) pa 4096 Hb ltac:(lia) Hpa Hram) as Hls.
    unfold load_result in *. simpl (pmem _) in Hls. rewrite (proj2 (Z.eqb_neq 4096 0)) in * by lia.
    destruct (VOP_READ a.(vn) (p - base + off) 4096) as [r bs].
    change 7 with (Z.of_nat 7). unfold mbind at 1, M_bind at 1.
    erewrite bind_Ret by (by apply vmstats_inc_ret; [..|lia]). unfold PAGE_SIZE in Hls. rewrite Hls.
    erewrite bind_Ret by (by apply Hback). by rewrite Hs1.
  - destruct (Z.eqb_spec (filesz / 4096) vpn) as [Heq|Hne]; cbn [andb]; [destruct (Z.eqb_spec (filesz mod 4096) 0) as [Hz|Hz]|]; cbn [negb].
    2:{ pose proof (load_segment_ret (bump 7 s1) a.(vn) (p - base + off) pa (filesz mod 4096) Hb ltac:(lia) Hpa Hram) as Hls.
        unfold load_result in *. simpl (pmem _) in Hls. rewrite (proj2 (Z.eqb_neq (filesz mod 4096) 0)) in * by lia.
        destruct (VOP_READ a.(vn) (p - base + off) (filesz mod 4096)) as [r bs].
        change 7 with (Z.of_nat 7). unfold mbind at 1, M_bind at 1.
        erewrite bind_Ret by (by apply vmstats_inc_ret; [..|lia]). unfold PAGE_SIZE in Hls. rewrite Hls.
        erewrite bind_Ret by (by apply Hback). by rewrite Hs1. }
    all: rewrite ?Hz; unfold load_result; rewrite Z.eqb_refl; cbv iota;
      change 5 with (Z.of_nat 5); unfold mbind at 1, M_bind at 1;
      (erewrite bind_Ret by (by apply vmstats_inc_ret; [..|lia]));
      (erewrite bind_Ret by (by apply vm_bzero_ret)); unfold mret at 1, M_ret at 1;
      (erewrite bind_Ret by (by apply Hback)); by rewrite Hs1.
Qed.

(** Where in the file a page starts, and how much of it is there. *)
Definition load_off (a : addrspace) (seg p : Z) : Z :=
  if seg =? 1 then p - a.(as_vbase1) + a.(offset1)
  else if seg =? 2 then p - a.(as_vbase2) + a.(offset2) else 0.
Definition load_len (a : addrspace) (seg vpn : Z) : Z :=
  if seg =? 1 then load_amount a.(filesz1) vpn
  else if seg =? 2 then load_amount a.(filesz2) vpn else 0.

Lemma load_found_ret s a f e p :
  read_bounded → 1 ≤ f.(fd_seg) ≤ 3 → 0 ≤ a.(filesz1) → 0 ≤ a.(filesz2) →
  s.(curproc) = Some (Some a) → entry_of a f.(fd_seg) f.(fd_vpn) = Some e →
  stats_ok s → 0 ≤ f.(fd_paddr) → f.(fd_paddr) + 4096 ≤ s.(pm).(ramtop) →
  let '(r, m, i) := load_result s.(pm).(pmem) a.(vn) (load_off a f.(fd_seg) p) f.(fd_paddr)
                      (load_len a f.(fd_seg) f.(fd_vpn)) in
  load_found VOP_READ f p s = Ret r (set_pm (set_pmem m s.(pm)) (bump i s)).
Proof.
  intros Hb Hseg Hf1 Hf2 Hc He Hst Hpa Hram. unfold load_found.
  rewrite (bind_Ret cur_as _ s a s) by (unfold cur_as; by rewrite get_bind, Hc).
  unfold load_off, load_len.
  destruct (Z.eqb_spec f.(fd_seg) 1) as [E1|E1]; [|destruct (Z.eqb_spec f.(fd_seg) 2) as [E2|E2]].
  - rewrite E1 in He. by eapply (load_page_ret _ _ _ _ _ p _ a.(as_vbase1) a.(offset1)).
  - rewrite E2 in He. by eapply (load_page_ret _ _ _ _ _ p _ a.(as_vbase2) a.(offset2)).
  - unfold load_result. rewrite Z.eqb_refl. destruct Hst. change 5 with (Z.of_nat 5).
    erewrite bind_Ret by (by apply vmstats_inc_ret; [..|lia]).
    by erewrite bind_Ret by (by apply vm_bzero_ret).
Qed.

(** The state after the first half has given the page a frame. *)
Definition touched (s : vm) (a : addrspace) (seg vpn flag : Z) (e : pte) (k pa : Z) : vm :=
  set_proc (Some (Some (with_entry a seg vpn (map_pte pa (if negb (Z.land flag 2 =? 0) then 1 else 0) e))))
    (set_pm (gave s.(pm) k 1 USER) s).

Lemma segment_of_seg a p seg vpn flag : segment_of a p = Some (seg, vpn, flag) →
  1 ≤ seg ≤ 3 ∧ (seg = 3 → vpn = (p - stackbase) / 4096 ∧ flag = 6).
Proof. unfold segment_of. intros H. repeat case_match; simplify_eq; lia. Qed.

Lemma fault_lookup_new ft p s a seg vpn flag e k :
  ft = VM_FAULT_READ ∨ ft = VM_FAULT_WRITE → machine_ok s → s.(curproc) = Some (Some a) → as_ok a →
  segment_of a p = Some (seg, vpn, flag) → entry_of a seg vpn = Some e → e.(valid) = 0 → e.(sw) = -1 →
  first_free s.(pm).(coremaps) k 1 →
  let pa := s.(pm).(page_start) + k * PAGE_SIZE in
  pa < s.(pm).(paddr_max) - 4096 →
  fault_lookup (Some c) ft p s = Ret (inr (Found seg vpn flag pa true)) (touched s a seg vpn flag e k pa).
Proof.
  intros Hft Hm Hc Ha Hseg He Hv Hsw Hk pa Hpa. pose proof (mo_pm _ Hm) as Hwf.
  pose proof (wf_start _ Hwf) as [Hst _]. destruct Hk as [[Hk0 Hkf] Hkl] eqn:EHk. clear EHk.
  assert (getppages (Some c) 1 USER s.(pm) = Ret pa (gave s.(pm) k 1 USER)) as Hget.
  { rewrite (getppages_ret c 1 USER _ k) by done. cbv zeta. fold pa.
    by destruct (Z.geb_spec pa (s.(pm).(paddr_max) - 4096)); [lia|]. }
  assert (in_pm (getppages (Some c) 1 USER) s = Ret pa (set_pm (gave s.(pm) k 1 USER) s)) as Hget'
    by (unfold in_pm, zoom; by rewrite Hget).
  assert (pa ≠ 0) by (unfold pa, PAGE_SIZE; lia).
  rewrite (fault_lookup_ret _ _ _ _ a) by (done || apply Ha). rewrite Hseg.
  destruct (segment_of_seg _ _ _ _ _ Hseg) as [Hs Hs3].
  destruct (Z.eqb_spec seg 3) as [-> |Hne].
  - destruct Hs3 as [-> ->]; [done|]. unfold fault_stack. unfold PAGE_SIZE at 1 2 3.
    rewrite (bind_Ret _ _ _ _ _ (pte_read_ret _ _ _ _ _ Hc He)), Hv, Hsw. simpl (0 =? 0). cbv iota.
    rewrite (bind_Ret _ _ _ _ _ Hget'). simpl negb. erewrite (bind_Ret (when false _)) by reflexivity.
    rewrite (proj2 (Z.eqb_neq pa 0)) by done.
    by erewrite bind_Ret by (by apply (pte_write_ret _ a)).
  - unfold fault_page. rewrite (bind_Ret _ _ _ _ _ (pte_read_ret _ _ _ _ _ Hc He)), Hv, Hsw.
    simpl (0 =? 0). cbv iota.
    rewrite (bind_Ret _ _ _ _ _ Hget'). simpl negb at 1. erewrite (bind_Ret (when false _)) by reflexivity.
    rewrite (proj2 (Z.eqb_neq pa 0)) by done.
    by erewrite bind_Ret by (by apply (pte_write_ret _ a)).
Qed.

Lemma counted_fields s :
  (counted s).(pm) = s.(pm) ∧ (counted s).(tlb) = s.(tlb) ∧ (counted s).(curproc) = s.(curproc) ∧
  (counted s).(ipl) = s.(ipl) ∧ (stats_ok s → stats_ok (counted s)).
Proof.
  unfold counted, stats_ok. destruct (first_invalid s.(tlb)); simpl; rewrite ?length_alter; auto.
Qed.

(** The writable entry under which the page is loaded. *)
Definition elo_load (f : found) : Z := Z.lor (Z.lor f.(fd_paddr) TLBLO_DIRTY) TLBLO_VALID.

Lemma fill_load_ret s a f e p :
  read_bounded → machine_ok s → s.(curproc) = Some (Some a) → 0 ≤ a.(filesz1) → 0 ≤ a.(filesz2) →
  f.(fd_load) = true → 1 ≤ f.(fd_seg) ≤ 3 → entry_of a f.(fd_seg) f.(fd_vpn) = Some e →
  0 ≤ f.(fd_paddr) → f.(fd_paddr) + 4096 ≤ s.(pm).(ramtop) →
  let '(r, m, _) := load_result s.(pm).(pmem) a.(vn) (load_off a f.(fd_seg) p) f.(fd_paddr)
                      (load_len a f.(fd_seg) f.(fd_vpn)) in
  ∃ s', fill_slot (Some c) VOP_READ f p s.(ipl).(t_curspl) (chosen s) (raised (counted s)) = Ret r s' ∧
    s'.(pm) = set_pmem m s.(pm) ∧ s'.(curproc) = s.(curproc) ∧
    if r =? 0 then s'.(ipl) = s.(ipl) ∧ s'.(tlb) = <[Z.to_nat (chosen s) := (p, elo_of f)]> s.(tlb)
    else s'.(ipl).(irq_on) = false ∧ s'.(tlb) = <[Z.to_nat (chosen s) := (p, elo_load f)]> s.(tlb).
Proof.
  intros Hb Hm Hc Hf1 Hf2 Hl Hseg He Hpa Hram.
  destruct (counted_fields s) as (C1 & C2 & C3 & C4 & C5). specialize (C5 (mo_stats _ Hm)).
  pose proof (chosen_range _ Hm) as Hch. pose proof (mo_tlb _ Hm) as Ht.
  set (s1 := set_tlb (<[Z.to_nat (chosen s) := (p, elo_load f)]> s.(tlb)) (raised (counted s))).
  assert (tlb_write p (elo_load f) (chosen s) (raised (counted s)) = Ret tt s1) as Hw.
  { rewrite tlb_write_ret by (simpl; rewrite C2; lia). simpl. by rewrite C2. }
  pose proof (load_found_ret s1 a f e p Hb Hseg Hf1 Hf2) as Hlf. simpl in Hlf. rewrite C1, C3 in Hlf.
  specialize (Hlf Hc He C5 Hpa Hram).
  destruct (load_result _ _ _ _ _) as [[r m] i]. unfold fill_slot. rewrite Hl. fold (elo_load f).
  rewrite (bind_Ret _ _ _ _ _ Hw), (bind_Ret _ _ _ _ _ Hlf).
  destruct (Z.eqb_spec r 0) as [-> |Hr]; cbn [negb].
  - erewrite bind_Ret by (apply tlb_write_ret; simpl; rewrite length_insert; lia).
    erewrite bind_Ret by (apply (vm_splx_ret c s); [apply Hm|simpl; by rewrite C4]).
    eexists. split; [reflexivity|]. simpl. rewrite list_insert_insert_eq. auto.
  - eexists. split; [reflexivity|]. simpl. auto.
Qed.

Lemma touched_ok s a seg vpn flag e k pa :
  machine_ok s → first_free s.(pm).(coremaps) k 1 → machine_ok (touched s a seg vpn flag e k pa).
Proof. intros [] [Hk _]. split; simpl; try done. by apply gave_wf. Qed.

Lemma elo_load_bits f :
  0 ≤ f.(fd_paddr) < W32 → f.(fd_paddr) mod 4096 = 0 →
  Z.land (elo_load f) PAGE_FRAME = f.(fd_paddr) ∧ Z.land (elo_load f) TLBLO_VALID ≠ 0 ∧
  negb (Z.land (elo_load f) TLBLO_DIRTY =? 0) = true.
Proof.
  intros Hr Ha. pose proof (proj2 (land_page_aligned _ Hr) Ha) as Hf.
  unfold elo_load, TLBLO_VALID, TLBLO_DIRTY. rewrite !Z.land_lor_distr_l, Hf.
  rewrite !(land_aligned_low f.(fd_paddr)) by (done || lia). unfold PAGE_FRAME; simpl.
  by rewrite ?Z.lor_0_r.
Qed.

(** C8. First touch of a page, on success and on failure: the page gets the
    lowest free frame, which the coremap now has as a user page and the page's
    entry as its frame.  A page of the stack or past the file's part is zeroed;
    a page of the file's part receives exactly the bytes the file has for it,
    and where the file ends inside the page the rest keeps what the frame held.
    If the load succeeds, the handler returns 0 with the page mapped with the
    segment's permissions and the interrupt level restored; if it fails, the
    error is returned with interrupts left off and the page left mapped
    writable. *)
Theorem vm_fault_first_touch (ft : faulttype) (addr : Z) (s : vm) (a : addrspace)
    (seg vpn flag : Z) (e : pte) (k : Z) :
  let p := Z.land addr PAGE_FRAME in
  let pa := s.(pm).(page_start) + k * PAGE_SIZE in
  ft = VM_FAULT_READ ∨ ft = VM_FAULT_WRITE → machine_ok s → s.(curproc) = Some (Some a) → as_ok a →
  0 ≤ a.(filesz1) → 0 ≤ a.(filesz2) → read_bounded →
  segment_of a p = Some (seg, vpn, flag) → entry_of a seg vpn = Some e → e.(valid) = 0 → e.(sw) = -1 →
  first_free s.(pm).(coremaps) k 1 → pa < s.(pm).(paddr_max) - 4096 → no_match s.(tlb) p →
  let '(r, m, _) := load_result s.(pm).(pmem) a.(vn) (load_off a seg p) pa (load_len a seg vpn) in
  ∃ s', vm_fault (Some c) VOP_READ ft addr s = Ret r s' ∧
    s'.(pm).(coremaps) = allocated s.(pm).(coremaps) k 1 USER ∧
    s'.(pm).(pmem) = m ∧
    s'.(curproc) = Some (Some (with_entry a seg vpn
                     (Pte pa 1 (if negb (Z.land flag 2 =? 0) then 1 else 0) e.(p_ref) (-1)))) ∧
    if r =? 0 then s'.(ipl) = s.(ipl) ∧ tlb_translate s'.(tlb) p = Some (pa, negb (Z.land flag 2 =? 0))
    else s'.(ipl).(irq_on) = false ∧ tlb_translate s'.(tlb) p = Some (pa, true).
Proof.
  intros p pa Hft Hm Hc Ha Hf1 Hf2 Hb Hseg He Hv Hsw Hk Hpa Hno.
  pose proof (mo_pm _ Hm) as Hwf. pose proof (wf_start _ Hwf). pose proof (wf_max _ Hwf).
  pose proof Hk as [[Hk0 _] _]. unfold PAGE_SIZE in *.
  assert (0 < pa < W32 ∧ pa mod 4096 = 0 ∧ pa + 4096 ≤ s.(pm).(ramtop)) as (P1 & P2 & P3)
    by (unfold pa, W32 in *; lia).
  destruct (segment_of_seg _ _ _ _ _ Hseg) as [Hs _].
  set (f := Found seg vpn flag pa true).
  set (s1 := touched s a seg vpn flag e k pa). set (a1 := with_entry a seg vpn (map_pte pa (if negb (Z.land flag 2 =? 0) then 1 else 0) e)).
  pose proof (fault_lookup_new _ _ _ _ _ _ _ _ _ Hft Hm Hc Ha Hseg He Hv Hsw Hk Hpa) as Hl.
  pose proof (touched_ok s a seg vpn flag e k pa Hm Hk) as Hm1.
  rewrite (vm_fault_found ft addr s s1 f Hl Hm1 Hno P1 P2).
  destruct (with_entry_file a seg vpn (map_pte pa (if negb (Z.land flag 2 =? 0) then 1 else 0) e)) as (F1 & F2 & F3 & F4 & F5 & F6 & F7).
  fold a1 in F1, F2, F3, F4, F5, F6, F7.
  pose proof (fill_load_ret s1 a1 f _ p Hb Hm1 eq_refl ltac:(by rewrite F4) ltac:(by rewrite F5) eq_refl Hs
    (entry_with_entry _ _ _ _ _ Hs He) ltac:(simpl; lia) P3) as Hfill. fold p.
  assert (load_off a1 seg p = load_off a seg p) as Ho by (unfold load_off; by rewrite F2, F3, F6, F7).
  assert (load_len a1 seg vpn = load_len a seg vpn) as Hn by (unfold load_len; by rewrite F4, F5).
  simpl in Hfill. rewrite Ho, Hn, F1 in Hfill.
  destruct (load_result _ _ _ _ _) as [[r m] i]. destruct Hfill as (s' & Hr & H1 & H2 & H3).
  exists s'. split; [exact Hr|]. split; [by rewrite H1|]. split; [by rewrite H1|]. split.
  { rewrite H2. unfold s1, touched, map_pte; simpl. by rewrite Hsw. }
  assert ((Z.to_nat (chosen s1) < length s1.(tlb))%nat) as Hlt
    by (unfold s1; pose proof (chosen_range _ Hm1); rewrite (mo_tlb _ Hm1); lia).
  destruct (elo_of_bits f) as (E1 & E2 & E3); [simpl; lia|done|].
  destruct (elo_load_bits f) as (L1 & L2 & L3); [simpl; lia|done|].
  destruct (r =? 0); destruct H3 as [H3 ->]; (split; [exact H3|]);
    (rewrite tlb_translate_insert; [|exact Hno|exact Hlt|done]).
  - by rewrite E1, E3.
  - by rewrite L1, L3.
Qed.

(** ** Errors *)

(** What the handler refuses: a write to a read-only mapping or an unknown
    kind of fault is [EINVAL], a fault with no process or no address space is
    [EFAULT], and so is one outside both regions and the stack; in each case
    nothing changes. *)
Theorem vm_fault_errors (ft : faulttype) (addr : Z) (s : vm) :
  (ft = VM_FAULT_READONLY ∨ ft = VM_FAULT_OTHER → vm_fault (Some c) VOP_READ ft addr s = Ret EINVAL s) ∧
  (ft = VM_FAULT_READ ∨ ft = VM_FAULT_WRITE →
     (s.(curproc) = None ∨ s.(curproc) = Some None → vm_fault (Some c) VOP_READ ft addr s = Ret EFAULT s) ∧
     (∀ a, s.(curproc) = Some (Some a) → as_layout a → segment_of a (Z.land addr PAGE_FRAME) = None →
        vm_fault (Some c) VOP_READ ft addr s = Ret EFAULT s)).
Proof.
  unfold vm_fault. cbv zeta. split; [|intros Hft; split].
  - by intros [-> | ->].
  - intros Hc. rewrite (bind_Ret _ _ s (inl EFAULT) s); [done|]. unfold fault_lookup.
    destruct Hft as [-> | ->], Hc as [Hc|Hc]; by rewrite get_bind, Hc.
  - intros a Hc Ha Hseg. rewrite (bind_Ret _ _ s (inl EFAULT) s); [done|].
    rewrite (fault_lookup_ret _ _ _ _ a) by done. by rewrite Hseg.
Qed.

(** ** The stack *)

(** A stack page is zeroed on every TLB miss, resident or not: after the
    handler has refilled the TLB for a resident page of the stack, whatever the
    page held is gone. *)
Theorem vm_fault_stack_refill_zeroes (ft : faulttype) (addr : Z) (s : vm) (a : addrspace) (vpn : Z) (e : pte) :
  let p := Z.land addr PAGE_FRAME in
  ft = VM_FAULT_READ ∨ ft = VM_FAULT_WRITE → machine_ok s → s.(curproc) = Some (Some a) → as_ok a →
  0 ≤ a.(filesz1) → 0 ≤ a.(filesz2) → read_bounded →
  segment_of a p = Some (3, vpn, 6) → entry_of a 3 vpn = Some e → e.(valid) ≠ 0 →
  0 < e.(pfn) < W32 → e.(pfn) mod 4096 = 0 → e.(pfn) + 4096 ≤ s.(pm).(ramtop) → no_match s.(tlb) p →
  ∃ s', vm_fault (Some c) VOP_READ ft addr s = Ret 0 s' ∧
    tlb_translate s'.(tlb) p = Some (e.(pfn), true) ∧ s'.(curproc) = s.(curproc) ∧
    ∀ x, e.(pfn) ≤ x < e.(pfn) + 4096 → s'.(pm).(pmem) x = 0.
Proof.
  intros p Hft Hm Hc Ha Hf1 Hf2 Hb Hseg He Hv P1 P2 P3 Hno.
  set (f := Found 3 vpn 6 e.(pfn) true).
  assert (fault_lookup (Some c) ft p s = Ret (inr f) s) as Hl.
  { rewrite (fault_lookup_ret _ _ _ _ a) by (done || apply Ha). rewrite Hseg. simpl.
    destruct (segment_of_seg _ _ _ _ _ Hseg) as [_ [-> _]]; [done|]. unfold fault_stack. unfold PAGE_SIZE at 1.
    rewrite (bind_Ret _ _ _ _ _ (pte_read_ret _ _ _ _ _ Hc He)). by rewrite (proj2 (Z.eqb_neq _ _) Hv). }
  rewrite (vm_fault_found _ _ _ _ _ Hl Hm Hno) by done.
  pose proof (fill_load_ret s a f e p Hb Hm Hc Hf1 Hf2 eq_refl ltac:(simpl; lia) He ltac:(simpl; lia) P3) as Hfill.
  unfold load_len in Hfill. simpl in Hfill. destruct Hfill as (s' & Hr & H1 & H2 & _ & H4).
  exists s'. split; [exact Hr|]. split_and!; [|done|].
  - rewrite H4. destruct (elo_of_bits f) as (E1 & E2 & E3); [simpl; lia|done|].
    rewrite tlb_translate_insert; [by rewrite E1, E3|exact Hno| |done].
    pose proof (chosen_range _ Hm). rewrite (mo_tlb _ Hm). lia.
  - intros x Hx. rewrite H1. simpl. unfold zeroed. zbool.
Qed.

(** ** Forked children *)

(** A child made by [as_copy] cannot touch its program: with the regions of
    a well-laid-out parent, a fault on any page of either region dereferences
    the child's NULL page table. *)
Theorem copied_as_faults (ft : faulttype) (addr : Z) (s : vm) (raw old a : addrspace) (seg vpn flag : Z) :
  ft = VM_FAULT_READ ∨ ft = VM_FAULT_WRITE → as_layout old →
  as_copy true true raw old s = Ret (inr a) s → s.(curproc) = Some (Some a) →
  segment_of a (Z.land addr PAGE_FRAME) = Some (seg, vpn, flag) → seg ≠ 3 →
  vm_fault (Some c) VOP_READ ft addr s = Fault.
Proof.
  intros Hft Ho [= <-] Hc Hseg Hne.
  assert (as_layout (set_region2 old.(as_vbase2) old.(as_npages2) raw.(as_flag2) None
    (set_region1 old.(as_vbase1) old.(as_npages1) raw.(as_flag1) None
       (set_pt3 (Some (replicate (Z.to_nat STACKPAGES) (pte_create 0 0 0))) raw)))) as Hl
    by (destruct Ho; by split).
  unfold vm_fault. cbv zeta. unfold mbind at 1, M_bind at 1.
  rewrite (fault_lookup_ret _ _ _ _ _ Hft Hc) by exact Hl. rewrite Hseg, (proj2 (Z.eqb_neq _ _) Hne).
  unfold fault_page, pte_read, cur_as, get, mbind, M_bind. rewrite Hc. unfold mret at 1, M_ret at 1.
  unfold segment_of in Hseg. repeat case_match; simplify_eq; done.
Qed.
End theorems.

(** ** Activating an address space *)

Section activate.
Context (c : nat).

Definition flushed : list (Z * Z) := (λ i, (TLBHI_INVALID (Z.of_nat i), TLBLO_INVALID)) <$> seq 0 64.

Lemma flush_loop_ret s : length s.(tlb) = 64%nat →
  for_up (Z.to_nat NUM_TLB) 0 (λ i, tlb_write (TLBHI_INVALID i) TLBLO_INVALID i) s =
  Ret tt (set_tlb flushed s).
Proof.
  intros Hl. edestruct (wp_inv (for_up (Z.to_nat NUM_TLB) 0 (λ i, tlb_write (TLBHI_INVALID i) TLBLO_INVALID i))
    (λ _ s', s' = set_tlb flushed s) s) as ([] & s' & -> & ->); [|done].
  apply (wp_for_up (λ j s', ∃ t, s' = set_tlb t s ∧ length t = 64%nat ∧
    ∀ i : nat, Z.of_nat i < j → t !! i = Some (TLBHI_INVALID (Z.of_nat i), TLBLO_INVALID))).
  - exists s.(tlb). split_and!; [by destruct s|done|lia].
  - change (Z.of_nat (Z.to_nat NUM_TLB)) with 64. intros j s' Hj (t & -> & Ht & Hi).
    eapply wp_intro; [apply tlb_write_ret; simpl; lia|]. eexists. split; [reflexivity|]. simpl.
    split; [by rewrite length_insert|]. intros i Hij. destruct (decide (i = Z.to_nat j)) as [-> |].
    + rewrite list_lookup_insert_eq, Z2Nat.id by lia. done.
    + rewrite list_lookup_insert_ne by done. apply Hi. lia.
  - change (0 + Z.of_nat (Z.to_nat NUM_TLB)) with 64. intros s' (t & -> & Ht & Hi). f_equal.
    apply list_eq. intros i. unfold flushed. rewrite list_lookup_fmap.
    destruct (decide (i < 64)%nat) as [H|H].
    + rewrite Hi, lookup_seq_lt by lia. done.
    + rewrite lookup_seq_ge by lia. apply lookup_ge_None. lia.
Qed.

(** Activating an address space flushes the TLB: no page translates any
    more, the entries are pairwise different, and the interrupt level is as
    before; a kernel thread leaves the TLB alone. *)
Theorem as_activate_flushes (s : vm) :
  machine_ok s →
  match s.(curproc) with
  | Some (Some _) =>
      ∃ s', as_activate (Some c) s = Ret tt s' ∧ (∀ p, tlb_translate s'.(tlb) p = None) ∧
        (∀ i j e f, s'.(tlb) !! i = Some e → s'.(tlb) !! j = Some f → e.1 = f.1 → i = j) ∧
        s'.(ipl) = s.(ipl) ∧ s'.(pm) = s.(pm) ∧ s'.(curproc) = s.(curproc)
  | _ => as_activate (Some c) s = Ret tt s
  end.
Proof.
  intros Hm. destruct (curproc s) as [[a|]|] eqn:Hc; unfold as_activate; rewrite get_bind, Hc; [|done..].
  destruct (mo_stats _ Hm) as [S1 S2].
  rewrite (bind_Ret _ _ _ _ _ (vm_splhigh_ret c s (mo_ipl _ Hm))).
  change 3 with (Z.of_nat 3). erewrite bind_Ret by (by apply vmstats_inc_ret; [..|lia]).
  erewrite bind_Ret by (apply flush_loop_ret, Hm).
  rewrite (vm_splx_ret c s) by (done || apply Hm). eexists. split; [reflexivity|].
  split_and!; [| |done|done|done]; cbn [tlb set_ipl set_tlb].
  - intros p. unfold tlb_translate.
    assert (list_find (λ e : Z * Z, Z.land e.2 TLBLO_VALID ≠ 0 ∧ e.1 = p) flushed = None) as ->; [|done].
    apply list_find_None, Forall_forall. intros e [i [-> _]]%list_elem_of_fmap [H _]. done.
  - intros i j e f. unfold flushed. rewrite !list_lookup_fmap.
    intros (i' & Hi & ->)%fmap_Some (j' & Hj & ->)%fmap_Some. simpl.
    apply lookup_seq in Hi as [-> Hi], Hj as [-> Hj]. unfold TLBHI_INVALID, u32.
    rewrite !Z.shiftl_mul_pow2 by lia. lia.
Qed.
End activate.

(** ** Booting *)

(** The coremap that [vm_bootstrap] lays out: well formed, its table below
    the first frame it manages and thus never handed out, all frames free; but
    since it has one frame per page of memory counted from below the table, its
    last frames lie above the end of memory. *)
Lemma vm_bootstrap_layout (c : nat) (lock_create swap_alloc : M pmm bool) (raw : nat → frame)
    (s : vm) (p1 : pmm) :
  spl_inv 0 s.(ipl) → s.(stats_lock) = false → lock_create s.(pm) = Ret true p1 →
  PAGE_SIZE ≤ p1.(firstpaddr) → p1.(firstpaddr) mod PAGE_SIZE = 0 →
  p1.(firstpaddr) + PAGE_SIZE ≤ p1.(lastpaddr) → p1.(lastpaddr) ≤ 508 * 1024 * 1024 →
  p1.(lastpaddr) ≤ p1.(ramtop) → p1.(ramtop) < W32 →
  p1.(stealmem_lock) = SPINLOCK_INITIALIZER → p1.(ref_) = -1 →
  ∃ p2, cm_wf p2 ∧
    p2.(coremap_size) = (p1.(lastpaddr) - p1.(firstpaddr)) / PAGE_SIZE ∧
    p1.(firstpaddr) + p2.(coremap_size) * sizeof_coremap ≤ p2.(page_start) ∧
    (∀ i f, zlookup p2.(coremaps) i = Some f → f.(f_state) = FREE) ∧
    p2.(paddr_max) < p2.(page_start) + p2.(coremap_size) * PAGE_SIZE ∧
    ∀ p3, swap_alloc p2 = Ret true p3 →
      ∃ s', vm_bootstrap (Some c) lock_create swap_alloc raw s = Ret tt s' ∧ s'.(pm) = p3 ∧
            s'.(ipl) = s.(ipl).
Proof.
  intros Hspl Hsl Hlc Hlo Hal Hlh Hhi Hram Htop Hlock Href.
  set (lo := p1.(firstpaddr)) in *. set (hi := p1.(lastpaddr)) in *. unfold PAGE_SIZE, W32 in *.
  set (n := (hi - lo) / 4096). set (bytes := n * 20).
  set (fa := if negb (bytes mod 4096 =? 0) then lo + 4096 + bytes / 4096 * 4096 else lo + bytes / 4096 * 4096).
  assert (1 ≤ n ∧ n * 4096 ≤ hi - lo < n * 4096 + 4096) as [Hn1 Hn2] by (unfold n; lia).
  assert (fa mod 4096 = 0 ∧ lo + bytes ≤ fa < lo + bytes + 4096 ∧ lo < fa) as (F1 & F2 & F3)
    by (unfold fa, bytes; zbool).
  set (q := Pmm (raw <$> seq 0 (Z.to_nat n)) n p1.(page_start) (-1) p1.(after_init) p1.(stealmem_lock) hi
              p1.(pvictim) 0 0 p1.(ramtop) p1.(pmem)).
  set (p2 := set_pvictim 0 (set_after_init (set_coremaps (fresh_frames fa (Z.to_nat n)) (set_page_start fa q)))).
  assert (init_coremap fa q = Ret tt p2) as Hinit.
  { rewrite init_coremap_ret; [done|simpl; rewrite length_fmap, length_seq; lia|lia|].
    unfold PAGE_SIZE, W32; simpl. unfold bytes in *. lia. }
  exists p2. split_and!; simpl.
  - split; simpl; try done.
    + unfold fresh_frames. rewrite length_fmap, length_seq. lia.
    + by intros i f [_ ->]%zlookup_fresh.
    + unfold PAGE_SIZE. lia.
    + unfold PAGE_SIZE, W32, bytes in *. lia.
    + unfold PAGE_SIZE, W32. lia.
    + by intros i f [_ ->]%zlookup_fresh.
    + by left.
  - done.
  - unfold sizeof_coremap, bytes in *. lia.
  - by intros i f [_ ->]%zlookup_fresh.
  - unfold bytes in *. lia.
  - intros p3 Hsw. unfold vm_bootstrap. rewrite (bind_Ret _ _ _ _ _ (vm_splhigh_ret c s Hspl)).
    unfold vmstats_init, mbind, M_bind, get, in_pm, zoom; simpl. rewrite Hsl. simpl. rewrite Hlc. simpl.
    unfold ram_getsize, mbind, M_bind, get, modify, mret, M_ret; simpl. fold lo hi. unfold PAGE_SIZE.
    rewrite (u32_small (hi - lo)) by (unfold W32; lia). fold n. unfold sizeof_coremap. fold bytes.
    rewrite (u32_small bytes) by (unfold W32, bytes; lia).
    change 0xfffff000 with PAGE_FRAME. rewrite land_page_frame by (unfold W32, bytes; lia).
    rewrite !u32_small by (unfold W32, bytes in *; lia). fold fa.
    rewrite Href. fold q. rewrite Hinit. unfold swap_initialize, in_pm, zoom, mbind, M_bind; simpl.
    rewrite Hsw. unfold modify; simpl.
    rewrite (vm_splx_ret c s) by done. eexists. split; [reflexivity|]. done.
Qed.

(** ** An example machine

    Segment 1 has two pages at 4M, of which the file has 5000 bytes, and is read
    only; segment 2 has one page of zeroes and is writable. *)
Definition example_read : Z → Z → Z → Z * list Z := λ v off n, (0, replicate (Z.to_nat n) (off mod 256)).

Lemma example_read_bounded : read_bounded example_read.
Proof. intros v o n Hn. simpl. rewrite length_replicate. lia. Qed.

Definition example_as (e1 e3 : pte) : addrspace :=
  Addrspace 0x400000 2 5 0x410000 1 6 1 0x1000 0x3000 5000 0 1 0
    (Some [e1; pte_create 0 0 0]) (Some [pte_create 0 0 0]) (Some (e3 :: replicate 11 (pte_create 0 0 0))).

Definition example_vm (e1 e3 : pte) : vm :=
  Vm example_pmm (replicate 64 (0, 0)) 0 true (replicate 10 0) (SplState 0 0 true)
     (Some (Some (example_as e1 e3))) [].

Lemma example_machine e1 e3 : machine_ok (example_vm e1 e3).
Proof. split; simpl; try done; [exact example_wf|]. split; [by left|done]. Qed.

Lemma example_layout e1 e3 : as_layout (example_as e1 e3).
Proof. by split; split; simpl; unfold USERSTACK. Qed.

Lemma example_as_ok e1 e3 : as_ok (example_as e1 e3).
Proof. split; [apply example_layout|..]; eexists; (split; [reflexivity|done]). Qed.

Lemma example_no_match p : no_match (replicate 64 (0, 0)) p.
Proof. intros i e [-> _]%lookup_replicate H. by destruct H. Qed.

Lemma vm_fault_resident_witness :
  ∃ elo, vm_fault (Some 0%nat) example_read VM_FAULT_READ 0x400123
           (example_vm (Pte 0x12000 1 0 0 (-1)) (pte_create 0 0 0)) =
    Ret 0 (set_tlb (<[0%nat := (0x400000, elo)]> (replicate 64 (0, 0)))
             (bump 4 (counted (example_vm (Pte 0x12000 1 0 0 (-1)) (pte_create 0 0 0))))).
Proof.
  destruct (vm_fault_resident 0 example_read VM_FAULT_READ 0x400123
    (example_vm (Pte 0x12000 1 0 0 (-1)) (pte_create 0 0 0))
    (example_as (Pte 0x12000 1 0 0 (-1)) (pte_create 0 0 0)) 1 0 5 (Pte 0x12000 1 0 0 (-1)))
    as (elo & H & _); try done; try (left; reflexivity).
  - apply example_machine.
  - apply example_as_ok.
  - apply example_no_match.
  - exists elo. exact H.
Defined.

Lemma vm_fault_first_touch_witness :
  ∃ s', vm_fault (Some 0%nat) example_read VM_FAULT_READ 0x401234
          (example_vm (pte_create 0 0 0) (pte_create 0 0 0)) = Ret 0 s' ∧
    tlb_translate s'.(tlb) 0x401000 = Some (0x10000, false) ∧
    s'.(pm).(pmem) = store_bytes (λ _, 170) 0x10000 (replicate 904 0).
Proof.
  destruct (vm_fault_first_touch 0 example_read VM_FAULT_READ 0x401234
    (example_vm (pte_create 0 0 0) (pte_create 0 0 0))
    (example_as (pte_create 0 0 0) (pte_create 0 0 0)) 1 1 5 (pte_create 0 0 0) 0)
    as (s' & H1 & _ & H3 & _ & _ & H6); try done; try (left; reflexivity).
  - apply example_machine.
  - apply example_as_ok.
  - apply example_read_bounded.
  - apply example_first. lia.
  - apply example_no_match.
  - exists s'. split; [exact H1|]. split; [exact H6|exact H3].
Defined.

Lemma vm_fault_stack_refill_zeroes_witness :
  ∃ s', vm_fault (Some 0%nat) example_read VM_FAULT_WRITE 0x7fff4010
          (example_vm (pte_create 0 0 0) (Pte 0x12000 1 1 0 (-1))) = Ret 0 s' ∧
    ∀ x, 0x12000 ≤ x < 0x12000 + 4096 → s'.(pm).(pmem) x = 0.
Proof.
  destruct (vm_fault_stack_refill_zeroes 0 example_read VM_FAULT_WRITE 0x7fff4010
    (example_vm (pte_create 0 0 0) (Pte 0x12000 1 1 0 (-1)))
    (example_as (pte_create 0 0 0) (Pte 0x12000 1 1 0 (-1))) 0 (Pte 0x12000 1 1 0 (-1)))
    as (s' & H1 & _ & _ & H4); try done; try (right; reflexivity).
  - apply example_machine.
  - apply example_as_ok.
  - apply example_read_bounded.
  - apply example_no_match.
  - exists s'. split; [exact H1|exact H4].
Defined.

Lemma copied_as_faults_witness :
  ∃ a, as_copy true true raw_addrspace (example_as (pte_create 0 0 0) (pte_create 0 0 0)) tt = Ret (inr a) tt ∧
    vm_fault (Some 0%nat) example_read VM_FAULT_READ 0x400000
      (set_proc (Some (Some a)) (example_vm (pte_create 0 0 0) (pte_create 0 0 0))) = Fault.
Proof.
  eexists. split; [reflexivity|].
  eapply (copied_as_faults 0 example_read VM_FAULT_READ 0x400000 _ raw_addrspace
    (example_as (pte_create 0 0 0) (pte_create 0 0 0)) _ 1 0 9);
    [left; reflexivity|apply example_layout|reflexivity|reflexivity|reflexivity|discriminate].
Defined.

Lemma as_activate_flushes_witness :
  ∃ s', as_activate (Some 0%nat) (example_vm (pte_create 0 0 0) (pte_create 0 0 0)) = Ret tt s' ∧
        tlb_translate s'.(tlb) 0x400000 = None.
Proof.
  destruct (as_activate_flushes 0 (example_vm (pte_create 0 0 0) (pte_create 0 0 0)) (example_machine _ _))
    as (s' & H1 & H2 & _).
  exists s'. split; [exact H1|exact (H2 0x400000)].
Defined.

Definition example_boot : vm :=
  Vm (Pmm [] 0 0 (-1) false SPINLOCK_INITIALIZER 0 0 0x10000 0x40000 0x40000 (λ _, 170))
     (replicate 64 (0, 0)) 0 false [] (SplState 0 0 true) None [].

Lemma vm_bootstrap_layout_witness :
  ∃ p2 s', cm_wf p2 ∧ p2.(coremap_size) = 48 ∧
    vm_bootstrap (Some 0%nat) (mret true) (mret true) (λ _, Frame 0 USED NO 9) example_boot = Ret tt s' ∧
    s'.(pm) = p2.
Proof.
  destruct (vm_bootstrap_layout 0 (mret true) (mret true) (λ _, Frame 0 USED NO 9) example_boot example_boot.(pm))
    as (p2 & H1 & H2 & _ & _ & _ & H6); try done; [split; [by left|done]|].
  destruct (H6 p2 eq_refl) as (s' & H7 & H8 & _).
  exists p2, s'. split; [exact H1|]. split; [exact H2|]. split; [exact H7|exact H8].
Defined.
