(* ===== verification/Loadelf.v ===== *)
(** Loading executables: [load_elf] of kern/syscall/loadelf.c, with the ELF
    structures of kern/include/elf.h as the bytes the file has.

    The file is reached through [VOP_READ], an argument: given an offset and a
    length it gives an error code and the bytes it stored in the kernel buffer.
    With demand paging the function only defines the regions and records where
    their contents are; the pages come in through [vm_fault]. *)

From Stdlib Require Import ZArith Lia.
From stdpp Require Import base numbers list.
From S2P Require Import Prelude Spinlock Coremap Addrspace.

(** ** Big-endian fields of a structure *)

Definition byte_at (bs : list Z) (i : nat) : Z := default 0 (bs !! i).
Definition be16 (bs : list Z) (i : nat) : Z := byte_at bs i * 256 + byte_at bs (i + 1).
Definition be32 (bs : list Z) (i : nat) : Z := be16 bs i * 65536 + be16 bs (i + 2).

Definition enc16 (x : Z) : list Z := [x / 256; x mod 256].
Definition enc32 (x : Z) : list Z := enc16 (x / 65536) ++ enc16 (x mod 65536).

Record Elf_Ehdr := Ehdr {
  e_ident : list Z; e_type : Z; e_machine : Z; e_version : Z; e_entry : Z; e_phoff : Z;
  e_shoff : Z; e_flags : Z; e_ehsize : Z; e_phentsize : Z; e_phnum : Z;
  e_shentsize : Z; e_shnum : Z; e_shstrndx : Z;
}.

Record Elf_Phdr := Phdr {
  p_type : Z; p_offset : Z; p_vaddr : Z; p_paddr : Z; p_filesz : Z; p_memsz : Z; p_flags : Z; p_align : Z;
}.

Definition sizeof_Ehdr : Z := 52.
Definition sizeof_Phdr : Z := 32.

(** The structure a buffer of the right size holds. *)
Definition as_ehdr (bs : list Z) : Elf_Ehdr :=
  Ehdr (take 16 bs) (be16 bs 16) (be16 bs 18) (be32 bs 20) (be32 bs 24) (be32 bs 28) (be32 bs 32)
       (be32 bs 36) (be16 bs 40) (be16 bs 42) (be16 bs 44) (be16 bs 46) (be16 bs 48) (be16 bs 50).
Definition as_phdr (bs : list Z) : Elf_Phdr :=
  Phdr (be32 bs 0) (be32 bs 4) (be32 bs 8) (be32 bs 12) (be32 bs 16) (be32 bs 20) (be32 bs 24) (be32 bs 28).

Definition enc_phdr (p : Elf_Phdr) : list Z :=
  enc32 p.(p_type) ++ enc32 p.(p_offset) ++ enc32 p.(p_vaddr) ++ enc32 p.(p_paddr) ++
  enc32 p.(p_filesz) ++ enc32 p.(p_memsz) ++ enc32 p.(p_flags) ++ enc32 p.(p_align).
Definition enc_ehdr (e : Elf_Ehdr) : list Z :=
  e.(e_ident) ++ enc16 e.(e_type) ++ enc16 e.(e_machine) ++ enc32 e.(e_version) ++ enc32 e.(e_entry) ++
  enc32 e.(e_phoff) ++ enc32 e.(e_shoff) ++ enc32 e.(e_flags) ++ enc16 e.(e_ehsize) ++
  enc16 e.(e_phentsize) ++ enc16 e.(e_phnum) ++ enc16 e.(e_shentsize) ++ enc16 e.(e_shnum) ++
  enc16 e.(e_shstrndx).

(** ** load_elf *)

Definition PT_NULL : Z := 0.
Definition PT_LOAD : Z := 1.
Definition PT_PHDR : Z := 6.
Definition PT_MIPS_REGINFO : Z := 0x70000000.

Record loader := Loader { ld_pm : pmm; ld_as : addrspace }.

Definition set_as (a : addrspace) (s : loader) : loader := Loader s.(ld_pm) a.

(** The test that the file is a 32-bit big-endian MIPS executable. *)
Definition ehdr_bad (eh : Elf_Ehdr) : bool :=
  let id := byte_at eh.(e_ident) in
  negb (id 0%nat =? 0x7f) || negb (id 1%nat =? 69) || negb (id 2%nat =? 76) || negb (id 3%nat =? 70) ||
  negb (id 4%nat =? 1) || negb (id 5%nat =? 2) || negb (id 6%nat =? 1) ||
  negb (eh.(e_version) =? 1) || negb (eh.(e_type) =? 2) || negb (eh.(e_machine) =? 8).

Inductive ph_class := Skip | Load | Unknown.
Definition classify (ty : Z) : ph_class :=
  if (ty =? PT_NULL) || (ty =? PT_PHDR) || (ty =? PT_MIPS_REGINFO) then Skip
  else if ty =? PT_LOAD then Load else Unknown.

Section load.
Context (mycpu : option nat).
Context (v : Z) (VOP_READ : Z → Z → Z * list Z).

(** [uio_kinit] of a structure, [VOP_READ], and the check for a short read. *)
Definition read_struct (offset size : Z) : Z + list Z :=
  let '(result, bs) := VOP_READ offset size in
  if negb (result =? 0) then inl result
  else if negb (size - Z.of_nat (length bs) =? 0) then inl ENOEXEC
  else inr bs.

Definition phdr_offset (eh : Elf_Ehdr) (i : Z) : Z := u32 (eh.(e_phoff) + i * eh.(e_phentsize)).

(** First pass: the regions. *)
Definition define_segment (eh : Elf_Ehdr) (i : Z) : M loader (option Z) :=
  match read_struct (phdr_offset eh i) sizeof_Phdr with
  | inl e => mret (Some e)
  | inr bs =>
      let ph := as_phdr bs in
      match classify ph.(p_type) with
      | Skip => mret None
      | Unknown => mret (Some ENOEXEC)
      | Load =>
          s ← get;
          r ← zoom ld_pm (λ p s, Loader p s.(ld_as))
                (as_define_region mycpu s.(ld_as) ph.(p_vaddr) ph.(p_memsz)
                   (Z.land ph.(p_flags) PF_R) (Z.land ph.(p_flags) PF_W) (Z.land ph.(p_flags) PF_X));
          modify (set_as r.2);;
          mret (if negb (r.1 =? 0) then Some r.1 else None)
      end
  end.

Definition set_file1 (off x sz : Z) (a : addrspace) : addrspace :=
  Addrspace a.(as_vbase1) a.(as_npages1) a.(as_flag1) a.(as_vbase2) a.(as_npages2) a.(as_flag2)
    a.(vn) off a.(offset2) sz a.(filesz2) x a.(is_exec2) a.(pt1) a.(pt2) a.(pt3).
Definition set_file2 (off x sz : Z) (a : addrspace) : addrspace :=
  Addrspace a.(as_vbase1) a.(as_npages1) a.(as_flag1) a.(as_vbase2) a.(as_npages2) a.(as_flag2)
    a.(vn) a.(offset1) off a.(filesz1) sz a.(is_exec1) x a.(pt1) a.(pt2) a.(pt3).
Definition set_vn (n : Z) (a : addrspace) : addrspace :=
  Addrspace a.(as_vbase1) a.(as_npages1) a.(as_flag1) a.(as_vbase2) a.(as_npages2) a.(as_flag2)
    n a.(offset1) a.(offset2) a.(filesz1) a.(filesz2) a.(is_exec1) a.(is_exec2) a.(pt1) a.(pt2) a.(pt3).

(** Second pass: where the contents are, by the index of the program header. *)
Definition record_segment (eh : Elf_Ehdr) (i : Z) : M loader (option Z) :=
  match read_struct (phdr_offset eh i) sizeof_Phdr with
  | inl e => mret (Some e)
  | inr bs =>
      let ph := as_phdr bs in
      match classify ph.(p_type) with
      | Skip => mret None
      | Unknown => mret (Some ENOEXEC)
      | Load =>
          modify (λ s, set_as
            (if i =? 1 then set_file1 ph.(p_offset) (Z.land ph.(p_flags) PF_X) ph.(p_filesz) s.(ld_as)
             else if i =? 2 then set_file2 ph.(p_offset) (Z.land ph.(p_flags) PF_X) ph.(p_filesz) s.(ld_as)
             else s.(ld_as)) s);;
          modify (λ s, set_as (set_vn v s.(ld_as)) s);;
          mret None
      end
  end.

(** The error code, and the entry point on success. *)
Definition load_elf : M loader (Z + Z) :=
  match read_struct 0 sizeof_Ehdr with
  | inl e => mret (inl e)
  | inr bs =>
      let eh := as_ehdr bs in
      if ehdr_bad eh then mret (inl ENOEXEC)
      else
        r ← for_find (Z.to_nat eh.(e_phnum)) 0 (define_segment eh);
        match r with
        | Some e => mret (inl e)
        | None =>
            s ← get;
            r ← as_prepare_load s.(ld_as);
            if negb (r =? 0) then mret (inl r)
            else
              r ← for_find (Z.to_nat eh.(e_phnum)) 0 (record_segment eh);
              match r with
              | Some e => mret (inl e)
              | None =>
                  s ← get;
                  r ← as_complete_load s.(ld_as);
                  if negb (r =? 0) then mret (inl r) else mret (inr eh.(e_entry))
              end
        end
  end.
End load.

(** ** The structures round trip *)

Definition u16_ok (x : Z) : Prop := 0 ≤ x < 65536.
Definition u32_ok (x : Z) : Prop := 0 ≤ x < W32.

Lemma be16_enc l1 x l2 i : length l1 = i → u16_ok x → be16 (l1 ++ enc16 x ++ l2) i = x.
Proof.
  intros <- Hx. unfold be16, byte_at. rewrite lookup_app_r, Nat.sub_diag by lia. simpl.
  rewrite lookup_app_r by lia. replace (length l1 + 1 - length l1)%nat with 1%nat by lia. simpl.
  unfold u16_ok in Hx. lia.
Qed.

Lemma be32_enc l1 x l2 i : length l1 = i → u32_ok x → be32 (l1 ++ enc32 x ++ l2) i = x.
Proof.
  intros Hi Hx. unfold be32, enc32, u32_ok, W32 in *. rewrite <- app_assoc.
  rewrite (be16_enc l1) by (done || unfold u16_ok; lia). rewrite (app_assoc l1).
  rewrite (be16_enc (l1 ++ _)) by (rewrite ?length_app; simpl; unfold u16_ok; lia). lia.
Qed.

Definition phdr_ok (p : Elf_Phdr) : Prop :=
  u32_ok p.(p_type) ∧ u32_ok p.(p_offset) ∧ u32_ok p.(p_vaddr) ∧ u32_ok p.(p_paddr) ∧
  u32_ok p.(p_filesz) ∧ u32_ok p.(p_memsz) ∧ u32_ok p.(p_flags) ∧ u32_ok p.(p_align).
Definition ehdr_ok (e : Elf_Ehdr) : Prop :=
  length e.(e_ident) = 16%nat ∧ u16_ok e.(e_type) ∧ u16_ok e.(e_machine) ∧ u32_ok e.(e_version) ∧
  u32_ok e.(e_entry) ∧ u32_ok e.(e_phoff) ∧ u32_ok e.(e_shoff) ∧ u32_ok e.(e_flags) ∧
  u16_ok e.(e_ehsize) ∧ u16_ok e.(e_phentsize) ∧ u16_ok e.(e_phnum) ∧ u16_ok e.(e_shentsize) ∧
  u16_ok e.(e_shnum) ∧ u16_ok e.(e_shstrndx).

Lemma as_phdr_enc p : phdr_ok p → as_phdr (enc_phdr p) = p ∧ Z.of_nat (length (enc_phdr p)) = sizeof_Phdr.
Proof.
  destruct p as [a b c d e f g h]. intros (H1 & H2 & H3 & H4 & H5 & H6 & H7 & H8). simpl in *.
  split; [|done]. unfold as_phdr, enc_phdr; simpl p_type; simpl p_offset; simpl p_vaddr; simpl p_paddr;
    simpl p_filesz; simpl p_memsz; simpl p_flags; simpl p_align.
  f_equal.
  - by apply (be32_enc []).
  - by apply (be32_enc (enc32 a)).
  - by apply (be32_enc (enc32 a ++ enc32 b)).
  - by apply (be32_enc (enc32 a ++ enc32 b ++ enc32 c)).
  - by apply (be32_enc (enc32 a ++ enc32 b ++ enc32 c ++ enc32 d)).
  - by apply (be32_enc (enc32 a ++ enc32 b ++ enc32 c ++ enc32 d ++ enc32 e)).
  - by apply (be32_enc (enc32 a ++ enc32 b ++ enc32 c ++ enc32 d ++ enc32 e ++ enc32 f)).
  - rewrite <- (app_nil_r (enc32 h)).
    by apply (be32_enc (enc32 a ++ enc32 b ++ enc32 c ++ enc32 d ++ enc32 e ++ enc32 f ++ enc32 g)).
Qed.

Lemma as_ehdr_enc e : ehdr_ok e → as_ehdr (enc_ehdr e) = e ∧ Z.of_nat (length (enc_ehdr e)) = sizeof_Ehdr.
Proof.
  destruct e as [id ty ma ve en po so fl eh pe pn se sn ss].
  intros (H0 & H1 & H2 & H3 & H4 & H5 & H6 & H7 & H8 & H9 & H10 & H11 & H12 & H13). simpl in *.
  do 16 (destruct id as [|? id]; [done|]). destruct id; [|done]. clear H0.
  split; [|done]. unfold as_ehdr, enc_ehdr; cbn [e_ident e_type e_machine e_version e_entry e_phoff
    e_shoff e_flags e_ehsize e_phentsize e_phnum e_shentsize e_shnum e_shstrndx].
  set (id := [_; _; _; _; _; _; _; _; _; _; _; _; _; _; _; _]).
  f_equal.
  - by apply (be16_enc id).
  - by apply (be16_enc (id ++ enc16 ty)).
  - by apply (be32_enc (id ++ enc16 ty ++ enc16 ma)).
  - by apply (be32_enc (id ++ enc16 ty ++ enc16 ma ++ enc32 ve)).
  - by apply (be32_enc (id ++ enc16 ty ++ enc16 ma ++ enc32 ve ++ enc32 en)).
  - by apply (be32_enc (id ++ enc16 ty ++ enc16 ma ++ enc32 ve ++ enc32 en ++ enc32 po)).
  - by apply (be32_enc (id ++ enc16 ty ++ enc16 ma ++ enc32 ve ++ enc32 en ++ enc32 po ++ enc32 so)).
  - by apply (be16_enc (id ++ enc16 ty ++ enc16 ma ++ enc32 ve ++ enc32 en ++ enc32 po ++ enc32 so ++ enc32 fl)).
  - by apply (be16_enc (id ++ enc16 ty ++ enc16 ma ++ enc32 ve ++ enc32 en ++ enc32 po ++ enc32 so ++ enc32 fl ++ enc16 eh)).
  - by apply (be16_enc (id ++ enc16 ty ++ enc16 ma ++ enc32 ve ++ enc32 en ++ enc32 po ++ enc32 so ++ enc32 fl ++ enc16 eh ++ enc16 pe)).
  - by apply (be16_enc (id ++ enc16 ty ++ enc16 ma ++ enc32 ve ++ enc32 en ++ enc32 po ++ enc32 so ++ enc32 fl ++ enc16 eh ++ enc16 pe ++ enc16 pn)).
  - by apply (be16_enc (id ++ enc16 ty ++ enc16 ma ++ enc32 ve ++ enc32 en ++ enc32 po ++ enc32 so ++ enc32 fl ++ enc16 eh ++ enc16 pe ++ enc16 pn ++ enc16 se)).
  - rewrite <- (app_nil_r (enc16 ss)).
    by apply (be16_enc (id ++ enc16 ty ++ enc16 ma ++ enc32 ve ++ enc32 en ++ enc32 po ++ enc32 so ++ enc32 fl ++ enc16 eh ++ enc16 pe ++ enc16 pn ++ enc16 se ++ enc16 sn)).
Qed.

(** ** What the loader does with a file *)

(** The file has header [eh] and program headers [phs], and reads succeed. *)
Definition elf_file (VOP_READ : Z → Z → Z * list Z) (eh : Elf_Ehdr) (phs : list Elf_Phdr) : Prop :=
  ehdr_ok eh ∧ eh.(e_phnum) = Z.of_nat (length phs) ∧
  VOP_READ 0 sizeof_Ehdr = (0, enc_ehdr eh) ∧
  ∀ (i : nat) ph, phs !! i = Some ph → phdr_ok ph ∧
    VOP_READ (phdr_offset eh (Z.of_nat i)) sizeof_Phdr = (0, enc_phdr ph).

Section loads.
Context (c : nat) (v : Z) (VOP_READ : Z → Z → Z * list Z) (eh : Elf_Ehdr) (phs : list Elf_Phdr).
Hypothesis Hfile : elf_file VOP_READ eh phs.

Lemma read_ehdr : read_struct VOP_READ 0 sizeof_Ehdr = inr (enc_ehdr eh) ∧ as_ehdr (enc_ehdr eh) = eh.
Proof.
  destruct Hfile as (Hok & _ & Hr & _). destruct (as_ehdr_enc _ Hok) as [H1 H2].
  unfold read_struct. rewrite Hr, H2. simpl. auto.
Qed.

Lemma read_phdr (i : nat) ph : phs !! i = Some ph →
  read_struct VOP_READ (phdr_offset eh (Z.of_nat i)) sizeof_Phdr = inr (enc_phdr ph) ∧
  as_phdr (enc_phdr ph) = ph.
Proof.
  intros Hi. destruct Hfile as (_ & _ & _ & Hp). destruct (Hp _ _ Hi) as [Hok Hr].
  destruct (as_phdr_enc _ Hok) as [H1 H2]. unfold read_struct. rewrite Hr, H2. simpl. auto.
Qed.

(** The region a loadable header asks for. *)
Definition define (ph : Elf_Phdr) (a : addrspace) : M pmm (Z * addrspace) :=
  as_define_region (Some c) a ph.(p_vaddr) ph.(p_memsz)
    (Z.land ph.(p_flags) PF_R) (Z.land ph.(p_flags) PF_W) (Z.land ph.(p_flags) PF_X).

Lemma define_segment_load (i : nat) ph s a' p' :
  phs !! i = Some ph → classify ph.(p_type) = Load → define ph s.(ld_as) s.(ld_pm) = Ret (0, a') p' →
  define_segment (Some c) VOP_READ eh (Z.of_nat i) s = Ret None (Loader p' a').
Proof.
  intros Hi Hc Hd. unfold define_segment. destruct (read_phdr _ _ Hi) as [-> ->]. rewrite Hc, get_bind.
  unfold mbind, M_bind, zoom. unfold define in Hd. by rewrite Hd.
Qed.

Lemma define_segment_skip (i : nat) ph s :
  phs !! i = Some ph → classify ph.(p_type) = Skip →
  define_segment (Some c) VOP_READ eh (Z.of_nat i) s = Ret None s.
Proof. intros Hi Hc. unfold define_segment. destruct (read_phdr _ _ Hi) as [-> ->]. by rewrite Hc. Qed.

Lemma record_segment_skip (i : nat) ph s :
  phs !! i = Some ph → classify ph.(p_type) = Skip →
  record_segment v VOP_READ eh (Z.of_nat i) s = Ret None s.
Proof. intros Hi Hc. unfold record_segment. destruct (read_phdr _ _ Hi) as [-> ->]. by rewrite Hc. Qed.

Definition file_recorded (i : nat) (ph : Elf_Phdr) (a : addrspace) : addrspace :=
  set_vn v (match i with
            | 1%nat => set_file1 ph.(p_offset) (Z.land ph.(p_flags) PF_X) ph.(p_filesz) a
            | 2%nat => set_file2 ph.(p_offset) (Z.land ph.(p_flags) PF_X) ph.(p_filesz) a
            | _ => a
            end).

Lemma record_segment_load (i : nat) ph s :
  phs !! i = Some ph → classify ph.(p_type) = Load →
  record_segment v VOP_READ eh (Z.of_nat i) s = Ret None (set_as (file_recorded i ph s.(ld_as)) s).
Proof.
  intros Hi Hc. unfold record_segment. destruct (read_phdr _ _ Hi) as [-> ->]. rewrite Hc.
  unfold mbind, M_bind, modify, file_recorded. destruct i as [|[|[|i]]]; try done.
  destruct (Z.eqb_spec (Z.of_nat (S (S (S i)))) 1), (Z.eqb_spec (Z.of_nat (S (S (S i)))) 2); done || lia.
Qed.

Lemma load_elf_passes s s1 s2 :
  ehdr_bad eh = false →
  for_find (length phs) 0 (define_segment (Some c) VOP_READ eh) s = Ret None s1 →
  for_find (length phs) 0 (record_segment v VOP_READ eh) s1 = Ret None s2 →
  load_elf (Some c) v VOP_READ s = Ret (inr eh.(e_entry)) s2.
Proof.
  intros Hb H1 H2. unfold load_elf. destruct read_ehdr as [-> ->]. rewrite Hb.
  destruct Hfile as (_ & -> & _). rewrite Nat2Z.id.
  rewrite (bind_Ret _ _ _ _ _ H1), get_bind. unfold as_prepare_load. mrun. simpl.
  by rewrite (bind_Ret _ _ _ _ _ H2).
Qed.
End loads.

(** The ELF structures round trip: a header or program header written out
    big-endian field by field has the size the loader asks for, and the loader
    reads the same fields back. *)
Theorem elf_headers_roundtrip (e : Elf_Ehdr) (p : Elf_Phdr) :
  ehdr_ok e → phdr_ok p →
  as_ehdr (enc_ehdr e) = e ∧ Z.of_nat (length (enc_ehdr e)) = sizeof_Ehdr ∧
  as_phdr (enc_phdr p) = p ∧ Z.of_nat (length (enc_phdr p)) = sizeof_Phdr.
Proof. intros [H1 H2]%as_ehdr_enc [H3 H4]%as_phdr_enc. auto. Qed.

(** A loadable header for a part of user memory that is not empty. *)
Definition loadable (ph : Elf_Phdr) : Prop :=
  classify ph.(p_type) = Load ∧ 1 ≤ ph.(p_memsz) ∧ ph.(p_vaddr) + ph.(p_memsz) + 8192 < MIPS_KSEG0.

(** The frames of its region's page table: frame [k] starts the lowest free run
    of their number, and lies below the limit of [alloc_kpages]. *)
Definition ph_pages (ph : Elf_Phdr) : Z := region_pages ph.(p_vaddr) ph.(p_memsz).
Definition table_room (ph : Elf_Phdr) (p : pmm) (k : Z) : Prop :=
  first_free p.(coremaps) k (table_pages (ph_pages ph)) ∧
  p.(page_start) + k * PAGE_SIZE < p.(paddr_max) - 4096 ∧ p.(ramtop) < MIPS_KSEG0.
Definition table_taken (ph : Elf_Phdr) (p : pmm) (k : Z) : pmm := gave p k (table_pages (ph_pages ph)) KERNEL.

(** A region: base, number of pages, permissions, page table. *)
Definition region1 (a : addrspace) : Z * Z * Z * option (list pte) :=
  (a.(as_vbase1), a.(as_npages1), a.(as_flag1), a.(pt1)).
Definition region2 (a : addrspace) : Z * Z * Z * option (list pte) :=
  (a.(as_vbase2), a.(as_npages2), a.(as_flag2), a.(pt2)).

(** The region of a header: the pages that hold its addresses, with its read,
    write and execute bits, none of them mapped yet. *)
Definition region_of (ph : Elf_Phdr) : Z * Z * Z * option (list pte) :=
  (region_base ph.(p_vaddr), ph_pages ph, Z.land ph.(p_flags) 7,
   Some (replicate (Z.to_nat (ph_pages ph)) (pte_create 0 0 0))).

(** The file position, size and execute bit recorded for a region. *)
Definition contents1 (a : addrspace) : Z * Z * Z := (a.(offset1), a.(filesz1), a.(is_exec1)).
Definition contents2 (a : addrspace) : Z * Z * Z := (a.(offset2), a.(filesz2), a.(is_exec2)).
Definition contents_of (ph : Elf_Phdr) : Z * Z * Z := (ph.(p_offset), ph.(p_filesz), Z.land ph.(p_flags) PF_X).

Definition with_region (ph : Elf_Phdr) (a : addrspace) : addrspace :=
  let '(b, n, f, t) := region_of ph in
  if a.(as_vbase1) =? 0 then set_region1 b n f t a else set_region2 b n f t a.

Lemma define_ret c ph a p k :
  cm_wf p → phdr_ok ph → loadable ph → table_room ph p k → a.(as_vbase1) = 0 ∨ a.(as_vbase2) = 0 →
  define c ph a p = Ret (0, with_region ph a) (table_taken ph p k) ∧ cm_wf (table_taken ph p k).
Proof.
  intros Hwf (_ & _ & Hv & _) (_ & Hm & Hb) (Hk & Hmax & Hram) Ha. unfold u32_ok in Hv. split.
  - destruct (as_define_region_spec c a ph.(p_vaddr) ph.(p_memsz) (Z.land ph.(p_flags) PF_R) (Z.land ph.(p_flags) PF_W)
      (Z.land ph.(p_flags) PF_X) p k Hwf) as (_ & _ & _ & E); [lia|done..|]. unfold define. rewrite E. clear E.
    unfold with_region, region_of, table_taken, ph_pages. rewrite <- !Z.land_lor_distr_r.
    change (Z.lor (Z.lor PF_R PF_W) PF_X) with 7. destruct (Z.eqb_spec a.(as_vbase1) 0); [done|].
    by rewrite (proj2 (Z.eqb_eq a.(as_vbase2) 0)) by tauto.
  - apply gave_wf; [done| |apply Hk]. unfold table_pages, ph_pages, region_pages, sizeof_pte in *. lia.
Qed.

(** C30. A file laid out the way the toolchain does it: a header to skip, then
    loadable headers of text and data, neither empty and both below the kernel's
    addresses.  It is loaded into an address space without regions, with room in
    memory for the two page tables.  Then the loader returns the entry point and
    takes the frames of the tables and no others.  When the text is not on page 0,
    region 1 is the text's pages and region 2 the data's, each with its own base,
    number of pages, permissions and an empty table.  Page 0 is taken for an unused
    region: text there is overwritten by the data's region, and region 2 stays
    undefined.  The file position, size and execute bit of region 1 are the text's
    and those of region 2 the data's. *)
Theorem load_elf_text_data (c : nat) (v : Z) (VOP_READ : Z → Z → Z * list Z) (eh : Elf_Ehdr)
    (skip text data : Elf_Phdr) (a : addrspace) (p : pmm) (k1 k2 : Z) :
  elf_file VOP_READ eh [skip; text; data] → ehdr_bad eh = false →
  classify skip.(p_type) = Skip → loadable text → loadable data →
  a.(as_vbase1) = 0 → a.(as_vbase2) = 0 →
  cm_wf p → table_room text p k1 → table_room data (table_taken text p k1) k2 →
  ∃ a', load_elf (Some c) v VOP_READ (Loader p a) =
      Ret (inr eh.(e_entry)) (Loader (table_taken data (table_taken text p k1) k2) a') ∧
    (if 4096 <=? text.(p_vaddr) then region1 a' = region_of text ∧ region2 a' = region_of data
     else region1 a' = region_of data ∧ region2 a' = region2 a) ∧
    contents1 a' = contents_of text ∧ contents2 a' = contents_of data ∧ a'.(vn) = v ∧ a'.(pt3) = a.(pt3).
Proof.
  intros Hf Hb C0 L1 L2 A1 A2 Hwf R1 R2. pose proof Hf as (_ & _ & _ & Hp).
  destruct (Hp 1%nat _ eq_refl) as [O1 _]. destruct (Hp 2%nat _ eq_refl) as [O2 _].
  destruct (define_ret c text a p k1) as [D1 Hwf1]; [by auto..|].
  assert (with_region text a = let '(b, n, f, t) := region_of text in set_region1 b n f t a) as E1
    by (unfold with_region; by rewrite A1). simpl in E1.
  destruct (define_ret c data (with_region text a) (table_taken text p k1) k2) as [D2 _]; [done..| |].
  { right. by rewrite E1. }
  exists (file_recorded v 2 data (file_recorded v 1 text (with_region data (with_region text a)))). split; [|].
  - eapply (load_elf_passes c v VOP_READ eh [skip; text; data] Hf _ (Loader _ _)); [done|..]; simpl length; unfold for_find.
    + change 0 with (Z.of_nat 0). rewrite (bind_Ret _ _ _ _ _ (define_segment_skip c _ _ _ Hf 0 _ _ eq_refl C0)).
      change (Z.of_nat 0 + 1) with (Z.of_nat 1).
      rewrite (bind_Ret _ _ _ _ _ (define_segment_load c _ _ _ Hf 1 _ (Loader p a) _ _ eq_refl (proj1 L1) D1)).
      change (Z.of_nat 1 + 1) with (Z.of_nat 2).
      by rewrite (bind_Ret _ _ _ _ _ (define_segment_load c _ _ _ Hf 2 _ (Loader _ _) _ _ eq_refl (proj1 L2) D2)).
    + change 0 with (Z.of_nat 0). rewrite (bind_Ret _ _ _ _ _ (record_segment_skip v _ _ _ Hf 0 _ _ eq_refl C0)).
      change (Z.of_nat 0 + 1) with (Z.of_nat 1).
      rewrite (bind_Ret _ _ _ _ _ (record_segment_load v _ _ _ Hf 1 _ _ eq_refl (proj1 L1))).
      change (Z.of_nat 1 + 1) with (Z.of_nat 2).
      by rewrite (bind_Ret _ _ _ _ _ (record_segment_load v _ _ _ Hf 2 _ _ eq_refl (proj1 L2))).
  - assert (with_region data (with_region text a) =
      if 4096 <=? text.(p_vaddr) then let '(b, n, f, t) := region_of data in set_region2 b n f t (with_region text a)
      else let '(b, n, f, t) := region_of data in set_region1 b n f t (with_region text a)) as ->.
    { unfold with_region at 1. rewrite E1. simpl as_vbase1. destruct O1 as (_ & _ & Hv & _). unfold u32_ok, region_base in *.
      destruct (Z.leb_spec 4096 text.(p_vaddr)), (Z.eqb_spec (text.(p_vaddr) / 4096 * 4096) 0); done || lia. }
    rewrite E1. by destruct (_ <=? _).
Qed.

(** The contents are found by the position of the program header, not by
    region: in a file whose two loadable headers come first, region 1 is defined
    by the first of them but is given the offset and size of the second, and
    region 2 keeps whatever offset and size it had. *)
Theorem load_elf_leading_loads (c : nat) (v : Z) (VOP_READ : Z → Z → Z * list Z) (eh : Elf_Ehdr)
    (text data : Elf_Phdr) (a a1 a2 : addrspace) (p p1 p2 : pmm) :
  elf_file VOP_READ eh [text; data] → ehdr_bad eh = false →
  classify text.(p_type) = Load → classify data.(p_type) = Load →
  define c text a p = Ret (0, a1) p1 → define c data a1 p1 = Ret (0, a2) p2 →
  ∃ a3, load_elf (Some c) v VOP_READ (Loader p a) = Ret (inr eh.(e_entry)) (Loader p2 a3) ∧
    a3.(as_vbase1) = a2.(as_vbase1) ∧
    a3.(offset1) = data.(p_offset) ∧ a3.(filesz1) = data.(p_filesz) ∧
    a3.(offset2) = a2.(offset2) ∧ a3.(filesz2) = a2.(filesz2).
Proof.
  intros Hf Hb C1 C2 D1 D2. eexists. split.
  - eapply (load_elf_passes c v VOP_READ eh [text; data] Hf _ (Loader p2 a2)); [done|..]; simpl length;
      unfold for_find.
    + change 0 with (Z.of_nat 0).
      rewrite (bind_Ret _ _ _ _ _ (define_segment_load c _ _ _ Hf 0 _ (Loader p a) _ _ eq_refl C1 D1)).
      change (Z.of_nat 0 + 1) with (Z.of_nat 1).
      by rewrite (bind_Ret _ _ _ _ _ (define_segment_load c _ _ _ Hf 1 _ (Loader p1 a1) _ _ eq_refl C2 D2)).
    + change 0 with (Z.of_nat 0). rewrite (bind_Ret _ _ _ _ _ (record_segment_load v _ _ _ Hf 0 _ _ eq_refl C1)).
      change (Z.of_nat 0 + 1) with (Z.of_nat 1).
      by rewrite (bind_Ret _ _ _ _ _ (record_segment_load v _ _ _ Hf 1 _ _ eq_refl C2)).
  - by split_and!.
Qed.

(** ** An example file *)

Definition example_ident : list Z := [0x7f; 69; 76; 70; 1; 2; 1; 0; 0; 0; 0; 0; 0; 0; 0; 0].
Definition example_ehdr (n : Z) : Elf_Ehdr := Ehdr example_ident 2 8 1 0x400000 52 0 0 52 32 n 40 0 0.
Definition example_skip : Elf_Phdr := Phdr PT_MIPS_REGINFO 0x100 0x400094 0 24 24 4 4.
Definition example_text : Elf_Phdr := Phdr PT_LOAD 0x1000 0x400000 0 5000 5000 5 4096.
Definition example_data : Elf_Phdr := Phdr PT_LOAD 0x3000 0x410000 0 100 200 6 4096.

Definition file_read (bs : list Z) (off n : Z) : Z * list Z :=
  (0, take (Z.to_nat n) (drop (Z.to_nat off) bs)).
Definition example_file (phs : list Elf_Phdr) : list Z :=
  enc_ehdr (example_ehdr (Z.of_nat (length phs))) ++ mjoin (enc_phdr <$> phs).

Lemma elf_headers_roundtrip_witness :
  as_ehdr (enc_ehdr (example_ehdr 3)) = example_ehdr 3 ∧ as_phdr (enc_phdr example_text) = example_text.
Proof.
  destruct (elf_headers_roundtrip (example_ehdr 3) example_text) as (H1 & _ & H2 & _).
  - by vm_compute.
  - by vm_compute.
  - split; [exact H1|exact H2].
Defined.

Lemma example_elf_file3 :
  elf_file (file_read (example_file [example_skip; example_text; example_data])) (example_ehdr 3)
    [example_skip; example_text; example_data].
Proof.
  split; [by vm_compute|]. split; [done|]. split; [by vm_compute|].
  intros [|[|[|i]]] ph Hi; simplify_eq/=; (split; [by vm_compute|by vm_compute]).
Qed.

Lemma example_elf_file2 :
  elf_file (file_read (example_file [example_text; example_data])) (example_ehdr 2) [example_text; example_data].
Proof.
  split; [by vm_compute|]. split; [done|]. split; [by vm_compute|].
  intros [|[|i]] ph Hi; simplify_eq/=; (split; [by vm_compute|by vm_compute]).
Qed.

Definition example_empty : addrspace := set_region1 0 0 0 None (set_region2 0 0 0 None raw_addrspace).

Lemma example_defines : ∃ a1 p1 a2 p2,
  define 0 example_text example_empty example_pmm = Ret (0, a1) p1 ∧
  define 0 example_data a1 p1 = Ret (0, a2) p2 ∧ a2.(as_vbase1) = 0x400000.
Proof. do 4 eexists. split; [vm_compute; reflexivity|]. split; [vm_compute; reflexivity|done]. Qed.

Lemma load_elf_text_data_witness :
  ∃ s, load_elf (Some 0%nat) 7 (file_read (example_file [example_skip; example_text; example_data]))
         (Loader example_pmm example_empty) = Ret (inr 0x400000) s ∧
       region1 s.(ld_as) = (0x400000, 2, 5, Some (replicate 2 (pte_create 0 0 0))) ∧
       region2 s.(ld_as) = (0x410000, 1, 6, Some (replicate 1 (pte_create 0 0 0))) ∧
       contents1 s.(ld_as) = (0x1000, 5000, 1) ∧ contents2 s.(ld_as) = (0x3000, 100, 0).
Proof.
  destruct (load_elf_text_data 0 7 (file_read (example_file [example_skip; example_text; example_data]))
    (example_ehdr 3) example_skip example_text example_data example_empty example_pmm 0 1
    example_elf_file3 eq_refl eq_refl) as (a' & H & [H1 H2] & H3 & H4 & _).
  - by vm_compute.
  - by vm_compute.
  - done.
  - done.
  - exact example_wf.
  - split; [apply (example_first 1); lia|by vm_compute].
  - split; [|by vm_compute]. split; [split; [lia|]|].
    + intros j Hj. change (table_pages _) with 1 in Hj. replace j with 1 by lia. eexists. split; [vm_compute; reflexivity|done].
    + intros k Hk [Hk0 Hfr]. replace k with 0 in Hfr by lia. destruct (Hfr 0 ltac:(by vm_compute)) as (f & Hl & Hs).
      vm_compute in Hl. by simplify_eq.
  - eexists. split; [exact H|]. split; [exact H1|]. split; [exact H2|]. split; [exact H3|exact H4].
Defined.

Lemma load_elf_leading_loads_witness :
  ∃ s, load_elf (Some 0%nat) 7 (file_read (example_file [example_text; example_data]))
         (Loader example_pmm example_empty) = Ret (inr 0x400000) s ∧
       s.(ld_as).(as_vbase1) = 0x400000 ∧ s.(ld_as).(offset1) = 0x3000.
Proof.
  destruct example_defines as (a1 & p1 & a2 & p2 & D1 & D2 & Hv).
  destruct (load_elf_leading_loads 0 7 (file_read (example_file [example_text; example_data]))
    (example_ehdr 2) example_text example_data example_empty a1 a2 example_pmm p1 p2
    example_elf_file2 eq_refl eq_refl eq_refl D1 D2) as (a3 & H & H0 & H1 & _).
  eexists. split; [exact H|]. split; [exact (eq_trans H0 Hv)|exact H1].
Defined.
