(* ===== verification/Uio.v ===== *)
(** Moving data through a [struct uio] (kern/lib/uio.c).

    Memory is one function from addresses to bytes: kernel buffers and the
    buffers of the uio are ranges of it.  The vector of buffers is the list of
    those [uio_iov] still points to, [uio_iovcnt] its length.  [ucheck] stands
    for the part of [copyin]/[copyout] that decides whether a user range may be
    accessed: 0 or an error code. *)

From Stdlib Require Import ZArith Lia.
From stdpp Require Import base numbers list sets.
From S2P Require Import Prelude.

Inductive uio_rw_t := UIO_READ | UIO_WRITE.
Inductive uio_seg := UIO_USERISPACE | UIO_USERSPACE | UIO_SYSSPACE.

Record iovec := Iovec { iov_base : Z; iov_len : Z }.

(** [uio_space]: whether it is NULL, the current address space, or neither. *)
Inductive uio_space_t := NoSpace | CurSpace | OtherSpace.

Record uio := Uio {
  uio_iov : list iovec;
  uio_offset : Z;
  uio_resid : Z;
  uio_segflg : uio_seg;
  uio_rw : uio_rw_t;
  uio_space : uio_space_t;
}.

Record ust := Ust { mem : Z → Z; u : uio }.

Definition memmove (dst src n : Z) (m : Z → Z) : Z → Z :=
  λ a, if (dst <=? a) && (a <? dst + n) then m (a - dst + src) else m a.

Definition set_iov (l : list iovec) (s : ust) : ust :=
  Ust s.(mem) (Uio l s.(u).(uio_offset) s.(u).(uio_resid) s.(u).(uio_segflg) s.(u).(uio_rw) s.(u).(uio_space)).
Definition set_mem (m : Z → Z) (s : ust) : ust := Ust m s.(u).

(** [uio_resid] is a 32-bit unsigned and [uio_offset] a 64-bit signed integer. *)
Definition advance (iov : iovec) (rest : list iovec) (size : Z) (s : ust) : ust :=
  Ust s.(mem) (Uio (Iovec (iov.(iov_base) + size) (iov.(iov_len) - size) :: rest)
                 (s.(u).(uio_offset) + size) (u32 (s.(u).(uio_resid) - size))
                 s.(u).(uio_segflg) s.(u).(uio_rw) s.(u).(uio_space)).

Section move.
Context (ucheck : Z → Z → Z).

(** One buffer's worth, [size] bytes between [ptr] and the buffer at [base]. *)
Definition transfer (ptr base size : Z) : M ust Z :=
  s ← get;
  let copy := match s.(u).(uio_rw) with
              | UIO_READ => set_mem (memmove base ptr size s.(mem)) s
              | UIO_WRITE => set_mem (memmove ptr base size s.(mem)) s
              end in
  match s.(u).(uio_segflg) with
  | UIO_SYSSPACE => modify (λ _, copy);; mret 0
  | UIO_USERSPACE | UIO_USERISPACE =>
      let result := ucheck base size in
      if negb (result =? 0) then mret result else modify (λ _, copy);; mret 0
  end.

Fixpoint uiomove_loop (fuel : nat) (ptr n : Z) : M ust Z :=
  match fuel with
  | O => diverge
  | S fuel =>
      s ← get;
      if (n >? 0) && (s.(u).(uio_resid) >? 0) then
        match s.(u).(uio_iov) with
        | [] => fault
        | iov :: rest =>
            let size := if iov.(iov_len) >? n then n else iov.(iov_len) in
            if size =? 0 then
              modify (set_iov rest);;
              match rest with [] => panic | _ => uiomove_loop fuel ptr n end
            else
              result ← transfer ptr iov.(iov_base) size;
              if negb (result =? 0) then mret result
              else modify (advance iov rest size);; uiomove_loop fuel (ptr + size) (n - size)
        end
      else mret 0
  end.

(** Every iteration uses up a buffer or moves a byte, so this many are enough. *)
Definition uiomove_fuel (n : Z) (l : list iovec) : nat := Z.to_nat n + length l + 1.

Definition uiomove (ptr n : Z) : M ust Z :=
  s ← get;
  kassert (match s.(u).(uio_segflg), s.(u).(uio_space) with
           | UIO_SYSSPACE, NoSpace => true
           | UIO_SYSSPACE, _ => false
           | _, CurSpace => true
           | _, _ => false
           end);;
  uiomove_loop (uiomove_fuel n s.(u).(uio_iov)) ptr n.

(** [zeros] is the address of the 16 static zero bytes. *)
Fixpoint uiomovezeros_loop (fuel : nat) (zeros n : Z) : M ust Z :=
  match fuel with
  | O => diverge
  | S fuel =>
      if n >? 0 then
        let amt := if 16 >? n then n else 16 in
        result ← uiomove zeros amt;
        if negb (result =? 0) then mret result else uiomovezeros_loop fuel zeros (n - amt)
      else mret 0
  end.
Definition uiomovezeros (zeros n : Z) : M ust Z :=
  s ← get;
  kassert (match s.(u).(uio_rw) with UIO_READ => true | UIO_WRITE => false end);;
  uiomovezeros_loop (Z.to_nat (n / 16) + 2) zeros n.
End move.

Definition uio_kinit (kbuf len pos : Z) (rw : uio_rw_t) : uio :=
  Uio [Iovec kbuf len] pos len UIO_SYSSPACE rw NoSpace.

(** ** What a transfer does *)

(** The addresses a uio covers, in order. *)
Fixpoint addrs (l : list iovec) : list Z :=
  match l with [] => [] | v :: l => seqZ v.(iov_base) v.(iov_len) ++ addrs l end.

Definition iov_ok (l : list iovec) : Prop := Forall (λ v, 0 ≤ v.(iov_len)) l.

Lemma seqZ_split b n k : 0 ≤ k ≤ n → seqZ b n = seqZ b k ++ seqZ (b + k) (n - k).
Proof. intros H. rewrite <- seqZ_app by lia. f_equal. lia. Qed.

(** The bytes of [addrs] at positions below [n] hold what the range at [ptr] held
    (a read), or the other way round (a write); nothing else changes. *)
Definition moved (rw : uio_rw_t) (as_ : list Z) (ptr n : Z) (m m' : Z → Z) : Prop :=
  match rw with
  | UIO_READ =>
      (∀ (i : nat) a, Z.of_nat i < n → as_ !! i = Some a → m' a = m (ptr + Z.of_nat i)) ∧
      (∀ a, (∀ i : nat, Z.of_nat i < n → as_ !! i ≠ Some a) → m' a = m a)
  | UIO_WRITE =>
      (∀ (i : nat) a, Z.of_nat i < n → as_ !! i = Some a → m' (ptr + Z.of_nat i) = m a) ∧
      (∀ a, ¬ (ptr ≤ a < ptr + n) → m' a = m a)
  end.

(** The buffers do not overlap each other or the kernel's. *)
Definition separate (as_ : list Z) (ptr n : Z) : Prop :=
  NoDup as_ ∧ ∀ a, a ∈ as_ → ¬ (ptr ≤ a < ptr + n).

Lemma separate_drop as_ ptr n k : separate as_ ptr n → separate (drop k as_) ptr n.
Proof.
  intros [Hnd Hsep]. rewrite <- (take_drop k as_) in Hnd, Hsep. apply NoDup_app in Hnd as (_ & _ & ?).
  split; [done|]. intros a Ha. apply Hsep, elem_of_app. by right.
Qed.

Lemma moved_zero rw as_ ptr m : moved rw as_ ptr 0 m m.
Proof. destruct rw; split; intros; by (lia || auto). Qed.

(** A chunk of [k] bytes followed by the rest. *)
Lemma moved_step rw b k as_ ptr n m m' :
  0 < k ≤ n → separate (seqZ b k ++ as_) ptr n →
  moved rw as_ (ptr + k) (n - k)
    (match rw with UIO_READ => memmove b ptr k m | UIO_WRITE => memmove ptr b k m end) m' →
  moved rw (seqZ b k ++ as_) ptr n m m'.
Proof.
  intros Hk [Hnd Hsep] Hm. apply NoDup_app in Hnd as (_ & Hdis & _).
  assert (∀ i : nat, (seqZ b k ++ as_) !! i =
    if decide (Z.of_nat i < k) then Some (b + Z.of_nat i) else as_ !! (i - Z.to_nat k)%nat) as Hlk.
  { intros i. case_decide.
    - rewrite lookup_app_l by (rewrite length_seqZ; lia). apply lookup_seqZ_lt. lia.
    - rewrite lookup_app_r by (rewrite length_seqZ; lia). by rewrite length_seqZ. }
  assert (∀ (j : nat) a, as_ !! j = Some a → ¬ (b ≤ a < b + k) ∧ ¬ (ptr ≤ a < ptr + n)) as Has.
  { intros j a Ha. apply list_elem_of_lookup_2 in Ha. split.
    - intros Hr. apply (Hdis a); [|done]. apply elem_of_seqZ. lia.
    - apply Hsep. apply elem_of_app. by right. }
  assert (∀ a, b ≤ a < b + k → ¬ (ptr ≤ a < ptr + n)) as Hb.
  { intros a Ha. apply Hsep, elem_of_app. left. apply elem_of_seqZ. lia. }
  destruct rw; simpl in *; destruct Hm as [H1 H2]; unfold memmove in *; split.
  - intros i a Hi Ha. rewrite Hlk in Ha. case_decide.
    + injection Ha as <-. rewrite H2.
      * rewrite (proj2 (Z.leb_le _ _)), (proj2 (Z.ltb_lt _ _)) by lia. simpl. f_equal. lia.
      * intros j _ Hj. apply Has in Hj. lia.
    + rewrite (H1 (i - Z.to_nat k)%nat a ltac:(lia) Ha).
      replace (ptr + k + Z.of_nat (i - Z.to_nat k)) with (ptr + Z.of_nat i) by lia.
      destruct (Z.leb_spec b (ptr + Z.of_nat i)), (Z.ltb_spec (ptr + Z.of_nat i) (b + k)); simpl; try done.
      destruct (Hb (ptr + Z.of_nat i)); lia.
  - intros a Ha. rewrite H2.
    + destruct (Z.leb_spec b a), (Z.ltb_spec a (b + k)); simpl; try done.
      destruct (Ha (Z.to_nat (a - b))); [lia|]. rewrite Hlk. case_decide; [|lia]. f_equal. lia.
    + intros i Hi Hia. apply (Ha (i + Z.to_nat k)%nat); [lia|]. rewrite Hlk. case_decide; [lia|].
      by replace (i + Z.to_nat k - Z.to_nat k)%nat with i by lia.
  - intros i a Hi Ha. rewrite Hlk in Ha. case_decide.
    + injection Ha as <-. rewrite H2 by lia.
      rewrite (proj2 (Z.leb_le _ _)), (proj2 (Z.ltb_lt _ _)) by lia. simpl. f_equal. lia.
    + replace (ptr + Z.of_nat i) with (ptr + k + Z.of_nat (i - Z.to_nat k)) by lia.
      rewrite (H1 (i - Z.to_nat k)%nat a ltac:(lia) Ha). apply Has in Ha.
      destruct (Z.leb_spec ptr a), (Z.ltb_spec a (ptr + k)); simpl; try done. lia.
  - intros a Ha. rewrite H2 by lia.
    destruct (Z.leb_spec ptr a), (Z.ltb_spec a (ptr + k)); simpl; try done. lia.
Qed.

(** The uio may be accessed: it is the kernel's, or the user ranges are good. *)
Definition accessible (ucheck : Z → Z → Z) (v : uio) : Prop :=
  v.(uio_segflg) = UIO_SYSSPACE ∨ ∀ b n, ucheck b n = 0.

Lemma transfer_ret ucheck ptr b size s :
  accessible ucheck s.(u) →
  transfer ucheck ptr b size s = Ret 0 (set_mem (match s.(u).(uio_rw) with
    | UIO_READ => memmove b ptr size s.(mem) | UIO_WRITE => memmove ptr b size s.(mem) end) s).
Proof.
  intros Ha. unfold transfer. rewrite get_bind. destruct s as [m [l o r seg rw sp]]; simpl in *.
  destruct Ha as [Ha|Ha]; [simpl in Ha; rewrite Ha; by destruct rw|]. rewrite Ha. by destruct seg, rw.
Qed.

Lemma uiomove_loop_ret ucheck fuel ptr n s :
  accessible ucheck s.(u) → iov_ok s.(u).(uio_iov) →
  0 ≤ n ≤ s.(u).(uio_resid) → s.(u).(uio_resid) < W32 →
  n ≤ Z.of_nat (length (addrs s.(u).(uio_iov))) → separate (addrs s.(u).(uio_iov)) ptr n →
  (Z.to_nat n + length s.(u).(uio_iov) < fuel)%nat →
  ∃ m' l', uiomove_loop ucheck fuel ptr n s =
    Ret 0 (Ust m' (Uio l' (s.(u).(uio_offset) + n) (s.(u).(uio_resid) - n)
                      s.(u).(uio_segflg) s.(u).(uio_rw) s.(u).(uio_space))) ∧
    addrs l' = drop (Z.to_nat n) (addrs s.(u).(uio_iov)) ∧
    moved s.(u).(uio_rw) (addrs s.(u).(uio_iov)) ptr n s.(mem) m' ∧ iov_ok l'.
Proof.
  revert ptr n s. induction fuel as [|fuel IH]; intros ptr n s Hacc Hok Hn Hw Hlen Hsep Hf; [lia|].
  cbn [uiomove_loop]. rewrite get_bind. destruct s as [m [l o r seg rw sp]]; simpl in *.
  destruct (Z.gtb_spec n 0) as [Hn0|Hn0].
  2:{ assert (n = 0) as -> by lia. exists m, l. split; [|split; [done|split; [apply moved_zero|done]]].
      unfold mret, M_ret. do 3 f_equal; lia. }
  destruct (Z.gtb_spec r 0); [|lia]. simpl. destruct l as [|[b len] rest]; [simpl in Hlen; lia|].
  apply Forall_cons in Hok as [Hl0 Hok]. simpl in *. rewrite length_app, length_seqZ in Hlen.
  destruct (Z.gtb_spec len n) as [Hgt|Hle]; [|destruct (Z.eqb_spec len 0) as [-> |Hne]].
  - rewrite (proj2 (Z.eqb_neq n 0)) by lia.
    erewrite bind_Ret by (by apply transfer_ret). cbn [Z.eqb negb].
    mrun. rewrite Z.sub_diag. destruct fuel as [|fuel]; [lia|].
    cbn [uiomove_loop]. rewrite get_bind. cbn [Z.gtb Z.compare andb].
    do 2 eexists. split; [unfold mret, M_ret, advance; simpl; rewrite u32_small by (unfold W32 in *; lia); reflexivity|].
    simpl. split.
    + rewrite (seqZ_split b len n) by lia. rewrite <- app_assoc, drop_app_length'; [done|]. rewrite length_seqZ. lia.
    + rewrite (seqZ_split b len n) in * by lia. rewrite <- app_assoc in *. split; [|apply Forall_cons; simpl; split; [lia|done]].
      apply moved_step; [lia|done|]. rewrite Z.sub_diag. apply moved_zero.
  - simpl. mrun. simpl in Hlen.
    destruct rest as [|v rest]; [simpl in Hlen; lia|].
    destruct (IH ptr n (Ust m (Uio (v :: rest) o r seg rw sp))) as (m' & l' & H1 & H2 & H3); try done; [simpl in *; lia|].
    exists m', l'. split; [exact H1|]. split; [exact H2|exact H3].
  - erewrite bind_Ret by (by apply transfer_ret). cbn [Z.eqb negb].
    mrun. unfold advance; simpl. rewrite u32_small by (unfold W32 in *; lia).
    assert (addrs (Iovec (b + len) (len - len) :: rest) = addrs rest) as Had
      by (simpl; by rewrite Z.sub_diag).
    pose proof Hsep as [Hnd Hs2].
    destruct (IH (ptr + len) (n - len) (Ust (match rw with UIO_READ => memmove b ptr len m | UIO_WRITE => memmove ptr b len m end)
      (Uio (Iovec (b + len) (len - len) :: rest) (o + len) (r - len) seg rw sp)))
      as (m' & l' & H1 & H2 & H3); cbn [u uio_iov uio_resid uio_rw uio_offset uio_segflg uio_space mem] in *;
      rewrite ?Had; try done; try lia.
    + apply Forall_cons. simpl. split; [lia|done].
    + split; [by apply NoDup_app in Hnd as (_ & _ & ?)|]. intros a Ha Hr.
      apply (Hs2 a); [apply elem_of_app; by right|lia].
    + simpl. lia.
    + rewrite Had in H2, H3. exists m', l'. split; [rewrite H1; do 3 f_equal; lia|]. split.
      * rewrite H2, drop_app_ge by (rewrite length_seqZ; lia). rewrite length_seqZ. f_equal. lia.
      * destruct H3 as [H3 H4]. split; [|done]. by apply moved_step; [lia|..].
Qed.

(** The kernel's own buffers, or the current address space's. *)
Definition space_ok (v : uio) : Prop :=
  v.(uio_segflg) = UIO_SYSSPACE ∧ v.(uio_space) = NoSpace ∨
  v.(uio_segflg) ≠ UIO_SYSSPACE ∧ v.(uio_space) = CurSpace.

Lemma uiomove_ret ucheck ptr n s :
  accessible ucheck s.(u) → space_ok s.(u) → iov_ok s.(u).(uio_iov) →
  0 ≤ n ≤ s.(u).(uio_resid) → s.(u).(uio_resid) < W32 →
  n ≤ Z.of_nat (length (addrs s.(u).(uio_iov))) → separate (addrs s.(u).(uio_iov)) ptr n →
  ∃ m' l', uiomove ucheck ptr n s =
    Ret 0 (Ust m' (Uio l' (s.(u).(uio_offset) + n) (s.(u).(uio_resid) - n)
                      s.(u).(uio_segflg) s.(u).(uio_rw) s.(u).(uio_space))) ∧
    addrs l' = drop (Z.to_nat n) (addrs s.(u).(uio_iov)) ∧
    moved s.(u).(uio_rw) (addrs s.(u).(uio_iov)) ptr n s.(mem) m' ∧ iov_ok l'.
Proof.
  intros Hacc Hsp Hok Hn Hw Hlen Hsep. unfold uiomove. rewrite get_bind.
  assert (match s.(u).(uio_segflg), s.(u).(uio_space) with
          | UIO_SYSSPACE, NoSpace => true | UIO_SYSSPACE, _ => false | _, CurSpace => true | _, _ => false
          end = true) as ->.
  { destruct Hsp as [[-> ->]|[? ->]]; [done|]. by destruct (uio_segflg _). }
  mrun. apply uiomove_loop_ret; try done. unfold uiomove_fuel. lia.
Qed.

(** [uiomovezeros]: the first [n] addresses of the uio are cleared. *)
Definition cleared (as_ : list Z) (n : Z) (m m' : Z → Z) : Prop :=
  (∀ (i : nat) a, Z.of_nat i < n → as_ !! i = Some a → m' a = 0) ∧
  (∀ a, (∀ i : nat, Z.of_nat i < n → as_ !! i ≠ Some a) → m' a = m a).

Lemma uiomovezeros_loop_ret ucheck fuel z n s :
  accessible ucheck s.(u) → space_ok s.(u) → iov_ok s.(u).(uio_iov) → s.(u).(uio_rw) = UIO_READ →
  0 ≤ n ≤ s.(u).(uio_resid) → s.(u).(uio_resid) < W32 →
  n ≤ Z.of_nat (length (addrs s.(u).(uio_iov))) → separate (addrs s.(u).(uio_iov)) z 16 →
  (∀ a, z ≤ a < z + 16 → s.(mem) a = 0) → n ≤ 16 * (Z.of_nat fuel - 1) →
  ∃ m' l', uiomovezeros_loop ucheck fuel z n s =
    Ret 0 (Ust m' (Uio l' (s.(u).(uio_offset) + n) (s.(u).(uio_resid) - n)
                      s.(u).(uio_segflg) s.(u).(uio_rw) s.(u).(uio_space))) ∧
    addrs l' = drop (Z.to_nat n) (addrs s.(u).(uio_iov)) ∧
    cleared (addrs s.(u).(uio_iov)) n s.(mem) m' ∧ iov_ok l'.
Proof.
  revert n s. induction fuel as [|fuel IH]; intros n s Hacc Hsp Hok Hrw Hn Hw Hlen [Hnd Hsep] Hz Hf; [lia|].
  cbn [uiomovezeros_loop]. destruct (Z.gtb_spec n 0) as [Hn0|Hn0].
  2:{ assert (n = 0) as -> by lia. destruct s as [m [l o r seg rw sp]]; simpl in *. exists m, l.
      rewrite Z.add_0_r, Z.sub_0_r. split; [done|]. split; [done|]. split; [split; intros; by (lia || done)|done]. }
  set (amt := if 16 >? n then n else 16).
  assert (0 < amt ≤ 16 ∧ amt ≤ n ∧ (amt = n ∨ amt = 16)) as Ha by (unfold amt; destruct (Z.gtb_spec 16 n); lia).
  destruct (uiomove_ret ucheck z amt s) as (m1 & l1 & E1 & A1 & M1 & I1); try done; try lia.
  { split; [done|]. intros a Hi Hr. apply (Hsep a Hi). lia. }
  rewrite Hrw in M1. destruct M1 as [M1 M2]. erewrite bind_Ret by exact E1. cbn [Z.eqb negb].
  set (s1 := Ust m1 _) in *.
  destruct (IH (n - amt) s1) as (m' & l' & E2 & A2 & [M3 M4] & I2); unfold s1; simpl; rewrite ?A1, ?length_drop; try done; try lia.
  { by apply separate_drop. }
  { intros a Hr. rewrite M2; [by apply Hz|]. intros i _ Hi. apply list_elem_of_lookup_2, Hsep in Hi. done. }
  exists m', l'. split; [etransitivity; [exact E2|]; unfold s1; simpl; do 3 f_equal; lia|].
  simpl in A2, M3, M4. rewrite A1 in *. rewrite drop_drop in A2. split; [rewrite A2; f_equal; lia|]. split; [|done]. split.
  - intros i a Hi Hl. destruct (decide (Z.of_nat i < amt)).
    + rewrite M4; [rewrite (M1 i a) by done; apply Hz; lia|]. intros j _ Hj. rewrite lookup_drop in Hj.
      pose proof (NoDup_lookup _ _ _ _ Hnd Hl Hj). lia.
    + apply (M3 (i - Z.to_nat amt)%nat); [lia|]. rewrite lookup_drop. rewrite <- Hl. f_equal. lia.
  - intros a Hi. rewrite M4; [apply M2; intros j Hj; apply Hi; lia|].
    intros j Hj. rewrite lookup_drop. apply Hi. lia.
Qed.

(** Scatter and gather: moving [n] bytes through a uio with room for them
    returns 0 and transfers exactly [n] bytes, in order across its buffers, in
    the direction of the request; nothing else in memory changes, the offset and
    the residual count move by [n], and what the uio covers afterwards is what
    it covered before without those [n] addresses. *)
Theorem uiomove_transfers (ucheck : Z → Z → Z) (ptr n : Z) (s : ust) :
  accessible ucheck s.(u) →
  space_ok s.(u) → iov_ok s.(u).(uio_iov) → 0 ≤ n ≤ s.(u).(uio_resid) → s.(u).(uio_resid) < W32 →
  n ≤ Z.of_nat (length (addrs s.(u).(uio_iov))) → separate (addrs s.(u).(uio_iov)) ptr n →
  ∃ s', uiomove ucheck ptr n s = Ret 0 s' ∧
    moved s.(u).(uio_rw) (addrs s.(u).(uio_iov)) ptr n s.(mem) s'.(mem) ∧
    addrs s'.(u).(uio_iov) = drop (Z.to_nat n) (addrs s.(u).(uio_iov)) ∧
    s'.(u).(uio_offset) = s.(u).(uio_offset) + n ∧ s'.(u).(uio_resid) = s.(u).(uio_resid) - n.
Proof.
  intros Hacc Hsp Hok Hn Hw Hlen Hsep.
  destruct (uiomove_ret ucheck ptr n s) as (m' & l' & H1 & H2 & H3 & _); try done.
  eexists. split; [exact H1|]. by split_and!.
Qed.

(** 10 bytes into two kernel buffers of 4 and 8 bytes. *)
Definition example_ust : ust :=
  Ust (λ a, a mod 251) (Uio [Iovec 0x1000 4; Iovec 0x2000 8] 100 12 UIO_SYSSPACE UIO_READ NoSpace).

Lemma uiomove_transfers_witness :
  ∃ s', uiomove (λ _ _, EFAULT) 0x5000 10 example_ust = Ret 0 s' ∧
        s'.(mem) 0x2005 = 0x5009 mod 251 ∧ s'.(u).(uio_resid) = 2.
Proof.
  destruct (uiomove_transfers (λ _ _, EFAULT) 0x5000 10 example_ust) as (s' & H & H1 & _ & _ & H4).
  - by left.
  - by left.
  - repeat constructor; simpl; lia.
  - simpl. lia.
  - done.
  - vm_compute. discriminate.
  - split; [apply (bool_decide_unpack _); vm_compute; exact I|].
    apply Forall_forall. change (addrs _) with (seqZ 0x1000 4 ++ seqZ 0x2000 8). simpl.
    repeat constructor; lia.
  - exists s'. split; [exact H|]. split; [exact (proj1 H1 9%nat 0x2005 ltac:(lia) eq_refl)|exact H4].
Defined.
