(* ===== verification/Console.v ===== *)
(** * The console device (kern/dev/generic/console.c)

    Module [Ring]: the input buffer, which the interrupt handler [con_input] fills
    and one reader at a time empties with [getch], as steps between which the
    other side runs, down to single reads and writes of the shared fields.
    Then the sequential operations: output before and after the console is found,
    and reading and writing through a [uio].

    [console_input_fifo]: the reader gets exactly the characters that were accepted,
    in order.  [con_io_reads] and [con_io_writes]: a read takes one line at most; a
    write turns every newline into two characters. *)

From Stdlib Require Import ZArith Lia.
From stdpp Require Import base numbers list relations.
From S2P Require Import Prelude Uio.

Definition CONSOLE_INPUT_BUFFER_SIZE : Z := 32.

Module Ring.

(** Where the handler of [con_input(ch)] is: about to compare, to store, to move
    the head, to signal. *)
Inductive ppc := PIdle | PTest (ch nexthead : Z) | PStore (ch nexthead : Z) | PHead (ch nexthead : Z) | PSignal.
(** Where the reader in [getch_intr] is: past [P], past the read. *)
Inductive cpc := CIdle | CRead | CTail (ret : Z).

(** [accepted] and [delivered] record what was stored and what was returned. *)
Record con := Con {
  gotchars : list Z;
  gotchars_head : Z;
  gotchars_tail : Z;
  rsem : Z;
  pp : ppc;
  cp : cpc;
  accepted : list Z;
  delivered : list Z
}.

(** One step of the handler, started by the character [ch] when it is idle. *)
Definition con_input_step (ch : Z) (s : con) : option con :=
  match s.(pp) with
  | PIdle =>
      let nexthead := (s.(gotchars_head) + 1) mod CONSOLE_INPUT_BUFFER_SIZE in
      Some (Con s.(gotchars) s.(gotchars_head) s.(gotchars_tail) s.(rsem) (PTest ch nexthead) s.(cp) s.(accepted) s.(delivered))
  | PTest ch nexthead =>
      Some (Con s.(gotchars) s.(gotchars_head) s.(gotchars_tail) s.(rsem)
              (if nexthead =? s.(gotchars_tail) then PIdle else PStore ch nexthead) s.(cp) s.(accepted) s.(delivered))
  | PStore ch nexthead =>
      g ← zupd s.(gotchars) s.(gotchars_head) ch;
      Some (Con g s.(gotchars_head) s.(gotchars_tail) s.(rsem) (PHead ch nexthead) s.(cp) s.(accepted) s.(delivered))
  | PHead ch nexthead =>
      Some (Con s.(gotchars) nexthead s.(gotchars_tail) s.(rsem) PSignal s.(cp) (s.(accepted) ++ [ch]) s.(delivered))
  | PSignal =>
      Some (Con s.(gotchars) s.(gotchars_head) s.(gotchars_tail) (s.(rsem) + 1) PIdle s.(cp) s.(accepted) s.(delivered))
  end.

(** One step of the reader; [P] waits while the count is zero. *)
Definition getch_step (s : con) : option con :=
  match s.(cp) with
  | CIdle =>
      if s.(rsem) =? 0 then None
      else Some (Con s.(gotchars) s.(gotchars_head) s.(gotchars_tail) (s.(rsem) - 1) s.(pp) CRead s.(accepted) s.(delivered))
  | CRead =>
      ret ← zlookup s.(gotchars) s.(gotchars_tail);
      Some (Con s.(gotchars) s.(gotchars_head) s.(gotchars_tail) s.(rsem) s.(pp) (CTail ret) s.(accepted) s.(delivered))
  | CTail ret =>
      Some (Con s.(gotchars) s.(gotchars_head) ((s.(gotchars_tail) + 1) mod CONSOLE_INPUT_BUFFER_SIZE) s.(rsem) s.(pp) CIdle s.(accepted) (s.(delivered) ++ [ret]))
  end.

Inductive step : con → con → Prop :=
| step_input ch s s' : con_input_step ch s = Some s' → step s s'
| step_getch s s' : getch_step s = Some s' → step s s'.

(** After [config_con]. *)
Definition initial (g : list Z) : con := Con g 0 0 0 PIdle CIdle [] [].

(** [q]: the characters in the buffer, from the tail on. *)
Record inv (s : con) (q : list Z) : Prop := {
  i_len : length s.(gotchars) = 32%nat;
  i_tail : 0 ≤ s.(gotchars_tail) < 32;
  i_head : s.(gotchars_head) = (s.(gotchars_tail) + Z.of_nat (length q)) mod 32;
  i_room : Z.of_nat (length q) ≤ 31;
  i_acc : s.(accepted) = s.(delivered) ++ q;
  i_q : ∀ i c, q !! i = Some c → zlookup s.(gotchars) ((s.(gotchars_tail) + Z.of_nat i) mod 32) = Some c;
  i_sem : 0 ≤ s.(rsem) ∧
    s.(rsem) + (if s.(pp) is PSignal then 1 else 0) + (if s.(cp) is CIdle then 0 else 1) = Z.of_nat (length q);
  i_pp : match s.(pp) with
         | PIdle | PSignal => True
         | PTest _ nh => nh = (s.(gotchars_head) + 1) mod 32
         | PStore _ nh => nh = (s.(gotchars_head) + 1) mod 32 ∧ Z.of_nat (length q) ≤ 30
         | PHead ch nh => nh = (s.(gotchars_head) + 1) mod 32 ∧ Z.of_nat (length q) ≤ 30 ∧ zlookup s.(gotchars) s.(gotchars_head) = Some ch
         end;
  i_cp : match s.(cp) with CTail ret => head q = Some ret | _ => True end
}.

Lemma inv_initial g : length g = 32%nat → inv (initial g) [].
Proof. intros Hg. by split. Qed.

(** The head is at none of the places in use. *)
Lemma head_free t (k i : Z) : 0 ≤ t < 32 → 0 ≤ i < k → k ≤ 31 → (t + k) mod 32 ≠ (t + i) mod 32.
Proof. intros. lia. Qed.

Lemma full_test t k : 0 ≤ t < 32 → 0 ≤ k ≤ 31 → ((t + k) mod 32 + 1) mod 32 = t ↔ k = 31.
Proof. intros. split; lia. Qed.

Lemma input_inv ch s s' q : inv s q → con_input_step ch s = Some s' → ∃ q', inv s' q'.
Proof.
  intros [L T H R A Q [S0 S1] PP CP] E. unfold con_input_step, CONSOLE_INPUT_BUFFER_SIZE in E. destruct (pp s) as [|c nh|c nh|c nh|] eqn:Ep.
  - injection E as <-. exists q. by split.
  - injection E as <-. exists q. split; try done; cbn [pp cp rsem]; destruct (Z.eqb_spec nh (gotchars_tail s)); try done.
    split; [done|]. rewrite PP, H in n. assert (Z.of_nat (length q) ≠ 31) by (intros E; apply n, full_test; lia). lia.
  - destruct PP as [PP1 PP2]. assert (0 ≤ gotchars_head s < 32) as Hh by (rewrite H; lia). rewrite zupd_Some in E by (rewrite L; lia). injection E as <-. exists q. split; try done.
    + cbn [gotchars]. by rewrite length_insert.
    + cbn [gotchars gotchars_tail]. intros i x Hi. pose proof (lookup_lt_Some _ _ _ Hi). rewrite zlookup_insert by (rewrite L; lia).
      pose proof (head_free (gotchars_tail s) (Z.of_nat (length q)) (Z.of_nat i)). rewrite (proj2 (Z.eqb_neq _ _)) by (rewrite H; lia). by apply Q.
    + cbn [gotchars gotchars_head pp]. split_and!; [done|done|]. rewrite zlookup_insert by (rewrite L; lia). by rewrite Z.eqb_refl.
  - destruct PP as (PP1 & PP2 & PP3). injection E as <-. exists (q ++ [c]). split; cbn [gotchars gotchars_head gotchars_tail rsem pp cp accepted delivered]; rewrite ?length_app; simpl length; try done.
    + rewrite PP1, H. lia.
    + lia.
    + by rewrite A, app_assoc.
    + intros i x [Hi|[Hi Hx]]%lookup_app_Some; [by apply Q|]. destruct (i - length q)%nat eqn:Ei; [|done]. injection Hx as <-. replace i with (length q) by lia. by rewrite <- H.
    + lia.
    + destruct (cp s); [done..|]. by destruct q.
  - injection E as <-. exists q. split; try done. cbn [rsem pp cp]. lia.
Qed.

Lemma getch_inv s s' q : inv s q → getch_step s = Some s' → ∃ q', inv s' q'.
Proof.
  intros [L T H R A Q [S0 S1] PP CP] E. unfold getch_step, CONSOLE_INPUT_BUFFER_SIZE in E. destruct (cp s) as [| |ret] eqn:Ec.
  - destruct (Z.eqb_spec (rsem s) 0); [done|]. injection E as <-. exists q. split; try done. cbn [rsem pp cp]. lia.
  - destruct q as [|x q]; [simpl in S1; destruct (pp s); lia|]. pose proof (Q 0%nat x eq_refl) as Q0. rewrite Z.add_0_r, Z.mod_small in Q0 by lia.
    rewrite Q0 in E. injection E as <-. exists (x :: q). by split.
  - destruct q as [|x q]; [done|]. injection CP as ->. injection E as <-. simpl length in *. exists q. split; cbn [gotchars gotchars_head gotchars_tail rsem pp cp accepted delivered]; try done.
    + lia.
    + rewrite H. lia.
    + lia.
    + by rewrite A, <- app_assoc.
    + intros i c Hi. rewrite <- (Q (S i) c Hi). f_equal. lia.
    + lia.
    + destruct (pp s) as [|c nh|c nh|c nh|]; try done; [destruct PP; split; [done|lia]|]. destruct PP as (? & ? & ?). split_and!; [done|lia|done].
Qed.

Lemma steps_inv s s' : rtc step s s' → (∃ q, inv s q) → ∃ q, inv s' q.
Proof.
  induction 1 as [|a b c Hs Hr IH]; [done|]. intros [q Hq]. apply IH. inversion_clear Hs; [by eapply input_inv|by eapply getch_inv].
Qed.

(** The console's input buffer loses and repeats nothing: in every interleaving of
    the interrupt handler with a reader, what the reader has been given is the
    beginning of what was accepted, in order; at most 31 characters wait, a character
    is refused only when 31 do; and when both sides are between calls the semaphore
    counts exactly the characters that wait. *)
Theorem console_input_fifo (g : list Z) (s : con) :
  length g = 32%nat → rtc step (initial g) s →
  ∃ q, s.(accepted) = s.(delivered) ++ q ∧ (length q ≤ 31)%nat ∧
    (∀ ch nh, s.(pp) = PTest ch nh → nh = s.(gotchars_tail) → length q = 31%nat) ∧
    (s.(pp) = PIdle → s.(cp) = CIdle → s.(rsem) = Z.of_nat (length q)).
Proof.
  intros Hg Hr. assert (∃ q, inv s q) as [q [L T H R A Q [S0 S1] PP CP]].
  { eapply steps_inv; [done|]. exists []. by apply inv_initial. }
  exists q. split_and!; [done|lia| |].
  - intros ch nh Ep E. rewrite Ep, H, E in PP. assert (Z.of_nat (length q) = 31) by (apply (full_test (gotchars_tail s)); [done|lia|by rewrite <- PP]). lia.
  - intros Ep Ec. rewrite Ep, Ec in S1. lia.
Qed.

(** One character typed and read. *)
Definition one_read : con := Con (97 :: replicate 31 0) 1 1 0 PIdle CIdle [97] [97].

(** A schedule: [Some ch] is a step of the handler, [None] one of the reader. *)
Fixpoint exec (l : list (option Z)) (s : con) : option con :=
  match l with
  | [] => Some s
  | e :: l => s' ← (if e is Some ch then con_input_step ch s else getch_step s); exec l s'
  end.

Lemma exec_reach l s s' : exec l s = Some s' → rtc step s s'.
Proof.
  revert s. induction l as [|e l IH]; intros s E; cbn [exec] in E; [injection E as ->; apply rtc_refl|].
  destruct (if e is Some ch then con_input_step ch s else getch_step s) as [s1|] eqn:E1; [|done].
  eapply rtc_l; [|by apply IH]. destruct e; [by eapply step_input|by apply step_getch].
Qed.

Lemma one_read_reached : rtc step (initial (replicate 32 0)) one_read.
Proof. apply (exec_reach (replicate 5 (Some 97) ++ replicate 3 None)). by vm_compute. Qed.

Lemma console_input_fifo_witness : ∃ q, one_read.(accepted) = one_read.(delivered) ++ q ∧ (length q ≤ 31)%nat.
Proof. destruct (console_input_fifo (replicate 32 0) one_read eq_refl one_read_reached) as (q & E & H & _). exists q. exact (conj E H). Defined.

End Ring.

(** ** Output and transfers *)

(** [attached]: whether [the_console] is set.  [delayed] is the part of
    [delayed_outbuf] in use, [out] what the device has been sent, [input] the
    characters [getch] will return, by the theorem above those typed.  [rlk] and
    [wlk] tell whether the two user locks are held. *)
Record cdev := Cdev {
  attached : bool;
  delayed : list Z;
  out : list Z;
  input : list Z;
  rlk : bool;
  wlk : bool;
  cu : ust
}.

Definition set_out (l : list Z) (s : cdev) : cdev := Cdev s.(attached) s.(delayed) l s.(input) s.(rlk) s.(wlk) s.(cu).
Definition set_delayed (l : list Z) (s : cdev) : cdev := Cdev s.(attached) l s.(out) s.(input) s.(rlk) s.(wlk) s.(cu).
Definition set_input (l : list Z) (s : cdev) : cdev := Cdev s.(attached) s.(delayed) s.(out) l s.(rlk) s.(wlk) s.(cu).
Definition set_cu (v : ust) (s : cdev) : cdev := Cdev s.(attached) s.(delayed) s.(out) s.(input) s.(rlk) s.(wlk) v.
Definition set_attached (b : bool) (s : cdev) : cdev := Cdev b s.(delayed) s.(out) s.(input) s.(rlk) s.(wlk) s.(cu).
Definition set_lock (rw : uio_rw_t) (b : bool) (s : cdev) : cdev :=
  match rw with
  | UIO_READ => Cdev s.(attached) s.(delayed) s.(out) s.(input) b s.(wlk) s.(cu)
  | UIO_WRITE => Cdev s.(attached) s.(delayed) s.(out) s.(input) s.(rlk) b s.(cu)
  end.
Definition lock_held (rw : uio_rw_t) (s : cdev) : bool := match rw with UIO_READ => s.(rlk) | UIO_WRITE => s.(wlk) end.

Definition DELAYBUFSIZE : Z := 1024.

Definition putch_delayed (ch : Z) : M cdev unit :=
  s ← get;
  kassert (Z.of_nat (length s.(delayed)) <? DELAYBUFSIZE);;
  modify (set_delayed (s.(delayed) ++ [ch])).

(** Polled or by interrupt, the device is sent the character. *)
Definition putch (ch : Z) : M cdev unit :=
  s ← get;
  if s.(attached) then modify (set_out (s.(out) ++ [ch])) else putch_delayed ch.

Fixpoint puts (l : list Z) : M cdev unit :=
  match l with [] => mret tt | c :: l => putch c;; puts l end.

Definition flush_delay_buf : M cdev unit :=
  s ← get;
  puts s.(delayed);;
  modify (set_delayed []).

(** [km1] to [km4]: the creation of the two semaphores and the two locks;
    [adddev]: the result of adding the device to the list of devices. *)
Definition config_con (unit_ : Z) (km1 km2 km3 km4 : bool) (adddev : Z) : M cdev Z :=
  s ← get;
  if unit_ >? 0 then kassert s.(attached);; mret ENODEV
  else
    kassert (negb s.(attached));;
    if negb (km1 && km2 && km3 && km4) then mret ENOMEM
    else
      modify (set_attached true);;
      flush_delay_buf;;
      mret adddev.

Definition getch : M cdev Z :=
  s ← get;
  kassert s.(attached);;
  match s.(input) with [] => diverge | c :: l => modify (set_input l);; mret c end.

Section con_io.
(** [ch]: the address of the local variable. *)
Context (ucheck : Z → Z → Z) (ch : Z).

Definition poke (a v : Z) : M cdev unit :=
  modify (λ s, set_cu (set_mem (λ x, if x =? a then v else s.(cu).(mem) x) s.(cu)) s).
Definition move1 : M cdev Z := zoom cu set_cu (uiomove ucheck ch 1).
Definition lock_acquire (rw : uio_rw_t) : M cdev unit :=
  s ← get; if lock_held rw s then diverge else modify (set_lock rw true).
Definition lock_release (rw : uio_rw_t) : M cdev unit := modify (set_lock rw false).

Fixpoint con_io_loop (n : nat) (rw : uio_rw_t) : M cdev Z :=
  match n with
  | O => diverge
  | S n =>
      s ← get;
      if s.(cu).(u).(uio_resid) >? 0 then
        match rw with
        | UIO_READ =>
            c ← getch;
            let c := if c =? 13 then 10 else c in
            poke ch c;;
            result ← move1;
            if negb (result =? 0) then mret result
            else if c =? 10 then mret 0 else con_io_loop n rw
        | UIO_WRITE =>
            result ← move1;
            if negb (result =? 0) then mret result
            else
              s ← get;
              let c := s.(cu).(mem) ch in
              (if c =? 10 then putch 13 else mret tt);;
              putch c;;
              con_io_loop n rw
        end
      else mret 0
  end.

(** Every iteration transfers a byte. *)
Definition con_io : M cdev Z :=
  s ← get;
  let rw := s.(cu).(u).(uio_rw) in
  lock_acquire rw;;
  result ← con_io_loop (S (Z.to_nat s.(cu).(u).(uio_resid))) rw;
  lock_release rw;;
  mret result.
End con_io.

(** ** Early output *)

Lemma puts_attached l s : s.(attached) = true → puts l s = Ret tt (set_out (s.(out) ++ l) s).
Proof.
  revert s. induction l as [|c l IH]; intros s Ha; cbn [puts]; [rewrite app_nil_r; by destruct s|].
  assert (putch c s = Ret tt (set_out (s.(out) ++ [c]) s)) as E by (unfold putch; rewrite get_bind; by rewrite Ha).
  rewrite (bind_Ret _ _ _ _ _ E), IH by done. cbn. by rewrite <- app_assoc.
Qed.

Lemma puts_delayed l s :
  s.(attached) = false → Z.of_nat (length s.(delayed)) + Z.of_nat (length l) ≤ DELAYBUFSIZE → puts l s = Ret tt (set_delayed (s.(delayed) ++ l) s).
Proof.
  revert s. induction l as [|c l IH]; intros s Ha Hl; cbn [puts]; [rewrite app_nil_r; by destruct s|]. simpl in Hl.
  assert (putch c s = Ret tt (set_delayed (s.(delayed) ++ [c]) s)) as E.
  { unfold putch. rewrite get_bind. rewrite Ha. unfold putch_delayed. rewrite get_bind. rewrite (proj2 (Z.ltb_lt _ _)) by lia. done. }
  rewrite (bind_Ret _ _ _ _ _ E), IH by (done || (cbn; rewrite length_app; simpl; lia)). cbn. by rewrite <- app_assoc.
Qed.

(** What is printed before the console is found, up to 1024 characters, appears on it
    first, and then what is printed later. *)
Lemma early_output l1 l2 s adddev :
  s.(attached) = false → s.(delayed) = [] → Z.of_nat (length l1) ≤ DELAYBUFSIZE →
  ∃ s', (puts l1;; config_con 0 true true true true adddev;; puts l2) s = Ret tt s' ∧ s'.(out) = s.(out) ++ l1 ++ l2.
Proof.
  intros Ha Hd Hl. assert (puts l1 s = _) as E1 by (apply puts_delayed; [done|rewrite Hd; simpl; lia]). rewrite (bind_Ret _ _ _ _ _ E1), Hd. cbn [app].
  assert (config_con 0 true true true true adddev (set_delayed l1 s) = Ret adddev (set_delayed [] (set_out (s.(out) ++ l1) (set_attached true (set_delayed l1 s))))) as E2.
  { unfold config_con. rewrite get_bind. cbn. rewrite Ha. unfold flush_delay_buf. cbn. erewrite bind_Ret; [|reflexivity]. erewrite bind_Ret; [|reflexivity].
    rewrite bind_assoc, get_bind. rewrite bind_assoc. cbn [delayed set_delayed set_attached]. rewrite (bind_Ret _ _ _ _ _ (puts_attached l1 (set_attached true (set_delayed l1 s)) eq_refl)). done. }
  rewrite (bind_Ret _ _ _ _ _ E2), puts_attached by done. eexists. split; [done|]. cbn. by rewrite app_assoc.
Qed.

(** ** Transfers *)

(** The line a read of at most [k] bytes takes from what is typed, and whether
    enough has been typed for it to end. *)
Definition tr (c : Z) : Z := if c =? 13 then 10 else c.
Fixpoint take_line (k : nat) (l : list Z) : list Z :=
  match k, l with
  | S k, c :: l => tr c :: (if tr c =? 10 then [] else take_line k l)
  | _, _ => []
  end.
Fixpoint enough (k : nat) (l : list Z) : bool :=
  match k, l with
  | O, _ => true
  | S _, [] => false
  | S k, c :: l => (tr c =? 10) || enough k l
  end.
(** What the device is sent for a character. *)
Definition crlf (c : Z) : list Z := if c =? 10 then [13; 10] else [c].

Section transfers.
Context (ucheck : Z → Z → Z) (ch : Z).

Definition buffers (v : ust) : list Z := addrs v.(u).(uio_iov).

(** A well-formed request whose buffers do not contain the local variable. *)
Record request (v : ust) : Prop := {
  rq_acc : accessible ucheck v.(u);
  rq_space : space_ok v.(u);
  rq_iov : iov_ok v.(u).(uio_iov);
  rq_resid : 0 ≤ v.(u).(uio_resid) < W32;
  rq_len : v.(u).(uio_resid) ≤ Z.of_nat (length (buffers v));
  rq_sep : separate (buffers v) ch 1
}.

Lemma move1_ret s :
  request s.(cu) → 0 < s.(cu).(u).(uio_resid) → ∃ a l v, buffers s.(cu) = a :: l ∧ move1 ucheck ch s = Ret 0 (set_cu v s) ∧ request v ∧ buffers v = l ∧
    v.(u).(uio_resid) = s.(cu).(u).(uio_resid) - 1 ∧ v.(u).(uio_rw) = s.(cu).(u).(uio_rw) ∧ a ≠ ch ∧
    match s.(cu).(u).(uio_rw) with
    | UIO_READ => v.(mem) a = s.(cu).(mem) ch ∧ ∀ x, x ≠ a → v.(mem) x = s.(cu).(mem) x
    | UIO_WRITE => v.(mem) ch = s.(cu).(mem) a ∧ ∀ x, x ≠ ch → v.(mem) x = s.(cu).(mem) x
    end.
Proof.
  intros [R1 R2 R3 R4 R5 R6] Hr. destruct (buffers s.(cu)) as [|a l] eqn:Eb; [simpl in R5; lia|].
  destruct (uiomove_ret ucheck ch 1 s.(cu)) as (m & iov & E & Ea & Hm & Hok); try done; [lia|lia|unfold buffers in Eb; rewrite Eb; simpl; lia|unfold buffers in Eb; by rewrite Eb|].
  unfold buffers in *. rewrite Eb in Ea, Hm. change (drop (Z.to_nat 1) (a :: l)) with l in Ea. eexists a, l, _.
  split; [done|]. split; [unfold move1, zoom; by rewrite E|]. assert (a ≠ ch) as Hach by (destruct R6 as [_ H6]; specialize (H6 a ltac:(by left)); lia).
  split_and!; try done.
  - split; try done; cbn; rewrite ?Ea; [lia|simpl in R5; lia|]. destruct R6 as [N6 H6]. split; [by apply NoDup_cons in N6 as []|].
    intros x Hx. apply H6. by right.
  - destruct (uio_rw _); cbn; destruct Hm as [M1 M2].
    + split; [rewrite <- (Z.add_0_r ch); by apply (M1 0%nat)|]. intros x Hx. apply M2. intros [|i] Hi; [naive_solver|lia].
    + split; [rewrite <- (Z.add_0_r ch); by apply (M1 0%nat)|]. intros x Hx. apply M2. lia.
Qed.

Lemma con_io_loop_read n s :
  request s.(cu) → s.(attached) = true → s.(cu).(u).(uio_rw) = UIO_READ → (Z.to_nat s.(cu).(u).(uio_resid) < n)%nat →
  enough (Z.to_nat s.(cu).(u).(uio_resid)) s.(input) = true →
  let t := take_line (Z.to_nat s.(cu).(u).(uio_resid)) s.(input) in
  ∃ v, con_io_loop ucheck ch n UIO_READ s = Ret 0 (set_cu v (set_input (drop (length t) s.(input)) s)) ∧
    v.(u).(uio_resid) = s.(cu).(u).(uio_resid) - Z.of_nat (length t) ∧ v.(mem) <$> take (length t) (buffers s.(cu)) = t ∧
    ∀ x, x ∉ take (length t) (buffers s.(cu)) → x ≠ ch → v.(mem) x = s.(cu).(mem) x.
Proof.
  revert s. induction n as [|n IH]; intros s Hq Ha Hrw Hn Hen; [lia|]. cbn [con_io_loop]. pose proof (rq_resid _ Hq) as Hr0.
  destruct (Z.gtb_spec s.(cu).(u).(uio_resid) 0) as [Hr|Hr]; cycle 1.
  { replace (Z.to_nat s.(cu).(u).(uio_resid)) with 0%nat by lia. exists s.(cu). rewrite get_bind. rewrite Z.gtb_ltb, (proj2 (Z.ltb_ge _ _)) by lia.
    cbn. split_and!; [by destruct s|lia|done|done]. }
  rewrite get_bind. rewrite (proj2 (Z.gtb_lt _ _)) by lia. destruct (Z.to_nat s.(cu).(u).(uio_resid)) as [|k] eqn:Ek; [lia|].
  destruct s.(input) as [|c l] eqn:Ei; [done|]. cbn [take_line enough] in *.
  assert (getch s = Ret c (set_input l s)) as E1 by (unfold getch; rewrite get_bind, Ha; cbn; by rewrite Ei). rewrite (bind_Ret _ _ _ _ _ E1). clear E1.
  fold (tr c). set (s1 := set_cu (set_mem (λ x, if x =? ch then tr c else s.(cu).(mem) x) s.(cu)) (set_input l s)).
  assert (poke ch (tr c) (set_input l s) = Ret tt s1) as E2 by done. rewrite (bind_Ret _ _ _ _ _ E2). clear E2.
  destruct (move1_ret s1) as (a & as_ & v & Eb & Em & Hqv & Ebv & Erv & Erw & Hne & Hm); [by destruct Hq; split|done|].
  rewrite (bind_Ret _ _ _ _ _ Em). cbn [Z.eqb negb]. change (u (cu s1)) with s.(cu).(u) in *. rewrite Hrw in Hm, Erw. destruct Hm as [M1 M2].
  change (mem (cu s1)) with (λ x, if x =? ch then tr c else s.(cu).(mem) x) in M1, M2. cbn beta in M1. rewrite Z.eqb_refl in M1.
  change (buffers (cu s1)) with (buffers (cu s)) in Eb. rewrite Eb.
  assert (∀ x, x ≠ a → x ≠ ch → mem v x = mem (cu s) x) as M3 by (intros x H1 H2; rewrite M2 by done; by rewrite (proj2 (Z.eqb_neq _ _))).
  destruct (tr c =? 10) eqn:E10.
  - exists v. cbn [length take drop fmap list_fmap]. split_and!; [done|lia|by rewrite M1|]. intros x Hx. apply M3. intros ->. apply Hx. by left.
  - destruct (IH (set_cu v s1)) as (v' & E & I1 & I2 & I3); [done|done|done|cbn; lia|cbn; by replace (Z.to_nat (uio_resid (u v))) with k by lia|].
    cbn [cu set_cu s1] in *. change (input (set_cu v s1)) with l in *. replace (Z.to_nat (uio_resid (u v))) with k in * by lia. rewrite Ebv in I2, I3.
    exists v'. cbn [length take drop fmap list_fmap]. split_and!; [done|lia| |].
    + f_equal; [|done]. destruct (decide (a ∈ take (length (take_line k l)) as_)) as [Hin|Hin].
      * destruct Hq as [_ _ _ _ _ [N6 _]]. rewrite Eb in N6. apply NoDup_cons in N6 as [N6 _]. destruct N6. by apply elem_of_take in Hin as (? & ?%list_elem_of_lookup_2 & _).
      * by rewrite I3.
    + intros x Hx Hch. rewrite I3; [|intros H; apply Hx; by right|done]. apply M3; [|done]. intros ->. apply Hx. by left.
Qed.

Lemma con_io_loop_write n s :
  request s.(cu) → s.(attached) = true → s.(cu).(u).(uio_rw) = UIO_WRITE → (Z.to_nat s.(cu).(u).(uio_resid) < n)%nat →
  ∃ v, con_io_loop ucheck ch n UIO_WRITE s =
      Ret 0 (set_cu v (set_out (s.(out) ++ concat (crlf <$> (s.(cu).(mem) <$> take (Z.to_nat s.(cu).(u).(uio_resid)) (buffers s.(cu))))) s)) ∧
    v.(u).(uio_resid) = 0 ∧ ∀ x, x ≠ ch → v.(mem) x = s.(cu).(mem) x.
Proof.
  revert s. induction n as [|n IH]; intros s Hq Ha Hrw Hn; [lia|]. cbn [con_io_loop]. pose proof (rq_resid _ Hq) as Hr0. rewrite get_bind.
  destruct (Z.gtb_spec s.(cu).(u).(uio_resid) 0) as [Hr|Hr]; cycle 1.
  { replace (Z.to_nat s.(cu).(u).(uio_resid)) with 0%nat by lia. exists s.(cu). rewrite take_0, app_nil_r. split_and!; [by destruct s|lia|done]. }
  destruct (move1_ret s) as (a & as_ & v & Eb & Em & Hqv & Ebv & Erv & Erw & Hne & Hm); [done|done|].
  rewrite (bind_Ret _ _ _ _ _ Em). cbn [Z.eqb negb]. rewrite get_bind. cbn [cu set_cu]. rewrite Hrw in Hm, Erw. destruct Hm as [M1 M2]. rewrite M1.
  set (c := mem (cu s) a).
  assert (∀ x s1, attached s1 = true → putch x s1 = Ret tt (set_out (s1.(out) ++ [x]) s1)) as Ep by (intros x s1 H1; unfold putch; rewrite get_bind; by rewrite H1).
  assert ((if c =? 10 then putch 13 else mret tt) (set_cu v s) = Ret tt (set_out (s.(out) ++ (if c =? 10 then [13] else [])) (set_cu v s))) as E1
    by (destruct (c =? 10); [by rewrite Ep|rewrite app_nil_r; by destruct s]).
  rewrite (bind_Ret _ _ _ _ _ E1). rewrite (bind_Ret _ _ _ _ _ (Ep c (set_out (s.(out) ++ (if c =? 10 then [13] else [])) (set_cu v s)) Ha)). cbn [out set_out]. clear E1. rewrite <- app_assoc.
  set (o := _ ++ _ ++ [c]). assert (o = s.(out) ++ crlf c) as Eo by (unfold o, crlf; by destruct (Z.eqb_spec c 10) as [->|]). clearbody o. subst o.
  destruct (IH (set_out (s.(out) ++ crlf c) (set_cu v s))) as (v' & E & I1 & I2); [done|done|done|cbn; lia|]. exists v'.
  split_and!; [|done|intros x Hx; cbn in I2; by rewrite I2, M2]. unfold set_out in E |- *. cbn in E |- *. rewrite E. unfold set_cu. cbn. do 2 f_equal.
  rewrite Eb, Ebv. replace (Z.to_nat (uio_resid (u (cu s)))) with (S (Z.to_nat (uio_resid (u v)))) by lia. cbn [take fmap list_fmap concat]. rewrite <- app_assoc. do 2 f_equal.
  f_equal. f_equal. apply list_fmap_ext. intros i x Hx. apply M2. intros ->.
  destruct Hqv as [_ _ _ _ _ [_ H6]]. rewrite Ebv in H6. apply (H6 ch); [by apply list_elem_of_lookup_2, elem_of_take in Hx as (? & ?%list_elem_of_lookup_2 & _)|lia].
Qed.

(** Reading and writing the console through a [uio].  A read returns as soon as a
    line has been typed or the buffer is full: it takes the characters in order, a
    carriage return as a newline, stores them in the buffers one after the other and
    stops after a newline, leaving the rest of the input for the next read.  A write
    sends all bytes in order, with a carriage return before every newline.  Both
    release their lock and touch no other memory. *)
Theorem con_io_lines s :
  request s.(cu) → s.(attached) = true → lock_held s.(cu).(u).(uio_rw) s = false →
  (s.(cu).(u).(uio_rw) = UIO_READ → enough (Z.to_nat s.(cu).(u).(uio_resid)) s.(input) = true) →
  ∃ s', con_io ucheck ch s = Ret 0 s' ∧ s'.(rlk) = s.(rlk) ∧ s'.(wlk) = s.(wlk) ∧
    match s.(cu).(u).(uio_rw) with
    | UIO_READ =>
        let t := take_line (Z.to_nat s.(cu).(u).(uio_resid)) s.(input) in
        s'.(input) = drop (length t) s.(input) ∧ s'.(out) = s.(out) ∧ s'.(cu).(u).(uio_resid) = s.(cu).(u).(uio_resid) - Z.of_nat (length t) ∧
        s'.(cu).(mem) <$> take (length t) (buffers s.(cu)) = t ∧
        ∀ x, x ∉ take (length t) (buffers s.(cu)) → x ≠ ch → s'.(cu).(mem) x = s.(cu).(mem) x
    | UIO_WRITE =>
        s'.(input) = s.(input) ∧ s'.(cu).(u).(uio_resid) = 0 ∧
        s'.(out) = s.(out) ++ concat (crlf <$> (s.(cu).(mem) <$> take (Z.to_nat s.(cu).(u).(uio_resid)) (buffers s.(cu)))) ∧
        ∀ x, x ≠ ch → s'.(cu).(mem) x = s.(cu).(mem) x
    end.
Proof.
  intros Hq Ha Hl Hen. unfold con_io. rewrite get_bind. unfold lock_acquire. rewrite bind_assoc, get_bind. rewrite Hl. mrun.
  destruct (uio_rw (u (cu s))) eqn:Erw; cbn [lock_held] in Hl.
  - destruct (con_io_loop_read (S (Z.to_nat (uio_resid (u (cu s))))) (set_lock UIO_READ true s)) as (v & E & H1 & H2 & H3); try done; [cbn; lia|by apply Hen|].
    rewrite (bind_Ret _ _ _ _ _ E). mrun. eexists. split; [done|]. cbn in *. split_and!; done.
  - destruct (con_io_loop_write (S (Z.to_nat (uio_resid (u (cu s))))) (set_lock UIO_WRITE true s)) as (v & E & H1 & H2); try done; [cbn; lia|].
    rewrite (bind_Ret _ _ _ _ _ E). mrun. eexists. split; [done|]. cbn in *. split_and!; done.
Qed.
End transfers.

(** A read of 8 bytes after "hi", return and "x" have been typed. *)
Definition ex_cdev : cdev := Cdev true [] [] [104; 105; 13; 120] false false (Ust (λ _, 0) (uio_kinit 100 8 0 UIO_READ)).

Lemma con_io_lines_witness :
  ∃ s', con_io (λ _ _, 0) 50 ex_cdev = Ret 0 s' ∧ s'.(input) = [120] ∧ s'.(cu).(mem) <$> [100; 101; 102] = [104; 105; 10].
Proof.
  destruct (con_io_lines (λ _ _, 0) 50 ex_cdev) as (s' & E & _ & _ & H1 & _ & _ & H2 & _); [|done|done|done|exists s'; split; [exact E|split; [exact H1|exact H2]]].
  split; try done; [by left|by left; split|by repeat constructor|]. change (buffers (cu ex_cdev)) with (seqZ 100 8 ++ []). split; [rewrite app_nil_r; apply NoDup_seqZ|]. intros a Ha. apply elem_of_app in Ha as [Ha|Ha]; [|by apply elem_of_nil in Ha].
  apply elem_of_seqZ in Ha. lia.
Defined.
