(* ===== verification/SfsDisk.v ===== *)
(** Blocks of the disk: the I/O routine of the disk driver
    (kern/dev/lamebus/lhd.c) and the block routines of SFS on top of it
    (kern/fs/sfs/sfs_io.c).

    The state is memory with the current uio (file Uio), the bytes of the disk by
    their offset, and what the hardware will report for the operations to come:
    a list of result codes, after which every operation succeeds.  An operation
    that the hardware reports as failed transfers nothing.  The semaphores
    [lh_clear] and [lh_done] only wait for the hardware and for other users of
    the card; the interrupt that ends an operation comes before the statement
    after [P(lh->lh_done)].

    The static buffers of the driver and of SFS lie one after the other from the
    address [kbufs] on. *)

From Stdlib Require Import ZArith Lia.
From stdpp Require Import base numbers list.
From S2P Require Import Prelude Uio.

(** What the models take from the machine: the verdict of [copyin] and [copyout]
    on a user range, the number of sectors of the disk, the place of the static
    buffers. *)
Class Mach := { ucheck : Z → Z → Z; d_blocks : Z; kbufs : Z }.

Definition SFS_BLOCKSIZE : Z := 512.
Definition LHD_SECTSIZE : Z := 512.

Section buffers.
Context {MC : Mach}.
(** The card's buffer; the buffers of [sfs_partialio], [sfs_bmap],
    [sfs_truncate]; the zeros of [sfs_clearblock] and [uiomovezeros]; an inode, a
    superblock or a sector of the free map on its way from or to the disk; a
    directory entry on the stack. *)
Definition lh_buf : Z := kbufs.
Definition iobuf : Z := kbufs + 512.
Definition idbuf : Z := kbufs + 1024.
Definition tidbuf : Z := kbufs + 1536.
Definition zeros : Z := kbufs + 2048.
Definition inobuf : Z := kbufs + 2560.
Definition kbufs_end : Z := kbufs + 3072.
Definition sdbuf : Z := kbufs_end.
End buffers.

Record dstate := Dstate { du : ust; disk : Z → Z; lhd_codes : list Z }.

Definition set_du (x : ust) (s : dstate) : dstate := Dstate x s.(disk) s.(lhd_codes).
Definition set_disk (d : Z → Z) (s : dstate) : dstate := Dstate s.(du) d s.(lhd_codes).
Definition set_codes (l : list Z) (s : dstate) : dstate := Dstate s.(du) s.(disk) l.

Definition LHD_OK : Z := 4.
Definition LHD_INVSECT : Z := 12.
Definition LHD_MEDIA : Z := 20.
Definition LHD_STATEMASK : Z := 0x1d.

Definition lhd_code_to_errno (code : Z) : Z :=
  let c := Z.land code LHD_STATEMASK in
  if c =? LHD_OK then 0 else if c =? LHD_INVSECT then EINVAL else if c =? LHD_MEDIA then EIO else EAGAIN.

(** What the interrupt handler makes of the status register: the value
    [lhd_iodone] stores in [lh_result], or nothing while the card is working. *)
Definition lhd_irq (val : Z) : option Z :=
  let c := Z.land val LHD_STATEMASK in
  if (c =? LHD_OK) || (c =? LHD_INVSECT) || (c =? LHD_MEDIA) then Some (lhd_code_to_errno val) else None.

(** [n] bytes of [src] from [s] on over [m] from [d] on. *)
Definition blit (m : Z → Z) (d : Z) (src : Z → Z) (s n : Z) : Z → Z :=
  λ a, if (d <=? a) && (a <? d + n) then src (a - d + s) else m a.

Section lhd.
Context {MC : Mach}.

(** The card works on one sector and interrupts. *)
Definition lhd_command (rw : uio_rw_t) (sect : Z) : M dstate Z :=
  s ← get;
  let code := default LHD_OK (head s.(lhd_codes)) in
  modify (set_codes (tail s.(lhd_codes)));;
  match lhd_irq code with
  | None => diverge
  | Some result =>
      when (result =? 0)
        (modify (λ s, match rw with
                      | UIO_READ => set_du (set_mem (blit s.(du).(mem) lh_buf s.(disk) (sect * LHD_SECTSIZE) LHD_SECTSIZE) s.(du)) s
                      | UIO_WRITE => set_disk (blit s.(disk) (sect * LHD_SECTSIZE) s.(du).(mem) lh_buf LHD_SECTSIZE) s
                      end));;
      mret result
  end.

Definition d_uiomove (ptr n : Z) : M dstate Z := zoom du set_du (uiomove ucheck ptr n).

Definition is_write (rw : uio_rw_t) : bool := match rw with UIO_WRITE => true | UIO_READ => false end.

(** One sector; [None] goes on with the next. *)
Definition lhd_sector (sector i : Z) : M dstate (option Z) :=
  s ← get;
  let rw := s.(du).(u).(uio_rw) in
  result ← (if is_write rw then d_uiomove lh_buf LHD_SECTSIZE else mret 0);
  if negb (result =? 0) then mret (Some result)
  else
    result ← lhd_command rw (u32 (sector + i));
    result ← (if (result =? 0) && negb (is_write rw) then d_uiomove lh_buf LHD_SECTSIZE else mret result);
    if negb (result =? 0) then mret (Some result) else mret None.

(** [uio_offset] is a signed 64-bit integer. *)
Definition lhd_io : M dstate Z :=
  s ← get;
  let v := s.(du).(u) in
  let sector := u32 (Z.quot v.(uio_offset) LHD_SECTSIZE) in
  let sectoff := u32 (Z.rem v.(uio_offset) LHD_SECTSIZE) in
  let len := v.(uio_resid) / LHD_SECTSIZE in
  let lenoff := v.(uio_resid) mod LHD_SECTSIZE in
  if negb (sectoff =? 0) || negb (lenoff =? 0) then mret EINVAL
  else if u32 (sector + len) >? d_blocks then mret EINVAL
  else
    r ← for_find (Z.to_nat len) 0 (lhd_sector sector);
    mret (default 0 r).
End lhd.

(** ** sfs_io.c *)

Section sfs_io.
Context {MC : Mach}.

(** [held]: whether this thread holds the big lock. *)
Context (held : bool).

(** The label [retry]: at most eleven attempts. *)
Fixpoint rwblock_try (fuel : nat) (tries : Z) : M dstate Z :=
  match fuel with
  | O => diverge
  | S fuel =>
      result ← lhd_io;
      if result =? EINVAL then panic
      else if result =? EIO then
        if tries =? 0 then rwblock_try fuel (tries + 1)
        else if tries <? 10 then rwblock_try fuel (tries + 1)
        else mret result
      else mret result
  end.

Definition sfs_rwblock : M dstate Z := kassert held;; rwblock_try 11 0.

(** A call with a uio of its own, the caller's being put back afterwards. *)
Definition with_uio {A} (v : uio) (m : M dstate A) : M dstate A :=
  s ← get;
  modify (set_du (Ust s.(du).(mem) v));;
  a ← m;
  modify (λ s', set_du (Ust s'.(du).(mem) s.(du).(u)) s');;
  mret a.

Definition SFSUIO (ptr block : Z) (rw : uio_rw_t) : uio :=
  uio_kinit ptr SFS_BLOCKSIZE (block * SFS_BLOCKSIZE) rw.

Definition sfs_rblock (data block : Z) : M dstate Z := with_uio (SFSUIO data block UIO_READ) sfs_rwblock.
Definition sfs_wblock (data block : Z) : M dstate Z := with_uio (SFSUIO data block UIO_WRITE) sfs_rwblock.
End sfs_io.

(** ** One block *)

(** A uio the driver can work on: one sector of the disk, one sector of memory
    apart from the card's buffer. *)
Record sector_uio {MC : Mach} (v : uio) (b : Z) : Prop := {
  su_acc : accessible ucheck v;
  su_space : space_ok v;
  su_iov : iov_ok v.(uio_iov);
  su_len : 512 ≤ Z.of_nat (length (addrs v.(uio_iov)));
  su_sep : separate (addrs v.(uio_iov)) lh_buf 512;
  su_off : v.(uio_offset) = b * 512;
  su_resid : v.(uio_resid) = 512;
  su_block : 0 ≤ b < d_blocks;
  su_disk : d_blocks < W32;
}.

Section block.
Context {MC : Mach}.
Implicit Types (s : dstate) (b : Z).

(** The uio after its one sector. *)
Definition sector_done (v : uio) (l : list iovec) : uio :=
  Uio l (v.(uio_offset) + 512) 0 v.(uio_segflg) v.(uio_rw) v.(uio_space).

Lemma sector_uiomove s b :
  sector_uio s.(du).(u) b →
  ∃ m' l', d_uiomove lh_buf LHD_SECTSIZE s = Ret 0 (set_du (Ust m' (sector_done s.(du).(u) l')) s) ∧
    addrs l' = drop 512 (addrs s.(du).(u).(uio_iov)) ∧ iov_ok l' ∧
    moved s.(du).(u).(uio_rw) (addrs s.(du).(u).(uio_iov)) lh_buf 512 s.(du).(mem) m'.
Proof.
  intros [Ha Hs Hi Hl Hp Ho Hr Hb Hd].
  destruct (uiomove_ret ucheck lh_buf 512 s.(du)) as (m' & l' & E & H1 & H2 & H3); try done; rewrite ?Hr; unfold W32; try lia.
  exists m', l'. split; [|done]. unfold d_uiomove, zoom, LHD_SECTSIZE. rewrite E, Hr. done.
Qed.

(** An aligned request for one sector is a single pass of the driver's loop. *)
Lemma lhd_io_one s b :
  sector_uio s.(du).(u) b →
  lhd_io s = (r ← lhd_sector b 0; mret (default 0 r)) s.
Proof.
  intros [_ _ _ _ _ Ho Hr Hb Hd]. unfold lhd_io. rewrite get_bind, Ho, Hr. unfold LHD_SECTSIZE.
  rewrite Z.quot_mul, Z.rem_mul by lia. rewrite (u32_small b) by lia.
  change (u32 0) with 0. change (512 / 512) with 1. change (512 mod 512) with 0. cbn [Z.eqb negb orb].
  rewrite (u32_small (b + 1)) by lia. zdecide.
  change (for_find (Z.to_nat 1) 0 (lhd_sector b))
    with (r ← lhd_sector b 0; match r with Some a => mret (Some a) | None => mret None end). unfold mbind, M_bind.
  destruct (lhd_sector b 0 s) as [[r|] s'| | |]; done.
Qed.

(** The card's next answer. *)
Definition next_result s : option Z := lhd_irq (default LHD_OK (head s.(lhd_codes))).

Lemma lhd_command_ok rw sect s :
  next_result s = Some 0 →
  lhd_command rw sect s = Ret 0
    (let s1 := set_codes (tail s.(lhd_codes)) s in
     match rw with
     | UIO_READ => set_du (set_mem (blit s.(du).(mem) lh_buf s.(disk) (sect * 512) 512) s.(du)) s1
     | UIO_WRITE => set_disk (blit s.(disk) (sect * 512) s.(du).(mem) lh_buf 512) s1
     end).
Proof. unfold next_result, lhd_command. intros E. rewrite get_bind. mrun. by rewrite E. Qed.

Lemma lhd_command_err rw sect s e :
  next_result s = Some e → e ≠ 0 →
  lhd_command rw sect s = Ret e (set_codes (tail s.(lhd_codes)) s).
Proof.
  unfold next_result, lhd_command. intros E He. rewrite get_bind. mrun. rewrite E.
  by rewrite (proj2 (Z.eqb_neq e 0) He).
Qed.

(** [d] holds at block [b] the bytes of [m] at the addresses [l], and is otherwise [d0]. *)
Definition block_is (d d0 : Z → Z) (b : Z) (m : Z → Z) (l : list Z) : Prop :=
  (∀ (i : nat) a, (i < 512)%nat → l !! i = Some a → d (b * 512 + Z.of_nat i) = m a) ∧
  (∀ x, ¬ b * 512 ≤ x < b * 512 + 512 → d x = d0 x).

(** The addresses [l] of [m] hold block [b] of [d]; elsewhere, the card's buffer
    apart, [m] is [m0]. *)
Definition block_read (m m0 : Z → Z) (b : Z) (d : Z → Z) (l : list Z) : Prop :=
  (∀ (i : nat) a, (i < 512)%nat → l !! i = Some a → m a = d (b * 512 + Z.of_nat i)) ∧
  (∀ a, ¬ lh_buf ≤ a < lh_buf + 512 → (∀ i : nat, (i < 512)%nat → l !! i ≠ Some a) → m a = m0 a).

Lemma lhd_io_read s b :
  sector_uio s.(du).(u) b → s.(du).(u).(uio_rw) = UIO_READ → next_result s = Some 0 →
  ∃ m' l', lhd_io s = Ret 0 (Dstate (Ust m' (sector_done s.(du).(u) l')) s.(disk) (tail s.(lhd_codes))) ∧
    addrs l' = drop 512 (addrs s.(du).(u).(uio_iov)) ∧ iov_ok l' ∧
    block_read m' s.(du).(mem) b s.(disk) (addrs s.(du).(u).(uio_iov)).
Proof.
  intros Hu Hrw Hn. rewrite (lhd_io_one s b) by done. unfold lhd_sector.
  pose proof Hu as [_ _ _ _ [_ Hsep] _ _ Hb Hd].
  set (s1 := set_du (set_mem (blit s.(du).(mem) lh_buf s.(disk) (b * 512) 512) s.(du)) (set_codes (tail s.(lhd_codes)) s)).
  destruct (sector_uiomove s1 b Hu) as (m' & l' & E & H1 & H2 & H3).
  exists m', l'. split.
  - rewrite bind_assoc, get_bind, Hrw. cbn [is_write]. rewrite bind_assoc. mrun. cbn [Z.eqb negb].
    rewrite Z.add_0_r, u32_small by lia. rewrite bind_assoc.
    erewrite bind_Ret by (by apply lhd_command_ok). cbn [Z.eqb negb andb]. rewrite bind_assoc.
    erewrite bind_Ret by exact E. done.
  - split; [exact H1|split; [exact H2|]]. change (du s1).(u) with s.(du).(u) in H3. rewrite Hrw in H3.
    destruct H3 as [H3 H4]. cbn [du mem set_mem set_du set_codes s1] in H3, H4. split.
    + intros i a Hi Ha. rewrite (H3 i a) by (done || lia). unfold blit. zdecide. f_equal. lia.
    + intros a Ha Hl. rewrite H4; [unfold blit|intros i Hi; apply Hl; lia].
      destruct (Z.leb_spec lh_buf a), (Z.ltb_spec a (lh_buf + 512)); simpl; by (lia || done).
Qed.

(** A read that fails leaves the request as it was. *)
Lemma lhd_io_read_err s b e :
  sector_uio s.(du).(u) b → s.(du).(u).(uio_rw) = UIO_READ → next_result s = Some e → e ≠ 0 →
  lhd_io s = Ret e (set_codes (tail s.(lhd_codes)) s).
Proof.
  intros Hu Hrw Hn He. rewrite (lhd_io_one s b) by done. unfold lhd_sector.
  rewrite bind_assoc, get_bind, Hrw. cbn [is_write]. rewrite bind_assoc. mrun. cbn [Z.eqb negb]. rewrite bind_assoc.
  erewrite bind_Ret by (by apply lhd_command_err). rewrite (proj2 (Z.eqb_neq e 0) He). cbn [andb].
  rewrite bind_assoc. mrun. by rewrite (proj2 (Z.eqb_neq e 0) He).
Qed.

(** A write consumes the request whatever the card answers. *)
Lemma lhd_io_write s b e :
  sector_uio s.(du).(u) b → s.(du).(u).(uio_rw) = UIO_WRITE → next_result s = Some e →
  ∃ m' l' d', lhd_io s = Ret e (Dstate (Ust m' (sector_done s.(du).(u) l')) d' (tail s.(lhd_codes))) ∧
    addrs l' = drop 512 (addrs s.(du).(u).(uio_iov)) ∧ iov_ok l' ∧
    (∀ a, ¬ lh_buf ≤ a < lh_buf + 512 → m' a = s.(du).(mem) a) ∧
    if e =? 0 then block_is d' s.(disk) b s.(du).(mem) (addrs s.(du).(u).(uio_iov)) else d' = s.(disk).
Proof.
  intros Hu Hrw Hn. rewrite (lhd_io_one s b) by done. unfold lhd_sector.
  pose proof Hu as [_ _ _ _ _ _ _ Hb Hd].
  destruct (sector_uiomove s b Hu) as (m' & l' & E & H1 & H2 & H3). rewrite Hrw in H3. destruct H3 as [H3 H4].
  set (s1 := set_du (Ust m' (sector_done s.(du).(u) l')) s) in *.
  exists m', l', (if e =? 0 then blit s.(disk) (b * 512) m' lh_buf 512 else s.(disk)).
  split; [|split; [exact H1|split; [exact H2|split; [exact H4|]]]].
  - rewrite bind_assoc, get_bind, Hrw. cbn [is_write]. rewrite bind_assoc.
    erewrite bind_Ret by exact E. cbn [Z.eqb negb]. rewrite Z.add_0_r, u32_small by lia.
    rewrite bind_assoc. destruct (Z.eqb_spec e 0) as [-> |He].
    + erewrite bind_Ret by (by apply lhd_command_ok). done.
    + erewrite bind_Ret by (by apply lhd_command_err). rewrite bind_assoc. cbn [andb negb]. rewrite andb_false_r.
      mrun. by rewrite (proj2 (Z.eqb_neq e 0) He).
  - destruct (Z.eqb_spec e 0) as [_|_]; [|done]. unfold blit. split.
    + intros i a Hi Ha. zdecide. rewrite <- (H3 i a) by (done || lia). f_equal. lia.
    + intros x Hx. destruct (Z.leb_spec (b * 512) x), (Z.ltb_spec x (b * 512 + 512)); simpl; by (lia || done).
Qed.

(** A request whose residual count is 0 is done. *)
Lemma lhd_io_nothing s b :
  s.(du).(u).(uio_resid) = 0 → s.(du).(u).(uio_offset) = b * 512 → 0 ≤ b ≤ d_blocks → d_blocks < W32 →
  lhd_io s = Ret 0 s.
Proof.
  intros Hr Ho Hb Hd. unfold lhd_io. rewrite get_bind, Ho, Hr. unfold LHD_SECTSIZE.
  rewrite Z.quot_mul, Z.rem_mul by lia. rewrite (u32_small b) by lia.
  change (u32 0) with 0. change (0 / 512) with 0. change (0 mod 512) with 0. cbn [Z.eqb negb orb].
  rewrite (u32_small (b + 0)) by lia. by zdecide.
Qed.

Lemma sfs_rwblock_ok s s' : lhd_io s = Ret 0 s' → sfs_rwblock true s = Ret 0 s'.
Proof. intros E. unfold sfs_rwblock. mrun. cbn [rwblock_try]. by erewrite bind_Ret by exact E. Qed.

Lemma sfsuio_addrs data b rw : addrs (uio_iov (SFSUIO data b rw)) = seqZ data 512.
Proof. apply app_nil_r. Qed.

Lemma sfsuio_sector data rw b :
  0 ≤ b < d_blocks → d_blocks < W32 → (data + 512 ≤ lh_buf ∨ lh_buf + 512 ≤ data) →
  sector_uio (SFSUIO data b rw) b.
Proof.
  intros Hb Hd Ha. split; rewrite ?sfsuio_addrs; try done.
  - by left.
  - by left.
  - repeat constructor. simpl. unfold SFS_BLOCKSIZE. lia.
  - split; [apply NoDup_seqZ|]. intros a Hs%elem_of_seqZ. lia.
Qed.

Lemma with_uio_Ret {A} v (m : M dstate A) s a m' v' d' c' :
  m (set_du (Ust s.(du).(mem) v) s) = Ret a (Dstate (Ust m' v') d' c') →
  with_uio v m s = Ret a (Dstate (Ust m' s.(du).(u)) d' c').
Proof. intros E. unfold with_uio. rewrite get_bind. mrun. by erewrite bind_Ret by exact E. Qed.

Lemma sfs_rblock_ret s data b :
  0 ≤ b < d_blocks → d_blocks < W32 → (data + 512 ≤ lh_buf ∨ lh_buf + 512 ≤ data) → next_result s = Some 0 →
  ∃ m', sfs_rblock true data b s = Ret 0 (Dstate (Ust m' s.(du).(u)) s.(disk) (tail s.(lhd_codes))) ∧
        block_read m' s.(du).(mem) b s.(disk) (seqZ data 512).
Proof.
  intros Hb Hd Ha Hn.
  destruct (lhd_io_read (set_du (Ust s.(du).(mem) (SFSUIO data b UIO_READ)) s) b) as (m' & l' & E & _ & _ & H);
    [by apply sfsuio_sector|done..|].
  exists m'. split; [eapply with_uio_Ret, sfs_rwblock_ok, E|]. rewrite <- (sfsuio_addrs data b UIO_READ). exact H.
Qed.

Lemma sfs_wblock_ret s data b :
  0 ≤ b < d_blocks → d_blocks < W32 → (data + 512 ≤ lh_buf ∨ lh_buf + 512 ≤ data) → next_result s = Some 0 →
  ∃ m' d', sfs_wblock true data b s = Ret 0 (Dstate (Ust m' s.(du).(u)) d' (tail s.(lhd_codes))) ∧
           (∀ a, ¬ lh_buf ≤ a < lh_buf + 512 → m' a = s.(du).(mem) a) ∧
           block_is d' s.(disk) b s.(du).(mem) (seqZ data 512).
Proof.
  intros Hb Hd Ha Hn.
  destruct (lhd_io_write (set_du (Ust s.(du).(mem) (SFSUIO data b UIO_WRITE)) s) b 0)
    as (m' & l' & d' & E & _ & _ & H1 & H2); [by apply sfsuio_sector|done..|].
  exists m', d'. split; [eapply with_uio_Ret, sfs_rwblock_ok, E|]. rewrite <- (sfsuio_addrs data b UIO_WRITE). exact (conj H1 H2).
Qed.

(** ** Media errors *)

Lemma rwblock_read_retry k fuel tries s b codes :
  sector_uio s.(du).(u) b → s.(du).(u).(uio_rw) = UIO_READ →
  s.(lhd_codes) = replicate k LHD_MEDIA ++ codes → 0 ≤ tries → tries + Z.of_nat k ≤ 10 →
  rwblock_try (k + fuel) tries s = rwblock_try fuel (tries + Z.of_nat k) (set_codes codes s).
Proof.
  intros Hu Hrw. revert tries s Hu Hrw. induction k as [|k IH]; intros tries s Hu Hrw Hc Ht Hk.
  - rewrite Z.add_0_r. simpl. f_equal. destruct s as [? ? c]; simpl in *. by subst c.
  - cbn [Nat.add rwblock_try]. erewrite bind_Ret.
    2:{ apply (lhd_io_read_err s b EIO); [done..| |done]. unfold next_result. by rewrite Hc. }
    change (EIO =? EINVAL) with false. change (EIO =? EIO) with true. cbv iota.
    assert (set_codes (tail s.(lhd_codes)) s = set_codes (replicate k LHD_MEDIA ++ codes) s) as ->
      by (by rewrite Hc).
    replace (tries + Z.of_nat (S k)) with (tries + 1 + Z.of_nat k) by lia.
    destruct (tries =? 0), (Z.ltb_spec tries 10); try lia; by rewrite IH by (done || lia).
Qed.

(** C28. Reading rides out transient media errors: if the disk fails at most ten
    times in a row, [sfs_rblock] returns 0 with the block in the buffer, nothing
    else in memory changed but the card's buffer, the disk unchanged and the
    caller's uio its own; after eleven failures it returns [EIO] and memory is
    unchanged. *)
Theorem sfs_rblock_rides_out_errors (s : dstate) (data b : Z) (k : nat) (codes : list Z) :
  0 ≤ b < d_blocks → d_blocks < W32 → (data + 512 ≤ lh_buf ∨ lh_buf + 512 ≤ data) →
  s.(lhd_codes) = replicate k LHD_MEDIA ++ codes → lhd_irq (default LHD_OK (head codes)) = Some 0 →
  if decide (k ≤ 10)%nat then
    ∃ m', sfs_rblock true data b s = Ret 0 (Dstate (Ust m' s.(du).(u)) s.(disk) (tail codes)) ∧
          block_read m' s.(du).(mem) b s.(disk) (seqZ data 512)
  else sfs_rblock true data b s = Ret EIO (set_codes (drop 11 s.(lhd_codes)) s).
Proof.
  intros Hb Hd Ha Hc Hn. case_decide as Hk.
  - destruct (lhd_io_read (Dstate (Ust s.(du).(mem) (SFSUIO data b UIO_READ)) s.(disk) codes) b)
      as (m' & l' & E & _ & _ & H); [by apply sfsuio_sector|done..|].
    exists m'. split; [|rewrite <- (sfsuio_addrs data b UIO_READ); exact H].
    eapply with_uio_Ret. unfold sfs_rwblock. mrun.
    replace 11%nat with (k + S (10 - k))%nat by lia.
    rewrite (rwblock_read_retry k _ 0 _ b codes) by (done || lia || by apply sfsuio_sector).
    cbn [rwblock_try]. unfold set_codes. cbn [du disk set_du]. by erewrite bind_Ret by exact E.
  - destruct s as [[m v] d c]. simpl in *. subst c.
    replace k with (10 + S (k - 11))%nat by lia. rewrite replicate_add, <- app_assoc.
    eapply with_uio_Ret. unfold sfs_rwblock. mrun. change 11%nat with (10 + 1)%nat at 1.
    erewrite (rwblock_read_retry 10 1 0 _ b) by (reflexivity || lia || by apply sfsuio_sector).
    cbn [rwblock_try]. erewrite bind_Ret by (apply (lhd_io_read_err _ b EIO); (done || by apply sfsuio_sector)).
    done.
Qed.

(** A write that the disk fails once is lost: the driver has consumed the
    request before the failure, so the second attempt of [sfs_rwblock] transfers
    nothing and succeeds.  [sfs_wblock] returns 0 and the disk is unchanged. *)
Theorem sfs_wblock_lost_on_error (s : dstate) (data b : Z) (codes : list Z) :
  0 ≤ b < d_blocks → d_blocks < W32 → (data + 512 ≤ lh_buf ∨ lh_buf + 512 ≤ data) →
  s.(lhd_codes) = LHD_MEDIA :: codes →
  ∃ m', sfs_wblock true data b s = Ret 0 (Dstate (Ust m' s.(du).(u)) s.(disk) codes) ∧
        ∀ a, ¬ lh_buf ≤ a < lh_buf + 512 → m' a = s.(du).(mem) a.
Proof.
  intros Hb Hd Ha Hc.
  destruct (lhd_io_write (set_du (Ust s.(du).(mem) (SFSUIO data b UIO_WRITE)) s) b EIO)
    as (m' & l' & d' & E & _ & _ & H1 & H2); [by apply sfsuio_sector|done|unfold next_result; simpl; by rewrite Hc|].
  simpl in H2. subst d'. exists m'. split; [|done].
  eapply with_uio_Ret. unfold sfs_rwblock. mrun. cbn [rwblock_try]. erewrite bind_Ret by exact E.
  change (EIO =? EINVAL) with false. change (EIO =? EIO) with true. cbv iota. cbn [Z.eqb].
  erewrite bind_Ret by (apply (lhd_io_nothing _ (b + 1)); simpl; unfold SFS_BLOCKSIZE; (done || lia)).
  simpl. by rewrite Hc.
Qed.
End block.

(** A disk of 64 sectors whose first operations fail. *)
#[local] Instance example_mach : Mach := { ucheck := λ _ _, EFAULT; d_blocks := 64; kbufs := 0x80030000 }.
Definition example_dstate (codes : list Z) : dstate :=
  Dstate (Ust (λ _, 0) (uio_kinit 0x80001000 16 0 UIO_READ)) (λ x, x mod 251) codes.

Lemma sfs_rblock_rides_out_errors_witness :
  (∃ m', sfs_rblock true iobuf 3 (example_dstate [20; 20; 20]) = Ret 0 (Dstate (Ust m' (uio_kinit 0x80001000 16 0 UIO_READ)) (λ x, x mod 251) []) ∧
         m' (iobuf + 5) = 1541 mod 251) ∧
  sfs_rblock true iobuf 3 (example_dstate (replicate 11 20)) = Ret EIO (example_dstate []).
Proof.
  split.
  - pose proof (sfs_rblock_rides_out_errors (example_dstate [20; 20; 20]) iobuf 3 3 []) as H.
    destruct H as (m' & H1 & H2 & _); try done; [vm_compute; by right|].
    exists m'. split; [exact H1|]. exact (H2 5%nat (iobuf + 5) ltac:(lia) eq_refl).
  - apply (sfs_rblock_rides_out_errors (example_dstate (replicate 11 20)) iobuf 3 11 []); try done. vm_compute. by right.
Defined.

Lemma sfs_wblock_lost_on_error_witness :
  ∃ m', sfs_wblock true zeros 3 (example_dstate [20]) = Ret 0 (Dstate (Ust m' (uio_kinit 0x80001000 16 0 UIO_READ)) (λ x, x mod 251) []).
Proof.
  destruct (sfs_wblock_lost_on_error (example_dstate [20]) zeros 3 []) as (m' & H & _); try done; [vm_compute; by right|].
  by exists m'.
Defined.
