(* ===== verification/SfsFile.v ===== *)
(** Files of SFS (kern/fs/sfs/sfs_vnode.c): block allocation, the map from the
    blocks of a file to those of the disk, reading, writing and truncation.

    The routines here work on one file: the state is the file system, with the
    disk and memory of file SfsDisk, and the vnode [sv] they are called on.  An
    inode in memory is a record; on its way from or to the disk its bytes lie in
    [inobuf].  [held] tells whether this thread holds the big lock. *)

From Stdlib Require Import ZArith Lia.
From stdpp Require Import base numbers list.
From S2P Require Import Prelude Bitmap Uio SfsDisk.

Definition SFS_NDIRECT : Z := 15.
Definition SFS_DBPERIDB : Z := 128.
Definition SFS_TYPE_INVAL : Z := 0.
Definition SFS_TYPE_FILE : Z := 1.
Definition SFS_TYPE_DIR : Z := 2.
Definition SFS_ROOT_LOCATION : Z := 1.
Definition SFS_SB_LOCATION : Z := 0.
Definition SFS_MAP_LOCATION : Z := 2.
Definition SFS_MAGIC : Z := 0xabadf001.
Definition SFS_NOINO : Z := 0.

(** [sp_volname]: its 32 bytes; [sp_reserved]: 118 words. *)
Record sfs_super := SfsSuper { sp_magic : Z; sp_nblocks : Z; sp_volname : list Z; sp_reserved : list Z }.

Record sfs_inode := SfsInode {
  sfi_size : Z;
  sfi_type : Z;
  sfi_linkcount : Z;
  sfi_direct : list Z;
  sfi_indirect : Z;
  sfi_waste : list Z;
}.

Record sfs_vnode := SfsVnode { sv_i : sfs_inode; sv_ino : Z; sv_dirty : bool }.

Record sfs_fs := SfsFs {
  sfs_sb : sfs_super;
  sfs_superdirty : bool;
  sfs_device : dstate;
  sfs_freemap : bitmap;
  sfs_freemapdirty : bool;
}.

Record fstate := Fstate { sfs : sfs_fs; sv : sfs_vnode }.

Definition set_direct (l : list Z) (i : sfs_inode) : sfs_inode :=
  SfsInode i.(sfi_size) i.(sfi_type) i.(sfi_linkcount) l i.(sfi_indirect) i.(sfi_waste).
Definition set_indirect (b : Z) (i : sfs_inode) : sfs_inode :=
  SfsInode i.(sfi_size) i.(sfi_type) i.(sfi_linkcount) i.(sfi_direct) b i.(sfi_waste).
Definition set_size (n : Z) (i : sfs_inode) : sfs_inode :=
  SfsInode n i.(sfi_type) i.(sfi_linkcount) i.(sfi_direct) i.(sfi_indirect) i.(sfi_waste).
Definition set_type (t : Z) (i : sfs_inode) : sfs_inode :=
  SfsInode i.(sfi_size) t i.(sfi_linkcount) i.(sfi_direct) i.(sfi_indirect) i.(sfi_waste).
Definition set_linkcount (n : Z) (i : sfs_inode) : sfs_inode :=
  SfsInode i.(sfi_size) i.(sfi_type) n i.(sfi_direct) i.(sfi_indirect) i.(sfi_waste).

(** An assignment to a field of [sv_i] followed by [sv_dirty = true]. *)
Definition dirty_inode (f : sfs_inode → sfs_inode) (s : fstate) : fstate :=
  Fstate s.(sfs) (SfsVnode (f s.(sv).(sv_i)) s.(sv).(sv_ino) true).
Definition set_dirty (b : bool) (s : fstate) : fstate :=
  Fstate s.(sfs) (SfsVnode s.(sv).(sv_i) s.(sv).(sv_ino) b).

Definition dev (s : fstate) : dstate := s.(sfs).(sfs_device).
Definition set_dev (d : dstate) (s : fstate) : fstate :=
  Fstate (SfsFs s.(sfs).(sfs_sb) s.(sfs).(sfs_superdirty) d s.(sfs).(sfs_freemap) s.(sfs).(sfs_freemapdirty)) s.(sv).
Definition fmap_of (s : fstate) : bitmap := s.(sfs).(sfs_freemap).
Definition set_fmap (b : bitmap) (s : fstate) : fstate :=
  Fstate (SfsFs s.(sfs).(sfs_sb) s.(sfs).(sfs_superdirty) s.(sfs).(sfs_device) b s.(sfs).(sfs_freemapdirty)) s.(sv).
Definition set_fmapdirty (b : bool) (s : fstate) : fstate :=
  Fstate (SfsFs s.(sfs).(sfs_sb) s.(sfs).(sfs_superdirty) s.(sfs).(sfs_device) s.(sfs).(sfs_freemap) b) s.(sv).

Definition super (s : fstate) : sfs_super * bool := (s.(sfs).(sfs_sb), s.(sfs).(sfs_superdirty)).
Definition nblocks (s : fstate) : Z := (super s).1.(sp_nblocks).
Definition sdisk (s : fstate) : Z → Z := (dev s).(disk).
Definition smem (s : fstate) : Z → Z := (dev s).(du).(mem).
Definition suio (s : fstate) : uio := (dev s).(du).(u).
Definition set_smem (m : Z → Z) (s : fstate) : fstate := set_dev (set_du (Ust m (suio s)) (dev s)) s.
Definition set_suio (v : uio) (s : fstate) : fstate := set_dev (set_du (Ust (smem s) v) (dev s)) s.

(** ** The layout of an inode *)

Definition sfi_words (i : sfs_inode) : list Z :=
  i.(sfi_size) :: (i.(sfi_type) * 65536 + i.(sfi_linkcount)) :: i.(sfi_direct) ++ i.(sfi_indirect) :: i.(sfi_waste).

Definition inode_of_words (l : list Z) : sfs_inode :=
  let w := λ k, default 0 (l !! k) in
  SfsInode (w 0%nat) (w 1%nat / 65536) (w 1%nat mod 65536) (take 15 (drop 2 l)) (w 17%nat) (drop 18 l).

Definition words_at (m : Z → Z) (a : Z) (n : nat) : list Z := (λ i, word_at m (a + 4 * Z.of_nat i)) <$> seq 0 n.
Fixpoint words_put (m : Z → Z) (a : Z) (l : list Z) : Z → Z :=
  match l with [] => m | w :: l => words_put (word_put m a w) (a + 4) l end.

Section files.
Context {MC : Mach} (held : bool).

Definition on_dev {A} (m : M dstate A) : M fstate A := zoom dev set_dev m.
Definition on_map {A} (m : M bitmap A) : M fstate A := zoom fmap_of set_fmap m.
Definition f_rblock (data block : Z) : M fstate Z := on_dev (sfs_rblock held data block).
Definition f_wblock (data block : Z) : M fstate Z := on_dev (sfs_wblock held data block).
Definition f_uiomove (ptr n : Z) : M fstate Z := on_dev (d_uiomove ptr n).
Definition f_uiomovezeros (n : Z) : M fstate Z := on_dev (zoom du set_du (uiomovezeros ucheck zeros n)).
Definition bzero (p n : Z) : M fstate unit := modify (λ s, set_smem (blit (smem s) p (λ _, 0) 0 n) s).

Definition sfs_clearblock (block : Z) : M fstate Z := f_wblock zeros block.

Definition sfs_sync_inode : M fstate Z :=
  s ← get;
  if s.(sv).(sv_dirty) then
    modify (λ s, set_smem (words_put (smem s) inobuf (sfi_words s.(sv).(sv_i))) s);;
    result ← f_wblock inobuf s.(sv).(sv_ino);
    if negb (result =? 0) then mret result
    else modify (set_dirty false);; mret 0
  else mret 0.

(** An error code, or the block. *)
Definition sfs_balloc : M fstate (Z + Z) :=
  r ← on_map bitmap_alloc;
  match r with
  | (result, Some diskblock) =>
      if negb (result =? 0) then mret (inl result)
      else
        modify (set_fmapdirty true);;
        s ← get;
        if diskblock >=? nblocks s then panic
        else
          result ← sfs_clearblock diskblock;
          if negb (result =? 0) then mret (inl result) else mret (inr diskblock)
  | (result, None) => mret (inl result)
  end.

Definition sfs_bfree (diskblock : Z) : M fstate unit :=
  on_map (bitmap_unmark diskblock);; modify (set_fmapdirty true).

Definition sfs_bused (diskblock : Z) : M fstate bool :=
  s ← get;
  if diskblock >=? nblocks s then panic
  else w ← on_map (bitmap_isset diskblock); mret (negb (w =? 0)).

(** The end of [sfs_bmap]: hand back the block unless it is marked free. *)
Definition bmap_done (block : Z) : M fstate (Z + Z) :=
  bad ← (if negb (block =? 0) then b ← sfs_bused block; mret (negb b) else mret false);
  if bad : bool then panic else mret (inr block).

Definition idbuf_get (buf j : Z) : M fstate Z := gets (λ s, word_at (smem s) (buf + 4 * j)).
Definition idbuf_set (buf j v : Z) : M fstate unit := modify (λ s, set_smem (word_put (smem s) (buf + 4 * j) v) s).

(** The part of [sfs_bmap] for a block listed in the inode. *)
Definition bmap_direct (fileblock : Z) (doalloc : bool) : M fstate (Z + Z) :=
  s ← get;
  block ← of_opt (zlookup s.(sv).(sv_i).(sfi_direct) fileblock);
  if (block =? 0) && doalloc then
    r ← sfs_balloc;
    match r with
    | inl e => mret (inl e)
    | inr block =>
        s ← get;
        l ← of_opt (zupd s.(sv).(sv_i).(sfi_direct) fileblock block);
        modify (dirty_inode (set_direct l));;
        bmap_done block
    end
  else bmap_done block.

(** The part that brings the indirect block [idblock] into [idbuf], allocating
    it first where there is none. *)
Definition bmap_load (idblock : Z) : M fstate (Z + Z) :=
  if idblock =? 0 then
    r ← sfs_balloc;
    match r with
    | inl e => mret (inl e)
    | inr idblock => modify (dirty_inode (set_indirect idblock));; bzero idbuf 512;; mret (inr idblock)
    end
  else
    result ← f_rblock idbuf idblock;
    if negb (result =? 0) then mret (inl result) else mret (inr idblock).

(** The part for a block listed at [idoff] of the indirect block. *)
Definition bmap_indirect (idoff : Z) (doalloc : bool) : M fstate (Z + Z) :=
  s ← get;
  let idblock := s.(sv).(sv_i).(sfi_indirect) in
  if (idblock =? 0) && negb doalloc then mret (inr 0)
  else
    r ← bmap_load idblock;
    match r with
    | inl e => mret (inl e)
    | inr idblock =>
        block ← idbuf_get idbuf idoff;
        if (block =? 0) && doalloc then
          r ← sfs_balloc;
          match r with
          | inl e => mret (inl e)
          | inr block =>
              idbuf_set idbuf idoff block;;
              result ← f_wblock idbuf idblock;
              if negb (result =? 0) then mret (inl result) else bmap_done block
          end
        else bmap_done block
    end.

Definition sfs_bmap (fileblock : Z) (doalloc : bool) : M fstate (Z + Z) :=
  if fileblock <? SFS_NDIRECT then bmap_direct fileblock doalloc
  else
    let fileblock := fileblock - SFS_NDIRECT in
    let idnum := fileblock / SFS_DBPERIDB in
    let idoff := fileblock mod SFS_DBPERIDB in
    if idnum >? 0 then mret (inl EFBIG) else bmap_indirect idoff doalloc.

Definition sfs_partialio (skipstart len : Z) : M fstate Z :=
  s ← get;
  let doalloc := is_write (suio s).(uio_rw) in
  kassert (u32 (skipstart + len) <=? SFS_BLOCKSIZE);;
  let fileblock := u32 (Z.quot (suio s).(uio_offset) SFS_BLOCKSIZE) in
  r ← sfs_bmap fileblock doalloc;
  match r with
  | inl e => mret e
  | inr diskblock =>
      result ← (if diskblock =? 0 then
                  kassert (negb (is_write (suio s).(uio_rw)));; bzero iobuf 512;; mret 0
                else f_rblock iobuf diskblock);
      if negb (result =? 0) then mret result
      else
        result ← f_uiomove (iobuf + skipstart) len;
        if negb (result =? 0) then mret result
        else if is_write (suio s).(uio_rw) then f_wblock iobuf diskblock
        else mret 0
  end.

(** [uio_offset] and [uio_resid] replaced. *)
Definition uio_at (off resid : Z) (v : uio) : uio :=
  Uio v.(uio_iov) off resid v.(uio_segflg) v.(uio_rw) v.(uio_space).

Definition sfs_blockio : M fstate Z :=
  s ← get;
  let doalloc := is_write (suio s).(uio_rw) in
  let fileblock := u32 (Z.quot (suio s).(uio_offset) SFS_BLOCKSIZE) in
  r ← sfs_bmap fileblock doalloc;
  match r with
  | inl e => mret e
  | inr diskblock =>
      if diskblock =? 0 then
        kassert (negb (is_write (suio s).(uio_rw)));; f_uiomovezeros SFS_BLOCKSIZE
      else
        s ← get;
        let saveoff := (suio s).(uio_offset) in
        let diskoff := u32 (diskblock * SFS_BLOCKSIZE) in
        kassert ((suio s).(uio_resid) >=? SFS_BLOCKSIZE);;
        let saveres := (suio s).(uio_resid) in
        modify (λ s, set_suio (uio_at diskoff SFS_BLOCKSIZE (suio s)) s);;
        result ← on_dev (sfs_rwblock held);
        modify (λ s, set_suio (uio_at ((suio s).(uio_offset) - diskoff + saveoff)
                                      (u32 ((suio s).(uio_resid) - SFS_BLOCKSIZE + saveres)) (suio s)) s);;
        mret result
  end.

Definition resid_left : M fstate Z := gets (λ s, (suio s).(uio_resid)).

(** The whole blocks of a region, and the partial block at its end. *)
Definition io_blocks : M fstate Z :=
  s ← get;
  if (suio s).(uio_resid) =? 0 then mret 0
  else
    kassert (Z.rem (suio s).(uio_offset) SFS_BLOCKSIZE =? 0);;
    r ← for_find (Z.to_nat ((suio s).(uio_resid) / SFS_BLOCKSIZE)) 0
          (λ _, result ← sfs_blockio; mret (if negb (result =? 0) then Some result else None));
    match r with
    | Some e => mret e
    | None =>
        resid ← resid_left;
        kassert (resid <? SFS_BLOCKSIZE);;
        if resid >? 0 then sfs_partialio 0 resid else mret 0
    end.

(** From the leading partial block to the label [out]. *)
Definition io_region : M fstate Z :=
  s ← get;
  let blkoff := u32 (Z.rem (suio s).(uio_offset) SFS_BLOCKSIZE) in
  result ← (if negb (blkoff =? 0) then
              let len := SFS_BLOCKSIZE - blkoff in
              sfs_partialio blkoff (if len >? (suio s).(uio_resid) then (suio s).(uio_resid) else len)
            else mret 0);
  if negb (result =? 0) then mret result else io_blocks.

(** The statements after the label [out]. *)
Definition io_out (extraresid : Z) : M fstate unit :=
  s ← get;
  when (is_write (suio s).(uio_rw) && ((suio s).(uio_offset) >? s.(sv).(sv_i).(sfi_size)))
    (modify (dirty_inode (set_size (u32 (suio s).(uio_offset)))));;
  modify (λ s, set_suio (uio_at (suio s).(uio_offset) (u32 ((suio s).(uio_resid) + extraresid)) (suio s)) s).

Definition sfs_io : M fstate Z :=
  s ← get;
  let v := suio s in
  let size := s.(sv).(sv_i).(sfi_size) in
  let endpos := v.(uio_offset) + v.(uio_resid) in
  if negb (is_write v.(uio_rw)) && (v.(uio_offset) >=? size) then mret 0
  else
    extraresid ← (if negb (is_write v.(uio_rw)) && (endpos >? size) then
                    let extraresid := u32 (endpos - size) in
                    kassert (v.(uio_resid) >? extraresid);;
                    modify (set_suio (uio_at v.(uio_offset) (v.(uio_resid) - extraresid) v));;
                    mret extraresid
                  else mret 0);
    result ← io_region;
    io_out extraresid;;
    mret result.

(** ** Truncation *)

Definition trunc_direct (blocklen i : Z) : M fstate unit :=
  s ← get;
  block ← of_opt (zlookup s.(sv).(sv_i).(sfi_direct) i);
  when ((i >=? blocklen) && negb (block =? 0))
    (sfs_bfree block;;
     s ← get;
     l ← of_opt (zupd s.(sv).(sv_i).(sfi_direct) i 0);
     modify (dirty_inode (set_direct l))).

(** The loop over the indirect block; [(hasnonzero, iddirty)]. *)
Fixpoint trunc_ids (n : nat) (blocklen j : Z) (hasnonzero iddirty : bool) : M fstate (bool * bool) :=
  match n with
  | O => mret (hasnonzero, iddirty)
  | S n =>
      block ← idbuf_get tidbuf j;
      iddirty ← (if (blocklen <? SFS_NDIRECT + j) && negb (block =? 0)
                 then sfs_bfree block;; idbuf_set tidbuf j 0;; mret true
                 else mret iddirty);
      block ← idbuf_get tidbuf j;
      trunc_ids n blocklen (j + 1) (hasnonzero || negb (block =? 0)) iddirty
  end.

Definition trunc_indirect (blocklen idblock : Z) : M fstate Z :=
  result ← f_rblock tidbuf idblock;
  if negb (result =? 0) then mret result
  else
    r ← trunc_ids 128 blocklen 0 false false;
    let '(hasnonzero, iddirty) := r : bool * bool in
    if negb hasnonzero then
      sfs_bfree idblock;; modify (dirty_inode (set_indirect 0));; mret 0
    else if iddirty then f_wblock tidbuf idblock
    else mret 0.

(** [len] is a signed 64-bit integer.  Between taking and releasing the big lock. *)
Definition truncate_held (len : Z) : M fstate Z :=
  let blocklen := u32 (Z.quot (len + SFS_BLOCKSIZE - 1) SFS_BLOCKSIZE) in
  for_up (Z.to_nat SFS_NDIRECT) 0 (trunc_direct blocklen);;
  s ← get;
  let idblock := s.(sv).(sv_i).(sfi_indirect) in
  let highblock := SFS_NDIRECT + SFS_DBPERIDB - 1 in
  result ← (if (blocklen <? highblock) && negb (idblock =? 0) then trunc_indirect blocklen idblock else mret 0);
  if negb (result =? 0) then mret result
  else modify (dirty_inode (set_size (u32 len)));; mret 0.
End files.

(** ** Blocks of a file and its bytes *)

(** The disk block of block [n] of the file, 0 for a hole. *)
Definition fblock (s : fstate) (n : Z) : Z :=
  let i := s.(sv).(sv_i) in
  if n <? 15 then default 0 (zlookup i.(sfi_direct) n)
  else if (n <? 143) && negb (i.(sfi_indirect) =? 0) then word_at (sdisk s) (i.(sfi_indirect) * 512 + 4 * (n - 15))
  else 0.

(** The byte at offset [x]. *)
Definition fbyte (s : fstate) (x : Z) : Z :=
  let b := fblock s (x / 512) in if b =? 0 then 0 else sdisk s (b * 512 + x mod 512).

Definition indirect (s : fstate) : Z := s.(sv).(sv_i).(sfi_indirect).

(** The disk blocks that belong to the file. *)
Definition owns (s : fstate) (b : Z) : Prop :=
  b ≠ 0 ∧ (b = indirect s ∨ ∃ n, 0 ≤ n < 143 ∧ fblock s n = b).

Definition marked (s : fstate) (b : Z) : Prop := bit (fmap_of s) b = true.

(** A file system on a working disk. *)
Record fs_ok {MC : Mach} (s : fstate) : Prop := {
  fo_wf : bitmap_wf (fmap_of s);
  fo_bits : 0 < nblocks s ≤ (fmap_of s).(nbits);
  fo_disk : nblocks s ≤ d_blocks < W32;
  fo_size : nblocks s * 512 ≤ W32;
  fo_top : ∀ b, nblocks s ≤ b < (fmap_of s).(nbits) → marked s b;
  fo_super : marked s 0;
  fo_codes : (dev s).(lhd_codes) = [];
  fo_zeros : ∀ a, zeros ≤ a < zeros + 512 → smem s a = 0;
}.

(** The blocks of the file are in range, marked, and all different. *)
Record file_ok (s : fstate) : Prop := {
  fl_len : length s.(sv).(sv_i).(sfi_direct) = 15%nat;
  fl_ino : marked s s.(sv).(sv_ino);
  fl_owns : ∀ b, owns s b → 0 < b < nblocks s ∧ marked s b ∧ b ≠ s.(sv).(sv_ino);
  fl_inj : ∀ n m, 0 ≤ n < 143 → 0 ≤ m < 143 → fblock s n = fblock s m → fblock s n ≠ 0 → n = m;
  fl_ind : ∀ n, 0 ≤ n < 143 → fblock s n ≠ 0 → fblock s n ≠ indirect s;
}.

(** The inode but for its block numbers; the vnode's number, the superblock. *)
Definition same_meta (s s' : fstate) : Prop :=
  let i := s.(sv).(sv_i) in let i' := s'.(sv).(sv_i) in
  i'.(sfi_size) = i.(sfi_size) ∧ i'.(sfi_type) = i.(sfi_type) ∧ i'.(sfi_linkcount) = i.(sfi_linkcount) ∧
  i'.(sfi_waste) = i.(sfi_waste) ∧ s'.(sv).(sv_ino) = s.(sv).(sv_ino) ∧ super s' = super s.

Lemma same_meta_trans s1 s2 s3 : same_meta s1 s2 → same_meta s2 s3 → same_meta s1 s3.
Proof. intros (? & ? & ? & ? & ? & ?) (? & ? & ? & ? & ? & ?). unfold same_meta. split_and!; congruence. Qed.

(** Nothing of the file system has changed. *)
Definition unchanged (s s' : fstate) : Prop :=
  s'.(sv) = s.(sv) ∧ fmap_of s' = fmap_of s ∧ sdisk s' = sdisk s ∧ super s' = super s ∧
  s'.(sfs).(sfs_freemapdirty) = s.(sfs).(sfs_freemapdirty).

Lemma unchanged_trans s1 s2 s3 : unchanged s1 s2 → unchanged s2 s3 → unchanged s1 s3.
Proof. intros (? & ? & ? & ? & ?) (? & ? & ? & ? & ?). unfold unchanged. split_and!; congruence. Qed.

(** What has changed is marked dirty: the inode, the free map. *)
Definition dirty_kept (s s' : fstate) : Prop :=
  (s'.(sv).(sv_dirty) = false → s'.(sv) = s.(sv)) ∧
  (s'.(sfs).(sfs_freemapdirty) = false → fmap_of s' = fmap_of s ∧ s.(sfs).(sfs_freemapdirty) = false).

Lemma dirty_kept_true s s' :
  s'.(sv).(sv_dirty) = true ∨ s'.(sv) = s.(sv) → s'.(sfs).(sfs_freemapdirty) = true → dirty_kept s s'.
Proof. intros [H|H] H2; split; congruence. Qed.

(** From [s] to [s'] the bytes of the file have become those of [f]; blocks were
    only added to it, all of them free before; no block in use by anything else
    has changed. *)
Record becomes (f : Z → Z) (s s' : fstate) : Prop := {
  be_meta : same_meta s s';
  be_dirty : dirty_kept s s';
  be_marks : ∀ b, marked s b → marked s' b;
  be_fresh : ∀ b, owns s' b → owns s b ∨ ¬ marked s b;
  be_bytes : ∀ x, 0 ≤ x → fbyte s' x = f x;
  be_others : ∀ b x, marked s b → ¬ owns s b → b * 512 ≤ x < b * 512 + 512 → sdisk s' x = sdisk s x;
}.

Lemma becomes_trans f g s1 s2 s3 : becomes f s1 s2 → becomes g s2 s3 → becomes g s1 s3.
Proof.
  intros [M1 [D1 E1] K1 F1 B1 O1] [M2 [D2 E2] K2 F2 B2 O2]. split.
  - by eapply same_meta_trans.
  - split; intros E.
    + pose proof (D2 E) as E3. rewrite E3 in E |- *. auto.
    + destruct (E2 E) as [-> E3]. auto.
  - auto.
  - intros b [H|H]%F2; [auto|]. right. auto.
  - done.
  - intros b x Hm Ho Hx. rewrite (O2 b x); [eauto..|]; auto. intros [H|H]%F1; auto.
Qed.

(** The block numbers depend on the inode and on the indirect block. *)
Lemma fblock_ext s s' n :
  s'.(sv).(sv_i).(sfi_direct) = s.(sv).(sv_i).(sfi_direct) → indirect s' = indirect s →
  (indirect s ≠ 0 → ∀ x, indirect s * 512 ≤ x < indirect s * 512 + 512 → sdisk s' x = sdisk s x) →
  fblock s' n = fblock s n.
Proof.
  unfold indirect, fblock. intros -> -> Hd. destruct (Z.ltb_spec n 15); [done|].
  destruct (Z.ltb_spec n 143); [|done]. destruct (Z.eqb_spec (sfi_indirect (sv_i (sv s))) 0); [done|].
  apply word_at_ext. intros x Hx. apply Hd; [done|lia].
Qed.

Lemma fblock_high s n : 143 ≤ n → fblock s n = 0.
Proof. intros Hn. unfold fblock. by zdecide. Qed.

(** The bytes depend on the block numbers and on the data blocks. *)
Lemma fbyte_ext s s' x :
  fblock s' (x / 512) = fblock s (x / 512) →
  (fblock s (x / 512) ≠ 0 → sdisk s' (fblock s (x / 512) * 512 + x mod 512) = sdisk s (fblock s (x / 512) * 512 + x mod 512)) →
  fbyte s' x = fbyte s x.
Proof. unfold fbyte. intros -> Hd. destruct (Z.eqb_spec (fblock s (x / 512)) 0); auto. Qed.

Lemma owns_fblock s n : 0 ≤ n < 143 → fblock s n ≠ 0 → owns s (fblock s n).
Proof. intros Hn Hb. split; [done|]. right. by exists n. Qed.

Lemma owns_indirect s : indirect s ≠ 0 → owns s (indirect s).
Proof. split; auto. Qed.

(** A file gets the free, cleared block [b] as its block [n]. *)
Lemma grow_data s s' n b :
  file_ok s → 0 ≤ n < 143 → fblock s n = 0 → 0 < b < nblocks s → ¬ marked s b →
  same_meta s s' → dirty_kept s s' → length s'.(sv).(sv_i).(sfi_direct) = 15%nat → indirect s' = indirect s →
  (∀ m, 0 ≤ m < 143 → fblock s' m = if m =? n then b else fblock s m) →
  (∀ j, marked s' j ↔ marked s j ∨ j = b) → (∀ x, b * 512 ≤ x < b * 512 + 512 → sdisk s' x = 0) →
  (∀ x, ¬ b * 512 ≤ x < b * 512 + 512 → ¬ (indirect s ≠ 0 ∧ indirect s * 512 ≤ x < indirect s * 512 + 512) → sdisk s' x = sdisk s x) →
  file_ok s' ∧ becomes (fbyte s) s s'.
Proof.
  intros [Fl Fi Fo Fj Fd] Hn Hh Hb Hm Hme Hdk Hlen Hind Hfb Hmk Hz Hd.
  pose proof Hme as (_ & _ & _ & _ & Eino & Esb).
  assert (∀ c, owns s c → c ≠ b) as Hob by (intros c (_ & ? & _)%Fo ->; done).
  assert (∀ c, owns s' c → owns s c ∨ c = b) as Hos.
  { intros c [Hc [-> |(m & Hm1 & <-)]]; [left; rewrite Hind in *; by apply owns_indirect|].
    rewrite Hfb in * by done. destruct (m =? n); [by right|]. left. by apply owns_fblock. }
  split; split; try done.
  - rewrite Eino. apply Hmk. by left.
  - intros c [Hc| ->]%Hos; unfold nblocks; rewrite Esb, Eino, Hmk.
    + destruct (Fo c Hc) as (? & ? & ?). auto.
    + split; [done|]. split; [by right|]. by intros ->.
  - intros m1 m2 H1 H2. rewrite !Hfb by done. destruct (Z.eqb_spec m1 n), (Z.eqb_spec m2 n); subst; try done.
    + intros Heq _. destruct (Hob (fblock s m2)); [apply owns_fblock; [done|lia]|done].
    + intros Heq ?. destruct (Hob (fblock s m1)); [by apply owns_fblock|done].
    + by apply Fj.
  - intros m H1. rewrite Hfb, Hind by done. destruct (Z.eqb_spec m n); [|by apply Fd].
    intros _ ->. destruct (Hob (indirect s)); [apply owns_indirect; lia|done].
  - intros c Hc. apply Hmk. by left.
  - intros c [Hc| ->]%Hos; [by left|by right].
  - intros x Hx. destruct (Z.lt_ge_cases (x / 512) 143).
    2:{ unfold fbyte. by rewrite !fblock_high. }
    destruct (Z.eq_dec (x / 512) n) as [E|E].
    { unfold fbyte. rewrite Hfb, E, Hh by lia. rewrite Z.eqb_refl. zdecide. apply Hz. lia. }
    assert (fblock s' (x / 512) = fblock s (x / 512)) as Ef by (rewrite Hfb by lia; by zdecide).
    apply fbyte_ext; [done|]. intros Hne. pose proof (owns_fblock s (x / 512) ltac:(lia) Hne) as Hox.
    pose proof (Hob _ Hox). pose proof (Fd (x / 512) ltac:(lia) Hne). apply Hd; lia.
  - intros c x Hc Ho Hx. assert (c ≠ b) by (by intros ->).
    apply Hd; [lia|]. intros [Hi Hr]. apply Ho. replace c with (indirect s) by lia. by apply owns_indirect.
Qed.

(** A file gets the free, cleared block [b] as its indirect block. *)
Lemma grow_indirect s s' b :
  file_ok s → indirect s = 0 → 0 < b < nblocks s → ¬ marked s b →
  same_meta s s' → dirty_kept s s' → s'.(sv).(sv_i).(sfi_direct) = s.(sv).(sv_i).(sfi_direct) → indirect s' = b →
  (∀ j, marked s' j ↔ marked s j ∨ j = b) → (∀ x, b * 512 ≤ x < b * 512 + 512 → sdisk s' x = 0) →
  (∀ x, ¬ b * 512 ≤ x < b * 512 + 512 → sdisk s' x = sdisk s x) →
  file_ok s' ∧ becomes (fbyte s) s s' ∧ ∀ n, fblock s' n = fblock s n.
Proof.
  intros [Fl Fi Fo Fj Fd] Hi0 Hb Hm Hme Hdk Hdir Hind Hmk Hz Hd.
  pose proof Hme as (_ & _ & _ & _ & Eino & Esb).
  assert (∀ n, fblock s' n = fblock s n) as Hfb.
  { intros n. unfold fblock, indirect in *. rewrite Hdir, Hind, Hi0. destruct (Z.ltb_spec n 15); [done|].
    rewrite andb_false_r. destruct (Z.ltb_spec n 143); [|done]. zdecide. cbn [andb].
    unfold word_at. rewrite !Hz by lia. done. }
  assert (∀ c, owns s c → c ≠ b) as Hob by (intros c (_ & ? & _)%Fo ->; done).
  assert (∀ c, owns s' c → owns s c ∨ c = b) as Hos.
  { intros c [Hc [-> |(m & Hm1 & <-)]]; [by right|]. rewrite Hfb in *. left. by apply owns_fblock. }
  split; [|split; [|done]]; split; try done.
  - by rewrite Hdir.
  - rewrite Eino. apply Hmk. by left.
  - intros c [Hc| ->]%Hos; unfold nblocks; rewrite Esb, Eino, Hmk.
    + destruct (Fo c Hc) as (? & ? & ?). auto.
    + split; [done|]. split; [by right|]. by intros ->.
  - intros m1 m2 H1 H2. rewrite !Hfb. by apply Fj.
  - intros m H1 H2. rewrite Hfb in *. rewrite Hind. by apply Hob, owns_fblock.
  - intros c Hc. apply Hmk. by left.
  - intros c [Hc| ->]%Hos; [by left|by right].
  - intros x Hx. apply fbyte_ext; [done|]. intros Hne. destruct (Z.lt_ge_cases (x / 512) 143) as [Hx2|Hx2].
    2:{ by rewrite fblock_high in Hne. }
    pose proof (Hob _ (owns_fblock s (x / 512) ltac:(lia) Hne)). apply Hd. lia.
  - intros c x Hc Ho Hx. assert (c ≠ b) by (by intros ->). apply Hd. lia.
Qed.

(** ** Blocks read, written, allocated *)

Definition set_sdisk (d : Z → Z) (s : fstate) : fstate := set_dev (set_disk d (dev s)) s.

(** Memory but for the static buffers, and but for the card's. *)
Definition same_umem {MC : Mach} (s s' : fstate) : Prop :=
  ∀ a, ¬ kbufs ≤ a < kbufs_end → smem s' a = smem s a.
Definition same_mem {MC : Mach} (m m' : Z → Z) : Prop :=
  ∀ a, ¬ lh_buf ≤ a < lh_buf + 512 → m' a = m a.

Section ops.
Context {MC : Mach}.
Implicit Types (s : fstate) (b : Z).

Lemma blk_range s b : fs_ok s → 0 ≤ b < nblocks s → 0 ≤ b < d_blocks ∧ d_blocks < W32.
Proof. intros [_ _ H _ _ _ _ _] Hb. lia. Qed.

Lemma next_ok s : fs_ok s → next_result (dev s) = Some 0.
Proof. intros H. unfold next_result. by rewrite (fo_codes s H). Qed.

(** One of the buffers other than the card's. *)
Definition is_buf (data : Z) : Prop := lh_buf + 512 ≤ data.

Lemma f_rblock_wp s data b Q :
  fs_ok s → 0 ≤ b < nblocks s → is_buf data →
  (∀ m', (∀ i, 0 ≤ i < 512 → m' (data + i) = sdisk s (b * 512 + i)) →
         (∀ a, ¬ lh_buf ≤ a < lh_buf + 512 → ¬ data ≤ a < data + 512 → m' a = smem s a) → Q 0 (set_smem m' s)) →
  wp (f_rblock true data b) Q s.
Proof.
  intros Hs Hb Hd HQ. destruct (blk_range s b Hs Hb) as [Hb1 Hb2].
  destruct (sfs_rblock_ret (dev s) data b Hb1 Hb2 (or_intror Hd) (next_ok s Hs)) as (m' & E & H1 & H2).
  apply wp_zoom. eapply wp_intro; [exact E|].
  replace (set_dev _ s) with (set_smem m' s); [apply HQ|].
  - intros i Hi. rewrite (H1 (Z.to_nat i) (data + i)); [f_equal; lia|lia|].
    rewrite lookup_seqZ_lt by lia. f_equal. lia.
  - intros a Ha1 Ha2. apply H2; [done|]. intros i Hi Hl. rewrite lookup_seqZ_lt in Hl by lia. simplify_eq. lia.
  - unfold set_smem, set_dev, set_du. by rewrite (fo_codes s Hs).
Qed.

Lemma f_wblock_wp s data b Q :
  fs_ok s → 0 ≤ b < nblocks s → is_buf data →
  (∀ m' d', same_mem (smem s) m' → (∀ i, 0 ≤ i < 512 → d' (b * 512 + i) = smem s (data + i)) →
     (∀ x, ¬ b * 512 ≤ x < b * 512 + 512 → d' x = sdisk s x) → Q 0 (set_sdisk d' (set_smem m' s))) →
  wp (f_wblock true data b) Q s.
Proof.
  intros Hs Hb Hd HQ. destruct (blk_range s b Hs Hb) as [Hb1 Hb2].
  destruct (sfs_wblock_ret (dev s) data b Hb1 Hb2 (or_intror Hd) (next_ok s Hs)) as (m' & d' & E & H1 & H2 & H3).
  apply wp_zoom. eapply wp_intro; [exact E|].
  replace (set_dev _ s) with (set_sdisk d' (set_smem m' s)); [apply HQ; [done| |done]|].
  - intros i Hi. unfold smem. rewrite <- (H2 (Z.to_nat i) (data + i)); [f_equal; lia|lia|].
    rewrite lookup_seqZ_lt by lia. f_equal. lia.
  - unfold set_sdisk, set_smem, set_dev, set_du, set_disk. simpl. by rewrite (fo_codes s Hs).
Qed.

Lemma fs_ok_nblocks s s' :
  fs_ok s → nblocks s' = nblocks s → fmap_of s' = fmap_of s → (dev s').(lhd_codes) = (dev s).(lhd_codes) →
  (∀ a, zeros ≤ a < zeros + 512 → smem s' a = smem s a) → fs_ok s'.
Proof.
  intros [H1 H2 H3 H4 H5 H6 H7 H8] E1 E2 E3 E4. unfold marked in *.
  split; unfold marked; rewrite ?E1, ?E2, ?E3; try done. intros a Ha. rewrite E4; auto.
Qed.

Lemma fs_ok_ext s s' :
  fs_ok s → super s' = super s → fmap_of s' = fmap_of s → (dev s').(lhd_codes) = (dev s).(lhd_codes) →
  (∀ a, zeros ≤ a < zeros + 512 → smem s' a = smem s a) → fs_ok s'.
Proof. intros Hs E1. apply (fs_ok_nblocks s s' Hs). unfold nblocks. by rewrite E1. Qed.

(** What an allocation does: a free block is marked and cleared. *)
Record balloced (s : fstate) (b : Z) (s' : fstate) : Prop := {
  ba_range : 0 < b < nblocks s;
  ba_free : ¬ marked s b;
  ba_marked : ∀ j, marked s' j ↔ marked s j ∨ j = b;
  ba_zero : ∀ x, b * 512 ≤ x < b * 512 + 512 → sdisk s' x = 0;
  ba_disk : ∀ x, ¬ b * 512 ≤ x < b * 512 + 512 → sdisk s' x = sdisk s x;
  ba_mem : same_mem (smem s) (smem s');
  ba_sv : s'.(sv) = s.(sv);
  ba_mapdirty : s'.(sfs).(sfs_freemapdirty) = true;
  ba_sb : super s' = super s;
  ba_uio : suio s' = suio s;
  ba_ok : fs_ok s';
}.

Definition full (s : fstate) : Prop := ∀ b, 0 ≤ b < nblocks s → marked s b.

Lemma sfs_balloc_wp s :
  fs_ok s →
  wp (sfs_balloc true)
     (λ r s', match r with
              | inl e => e = ENOSPC ∧ s' = s ∧ full s
              | inr b => balloced s b s'
              end) s.
Proof.
  intros Hs. pose proof Hs as [H1 H2 H3 H4 H5 H6 H7 H8]. unfold sfs_balloc. apply wp_bind.
  apply wp_zoom. eapply wp_mono; [|by apply bitmap_alloc_wp]. intros [e [b|]] fm'.
  2:{ intros (-> & -> & Hf). apply wp_ret. split; [done|]. split; [by destruct s as [[] ?]|].
      intros b Hb. apply Hf. lia. }
  intros (-> & Hb & Hfree & _ & Hwf & Hnb & Hbits). cbn [Z.eqb negb]. apply wp_modify, wp_get.
  set (s1 := set_fmapdirty true (set_fmap fm' s)).
  assert (b < nblocks s) as Hlt.
  { destruct (Z.lt_ge_cases b (nblocks s)); [done|]. rewrite (H5 b) in Hfree by lia. done. }
  assert (b ≠ 0) by (intros ->; by rewrite H6 in Hfree).
  change (nblocks s1) with (nblocks s). rewrite Z.geb_leb. zdecide. cbv iota.
  assert (∀ j, marked s1 j ↔ marked s j ∨ j = b) as Hm.
  { intros j. unfold marked. change (fmap_of s1) with fm'. rewrite Hbits, orb_true_iff, Z.eqb_eq. done. }
  assert (fs_ok s1) as Hs1.
  { split; try done; [change (fmap_of s1) with fm'; rewrite Hnb; done| |].
    - intros j. change (fmap_of s1) with fm'. rewrite Hnb. intros Hj. apply Hm. left. by apply H5.
    - apply Hm. by left. }
  apply wp_bind. apply f_wblock_wp; [done|change (nblocks s1) with (nblocks s); lia|unfold is_buf, zeros, lh_buf; lia|].
  intros m' d' Hmm Hd1 Hd2. cbn [Z.eqb negb]. apply wp_ret.
  split; try done; [lia|by unfold marked; rewrite Hfree| |].
  - intros x Hx. change (sdisk _ x) with (d' x). replace x with (b * 512 + (x - b * 512)) by lia.
    rewrite Hd1 by lia. apply H8. lia.
  - apply (fs_ok_ext s1); try done. intros a Ha. apply Hmm. revert Ha. unfold zeros, lh_buf. lia.
Qed.

Lemma bmap_done_wp s b Q :
  fs_ok s → (b ≠ 0 → 0 < b < nblocks s ∧ marked s b) → Q (inr b) s → wp (bmap_done b) Q s.
Proof.
  intros Hs Hb HQ. unfold bmap_done. destruct (Z.eqb_spec b 0) as [-> |Hne]; [done|].
  destruct (Hb Hne) as [H1 H2]. pose proof Hs as [Hwf Hbits _ _ _ _ _ _].
  apply wp_bind. unfold sfs_bused. apply wp_bind, wp_get. rewrite Z.geb_leb. zdecide. cbv iota.
  apply wp_bind, wp_zoom. eapply wp_mono; [|apply bitmap_isset_wp; [done|lia]].
  intros w fm [-> Hw]. apply wp_ret, wp_ret. rewrite Hw, H2. simpl. apply wp_ret.
  by destruct s as [[] ?].
Qed.

Lemma becomes_refl s : becomes (fbyte s) s s.
Proof. by split; try (left + done). Qed.

(** Nothing but memory has changed. *)
Lemma becomes_ext s s' :
  s'.(sv) = s.(sv) → fmap_of s' = fmap_of s → super s' = super s →
  s'.(sfs).(sfs_freemapdirty) = s.(sfs).(sfs_freemapdirty) → sdisk s' = sdisk s → file_ok s → file_ok s' ∧ becomes (fbyte s) s s'.
Proof.
  intros E1 E2 E3 E5 E4 [Fl Fi Fo Fj Fd].
  assert (∀ n, fblock s' n = fblock s n) as Hf by (intros n; apply fblock_ext; unfold indirect; rewrite ?E1, ?E4; done).
  assert (∀ b, owns s' b ↔ owns s b) as Ho.
  { intros b. unfold owns, indirect. rewrite E1. by setoid_rewrite Hf. }
  split; split; unfold marked, nblocks, indirect in *; rewrite ?E1, ?E2, ?E3; try done.
  - intros b Hb%Ho. auto.
  - intros n m. rewrite !Hf. auto.
  - intros n. rewrite !Hf. auto.
  - unfold same_meta. by rewrite E1, E3.
  - unfold dirty_kept. by rewrite E1, E2, E5.
  - intros b Hb%Ho. by left.
  - intros x Hx. apply fbyte_ext; [done|]. by rewrite E4.
  - by rewrite E4.
Qed.

Lemma same_umem_mem s s' : same_mem (smem s) (smem s') → same_umem s s'.
Proof. intros H a Ha. apply H. revert Ha. unfold lh_buf, kbufs_end. lia. Qed.

Lemma same_umem_trans s1 s2 s3 : same_umem s1 s2 → same_umem s2 s3 → same_umem s1 s3.
Proof. intros H1 H2 a Ha. by rewrite H2, H1. Qed.

(** What [sfs_bmap] promises: the bytes of the file stay the same. *)
Record bmap_post (s : fstate) (fileblock : Z) (doalloc : bool) (r : Z + Z) (s' : fstate) : Prop := {
  bp_fs : fs_ok s';
  bp_file : file_ok s';
  bp_bytes : becomes (fbyte s) s s';
  bp_mem : same_umem s s';
  bp_uio : suio s' = suio s;
  bp_read : doalloc = false → unchanged s s';
  bp_result : match r with
              | inl e => e = EFBIG ∧ 143 ≤ fileblock ∨ e = ENOSPC ∧ doalloc = true ∧ full s' ∧ fblock s' fileblock = 0
              | inr b => fileblock < 143 ∧ fblock s' fileblock = b ∧ (doalloc = true → b ≠ 0)
              end;
}.

Lemma bmap_direct_wp s n doalloc :
  fs_ok s → file_ok s → 0 ≤ n < 15 → wp (bmap_direct true n doalloc) (bmap_post s n doalloc) s.
Proof.
  intros Hs Hf Hn. pose proof Hf as [Fl Fi Fo _ _]. unfold bmap_direct. apply wp_get.
  destruct (zlookup_is_Some s.(sv).(sv_i).(sfi_direct) n) as [b Hb]; [rewrite Fl; lia|].
  eapply wp_of_opt; [exact Hb|].
  assert (fblock s n = b) as Hfb by (unfold fblock; zdecide; by rewrite Hb).
  destruct (Z.eqb_spec b 0) as [-> |Hne]; [destruct doalloc|]; cbn [andb].
  - apply wp_bind. eapply wp_mono; [|by apply sfs_balloc_wp]. intros [e|b] s1.
    + intros (-> & -> & Hfull). apply wp_ret. split; try done; [apply becomes_refl|]. by right.
    + intros [B1 B2 B3 B4 B5 B6 B7 BD B8 B9 B10]. apply wp_get. rewrite B7.
      eapply wp_of_opt; [apply zupd_Some; rewrite Fl; lia|]. apply wp_modify.
      set (s2 := dirty_inode _ s1).
      assert (∀ m, 0 ≤ m < 143 → fblock s2 m = if m =? n then b else fblock s m) as Hfb2.
      { intros m Hm. unfold fblock. change (sv_i (sv s2)) with (set_direct (<[Z.to_nat n:=b]> s.(sv).(sv_i).(sfi_direct)) (sv_i (sv s1))).
        rewrite B7. change (sdisk s2) with (sdisk s1). cbn [set_direct sfi_direct sfi_indirect]. destruct (Z.ltb_spec m 15).
        - rewrite zlookup_insert by (rewrite Fl; lia). rewrite Z.eqb_sym. by destruct (m =? n).
        - zdecide. destruct (Z.eqb_spec (sfi_indirect (sv_i (sv s))) 0); [done|]. apply word_at_ext. intros x Hx. apply B5. intros Hx2.
          apply B2. replace b with (indirect s); [by apply Fo, owns_indirect|unfold indirect in *; lia]. }
      destruct (grow_data s s2 n b) as [Hf2 Hb2]; try done; try lia.
      { unfold same_meta. change (super s2) with (super s1). rewrite B8. unfold s2. simpl. by rewrite B7. }
      { apply dirty_kept_true; [by auto|exact BD]. }
      { unfold s2. simpl. by rewrite length_insert. }
      { unfold indirect, s2. simpl. by rewrite B7. }
      { intros x Hx _. by apply B5. }
      assert (fs_ok s2) as Hs2 by (by apply (fs_ok_ext s1)).
      assert (fblock s2 n = b) as Hfn by (rewrite Hfb2 by lia; by zdecide).
      apply bmap_done_wp; [done| |].
      * intros _. change (nblocks s2) with (nblocks s1). unfold nblocks. rewrite B8. split; [done|].
        apply B3. by right.
      * split; try done; [by apply same_umem_mem|]. split; [lia|]. split; [done|]. lia.
  - apply bmap_done_wp; [done|done|]. split; try done; [apply becomes_refl|]. split; [lia|done].
  - apply bmap_done_wp; [done| |].
    + intros _. rewrite <- Hfb in *. destruct (Fo _ (owns_fblock s n ltac:(lia) Hne)) as (? & ? & _). done.
    + split; try done; [apply becomes_refl|]. split; [lia|]. split; [done|]. by intros _.
Qed.

(** The buffer [buf] holds the indirect block. *)
Definition id_loaded (s : fstate) (buf : Z) : Prop :=
  ∀ i, 0 ≤ i < 512 → smem s (buf + i) = sdisk s (indirect s * 512 + i).

Lemma id_loaded_word s buf j :
  id_loaded s buf → indirect s ≠ 0 → 0 ≤ j < 128 → word_at (smem s) (buf + 4 * j) = fblock s (15 + j).
Proof.
  intros H Hi Hj. unfold fblock. zdecide. fold (indirect s). zdecide. cbn [andb].
  replace (15 + j - 15) with j by lia. unfold word_at. rewrite <- !Z.add_assoc, !H by lia. done.
Qed.

Lemma bmap_load_wp s :
  fs_ok s → file_ok s →
  wp (bmap_load true (indirect s))
     (λ r s', match r with
              | inl e => e = ENOSPC ∧ s' = s ∧ full s ∧ indirect s = 0
              | inr b => indirect s' = b ∧ b ≠ 0 ∧ fs_ok s' ∧ file_ok s' ∧ becomes (fbyte s) s s' ∧
                  (∀ n, fblock s' n = fblock s n) ∧ same_umem s s' ∧ suio s' = suio s ∧ id_loaded s' idbuf ∧
                  (indirect s ≠ 0 → unchanged s s')
              end) s.
Proof.
  intros Hs Hf. pose proof Hf as [Fl Fi Fo _ _]. unfold bmap_load. destruct (Z.eqb_spec (indirect s) 0) as [E|E].
  - apply wp_bind. eapply wp_mono; [|by apply sfs_balloc_wp]. intros [e|b] s1; [intros (? & ? & ?); by apply wp_ret|].
    intros [B1 B2 B3 B4 B5 B6 B7 BD B8 B9 B10]. apply wp_modify, wp_modify, wp_ret.
    set (s2 := set_smem _ _).
    destruct (grow_indirect s s2 b) as (Hf2 & Hb2 & Hfb); try done.
    { unfold same_meta. change (super s2) with (super s1). rewrite B8. unfold s2. simpl. by rewrite B7. }
      { apply dirty_kept_true; [by auto|exact BD]. }
    { unfold s2. simpl. by rewrite B7. }
    split; [done|]. split; [lia|]. split.
    { apply (fs_ok_ext s1); try done. intros a Ha. unfold s2, smem, blit. simpl. revert Ha. unfold zeros, idbuf. intros Ha. by zdecide. }
    split; [done|]. split; [done|]. split; [done|]. split; [|split; [done|split; [|done]]].
    + intros a Ha. rewrite <- (B6 a) by (revert Ha; unfold lh_buf, kbufs_end; lia).
      unfold s2, smem, blit. simpl. revert Ha. unfold idbuf, kbufs_end. intros Ha.
      destruct (Z.leb_spec (kbufs + 1024) a), (Z.ltb_spec a (kbufs + 1024 + 512)); by (lia || done).
    + intros i Hi. change (indirect s2) with b. change (sdisk s2) with (sdisk s1). rewrite B4 by lia.
      unfold s2, smem, blit. simpl. by zdecide.
  - destruct (Fo _ (owns_indirect s E)) as (Hr & _ & _).
    apply wp_bind. apply f_rblock_wp; [done|lia|unfold is_buf, lh_buf, idbuf; lia|].
    intros m' H1 H2. cbn [Z.eqb negb]. apply wp_ret. set (s2 := set_smem m' s).
    destruct (becomes_ext s s2) as [Hf2 Hb2]; try done.
    split; [done|]. split; [done|]. split.
    { apply (fs_ok_ext s); try done. intros a Ha. apply H2; revert Ha; unfold zeros, lh_buf, idbuf; lia. }
    split; [done|]. split; [done|]. split; [done|]. split; [|by split; [|split; [|done]]].
    intros a Ha. apply H2; revert Ha; unfold kbufs_end, lh_buf, idbuf; lia.
Qed.

(** The data block is entered in the indirect block. *)
Lemma bmap_enter_wp s s1 b idoff :
  file_ok s → indirect s ≠ 0 → id_loaded s idbuf → 0 ≤ idoff < 128 → fblock s (15 + idoff) = 0 → balloced s b s1 →
  wp (idbuf_set idbuf idoff b;;
      result ← f_wblock true idbuf (indirect s);
      if negb (result =? 0) then mret (inl result) else bmap_done b)
     (λ r s', r = inr b ∧ fs_ok s' ∧ file_ok s' ∧ becomes (fbyte s) s s' ∧ fblock s' (15 + idoff) = b ∧
              same_umem s s' ∧ suio s' = suio s) s1.
Proof.
  intros Hf Hi Hl Ho Hh [B1 B2 B3 B4 B5 B6 B7 BD B8 B9 B10]. pose proof Hf as [Fl Fi Fo _ _].
  destruct (Fo _ (owns_indirect s Hi)) as (Hr & Hm & _). assert (indirect s ≠ b) as Hib by (by intros E; rewrite E in Hm).
  apply wp_modify. set (s2 := set_smem _ s1).
  assert (fs_ok s2) as Hs2.
  { apply (fs_ok_ext s1); try done. intros a Ha. apply word_put_other. revert Ha. unfold zeros, idbuf. lia. }
  assert (nblocks s2 = nblocks s) as Hnb by (change (nblocks s2) with (nblocks s1); unfold nblocks; by rewrite B8).
  apply wp_bind, f_wblock_wp; [done|lia|unfold is_buf, lh_buf, idbuf; lia|].
  intros m' d' H1 H2 H3. cbn [Z.eqb negb]. set (s3 := set_sdisk d' _).
  assert (∀ i, 0 ≤ i < 512 → d' (indirect s * 512 + i) =
               word_put (λ x, sdisk s (indirect s * 512 + x)) (4 * idoff) b i) as Hd'.
  { intros i Hi2. rewrite H2 by lia. unfold s2, smem. simpl. unfold word_put.
    rewrite <- (Hl i Hi2), <- (B6 (idbuf + i)) by (unfold lh_buf, idbuf; lia).
    rewrite <- !(Z.add_assoc idbuf). unfold idbuf. zbool. }
  assert (∀ m, 0 ≤ m < 143 → fblock s3 m = if m =? 15 + idoff then b else fblock s m) as Hfb.
  { intros m Hm2. unfold fblock. change (sdisk s3) with d'. change (sv s3) with (sv s1). rewrite B7.
    fold (indirect s). destruct (Z.ltb_spec m 15); [by zdecide|]. zdecide. cbn [andb].
    destruct (Z.eqb_spec m (15 + idoff)) as [-> |Hne].
    - replace (15 + idoff - 15) with idoff by lia. unfold word_at. rewrite <- !Z.add_assoc, !Hd' by lia.
      pose proof (fo_size s2 Hs2). apply (word_at_put (λ x, sdisk s (indirect s * 512 + x))). lia.
    - unfold word_at. rewrite <- !Z.add_assoc, !Hd' by lia. unfold word_put. by zdecide. }
  destruct (grow_data s s3 (15 + idoff) b) as [Hf3 Hb3]; try done; try lia.
  { unfold same_meta. change (super s3) with (super s1). rewrite B8. unfold s3. simpl. by rewrite B7. }
  { apply dirty_kept_true; [by auto|exact BD]. }
  { unfold s3. simpl. by rewrite B7. }
  { unfold indirect, s3. simpl. by rewrite B7. }
  { intros x Hx. change (sdisk s3 x) with (d' x). rewrite H3 by lia. by apply B4. }
  { intros x Hx1 Hx2. change (sdisk s3 x) with (d' x). rewrite H3 by (intros ?; by apply Hx2). by apply B5. }
  apply bmap_done_wp.
  - apply (fs_ok_ext s2); try done. intros a Ha. apply H1. revert Ha. unfold zeros, lh_buf. lia.
  - intros _. change (nblocks s3) with (nblocks s2). split; [lia|]. apply B3. by right.
  - split; [done|]. split.
    { apply (fs_ok_ext s2); try done. intros a Ha. apply H1. revert Ha. unfold zeros, lh_buf. lia. }
    split; [done|]. split; [done|]. split; [rewrite Hfb by lia; by zdecide|]. split; [|done].
    intros a Ha. change (smem s3 a) with (m' a). rewrite H1 by (revert Ha; unfold lh_buf, kbufs_end; lia).
    change (smem s2 a) with (word_put (smem s1) (idbuf + 4 * idoff) b a).
    rewrite word_put_other by (revert Ha; unfold idbuf, kbufs_end; lia). by apply same_umem_mem.
Qed.

Lemma bmap_indirect_wp s idoff doalloc :
  fs_ok s → file_ok s → 0 ≤ idoff < 128 → wp (bmap_indirect true idoff doalloc) (bmap_post s (15 + idoff) doalloc) s.
Proof.
  intros Hs Hf Ho. unfold bmap_indirect. apply wp_get. cbv zeta. fold (indirect s).
  destruct ((indirect s =? 0) && negb doalloc) eqn:E.
  { apply andb_true_iff in E as [E%Z.eqb_eq Ea%negb_true_iff]. subst doalloc. apply wp_ret.
    split; try done; [apply becomes_refl|]. split; [lia|]. split; [|done].
    unfold fblock. fold (indirect s). rewrite E, andb_false_r. by zdecide. }
  apply wp_bind. eapply wp_mono; [|by apply bmap_load_wp]. intros [e|i] s1.
  { intros (-> & -> & Hfull & E0). apply wp_ret. rewrite E0 in E. destruct doalloc; [|done].
    split; try done; [apply becomes_refl|]. right. split_and!; try done.
    unfold fblock. fold (indirect s). rewrite E0, andb_false_r. by zdecide. }
  intros (<- & Hi & Hs1 & Hf1 & Hb1 & Hfb & Hum & Hu & Hl & Hro). apply wp_gets.
  rewrite (id_loaded_word s1 idbuf idoff) by done. pose proof Hf1 as [_ _ Fo _ _].
  destruct ((fblock s1 (15 + idoff) =? 0) && doalloc) eqn:Ea.
  - apply andb_true_iff in Ea as [Ea%Z.eqb_eq ->]. apply wp_bind.
    eapply wp_mono; [|by apply sfs_balloc_wp]. intros [e|b] s2.
    + intros (-> & -> & Hfull). apply wp_ret. split; try done. by right.
    + intros Hb. eapply wp_mono; [|by apply (bmap_enter_wp s1 s2 b idoff)].
      intros r s3 (-> & Hs3 & Hf3 & Hb3 & Hfb3 & Hum3 & Hu3). split; try done.
      * eapply becomes_trans; [exact Hb1|]. split; try apply Hb3.
        intros x Hx. rewrite (be_bytes _ _ _ Hb3 x Hx). by apply Hb1.
      * by eapply same_umem_trans.
      * by rewrite Hu3.
      * split; [lia|]. split; [done|]. destruct (ba_range _ _ _ Hb). lia.
  - apply bmap_done_wp; [done| |].
    + intros Hne. destruct (Fo _ (owns_fblock s1 (15 + idoff) ltac:(lia) Hne)) as (? & ? & _). done.
    + split; try done.
      * intros ->. apply Hro. intros E0. by rewrite E0 in E.
      * split; [lia|]. split; [done|]. intros ->. rewrite andb_true_r in Ea. by apply Z.eqb_neq.
Qed.

Lemma sfs_bmap_wp s fileblock doalloc :
  fs_ok s → file_ok s → 0 ≤ fileblock → wp (sfs_bmap true fileblock doalloc) (bmap_post s fileblock doalloc) s.
Proof.
  intros Hs Hf Hn. unfold sfs_bmap, SFS_NDIRECT, SFS_DBPERIDB.
  destruct (Z.ltb_spec fileblock 15); [apply bmap_direct_wp; (done || lia)|]. cbv zeta.
  destruct (Z.gtb_spec ((fileblock - 15) / 128) 0).
  - apply wp_ret. split; try done; [apply becomes_refl|]. left. split; [done|lia].
  - replace fileblock with (15 + (fileblock - 15) mod 128) at 2 by lia. apply bmap_indirect_wp; (done || lia).
Qed.
End ops.
