(* ===== verification/SfsIo.v ===== *)
(** What reading and writing do to a file of SFS: [sfs_partialio], [sfs_blockio]
    and [sfs_io] (kern/fs/sfs/sfs_vnode.c) transfer bytes between the buffers of
    the uio and the bytes of the file, whatever the alignment of the region, and
    touch nothing else. *)

From Stdlib Require Import ZArith Lia.
From stdpp Require Import base numbers list.
From S2P Require Import Prelude Bitmap Uio SfsDisk SfsFile.

Definition uaddrs (s : fstate) : list Z := addrs (suio s).(uio_iov).
Definition off (s : fstate) : Z := (suio s).(uio_offset).
Definition rw (s : fstate) : uio_rw_t := (suio s).(uio_rw).
Definition resid (s : fstate) : Z := (suio s).(uio_resid).

(** A request: good buffers, apart from each other and from the kernel's, and a
    region whose block numbers fit 32 bits. *)
Record uio_ok {MC : Mach} (s : fstate) : Prop := {
  uo_acc : accessible ucheck (suio s);
  uo_space : space_ok (suio s);
  uo_iov : iov_ok (suio s).(uio_iov);
  uo_resid : 0 ≤ resid s < W32;
  uo_len : resid s ≤ Z.of_nat (length (uaddrs s));
  uo_nodup : NoDup (uaddrs s);
  uo_sep : ∀ a, a ∈ uaddrs s → ¬ kbufs ≤ a < kbufs_end;
  uo_off : 0 ≤ off s ∧ off s + resid s ≤ 512 * W32;
}.

(** The uio after [k] bytes. *)
Record advanced (v v' : uio) (k : Z) : Prop := {
  ad_addrs : addrs v'.(uio_iov) = drop (Z.to_nat k) (addrs v.(uio_iov));
  ad_iov : iov_ok v'.(uio_iov);
  ad_off : v'.(uio_offset) = v.(uio_offset) + k;
  ad_resid : v'.(uio_resid) = v.(uio_resid) - k;
  ad_seg : v'.(uio_segflg) = v.(uio_segflg);
  ad_rw : v'.(uio_rw) = v.(uio_rw);
  ad_space : v'.(uio_space) = v.(uio_space);
}.

(** The bytes of the file when the first [k] bytes of a write are in it. *)
Definition overwritten (s : fstate) (k : Z) (x : Z) : Z :=
  if is_write (rw s) && (off s <=? x) && (x <? off s + k)
  then smem s (default 0 (uaddrs s !! Z.to_nat (x - off s))) else fbyte s x.

(** [k] bytes of the request have been served. *)
Record io_step {MC : Mach} (s : fstate) (k : Z) (s' : fstate) : Prop := {
  is_fs : fs_ok s';
  is_file : file_ok s';
  is_uio : advanced (suio s) (suio s') k;
  is_bytes : becomes (overwritten s k) s s';
  is_in : rw s = UIO_READ → ∀ (i : nat) a, Z.of_nat i < k → uaddrs s !! i = Some a → smem s' a = fbyte s (off s + Z.of_nat i);
  is_out : ∀ a, ¬ kbufs ≤ a < kbufs_end → (rw s = UIO_READ → ∀ i : nat, Z.of_nat i < k → uaddrs s !! i ≠ Some a) →
           smem s' a = smem s a;
  is_read : rw s = UIO_READ → unchanged s s';
}.

Section steps.
Context {MC : Mach}.
Implicit Types s : fstate.

Lemma advanced_refl v : iov_ok v.(uio_iov) → advanced v v 0.
Proof. intros H. split; (done || lia). Qed.

Lemma advanced_uio_ok s s' k :
  uio_ok s → advanced (suio s) (suio s') k → 0 ≤ k ≤ resid s → uio_ok s'.
Proof.
  intros [U1 U2 U3 U4 U5 U6 U7 U8] [A1 A2 A3 A4 A5 A6 A7] Hk. unfold uaddrs, resid, off in *.
  split; unfold uaddrs, resid, off, accessible, space_ok; rewrite ?A1, ?A3, ?A4, ?A5, ?A7; try done; try lia.
  - rewrite length_drop. lia.
  - rewrite <- (take_drop (Z.to_nat k)) in U6. by apply NoDup_app in U6 as (_ & _ & ?).
  - intros a Ha. apply U7. rewrite <- (take_drop (Z.to_nat k)). apply elem_of_app. by right.
Qed.

Lemma uaddrs_is_Some s i : uio_ok s → 0 ≤ i < resid s → ∃ a, uaddrs s !! Z.to_nat i = Some a ∧ ¬ kbufs ≤ a < kbufs_end.
Proof.
  intros [U1 U2 U3 U4 U5 U6 U7 U8] Hi. destruct (lookup_lt_is_Some_2 (uaddrs s) (Z.to_nat i)) as [a Ha]; [lia|].
  exists a. split; [done|]. apply U7. by apply list_elem_of_lookup_2 in Ha.
Qed.

Lemma becomes_proper f g s s' : (∀ x, 0 ≤ x → f x = g x) → becomes f s s' → becomes g s s'.
Proof. intros H [B0 B1 B2 B3 B4 B5]. split; try done. intros x Hx. by rewrite B4, H. Qed.

Lemma io_step_trans s s1 s2 k1 k2 :
  uio_ok s → 0 ≤ k1 → 0 ≤ k2 → k1 + k2 ≤ resid s → io_step s k1 s1 → io_step s1 k2 s2 → io_step s (k1 + k2) s2.
Proof.
  intros Hu H1 H2 Hr [F1 G1 [A1 A2 A3 A4 A5 A6 A7] B1 I1 O1 R1] [F2 G2 [C1 C2 C3 C4 C5 C6 C7] B2 I2 O2 R2].
  assert (uaddrs s1 = drop (Z.to_nat k1) (uaddrs s)) as Ea by done.
  assert (rw s1 = rw s) as Er by done. assert (off s1 = off s + k1) as Eo by done.
  rewrite Er in *. split; try done.
  - split; rewrite ?C3, ?C4, ?C5, ?C6, ?C7, ?A3, ?A4, ?A5, ?A6, ?A7; try done; try lia.
    rewrite C1, A1, drop_drop. f_equal. lia.
  - eapply becomes_trans; [exact B1|]. eapply becomes_proper; [|exact B2]. intros x Hx.
    unfold overwritten. rewrite Er, Eo, Ea. destruct (is_write (rw s)) eqn:Ew; cbn [andb].
    2:{ by rewrite (be_bytes _ _ _ B1) by done; unfold overwritten; rewrite Ew. }
    rewrite lookup_drop. rewrite (be_bytes _ _ _ B1) by done. unfold overwritten. rewrite Ew. cbn [andb].
    destruct (Z.leb_spec (off s) x), (Z.ltb_spec x (off s + (k1 + k2))), (Z.leb_spec (off s + k1) x),
      (Z.ltb_spec x (off s + k1 + k2)), (Z.ltb_spec x (off s + k1)); cbn [andb]; try lia; try done.
    replace (Z.to_nat k1 + Z.to_nat (x - (off s + k1)))%nat with (Z.to_nat (x - off s)) by lia.
    destruct (uaddrs_is_Some s (x - off s) Hu) as (a & -> & Ha); [lia|]. apply O1; [done|]. by intros E; rewrite E in Ew.
  - intros E i a Hi Ha. destruct (decide (Z.of_nat i < k1)).
    + rewrite O2; [by apply I1| |].
      * eapply uo_sep, list_elem_of_lookup_2; [done|exact Ha].
      * intros _ j _. rewrite Ea, lookup_drop. intros Hj. pose proof (NoDup_lookup _ _ _ _ (uo_nodup s Hu) Ha Hj). lia.
    + rewrite (I2 E (i - Z.to_nat k1)%nat a); [|lia|rewrite Ea, lookup_drop, <- Ha; f_equal; lia].
      rewrite Eo, (be_bytes _ _ _ B1) by (destruct (uo_off s Hu); lia).
      unfold overwritten. rewrite E. cbn [is_write andb]. f_equal. lia.
  - intros a Ha Hn. rewrite O2; [apply O1; [done|]; intros E i Hi; apply Hn; [done|lia]|done|].
    intros E i Hi. rewrite Ea, lookup_drop. apply Hn; [done|lia].
  - intros E. eapply unchanged_trans; eauto.
Qed.

(** A step that serves nothing: what [sfs_bmap] does. *)
Lemma bmap_io_step s n r s' :
  uio_ok s → bmap_post s n (is_write (rw s)) r s' → io_step s 0 s'.
Proof.
  intros Hu [B1 B2 B3 B4 B5 B6 B7]. split; try done.
  - rewrite B5. apply advanced_refl, Hu.
  - eapply becomes_proper; [|exact B3]. intros x Hx. unfold overwritten.
    rewrite Z.add_0_r. destruct (Z.leb_spec (off s) x), (Z.ltb_spec x (off s)); rewrite ?andb_false_r; (lia || done).
  - intros _ i a Hi. lia.
  - intros a Ha _. by apply B4.
  - intros E. apply B6. by rewrite E.
Qed.

(** Overwriting the data block [b] of block [n] of the file. *)
Lemma write_block s s' n :
  file_ok s → 0 ≤ n < 143 → fblock s n ≠ 0 → s'.(sv) = s.(sv) → fmap_of s' = fmap_of s →
  super s' = super s → s'.(sfs).(sfs_freemapdirty) = s.(sfs).(sfs_freemapdirty) →
  (∀ x, ¬ fblock s n * 512 ≤ x < fblock s n * 512 + 512 → sdisk s' x = sdisk s x) →
  file_ok s' ∧ becomes (λ x, if x / 512 =? n then sdisk s' (fblock s n * 512 + x mod 512) else fbyte s x) s s'.
Proof.
  intros [Fl Fi Fo Fj Fd] Hn Hb E1 E2 E3 E4 Hd.
  assert (∀ m, fblock s' m = fblock s m) as Hf.
  { intros m. apply fblock_ext; unfold indirect; rewrite ?E1; try done. intros Hi x Hx. apply Hd.
    pose proof (Fd n Hn Hb). unfold indirect in *. lia. }
  assert (∀ c, owns s' c ↔ owns s c) as Ho.
  { intros c. unfold owns, indirect. rewrite E1. by setoid_rewrite Hf. }
  split; split; unfold marked, nblocks, indirect in *; rewrite ?E1, ?E2, ?E3; try done.
  - intros c Hc%Ho. auto.
  - intros m1 m2. rewrite !Hf. auto.
  - intros m. rewrite !Hf. auto.
  - unfold same_meta. by rewrite E1, E3.
  - unfold dirty_kept. by rewrite E1, E2, E4.
  - intros c Hc%Ho. by left.
  - intros x Hx. destruct (Z.eqb_spec (x / 512) n) as [E|E].
    + unfold fbyte. rewrite Hf, E. by zdecide.
    + apply fbyte_ext; [done|]. intros Hne. apply Hd. destruct (Z.lt_ge_cases (x / 512) 143) as [Hx2|Hx2].
      * assert (fblock s (x / 512) ≠ fblock s n) by (intros Heq; apply E, Fj; (done || lia)). lia.
      * by rewrite fblock_high in Hne.
  - intros c x Hc Ho2 Hx. apply Hd. intros Hx2. apply Ho2. replace c with (fblock s n) by lia. by apply owns_fblock.
Qed.

(** How an I/O routine fails: past the largest file, or on a full disk. *)
Definition io_err (s : fstate) (r : Z) : Prop :=
  r = EFBIG ∧ 143 * 512 ≤ off s ∨ r = ENOSPC ∧ rw s = UIO_WRITE ∧ full s ∧ fblock s (off s / 512) = 0.

(** [len] bytes served, or an error with none. *)
Definition io_post (s : fstate) (len : Z) (r : Z) (s' : fstate) : Prop :=
  r = 0 ∧ io_step s len s' ∨ io_err s' r ∧ io_step s 0 s'.

Lemma bmap_io_err s n e s' :
  uio_ok s → n = off s / 512 → bmap_post s n (is_write (rw s)) (inl e) s' → io_err s' e ∧ io_step s 0 s'.
Proof.
  intros Hu Hn Hp. split; [|by eapply bmap_io_step]. pose proof Hp as [_ _ _ _ B5 _ B7].
  unfold io_err, off, rw in *. rewrite B5. destruct B7 as [[-> ?]|(-> & E & ? & ?)]; [left; split; [done|lia]|].
  right. split; [done|]. split; [by destruct (uio_rw (suio s))|]. by rewrite <- Hn.
Qed.

(** The buffer of [sfs_partialio] holds block [n] of the file. *)
Definition io_loaded (s : fstate) (n : Z) : Prop := ∀ i, 0 ≤ i < 512 → smem s (iobuf + i) = fbyte s (n * 512 + i).

Lemma fbyte_at s n i : 0 ≤ i < 512 → fbyte s (n * 512 + i) = if fblock s n =? 0 then 0 else sdisk s (fblock s n * 512 + i).
Proof.
  intros Hi. unfold fbyte. replace ((n * 512 + i) / 512) with n by lia. by replace ((n * 512 + i) mod 512) with i by lia.
Qed.

Lemma partialio_load_wp s n (write : bool) Q :
  fs_ok s → file_ok s → 0 ≤ n < 143 → (write = true → fblock s n ≠ 0) →
  (∀ m, io_loaded (set_smem m s) n → same_umem s (set_smem m s) → fs_ok (set_smem m s) → Q 0 (set_smem m s)) →
  wp (if fblock s n =? 0 then kassert (negb write);; bzero iobuf 512;; mret 0 else f_rblock true iobuf (fblock s n)) Q s.
Proof.
  intros Hs Hf Hn Hw HQ. destruct (Z.eqb_spec (fblock s n) 0) as [E|E].
  - apply wp_kassert; [destruct write; [by destruct Hw|done]|]. apply wp_modify, wp_ret.
    set (m := blit (smem s) iobuf (λ _, 0) 0 512).
    assert (∀ a, ¬ iobuf ≤ a < iobuf + 512 → m a = smem s a) as Hm.
    { intros a Ha. unfold m, blit. destruct (Z.leb_spec iobuf a), (Z.ltb_spec a (iobuf + 512)); simpl; (lia || done). }
    apply HQ.
    + intros i Hi. rewrite fbyte_at by done. change (fblock (set_smem m s) n) with (fblock s n). rewrite E.
      change (smem _ (iobuf + i)) with (m (iobuf + i)). unfold m, blit. by zdecide.
    + intros a Ha. apply Hm. revert Ha. unfold iobuf, kbufs_end. lia.
    + apply (fs_ok_ext s); try done. intros a Ha. apply Hm. revert Ha. unfold zeros, iobuf. lia.
  - destruct (fl_owns s Hf (fblock s n)) as (Hr & _ & _); [by apply owns_fblock|].
    apply f_rblock_wp; [done|lia|unfold is_buf, iobuf, lh_buf; lia|]. intros m H1 H2. apply HQ.
    + intros i Hi. rewrite fbyte_at by done. change (fblock (set_smem m s) n) with (fblock s n). zdecide. by apply H1.
    + intros a Ha. apply H2; revert Ha; unfold iobuf, lh_buf, kbufs_end; lia.
    + apply (fs_ok_ext s); try done. intros a Ha. apply H2; revert Ha; unfold zeros, lh_buf, iobuf; lia.
Qed.

Definition set_us (m : Z → Z) (v : uio) (s : fstate) : fstate := set_dev (set_du (Ust m v) (dev s)) s.

Lemma f_uiomove_wp s ptr n Q :
  uio_ok s → 0 ≤ n ≤ resid s → kbufs ≤ ptr → ptr + n ≤ kbufs_end →
  (∀ m' v', advanced (suio s) v' n → moved (rw s) (uaddrs s) ptr n (smem s) m' → Q 0 (set_us m' v' s)) →
  wp (f_uiomove ptr n) Q s.
Proof.
  intros [U1 U2 U3 U4 U5 U6 U7 U8] Hn H1 H2 HQ. apply wp_zoom, wp_zoom.
  destruct (uiomove_ret ucheck ptr n (dev s).(du)) as (m' & l' & E & A & Hm & I); try done.
  - apply U4.
  - change (n ≤ Z.of_nat (length (uaddrs s))). lia.
  - split; [done|]. intros a Ha Hr. apply (U7 a Ha). lia.
  - eapply wp_intro; [exact E|]. apply HQ; [|done]. by split.
Qed.

(** The transfer of a partial block that is in the buffer: reading ... *)
Lemma partial_read s n skip len m :
  uio_ok s → file_ok s → rw s = UIO_READ → 0 ≤ n < 143 → off s = n * 512 + skip → 0 ≤ skip → 0 ≤ len ≤ resid s → skip + len ≤ 512 →
  io_loaded (set_smem m s) n → same_umem s (set_smem m s) → fs_ok (set_smem m s) →
  wp (f_uiomove (iobuf + skip) len) (λ r s', r = 0 ∧ io_step s len s') (set_smem m s).
Proof.
  intros Hu Hf Hrw Hn Ho H0 Hl Hsk Hio Hum Hs. set (s1 := set_smem m s) in *.
  assert (uio_ok s1) as Hu1 by (destruct Hu; by split).
  apply f_uiomove_wp; try done; [unfold iobuf; lia|unfold iobuf, kbufs_end; lia|].
  intros m' v' Ha Hm. change (rw s1) with (rw s) in Hm. rewrite Hrw in Hm. destruct Hm as [M1 M2].
  assert (∀ a, kbufs ≤ a < kbufs_end → m' a = m a) as Hk.
  { intros a Hr. apply M2. intros i _ Hi. apply list_elem_of_lookup_2 in Hi. by apply (uo_sep s Hu) in Hi. }
  destruct (becomes_ext s (set_us m' v' s1)) as [Hf2 Hb2]; try done.
  split; [done|]. split; try done.
  - apply (fs_ok_ext s1); try done. intros a Hr. apply Hk. revert Hr. unfold zeros, kbufs_end. lia.
  - eapply becomes_proper; [|exact Hb2]. intros x _. unfold overwritten. by rewrite Hrw.
  - intros _ i a Hi Hl2. change (m' a = fbyte s (off s + Z.of_nat i)). rewrite (M1 i a) by done.
    rewrite <- Z.add_assoc, Hio by lia. change (fbyte s1 (n * 512 + (skip + Z.of_nat i))) with (fbyte s (n * 512 + (skip + Z.of_nat i))).
    f_equal. lia.
  - intros a Hr Hn2. change (m' a = smem s a). rewrite M2; [by apply Hum|]. by apply Hn2.
Qed.

(** ... and writing. *)
Lemma partial_write s n skip len m :
  uio_ok s → file_ok s → rw s = UIO_WRITE → 0 ≤ n < 143 → off s = n * 512 + skip → 0 ≤ skip → 0 ≤ len ≤ resid s → skip + len ≤ 512 →
  fblock s n ≠ 0 → io_loaded (set_smem m s) n → same_umem s (set_smem m s) → fs_ok (set_smem m s) →
  wp (result ← f_uiomove (iobuf + skip) len;
      if negb (result =? 0) then mret result else f_wblock true iobuf (fblock s n))
     (λ r s', r = 0 ∧ io_step s len s') (set_smem m s).
Proof.
  intros Hu Hf Hrw Hn Ho H0 Hl Hsk Hb Hio Hum Hs. set (s1 := set_smem m s) in *.
  assert (uio_ok s1) as Hu1 by (destruct Hu; by split).
  apply wp_bind. apply f_uiomove_wp; try done; [unfold iobuf; lia|unfold iobuf, kbufs_end; lia|].
  intros m2 v2 Ha Hm. change (rw s1) with (rw s) in Hm. rewrite Hrw in Hm. destruct Hm as [M1 M2]. cbn [Z.eqb negb].
  set (s2 := set_us m2 v2 s1). change (smem s1) with m in M1, M2.
  destruct (fl_owns s Hf (fblock s n)) as (Hr & _ & _); [by apply owns_fblock|].
  apply f_wblock_wp.
  { apply (fs_ok_ext s1); try done. intros a Hz. apply M2. revert Hz. unfold zeros, iobuf. lia. }
  { change (nblocks s2) with (nblocks s). lia. }
  { unfold is_buf, lh_buf, iobuf. lia. }
  intros m3 d3 D1 D2 D3. set (s3 := set_sdisk d3 (set_smem m3 s2)). change (smem s2) with m2 in D1, D2.
  destruct (write_block s s3 n) as [Hf3 Hb3]; try done.
  split; [done|]. split; try done.
  - apply (fs_ok_ext s1); try done. intros a Hz. change (smem s3 a) with (m3 a).
    rewrite D1 by (revert Hz; unfold zeros, lh_buf; lia). apply M2. revert Hz. unfold zeros, iobuf. lia.
  - eapply becomes_proper; [|exact Hb3]. intros x Hx. unfold overwritten. rewrite Hrw. cbn [is_write andb].
    change (sdisk s3) with d3. destruct (Z.eqb_spec (x / 512) n) as [E|E].
    2:{ destruct (Z.leb_spec (off s) x), (Z.ltb_spec x (off s + len)); cbn [andb]; try done. lia. }
    rewrite D2 by lia. destruct ((off s <=? x) && (x <? off s + len)) eqn:Ein.
    + destruct (uaddrs_is_Some s (x - off s) Hu) as (a & Hla & Hak); [lia|]. rewrite Hla.
      replace (iobuf + x mod 512) with (iobuf + skip + Z.of_nat (Z.to_nat (x - off s))) by lia.
      rewrite (M1 _ a) by (done || lia). by apply Hum.
    + rewrite M2 by lia. change (m (iobuf + x mod 512)) with (smem s1 (iobuf + x mod 512)). rewrite Hio by lia.
      change (fbyte s1 (n * 512 + x mod 512)) with (fbyte s (n * 512 + x mod 512)). f_equal. lia.
  - intros E. by rewrite E in Hrw.
  - intros a Hr2 _. change (m3 a = smem s a). rewrite D1 by (revert Hr2; unfold lh_buf, kbufs_end; lia).
    rewrite M2 by (revert Hr2; unfold iobuf, kbufs_end; lia). by apply Hum.
  - intros E. by rewrite E in Hrw.
Qed.

Lemma sfs_partialio_wp s skip len :
  uio_ok s → fs_ok s → file_ok s → off s < 512 * W32 → 0 ≤ len ≤ resid s → off s mod 512 = skip → skip + len ≤ 512 →
  wp (sfs_partialio true skip len) (io_post s len) s.
Proof.
  intros Hu Hs Hf Hw32 Hl Hsk Hle. unfold sfs_partialio, SFS_BLOCKSIZE. apply wp_get. cbv zeta.
  destruct (uo_off s Hu) as [Ho1 Ho2]. unfold W32 in *. fold (off s) (rw s).
  rewrite Z.quot_div_nonneg by lia. rewrite !u32_small by (unfold W32; lia).
  apply wp_kassert; [apply Z.leb_le; lia|]. set (n := off s / 512).
  apply wp_bind. eapply wp_mono; [|apply sfs_bmap_wp; [done..|unfold n; lia]]. intros [e|b] s1 Hp.
  { apply wp_ret. right. by eapply bmap_io_err. }
  pose proof (bmap_io_step _ _ _ _ Hu Hp) as H01. destruct Hp as [Hs1 Hf1 _ _ Eu _ (Hn & <- & Hw)].
  assert (uio_ok s1) as Hu1 by (eapply advanced_uio_ok; [done|apply H01|lia]).
  assert (off s1 = off s ∧ resid s1 = resid s ∧ rw s1 = rw s) as (Eo & Er & Ew) by (unfold off, resid, rw; by rewrite Eu).
  assert (0 ≤ n < 143) as Hn2 by (unfold n in *; lia).
  assert (∀ r s', r = 0 ∧ io_step s1 len s' → io_post s len r s') as Hend.
  { intros r s' [-> H1]. left. split; [done|]. change len with (0 + len). eapply io_step_trans; (done || lia). }
  apply wp_bind. apply partialio_load_wp; [done..|]. intros m Hm1 Hm2 Hm3. cbn [Z.eqb negb].
  destruct (is_write (rw s)) eqn:E.
  - eapply wp_mono; [exact Hend|]. apply (partial_write s1 n skip len m); try done; try lia.
    rewrite Ew. by destruct (rw s).
  - apply wp_bind. eapply wp_mono; [|apply (partial_read s1 n skip len m); try done; try lia].
    + intros r s' [-> H1]. apply wp_ret. auto.
    + rewrite Ew. by destruct (rw s).
Qed.

(** A whole block that is a hole reads as zeros. *)
Lemma hole_read s n :
  uio_ok s → fs_ok s → file_ok s → rw s = UIO_READ → off s = n * 512 → 512 ≤ resid s → fblock s n = 0 →
  wp (f_uiomovezeros SFS_BLOCKSIZE) (λ r s', r = 0 ∧ io_step s 512 s') s.
Proof.
  intros Hu Hs Hf Hrw Ho Hr Hb. pose proof Hu as [U1 U2 U3 U4 U5 U6 U7 U8]. apply wp_zoom, wp_zoom.
  unfold uiomovezeros. apply wp_get. fold (suio s). fold (rw s). rewrite Hrw. apply wp_kassert; [done|].
  destruct (uiomovezeros_loop_ret ucheck (Z.to_nat (SFS_BLOCKSIZE / 16) + 2) zeros SFS_BLOCKSIZE (dev s).(du))
    as (m' & l' & E & A & [M1 M2] & I); try done; try apply U4.
  - unfold SFS_BLOCKSIZE. change (512 ≤ Z.of_nat (length (uaddrs s))). lia.
  - split; [done|]. intros a Ha Hz. apply (U7 a Ha). revert Hz. unfold zeros, kbufs_end. lia.
  - intros a Ha. apply (fo_zeros s Hs). lia.
  - eapply wp_intro; [exact E|]. set (s' := set_dev _ s). change SFS_BLOCKSIZE with 512 in *.
    assert (∀ a, kbufs ≤ a < kbufs_end → m' a = smem s a) as Hk.
    { intros a Ha. apply M2. intros i _ Hi. apply list_elem_of_lookup_2 in Hi. by apply (U7 a) in Hi. }
    destruct (becomes_ext s s') as [Hf2 Hb2]; try done. split; [done|]. split; try done.
    + apply (fs_ok_ext s); try done. intros a Ha. apply Hk. revert Ha. unfold zeros, kbufs_end. lia.
    + eapply becomes_proper; [|exact Hb2]. intros x _. unfold overwritten. by rewrite Hrw.
    + intros _ i a Hi Ha. change (m' a = fbyte s (off s + Z.of_nat i)). rewrite (M1 i a) by done.
      rewrite Ho, fbyte_at, Hb by lia. done.
    + intros a Ha Hn. change (m' a = smem s a). apply M2. auto.
Qed.

(** The uio that [sfs_blockio] hands to the device, and what it makes of the
    result. *)
Definition block_uio (s : fstate) (b : Z) : fstate := set_suio (uio_at (b * 512) 512 (suio s)) s.
Definition block_done (s : fstate) (l : list iovec) : uio :=
  Uio l (off s + 512) (resid s - 512) (suio s).(uio_segflg) (rw s) (suio s).(uio_space).

Lemma block_sector s b : uio_ok s → fs_ok s → 512 ≤ resid s → 0 ≤ b < nblocks s → sector_uio (suio (block_uio s b)) b.
Proof.
  intros [U1 U2 U3 U4 U5 U6 U7 U8] Hs Hr Hb. destruct (blk_range s b Hs Hb) as [H1 H2]. split; try done.
  - change (512 ≤ Z.of_nat (length (uaddrs s))). lia.
  - split; [done|]. intros a Ha Hl. apply (U7 a Ha). revert Hl. unfold lh_buf, kbufs_end. lia.
Qed.

Lemma blockio_read s n :
  uio_ok s → fs_ok s → file_ok s → rw s = UIO_READ → 0 ≤ n < 143 → off s = n * 512 → 512 ≤ resid s → fblock s n ≠ 0 →
  ∃ m' l', on_dev (sfs_rwblock true) (block_uio s (fblock s n)) =
             Ret 0 (set_us m' (sector_done (suio (block_uio s (fblock s n))) l') s) ∧
           io_step s 512 (set_us m' (block_done s l') s).
Proof.
  intros Hu Hs Hf Hrw Hn Ho Hr Hb. destruct (fl_owns s Hf (fblock s n)) as (Hrg & _ & _); [by apply owns_fblock|].
  destruct (lhd_io_read (dev (block_uio s (fblock s n))) (fblock s n)) as (m' & l' & E & A & I & M1 & M2); try done.
  { apply (block_sector s); (done || lia). }
  { by apply (next_ok s). }
  exists m', l'. split.
  { unfold on_dev, zoom. erewrite sfs_rwblock_ok by exact E. unfold set_us, set_dev, set_du. simpl. by rewrite (fo_codes s Hs). }
  set (s' := set_us _ _ s). destruct (becomes_ext s s') as [Hf2 Hb2]; try done.
  change (addrs (uio_iov (u (du (dev (block_uio s (fblock s n))))))) with (uaddrs s) in *.
  split; try done.
  - apply (fs_ok_ext s); try done. intros a Ha. apply M2; [revert Ha; unfold zeros, lh_buf; lia|].
    intros i _ Hi. apply list_elem_of_lookup_2, (uo_sep s Hu) in Hi. apply Hi. revert Ha. unfold zeros, kbufs_end. lia.
  - eapply becomes_proper; [|exact Hb2]. intros x _. unfold overwritten. by rewrite Hrw.
  - intros _ i a Hi Ha. change (m' a = fbyte s (off s + Z.of_nat i)). rewrite (M1 i a) by (done || lia).
    rewrite Ho, fbyte_at by lia. by zdecide.
  - intros a Ha Hl. change (m' a = smem s a). apply M2; [revert Ha; unfold lh_buf, kbufs_end; lia|].
    intros i Hi. apply Hl; [done|lia].
Qed.

Lemma blockio_write s n :
  uio_ok s → fs_ok s → file_ok s → rw s = UIO_WRITE → 0 ≤ n < 143 → off s = n * 512 → 512 ≤ resid s → fblock s n ≠ 0 →
  ∃ m' d' l', on_dev (sfs_rwblock true) (block_uio s (fblock s n)) =
             Ret 0 (set_sdisk d' (set_us m' (sector_done (suio (block_uio s (fblock s n))) l') s)) ∧
           io_step s 512 (set_sdisk d' (set_us m' (block_done s l') s)).
Proof.
  intros Hu Hs Hf Hrw Hn Ho Hr Hb. destruct (fl_owns s Hf (fblock s n)) as (Hrg & _ & _); [by apply owns_fblock|].
  destruct (lhd_io_write (dev (block_uio s (fblock s n))) (fblock s n) 0) as (m' & l' & d' & E & A & I & M1 & M2 & M3); try done.
  { apply (block_sector s); (done || lia). }
  { by apply (next_ok s). }
  exists m', d', l'. split.
  { unfold on_dev, zoom. erewrite sfs_rwblock_ok by exact E. unfold set_us, set_sdisk, set_disk, set_dev, set_du. simpl.
    by rewrite (fo_codes s Hs). }
  change (addrs (uio_iov (u (du (dev (block_uio s (fblock s n))))))) with (uaddrs s) in *.
  set (s' := set_sdisk _ _). destruct (write_block s s' n) as [Hf2 Hb2]; try done.
  split; try done.
  - apply (fs_ok_ext s); try done. intros a Ha. apply M1. revert Ha. unfold zeros, lh_buf. lia.
  - eapply becomes_proper; [|exact Hb2]. intros x Hx. unfold overwritten. rewrite Hrw, Ho. cbn [is_write andb].
    destruct (Z.eqb_spec (x / 512) n) as [Ex|Ex].
    + zdecide. destruct (uaddrs_is_Some s (x - n * 512) Hu) as (a & Ha & _); [lia|]. rewrite Ha.
      change (default 0 (Some a)) with a. change (smem s a) with (mem (du (dev (block_uio s (fblock s n)))) a).
      change (sdisk s') with d'. rewrite <- (M2 (Z.to_nat (x - n * 512)) a) by (done || lia). f_equal. lia.
    + destruct (Z.leb_spec (n * 512) x), (Z.ltb_spec x (n * 512 + 512)); cbn [andb]; try done. lia.
  - intros E2. by rewrite E2 in Hrw.
  - intros a Ha _. apply M1. revert Ha. unfold lh_buf, kbufs_end. lia.
  - intros E2. by rewrite E2 in Hrw.
Qed.

Lemma sfs_blockio_wp s :
  uio_ok s → fs_ok s → file_ok s → 512 ≤ resid s → off s mod 512 = 0 → wp (sfs_blockio true) (io_post s 512) s.
Proof.
  intros Hu Hs Hf Hr Hm. unfold sfs_blockio. change SFS_BLOCKSIZE with 512. apply wp_get. cbv zeta.
  destruct (uo_off s Hu) as [Ho1 Ho2]. unfold W32 in Ho2. fold (off s) (rw s).
  rewrite Z.quot_div_nonneg by lia. rewrite u32_small by (unfold W32; lia). set (n := off s / 512).
  apply wp_bind. eapply wp_mono; [|apply sfs_bmap_wp; [done..|unfold n; lia]]. intros [e|b] s1 Hp.
  { apply wp_ret. right. by eapply bmap_io_err. }
  pose proof (bmap_io_step _ _ _ _ Hu Hp) as H01. destruct Hp as [Hs1 Hf1 _ _ Eu _ (Hn & <- & Hw)].
  assert (uio_ok s1) as Hu1 by (eapply advanced_uio_ok; [done|apply H01|lia]).
  assert (off s1 = n * 512 ∧ resid s1 = resid s ∧ rw s1 = rw s) as (Eo & Er & Ew).
  { unfold off, resid, rw. rewrite Eu. fold (off s). unfold n. split_and!; (done || lia). }
  assert (0 ≤ n < 143) as Hn2 by (unfold n in *; lia).
  assert (∀ r s', r = 0 ∧ io_step s1 512 s' → io_post s 512 r s') as Hend.
  { intros r s' [-> H1]. left. split; [done|]. change 512 with (0 + 512). eapply io_step_trans; (done || lia). }
  destruct (Z.eqb_spec (fblock s1 n) 0) as [E|E].
  - assert (rw s = UIO_READ) as Hrw by (destruct (rw s); [done|by destruct Hw]). rewrite Hrw. apply wp_kassert; [done|].
    eapply wp_mono; [exact Hend|]. apply (hole_read s1 n); try done; [by rewrite Ew|lia].
  - destruct (fl_owns s1 Hf1 (fblock s1 n)) as (Hrg & _ & _); [by apply owns_fblock|]. pose proof (fo_size s1 Hs1).
    apply wp_get. rewrite u32_small by lia. apply wp_kassert; [unfold resid in *; apply Z.geb_le; lia|].
    apply wp_modify. change (set_suio _ s1) with (block_uio s1 (fblock s1 n)).
    assert (∀ l, uio_at (fblock s1 n * 512 + 512 - fblock s1 n * 512 + off s1) (u32 (0 - 512 + resid s1))
              (sector_done (suio (block_uio s1 (fblock s1 n))) l) = block_done s1 l) as Ed.
    { intros l. pose proof (uo_resid s1 Hu1). unfold uio_at, block_done. rewrite u32_small by lia. simpl. f_equal; lia. }
    destruct (rw s1) eqn:Ev.
    + destruct (blockio_read s1 n) as (m' & l' & Er1 & Hst); try done; [lia|].
      eapply wp_run; [exact Er1|]. apply wp_modify, wp_ret. apply Hend. split; [done|].
      rewrite <- Ed in Hst. exact Hst.
    + destruct (blockio_write s1 n) as (m' & d' & l' & Er1 & Hst); try done; [lia|].
      eapply wp_run; [exact Er1|]. apply wp_modify, wp_ret. apply Hend. split; [done|].
      rewrite <- Ed in Hst. exact Hst.
Qed.

(** A region served up to an error, if there is one. *)
Definition io_done (s : fstate) (r : Z) (s' : fstate) : Prop :=
  ∃ k, 0 ≤ k ≤ resid s ∧ io_step s k s' ∧
       (r = 0 ∧ k = resid s ∨ io_err s' r ∧ k < resid s ∧ (k = 0 ∨ (off s + k) mod 512 = 0)).

Lemma io_step_refl s : uio_ok s → fs_ok s → file_ok s → io_step s 0 s.
Proof.
  intros Hu Hs Hf. split; try done; [apply advanced_refl, Hu| |intros; lia].
  eapply becomes_proper; [|apply becomes_refl]. intros x Hx. unfold overwritten. rewrite Z.add_0_r.
  destruct (Z.leb_spec (off s) x), (Z.ltb_spec x (off s)); rewrite ?andb_false_r; (lia || done).
Qed.

Lemma io_step_at s k s' :
  uio_ok s → 0 ≤ k ≤ resid s → io_step s k s' →
  uio_ok s' ∧ fs_ok s' ∧ file_ok s' ∧ off s' = off s + k ∧ resid s' = resid s - k.
Proof.
  intros Hu Hk [F G A _ _ _ _]. split; [by eapply advanced_uio_ok|]. split; [done|]. split; [done|].
  split; [exact (ad_off _ _ _ A)|exact (ad_resid _ _ _ A)].
Qed.

(** A part that serves [k] bytes, and then a part that serves [len] or fails. *)
Lemma io_post_done s k s1 len r s' :
  uio_ok s → 0 ≤ k → 0 < len → k + len = resid s → (off s + k) mod 512 = 0 →
  io_step s k s1 → io_post s1 len r s' → io_done s r s'.
Proof.
  intros Hu Hk Hl Hr Ha H1 [[-> H2]|[He H2]].
  - exists (k + len). split; [lia|]. split; [eapply io_step_trans; (done || lia)|by left].
  - exists (k + 0). split; [lia|]. split; [eapply io_step_trans; (done || lia)|]. right. rewrite Z.add_0_r. split; [done|lia].
Qed.

Lemma io_blocks_wp s :
  uio_ok s → fs_ok s → file_ok s → (resid s = 0 ∨ off s mod 512 = 0) → wp (io_blocks true) (io_done s) s.
Proof.
  intros Hu Hs Hf Ho. destruct (uo_off s Hu) as [Ho1 Ho2], (uo_resid s Hu) as [Hr1 Hr2]. unfold W32 in Ho2, Hr2.
  unfold io_blocks. apply wp_get. change SFS_BLOCKSIZE with 512. fold (resid s) (off s).
  destruct (Z.eqb_spec (resid s) 0) as [E|E].
  { apply wp_ret. exists 0. split; [lia|]. split; [by apply io_step_refl|left; lia]. }
  destruct Ho as [Ho|Ho]; [done|]. rewrite Z.rem_mod_nonneg, Ho by lia. apply wp_kassert; [done|].
  set (N := resid s / 512). assert (0 ≤ N ∧ 512 * N ≤ resid s < 512 * N + 512) as HN by (unfold N; lia). apply wp_bind.
  apply (wp_for_find (λ j s', io_step s (512 * j) s')).
  - change (512 * 0) with 0. by apply io_step_refl.
  - intros j s1 Hj H1. destruct (io_step_at s (512 * j) s1) as (Hu1 & Hs1 & Hf1 & Eo & Er); [done|lia|done|].
    apply wp_bind. eapply wp_mono; [|apply sfs_blockio_wp; (done || lia)]. intros r s2 [[-> H2]|[He H2]].
    + apply wp_ret. cbn [Z.eqb negb]. replace (512 * (j + 1)) with (512 * j + 512) by lia.
      eapply io_step_trans; (done || lia).
    + apply wp_ret. destruct (Z.eqb_spec r 0) as [-> |_]; [by destruct He as [[? _]|[? _]]|]. cbn [negb].
      apply wp_ret. exists (512 * j + 0). split; [lia|]. split; [eapply io_step_trans; (done || lia)|right; split; [done|lia]].
  - intros s1 H1. replace (512 * (0 + Z.of_nat (Z.to_nat N))) with (512 * N) in H1 by lia.
    destruct (io_step_at s (512 * N) s1) as (Hu1 & Hs1 & Hf1 & Eo & Er); [done|lia|done|].
    apply wp_gets. fold (resid s1). apply wp_kassert; [apply Z.ltb_lt; lia|].
    destruct (Z.gtb_spec (resid s1) 0).
    + eapply wp_mono; [|apply sfs_partialio_wp; try done; unfold W32; lia]. intros r s2 H2.
      eapply io_post_done; [done| | | | |exact H1|exact H2]; lia.
    + apply wp_ret. exists (512 * N). split; [lia|]. split; [done|]. left. lia.
Qed.

Lemma io_region_wp s :
  uio_ok s → fs_ok s → file_ok s → wp (io_region true) (λ r s', io_done s r s' ∨ resid s = 0 ∧ io_post s 0 r s') s.
Proof.
  intros Hu Hs Hf. destruct (uo_off s Hu) as [Ho1 Ho2], (uo_resid s Hu) as [Hr1 Hr2]. unfold W32 in Ho2, Hr2.
  unfold io_region. apply wp_get. change SFS_BLOCKSIZE with 512. fold (resid s) (off s).
  rewrite Z.rem_mod_nonneg, u32_small by (unfold W32; lia). cbv zeta.
  destruct (Z.eqb_spec (off s mod 512) 0) as [E|E]; cbn [negb].
  { apply wp_bind, wp_ret. cbn [Z.eqb negb]. eapply wp_mono; [|by apply io_blocks_wp; auto]. auto. }
  set (len := if 512 - off s mod 512 >? resid s then resid s else 512 - off s mod 512).
  assert (0 ≤ len ≤ resid s ∧ off s mod 512 + len ≤ 512 ∧ (len = resid s ∨ (off s + len) mod 512 = 0)) as (Hl & Hle & Hend).
  { unfold len. destruct (Z.gtb_spec (512 - off s mod 512) (resid s)); lia. }
  assert (resid s = 0 ∨ 0 < len) as Hpos.
  { unfold len. destruct (Z.gtb_spec (512 - off s mod 512) (resid s)); lia. }
  apply wp_bind. eapply wp_mono; [|apply sfs_partialio_wp; try done; unfold W32; lia].
  intros r s1 [[-> H1]|[He H1]].
  - cbn [Z.eqb negb]. destruct (io_step_at s len s1) as (Hu1 & Hs1 & Hf1 & Eo & Er); [done..|].
    eapply wp_mono; [|apply io_blocks_wp; [done..|rewrite Eo, Er; lia]].
    intros r s2 (k & Hk & H2 & Hr). left. exists (len + k). split; [lia|].
    split; [eapply io_step_trans; (done || lia)|].
    destruct Hr as [[-> ?]|(He & Hk2 & Hk3)]; [left; lia|]. right. split; [done|lia].
  - destruct (Z.eqb_spec r 0) as [-> |_]; [by destruct He as [[? _]|[? _]]|]. cbn [negb]. apply wp_ret.
    destruct Hpos; [right; split; [done|by right]|]. left. exists 0. split; [lia|]. split; [done|].
    right. split; [done|lia].
Qed.

(** The bounds of the request do not matter to what has been served. *)
Lemma io_step_resid s k s1 r1 r2 :
  uio_ok s → rw s = UIO_READ → io_step (set_suio (uio_at (off s) r1 (suio s)) s) k s1 → resid s1 + r2 = resid s - k →
  io_step s k (set_suio (uio_at (off s1) (resid s1 + r2) (suio s1)) s1).
Proof.
  intros Hu Hrw [F G [A1 A2 A3 A4 A5 A6 A7] B I O R] Hr. set (s' := set_suio _ s1).
  destruct (becomes_ext s1 s') as [Hf2 Hb2]; try done.
  split; try done.
  - by apply (fs_ok_ext s1).
  - by destruct B; split.
Qed.

(** Reading: the bytes up to the end of the file, in order, and nothing else
    changes. *)
Definition fsize (s : fstate) : Z := s.(sv).(sv_i).(sfi_size).
Definition readable (s : fstate) : Z := Z.max 0 (Z.min (resid s) (fsize s - off s)).

Lemma sfs_io_read_wp s :
  uio_ok s → fs_ok s → file_ok s → rw s = UIO_READ →
  wp (sfs_io true)
     (λ r s', ∃ k, 0 ≤ k ≤ readable s ∧ io_step s k s' ∧
        (r = 0 ∧ k = readable s ∨ r = EFBIG ∧ 143 * 512 ≤ off s + k < fsize s)) s.
Proof.
  intros Hu Hs Hf Hrw. destruct (uo_off s Hu) as [Ho1 Ho2], (uo_resid s Hu) as [Hr1 Hr2].
  unfold sfs_io. apply wp_get. cbv zeta. fold (resid s) (off s) (rw s) (fsize s). rewrite Hrw. cbn [is_write negb andb].
  destruct (Z.geb_spec (off s) (fsize s)) as [Hge|Hlt].
  { apply wp_ret. exists 0. unfold readable. split; [lia|]. split; [by apply io_step_refl|left; lia]. }
  set (x := if off s + resid s >? fsize s then off s + resid s - fsize s else 0).
  set (s0 := set_suio (uio_at (off s) (resid s - x) (suio s)) s).
  assert (0 ≤ x ∧ resid s - x = readable s ∧ (x = 0 ∨ x < resid s)) as (Hx0 & Hx & Hx2).
  { unfold x, readable. destruct (Z.gtb_spec (off s + resid s) (fsize s)); lia. }
  apply wp_bind. apply (wp_mono _ (λ e s1, e = x ∧ s1 = s0)).
  2:{ subst s0 x. destruct (Z.gtb_spec (off s + resid s) (fsize s)).
      - rewrite u32_small by lia. apply wp_kassert; [apply Z.gtb_lt; lia|]. by apply wp_modify, wp_ret.
      - apply wp_ret. split; [done|]. rewrite Z.sub_0_r. by destruct s as [[? ? [[? []] ? ?] ? ?] ?]. }
  intros e s1 [-> ->].
  assert (uio_ok s0) as Hu0.
  { destruct Hu as [U1 U2 U3 U4 U5 U6 U7 U8]. change (uaddrs s) with (uaddrs s0) in *. split; try done; change (resid s0) with (resid s - x); [lia..|].
    change (off s0) with (off s). lia. }
  assert (fs_ok s0) as Hs0 by (by apply (fs_ok_ext s)).
  assert (file_ok s0) as Hf0 by (by apply (becomes_ext s)).
  apply wp_bind. eapply wp_mono; [|by apply io_region_wp]. intros r s2 Hd.
  assert (∃ k, 0 ≤ k ≤ resid s0 ∧ io_step s0 k s2 ∧ (r = 0 ∧ k = resid s0 ∨ io_err s2 r ∧ (k < resid s0 ∨ resid s0 = 0))) as (k & Hk & Hst & Hr).
  { destruct Hd as [(k & ? & ? & Hr)|[Hz [[-> ?]|[He ?]]]].
    - exists k. split; [done|]. split; [done|]. destruct Hr as [?|(? & ? & ?)]; auto.
    - exists 0. split; [lia|]. split; [done|]. left. lia.
    - exists 0. split; [lia|]. split; [done|]. right. auto. }
  change (resid s0) with (resid s - x) in *.
  destruct (io_step_at s0 k s2) as (_ & _ & _ & Eo & Er); [done|done|done|]. change (off s0) with (off s) in Eo. change (resid s0) with (resid s - x) in Er.
  assert (rw s2 = UIO_READ) as Hrw2 by (transitivity (rw s0); [apply (ad_rw _ _ _ (is_uio _ _ _ Hst))|done]).
  apply wp_bind. unfold io_out. apply wp_get. fold (rw s2). rewrite Hrw2. cbn [is_write andb]. apply wp_bind, wp_ret, wp_modify', wp_ret.
  fold (off s2) (resid s2). rewrite u32_small by lia.
  exists k. split; [lia|]. split; [eapply io_step_resid; (done || lia)|].
  destruct Hr as [[-> ->]|[[[-> He]|(_ & Hw & _)] Hk2]]; [left; lia| |by rewrite Hrw2 in Hw].
  right. split; [done|]. rewrite Eo in He. unfold readable in *. lia.
Qed.

(** What an operation on one file leaves alone: the blocks in use that are not
    the file's. *)
Record frame (s s' : fstate) : Prop := {
  fr_sb : super s' = super s;
  fr_marks : ∀ b, marked s b → ¬ owns s b → marked s' b;
  fr_fresh : ∀ b, owns s' b → owns s b ∨ ¬ marked s b;
  fr_disk : ∀ b x, marked s b → ¬ owns s b → b * 512 ≤ x < b * 512 + 512 → sdisk s' x = sdisk s x;
}.

Lemma becomes_frame f s s' : becomes f s s' → frame s s'.
Proof. intros [B1 B2 B3 B4 B5 B6]. destruct B1 as (_ & _ & _ & _ & _ & Hsb). split; auto. Qed.

(** Another file, whose vnode is [t], on the same file system. *)
Definition beside (s : fstate) (t : sfs_vnode) : fstate := Fstate s.(sfs) t.
Definition apart (s : fstate) (t : sfs_vnode) : Prop :=
  file_ok (beside s t) ∧ ¬ owns s t.(sv_ino) ∧ ∀ b, owns (beside s t) b → ¬ owns s b.

(** It keeps its blocks and its bytes. *)
Lemma apart_kept s s' t :
  frame s s' → apart s t → apart s' t ∧ ∀ x, 0 ≤ x → fbyte (beside s' t) x = fbyte (beside s t) x.
Proof.
  intros [F1 F2 F3 F4] (Hf & Hi & Hd). pose proof Hf as [Fl Fi Fo Fj Fd].
  assert (∀ b, owns (beside s t) b → marked s b) as Hm by (intros b Hb; by apply (Fo b) in Hb as (_ & ? & _)).
  assert (∀ n, fblock (beside s' t) n = fblock (beside s t) n) as Hfb.
  { intros n. apply fblock_ext; try done. intros Hne x Hx. pose proof (owns_indirect _ Hne) as Ho.
    change (sdisk (beside s' t)) with (sdisk s'). change (sdisk (beside s t)) with (sdisk s). eauto. }
  assert (∀ b, owns (beside s' t) b ↔ owns (beside s t) b) as Ho.
  { intros b. unfold owns. change (indirect (beside s' t)) with (indirect (beside s t)). by setoid_rewrite Hfb. }
  split; [split; [|split]|].
  - split; try done.
    + apply F2; [exact Fi|done].
    + intros b Hb%Ho. destruct (Fo b Hb) as (H1 & H2 & H3). split; [|split; [apply F2; auto|done]].
      unfold nblocks in *. change (super (beside s' t)) with (super s'). by rewrite F1.
    + intros n m. rewrite !Hfb. apply Fj.
    + intros n. rewrite !Hfb. apply Fd.
  - intros [?|Hnm]%F3; [done|]. apply Hnm, Fi.
  - intros b Hb%Ho [?|Hnm]%F3; [by apply (Hd b)|]. apply Hnm. auto.
  - intros x Hx. apply fbyte_ext; [done|]. intros Hne. destruct (Z.lt_ge_cases (x / 512) 143) as [Hlt|Hge].
    2:{ by rewrite fblock_high in Hne. }
    pose proof (owns_fblock (beside s t) (x / 512) ltac:(lia) Hne) as Hox.
    apply (F4 (fblock (beside s t) (x / 512))); [auto..|lia].
Qed.

(** Writing: [k] bytes of the request are in the file. *)
Record wrote (s : fstate) (k : Z) (s' : fstate) : Prop := {
  wr_fs : fs_ok s';
  wr_file : file_ok s';
  wr_uio : advanced (suio s) (suio s') k;
  wr_bytes : ∀ x, 0 ≤ x → fbyte s' x = overwritten s k x;
  wr_size : fsize s' = if off s + k >? fsize s then u32 (off s + k) else fsize s;
  wr_inode : s'.(sv).(sv_i).(sfi_type) = s.(sv).(sv_i).(sfi_type) ∧
             s'.(sv).(sv_i).(sfi_linkcount) = s.(sv).(sv_i).(sfi_linkcount) ∧ s'.(sv).(sv_ino) = s.(sv).(sv_ino);
  wr_dirty : dirty_kept s s';
  wr_frame : frame s s';
  wr_marks : ∀ b, marked s b → marked s' b;
  wr_mem : same_umem s s';
}.

Lemma io_step_wrote s k s1 s2 :
  rw s = UIO_WRITE → io_step s k s1 →
  s2 = (if off s1 >? fsize s1 then dirty_inode (set_size (u32 (off s1))) s1 else s1) → wrote s k s2.
Proof.
  intros Hrw [F G A B _ O _] E2. pose proof B as [(M1 & M2 & M3 & M4 & M5 & M6) [D1 D2] _ _ B4 _].
  assert (sfs s2 = sfs s1) as Ef by (subst s2; by destruct (off s1 >? fsize s1)).
  assert (∀ n, fblock s2 n = fblock s1 n) as Hfb.
  { subst s2. destruct (off s1 >? fsize s1); [|done]. intros n. by apply fblock_ext. }
  assert (indirect s2 = indirect s1) as Ei by (subst s2; by destruct (off s1 >? fsize s1)).
  assert (∀ b, owns s2 b ↔ owns s1 b) as Ho by (intros b; unfold owns; rewrite Ei; by setoid_rewrite Hfb).
  assert (off s1 = off s + k) as Eo by apply A. assert (fsize s1 = fsize s) as Es by done.
  assert (sdisk s2 = sdisk s1 ∧ smem s2 = smem s1 ∧ fmap_of s2 = fmap_of s1 ∧ suio s2 = suio s1) as (E3 & E4 & E5 & E6).
  { unfold sdisk, smem, fmap_of, suio, dev. by rewrite Ef. }
  assert (super s2 = super s1) as E7 by (unfold super; by rewrite Ef).
  pose proof (becomes_frame _ _ _ B) as [R1 R2 R3 R4].
  split.
  - apply (fs_ok_ext s1); unfold dev; rewrite ?Ef, ?E4, ?E7; done.
  - destruct G as [Fl Fi Fo Fj Fd]. split; unfold marked, nblocks; rewrite ?Ei, ?E5, ?E7.
    + subst s2. by destruct (off s1 >? fsize s1).
    + subst s2. by destruct (off s1 >? fsize s1).
    + intros b Hb%Ho. subst s2. by destruct (off s1 >? fsize s1); apply Fo.
    + intros n m. rewrite !Hfb. apply Fj.
    + intros n. rewrite !Hfb. apply Fd.
  - by rewrite E6.
  - intros x Hx. rewrite <- (B4 x Hx). apply fbyte_ext; [done|]. by rewrite E3.
  - subst s2. rewrite Eo, Es. by destruct (off s + k >? fsize s).
  - subst s2. by destruct (off s1 >? fsize s1).
  - unfold dirty_kept. rewrite E5, Ef. split; [|done]. subst s2. by destruct (off s1 >? fsize s1).
  - split; unfold marked; rewrite ?E7, ?E3, ?E5; try done. intros b Hb%Ho. auto.
  - unfold marked. rewrite E5. apply B.
  - intros a Ha. rewrite E4. apply O; [done|]. by rewrite Hrw.
Qed.

Lemma sfs_io_write_wp s :
  uio_ok s → fs_ok s → file_ok s → rw s = UIO_WRITE →
  wp (sfs_io true)
     (λ r s', ∃ k, 0 ≤ k ≤ resid s ∧ wrote s k s' ∧
        (r = 0 ∧ k = resid s ∨
         (r = EFBIG ∧ 143 * 512 ≤ off s + k ∨ r = ENOSPC ∧ full s' ∧ fblock s' ((off s + k) / 512) = 0) ∧
         (k = 0 ∨ k < resid s ∧ (off s + k) mod 512 = 0))) s.
Proof.
  intros Hu Hs Hf Hrw. destruct (uo_resid s Hu) as [Hr1 Hr2].
  unfold sfs_io. apply wp_get. cbv zeta. fold (rw s). rewrite Hrw. cbn [is_write negb andb].
  apply wp_bind, wp_ret, wp_bind. eapply wp_mono; [|by apply io_region_wp]. intros r s1 Hd.
  assert (∃ k, 0 ≤ k ≤ resid s ∧ io_step s k s1 ∧ (r = 0 ∧ k = resid s ∨
    io_err s1 r ∧ (k = 0 ∨ k < resid s ∧ (off s + k) mod 512 = 0))) as (k & Hk & Hst & Hr).
  { destruct Hd as [(k & ? & ? & Hr)|[Hz [[-> ?]|[He ?]]]].
    - exists k. split; [done|]. split; [done|]. destruct Hr as [?|(? & ? & [?|?])]; auto.
    - exists 0. split; [lia|]. split; [done|]. left. lia.
    - exists 0. split; [lia|]. split; [done|]. auto. }
  destruct (io_step_at s k s1) as (_ & _ & _ & Eo & Er); [done|done|done|].
  assert (rw s1 = UIO_WRITE) as Hrw1 by (transitivity (rw s); [apply (ad_rw _ _ _ (is_uio _ _ _ Hst))|done]).
  set (s2 := if off s1 >? fsize s1 then dirty_inode (set_size (u32 (off s1))) s1 else s1).
  pose proof (io_step_wrote s k s1 s2 Hrw Hst eq_refl) as Hw.
  assert (suio s2 = suio s1) as Eu by (unfold s2; by destruct (off s1 >? fsize s1)).
  apply wp_bind. unfold io_out. apply wp_get. fold (rw s1) (off s1) (fsize s1). rewrite Hrw1. cbn [is_write andb].
  apply wp_bind, (wp_intro _ _ _ tt s2); [unfold s2; by destruct (off s1 >? fsize s1)|]. apply wp_modify', wp_ret.
  rewrite Eu. fold (off s1) (resid s1). rewrite Z.add_0_r, u32_small by lia.
  assert (set_suio (uio_at (off s1) (resid s1) (suio s1)) s2 = s2) as ->.
  { unfold off, resid. rewrite <- Eu. by destruct s2 as [[? ? [[? []] ? ?] ? ?] ?]. }
  exists k. split; [done|]. split; [done|]. destruct Hr as [?|[[[-> ?]|(-> & _ & Hfull & Hz)] ?]];
    [by left|right; split; [left; split; [done|lia]|done]|].
  right. split; [|done]. right. split; [done|]. rewrite <- Eo. unfold s2. by destruct (off s1 >? fsize s1).
Qed.

(** C10. Reading a file: from a consistent file on a working disk, [sfs_io]
    returns, serves the bytes of the file from the offset on, up to the length of
    the request or the end of the file, in order across the buffers, whether or
    not the region is aligned to blocks and whether or not its blocks exist
    (holes read as zeros); nothing else in memory outside the static buffers
    changes, and neither the disk, the free map nor the inode does.  [EFBIG] comes
    back only for a file whose recorded size exceeds the largest possible file,
    and only where the region reaches past it. *)
Theorem sfs_io_reads (s : fstate) :
  uio_ok s → fs_ok s → file_ok s → rw s = UIO_READ →
  ∃ r k s', sfs_io true s = Ret r s' ∧
    (r = 0 ∧ k = readable s ∨ r = EFBIG ∧ 0 ≤ k ∧ 143 * 512 ≤ off s + k < fsize s) ∧
    advanced (suio s) (suio s') k ∧
    (∀ (i : nat) a, Z.of_nat i < k → uaddrs s !! i = Some a → smem s' a = fbyte s (off s + Z.of_nat i)) ∧
    (∀ a, ¬ kbufs ≤ a < kbufs_end → (∀ i : nat, Z.of_nat i < k → uaddrs s !! i ≠ Some a) → smem s' a = smem s a) ∧
    unchanged s s'.
Proof.
  intros Hu Hs Hf Hrw. destruct (wp_inv _ _ _ (sfs_io_read_wp s Hu Hs Hf Hrw)) as (r & s' & E & k & Hk & [F G A B I O R] & Hr).
  exists r, k, s'. split; [done|]. split; [destruct Hr as [?|[? ?]]; [by left|right; split_and!; (done || lia)]|].
  split; [done|]. split; [by apply I|]. split; [|auto]. intros a Ha Hn. by apply O.
Qed.

(** C9. Writing a file: on a consistent file, a working disk and accessible buffers
    [sfs_io] returns, and for some number [k] of bytes of the request, all of them unless the file would become too large ([EFBIG]) or no
    free block is left ([ENOSPC]), the file afterwards holds those [k] bytes at the
    offset and is unchanged elsewhere, also where blocks were allocated; its size
    grows to the end of what was written; the user's memory is unchanged; and any
    other file on the file system keeps its blocks and its bytes. *)
Theorem sfs_io_writes (s : fstate) :
  uio_ok s → fs_ok s → file_ok s → rw s = UIO_WRITE →
  ∃ r k s', sfs_io true s = Ret r s' ∧ 0 ≤ k ≤ resid s ∧
    (r = 0 ∧ k = resid s ∨ r = EFBIG ∧ 143 * 512 ≤ off s + k ∨ r = ENOSPC ∧ full s') ∧
    advanced (suio s) (suio s') k ∧ fs_ok s' ∧ file_ok s' ∧ same_umem s s' ∧
    (∀ x, 0 ≤ x → fbyte s' x = if (off s <=? x) && (x <? off s + k)
                               then smem s (default 0 (uaddrs s !! Z.to_nat (x - off s))) else fbyte s x) ∧
    fsize s' = (if off s + k >? fsize s then u32 (off s + k) else fsize s) ∧
    (∀ t, apart s t → apart s' t ∧ ∀ x, 0 ≤ x → fbyte (beside s' t) x = fbyte (beside s t) x).
Proof.
  intros Hu Hs Hf Hrw. destruct (wp_inv _ _ _ (sfs_io_write_wp s Hu Hs Hf Hrw)) as (r & s' & E & k & Hk & Hw & Hr).
  exists r, k, s'. split; [done|]. split; [done|]. split; [destruct Hr as [?|[[?|(? & ? & _)] _]]; auto|]. destruct Hw as [W1 W2 W3 W4 W5 W6 W7 W8 W9 W10].
  split; [done|]. split; [done|]. split; [done|]. split; [done|]. split; [|split; [done|intros t; by apply apart_kept]].
  intros x Hx. rewrite (W4 x Hx). unfold overwritten. by rewrite Hrw.
Qed.

(** ** Checking a concrete file system *)

Definition file_okb (s : fstate) : bool :=
  bool_decide (length s.(sv).(sv_i).(sfi_direct) = 15%nat) && bit (fmap_of s) s.(sv).(sv_ino) &&
  forallb (λ b, (b =? 0) || (0 <? b) && (b <? nblocks s) && bit (fmap_of s) b && negb (b =? s.(sv).(sv_ino)))
    (indirect s :: (fblock s <$> seqZ 0 143)) &&
  forallb (λ n, (fblock s n =? 0) || negb (fblock s n =? indirect s) &&
    forallb (λ m, (n =? m) || negb (fblock s n =? fblock s m)) (seqZ 0 143)) (seqZ 0 143).

Lemma file_okb_sound s : file_okb s = true → file_ok s.
Proof.
  unfold file_okb. rewrite !andb_true_iff, !forallb_forall. intros [[[H1%bool_decide_eq_true H2] H3] H4].
  assert (∀ n, 0 ≤ n < 143 → fblock s n ≠ 0 → fblock s n ≠ indirect s ∧ ∀ m, 0 ≤ m < 143 → fblock s n = fblock s m → n = m) as H5.
  { intros n Hn Hb. specialize (H4 n ltac:(apply list_elem_of_In, elem_of_seqZ; lia)).
    rewrite (proj2 (Z.eqb_neq _ _) Hb), orb_false_l, andb_true_iff, negb_true_iff, Z.eqb_neq, forallb_forall in H4.
    destruct H4 as [H4 H5]. split; [done|]. intros m Hm E. specialize (H5 m ltac:(apply list_elem_of_In, elem_of_seqZ; lia)).
    rewrite E, Z.eqb_refl, orb_false_r in H5. by apply Z.eqb_eq. }
  split; try done.
  - intros b [Hb Ho].
    assert ((b =? 0) || (0 <? b) && (b <? nblocks s) && bit (fmap_of s) b && negb (b =? s.(sv).(sv_ino)) = true) as H6.
    { apply H3. destruct Ho as [-> |(n & Hn & <-)]; [by left|]. right. apply list_elem_of_In, list_elem_of_fmap.
      exists n. split; [done|]. apply elem_of_seqZ. lia. }
    rewrite (proj2 (Z.eqb_neq _ _) Hb), orb_false_l, !andb_true_iff, negb_true_iff, Z.eqb_neq, !Z.ltb_lt in H6. naive_solver.
  - intros n m Hn Hm E Hb. by apply (H5 n).
  - intros n Hn Hb. by apply H5.
Qed.
End steps.

(** A volume of 64 blocks with a file of 600 bytes in blocks 4 and 5, and a
    request in the kernel's memory for [len] bytes at offset [o]. *)
#[export] Instance small_mach : Mach := { ucheck := λ _ _, EFAULT; d_blocks := 64; kbufs := 0x80030000 }.
Definition small_map : bitmap := Bitmap 4096 (63 :: replicate 7 0 ++ replicate 504 255).
Definition small_file : sfs_vnode :=
  SfsVnode (SfsInode 600 SFS_TYPE_FILE 1 (4 :: 5 :: replicate 13 0) 0 (replicate 110 0)) 3 false.
Definition small_volume (o len : Z) (w : uio_rw_t) : fstate :=
  Fstate (SfsFs (SfsSuper SFS_MAGIC 64 (replicate 32 0) (replicate 118 0)) false
            (Dstate (Ust (λ a, if (0x1000 <=? a) && (a <? 0x2000) then a mod 256 else 0) (uio_kinit 0x1000 len o w))
               (λ x, x / 512) []) small_map false) small_file.

Lemma small_map_wf : bitmap_wf small_map.
Proof.
  split; [unfold W32; simpl; lia|]. split; [done|]. split.
  - intros ix w Hw. unfold zlookup in Hw. destruct (0 <=? ix); [|done]. apply list_elem_of_lookup_2 in Hw.
    revert w Hw. apply Forall_forall. apply (bool_decide_unpack _). vm_compute. exact I.
  - intros i Hi. exfalso. simpl in Hi. lia.
Qed.

Lemma small_volume_ok o len w : fs_ok (small_volume o len w).
Proof.
  split; try done.
  - apply small_map_wf.
  - intros b Hb. assert (Forall (λ b, bit small_map b = true) (seqZ 64 4032)) as H.
    { apply (bool_decide_unpack _). vm_compute. exact I. }
    rewrite Forall_forall in H. apply H, elem_of_seqZ. change (nbits _) with 4096 in Hb. change (nblocks _) with 64 in Hb. lia.
  - intros a Ha. unfold small_volume, smem. simpl. unfold zeros, kbufs, small_mach in Ha. by zdecide.
Qed.

Lemma small_volume_file o len w : file_ok (small_volume o len w).
Proof. apply file_okb_sound. by vm_compute. Qed.

Lemma small_volume_uio o len w : 0 ≤ o ≤ 10000 → 0 ≤ len ≤ 4096 → uio_ok (small_volume o len w).
Proof.
  intros Ho Hl. assert (uaddrs (small_volume o len w) = seqZ 0x1000 len) as E by apply app_nil_r.
  split; try (by left); rewrite ?E; unfold resid, off; simpl; unfold W32.
  - repeat constructor. simpl. lia.
  - lia.
  - rewrite length_seqZ. lia.
  - apply NoDup_seqZ.
  - intros a Ha%elem_of_seqZ. unfold kbufs, kbufs_end, small_mach. simpl. lia.
  - lia.
Qed.

Lemma sfs_io_reads_witness :
  ∃ s', sfs_io true (small_volume 500 700 UIO_READ) = Ret 0 s' ∧ resid s' = 600 ∧ smem s' 0x1000 = 4 ∧ smem s' 0x100c = 5.
Proof.
  destruct (sfs_io_reads (small_volume 500 700 UIO_READ)) as (r & k & s' & H & Hr & A & I & _).
  - apply small_volume_uio; lia.
  - apply small_volume_ok.
  - apply small_volume_file.
  - done.
  - destruct Hr as [[-> ->]|(_ & _ & Hr)]; [|change (fsize _) with 600 in Hr; lia]. exists s'. split; [exact H|].
    split; [exact (ad_resid _ _ _ A)|]. split; [exact (I 0%nat 0x1000 eq_refl eq_refl)|exact (I 12%nat 0x100c eq_refl eq_refl)].
Defined.

(** Writing 2000 bytes at offset 500 of it allocates three blocks. *)
Lemma sfs_io_writes_witness :
  ∃ s', sfs_io true (small_volume 500 2000 UIO_WRITE) = Ret 0 s' ∧ file_ok s' ∧ fsize s' = 2500 ∧
        fbyte s' 499 = 4 ∧ fbyte s' 2499 = 0x17cf mod 256.
Proof.
  assert (match sfs_io true (small_volume 500 2000 UIO_WRITE) with Ret r _ => r = 0 | _ => False end) as Hz by (by vm_compute).
  destruct (sfs_io_writes (small_volume 500 2000 UIO_WRITE)) as (r & k & s' & H & Hk & Hr & A & F & G & M & B & S & _).
  - apply small_volume_uio; lia.
  - apply small_volume_ok.
  - apply small_volume_file.
  - done.
  - rewrite H in Hz. subst r. destruct Hr as [[_ ->]|[[? _]|[? _]]]; [|done..].
    exists s'. split; [exact H|]. split; [done|]. split; [exact S|]. split; [by rewrite (B 499 ltac:(lia))|].
    by rewrite (B 2499 ltac:(lia)).
Defined.
