(* ===== verification/SfsTrunc.v ===== *)
(** What truncation does to a file of SFS ([sfs_truncate], sfs_vnode.c): blocks
    past the new end are released, the others keep their bytes. *)

From Stdlib Require Import ZArith Lia.
From stdpp Require Import base numbers list.
From S2P Require Import Prelude Bitmap Uio SfsDisk SfsFile SfsIo.

(** The blocks of the file that [P] selects have been dropped, and the indirect
    block perhaps with the last of them. *)
Record dropped {MC : Mach} (P : Z → bool) (s s' : fstate) : Prop := {
  dr_fs : fs_ok s';
  dr_len : length s'.(sv).(sv_i).(sfi_direct) = 15%nat;
  dr_block : ∀ n, 0 ≤ n < 143 → fblock s' n = if P n then 0 else fblock s n;
  dr_ind : indirect s' = indirect s ∨ indirect s' = 0;
  dr_marks : ∀ b, marked s' b ↔ marked s b ∧ ¬ (b ≠ 0 ∧
               ((∃ n, 0 ≤ n < 143 ∧ P n = true ∧ fblock s n = b) ∨ b = indirect s ∧ indirect s' = 0));
  dr_disk : ∀ x, ¬ (indirect s ≠ 0 ∧ indirect s * 512 ≤ x < indirect s * 512 + 512) → sdisk s' x = sdisk s x;
  dr_meta : same_meta s s';
  dr_dirty : dirty_kept s s';
  dr_mem : same_umem s s';
  dr_uio : suio s' = suio s;
}.

Section drop.
Context {MC : Mach}.
Implicit Types (s : fstate) (b : Z).

Lemma dropped_refl s : fs_ok s → file_ok s → dropped (λ _, false) s s.
Proof.
  intros Hs Hf. split; try done; [apply Hf|auto|]. intros b. split; [|by intros [? _]]. intros Hm. split; [done|].
  intros (Hb & [(n & _ & ? & _)|[-> ?]]); done.
Qed.

Lemma dropped_proper P P' s s' :
  (∀ n, 0 ≤ n < 143 → P n = P' n ∨ fblock s n = 0) → dropped P s s' → dropped P' s s'.
Proof.
  intros HP [D1 D2 D3 D4 D5 D6 D7 D8 D9 D10].
  assert (∀ n, 0 ≤ n < 143 → fblock s n ≠ 0 → P n = P' n) as HP' by (intros n Hn ?; by destruct (HP n Hn)).
  split; try done.
  - intros n Hn. rewrite D3 by done. destruct (HP n Hn) as [-> | ->]; [done|]. by destruct (P n), (P' n).
  - intros b. rewrite D5. split; (intros [Hm H]; split; [done|]; intros (Hz & [(n & Hn & HPn & E)|?]); apply H;
      (split; [done|]); [|by right]; left; exists n; rewrite HP' in * by (done || lia); done).
Qed.

(** The blocks that are left are the file's, and nobody else's have changed. *)
Lemma dropped_owns P s s' b : dropped P s s' → owns s' b → owns s b.
Proof.
  intros [_ _ D3 D4 _ _ _ _ _ _] [Hb [-> |(n & Hn & <-)]].
  - destruct D4 as [E|E]; [|done]. rewrite E in *. by apply owns_indirect.
  - rewrite D3 in * by done. destruct (P n); [done|]. by apply owns_fblock.
Qed.

Lemma dropped_kept P s s' b : file_ok s → dropped P s s' → owns s b → (owns s' b ↔ marked s' b).
Proof.
  intros [_ _ Fo Fj Fd] [_ _ D3 D4 D5 _ _ _ _ _] Ho. destruct (Fo b Ho) as (_ & Hm & _). pose proof Ho as [Hb Ho2]. split.
  - intros [_ Ho']. apply D5. split; [done|]. intros (_ & [(n & Hn & HP & E)|[-> E]]).
    + destruct Ho' as [E2|(m & Hm2 & E2)].
      * destruct D4 as [E3|E3]; [|lia]. apply (Fd n Hn); lia.
      * rewrite D3 in E2 by done. destruct (P m) eqn:EP; [lia|].
        assert (m = n) as -> by (apply Fj; (done || lia)). congruence.
    + destruct Ho' as [E2|(m & Hm2 & E2)]; [lia|]. rewrite D3 in E2 by done. destruct (P m); [lia|].
      apply (Fd m Hm2); lia.
  - intros [_ Hn]%D5. split; [done|]. destruct Ho2 as [-> |(n & Hn2 & <-)].
    + left. destruct D4 as [?|?]; [done|]. destruct Hn. auto.
    + right. exists n. split; [done|]. rewrite D3 by done. destruct (P n) eqn:E; [|done]. destruct Hn. split; [done|]. left. by exists n.
Qed.

Lemma dropped_file_ok P s s' : file_ok s → dropped P s s' → file_ok s'.
Proof.
  intros Hf Hd. pose proof Hf as [Fl Fi Fo Fj Fd]. pose proof Hd as [D1 D2 D3 D4 D5 D6 (_ & _ & _ & _ & Ei & Esb) D8 D9 D10].
  assert (∀ n, 0 ≤ n < 143 → fblock s' n ≠ 0 → fblock s' n = fblock s n ∧ fblock s n ≠ 0) as Hb.
  { intros n Hn. rewrite D3 by done. by destruct (P n). }
  split; try done.
  - rewrite Ei. apply D5. split; [done|]. intros (Hz & [(n & Hn & _ & E)|[E _]]).
    + destruct (Fo (fblock s n)) as (_ & _ & ?); [apply owns_fblock; [done|lia]|done].
    + destruct (Fo (indirect s)) as (_ & _ & ?); [apply owns_indirect; lia|lia].
  - intros b Hb2. pose proof (dropped_owns _ _ _ _ Hd Hb2) as Ho. unfold nblocks. rewrite Ei, Esb.
    destruct (Fo b Ho) as (? & _ & ?). split; [done|]. split; [by apply (dropped_kept _ _ _ _ Hf Hd Ho)|done].
  - intros n m Hn Hm E Hne. destruct (Hb n Hn Hne) as [E1 N1], (Hb m Hm ltac:(lia)) as [E2 N2]. apply Fj; (done || lia).
  - intros n Hn Hne. destruct (Hb n Hn Hne) as [E1 N1]. pose proof (Fd n Hn N1). destruct D4 as [-> | ->]; lia.
Qed.

Lemma dropped_frame P s s' : file_ok s → dropped P s s' → frame s s'.
Proof.
  intros Hf Hd. pose proof Hd as [D1 D2 D3 D4 D5 D6 (_ & _ & _ & _ & _ & Esb) D8 D9 D10]. split; [done|..].
  - intros b Hm Ho. apply D5. split; [done|]. intros (Hz & [(n & Hn & _ & <-)|[-> _]]); apply Ho; [by apply owns_fblock|by apply owns_indirect].
  - intros b Hb. left. by eapply dropped_owns.
  - intros b x Hm Ho Hx. apply D6. intros [Hi Hx2]. apply Ho. replace b with (indirect s) by lia. by apply owns_indirect.
Qed.

Lemma dropped_bytes P s s' x :
  file_ok s → dropped P s s' → 0 ≤ x < 143 * 512 → fbyte s' x = if P (x / 512) then 0 else fbyte s x.
Proof.
  intros [_ _ Fo _ Fd] [_ _ D3 _ _ D6 _ _ _ _] Hx. destruct (P (x / 512)) eqn:E.
  - unfold fbyte. by rewrite D3, E by lia.
  - apply fbyte_ext; [by rewrite D3, E by lia|]. intros Hne. apply D6. intros [Hi Hr].
    pose proof (Fd (x / 512) ltac:(lia) Hne). lia.
Qed.

Lemma dropped_trans P1 P2 s s1 s2 :
  dropped P1 s s1 → dropped P2 s1 s2 → indirect s1 = indirect s → dropped (λ n, P1 n || P2 n) s s2.
Proof.
  intros [D1 D2 D3 D4 D5 D6 D7 [D8 D8'] D9 D10] [E1 E2 E3 E4 E5 E6 E7 [E8 E8'] E9 E10] Ei. rewrite Ei in *. split; try done.
  - intros n Hn. rewrite E3, D3 by done. by destruct (P1 n), (P2 n).
  - intros b. rewrite E5, D5. split.
    + intros [[Hm H1] H2]. split; [done|]. intros (Hz & [(n & Hn & HP & E)|[-> E]]); [|naive_solver].
      destruct (P1 n) eqn:EP; [apply H1; split; [done|]; left; by exists n|]. apply H2. split; [done|]. left. exists n.
      by rewrite D3, EP.
    + intros [Hm H]. split; [split; [done|]|].
      * intros (Hz & [(n & Hn & HP & E)|[-> E]]); [|lia]. apply H. split; [done|]. left. exists n. by rewrite HP.
      * intros (Hz & [(n & Hn & HP & E)|[-> E]]); apply H; split; try done; [|by right]. left. exists n.
        rewrite D3 in E by done. destruct (P1 n); [lia|]. by rewrite HP.
  - intros x Hx. by rewrite E6, D6.
  - by eapply same_meta_trans.
  - split; intros E.
    + pose proof (E8 E) as E'. rewrite E' in E |- *. auto.
    + destruct (E8' E) as [-> ?]. auto.
  - by eapply same_umem_trans.
  - by rewrite E10.
Qed.

Lemma sfs_bfree_wp s b Q :
  fs_ok s → 0 < b < nblocks s → marked s b →
  (∀ fm, let s' := set_fmapdirty true (set_fmap fm s) in
         fs_ok s' → (∀ j, marked s' j ↔ marked s j ∧ j ≠ b) → Q tt s') →
  wp (sfs_bfree b) Q s.
Proof.
  intros Hs Hb Hm HQ. pose proof Hs as [H1 H2 H3 H4 H5 H6 H7 H8]. unfold sfs_bfree. apply wp_bind, wp_zoom.
  eapply wp_mono; [|apply bitmap_unmark_wp; [done|lia|exact Hm]]. intros [] fm (Hwf & Hnb & Hbits).
  apply wp_modify'.
  assert (∀ j, marked (set_fmapdirty true (set_fmap fm s)) j ↔ marked s j ∧ j ≠ b) as Hmk.
  { intros j. unfold marked at 1. change (fmap_of _) with fm. rewrite Hbits, andb_true_iff, negb_true_iff, Z.eqb_neq. done. }
  apply HQ; [|done]. split; try done.
  - change (fmap_of _) with fm. by rewrite Hnb.
  - intros j. change (fmap_of _) with fm. rewrite Hnb. intros Hj. apply Hmk. split; [by apply H5|].
    change (nblocks _) with (nblocks s) in Hj. lia.
  - apply Hmk. split; [done|lia].
Qed.

(** One direct block. *)
Lemma trunc_direct_wp s bl i :
  fs_ok s → file_ok s → 0 ≤ i < 15 →
  wp (trunc_direct bl i) (λ _ s', dropped (λ n, (n =? i) && (bl <=? n)) s s' ∧ indirect s' = indirect s) s.
Proof.
  intros Hs Hf Hi. pose proof Hf as [Fl Fi Fo Fj Fd]. unfold trunc_direct. apply wp_get.
  destruct (zlookup_is_Some s.(sv).(sv_i).(sfi_direct) i) as [b Hb]; [rewrite Fl; lia|].
  eapply wp_of_opt; [exact Hb|]. rewrite Z.geb_leb.
  assert (fblock s i = b) as Hfb by (unfold fblock; zdecide; by rewrite Hb).
  destruct ((bl <=? i) && negb (b =? 0)) eqn:E; cbn [when].
  2:{ apply wp_ret. split; [|done]. eapply dropped_proper; [|by apply dropped_refl]. intros n Hn. simpl.
      destruct (Z.eqb_spec n i) as [-> |]; [|by left]. simpl. destruct (bl <=? i); [|by left]. right.
      rewrite Hfb. destruct (Z.eqb_spec b 0); [done|]. by rewrite andb_true_l in E. }
  apply andb_true_iff in E as [E1%Z.leb_le E2%negb_true_iff%Z.eqb_neq]. rewrite <- Hfb in E2.
  pose proof (owns_fblock s i ltac:(lia) E2) as Ho. rewrite Hfb in Ho, E2. destruct (Fo b Ho) as (Hr & Hm & _).
  apply wp_bind, sfs_bfree_wp; [done..|]. intros fm s1 Hs1 Hmk. apply wp_get.
  change (sv s1) with (sv s). eapply wp_of_opt; [apply zupd_Some; rewrite Fl; lia|]. apply wp_modify'.
  set (s2 := dirty_inode _ s1). split; [|done]. split; try done; try (by left).
  - by apply (fs_ok_ext s1).
  - unfold s2. simpl. by rewrite length_insert.
  - intros n Hn. unfold fblock. change (sdisk s2) with (sdisk s).
    change (sv_i (sv s2)) with (set_direct (<[Z.to_nat i:=0]> s.(sv).(sv_i).(sfi_direct)) (sv_i (sv s))).
    cbn [set_direct sfi_direct sfi_indirect]. destruct (Z.ltb_spec n 15); [|by zdecide].
    rewrite zlookup_insert by (rewrite Fl; lia). rewrite Z.eqb_sym. destruct (Z.eqb_spec n i) as [-> |]; [by zdecide|done].
  - intros c. change (marked s2 c) with (marked s1 c). rewrite Hmk. change (indirect s2) with (indirect s). split.
    + intros [Hc Hcb]. split; [done|]. intros (Hz & [(n & Hn & HP & <-)|[-> ?]]); [|done].
      apply andb_true_iff in HP as [->%Z.eqb_eq _]. done.
    + intros [Hc H]. split; [done|]. intros ->. apply H. split; [done|]. left. exists i. split; [lia|]. split; [|done]. by zdecide.
Qed.

Lemma trunc_directs_wp s bl :
  fs_ok s → file_ok s →
  wp (for_up (Z.to_nat SFS_NDIRECT) 0 (trunc_direct bl))
     (λ _ s', dropped (λ n, (n <? 15) && (bl <=? n)) s s' ∧ indirect s' = indirect s) s.
Proof.
  intros Hs Hf.
  apply (wp_for_up (λ i s', dropped (λ n, (n <? i) && (bl <=? n)) s s' ∧ indirect s' = indirect s)).
  - split; [|done]. eapply dropped_proper; [|by apply dropped_refl]. intros n Hn. left. zbool.
  - intros i s1 Hi [H1 E1]. change (0 + Z.of_nat (Z.to_nat SFS_NDIRECT)) with 15 in Hi.
    eapply wp_mono; [|apply trunc_direct_wp; [apply H1|by eapply dropped_file_ok|lia]].
    intros _ s2 [H2 E2]. split; [|lia]. eapply dropped_proper; [|by eapply dropped_trans].
    intros n Hn. left. simpl. zbool.
  - done.
Qed.

(** The loop over the indirect block, before its entry [j]: the entries past the
    end are 0 in the buffer, their blocks free. *)
Record idloop (s : fstate) (bl j : Z) (h d : bool) (s' : fstate) : Prop := {
  il_fs : fs_ok s';
  il_sv : s'.(sv) = s.(sv);
  il_sb : super s' = super s;
  il_disk : sdisk s' = sdisk s;
  il_uio : suio s' = suio s;
  il_mem : same_umem s s';
  il_words : ∀ k, 0 ≤ k < 128 → word_at (smem s') (tidbuf + 4 * k) = if (k <? j) && (bl <? 15 + k) then 0 else fblock s (15 + k);
  il_marks : ∀ b, marked s' b ↔ marked s b ∧ ¬ (b ≠ 0 ∧ ∃ k, 0 ≤ k < j ∧ bl < 15 + k ∧ fblock s (15 + k) = b);
  il_has : h = true ↔ ∃ k, 0 ≤ k < j ∧ 15 + k ≤ bl ∧ fblock s (15 + k) ≠ 0;
  il_clean : d = false → ∀ k, 0 ≤ k < j → bl < 15 + k → fblock s (15 + k) = 0;
  il_map : s'.(sfs).(sfs_freemapdirty) = false → fmap_of s' = fmap_of s ∧ s.(sfs).(sfs_freemapdirty) = false;
}.

(** An entry that is kept, or that was 0 all along. *)
Lemma idloop_keep s bl j h d s' :
  idloop s bl j h d s' → 0 ≤ j < 128 → (bl < 15 + j → fblock s (15 + j) = 0) →
  idloop s bl (j + 1) (h || negb (fblock s (15 + j) =? 0)) d s'.
Proof.
  intros [I1 I2 I3 I4 I5 I6 I7 I8 I9 I10 I11] Hj Hz. split; try done.
  - intros k Hk. rewrite I7 by done. destruct (Z.ltb_spec k j), (Z.ltb_spec k (j + 1)), (Z.ltb_spec bl (15 + k)); simpl; try done; try lia.
    assert (k = j) as -> by lia. auto.
  - intros b. rewrite I8. split; intros [Hm H]; (split; [done|]); intros (Hb & k & Hk & H1 & H2); apply H; (split; [done|]).
    + exists k. destruct (decide (k = j)) as [-> |]; [rewrite Hz in H2 by done; lia|]. split; [lia|done].
    + exists k. split; [lia|done].
  - rewrite orb_true_iff, I9, negb_true_iff, Z.eqb_neq. split.
    + intros [(k & Hk & H1 & H2)|H]; [exists k; split; [lia|done]|]. exists j. split; [lia|]. split; [|done].
      destruct (Z.le_gt_cases (15 + j) bl); [done|]. by rewrite Hz in H by lia.
    + intros (k & Hk & H1 & H2). destruct (decide (k = j)) as [-> |]; [by right|]. left. exists k. split; [lia|done].
  - intros Hd k Hk Hl. destruct (decide (k = j)) as [-> |]; [auto|]. apply I10; (done || lia).
Qed.

(** An entry that is dropped. *)
Lemma idloop_drop s bl j h d s' fm :
  idloop s bl j h d s' → 0 ≤ j < 128 → bl < 15 + j → fblock s (15 + j) ≠ 0 →
  let s1 := set_fmapdirty true (set_fmap fm s') in
  let s2 := set_smem (word_put (smem s1) (tidbuf + 4 * j) 0) s1 in
  fs_ok s1 → (∀ b, marked s1 b ↔ marked s' b ∧ b ≠ fblock s (15 + j)) →
  idloop s bl (j + 1) h true s2.
Proof.
  intros [I1 I2 I3 I4 I5 I6 I7 I8 I9 I10 I11] Hj Hl Hne s1 s2 Hs1 Hmk. split; try done.
  - apply (fs_ok_ext s1); try done. intros a Ha. apply word_put_other. revert Ha. unfold zeros, tidbuf. lia.
  - intros a Ha. rewrite <- (I6 a Ha). apply word_put_other. revert Ha. unfold tidbuf, kbufs_end. lia.
  - intros k Hk. change (smem s2) with (word_put (smem s') (tidbuf + 4 * j) 0). destruct (decide (k = j)) as [-> |].
    + rewrite word_at_put by (unfold W32; lia). by zdecide.
    + rewrite (word_at_ext (smem s')), I7 by (intros; (by apply word_put_other; lia) || done).
      destruct (Z.ltb_spec k j), (Z.ltb_spec k (j + 1)); simpl; (done || lia).
  - intros b. change (marked s2 b) with (marked s1 b). rewrite Hmk, I8. split.
    + intros [[Hm H] Hb]. split; [done|]. intros (Hz & k & Hk & H1 & H2). destruct (decide (k = j)) as [-> |]; [done|].
      apply H. split; [done|]. exists k. split; [lia|done].
    + intros [Hm H]. split; [split; [done|]|].
      * intros (Hz & k & Hk & H1 & H2). apply H. split; [done|]. exists k. split; [lia|done].
      * intros ->. apply H. split; [done|]. exists j. split; [lia|done].
  - rewrite I9. split; intros (k & Hk & H1 & H2); exists k; (split; [|done]); lia.
Qed.

Lemma trunc_ids_wp s bl n : ∀ j h d s',
  file_ok s → indirect s ≠ 0 → idloop s bl j h d s' → 0 ≤ j → j + Z.of_nat n = 128 →
  wp (trunc_ids n bl j h d) (λ r s'', idloop s bl 128 r.1 r.2 s'') s'.
Proof.
  induction n as [|n IH]; intros j h d s' Hf Hi H Hj Hn.
  - assert (j = 128) as -> by lia. by apply wp_ret.
  - cbn [trunc_ids]. apply wp_gets. pose proof H as [I1 I2 I3 I4 I5 I6 I7 I8 I9 I10 I11].
    rewrite (I7 j) by lia. rewrite Z.ltb_irrefl. cbn [andb]. unfold SFS_NDIRECT.
    destruct ((bl <? 15 + j) && negb (fblock s (15 + j) =? 0)) eqn:E.
    + apply andb_true_iff in E as [E1%Z.ltb_lt E2%negb_true_iff%Z.eqb_neq].
      destruct (fl_owns s Hf _ (owns_fblock s (15 + j) ltac:(lia) E2)) as (Hr & Hm & _).
      apply wp_bind, wp_bind, sfs_bfree_wp; [done|unfold nblocks in *; by rewrite I3| |].
      { apply I8. split; [done|]. intros (_ & k & Hk & _ & Ek).
        assert (15 + k = 15 + j) by (apply (fl_inj s Hf); (done || lia)). lia. }
      intros fm s1 Hs1 Hmk. apply wp_modify, wp_ret. pose proof (idloop_drop s bl j h d s' fm H ltac:(lia) E1 E2 Hs1 Hmk) as H2. subst s1.
      apply wp_gets. rewrite (il_words _ _ _ _ _ _ H2 j) by lia. zdecide. rewrite orb_false_r. apply IH; (done || lia).
    + apply wp_bind, wp_ret, wp_gets. rewrite (I7 j) by lia. rewrite Z.ltb_irrefl. cbn [andb].
      apply IH; try done; try lia. apply idloop_keep; [done|lia|]. intros Hl. destruct (Z.eqb_spec (fblock s (15 + j)) 0); [done|].
      rewrite (proj2 (Z.ltb_lt _ _)) in E by lia. done.
Qed.

(** The entries of the indirect block past the end. *)
Definition past (bl n : Z) : bool := (15 <=? n) && (bl <? n).

(** The three ends of the loop: the indirect block goes too ... *)
Lemma idloop_free s bl d s1 :
  file_ok s → indirect s ≠ 0 → idloop s bl 128 false d s1 →
  wp (sfs_bfree (indirect s);; modify (dirty_inode (set_indirect 0));; mret 0)
     (λ r s', r = 0 ∧ dropped (past bl) s s' ∧ indirect s' = 0) s1.
Proof.
  intros Hf Hi [I1 I2 I3 I4 I5 I6 I7 I8 I9 I10 I11]. pose proof Hf as [Fl Fi Fo Fj Fd].
  destruct (Fo _ (owns_indirect s Hi)) as (Hr & Hm & _).
  assert (∀ k, 0 ≤ k < 128 → 15 + k ≤ bl → fblock s (15 + k) = 0) as Hz.
  { intros k Hk Hb. destruct (Z.eq_dec (fblock s (15 + k)) 0); [done|]. discriminate (proj2 I9). by exists k. }
  apply wp_bind, sfs_bfree_wp; [done|unfold nblocks in *; by rewrite I3| |].
  { apply I8. split; [done|]. intros (_ & k & Hk & _ & Ek). apply (Fd (15 + k)); lia. }
  intros fm s2 Hs2 Hmk. apply wp_modify, wp_ret. split; [done|]. set (s3 := dirty_inode _ s2). split; [|done]. split; try done; try (by right).
  - by apply (fs_ok_ext s2).
  - unfold s3, s2. simpl. by rewrite I2.
  - intros n Hn. unfold fblock at 1. change (sv_i (sv s3)) with (set_indirect 0 (sv_i (sv s1))). rewrite I2.
    unfold past. cbn [set_indirect sfi_direct sfi_indirect]. destruct (Z.ltb_spec n 15); [zdecide; unfold fblock; by zdecide|].
    zdecide. destruct (Z.ltb_spec bl n); [done|]. specialize (Hz (n - 15)). replace (15 + (n - 15)) with n in Hz by lia.
    rewrite Hz by lia. done.
  - intros b. change (marked s3 b) with (marked s2 b). rewrite Hmk, I8. change (indirect s3) with 0. unfold past. split.
    + intros [[Hb H1] H2]. split; [done|]. intros (H0 & [(n & Hn & HP & E)|[E _]]); [|done].
      apply H1. split; [done|]. apply andb_true_iff in HP as [HP1%Z.leb_le HP2%Z.ltb_lt]. exists (n - 15).
      replace (15 + (n - 15)) with n by lia. split; [lia|done].
    + intros [Hb H]. split; [split; [done|]|].
      * intros (H0 & k & Hk & H1 & H2). apply H. split; [done|]. left. exists (15 + k). split; [lia|]. split; [by zdecide|done].
      * intros ->. apply H. split; [done|]. by right.
  - intros x _. change (sdisk s3) with (sdisk s1). by rewrite I4.
  - unfold same_meta. change (super s3) with (super s1). rewrite I3. unfold s3, s2. simpl. by rewrite I2.
Qed.

(** ... the changed indirect block is written back ... *)
Lemma idloop_write s bl d s1 :
  file_ok s → indirect s ≠ 0 → idloop s bl 128 true d s1 →
  wp (f_wblock true tidbuf (indirect s)) (λ r s', r = 0 ∧ dropped (past bl) s s') s1.
Proof.
  intros Hf Hi [I1 I2 I3 I4 I5 I6 I7 I8 I9 I10 I11]. pose proof Hf as [Fl Fi Fo Fj Fd].
  destruct (Fo _ (owns_indirect s Hi)) as (Hr & Hm & _). assert (indirect s1 = indirect s) as Ei by (unfold indirect; by rewrite I2).
  apply f_wblock_wp; [done|unfold nblocks in *; rewrite I3; lia|unfold is_buf, lh_buf, tidbuf; lia|].
  intros m d' H1 H2 H3. split; [done|]. set (s2 := set_sdisk d' _). split; try done; try (by left).
  - apply (fs_ok_ext s1); try done. intros a Ha. apply H1. revert Ha. unfold zeros, lh_buf. lia.
  - unfold s2. simpl. by rewrite I2.
  - intros n Hn. unfold fblock at 1. change (sdisk s2) with d'. change (sv s2) with (sv s1). rewrite I2. fold (indirect s).
    unfold past. destruct (Z.ltb_spec n 15); [zdecide; unfold fblock; by zdecide|]. zdecide. cbn [andb].
    specialize (I7 (n - 15)). replace (15 + (n - 15)) with n in I7 by lia. rewrite (proj2 (Z.ltb_lt (n - 15) 128)) in I7 by lia.
    cbn [andb] in I7. rewrite <- I7 by lia. unfold word_at. by rewrite <- !Z.add_assoc, !H2 by lia.
  - intros b. change (marked s2 b) with (marked s1 b). rewrite I8. change (indirect s2) with (indirect s1). rewrite Ei. unfold past. split.
    + intros [Hb H4]. split; [done|]. intros (H0 & [(n & Hn & HP & E)|[E ?]]); [|done].
      apply H4. split; [done|]. apply andb_true_iff in HP as [HP1%Z.leb_le HP2%Z.ltb_lt]. exists (n - 15).
      replace (15 + (n - 15)) with n by lia. split; [lia|done].
    + intros [Hb H]. split; [done|]. intros (H0 & k & Hk & H4 & H5). apply H. split; [done|]. left. exists (15 + k).
      split; [lia|]. split; [by zdecide|done].
  - intros x Hx. change (sdisk s2 x) with (d' x). rewrite H3, I4; [done|]. intros ?. by apply Hx.
  - unfold same_meta. change (super s2) with (super s1). rewrite I3. unfold s2. simpl. by rewrite I2.
  - intros a Ha. change (smem s2 a) with (m a). rewrite H1 by (revert Ha; unfold lh_buf, kbufs_end; lia). by apply I6.
Qed.

(** ... or nothing was to be dropped. *)
Lemma idloop_same s bl s1 :
  file_ok s → indirect s ≠ 0 → idloop s bl 128 true false s1 → dropped (past bl) s s1.
Proof.
  intros Hf Hi [I1 I2 I3 I4 I5 I6 I7 I8 I9 I10 I11]. pose proof Hf as [Fl Fi Fo Fj Fd].
  assert (indirect s1 = indirect s) as Ei by (unfold indirect; by rewrite I2).
  assert (∀ n, 0 ≤ n < 143 → past bl n = true → fblock s n = 0) as Hz.
  { intros n Hn [HP1%Z.leb_le HP2%Z.ltb_lt]%andb_true_iff. specialize (I10 eq_refl (n - 15)).
    replace (15 + (n - 15)) with n in I10 by lia. apply I10; lia. }
  split; try done.
  - by rewrite I2.
  - intros n Hn. assert (fblock s1 n = fblock s n) as -> by (apply fblock_ext; [by rewrite I2|done|by rewrite I4]).
    destruct (past bl n) eqn:E; [by apply Hz|done].
  - by left.
  - intros b. rewrite I8, Ei. split; intros [Hb H]; (split; [done|]).
    + intros (H0 & [(n & Hn & HP & E)|[E ?]]); [|done]. rewrite (Hz n Hn HP) in E. done.
    + intros (H0 & k & Hk & H4 & H5). rewrite I10 in H5 by done. done.
  - intros x _. by rewrite I4.
  - unfold same_meta. by rewrite I2, I3.
Qed.

Lemma trunc_indirect_wp s bl :
  fs_ok s → file_ok s → indirect s ≠ 0 →
  wp (trunc_indirect true bl (indirect s)) (λ r s', r = 0 ∧ dropped (past bl) s s' ∧ (bl < 15 → indirect s' = 0)) s.
Proof.
  intros Hs Hf Hi. destruct (fl_owns s Hf _ (owns_indirect s Hi)) as (Hr & Hm & _). unfold trunc_indirect.
  apply wp_bind, f_rblock_wp; [done|lia|unfold is_buf, lh_buf, tidbuf; lia|]. intros m H1 H2. cbn [Z.eqb negb].
  set (s0 := set_smem m s).
  assert (idloop s bl 0 false false s0) as H0.
  { split; try done.
    - apply (fs_ok_ext s); try done. intros a Ha. apply H2; revert Ha; unfold zeros, lh_buf, tidbuf; lia.
    - intros a Ha. apply H2; revert Ha; unfold kbufs_end, lh_buf, tidbuf; lia.
    - intros k Hk. rewrite (proj2 (Z.ltb_ge k 0)) by lia. cbn [andb].
      change (fblock s (15 + k)) with (fblock s0 (15 + k)). by apply id_loaded_word.
    - intros b. split; [|by intros [? _]]. intros Hb. split; [done|]. intros (_ & k & ? & _). lia.
    - split; [done|]. intros (k & ? & _). lia.
    - intros _ k ?. lia. }
  apply wp_bind. eapply wp_mono; [|by apply (trunc_ids_wp s bl 128 0 false false s0)].
  intros [h d] s1 H3. simpl in H3. destruct h; cbn [negb].
  - destruct (proj1 (il_has _ _ _ _ _ _ H3) eq_refl) as (k & ? & ? & _).
    destruct d; [eapply wp_mono; [|by eapply idloop_write]; intros r s2 [-> ?]; split_and!; (done || lia)|].
    apply wp_ret. split; [done|]. split; [by apply idloop_same|lia].
  - eapply wp_mono; [|by eapply idloop_free]. naive_solver.
Qed.

(** The blocks of the file that truncation to [bl] blocks releases. *)
Definition freed (bl n : Z) : bool := if n <? 15 then bl <=? n else bl <? n.
Definition blocklen (len : Z) : Z := (len + 511) / 512.

Lemma truncate_held_wp s len :
  fs_ok s → file_ok s → 0 ≤ len < 512 * (W32 - 1) →
  wp (truncate_held true len)
     (λ r s', r = 0 ∧ ∃ s1, dropped (freed (blocklen len)) s s1 ∧ s' = dirty_inode (set_size (u32 len)) s1 ∧
                            (blocklen len < 15 → indirect s1 = 0)) s.
Proof.
  intros Hs Hf Hl. unfold truncate_held, SFS_BLOCKSIZE. unfold W32 in Hl.
  assert (u32 ((len + 512 - 1) ÷ 512) = blocklen len ∧ 0 ≤ blocklen len) as [-> Hbl].
  { rewrite Z.quot_div_nonneg by lia. unfold blocklen. rewrite u32_small by (unfold W32; lia). split; [f_equal; lia|lia]. }
  set (bl := blocklen len) in *. apply wp_bind. eapply wp_mono; [|by apply trunc_directs_wp]. intros _ s1 [H1 E1].
  pose proof (dropped_file_ok _ _ _ Hf H1) as Hf1. apply wp_get. fold (indirect s1). cbv zeta.
  change (SFS_NDIRECT + SFS_DBPERIDB - 1) with 142. apply wp_bind.
  apply (wp_mono _ (λ r s2, r = 0 ∧ dropped (freed bl) s s2 ∧ (bl < 15 → indirect s2 = 0))).
  { intros r s2 (-> & H2 & H3). cbn [Z.eqb negb]. apply wp_modify, wp_ret. split; [done|]. by exists s2. }
  destruct ((bl <? 142) && negb (indirect s1 =? 0)) eqn:E.
  - apply andb_true_iff in E as [_ Hi%negb_true_iff%Z.eqb_neq].
    eapply wp_mono; [|apply trunc_indirect_wp; [apply H1|done|done]]. intros r s2 (-> & H2 & H3). split; [done|]. split; [|done].
    eapply dropped_proper; [|by eapply dropped_trans]. intros n Hn. left. unfold freed, past. simpl. zbool.
  - apply wp_ret. split; [done|]. split.
    + eapply dropped_proper; [|exact H1]. intros n Hn. unfold freed. destruct (Z.ltb_spec n 15); [left; done|].
      cbn [andb]. destruct (Z.ltb_spec bl n); [|by left]. right. unfold fblock. fold (indirect s). rewrite <- E1.
      rewrite (proj2 (Z.ltb_lt bl 142)) in E by lia. cbn [andb] in E. rewrite E, andb_false_r. by zdecide.
    + intros Hb. rewrite (proj2 (Z.ltb_lt bl 142)) in E by lia. cbn [andb] in E. by apply negb_false_iff, Z.eqb_eq in E.
Qed.

(** Recording the size changes no block. *)
Lemma set_size_ok s n : let s' := dirty_inode (set_size n) s in
  (fs_ok s → fs_ok s') ∧ (file_ok s → file_ok s') ∧ (∀ m, fblock s' m = fblock s m) ∧
  (∀ b, owns s' b ↔ owns s b) ∧ (∀ x, fbyte s' x = fbyte s x).
Proof.
  intros s'. split; [intros H; by apply (fs_ok_ext s)|]. split; [|done].
  intros [Fl Fi Fo Fj Fd]. by split.
Qed.

(** C14. Truncation: from a consistent file on a working disk, [sfs_truncate]
    returns 0 and records the new size; the bytes before the new end are
    unchanged; blocks past the one at the end are gone from the file; every block
    the file lost is free and every block it kept is still marked; truncating to
    nothing leaves the file without blocks; memory outside the static buffers and
    every other file are unchanged. *)
Theorem sfs_truncate_spec (s : fstate) (len : Z) :
  fs_ok s → file_ok s → 0 ≤ len < 512 * (W32 - 1) →
  ∃ s', truncate_held true len s = Ret 0 s' ∧ fs_ok s' ∧ file_ok s' ∧ fsize s' = u32 len ∧
    (∀ x, 0 ≤ x < len → fbyte s' x = fbyte s x) ∧
    (∀ n, blocklen len < n → fblock s' n = 0) ∧ (len = 0 → ∀ b, ¬ owns s' b) ∧
    (∀ b, owns s' b → owns s b) ∧ (∀ b, owns s b → (owns s' b ↔ marked s' b)) ∧
    (∀ b, ¬ owns s b → (marked s' b ↔ marked s b)) ∧ same_umem s s' ∧
    (∀ t, apart s t → apart s' t ∧ ∀ x, 0 ≤ x → fbyte (beside s' t) x = fbyte (beside s t) x).
Proof.
  intros Hs Hf Hl. destruct (wp_inv _ _ _ (truncate_held_wp s len Hs Hf Hl)) as (r & s' & E & -> & s1 & Hd & -> & Hi).
  destruct (set_size_ok s1 (u32 len)) as (Q1 & Q2 & Q3 & Q4 & Q5). pose proof Hd as [D1 D2 D3 D4 D5 D6 D7 D8 D9 D10].
  pose proof (dropped_file_ok _ _ _ Hf Hd) as Hf1. set (s' := dirty_inode _ s1) in *.
  assert (∀ n, blocklen len < n → fblock s1 n = 0) as Hgone.
  { intros n Hn. destruct (Z.lt_ge_cases n 143); [|by apply fblock_high]. rewrite D3 by (unfold blocklen in *; lia). unfold freed.
    destruct (n <? 15); by zdecide. }
  exists s'. split; [done|]. split; [auto|]. split; [auto|]. split; [done|]. split.
  { intros x Hx. rewrite Q5. destruct (Z.lt_ge_cases x (143 * 512)).
    - rewrite (dropped_bytes _ _ _ x Hf Hd) by lia. unfold freed, blocklen. destruct (x / 512 <? 15); by zdecide.
    - unfold fbyte. by rewrite !fblock_high by lia. }
  split; [intros n Hn; rewrite Q3; auto|]. split; [|split; [|split; [|split; [|split; [done|]]]]].
  - intros -> b [Hb Ho]. change (blocklen 0) with 0 in *. destruct Ho as [-> |(n & Hn & <-)]; [apply Hb, Hi; lia|].
    rewrite Q3, D3 in Hb by done. unfold freed in Hb. destruct (Z.ltb_spec n 15); [|destruct (Z.ltb_spec 0 n); [done|lia]].
    by rewrite (proj2 (Z.leb_le 0 n)) in Hb by lia.
  - intros b Hb. exact (dropped_owns _ _ _ b Hd Hb).
  - intros b Hb. exact (dropped_kept _ _ _ b Hf Hd Hb).
  - intros b Hb. change (marked s' b) with (marked s1 b). rewrite D5. split; [by intros [? _]|]. intros Hm. split; [done|].
    intros (Hz & [(n & Hn & _ & <-)|[-> _]]); apply Hb; [by apply owns_fblock|by apply owns_indirect].
  - intros t. apply apart_kept. destruct (dropped_frame _ _ _ Hf Hd) as [F1 F2 F3 F4]. by split.
Qed.

(** Truncation past the direct blocks keeps one block too many: if the new
    size is a whole number [bl] of blocks, at least 15, then block [bl] of the
    file, the first one past the end, is not released; the bytes there survive
    and come back when the file grows again. *)
Theorem sfs_truncate_keeps_a_block (s : fstate) (bl : Z) :
  fs_ok s → file_ok s → 15 ≤ bl < 143 →
  ∃ s', truncate_held true (512 * bl) s = Ret 0 s' ∧ fsize s' = 512 * bl ∧ fblock s' bl = fblock s bl ∧
        (∀ x, 512 * bl ≤ x < 512 * bl + 512 → fbyte s' x = fbyte s x).
Proof.
  intros Hs Hf Hl. destruct (wp_inv _ _ _ (truncate_held_wp s (512 * bl) Hs Hf ltac:(unfold W32; lia))) as (r & s' & E & -> & s1 & Hd & -> & _).
  destruct (set_size_ok s1 (u32 (512 * bl))) as (_ & _ & Q3 & _ & Q5). set (s' := dirty_inode _ s1) in *.
  assert (freed (blocklen (512 * bl)) bl = false) as Hfr.
  { unfold freed, blocklen. replace ((512 * bl + 511) / 512) with bl by lia. by zdecide. }
  exists s'. split; [done|]. split; [apply u32_small; unfold W32; lia|]. split.
  - rewrite Q3, (dr_block _ _ _ Hd bl), Hfr by lia. done.
  - intros x Hx. rewrite Q5, (dropped_bytes _ _ _ x Hf Hd) by lia. replace (x / 512) with bl by lia. by rewrite Hfr.
Qed.
End drop.

(** A file of 16 blocks, the last one listed in the indirect block. *)
Definition long_map : bitmap := Bitmap 4096 (255 :: 255 :: 31 :: replicate 5 0 ++ replicate 504 255).
Definition long_file : sfs_vnode :=
  SfsVnode (SfsInode 8192 SFS_TYPE_FILE 1 (seqZ 4 15) 19 (replicate 110 0)) 3 false.
Definition long_volume : fstate :=
  Fstate (SfsFs (SfsSuper SFS_MAGIC 64 (replicate 32 0) (replicate 118 0)) false
            (Dstate (Ust (λ a, 0) (uio_kinit 0x1000 0 0 UIO_READ))
               (λ x, if x =? 19 * 512 + 3 then 20 else if x / 512 =? 19 then 0 else x / 512) []) long_map false) long_file.

Lemma long_volume_ok : fs_ok long_volume.
Proof.
  split; try done.
  - split; [unfold W32; simpl; lia|]. split; [done|]. split.
    + intros ix w Hw. unfold zlookup in Hw. destruct (0 <=? ix); [|done]. apply list_elem_of_lookup_2 in Hw.
      revert w Hw. apply Forall_forall. apply (bool_decide_unpack _). vm_compute. exact I.
    + intros i Hi. exfalso. simpl in Hi. lia.
  - intros b Hb. assert (Forall (λ b, bit long_map b = true) (seqZ 64 4032)) as H.
    { apply (bool_decide_unpack _). vm_compute. exact I. }
    rewrite Forall_forall in H. apply H, elem_of_seqZ. change (nbits _) with 4096 in Hb. change (nblocks _) with 64 in Hb. lia.
Qed.

Lemma long_volume_file : file_ok long_volume.
Proof. apply file_okb_sound. by vm_compute. Qed.

Lemma sfs_truncate_spec_witness :
  ∃ s', truncate_held true 700 long_volume = Ret 0 s' ∧ fsize s' = 700 ∧ fblock s' 2 = 0 ∧ fblock s' 15 = 0 ∧ fbyte s' 699 = 5.
Proof.
  destruct (sfs_truncate_spec long_volume 700) as (s' & H & _ & Hf & Hs & Hb & Hn & _ & _).
  - apply long_volume_ok.
  - apply long_volume_file.
  - unfold W32. lia.
  - exists s'. split; [exact H|]. split; [exact Hs|]. split; [|split; [by apply Hn|by rewrite Hb by lia]].
    assert (match truncate_held true 700 long_volume with Ret _ s' => fblock s' 2 = 0 | _ => False end) as Hc by (by vm_compute).
    by rewrite H in Hc.
Defined.

Lemma sfs_truncate_keeps_a_block_witness :
  ∃ s', truncate_held true 7680 long_volume = Ret 0 s' ∧ fsize s' = 7680 ∧ fblock s' 15 = 20 ∧ fbyte s' 7680 = 20.
Proof.
  destruct (sfs_truncate_keeps_a_block long_volume 15) as (s' & H & Hs & Hb & Hx).
  - apply long_volume_ok.
  - apply long_volume_file.
  - lia.
  - exists s'. split; [exact H|]. split; [exact Hs|]. split; [exact Hb|]. by rewrite Hx by lia.
Defined.
