(* ===== verification/SfsDir.v ===== *)
(** Directories of SFS (kern/fs/sfs/sfs_vnode.c): reading and writing the entry in
    a slot, looking a name up, entering and removing one.

    The vnode of the state is the directory.  A [struct sfs_dir] on the stack lies
    at [sdbuf]: a word, the inode number, and 60 bytes of name.  A name is its
    bytes without the final NUL. *)

From Stdlib Require Import ZArith Lia.
From stdpp Require Import base numbers list gmap.
From S2P Require Import Prelude Bitmap Uio SfsDisk SfsFile SfsIo.

(** The string at [a], of at most [n] bytes. *)
Fixpoint cstring (m : Z → Z) (a : Z) (n : nat) : list Z :=
  match n with
  | O => []
  | S n => if m a =? 0 then [] else m a :: cstring m (a + 1) n
  end.

Definition strcpy (m : Z → Z) (dst : Z) (src : list Z) : Z → Z := λ x,
  if (dst <=? x) && (x <? dst + Z.of_nat (length src)) then default 0 (src !! Z.to_nat (x - dst))
  else if x =? dst + Z.of_nat (length src) then 0 else m x.

Section dirs.
Context {MC : Mach} (held : bool).

(** A call with a uio of its own; the caller's is another object. *)
Definition f_with_uio {A} (v : uio) (m : M fstate A) : M fstate A :=
  s ← get;
  modify (set_suio v);;
  a ← m;
  modify (set_suio (suio s));;
  mret a.

(** [slot * sizeof(struct sfs_dir)] is an unsigned product. *)
Definition sfs_readdir (slot : Z) : M fstate Z :=
  f_with_uio (uio_kinit sdbuf 64 (u32 (slot * 64)) UIO_READ)
    (result ← sfs_io held;
     if negb (result =? 0) then mret result
     else resid ← resid_left; if resid >? 0 then panic else mret 0).

Definition sfs_writedir (slot : Z) : M fstate Z :=
  kassert (slot >=? 0);;
  f_with_uio (uio_kinit sdbuf 64 (u32 (slot * 64)) UIO_WRITE)
    (result ← sfs_io held;
     if negb (result =? 0) then mret result
     else resid ← resid_left; if resid >? 0 then panic else mret 0).

Definition sfs_dir_nentries : M fstate Z :=
  s ← get;
  kassert (s.(sv).(sv_i).(sfi_type) =? SFS_TYPE_DIR);;
  let size := s.(sv).(sv_i).(sfi_size) in
  if negb (size mod 64 =? 0) then panic else mret (size / 64).

(** What the search hands back: the slot and the inode number of the name, the
    last empty slot (-1 where there is none). *)
Record findname := Findname { fn_found : option (Z * Z); fn_empty : Z }.

(** One pass of the loop of [sfs_dir_findname]; [inl] leaves it with an error. *)
Definition find_slot (name : list Z) (acc : findname) (i : Z) : M fstate (Z + findname) :=
  result ← sfs_readdir i;
  if negb (result =? 0) then mret (inl result)
  else
    s ← get;
    let ino := word_at (smem s) sdbuf in
    if ino =? SFS_NOINO then mret (inr (Findname acc.(fn_found) i))
    else
      modify (λ s, set_smem (blit (smem s) (sdbuf + 4 + 59) (λ _, 0) 0 1) s);;
      s ← get;
      if bool_decide (cstring (smem s) (sdbuf + 4) 60 = name) then
        kassert (bool_decide (acc.(fn_found) = None));;
        mret (inr (Findname (Some (i, ino)) acc.(fn_empty)))
      else mret (inr acc).

Fixpoint find_loop (n : nat) (name : list Z) (acc : findname) (i : Z) : M fstate (Z * findname) :=
  match n with
  | O => mret (match acc.(fn_found) with Some _ => 0 | None => ENOENT end, acc)
  | S n =>
      r ← find_slot name acc i;
      match r with
      | inl e => mret (e, acc)
      | inr acc => find_loop n name acc (i + 1)
      end
  end.

(** The error code with the results. *)
Definition sfs_dir_findname (name : list Z) : M fstate (Z * findname) :=
  nentries ← sfs_dir_nentries;
  find_loop (Z.to_nat nentries) name (Findname None (-1)) 0.

(** An error code, or the slot of the new entry. *)
Definition sfs_dir_link (name : list Z) (ino : Z) : M fstate (Z + Z) :=
  r ← sfs_dir_findname name;
  let '(result, fn) := r : Z * findname in
  if negb (result =? 0) && negb (result =? ENOENT) then mret (inl result)
  else if result =? 0 then mret (inl EEXIST)
  else if Z.of_nat (length name) + 1 >? 60 then mret (inl ENAMETOOLONG)
  else
    emptyslot ← (if fn.(fn_empty) <? 0 then sfs_dir_nentries else mret fn.(fn_empty));
    bzero sdbuf 64;;
    modify (λ s, set_smem (strcpy (word_put (smem s) sdbuf ino) (sdbuf + 4) name) s);;
    result ← sfs_writedir emptyslot;
    if negb (result =? 0) then mret (inl result) else mret (inr emptyslot).

Definition sfs_dir_unlink (slot : Z) : M fstate Z :=
  bzero sdbuf 64;;
  modify (λ s, set_smem (word_put (smem s) sdbuf SFS_NOINO) s);;
  sfs_writedir slot.
End dirs.

(** ** Entries *)

Definition nslots (s : fstate) : Z := fsize s / 64.
Definition dino (s : fstate) (i : Z) : Z := word_at (fbyte s) (i * 64).
Definition dname (s : fstate) (i : Z) : list Z := cstring (fbyte s) (i * 64 + 4) 59.

(** Every name appears once. *)
Record dir_ok (s : fstate) : Prop := {
  do_type : s.(sv).(sv_i).(sfi_type) = SFS_TYPE_DIR;
  do_align : fsize s mod 64 = 0;
  do_size : 0 ≤ fsize s ≤ 143 * 512;
  do_names : ∀ i j, 0 ≤ i < nslots s → 0 ≤ j < nslots s → dino s i ≠ 0 → dino s j ≠ 0 → dname s i = dname s j → i = j;
}.

(** Memory but for the static buffers and the entry on the stack. *)
Definition same_dmem {MC : Mach} (s s' : fstate) : Prop := ∀ a, ¬ kbufs ≤ a < sdbuf + 64 → smem s' a = smem s a.

(** A directory has only been looked at. *)
Definition looked {MC : Mach} (s s' : fstate) : Prop :=
  fs_ok s' ∧ unchanged s s' ∧ suio s' = suio s ∧ same_dmem s s'.

Section slots.
Context {MC : Mach}.
Implicit Types s : fstate.

Lemma looked_refl s : fs_ok s → looked s s.
Proof. intros Hs. by split. Qed.

Lemma looked_trans s1 s2 s3 : looked s1 s2 → looked s2 s3 → looked s1 s3.
Proof.
  intros (H1 & U1 & E1 & M1) (H2 & U2 & E2 & M2). split; [done|]. split; [by eapply unchanged_trans|].
  split; [by rewrite E2|]. intros a Ha. by rewrite M2, M1.
Qed.

Lemma unchanged_becomes s s' : unchanged s s' → file_ok s → file_ok s' ∧ becomes (fbyte s) s s'.
Proof. intros (E1 & E2 & E3 & E4 & E5) Hf. by apply becomes_ext. Qed.

Lemma cstring_ext m m' a a' n : (∀ k, 0 ≤ k < Z.of_nat n → m' (a' + k) = m (a + k)) → cstring m' a' n = cstring m a n.
Proof.
  revert a a'. induction n as [|n IH]; intros a a' H; [done|]. simpl. pose proof (H 0 ltac:(lia)) as H0.
  rewrite !Z.add_0_r in H0. rewrite H0. destruct (m a =? 0); [done|]. f_equal. apply IH.
  intros k Hk. rewrite <- !Z.add_assoc. apply H. lia.
Qed.

(** A NUL after [n] bytes ends the string. *)
Lemma cstring_end m a n : m (a + Z.of_nat n) = 0 → cstring m a (n + 1) = cstring m a n.
Proof.
  revert a. induction n as [|n IH]; intros a H; simpl.
  - rewrite Z.add_0_r in H. by rewrite H.
  - destruct (m a =? 0); [done|]. f_equal. apply IH. rewrite <- H. f_equal. lia.
Qed.

(** A request for the entry at offset [o], one that lies in one block. *)
Definition sd_uio (s : fstate) (o : Z) (w : uio_rw_t) : fstate := set_suio (uio_kinit sdbuf 64 o w) s.

Lemma sd_uio_ok s o w : 0 ≤ o ≤ 143 * 512 → uio_ok (sd_uio s o w).
Proof.
  intros Ho. assert (uaddrs (sd_uio s o w) = seqZ sdbuf 64) as E by apply app_nil_r.
  split; try (by left); rewrite ?E; unfold resid, off; simpl; unfold W32; try lia.
  - repeat constructor. simpl. lia.
  - apply NoDup_seqZ.
  - intros a Ha%elem_of_seqZ. unfold sdbuf in Ha. lia.
Qed.

Lemma sd_lookup s o w k : 0 ≤ k < 64 → uaddrs (sd_uio s o w) !! Z.to_nat k = Some (sdbuf + k).
Proof.
  intros Hk. assert (uaddrs (sd_uio s o w) = seqZ sdbuf 64) as -> by apply app_nil_r.
  rewrite lookup_seqZ_lt by lia. f_equal. lia.
Qed.

Lemma sd_state s o w : fs_ok s → file_ok s → fs_ok (sd_uio s o w) ∧ file_ok (sd_uio s o w).
Proof. intros Hs Hf. split; [by apply (fs_ok_ext s)|by apply (becomes_ext s)]. Qed.

Lemma sfs_readdir_wp s i :
  fs_ok s → file_ok s → 0 ≤ fsize s ≤ 143 * 512 → fsize s mod 64 = 0 → 0 ≤ i < nslots s →
  wp (sfs_readdir true i)
     (λ r s', r = 0 ∧ looked s s' ∧ ∀ k, 0 ≤ k < 64 → smem s' (sdbuf + k) = fbyte s (i * 64 + k)) s.
Proof.
  intros Hs Hf Hsz Hal Hi. unfold nslots in Hi. unfold sfs_readdir. rewrite u32_small by (unfold W32; lia).
  apply wp_get, wp_modify. fold (sd_uio s (i * 64) UIO_READ). set (s0 := sd_uio s (i * 64) UIO_READ).
  destruct (sd_state s (i * 64) UIO_READ Hs Hf) as [Hs0 Hf0].
  apply wp_bind, wp_bind. eapply wp_mono; [|apply sfs_io_read_wp; [apply sd_uio_ok; lia|done..]].
  assert (readable s0 = 64) as Hrd.
  { unfold readable. change (fsize s0) with (fsize s). change (resid s0) with 64. change (off s0) with (i * 64). lia. }
  intros r s1 (k & Hk & [F G A B I O R] & Hr). change (fsize s0) with (fsize s) in *.
  destruct Hr as [[-> ->]|[_ Hr]]; [|lia]. rewrite Hrd in *. cbn [Z.eqb negb]. apply wp_gets. rewrite (ad_resid _ _ _ A).
  change (uio_resid (suio s0) - 64) with 0. cbn [Z.gtb Z.compare]. apply wp_ret, wp_modify, wp_ret.
  destruct (R eq_refl) as (R1 & R2 & R3 & R4 & R5).
  split; [done|]. split; [split; [|split; [|split; [done|]]]|].
  - by apply (fs_ok_ext s1).
  - done.
  - intros a Ha. apply O; [unfold sdbuf, kbufs_end in *; lia|]. intros _ j Hj Hl.
    unfold s0 in Hl. replace j with (Z.to_nat (Z.of_nat j)) in Hl by lia. rewrite sd_lookup in Hl by lia. simplify_eq. unfold sdbuf, kbufs_end in Ha. lia.
  - intros j Hj. change (smem _ (sdbuf + j)) with (smem s1 (sdbuf + j)).
    rewrite (I eq_refl (Z.to_nat j)) by (lia || by apply sd_lookup).
    change (off s0) with (i * 64). change (fbyte s0) with (fbyte s). f_equal. lia.
Qed.

(** ** Looking up *)

Definition matches (s : fstate) (name : list Z) (i : Z) : bool := negb (dino s i =? 0) && bool_decide (dname s i = name).

(** What the search knows before slot [i]. *)
Record found_upto (s : fstate) (name : list Z) (i : Z) (acc : findname) : Prop := {
  fu_found : match acc.(fn_found) with
             | Some (j, ino) => 0 ≤ j < i ∧ matches s name j = true ∧ ino = dino s j
             | None => ∀ j, 0 ≤ j < i → matches s name j = false
             end;
  fu_empty : if acc.(fn_empty) <? 0 then acc.(fn_empty) = -1 ∧ ∀ j, 0 ≤ j < i → dino s j ≠ 0
             else acc.(fn_empty) < i ∧ dino s acc.(fn_empty) = 0;
}.

Lemma dentry_ext s s' i : (∀ x, 0 ≤ x → fbyte s' x = fbyte s x) → 0 ≤ i → dino s' i = dino s i ∧ dname s' i = dname s i.
Proof.
  intros H Hi. split; [apply word_at_ext; intros; apply H; lia|]. apply cstring_ext. intros; apply H; lia.
Qed.

Lemma find_slot_wp s name acc i :
  fs_ok s → file_ok s → dir_ok s → 0 ≤ i < nslots s → found_upto s name i acc →
  wp (find_slot true name acc i)
     (λ r s', looked s s' ∧ match r with inl _ => False | inr acc' => found_upto s name (i + 1) acc' end) s.
Proof.
  intros Hs Hf [Dt Da Ds Dn] Hi [Ff Fe]. unfold find_slot. apply wp_bind.
  eapply wp_mono; [|by apply sfs_readdir_wp]. intros r s1 (-> & H1 & Hm). cbn [Z.eqb negb]. apply wp_get.
  assert (word_at (smem s1) sdbuf = dino s i) as ->.
  { unfold word_at, dino. rewrite <- (Z.add_0_r sdbuf) at 1. rewrite !Hm by lia. by rewrite Z.add_0_r. }
  unfold SFS_NOINO. destruct (Z.eqb_spec (dino s i) 0) as [E|E].
  { apply wp_ret. split; [done|]. split; simpl; [|zdecide; split; [lia|done]].
    assert (matches s name i = false) as Hmi by (unfold matches; by rewrite E).
    destruct (fn_found acc) as [[j ino]|]; [split; [lia|apply Ff]|]. intros j Hj.
    destruct (decide (j = i)) as [-> |]; [done|]. apply Ff. lia. }
  apply wp_modify, wp_get. set (s2 := set_smem _ s1).
  assert (cstring (smem s2) (sdbuf + 4) 60 = dname s i) as Hc.
  { change 60%nat with (59 + 1)%nat. rewrite cstring_end.
    - unfold dname. apply cstring_ext. intros k Hk. rewrite <- !Z.add_assoc, <- Hm by lia.
      unfold s2, smem. simpl. unfold blit. by zdecide.
    - unfold s2, smem. simpl. unfold blit. by zdecide. }
  rewrite Hc.
  assert (looked s s2) as H2.
  { eapply looked_trans; [exact H1|]. destruct H1 as (Hs1 & _). split; [|split; [done|split; [done|]]].
    - apply (fs_ok_ext s1); try done. intros a Ha. unfold s2, smem. simpl. unfold blit.
      unfold sdbuf, kbufs_end. unfold zeros in Ha. by zdecide.
    - intros a Ha. unfold s2, smem. simpl. unfold blit.
      destruct (Z.leb_spec (sdbuf + 4 + 59) a), (Z.ltb_spec a (sdbuf + 4 + 59 + 1)); try done.
      destruct Ha. unfold sdbuf, kbufs_end in *. lia. }
  assert (if acc.(fn_empty) <? 0 then acc.(fn_empty) = -1 ∧ ∀ j, 0 ≤ j < i + 1 → dino s j ≠ 0
          else acc.(fn_empty) < i + 1 ∧ dino s acc.(fn_empty) = 0) as Fe'.
  { destruct (fn_empty acc <? 0); [|destruct Fe; split; (done || lia)]. destruct Fe as [? Fe]. split; [done|].
    intros j Hj. destruct (decide (j = i)) as [-> |]; [done|apply Fe; lia]. }
  assert (matches s name i = bool_decide (dname s i = name)) as Hmi.
  { unfold matches. by rewrite (proj2 (Z.eqb_neq _ _) E). }
  case_bool_decide as En.
  - destruct (fn_found acc) as [[j ino]|] eqn:Eacc.
    + exfalso. destruct Ff as (Hj & Hmj & _). unfold matches in Hmj.
      apply andb_true_iff in Hmj as [Hd%negb_true_iff%Z.eqb_neq Hn%bool_decide_eq_true].
      assert (j = i); [|lia]. apply Dn; try done; [lia|congruence].
    + apply wp_kassert; [done|]. apply wp_ret. split; [done|]. split; simpl; [|done]. split; [lia|]. by rewrite Hmi.
  - apply wp_ret. split; [done|]. split; [|done]. destruct (fn_found acc) as [[j ino]|]; [split; [lia|apply Ff]|].
    intros j Hj. destruct (decide (j = i)) as [-> |]; [done|]. apply Ff. lia.
Qed.

Lemma unchanged_fbyte s s' : unchanged s s' → fbyte s' = fbyte s.
Proof. intros (E1 & E2 & E3 & _). unfold fbyte, fblock. by rewrite E1, E3. Qed.

Lemma looked_dir s s' name i acc :
  looked s s' → file_ok s → dir_ok s → found_upto s name i acc → file_ok s' ∧ dir_ok s' ∧ nslots s' = nslots s ∧ found_upto s' name i acc.
Proof.
  intros (_ & Hu & _) Hf [Dt Da Ds Dn] [Ff Fe]. pose proof (unchanged_fbyte s s' Hu) as Eb. pose proof Hu as (E1 & _).
  split; [by apply (unchanged_becomes s)|].
  assert (∀ j, dino s' j = dino s j ∧ dname s' j = dname s j) as Hd by (intros j; unfold dino, dname; by rewrite Eb).
  assert (fsize s' = fsize s) as Es by (unfold fsize; by rewrite E1).
  split; [split|split].
  - by rewrite E1.
  - by rewrite Es.
  - by rewrite Es.
  - intros j k. unfold nslots. rewrite Es. destruct (Hd j) as [-> ->], (Hd k) as [-> ->]. apply Dn.
  - unfold nslots. by rewrite Es.
  - split.
    + unfold matches, dino, dname in *. by rewrite Eb.
    + unfold dino in *. by rewrite Eb.
Qed.

Lemma find_loop_wp n : ∀ s name acc i,
  fs_ok s → file_ok s → dir_ok s → 0 ≤ i → i + Z.of_nat n = nslots s → found_upto s name i acc →
  wp (find_loop true n name acc i)
     (λ r s', looked s s' ∧ found_upto s name (nslots s) r.2 ∧ r.1 = match r.2.(fn_found) with Some _ => 0 | None => ENOENT end) s.
Proof.
  induction n as [|n IH]; intros s name acc i Hs Hf Hd Hi Hn Hu; cbn [find_loop].
  - apply wp_ret. split; [by apply looked_refl|]. by replace (nslots s) with i by lia.
  - apply wp_bind. eapply wp_mono; [|apply find_slot_wp; [done..|lia|done]]. intros [e|acc'] s1 [Hl H1]; [done|].
    destruct (looked_dir s s1 name (i + 1) acc' Hl Hf Hd H1) as (Hf1 & Hd1 & En & Hu1).
    eapply wp_mono; [|apply IH; [apply Hl|done..|lia|lia|done]]. intros r s2 (Hl2 & Hr & Er).
    split; [by eapply looked_trans|]. split; [|done]. rewrite En in Hr.
    destruct Hl as (_ & Hun & _). destruct Hr as [Ff Fe]. unfold matches, dino, dname in *.
    rewrite (unchanged_fbyte s s1 Hun) in *. by split; unfold matches, dino, dname.
Qed.

(** The search finds the one slot with the name, or says that there is none; and
    the last empty slot, if there is one. *)
Lemma sfs_dir_findname_wp s name :
  fs_ok s → file_ok s → dir_ok s →
  wp (sfs_dir_findname true name)
     (λ r s', looked s s' ∧ found_upto s name (nslots s) r.2 ∧ r.1 = match r.2.(fn_found) with Some _ => 0 | None => ENOENT end) s.
Proof.
  intros Hs Hf Hd. pose proof Hd as [Dt Da Ds Dn]. unfold sfs_dir_findname, sfs_dir_nentries. apply wp_bind, wp_get.
  apply wp_kassert; [by apply Z.eqb_eq|]. fold (fsize s). rewrite Da. cbn [Z.eqb negb]. apply wp_ret.
  apply find_loop_wp; try done; [unfold nslots; lia|]. split; simpl; [|split; [done|]]; intros; lia.
Qed.

(** ** Entering and removing *)

(** The entry in the buffer. *)
Definition sd_is (s : fstate) (ino : Z) (name : list Z) : Prop :=
  word_at (smem s) sdbuf = ino ∧ cstring (smem s) (sdbuf + 4) 59 = name.

(** A directory has been written to. *)
Record dir_step (s s' : fstate) : Prop := {
  ds_fs : fs_ok s';
  ds_file : file_ok s';
  ds_inode : s'.(sv).(sv_i).(sfi_type) = s.(sv).(sv_i).(sfi_type) ∧
             s'.(sv).(sv_i).(sfi_linkcount) = s.(sv).(sv_i).(sfi_linkcount) ∧ s'.(sv).(sv_ino) = s.(sv).(sv_ino);
  ds_dirty : dirty_kept s s';
  ds_frame : frame s s';
  ds_marks : ∀ b, marked s b → marked s' b;
  ds_uio : suio s' = suio s;
  ds_mem : same_dmem s s';
}.

(** Slot [i] has got the entry and the others are as they were; or the directory
    could not grow and is as it was. *)
Definition entered (s : fstate) (i ino : Z) (name : list Z) (s' : fstate) : Prop :=
  dir_step s s' ∧ fsize s' = Z.max (fsize s) (i * 64 + 64) ∧ dino s' i = ino ∧ dname s' i = name ∧
  ∀ j, 0 ≤ j → j ≠ i → dino s' j = dino s j ∧ dname s' j = dname s j.
Definition not_entered (s s' : fstate) : Prop :=
  dir_step s s' ∧ fsize s' = fsize s ∧ ∀ x, 0 ≤ x → fbyte s' x = fbyte s x.

Lemma wrote_dir_step s o k s1 :
  wrote (sd_uio s o UIO_WRITE) k s1 → dir_step s (set_suio (suio s) s1).
Proof.
  intros [W1 W2 W3 W4 W5 W6 W7 W8 W9 W10]. split; try done.
  - by apply (fs_ok_ext s1).
  - by apply (becomes_ext s1).
  - by destruct W8; split.
  - intros a Ha. apply W10. unfold sdbuf, kbufs_end in *. lia.
Qed.

Lemma sfs_writedir_wp s i ino name :
  fs_ok s → file_ok s → 0 ≤ i → i * 64 ≤ fsize s ≤ 143 * 512 → sd_is s ino name →
  wp (sfs_writedir true i)
     (λ r s', r = 0 ∧ entered s i ino name s' ∨ (r = EFBIG ∧ i * 64 = 143 * 512 ∨ r = ENOSPC ∧ full s' ∧ fblock s' (i * 64 / 512) = 0 ∧ dino s i = 0) ∧
        not_entered s s') s.
Proof.
  intros Hs Hf Hi Hsz [Hino Hname]. unfold sfs_writedir. rewrite u32_small by (unfold W32; lia).
  apply wp_kassert; [apply Z.geb_le; lia|]. apply wp_get, wp_modify.
  fold (sd_uio s (i * 64) UIO_WRITE). set (s0 := sd_uio s (i * 64) UIO_WRITE).
  destruct (sd_state s (i * 64) UIO_WRITE Hs Hf) as [Hs0 Hf0].
  apply wp_bind, wp_bind. eapply wp_mono; [|apply sfs_io_write_wp; [apply sd_uio_ok; lia|done..]].
  intros r s1 (k & Hk & Hw & Hr). pose proof (wrote_dir_step s (i * 64) k s1 Hw) as Hst.
  change (resid s0) with 64 in *. change (off s0) with (i * 64) in *. destruct Hw as [W1 W2 W3 W4 W5 W6 W7 W8 W9 W10].
  change (off s0) with (i * 64) in W5. change (fsize s0) with (fsize s) in W5.
  assert (∀ x, 0 ≤ x → fbyte s1 x = if (i * 64 <=? x) && (x <? i * 64 + k) then smem s (sdbuf + (x - i * 64)) else fbyte s x) as Hb.
  { intros x Hx. rewrite (W4 x Hx). unfold overwritten. change (is_write (rw s0)) with true. change (off s0) with (i * 64). cbn [andb].
    destruct ((i * 64 <=? x) && (x <? i * 64 + k)) eqn:E; [|done]. unfold s0. rewrite sd_lookup by lia. done. }
  destruct Hr as [[-> ->]|[He Hk0]].
  - cbn [Z.eqb negb]. apply wp_gets. rewrite (ad_resid _ _ _ W3). change (uio_resid (suio s0) - 64) with 0. cbn [Z.gtb Z.compare].
    apply wp_ret, wp_modify, wp_ret. left. split; [done|]. split; [done|].
    change (fsize (set_suio (suio s) s1)) with (fsize s1). unfold dino, dname. change (fbyte (set_suio (suio s) s1)) with (fbyte s1).
    split; [|split; [|split]].
    + rewrite W5, u32_small by (unfold W32; lia). destruct (Z.gtb_spec (i * 64 + 64) (fsize s)); lia.
    + rewrite <- Hino. unfold word_at. rewrite !Hb by lia. zdecide. by rewrite Z.sub_diag, Z.add_0_r, !Z.add_simpl_l.
    + rewrite <- Hname. apply cstring_ext. intros j Hj. rewrite Hb by lia. zdecide. f_equal. lia.
    + intros j Hj Hne. split; [apply word_at_ext|apply cstring_ext]; intros x Hx; rewrite Hb by lia; destruct (Z.lt_ge_cases j i); by zdecide.
  - assert (k = 0) as -> by lia. destruct (Z.eqb_spec r 0) as [-> |_]; [by destruct He as [[? _]|[? _]]|]. cbn [negb].
    apply wp_ret, wp_modify, wp_ret. right. split.
    { destruct He as [[-> ?]|(-> & ? & Hz)]; [left; split; [done|lia]|right]. split; [done|]. split; [done|].
      split; [by rewrite Z.add_0_r in Hz|].
      assert (∀ x, i * 64 ≤ x < i * 64 + 4 → fbyte s x = 0) as Hx.
      { intros x Hx. specialize (Hb x ltac:(lia)). destruct (Z.ltb_spec x (i * 64 + 0)); [lia|]. rewrite andb_false_r in Hb.
        rewrite <- Hb. unfold fbyte. replace (x / 512) with ((i * 64 + 0) / 512) by lia. by rewrite Hz. }
      unfold dino, word_at. by rewrite !Hx by lia. }
    split; [done|]. split.
    + change (fsize (set_suio (suio s) s1)) with (fsize s1). rewrite W5. by zdecide.
    + intros x Hx. change (fbyte (set_suio (suio s) s1) x) with (fbyte s1 x). rewrite Hb by done.
      destruct (Z.leb_spec (i * 64) x), (Z.ltb_spec x (i * 64 + 0)); try done. lia.
Qed.

(** ** The directory as a map from names to inode numbers *)

Definition dir_map (s : fstate) : gmap (list Z) Z :=
  list_to_map ((λ i, (dname s i, dino s i)) <$> filter (λ i, dino s i ≠ 0) (seqZ 0 (nslots s))).

Lemma dir_map_Some s name ino :
  dir_ok s → dir_map s !! name = Some ino ↔ ∃ i, 0 ≤ i < nslots s ∧ dino s i = ino ∧ ino ≠ 0 ∧ dname s i = name.
Proof.
  intros [Dt Da Ds Dn]. unfold dir_map. rewrite <- elem_of_list_to_map.
  - rewrite list_elem_of_fmap. setoid_rewrite list_elem_of_filter. setoid_rewrite elem_of_seqZ. split.
    + intros (i & E & Hi & Hr). simplify_eq. exists i. split_and!; (done || lia).
    + intros (i & Hi & <- & Hne & <-). exists i. split; [done|]. split; [done|lia].
  - rewrite <- list_fmap_compose. apply NoDup_fmap_2_strong; [|apply NoDup_filter, NoDup_seqZ].
    intros i j [Hi Hi2%elem_of_seqZ]%list_elem_of_filter [Hj Hj2%elem_of_seqZ]%list_elem_of_filter E. simpl in E. apply Dn; (done || lia).
Qed.

Lemma dir_map_None s name :
  dir_ok s → (∀ j, 0 ≤ j < nslots s → matches s name j = false) → dir_map s !! name = None.
Proof.
  intros Hd H. destruct (dir_map s !! name) as [ino|] eqn:E; [|done]. apply dir_map_Some in E as (i & Hi & E1 & E2 & E3); [|done].
  specialize (H i Hi). unfold matches in H. rewrite bool_decide_true, andb_true_r, negb_false_iff, Z.eqb_eq in H by done. congruence.
Qed.

Lemma dir_map_ext s s' : fsize s' = fsize s → (∀ x, 0 ≤ x → fbyte s' x = fbyte s x) → s'.(sv).(sv_i).(sfi_type) = s.(sv).(sv_i).(sfi_type) →
  dir_ok s → dir_ok s' ∧ dir_map s' = dir_map s.
Proof.
  intros Es Hb Et [Dt Da Ds Dn].
  assert (∀ i, 0 ≤ i → dino s' i = dino s i ∧ dname s' i = dname s i) as He by (intros i Hi; by apply dentry_ext).
  assert (nslots s' = nslots s) as En by (unfold nslots; by rewrite Es).
  assert (dir_ok s') as Hd'.
  { split; rewrite ?Es, ?Et; try done. intros i j Hi Hj. rewrite En in Hi, Hj.
    destruct (He i ltac:(lia)) as [-> ->], (He j ltac:(lia)) as [-> ->]. by apply Dn. }
  split; [done|]. apply map_eq. intros name. apply option_eq. intros ino. rewrite !dir_map_Some by done. rewrite En.
  split; intros (i & Hi & E); exists i; (split; [done|]); by destruct (He i ltac:(lia)) as [E1 E2]; rewrite E1, E2 in *.
Qed.

(** What an entry written to a slot does to the map. *)
Lemma entered_dir s i ino name s' :
  dir_ok s → entered s i ino name s' → 0 ≤ i → i * 64 + 64 ≤ Z.max (fsize s) (143 * 512) → i * 64 ≤ fsize s →
  (ino ≠ 0 → ∀ j, 0 ≤ j < nslots s → j ≠ i → dino s j ≠ 0 → dname s j ≠ name) → dir_ok s' ∧
  ∀ n x, dir_map s' !! n = Some x ↔
    (n = name ∧ x = ino ∧ ino ≠ 0) ∨ ∃ j, 0 ≤ j < nslots s ∧ j ≠ i ∧ dino s j = x ∧ x ≠ 0 ∧ dname s j = n.
Proof.
  intros [Dt Da Ds Dn] (Hst & Es & E1 & E2 & He) Hi Hsz Hal Hfresh. destruct (ds_inode _ _ Hst) as (Et & _).
  assert (nslots s' = Z.max (nslots s) (i + 1)) as En by (unfold nslots; rewrite Es; lia).
  assert (∀ j, 0 ≤ j < nslots s' → j ≠ i → 0 ≤ j < nslots s) as Hin by (unfold nslots in *; lia).
  assert (dir_ok s') as Hd'.
  { split; [by rewrite Et|rewrite Es; lia|rewrite Es; lia|]. intros j k Hj Hk Hdj Hdk Hn.
    destruct (decide (j = i)) as [-> |Hji], (decide (k = i)) as [-> |Hki]; [done|..].
    - destruct (He k ltac:(lia) Hki) as [F1 F2]. rewrite F1 in Hdk. rewrite F2, E2 in Hn. rewrite E1 in Hdj.
      destruct (Hfresh Hdj k); auto.
    - destruct (He j ltac:(lia) Hji) as [F1 F2]. rewrite F1 in Hdj. rewrite F2, E2 in Hn. rewrite E1 in Hdk.
      destruct (Hfresh Hdk j); auto.
    - destruct (He j ltac:(lia) Hji) as [F1 F2], (He k ltac:(lia) Hki) as [F3 F4]. rewrite F1 in Hdj. rewrite F3 in Hdk.
      rewrite F2, F4 in Hn. apply Dn; auto. }
  split; [done|]. intros n x. rewrite dir_map_Some by done. split.
  - intros (j & Hj & Hx & Hx0 & Hn). destruct (decide (j = i)) as [-> |Hji]; [left; split_and!; congruence|].
    right. destruct (He j ltac:(lia) Hji) as [F1 F2]. exists j. split_and!; [apply Hin; done..|done|congruence|done|congruence].
  - intros [(-> & -> & Hne)|(j & Hj & Hji & Hx & Hx0 & Hn)].
    + exists i. split_and!; (done || lia).
    + destruct (He j ltac:(lia) Hji) as [F1 F2]. exists j. split_and!; [lia|lia|congruence|done|congruence].
Qed.

Lemma filter_Forall {A} (P : A → Prop) `{∀ x, Decision (P x)} (l : list A) : Forall P l → filter P l = l.
Proof. induction 1; [done|]. rewrite filter_cons_True by done. by f_equal. Qed.

(** A directory in which every slot is in use has as many names as slots. *)
Lemma dir_map_size s :
  dir_ok s → (∀ j, 0 ≤ j < nslots s → dino s j ≠ 0) → size (dir_map s) = Z.to_nat (nslots s).
Proof.
  intros [Dt Da Ds Dn] Hu. unfold dir_map. rewrite map_size_list_to_map.
  - rewrite length_fmap, filter_Forall, length_seqZ; [done|]. apply Forall_forall. intros j Hj%elem_of_seqZ. apply Hu. lia.
  - rewrite <- list_fmap_compose. apply NoDup_fmap_2_strong; [|apply NoDup_filter, NoDup_seqZ].
    intros i j [Hi Hi2%elem_of_seqZ]%list_elem_of_filter [Hj Hj2%elem_of_seqZ]%list_elem_of_filter E. simpl in E. apply Dn; (done || lia).
Qed.

(** The string written by [strcpy]. *)
Lemma cstring_list m a l n :
  Forall (λ c, c ≠ 0) l → (length l ≤ n)%nat → (∀ k c, l !! k = Some c → m (a + Z.of_nat k) = c) →
  m (a + Z.of_nat (length l)) = 0 → cstring m a n = l.
Proof.
  revert a n. induction l as [|c l IH]; intros a n Hnz Hn Hl Hz; simpl in *.
  - destruct n; [done|]. simpl. rewrite Z.add_0_r in Hz. by rewrite Hz.
  - destruct n as [|n]; [lia|]. apply Forall_cons in Hnz as [Hc Hnz]. simpl.
    pose proof (Hl 0%nat c eq_refl) as H0. rewrite Z.add_0_r in H0. rewrite H0. zdecide. f_equal. apply IH; try done; [lia|..].
    + intros k d Hk. rewrite <- (Hl (S k) d Hk). f_equal. lia.
    + rewrite <- Hz. f_equal. lia.
Qed.

Lemma cstring_strcpy m a l n : Forall (λ c, c ≠ 0) l → (length l ≤ n)%nat → cstring (strcpy m a l) a n = l.
Proof.
  intros Hnz Hn. apply cstring_list; try done; unfold strcpy.
  - intros k c Hk. pose proof (lookup_lt_Some _ _ _ Hk). zdecide. replace (Z.to_nat (a + Z.of_nat k - a)) with k by lia. by rewrite Hk.
  - by zdecide.
Qed.

(** What only changes memory below the end of the entry on the stack. *)
Lemma looked_put s m :
  fs_ok s → (∀ a, ¬ sdbuf ≤ a < sdbuf + 64 → m a = smem s a) → looked s (set_smem m s).
Proof.
  intros Hs Hm. split; [|split; [done|split; [done|]]].
  - apply (fs_ok_ext s); try done. intros a Ha. apply Hm. unfold sdbuf, kbufs_end, zeros in *. lia.
  - intros a Ha. apply Hm. unfold sdbuf, kbufs_end in *. lia.
Qed.

Lemma blit_other m d src b n a : ¬ d ≤ a < d + n → blit m d src b n a = m a.
Proof. intros Ha. unfold blit. destruct (Z.leb_spec d a), (Z.ltb_spec a (d + n)); simpl; (done || lia). Qed.

Lemma dir_step_looked s s1 s2 : looked s s1 → dir_step s1 s2 → dir_step s s2.
Proof.
  intros (Hs & (E1 & E2 & E3 & E4 & E5) & Eu & Hm) [D1 D2 D3 D4 D5 D6 D7 D8].
  assert (∀ n, fblock s1 n = fblock s n) as Hfb by (intros n; unfold fblock; by rewrite E1, E3).
  assert (∀ b, owns s1 b ↔ owns s b) as Ho by (intros b; unfold owns, indirect; rewrite E1; by setoid_rewrite Hfb).
  split; try done.
  - by rewrite <- E1.
  - unfold dirty_kept in *. by rewrite <- E1, <- E2, <- E5.
  - destruct D5 as [F1 F2 F3 F4]. unfold marked in *. rewrite E2, E3, E4 in *. split; try done; unfold marked in *.
    + intros b. rewrite <- Ho. auto.
    + intros b. rewrite <- Ho. auto.
    + intros b x Hb Hno Hx. apply (F4 b x); [done|by rewrite Ho|done].
  - unfold marked in *. by rewrite <- E2.
  - by rewrite D7.
  - intros a Ha. by rewrite D8, Hm.
Qed.

Lemma entered_looked s s1 i ino name s2 : looked s s1 → entered s1 i ino name s2 → entered s i ino name s2.
Proof.
  intros Hl (Hst & Es & H1 & H2 & H3). pose proof Hl as (_ & Hu & _). pose proof (unchanged_fbyte _ _ Hu) as Eb.
  destruct Hu as (E1 & _). split; [by eapply dir_step_looked|]. unfold fsize in *. rewrite E1 in Es.
  split; [done|]. split; [done|]. split; [done|]. unfold dino, dname in *. by rewrite Eb in H3.
Qed.

Lemma not_entered_looked s s1 s2 : looked s s1 → not_entered s1 s2 → not_entered s s2.
Proof.
  intros Hl (Hst & Es & H1). pose proof Hl as (_ & Hu & _). pose proof (unchanged_fbyte _ _ Hu) as Eb.
  destruct Hu as (E1 & _). split; [by eapply dir_step_looked|]. unfold fsize in *. rewrite E1 in Es. by rewrite Eb in H1.
Qed.

Lemma sfs_dir_unlink_wp s i :
  fs_ok s → file_ok s → dir_ok s → 0 ≤ i < nslots s → dino s i ≠ 0 →
  wp (sfs_dir_unlink true i) (λ r s', r = 0 ∧ entered s i 0 [] s') s.
Proof.
  intros Hs Hf Hd Hi Hne. pose proof Hd as [Dt Da Ds Dn]. unfold nslots in Hi. unfold sfs_dir_unlink. apply wp_modify, wp_modify.
  set (m := word_put _ _ _). set (s1 := set_smem m _).
  assert (looked s s1) as Hl.
  { eapply looked_trans; [apply looked_put; [done|]|apply looked_put].
    - intros a Ha. by apply blit_other.
    - apply (fs_ok_ext s); try done. intros a Ha. apply blit_other. unfold sdbuf, kbufs_end, zeros in *. lia.
    - intros a Ha. apply word_put_other. lia. }
  assert (sd_is s1 0 []) as Hsd.
  { split; [by apply word_at_put|]. apply (cstring_list m _ [] 59); [done|simpl; lia|done|]. change (Z.of_nat (length [])) with 0.
    unfold m. rewrite word_put_other by lia. change (smem _) with (blit (smem s) sdbuf (λ _, 0) 0 64). unfold blit. by zdecide. }
  pose proof Hl as (Hs1 & Hu & _). pose proof (unchanged_fbyte _ _ Hu) as Eb. pose proof Hu as (E1 & _).
  eapply wp_mono; [|apply (sfs_writedir_wp s1 i 0 []); [done|by apply (unchanged_becomes s)|lia| |done]].
  2:{ unfold fsize in *. rewrite E1. lia. }
  intros r s2 [[-> H2]|[[[_ ?]|(_ & _ & _ & Hz)] _]].
  - split; [done|]. by eapply entered_looked.
  - lia.
  - unfold dino in *. by rewrite Eb in Hz.
Qed.

(** Which slot a new entry goes to: an empty one, or the one after the last. *)
Definition slot_free (s : fstate) (i : Z) : Prop := 0 ≤ i ∧ (i < nslots s ∧ dino s i = 0 ∨ i = nslots s).

(** Why a name of fewer than 60 bytes that is not there is refused: the file has its
    greatest size and every slot is in use; or the slot for the new entry lies in
    a block the directory does not have, and the volume has none left. *)
Definition no_room (s s' : fstate) (e : Z) : Prop :=
  e = EFBIG ∧ nslots s = 1144 ∧ (∀ j, 0 ≤ j < nslots s → dino s j ≠ 0) ∨
  e = ENOSPC ∧ full s' ∧ ∃ i, slot_free s i ∧ fblock s' (i / 8) = 0.

Lemma sfs_dir_link_wp s name ino :
  fs_ok s → file_ok s → dir_ok s → 0 < ino < W32 → Forall (λ c, c ≠ 0) name →
  wp (sfs_dir_link true name ino)
     (λ r s', match r with
              | inr i => slot_free s i ∧ (∀ j, 0 ≤ j < nslots s → matches s name j = false) ∧ entered s i ino name s'
              | inl e => not_entered s s' ∧
                  (e = EEXIST ∧ (∃ j, 0 ≤ j < nslots s ∧ matches s name j = true) ∨
                   (∀ j, 0 ≤ j < nslots s → matches s name j = false) ∧
                   (e = ENAMETOOLONG ∧ 59 < Z.of_nat (length name) ∨ Z.of_nat (length name) ≤ 59 ∧ no_room s s' e))
              end) s.
Proof.
  intros Hs Hf Hd Hino Hnz. pose proof Hd as [Dt Da Ds Dn]. unfold sfs_dir_link. apply wp_bind.
  eapply wp_mono; [|by apply sfs_dir_findname_wp]. intros [result fn] s1 (Hl & [Ff Fe] & Er). simpl in Ff, Fe, Er.
  pose proof Hl as (Hs1 & Hu & Eu & Hm). pose proof (unchanged_fbyte _ _ Hu) as Eb. pose proof Hu as (E1 & _).
  assert (file_ok s1) as Hf1 by (by apply (unchanged_becomes s)).
  assert (not_entered s s1) as Hn1.
  { eapply not_entered_looked; [exact Hl|]. split; [|done]. split; try done.
    split; try done. intros b Hb. by left. }
  destruct (fn_found fn) as [[j jno]|]; subst result.
  { cbn [Z.eqb negb andb]. apply wp_ret. split; [done|]. left. split; [done|]. exists j. destruct Ff as (? & ? & _). split; [lia|done]. }
  change (ENOENT =? 0) with false. change (ENOENT =? ENOENT) with true. cbn [negb andb].
  destruct (Z.gtb_spec (Z.of_nat (length name) + 1) 60).
  { apply wp_ret. split; [done|]. right. split; [done|]. left. split; [done|lia]. }
  set (slot := if fn_empty fn <? 0 then nslots s else fn_empty fn).
  assert (slot_free s slot) as Hsl.
  { unfold slot, slot_free, nslots in *. destruct (Z.ltb_spec (fn_empty fn) 0); [split; [lia|by right]|]. split; [done|]. left. done. }
  apply wp_bind. apply (wp_mono _ (λ r s2, r = slot ∧ s2 = s1)).
  2:{ unfold slot. destruct (fn_empty fn <? 0); [|by apply wp_ret]. unfold sfs_dir_nentries. apply wp_get. rewrite E1.
      apply wp_kassert; [by apply Z.eqb_eq|]. fold (fsize s). rewrite Da. by apply wp_ret. }
  intros ? ? [-> ->]. apply wp_modify, wp_modify. set (m := strcpy _ _ _). set (s2 := set_smem m _).
  assert (looked s1 s2) as Hl2.
  { eapply looked_trans; [apply looked_put; [done|]|apply looked_put].
    - intros a Ha. by apply blit_other.
    - apply (fs_ok_ext s1); try done. intros a Ha. apply blit_other. unfold sdbuf, kbufs_end, zeros in *. lia.
    - intros a Ha. unfold m, strcpy. destruct (Z.leb_spec (sdbuf + 4) a), (Z.ltb_spec a (sdbuf + 4 + Z.of_nat (length name))); cbn [andb]; try lia;
        (destruct (Z.eqb_spec a (sdbuf + 4 + Z.of_nat (length name))); [lia|]; apply word_put_other; lia). }
  assert (sd_is s2 ino name) as Hsd.
  { split; change (smem s2) with m; unfold m.
    - rewrite (word_at_ext (word_put (smem (set_smem (blit (smem s1) sdbuf (λ _, 0) 0 64) s1)) sdbuf ino)); [apply word_at_put; lia|].
      intros x Hx. unfold strcpy. by zdecide.
    - apply cstring_strcpy; [done|lia]. }
  pose proof (looked_trans _ _ _ Hl Hl2) as Hl3. pose proof Hl2 as (Hs2 & Hu2 & _). pose proof Hl3 as (_ & Hu3 & _). pose proof Hu3 as (E3 & _).
  assert (fsize s2 = fsize s) as Es2 by (unfold fsize; by rewrite E3).
  apply wp_bind. eapply wp_mono; [|apply (sfs_writedir_wp s2 slot ino name); [done|by apply (unchanged_becomes s1)|..|done]].
  2:{ destruct Hsl. lia. }
  2:{ rewrite Es2. destruct Hsl as [? Hsl]. unfold nslots in Hsl. lia. }
  intros r s3 [[-> H3]|[He H3]].
  - cbn [Z.eqb negb]. apply wp_ret. split; [done|]. split; [done|]. by eapply entered_looked.
  - destruct (Z.eqb_spec r 0) as [-> |_]; [by destruct He as [[? _]|[? _]]|]. cbn [negb]. apply wp_ret.
    split; [by eapply not_entered_looked|]. right. split; [done|]. right. split; [lia|].
    destruct He as [[-> ?]|(-> & ? & Hz & _)]; [left; split; [done|]|right].
    + destruct Hsl as [? [[? _]|Hsl']]; [unfold nslots in *; lia|]. split; [unfold nslots in *; lia|].
      unfold slot in *. destruct (fn_empty fn <? 0) eqn:Ee; [apply Fe|]. destruct Fe as [? _]. lia.
    + split; [done|]. split; [done|]. exists slot. split; [done|]. rewrite <- Hz. f_equal. lia.
Qed.

Lemma matches_true s name j : matches s name j = true ↔ dino s j ≠ 0 ∧ dname s j = name.
Proof. unfold matches. by rewrite andb_true_iff, negb_true_iff, Z.eqb_neq, bool_decide_eq_true. Qed.

(** Searching is looking up. *)
Lemma findname_map_wp s name :
  fs_ok s → file_ok s → dir_ok s →
  wp (sfs_dir_findname true name)
     (λ r s', looked s s' ∧
        match r.2.(fn_found) with
        | Some (i, ino) => r.1 = 0 ∧ dir_map s !! name = Some ino ∧ 0 ≤ i < nslots s ∧ dino s i = ino ∧ ino ≠ 0 ∧ dname s i = name
        | None => r.1 = ENOENT ∧ dir_map s !! name = None
        end) s.
Proof.
  intros Hs Hf Hd. eapply wp_mono; [|by apply sfs_dir_findname_wp]. intros [result fn] s1 (Hl & [Ff _] & Er). simpl in *.
  split; [done|]. destruct (fn_found fn) as [[i ino]|].
  - destruct Ff as (Hi & [H1 H2]%matches_true & ->). split_and!; try done; try lia. apply dir_map_Some; [done|]. by exists i.
  - split; [done|]. by apply dir_map_None.
Qed.

(** Entering a name is inserting it. *)
Lemma link_map_wp s name ino :
  fs_ok s → file_ok s → dir_ok s → 0 < ino < W32 → Forall (λ c, c ≠ 0) name →
  wp (sfs_dir_link true name ino)
     (λ r s', dir_step s s' ∧ dir_ok s' ∧
        match r with
        | inr i => dir_map s !! name = None ∧ dir_map s' = <[name:=ino]> (dir_map s) ∧
                   0 ≤ i < nslots s' ∧ dino s' i = ino ∧ dname s' i = name ∧ nslots s ≤ nslots s' ∧
                   ∀ j, 0 ≤ j < nslots s → dino s j ≠ 0 → j ≠ i ∧ dino s' j = dino s j ∧ dname s' j = dname s j
        | inl e => dir_map s' = dir_map s ∧ nslots s' = nslots s ∧
                   (∀ j, 0 ≤ j → dino s' j = dino s j ∧ dname s' j = dname s j) ∧
                   (e = EEXIST ∧ is_Some (dir_map s !! name) ∨ dir_map s !! name = None ∧
                    (e = ENAMETOOLONG ∧ 59 < Z.of_nat (length name) ∨ Z.of_nat (length name) ≤ 59 ∧ no_room s s' e))
        end) s.
Proof.
  intros Hs Hf Hd Hino Hnz. eapply wp_mono; [|by apply sfs_dir_link_wp]. intros [e|i] s'.
  - intros [(Hst & Es & Hb) He]. destruct (ds_inode _ _ Hst) as (Et & _). destruct (dir_map_ext s s' Es Hb Et Hd) as [Hd' Em].
    split; [done|]. split; [done|]. split; [done|]. split; [unfold nslots; by rewrite Es|]. split; [intros j Hj; by apply dentry_ext|].
    destruct He as [(-> & j & Hj & [H1 H2]%matches_true)|[Hn He]].
    + left. split; [done|]. exists (dino s j). apply dir_map_Some; [done|]. by exists j.
    + right. split; [by apply dir_map_None|done].
  - intros (Hsl & Hn & He). pose proof He as (Hst & Es & E1 & E2 & E3). pose proof Hd as [Dt Da Ds Dn].
    assert (i * 64 < 143 * 512) as Hlt.
    { destruct (Z.lt_ge_cases (i * 64) (143 * 512)) as [|Hge]; [done|]. exfalso. revert E1. unfold dino, word_at, fbyte.
      rewrite !fblock_high by lia. simpl. lia. }
    assert (0 ≤ i ∧ i * 64 ≤ fsize s ∧ i * 64 + 64 ≤ Z.max (fsize s) (143 * 512)) as (Hi & Hi1 & Hi2).
    { destruct Hsl as [? Hsl]. unfold nslots in Hsl. lia. }
    destruct (entered_dir s i ino name s' Hd He Hi Hi2 Hi1) as [Hd' Hm].
    { intros _ j Hj Hji Hdj En. assert (matches s name j = true) by (by apply matches_true). by rewrite Hn in *. }
    pose proof (dir_map_None s name Hd Hn) as Hnone.
    split; [done|]. split; [done|]. split; [done|]. split.
    + apply map_eq. intros n. apply option_eq. intros x. rewrite Hm, lookup_insert_Some, dir_map_Some by done. split.
      * intros [(-> & -> & _)|(j & Hj & Hji & Hx & Hx0 & Hnj)]; [by left|]. right. split; [|by exists j].
        intros ->. assert (matches s n j = true) as Hmt by (apply matches_true; split; [congruence|done]). by rewrite Hn in Hmt.
      * intros [[<- <-]|[Hne (j & Hj & Hx & Hx0 & Hnj)]]; [left; split_and!; (done || lia)|]. right. exists j. split; [done|]. split; [|done].
        intros ->. destruct Hsl as [_ [[_ Hz]|Hz]]; [congruence|lia].
    + unfold nslots. rewrite Es. split; [lia|]. split; [done|]. split; [done|]. split; [lia|]. intros j Hj Hdj.
      assert (j ≠ i) as Hji. { intros ->. destruct Hsl as [_ [[_ Hz]|Hz]]; [congruence|unfold nslots in Hz; lia]. }
      split; [done|]. apply E3; [lia|done].
Qed.

(** Removing the entry of a slot is deleting its name. *)
Lemma unlink_map_wp s i :
  fs_ok s → file_ok s → dir_ok s → 0 ≤ i < nslots s → dino s i ≠ 0 →
  wp (sfs_dir_unlink true i)
     (λ r s', r = 0 ∧ dir_step s s' ∧ dir_ok s' ∧ dir_map s' = delete (dname s i) (dir_map s)) s.
Proof.
  intros Hs Hf Hd Hi Hne. eapply wp_mono; [|by apply sfs_dir_unlink_wp]. intros r s' [-> He]. pose proof He as (Hst & _).
  unfold nslots in Hi. pose proof Hd as [Dt Da Ds Dn].
  destruct (entered_dir s i 0 [] s' Hd He) as [Hd' Hm]; [lia..|done|].
  split; [done|]. split; [done|]. split; [done|]. apply map_eq. intros n. apply option_eq. intros x.
  rewrite Hm, lookup_delete_Some, dir_map_Some by done. split.
  - intros [(_ & _ & ?)|(j & Hj & Hji & Hx & Hx0 & Hnj)]; [done|]. split; [|by exists j]. intros E. apply Hji.
    apply Dn; try done; [unfold nslots; lia|congruence..].
  - intros [Hn (j & Hj & Hx & Hx0 & Hnj)]. right. exists j. split; [done|]. split; [|done]. intros ->. congruence.
Qed.
End slots.

(** ** Sequences of operations *)

(** What the callers do with a directory: look a name up, enter one, remove one
    (a search followed by the clearing of its slot, as [sfs_remove] does it). *)
Inductive dop := DLook (name : list Z) | DLink (name : list Z) (ino : Z) | DUnlink (name : list Z).

Section refinement.
Context {MC : Mach}.

(** An error code, or the inode number. *)
Definition dir_op (o : dop) : M fstate (Z + Z) :=
  match o with
  | DLook name =>
      r ← sfs_dir_findname true name;
      mret (match r with (_, Findname (Some (_, ino)) _) => inr ino | (e, _) => inl e end)
  | DLink name ino =>
      r ← sfs_dir_link true name ino;
      mret (match r with inl e => inl e | inr _ => inr ino end)
  | DUnlink name =>
      r ← sfs_dir_findname true name;
      match r with
      | (_, Findname (Some (slot, ino)) _) =>
          e ← sfs_dir_unlink true slot; mret (if e =? 0 then inr ino else inl e)
      | (e, _) => mret (inl e)
      end
  end.

Fixpoint dir_ops (l : list dop) : M fstate (list (Z + Z)) :=
  match l with
  | [] => mret []
  | o :: l => r ← dir_op o; rs ← dir_ops l; mret (r :: rs)
  end.

Definition dop_ok (o : dop) : Prop :=
  match o with DLink name ino => 0 < ino < W32 ∧ Forall (λ c, c ≠ 0) name | _ => True end.
End refinement.

(** The same on the map of names to inode numbers that the directory in [s] holds,
    with the one in [s'] after it. *)
Inductive map_op (s : fstate) : dop → Z + Z → fstate → Prop :=
| MLook n i s' : dir_map s !! n = Some i → dir_map s' = dir_map s → map_op s (DLook n) (inr i) s'
| MLook_none n s' : dir_map s !! n = None → dir_map s' = dir_map s → map_op s (DLook n) (inl ENOENT) s'
| MLink n i s' :
    dir_map s !! n = None → Z.of_nat (length n) ≤ 59 → dir_map s' = <[n:=i]> (dir_map s) →
    map_op s (DLink n i) (inr i) s'
| MLink_some n i s' :
    is_Some (dir_map s !! n) → dir_map s' = dir_map s → map_op s (DLink n i) (inl EEXIST) s'
| MLink_long n i s' :
    dir_map s !! n = None → 59 < Z.of_nat (length n) → dir_map s' = dir_map s →
    map_op s (DLink n i) (inl ENAMETOOLONG) s'
| MLink_big n i s' :
    dir_map s !! n = None → Z.of_nat (length n) ≤ 59 → size (dir_map s) = 1144%nat →
    dir_map s' = dir_map s → map_op s (DLink n i) (inl EFBIG) s'
| MLink_full n i j s' :
    dir_map s !! n = None → Z.of_nat (length n) ≤ 59 → full s' → slot_free s j →
    fblock s' (j / 8) = 0 → dir_map s' = dir_map s → map_op s (DLink n i) (inl ENOSPC) s'
| MUnlink n i s' :
    dir_map s !! n = Some i → dir_map s' = delete n (dir_map s) → map_op s (DUnlink n) (inr i) s'
| MUnlink_none n s' : dir_map s !! n = None → dir_map s' = dir_map s → map_op s (DUnlink n) (inl ENOENT) s'.

Inductive map_ops : fstate → list dop → list (Z + Z) → fstate → Prop :=
| MNil s : map_ops s [] [] s
| MCons s o r s1 l rs s' : map_op s o r s1 → map_ops s1 l rs s' → map_ops s (o :: l) (r :: rs) s'.

Section refines.
Context {MC : Mach}.
Implicit Types s : fstate.

(** A directory in order. *)
Definition dir_inv (s : fstate) : Prop := fs_ok s ∧ file_ok s ∧ dir_ok s.

Lemma looked_inv s s' : dir_inv s → looked s s' → dir_inv s' ∧ dir_map s' = dir_map s.
Proof.
  intros (Hs & Hf & Hd) (Hs' & Hu & _). pose proof Hu as (E1 & _). destruct (unchanged_becomes s s' Hu Hf) as [Hf' _].
  destruct (dir_map_ext s s') as [Hd' Em]; [unfold fsize; by rewrite E1|intros x Hx; by rewrite (unchanged_fbyte _ _ Hu)|by rewrite E1|done|].
  done.
Qed.

Lemma length_cstring m a n : (length (cstring m a n) ≤ n)%nat.
Proof. revert a. induction n as [|n IH]; intros a; simpl; [lia|]. destruct (m a =? 0); simpl; [lia|]. specialize (IH (a + 1)). lia. Qed.

Lemma dir_op_wp s o :
  dir_inv s → dop_ok o → wp (dir_op o) (λ r s', dir_inv s' ∧ map_op s o r s') s.
Proof.
  intros Hi Ho. pose proof Hi as (Hs & Hf & Hd). destruct o as [name|name ino|name]; cbn [dir_op].
  - apply wp_bind. eapply wp_mono; [|by apply findname_map_wp]. intros [e [[[i ino]|] x]] s1 [Hl H]; cbn [fst snd fn_found] in H;
      destruct (looked_inv s s1 Hi Hl) as [Hi1 Em]; apply wp_ret; split; try done.
    + apply MLook; [by destruct H as (_ & ? & _)|done].
    + destruct H as [-> H]. by apply MLook_none.
  - destruct Ho as [Hino Hn]. apply wp_bind. eapply wp_mono; [|by apply link_map_wp].
    intros [e|i] s1 ([S1 S2] & Hd1 & H); apply wp_ret; split; try done.
    + destruct H as (Em & _ & _ & [[-> H]|[H [[-> He]|[He [(-> & En & Hu)|(-> & Hfl & j & Hj & Hz)]]]]]);
        [by apply MLink_some|by apply MLink_long| |by eapply MLink_full].
      apply MLink_big; try done. by rewrite dir_map_size, En.
    + destruct H as (H & Em & _ & _ & En & _). apply MLink; [done| |done]. rewrite <- En.
      pose proof (length_cstring (fbyte s1) (i * 64 + 4) 59). unfold dname. lia.
  - apply wp_bind. eapply wp_mono; [|by apply findname_map_wp]. intros [e [[[i ino]|] x]] s1 [Hl H]; cbn [fst snd fn_found] in H;
      destruct (looked_inv s s1 Hi Hl) as [Hi1 Em].
    + destruct H as (_ & Hl2 & Hi2 & Hino & Hne & Hn). destruct Hl as (_ & Hu & _).
      pose proof Hu as (E1 & _). destruct (dentry_ext s s1 i) as [D1 D2]; [intros y Hy; by rewrite (unchanged_fbyte _ _ Hu)|lia|].
      destruct Hi1 as (Hs1 & Hf1 & Hd1). apply wp_bind. eapply wp_mono; [|apply unlink_map_wp; [exact Hs1|exact Hf1|exact Hd1|..]].
      * intros r s2 (-> & [S1 S2] & Hd2 & Ed). apply wp_ret. split; [split; [exact S1|split; [exact S2|exact Hd2]]|].
        rewrite Hn in D2. rewrite D2, Em in Ed. exact (MUnlink _ _ _ _ Hl2 Ed).
      * unfold nslots, fsize in *. rewrite E1. exact Hi2.
      * rewrite D1, Hino. exact Hne.
    + apply wp_ret. split; [done|]. destruct H as [-> H]. by apply MUnlink_none.
Qed.

Lemma dir_ops_wp l s :
  dir_inv s → Forall dop_ok l → wp (dir_ops l) (λ rs s', dir_inv s' ∧ map_ops s l rs s') s.
Proof.
  revert s. induction l as [|o l IH]; intros s Hi Hl; cbn [dir_ops].
  - apply wp_ret. split; [done|constructor].
  - apply Forall_cons in Hl as [Ho Hl]. apply wp_bind. eapply wp_mono; [|by apply dir_op_wp]. intros r s1 [Hi1 H1].
    apply wp_bind. eapply wp_mono; [|by apply IH]. intros rs s2 [Hi2 H2]. apply wp_ret. split; [done|]. by econstructor.
Qed.

(** C11. A directory implements a map from names to inode numbers.  Any sequence of
    searches, entries and removals returns; the results are those of the same
    operations on a map; afterwards the directory holds exactly that map, with no
    name twice, and the volume is in order.  Entering fails with EEXIST exactly
    when the name is there, with ENAMETOOLONG exactly for other names of more than
    59 bytes, with EFBIG only when the directory has its greatest number of names,
    1144, and with ENOSPC only when the new entry needs a block and the volume has
    none left; in every other case it succeeds. *)
Theorem directory_refines_map (s : fstate) (l : list dop) :
  dir_inv s → Forall dop_ok l →
  ∃ rs s', dir_ops l s = Ret rs s' ∧ dir_inv s' ∧ map_ops s l rs s'.
Proof. intros Hi Hl. exact (wp_inv _ _ _ (dir_ops_wp l s Hi Hl)). Qed.
End refines.

(** An empty directory in the volume of file SfsIo. *)
Definition small_dir : fstate :=
  let s := small_volume 0 0 UIO_READ in
  Fstate s.(sfs) (SfsVnode (SfsInode 0 SFS_TYPE_DIR 1 (replicate 15 0) 0 (replicate 110 0)) 1 false).

Lemma directory_refines_map_witness :
  ∃ s', dir_ops [DLink [97] 9; DLink [98; 99] 10; DLink [97] 11; DUnlink [97]; DLook [98; 99]; DLook [97]] small_dir =
          Ret [inr 9; inr 10; inl EEXIST; inr 9; inr 10; inl ENOENT] s' ∧ dir_map s' = {[ [98; 99] := 10 ]}.
Proof.
  set (l := [_; _; _; _; _; _]).
  destruct (directory_refines_map small_dir l) as (rs & s' & H & _ & Hm).
  - split; [by apply (fs_ok_nblocks (small_volume 0 0 UIO_READ)); [apply small_volume_ok|..]|].
    split; [apply file_okb_sound; by vm_compute|]. split; try done. intros i j Hi. unfold nslots, fsize in Hi. simpl in Hi. lia.
  - unfold l, dop_ok, W32. repeat constructor; lia.
  - assert (match dir_ops l small_dir with Ret rs _ => rs = [inr 9; inr 10; inl EEXIST; inr 9; inr 10; inl ENOENT] | _ => False end) as Hc
      by (by vm_compute).
    rewrite H in Hc. subst rs. exists s'. split; [done|].
    repeat match goal with H : map_ops _ _ _ _ |- _ => inversion H; clear H; subst | H : map_op _ _ _ _ |- _ => inversion H; clear H; subst end.
    repeat match goal with H : dir_map _ = _ |- _ => rewrite H; clear H end.
    change (dir_map small_dir) with (∅ : gmap (list Z) Z). by vm_compute.
Defined.
