(* ===== verification/UserMem.v ===== *)
(** * Access to user memory (kern/vm/copyinout.c)

    Memory is one function from addresses: user addresses lie below
    [USERSPACETOP], and [None] is an address whose access ends in a fatal fault
    (the fault handler has no page for it).  Such a fault during a copy comes back
    through [tm_badfaultfunc] and [longjmp] as [EFAULT]; with no function set it is
    a panic.  Blocks are copied byte by byte: an aligned word lies in one page, so
    that all its bytes fault or none.

    [copy_blocks] and [copy_strings]: what the four routines copy, which errors they
    return, and that a bad pointer never makes them touch kernel memory. *)

From Stdlib Require Import ZArith Lia.
From stdpp Require Import base numbers list.
From S2P Require Import Prelude.

Definition USERSPACETOP : Z := 0x80000000.

Record vst := Vst { vm : Z → option Z; badfaultfunc : bool }.

Definition set_badfault (b : bool) (s : vst) : vst := Vst s.(vm) b.
Definition vput (a v : Z) (m : Z → option Z) : Z → option Z := λ x, if x =? a then Some v else m x.

(** One access: [None] is control coming back to [setjmp]. *)
Definition vld (a : Z) : M vst (option Z) :=
  s ← get;
  match s.(vm) a with
  | Some v => mret (Some v)
  | None => if s.(badfaultfunc) then mret None else panic
  end.
Definition vst_ (a v : Z) : M vst bool :=
  s ← get;
  match s.(vm) a with
  | Some _ => modify (λ s, Vst (vput a v s.(vm)) s.(badfaultfunc));; mret true
  | None => if s.(badfaultfunc) then mret false else panic
  end.

(** The verdict and the length up to the end of user space. *)
Definition copycheck (userptr len : Z) : Z * Z :=
  let bot := userptr in
  let top := u32 (bot + len - 1) in
  if top <? bot then (EFAULT, len)
  else if bot >=? USERSPACETOP then (EFAULT, len)
  else if top >=? USERSPACETOP then (0, USERSPACETOP - bot)
  else (0, len).

(** [memcpy]; [false] when an access faulted. *)
Fixpoint vcopy (n : nat) (dest src : Z) : M vst bool :=
  match n with
  | O => mret true
  | S n =>
      v ← vld src;
      match v with
      | None => mret false
      | Some v => ok ← vst_ dest v; if (ok : bool) then vcopy n (dest + 1) (src + 1) else mret false
      end
  end.

(** A copy between [setjmp] and the end; [user] is the pointer that is checked. *)
Definition copy_block (user dest src len : Z) : M vst Z :=
  let '(result, stoplen) := copycheck user len in
  if negb (result =? 0) then mret result
  else if negb (stoplen =? len) then mret EFAULT
  else
    modify (set_badfault true);;
    ok ← vcopy (Z.to_nat len) dest src;
    modify (set_badfault false);;
    mret (if (ok : bool) then 0 else EFAULT).
Definition copyin (usersrc dest len : Z) : M vst Z := copy_block usersrc dest usersrc len.
Definition copyout (src userdest len : Z) : M vst Z := copy_block userdest userdest src len.

(** The result is an error or the length with the terminator; [None] is a fault. *)
Fixpoint copystr_loop (n : nat) (dest src i : Z) : M vst (option (option Z)) :=
  match n with
  | O => mret (Some None)
  | S n =>
      v ← vld (src + i);
      match v with
      | None => mret None
      | Some v =>
          ok ← vst_ (dest + i) v;
          if negb ok then mret None
          else
            v ← vld (src + i);
            match v with
            | None => mret None
            | Some v => if v =? 0 then mret (Some (Some (i + 1))) else copystr_loop n dest src (i + 1)
            end
      end
  end.
Definition copystr (dest src maxlen stoplen : Z) : M vst (option (Z + Z)) :=
  r ← copystr_loop (Z.to_nat (Z.min maxlen stoplen)) dest src 0;
  mret (match r with
        | None => None
        | Some (Some gotlen) => Some (inr gotlen)
        | Some None => Some (inl (if stoplen <? maxlen then EFAULT else ENAMETOOLONG))
        end).

Definition copy_string (user dest src len : Z) : M vst (Z + Z) :=
  let '(result, stoplen) := copycheck user len in
  if negb (result =? 0) then mret (inl result)
  else
    modify (set_badfault true);;
    r ← copystr dest src len stoplen;
    modify (set_badfault false);;
    mret (match r with None => inl EFAULT | Some r => r end).
Definition copyinstr (usersrc dest len : Z) : M vst (Z + Z) := copy_string usersrc dest usersrc len.
Definition copyoutstr (src userdest len : Z) : M vst (Z + Z) := copy_string userdest userdest src len.

(** ** The check *)

(** A block of user space. *)
Definition user_block (a len : Z) : Prop := 0 ≤ a ∧ 0 < len ∧ a + len ≤ USERSPACETOP.

Lemma copycheck_spec a len :
  0 ≤ a < W32 → 0 ≤ len < W32 →
  (user_block a len ∧ copycheck a len = (0, len)) ∨
  (0 ≤ a < USERSPACETOP ∧ USERSPACETOP < a + len ≤ W32 ∧ copycheck a len = (0, USERSPACETOP - a)) ∨
  (a = 0 ∧ len = 0 ∧ copycheck a len = (0, USERSPACETOP)) ∨
  ((USERSPACETOP ≤ a ∨ W32 < a + len ∨ len = 0) ∧ copycheck a len = (EFAULT, len)).
Proof.
  unfold copycheck, user_block, USERSPACETOP, W32. intros Ha Hl. rewrite !Z.geb_leb. 
  destruct (Z.ltb_spec (u32 (a + len - 1)) a) as [H1|H1]; unfold u32 in H1.
  - right; right; right. split; [lia|done].
  - destruct (Z.leb_spec 0x80000000 a); [right; right; right; split; [lia|done]|].
    destruct (Z.leb_spec 0x80000000 (u32 (a + len - 1))) as [H2|H2]; unfold u32 in H2.
    + destruct (Z.eq_dec len 0) as [->|]; [right; right; left; split_and!; [lia|done|f_equal; lia]|].
      right; left. split_and!; try lia. done.
    + left. split; [lia|done].
Qed.

(** ** Copying *)

(** No address is in both blocks. *)
Definition apart (a b n : Z) : Prop := ∀ i j, 0 ≤ i < n → 0 ≤ j < n → a + i ≠ b + j.

(** [m'] is [m] with bytes stored in the block of [n] at [d] and nowhere else. *)
Definition stored (m m' : Z → option Z) (d n : Z) : Prop :=
  (∀ x, ¬ d ≤ x < d + n → m' x = m x) ∧ ∀ x, is_Some (m' x) ↔ is_Some (m x).

Lemma stored_refl m d n : stored m m d n.
Proof. by split. Qed.

Lemma stored_weaken m m' d n d' n' : stored m m' d n → d' ≤ d → d + n ≤ d' + n' → stored m m' d' n'.
Proof. intros [H1 H2] Hd Hn. split; [|done]. intros x Hx. apply H1. lia. Qed.

Lemma stored_put m m' d n a v : stored m m' d n → d ≤ a < d + n → is_Some (m' a) → stored m (vput a v m') d n.
Proof.
  intros [H1 H2] Ha Hs. unfold vput. split.
  - intros x Hx. rewrite (proj2 (Z.eqb_neq x a)) by lia. by apply H1.
  - intros x. destruct (Z.eqb_spec x a) as [->|]; [rewrite <- H2; naive_solver|apply H2].
Qed.

Lemma vld_run a m b : vld a (Vst m b) = match m a with Some v => Ret (Some v) (Vst m b) | None => if b then Ret None (Vst m b) else Panic (Vst m b) end.
Proof. unfold vld. rewrite get_bind. cbn. destruct (m a); [done|]. by destruct b. Qed.

Lemma vst_run a v m b : vst_ a v (Vst m b) = match m a with Some _ => Ret true (Vst (vput a v m) b) | None => if b then Ret false (Vst m b) else Panic (Vst m b) end.
Proof. unfold vst_. rewrite get_bind. cbn. destruct (m a); [done|]. by destruct b. Qed.

Lemma vcopy_run n d s m0 m i :
  apart d s (i + Z.of_nat n) → 0 ≤ i → stored m0 m d (i + Z.of_nat n) → (∀ j, 0 ≤ j < i → m (d + j) = m0 (s + j) ∧ is_Some (m0 (s + j))) →
  ∃ ok m', vcopy n (d + i) (s + i) (Vst m true) = Ret ok (Vst m' true) ∧ stored m0 m' d (i + Z.of_nat n) ∧
    if (ok : bool) then ∀ j, 0 ≤ j < i + Z.of_nat n → m' (d + j) = m0 (s + j) ∧ is_Some (m0 (s + j))
    else ∃ j, 0 ≤ j < i + Z.of_nat n ∧ (m0 (s + j) = None ∨ m0 (d + j) = None).
Proof.
  revert m i. induction n as [|n IH]; intros m i Hap Hi Hst Hdone; cbn [vcopy].
  - exists true, m. split_and!; [done|done|]. intros j Hj. apply Hdone. lia.
  - pose proof Hst as [S1 S2]. assert (m (s + i) = m0 (s + i)) as Es.
    { apply S1. intros Hx. apply (Hap (s + i - d) i); lia. }
    rewrite (bind_Ret _ _ _ (m0 (s + i)) (Vst m true)) by (rewrite vld_run, Es; by destruct (m0 (s + i))).
    destruct (m0 (s + i)) as [v|] eqn:Ev; [|exists false, m; split_and!; [done|done|exists i; split; [lia|by left]]].
    destruct (m (d + i)) as [w|] eqn:Ed; cycle 1.
    { exists false, m. erewrite bind_Ret by (by rewrite vst_run, Ed). split_and!; [done|done|]. exists i. split; [lia|right].
      destruct (m0 (d + i)) eqn:E0; [|done]. destruct (proj2 (S2 (d + i))) as [? H]; [by rewrite E0|]. congruence. }
    erewrite bind_Ret by (by rewrite vst_run, Ed). rewrite <- !Z.add_assoc. replace (i + Z.of_nat (S n)) with (i + 1 + Z.of_nat n) in * by lia.
    apply IH; [done|lia|apply stored_put; [done|lia|by rewrite Ed]|]. intros j Hj. unfold vput.
    destruct (Z.eqb_spec (d + j) (d + i)); [replace j with i by lia; by rewrite Ev|apply Hdone; lia].
Qed.

Lemma apart_user a b n : a + n ≤ USERSPACETOP → USERSPACETOP ≤ b → apart a b n.
Proof. intros Ha Hb i j. lia. Qed.

Lemma apart_sym a b n : apart a b n → apart b a n.
Proof. intros H i j Hi Hj E. by apply (H j i). Qed.

(** The part that both directions share. *)
Lemma copy_block_run user d s len st0 :
  0 ≤ user < W32 → 0 ≤ len < W32 → (user_block user len → apart d s len) → st0.(badfaultfunc) = false →
  ∃ r st1, copy_block user d s len st0 = Ret r st1 ∧ st1.(badfaultfunc) = false ∧
    ((r = 0 ∧ user_block user len ∧ stored st0.(vm) st1.(vm) d len ∧ ∀ j, 0 ≤ j < len → st1.(vm) (d + j) = st0.(vm) (s + j) ∧ is_Some (st0.(vm) (s + j))) ∨
     (r = EFAULT ∧ ((¬ user_block user len ∧ st1 = st0) ∨
        (user_block user len ∧ stored st0.(vm) st1.(vm) d len ∧ ∃ j, 0 ≤ j < len ∧ (st0.(vm) (s + j) = None ∨ st0.(vm) (d + j) = None))))).
Proof.
  intros Hu Hl Hap Hb. unfold copy_block.
  destruct (copycheck_spec user len Hu Hl) as [[Hok ->]|[(H1 & H2 & ->)|[(-> & -> & ->)|[Hno ->]]]]; cbn [Z.eqb negb].
  - rewrite Z.eqb_refl. cbn [negb]. mrun. destruct st0 as [m b]. cbn in *. subst b. specialize (Hap Hok).
    destruct (vcopy_run (Z.to_nat len) d s m m 0) as (ok & m' & E & Hst & Hres); rewrite ?Z2Nat.id in * by lia; rewrite ?Z.add_0_l in *; [done|done|apply stored_refl|lia|].
    rewrite !Z.add_0_r in E. unfold set_badfault. cbn. rewrite (bind_Ret _ _ _ _ _ E). mrun. eexists _, _. split; [done|]. split; [done|]. destruct ok; [left|right]; split_and!; try done.
    right. by split_and!.
  - unfold user_block, USERSPACETOP in *. rewrite (proj2 (Z.eqb_neq _ len)) by lia. cbn [negb]. eexists _, _. split; [done|]. split; [done|]. right. split; [done|]. left. split; [lia|done].
  - eexists _, _. split; [done|]. split; [done|]. right. split; [done|]. left. split; [unfold user_block; lia|done].
  - change (EFAULT =? 0) with false. eexists _, _. split; [done|]. split; [done|]. right. split; [done|]. left. split; [unfold user_block, USERSPACETOP, W32 in *; lia|done].
Qed.

(** C37. [copyin] and [copyout] move a block between user and kernel memory and cannot
    be tricked: they return 0 exactly when the whole block lies in user space and every
    byte of it can be accessed, and then have copied all of it; otherwise they
    return [EFAULT].  Whatever the pointer, [copyout] changes nothing outside the
    user block - no kernel memory - and [copyin] nothing but the buffer; and the
    fault handler's hook is back as it was.  (A block of length 0 counts as outside
    user space.) *)
Theorem copy_blocks (user kern len : Z) (s : vst) :
  0 ≤ user < W32 → 0 ≤ len < W32 → USERSPACETOP ≤ kern → (∀ x, kern ≤ x < kern + len → is_Some (s.(vm) x)) → s.(badfaultfunc) = false →
  let ok := user_block user len ∧ ∀ j, 0 ≤ j < len → is_Some (s.(vm) (user + j)) in
  (∃ r s', copyin user kern len s = Ret r s' ∧ s'.(badfaultfunc) = false ∧ (∀ x, ¬ kern ≤ x < kern + len → s'.(vm) x = s.(vm) x) ∧
     (r = 0 ∧ ok ∧ (∀ j, 0 ≤ j < len → s'.(vm) (kern + j) = s.(vm) (user + j)) ∨ r = EFAULT ∧ ¬ ok)) ∧
  (∃ r s', copyout kern user len s = Ret r s' ∧ s'.(badfaultfunc) = false ∧
     (∀ x, USERSPACETOP ≤ x ∨ ¬ user ≤ x < user + len → s'.(vm) x = s.(vm) x) ∧
     (r = 0 ∧ ok ∧ (∀ j, 0 ≤ j < len → s'.(vm) (user + j) = s.(vm) (kern + j)) ∨ r = EFAULT ∧ ¬ ok)).
Proof.
  intros Hu Hl Hk Hmap Hb ok. unfold user_block in *.
  assert (∀ j, 0 ≤ j < len → s.(vm) (kern + j) ≠ None) as Hkn by (intros j Hj E; destruct (Hmap (kern + j)) as [? H]; [lia|congruence]).
  split.
  - destruct (copy_block_run user kern user len s Hu Hl) as (r & s' & E & B & H); [intros [? ?]; apply apart_sym, apart_user; [lia|done]|done|].
    exists r, s'. split; [done|]. split; [done|]. destruct H as [(-> & Hub & [S1 _] & Hc)|(-> & [(Hno & ->)|(Hub & [S1 _] & j & Hj & [Hn|Hn])])].
    + split; [done|]. left. split; [done|]. split; [split; [done|]|]; intros j Hj; by apply Hc.
    + split; [done|]. right. split; [done|]. by intros [? _].
    + split; [done|]. right. split; [done|]. intros [_ Hs]. destruct (Hs j Hj) as [? ?]. congruence.
    + by destruct (Hkn j Hj).
  - destruct (copy_block_run user user kern len s Hu Hl) as (r & s' & E & B & H); [intros [? ?]; apply apart_user; [lia|done]|done|].
    exists r, s'. split; [done|]. split; [done|]. destruct H as [(-> & Hub & [S1 S2] & Hc)|(-> & [(Hno & ->)|(Hub & [S1 _] & j & Hj & [Hn|Hn])])].
    + unfold user_block in Hub. split; [intros x Hx; apply S1; lia|]. left. split; [done|]. split; [split; [done|]|by intros j Hj; apply Hc]. intros j Hj. apply S2.
      destruct (Hc j Hj) as [-> H]. done.
    + split; [done|]. right. split; [done|]. by intros [? _].
    + by destruct (Hkn j Hj).
    + unfold user_block in Hub. split; [intros x Hx; apply S1; lia|]. right. split; [done|]. intros [_ Hs]. destruct (Hs j Hj) as [? ?]. congruence.
Qed.

(** Bytes at 0x1000 to 0x1fff of user space, and the kernel's. *)
Definition ex_vm : vst := Vst (λ a, if (0x1000 <=? a) && (a <? 0x2000) || (0x80000000 <=? a) then Some (a mod 256) else None) false.

Lemma ex_kernel a n x : 0x80000000 ≤ a → a ≤ x < a + n → is_Some (ex_vm.(vm) x).
Proof. intros Ha Hx. unfold ex_vm. cbn [vm]. rewrite (proj2 (Z.leb_le 0x80000000 x)) by lia. by rewrite orb_true_r. Qed.

Lemma copy_blocks_witness : ∃ r s', copyout 0x80001000 0x1ff0 16 ex_vm = Ret r s' ∧ s'.(badfaultfunc) = false.
Proof.
  destruct (copy_blocks 0x1ff0 0x80001000 16 ex_vm) as [_ (r & s' & E & H & _)]; try done; [intros x Hx; by apply (ex_kernel 0x80001000 16)|].
  by exists r, s'.
Defined.

(** ** Copying strings *)

(** [n] bytes that can be read, none of them a terminator. *)
Definition nonzero (m : Z → option Z) (a n : Z) : Prop := ∀ j, 0 ≤ j < n → ∃ c, m (a + j) = Some c ∧ c ≠ 0.

Lemma copystr_loop_run n d s m0 m i :
  apart d s (i + Z.of_nat n) → 0 ≤ i → stored m0 m d i → nonzero m0 s i → (∀ j, 0 ≤ j < i → m (d + j) = m0 (s + j)) →
  ∃ r m', copystr_loop n d s i (Vst m true) = Ret r (Vst m' true) ∧ stored m0 m' d (i + Z.of_nat n) ∧
    match r with
    | Some (Some g) => 0 < g ≤ i + Z.of_nat n ∧ nonzero m0 s (g - 1) ∧ m0 (s + (g - 1)) = Some 0 ∧ (∀ j, 0 ≤ j < g → m' (d + j) = m0 (s + j)) ∧ stored m0 m' d g
    | Some None => nonzero m0 s (i + Z.of_nat n)
    | None => ∃ k, 0 ≤ k < i + Z.of_nat n ∧ nonzero m0 s k ∧ (m0 (s + k) = None ∨ m0 (d + k) = None)
    end.
Proof.
  revert m i. induction n as [|n IH]; intros m i Hap Hi Hst Hnz Hdone; cbn [copystr_loop].
  - exists (Some None), m. by rewrite Z.add_0_r in *.
  - assert (stored m0 m d (i + Z.of_nat (S n))) as Hw by (apply (stored_weaken _ _ d i); [done|lia|lia]). pose proof Hst as [S1 S2]. assert (∀ j, 0 ≤ j < i + Z.of_nat (S n) → ¬ d ≤ s + j < d + (i + Z.of_nat (S n))) as Hsd
      by (intros j Hj Hx; apply (Hap (s + j - d) j); lia).
    assert (m (s + i) = m0 (s + i)) as Es by (apply Hw, Hsd; lia).
    rewrite (bind_Ret _ _ _ (m0 (s + i)) (Vst m true)) by (rewrite vld_run, Es; by destruct (m0 (s + i))).
    destruct (m0 (s + i)) as [v|] eqn:Ev; [|exists None, m; split_and!; [done|done|exists i; split_and!; [lia|lia|done|by left]]].
    destruct (m (d + i)) as [w|] eqn:Ed; cycle 1.
    { exists None, m. erewrite bind_Ret by (by rewrite vst_run, Ed). split_and!; [done|done|]. exists i. split_and!; [lia|lia|done|right].
      destruct (m0 (d + i)) eqn:E0; [|done]. destruct (proj2 (S2 (d + i))) as [? H]; [by rewrite E0|]. congruence. }
    erewrite bind_Ret by (by rewrite vst_run, Ed). cbn [negb].
    assert (stored m0 (vput (d + i) v m) d (i + 1)) as Hst' by (apply stored_put; [apply (stored_weaken _ _ d i); [done|lia|lia]|lia|by rewrite Ed]).
    assert (stored m0 (vput (d + i) v m) d (i + Z.of_nat (S n))) as Hw' by (apply (stored_weaken _ _ d (i + 1)); [done|lia|lia]).
    assert (vput (d + i) v m (s + i) = Some v) as Er by (destruct Hw' as [S1' _]; rewrite S1' by (apply Hsd; lia); done).
    assert (∀ j, 0 ≤ j < i + 1 → vput (d + i) v m (d + j) = m0 (s + j)) as Hd'.
    { intros j Hj. unfold vput. destruct (Z.eqb_spec (d + j) (d + i)); [by replace j with i by lia|apply Hdone; lia]. }
    erewrite bind_Ret by (by rewrite vld_run, Er). cbv beta iota. destruct (Z.eqb_spec v 0) as [->|Hv].
    + exists (Some (Some (i + 1))), (vput (d + i) 0 m). replace (i + 1 - 1) with i by lia. split_and!; [done|done|lia|lia|done|done|done|done..].
    + replace (i + Z.of_nat (S n)) with (i + 1 + Z.of_nat n) in * by lia. apply IH; [done|lia|done| |done].
      intros j Hj. destruct (Z.eq_dec j i) as [->|]; [by exists v|apply Hnz; lia].
Qed.

(** What copying a string from [src] to [dst] comes to, when [user] is the one of
    them that is a user pointer. *)
Definition string_copied (m m' : Z → option Z) (user src dst len : Z) (r : Z + Z) : Prop :=
  match r with
  | inr g => 0 < g ≤ len ∧ user + g ≤ USERSPACETOP ∧ nonzero m src (g - 1) ∧ m (src + (g - 1)) = Some 0 ∧ (∀ j, 0 ≤ j < g → m' (dst + j) = m (src + j)) ∧
      ∀ x, ¬ dst ≤ x < dst + g → m' x = m x
  | inl e =>
      e = ENAMETOOLONG ∧ user + len ≤ USERSPACETOP ∧ nonzero m src len ∨
      e = EFAULT ∧ (USERSPACETOP ≤ user ∨ W32 < user + len ∨ len = 0 ∨
        ∃ k, 0 ≤ k < len ∧ nonzero m src k ∧ (user + k = USERSPACETOP ∨ user + k < USERSPACETOP ∧ m (user + k) = None))
  end.

Lemma copy_string_run user d s len st0 :
  0 ≤ user < W32 → 0 ≤ len < W32 → user = d ∨ user = s → (∀ n, user + n ≤ USERSPACETOP → n ≤ len → apart d s n) →
  (∀ j, 0 ≤ j < len → (if user =? d then st0.(vm) (s + j) else st0.(vm) (d + j)) ≠ None) → st0.(badfaultfunc) = false →
  ∃ r st1, copy_string user d s len st0 = Ret r st1 ∧ st1.(badfaultfunc) = false ∧
    (st1 = st0 ∨ ∃ n, user + n ≤ USERSPACETOP ∧ n ≤ len ∧ stored st0.(vm) st1.(vm) d n) ∧ string_copied st0.(vm) st1.(vm) user s d len r.
Proof.
  intros Hu Hl Hds Hap Hk Hb. unfold copy_string.
  assert (∀ k, 0 ≤ k < len → st0.(vm) (s + k) = None ∨ st0.(vm) (d + k) = None → st0.(vm) (user + k) = None) as Hhole.
  { intros k Hkk Hn. specialize (Hk k Hkk). destruct (Z.eqb_spec user d) as [->|]; destruct Hn as [Hn|Hn]; try done. destruct Hds as [->| ->]; done. }
  assert (∀ stop, 0 ≤ stop → user + Z.min len stop ≤ USERSPACETOP → (stop < len → user + stop = USERSPACETOP) → (stop = len ∧ user_block user len ∨ stop < len) →
    ∃ r st1, (modify (set_badfault true);; (r ← copystr d s len stop; modify (set_badfault false);; mret (match r with None => inl EFAULT | Some r => r end))) st0 = Ret r st1 ∧
      st1.(badfaultfunc) = false ∧ (st1 = st0 ∨ ∃ n, user + n ≤ USERSPACETOP ∧ n ≤ len ∧ stored st0.(vm) st1.(vm) d n) ∧ string_copied st0.(vm) st1.(vm) user s d len r) as Main.
  { intros stop H0 H1 H2 H3. mrun. destruct st0 as [m b]. cbn in *. subst b. unfold copystr. rewrite bind_assoc. set (n := Z.min len stop) in *.
    destruct (copystr_loop_run (Z.to_nat n) d s m m 0) as (r & m' & E & Hst & Hres); rewrite ?Z2Nat.id in * by lia; rewrite ?Z.add_0_l in *;
      [apply Hap; lia|done|apply stored_refl|intros j Hj; lia|intros j Hj; lia|].
    unfold set_badfault. cbn. rewrite (bind_Ret _ _ _ _ _ E). mrun. mrun. eexists _, _. split; [done|]. split; [done|]. cbn.
    split; [right; exists n; split_and!; [lia|lia|done]|]. destruct r as [[g|]|]; cbn.
    - destruct Hres as (? & ? & ? & ? & [? ?]). split_and!; [lia|lia|lia|done..].
    - destruct (Z.ltb_spec stop len) as [Hlt|Hge]; [right|left].
      + split; [done|]. right. right. right. exists stop. replace n with stop in Hres by lia. split_and!; [lia|lia|done|left; lia].
      + destruct H3 as [[-> Hub]|]; [|lia]. destruct Hub as (? & ? & ?). split_and!; [done|lia|by replace len with n by lia].
    - destruct Hres as (k & Hk1 & Hk2 & Hn). right. split; [done|]. right. right. right. exists k. split_and!; [lia|lia|done|right]. split; [lia|]. apply Hhole; [lia|done]. }
  destruct (copycheck_spec user len Hu Hl) as [[Hok ->]|[(H1 & H2 & ->)|[(-> & -> & ->)|[Hno ->]]]]; cbn [Z.eqb negb].
  - apply Main; [lia|destruct Hok; lia|lia|by left].
  - unfold USERSPACETOP in *. apply Main; [lia|lia|lia|right; lia].
  - destruct st0 as [m b]. cbn in Hb. subst b. eexists _, _. split; [done|]. split; [done|]. split; [by left|].
    left. split_and!; [done|done|]. intros j Hj. lia.
  - eexists _, _. split; [done|]. split; [done|]. split; [by left|]. right. split; [done|]. tauto.
Qed.


(** [copyinstr] and [copyoutstr] copy a string with its terminator and return its
    length, exactly when the string ends within the given length and within user space
    and can be read and written that far; a string that is too long gives
    [ENAMETOOLONG]; a pointer into the kernel, a fault before the end, or running
    into the end of user space gives [EFAULT].  [copyoutstr] never writes to kernel
    memory, [copyinstr] only to its buffer. *)
Theorem copy_strings (user kern len : Z) (s : vst) :
  0 ≤ user < W32 → 0 ≤ len < W32 → USERSPACETOP ≤ kern → (∀ x, kern ≤ x < kern + len → is_Some (s.(vm) x)) → s.(badfaultfunc) = false →
  (∃ r s', copyinstr user kern len s = Ret r s' ∧ s'.(badfaultfunc) = false ∧ (∀ x, ¬ kern ≤ x < kern + len → s'.(vm) x = s.(vm) x) ∧
     string_copied s.(vm) s'.(vm) user user kern len r) ∧
  (∃ r s', copyoutstr kern user len s = Ret r s' ∧ s'.(badfaultfunc) = false ∧ (∀ x, USERSPACETOP ≤ x ∨ ¬ user ≤ x < user + len → s'.(vm) x = s.(vm) x) ∧
     string_copied s.(vm) s'.(vm) user kern user len r).
Proof.
  intros Hu Hl Hk Hmap Hb.
  assert (∀ j, 0 ≤ j < len → s.(vm) (kern + j) ≠ None) as Hkn by (intros j Hj E; destruct (Hmap (kern + j)) as [? H]; [lia|congruence]).
  split.
  - destruct (copy_string_run user kern user len s) as (r & s' & E & B & Hst & H); try done; [by right|intros n H1 H2; apply apart_sym, apart_user; lia| |].
    { intros j Hj. destruct (Z.eqb_spec user kern) as [->|]; by apply Hkn. }
    exists r, s'. split_and!; [done|done| |done]. intros x Hx. destruct Hst as [->|(n & _ & Hn & [S1 _])]; [done|]. apply S1. lia.
  - destruct (copy_string_run user user kern len s) as (r & s' & E & B & Hst & H); try done; [by left|intros n H1 H2; apply apart_user; lia| |].
    { intros j Hj. rewrite Z.eqb_refl. by apply Hkn. }
    exists r, s'. split_and!; [done|done| |done]. intros x Hx. destruct Hst as [->|(n & Hn1 & Hn2 & [S1 _])]; [done|]. apply S1. lia.
Qed.

Lemma copy_strings_witness : ∃ r s', copyinstr 0x10fe 0x80001000 16 ex_vm = Ret r s' ∧ string_copied ex_vm.(vm) s'.(vm) 0x10fe 0x10fe 0x80001000 16 r.
Proof.
  destruct (copy_strings 0x10fe 0x80001000 16 ex_vm) as [(r & s' & E & _ & _ & H) _]; try done; [intros x Hx; by apply (ex_kernel 0x80001000 16)|].
  by exists r, s'.
Defined.
