(* ===== verification/Exec.v ===== *)
(** * Starting programs (kern/syscall/runprogram.c, sys_execv of kern/syscall/procops.c)

    How the arguments of a program get onto its stack.  Memory is that of
    [UserMem]; the address of a kernel variable or block is an argument.  Opening
    the executable, creating and loading the address space and defining the stack
    are modelled elsewhere ([Vfs], [Addrspace], [Loadelf]); here their results are
    arguments, and [refs] counts the references to the executable.

    [program_arguments]: [runprogram] leaves the strings and a null-terminated array of
    pointers to them on the stack.  [execv_ignores_arguments]: [sys_execv] looks for
    its caller's arguments after it has switched to the new address space, so they
    have no influence. *)

From Stdlib Require Import ZArith Lia FunctionalExtensionality.
From stdpp Require Import base numbers list.
From S2P Require Import Prelude Coremap Addrspace UserMem.

Definition NARG_MAX : Z := 1024.
Definition ARG_MAX : Z := 64 * 1024.
Definition PATH_MAX : Z := 1024.

Record ex := Ex { ev : vst; refs : Z; ex_errno : Z }.

Definition set_ev (v : vst) (s : ex) : ex := Ex v s.(refs) s.(ex_errno).
Definition on_vst {A} (m : M vst A) : M ex A := zoom ev set_ev m.
Definition add_ref (n : Z) : M ex unit := modify (λ s, Ex s.(ev) (s.(refs) + n) s.(ex_errno)).

(** [enter_new_process(argc, argv, stackptr, entrypoint)] does not return. *)
Inductive started := Failed (err : Z) | Enter (argc argv stackptr entrypoint : Z).

(** A pointer in the variable at [a]. *)
Definition put_word (a v : Z) (m : Z → option Z) : Z → option Z :=
  vput a (v / 16777216 mod 256) (vput (a + 1) (v / 65536 mod 256) (vput (a + 2) (v / 256 mod 256) (vput (a + 3) (v mod 256) m))).
Definition word (m : Z → option Z) (a : Z) : option Z :=
  b0 ← m a; b1 ← m (a + 1); b2 ← m (a + 2); b3 ← m (a + 3); Some (((b0 * 256 + b1) * 256 + b2) * 256 + b3).
Definition set_var (a v : Z) : M vst unit := modify (λ s, Vst (put_word a v s.(vm)) s.(badfaultfunc)).

Section args.
(** [var]: the variable [arg]; [longest]: more than the length of any argument. *)
Context (var : Z) (longest : nat).

Fixpoint vstrlen (n : nat) (p i : Z) : M vst Z :=
  match n with
  | O => diverge
  | S n =>
      c ← vld (p + i);
      match c with
      | None => fault
      | Some c => if c =? 0 then mret i else vstrlen n p (i + 1)
      end
  end.

(** A block used as an array of [size_t]: [None] is NULL.  Neither access is
    checked by the code; one outside the block is an invalid access here. *)
Definition aset (a : option (list Z)) (i v : Z) : M vst (option (list Z)) :=
  l ← of_opt a; l ← of_opt (zupd l i v); mret (Some l).
Definition aget (a : option (list Z)) (i : Z) : M vst Z := l ← of_opt a; of_opt (zlookup l i).

(** The offset and the padded length of every string, and the total. *)
Fixpoint measure_args (argv : list Z) (i offval : Z) (offsets length : option (list Z)) :
    M vst (option (list Z) * option (list Z) * Z) :=
  match argv with
  | [] => mret (offsets, length, offval)
  | arg :: argv =>
      n ← vstrlen longest arg 0;
      let len := u32 (n + 1) in
      let len := if negb (len mod 4 =? 0) then u32 (len - len mod 4 + 4) else len in
      offsets ← aset offsets i offval;
      length ← aset length i len;
      measure_args argv (i + 1) (u32 (offval + len)) offsets length
  end.

Fixpoint put_strings (argv : list Z) (i : Z) (length : option (list Z)) (argbase : Z) : M vst Z :=
  match argv with
  | [] => mret argbase
  | arg :: argv =>
      len ← aget length i;
      copyoutstr arg argbase len;;
      put_strings argv (i + 1) length (u32 (argbase + len))
  end.

(** One pointer per string and the null pointer; [n] strings are left. *)
Fixpoint put_pointers (n : nat) (i : Z) (offsets : option (list Z)) (argbase uargs : Z) : M vst unit :=
  match n with
  | O => set_var var 0;; copyout var uargs 4;; mret tt
  | S n =>
      off ← aget offsets i;
      set_var var (u32 (argbase + off));;
      copyout var uargs 4;;
      put_pointers n (i + 1) offsets argbase (u32 (uargs + 4))
  end.

(** [offsets], [length]: the blocks of [NARG_MAX] entries from [kmalloc]. *)
Definition place_args (argv : list Z) (offsets length : option (list Z)) (stackptr : Z) : M vst Z :=
  r ← measure_args argv 0 0 offsets length;
  let '(offsets, length, offval) := r : option (list Z) * option (list Z) * Z in
  argbase ← put_strings argv 0 length (u32 (stackptr - offval));
  let argbase := u32 (argbase - offval) in
  let uargs := u32 (argbase - 4 * (Z.of_nat (List.length argv) + 1)) in
  put_pointers (List.length argv) 0 offsets argbase uargs;;
  mret uargs.

(** [opened], [loaded], [stack]: an error or what the call gives; [has_as]: whether
    the process has an address space already; [created]: whether there is memory
    for the new one; [image]: the user memory it stands for; [offsets], [length]:
    the blocks for the arrays. *)
Definition runprogram (argv : list Z) (offsets length : option (list Z)) (opened : option Z) (has_as created : bool) (image : Z → option Z) (loaded stack : Z + Z) : M ex started :=
  match opened with
  | Some err => mret (Failed err)
  | None =>
      add_ref 1;;
      kassert (negb has_as);;
      if negb created then add_ref (-1);; mret (Failed ENOMEM)
      else
        modify (λ s, set_ev (Vst (λ a, if a <? USERSPACETOP then image a else s.(ev).(vm) a) s.(ev).(badfaultfunc)) s);;
        match loaded with
        | inl err => add_ref (-1);; mret (Failed err)
        | inr entrypoint =>
            match stack with
            | inl err => mret (Failed err)
            | inr stackptr =>
                uargs ← on_vst (place_args argv offsets length stackptr);
                mret (Enter (s32 (Z.of_nat (List.length argv))) uargs uargs entrypoint)
            end
        end
  end.
End args.

(** ** sys_execv *)

Definition USERSTACK : Z := USERSPACETOP.
Definition exec_address_check (a : addrspace) (addr : Z) : bool :=
  let stackbase := USERSTACK - STACKPAGES * PAGE_SIZE in
  (a.(as_vbase1) <=? addr) && (addr <? u32 (a.(as_vbase1) + a.(as_npages1) * PAGE_SIZE)) ||
  (a.(as_vbase2) <=? addr) && (addr <? u32 (a.(as_vbase2) + a.(as_npages2) * PAGE_SIZE)) ||
  (stackbase <=? addr) && (addr <? USERSTACK).

Section execv.
(** The variables [karg] and [arg], the blocks [path] and [buffer], and what [alen]
    holds before it is set. *)
Context (karg arg path buffer alen0 : Z).

(** The loop that copies the arguments in; [n] iterations are left. *)
Fixpoint gather (n : nat) (args bufend resid alen : Z) : M vst (list Z * Z) :=
  match n with
  | O => mret ([], bufend)
  | S n =>
      copyin args karg 4;;
      s ← get;
      k ← of_opt (word s.(vm) karg);
      if k =? 0 then mret ([], bufend)
      else
        r ← copyinstr k bufend resid;
        let alen := match r with inr g => g | inl _ => alen end in
        rest ← gather n (u32 (args + 4)) (u32 (bufend + alen)) (u32 (resid - alen)) alen;
        mret (u32 (ARG_MAX - resid) :: rest.1, rest.2)
  end.

Fixpoint put_argv (offsets : list Z) (argbase uargs : Z) : M vst unit :=
  match offsets with
  | [] => set_var arg 0;; copyout arg uargs 4;; mret tt
  | off :: offsets =>
      set_var arg (u32 (argbase + off));;
      copyout arg uargs 4;;
      put_argv offsets argbase (u32 (uargs + 4))
  end.

Definition move_args (args stackptr : Z) : M vst (Z * Z) :=
  r ← gather (Z.to_nat NARG_MAX) args buffer ARG_MAX alen0;
  let '(offsets, bufend) := r : list Z * Z in
  let size := Z.of_nat (length offsets) in
  let buflen := u32 (bufend - buffer) in
  let stack := u32 (stackptr - buflen) in
  let stack := u32 (stack - Z.land stack 3) in
  let argbase := stack in
  copyout buffer argbase buflen;;
  let stack := u32 (stack - (size + 1) * 4) in
  put_argv offsets argbase stack;;
  mret (size, stack).

Definition fail_with (err : Z) : M ex started :=
  modify (λ s, Ex s.(ev) s.(refs) err);; mret (Failed (-1)).

(** [oldas]: the caller's address space; [km1], [km2]: the allocations of [buffer] and
    [offsets]. *)
Definition sys_execv (oldas : option addrspace) (progname args : Z) (opened : option Z) (created : bool) (image : Z → option Z) (loaded stack : Z + Z)
    (km1 km2 : bool) : M ex started :=
  if (if oldas is Some a then negb (exec_address_check a args) else false) then fail_with EFAULT
  else if (if oldas is Some a then negb (exec_address_check a progname) else false) then fail_with EFAULT
  else
    r ← on_vst (copyinstr progname path PATH_MAX);
    match r with
    | inl err => mret (Failed err)
    | inr _ =>
        s ← get;
        c ← of_opt (s.(ev).(vm) path);
        if c =? 0 then fail_with EISDIR
        else
          match opened with
          | Some err => mret (Failed err)
          | None =>
              add_ref 1;;
              if negb created then add_ref (-1);; mret (Failed ENOMEM)
              else
                modify (λ s, set_ev (Vst (λ a, if a <? USERSPACETOP then image a else s.(ev).(vm) a) s.(ev).(badfaultfunc)) s);;
                match loaded with
                | inl err => add_ref (-1);; mret (Failed err)
                | inr entrypoint =>
                    add_ref (-1);;
                    match stack with
                    | inl err => mret (Failed err)
                    | inr stackptr =>
                        if negb km1 then fail_with ENOMEM
                        else if negb km2 then fail_with ENOMEM
                        else
                          r ← on_vst (move_args args stackptr);
                          mret (Enter r.1 r.2 r.2 entrypoint)
                    end
                end
          end
    end.
End execv.

(** ** The layout *)

(** A string in memory. *)
Definition vstr (m : Z → option Z) (a : Z) (l : list Z) : Prop :=
  (∀ i c, l !! i = Some c → m (a + Z.of_nat i) = Some c ∧ c ≠ 0) ∧ m (a + Z.of_nat (length l)) = Some 0.

Lemma vstr_ext m m' a l : (∀ x, a ≤ x ≤ a + Z.of_nat (length l) → m' x = m x) → vstr m a l → vstr m' a l.
Proof.
  intros E [H1 H2]. split; [|by rewrite E by lia]. intros i c Hi. pose proof (lookup_lt_Some _ _ _ Hi). rewrite E by lia. by apply H1.
Qed.

Lemma vstr_nonzero m a l j : vstr m a l → 0 ≤ j < Z.of_nat (length l) → ∃ c, m (a + j) = Some c ∧ c ≠ 0.
Proof.
  intros [H _] Hj. destruct (lookup_lt_is_Some_2 l (Z.to_nat j)) as [c Hc]; [lia|]. exists c. destruct (H _ _ Hc) as [H1 H2].
  by replace (a + Z.of_nat (Z.to_nat j)) with (a + j) in H1 by lia.
Qed.

Definition padded (l : list Z) : Z := (Z.of_nat (length l) + 4) / 4 * 4.

Lemma vstrlen_run n m b p l i :
  vstr m p l → 0 ≤ i ≤ Z.of_nat (length l) → (length l < Z.to_nat i + n)%nat → vstrlen n p i (Vst m b) = Ret (Z.of_nat (length l)) (Vst m b).
Proof.
  revert i. induction n as [|n IH]; intros i Hs Hi Hn; [lia|]. cbn [vstrlen]. destruct (Z.eq_dec i (Z.of_nat (length l))) as [->|].
  - destruct Hs as [_ Hz]. erewrite bind_Ret by (by rewrite vld_run, Hz). done.
  - destruct (vstr_nonzero m p l i Hs) as (c & Hc & Hne); [lia|]. erewrite bind_Ret by (by rewrite vld_run, Hc). cbv beta iota.
    rewrite (proj2 (Z.eqb_neq c 0)) by done. apply IH; [done|lia|lia].
Qed.

(** Offsets one after the other. *)
Fixpoint offsets (off : Z) (ls : list (list Z)) : list (Z * Z) :=
  match ls with [] => [] | l :: ls => (off, padded l) :: offsets (off + padded l) ls end.
Definition total (ls : list (list Z)) : Z := foldr (λ l n, padded l + n) 0 ls.

Lemma padded_bound l : Z.of_nat (length l) < padded l.
Proof. unfold padded. lia. Qed.

Lemma total_nonneg ls : 0 ≤ total ls.
Proof. induction ls as [|l ls IH]; simpl; [done|]. pose proof (padded_bound l). unfold total in *. lia. Qed.

Lemma aset_run (l : list Z) (i : nat) v s : (i < length l)%nat → aset (Some l) (Z.of_nat i) v s = Ret (Some (<[i:=v]> l)) s.
Proof. intros Hi. unfold aset. mrun. rewrite zupd_Some by lia. by rewrite Nat2Z.id. Qed.

Lemma aget_run (l : list Z) (i : nat) v s : l !! i = Some v → aget (Some l) (Z.of_nat i) s = Ret v s.
Proof. intros Hi. unfold aget. mrun. by rewrite zlookup_nat, Hi. Qed.

Lemma padded_len l : Z.of_nat (length l) + 4 < W32 →
  (let len := u32 (Z.of_nat (length l) + 1) in if negb (len mod 4 =? 0) then u32 (len - len mod 4 + 4) else len) = padded l.
Proof.
  intros Hl. cbv zeta. rewrite (u32_small (_ + 1)) by lia. unfold padded, W32 in *.
  destruct (Z.eqb_spec ((Z.of_nat (length l) + 1) mod 4) 0); cbn [negb]; rewrite ?u32_small by (unfold W32; lia); lia.
Qed.

Lemma measure_run longest m b argv ls (i : nat) off offs lens :
  Forall2 (vstr m) argv ls → Forall (λ l, (length l < longest)%nat) ls → 0 ≤ off → off + total ls < W32 →
  (i + length ls ≤ length offs)%nat → (i + length ls ≤ length lens)%nat →
  measure_args longest argv (Z.of_nat i) off (Some offs) (Some lens) (Vst m b) =
    Ret (Some (list_inserts i (fst <$> offsets off ls) offs), Some (list_inserts i (snd <$> offsets off ls) lens), off + total ls) (Vst m b).
Proof.
  intros H. revert i off offs lens. induction H as [|p l argv ls Hs H IH]; intros i off offs lens Hf Ho Hw H1 H2; cbn [measure_args offsets total foldr]; [by rewrite Z.add_0_r|].
  inversion_clear Hf as [|?? F1 F2]. cbn [total foldr] in Hw. change (foldr _ 0 ls) with (total ls) in *. pose proof (total_nonneg ls) as Ht.
  pose proof (padded_bound l) as Hp. cbn [length] in H1, H2.
  rewrite (bind_Ret _ _ _ _ _ (vstrlen_run longest m b p l 0 Hs ltac:(lia) ltac:(lia))).
  pose proof (padded_len l ltac:(unfold padded, W32 in *; lia)) as E. cbv zeta in E |- *. rewrite E.
  rewrite (bind_Ret _ _ _ _ _ (aset_run offs i off _ ltac:(lia))), (bind_Ret _ _ _ _ _ (aset_run lens i (padded l) _ ltac:(lia))).
  replace (Z.of_nat i + 1) with (Z.of_nat (S i)) by lia. rewrite u32_small by lia.
  rewrite IH; [|done|lia|lia|rewrite length_insert; lia|rewrite length_insert; lia].
  cbn [fmap list_fmap fst snd list_inserts]. rewrite <- !list_insert_inserts_lt by lia. do 2 f_equal. lia.
Qed.

(** Arrays that are not there, or too small for the arguments. *)
Lemma measure_fault longest m b argv ls (i : nat) off offs lens :
  Forall2 (vstr m) argv ls → Forall (λ l, (length l < longest)%nat) ls → ls ≠ [] →
  (∀ l, offs = Some l → (i ≤ length l < i + length ls)%nat) ∨ (∀ l, lens = Some l → (i ≤ length l < i + length ls)%nat) →
  measure_args longest argv (Z.of_nat i) off offs lens (Vst m b) = Fault.
Proof.
  intros H. revert i off offs lens. induction H as [|p l argv ls Hs H IH]; intros i off offs lens Hf Hne Hsmall; [done|]. clear Hne. cbn [measure_args].
  inversion_clear Hf as [|?? F1 F2]. rewrite (bind_Ret _ _ _ _ _ (vstrlen_run longest m b p l 0 Hs ltac:(lia) ltac:(lia))). cbn [length] in Hsmall.
  set (len := if negb _ then _ else _). replace (Z.of_nat i + 1) with (Z.of_nat (S i)) by lia.
  assert (∀ a v s, (∃ l, a = Some l ∧ (i < length l)%nat ∧ aset a (Z.of_nat i) v s = Ret (Some (<[i:=v]> l)) s) ∨
    (∀ l, a = Some l → (length l ≤ i)%nat) ∧ aset a (Z.of_nat i) v s = Fault) as Haset.
  { intros [a|] v s; [|by right]. destruct (Nat.lt_ge_cases i (length a)) as [Hi|Hi]; [left; exists a; by rewrite aset_run|right].
    split; [by intros ? [= <-]|]. unfold aset, zupd. mrun. rewrite Nat2Z.id, (proj2 (Z.leb_le 0 _)), (proj2 (Z.ltb_ge _ _)) by lia. done. }
  unfold mbind at 1, M_bind at 1. destruct (Haset offs off (Vst m b)) as [(lo & -> & Lo & ->)|[No ->]]; [|done].
  unfold mbind at 1, M_bind at 1. destruct (Haset lens len (Vst m b)) as [(ll & -> & Ll & ->)|[Nl ->]]; [|done].
  destruct Hsmall as [Hsm|Hsm]; specialize (Hsm _ eq_refl); (apply IH; [done|intros ->; simpl in Hsm; lia|]); [left|right]; intros ? [= <-]; rewrite length_insert; lia.
Qed.

(** Kernel memory does not fault. *)
Definition kernel_mapped (m : Z → option Z) : Prop := ∀ x, USERSPACETOP ≤ x → is_Some (m x).
Definition mapped (m : Z → option Z) (a n : Z) : Prop := ∀ x, a ≤ x < a + n → is_Some (m x).

Lemma stored_mapped m m' d n a k : stored m m' d n → mapped m a k → mapped m' a k.
Proof. intros [_ H] Hm x Hx. by apply H, Hm. Qed.

Lemma stored_kernel m m' d n : stored m m' d n → kernel_mapped m → kernel_mapped m'.
Proof. intros [_ H] Hm x Hx. by apply H, Hm. Qed.

Lemma stored_trans m1 m2 m3 d n : stored m1 m2 d n → stored m2 m3 d n → stored m1 m3 d n.
Proof. intros [H1 H2] [H3 H4]. split; [intros x Hx; by rewrite H3, H1|]. intros x. by rewrite H4, H2. Qed.

Lemma copyoutstr_ok m k a len l :
  kernel_mapped m → vstr m k l → USERSPACETOP ≤ k → user_block a len → Z.of_nat (length l) + 1 ≤ len → mapped m a len →
  ∃ m', copyoutstr k a len (Vst m false) = Ret (inr (Z.of_nat (length l) + 1)) (Vst m' false) ∧ stored m m' a len ∧ vstr m' a l.
Proof.
  intros Hk Hs Hkt Hub Hl Hm. pose proof Hub as (U1 & U2 & U3). unfold USERSPACETOP in *.
  destruct (copy_string_run a a k len (Vst m false)) as (r & [m' b] & E & B & Hst & Hr); [unfold W32; lia|unfold W32; lia|by left|intros n H1 H2; apply apart_user; unfold USERSPACETOP; lia| |done|].
  { intros j Hj. rewrite Z.eqb_refl. cbn. intros Hn. destruct (Hk (k + j)) as [? H]; [unfold USERSPACETOP; lia|congruence]. }
  cbn in B, Hst, Hr. subst b. assert (stored m m' a len) as Hst'.
  { destruct Hst as [[= ->]|(n & _ & Hn & H)]; [apply stored_refl|]. eapply stored_weaken; [done|lia|lia]. }
  pose proof Hs as [S1 S2]. destruct r as [e|g]; cbn in Hr.
  - exfalso. destruct Hr as [(_ & _ & Hnz)|(_ & [H|[H|[H|(j & Hj & Hnz & Hh)]]])]; unfold W32, USERSPACETOP in *; try lia.
    + destruct (Hnz (Z.of_nat (length l)) ltac:(lia)) as (c & Hc & Hne). congruence.
    + assert (j ≤ Z.of_nat (length l)) by (destruct (Z.le_gt_cases j (Z.of_nat (length l))) as [|Hgt]; [done|]; destruct (Hnz (Z.of_nat (length l)) ltac:(lia)) as (c & Hc & Hne); congruence).
      destruct Hh as [Hh|[_ Hh]]; [lia|]. destruct (Hm (a + j)) as [? ?]; [lia|congruence].
  - destruct Hr as (H1 & H2 & Hnz & Hz & Hc & _). assert (g = Z.of_nat (length l) + 1) as ->.
    { destruct (Z.lt_trichotomy (g - 1) (Z.of_nat (length l))) as [Hlt|[Heq|Hgt]]; [|lia|].
      - destruct (vstr_nonzero m k l (g - 1) Hs) as (c & Hc' & Hne); [lia|]. congruence.
      - destruct (Hnz (Z.of_nat (length l)) ltac:(lia)) as (c & Hc' & Hne). congruence. }
    exists m'. split_and!; [exact E|done|]. split; [|by rewrite Hc by lia]. intros i c Hi. pose proof (lookup_lt_Some _ _ _ Hi). rewrite Hc by lia. by apply S1.
Qed.

(** Where the strings go. *)
Definition places (base off : Z) (ls : list (list Z)) : list Z := (λ o : Z * Z, base + o.1) <$> offsets off ls.

(** A string in kernel memory stays there when user memory is written. *)
Definition kstr (m : Z → option Z) (p : Z) (l : list Z) : Prop := USERSPACETOP ≤ p ∧ vstr m p l.

Lemma kstrs_stored m m' d n argv ls : stored m m' d n → d + n ≤ USERSPACETOP → Forall2 (kstr m) argv ls → Forall2 (kstr m') argv ls.
Proof.
  intros [S1 _] Hd H. eapply Forall2_impl; [exact H|]. intros p l [H1 H2]. split; [done|]. eapply vstr_ext; [|done]. intros x Hx. apply S1. lia.
Qed.

Lemma put_strings_run argv m ls base off (i : nat) lens :
  kernel_mapped m → Forall2 (kstr m) argv ls → 0 ≤ base + off → base + off + total ls ≤ USERSPACETOP → mapped m (base + off) (total ls) →
  (∀ j o, offsets off ls !! j = Some o → lens !! (i + j)%nat = Some o.2) →
  ∃ m', put_strings argv (Z.of_nat i) (Some lens) (base + off) (Vst m false) = Ret (base + off + total ls) (Vst m' false) ∧ stored m m' (base + off) (total ls) ∧
    Forall2 (vstr m') (places base off ls) ls.
Proof.
  revert m ls off i. induction argv as [|p argv IH]; intros m ls off i Hk H Hb Ht Hm Hlen; inversion H as [|? l ? ls' [Hp Hs] H']; subst; cbn [put_strings total foldr].
  - exists m. rewrite Z.add_0_r. split_and!; [done|apply stored_refl|constructor].
  - cbn [total foldr] in Ht, Hm. change (foldr _ 0 ls') with (total ls') in *.
    pose proof (padded_bound l) as Hpb. pose proof (total_nonneg ls') as Htn.
    pose proof (Hlen 0%nat _ eq_refl) as Hl0. rewrite Nat.add_0_r in Hl0. rewrite (bind_Ret _ _ _ _ _ (aget_run lens i _ _ Hl0)). cbn [snd].
    destruct (copyoutstr_ok m p (base + off) (padded l) l) as (m1 & E1 & S1 & V1); [done|done|done|split_and!; lia|lia|intros x Hx; apply Hm; lia|].
    rewrite (bind_Ret _ _ _ _ _ E1). replace (Z.of_nat i + 1) with (Z.of_nat (S i)) by lia. rewrite u32_small by (unfold USERSPACETOP, W32 in *; lia). rewrite <- Z.add_assoc.
    destruct (IH m1 ls' (off + padded l) (S i)) as (m2 & E2 & S2 & V2); [by eapply stored_kernel|eapply kstrs_stored; [done|lia|done]|lia|lia|eapply stored_mapped; [done|]; intros x Hx; apply Hm; lia| |].
    { intros j o Hj. rewrite <- (Hlen (S j) o Hj). f_equal. lia. }
    exists m2. split_and!; [rewrite E2; f_equal; lia| |].
    + eapply stored_trans; [eapply stored_weaken; [exact S1|lia|lia]|eapply stored_weaken; [exact S2|lia|lia]].
    + constructor; [|done]. destruct S2 as [S2 _]. eapply vstr_ext; [|exact V1]. cbn [fst]. intros x Hx. apply S2. lia.
Qed.

(** One pointer. *)
Lemma put_pointer_run m var a v :
  kernel_mapped m → USERSPACETOP ≤ var → user_block a 4 → mapped m a 4 → 0 ≤ v < W32 →
  ∃ m', copyout var a 4 (Vst (put_word var v m) false) = Ret 0 (Vst m' false) ∧ word m' a = Some v ∧
    (∀ x, ¬ a ≤ x < a + 4 → ¬ var ≤ x < var + 4 → m' x = m x) ∧ (∀ x, is_Some (m' x) ↔ is_Some (m x)).
Proof.
  intros Hk Hv Hub Hm Hw. pose proof Hub as (U1 & U2 & U3). unfold USERSPACETOP, W32 in *.
  assert (∀ x, is_Some (put_word var v m x) ↔ is_Some (m x)) as Hdom.
  { intros x. unfold put_word, vput. assert (∀ i, 0 ≤ i < 4 → is_Some (m (var + i))) as Hkv by (intros i Hi; apply Hk; unfold USERSPACETOP; lia).
    pose proof (Hkv 0 ltac:(lia)) as K0. rewrite Z.add_0_r in K0.
    destruct (Z.eqb_spec x var) as [->|]; [naive_solver|]. destruct (Z.eqb_spec x (var + 1)) as [->|]; [pose proof (Hkv 1 ltac:(lia)); naive_solver|].
    destruct (Z.eqb_spec x (var + 2)) as [->|]; [pose proof (Hkv 2 ltac:(lia)); naive_solver|].
    destruct (Z.eqb_spec x (var + 3)) as [->|]; [pose proof (Hkv 3 ltac:(lia)); naive_solver|done]. }
  assert (∀ x, ¬ var ≤ x < var + 4 → put_word var v m x = m x) as Hout.
  { intros x Hx. unfold put_word, vput. rewrite !(proj2 (Z.eqb_neq x _)) by lia. done. }
  destruct (copy_block_run a a var 4 (Vst (put_word var v m) false)) as (r & [m' b] & E & B & Hr); [unfold W32; lia|unfold W32; lia|intros _; apply apart_user; unfold USERSPACETOP; lia|done|].
  cbn in B, Hr. subst b. destruct Hr as [(-> & _ & [S1 S2] & Hc)|(-> & [(Hno & _)|(_ & _ & j & Hj & [Hn|Hn])])]; [|done|..].
  - exists m'. split_and!; [exact E| | |intros x; by rewrite S2, Hdom].
    + unfold word. rewrite <- (Z.add_0_r a) at 1. rewrite (proj1 (Hc 0 ltac:(lia))), (proj1 (Hc 1 ltac:(lia))), (proj1 (Hc 2 ltac:(lia))), (proj1 (Hc 3 ltac:(lia))).
      unfold put_word, vput. rewrite !Z.add_0_r. zdecide. cbn. f_equal. lia.
    + intros x H1 H2. rewrite S1, Hout by done. done.
  - exfalso. destruct (proj2 (Hdom (var + j))) as [? ?]; [apply Hk; unfold USERSPACETOP; lia|congruence].
  - exfalso. destruct (proj2 (Hdom (a + j))) as [? ?]; [apply Hm; lia|congruence].
Qed.

Lemma put_pointers_run var base sizes m a (i : nat) offs :
  kernel_mapped m → USERSPACETOP ≤ var → 0 ≤ a → a + 4 * (Z.of_nat (length sizes) + 1) ≤ USERSPACETOP → mapped m a (4 * (Z.of_nat (length sizes) + 1)) →
  Forall (λ o : Z * Z, 0 ≤ base + o.1 < W32) sizes → (∀ j o, sizes !! j = Some o → offs !! (i + j)%nat = Some o.1) →
  ∃ m', put_pointers var (length sizes) (Z.of_nat i) (Some offs) base a (Vst m false) = Ret tt (Vst m' false) ∧
    (∀ j o, sizes !! j = Some o → word m' (a + 4 * Z.of_nat j) = Some (base + o.1)) ∧ word m' (a + 4 * Z.of_nat (length sizes)) = Some 0 ∧
    (∀ x, ¬ a ≤ x < a + 4 * (Z.of_nat (length sizes) + 1) → ¬ var ≤ x < var + 4 → m' x = m x).
Proof.
  revert m a i. induction sizes as [|[off len] sizes IH]; intros m a i Hk Hv Ha Ht Hm Hf Hoff; cbn [put_pointers length] in *; unfold set_var.
  - destruct (put_pointer_run m var a 0) as (m' & E & W & O & _); [done|done|split_and!; lia|intros x Hx; apply Hm; lia|unfold W32; lia|].
    exists m'. mrun. cbn. rewrite (bind_Ret _ _ _ _ _ E). split_and!; [done|done|by replace (a + 4 * Z.of_nat 0) with a by lia|]. intros x Hx. apply O. lia.
  - inversion_clear Hf as [|?? Hf1 Hf2]. cbn [fst] in Hf1.
    pose proof (Hoff 0%nat _ eq_refl) as Hl0. rewrite Nat.add_0_r in Hl0. rewrite (bind_Ret _ _ _ _ _ (aget_run offs i _ _ Hl0)). cbn [fst].
    rewrite (u32_small (base + off)) by done. rewrite (u32_small (a + 4)) by (unfold USERSPACETOP, W32 in *; lia).
    destruct (put_pointer_run m var a (base + off)) as (m1 & E & W & O & D); [done|done|split_and!; lia|intros x Hx; apply Hm; lia|done|].
    mrun. cbn. rewrite (bind_Ret _ _ _ _ _ E). replace (Z.of_nat i + 1) with (Z.of_nat (S i)) by lia.
    destruct (IH m1 (a + 4) (S i)) as (m' & E' & P1 & P2 & P3); [intros x Hx; by apply D, Hk|done|lia|lia|intros x Hx; apply D, Hm; lia|done| |].
    { intros j o Hj. rewrite <- (Hoff (S j) o Hj). f_equal. lia. }
    exists m'. split_and!; [done| |by replace (a + 4 * Z.of_nat (S (length sizes))) with (a + 4 + 4 * Z.of_nat (length sizes)) by lia|].
    + intros [|j] o; simpl; [intros [= <-]|intros Hj].
      * replace (a + 4 * Z.of_nat 0) with a by lia. unfold USERSPACETOP in *. cbn [fst]. rewrite <- W. unfold word. by rewrite !P3 by lia.
      * rewrite <- (P1 j o Hj). f_equal. lia.
    + intros x H1 H2. rewrite P3, O by lia. done.
Qed.

Lemma length_offsets off ls : length (offsets off ls) = length ls.
Proof. revert off. induction ls as [|l ls IH]; intros off; simpl; [done|]. by rewrite IH. Qed.

Lemma offsets_range off ls : 0 ≤ off → Forall (λ o : Z * Z, 0 ≤ o.1 < off + total ls) (offsets off ls).
Proof.
  revert off. induction ls as [|l ls IH]; intros off Ho; cbn [offsets total foldr]; [constructor|]. change (foldr _ 0 ls) with (total ls).
  pose proof (padded_bound l). pose proof (total_nonneg ls). constructor; [simpl; lia|]. eapply Forall_impl; [apply IH; lia|]. simpl. lia.
Qed.

Lemma places_below base off ls p l i : 0 ≤ off → places base off ls !! i = Some p → ls !! i = Some l → base + off ≤ p ∧ p + Z.of_nat (length l) < base + off + total ls.
Proof.
  revert off i. induction ls as [|l' ls IH]; intros off [|i] Ho Hp Hl; try done; cbn in Hp, Hl; cbn [total foldr]; change (foldr _ 0 ls) with (total ls);
    pose proof (padded_bound l'); pose proof (total_nonneg ls).
  - injection Hp as <-. injection Hl as <-. lia.
  - specialize (IH (off + padded l') i ltac:(lia) Hp Hl). lia.
Qed.

(** The stack of a program that starts with the arguments [ls]: [argc + 1] words at
    [sp], pointers to the strings and a null pointer. *)
Definition arguments_at (m : Z → option Z) (sp : Z) (ls : list (list Z)) : Prop :=
  (∀ i l, ls !! i = Some l → ∃ p, word m (sp + 4 * Z.of_nat i) = Some p ∧ vstr m p l) ∧ word m (sp + 4 * Z.of_nat (length ls)) = Some 0.

Lemma inserted_lookup (ks l : list Z) j v : (length ks ≤ length l)%nat → ks !! j = Some v → list_inserts 0 ks l !! j = Some v.
Proof. intros Hl Hj. pose proof (lookup_lt_Some _ _ _ Hj). rewrite list_lookup_inserts by lia. by rewrite Nat.sub_0_r. Qed.

Lemma place_args_run var longest argv ls offs lens m stackptr :
  kernel_mapped m → Forall2 (kstr m) argv ls → Forall (λ l, (length l < longest)%nat) ls → USERSPACETOP ≤ var →
  let need := total ls + 4 * (Z.of_nat (length ls) + 1) in
  0 ≤ stackptr - need → stackptr ≤ USERSPACETOP → mapped m (stackptr - need) need →
  (length ls ≤ length offs)%nat → (length ls ≤ length lens)%nat →
  ∃ m', place_args var longest argv (Some offs) (Some lens) stackptr (Vst m false) = Ret (stackptr - need) (Vst m' false) ∧ arguments_at m' (stackptr - need) ls.
Proof.
  intros Hk Hs Hl Hv need H0 Htop Hm Ho Hn. pose proof (total_nonneg ls) as Htn. pose proof (Forall2_length _ _ _ Hs) as Elen. unfold place_args.
  assert (Forall2 (vstr m) argv ls) as Hs' by (eapply Forall2_impl; [exact Hs|]; by intros ? ? [_ ?]).
  assert (length (offsets 0 ls) = length ls) as Lo by apply length_offsets. unfold USERSPACETOP in Htop.
  change 0 with (Z.of_nat 0) at 1. rewrite (bind_Ret _ _ _ _ _ (measure_run longest m false argv ls 0 0 offs lens Hs' Hl ltac:(lia) ltac:(unfold W32; lia) Ho Hn)).
  rewrite Z.add_0_l. set (base := stackptr - total ls). rewrite (u32_small base) by (unfold W32; lia).
  destruct (put_strings_run argv m ls base 0 0 (list_inserts 0 (snd <$> offsets 0 ls) lens)) as (m1 & E1 & S1 & V1);
    [done|done|lia|unfold USERSPACETOP; lia|intros x Hx; apply Hm; lia| |].
  { intros j o Hj. rewrite Nat.add_0_l. apply inserted_lookup; [rewrite length_fmap; lia|]. by rewrite list_lookup_fmap, Hj. }
  rewrite !Z.add_0_r in *. rewrite (bind_Ret _ _ _ _ _ E1). replace (base + total ls - total ls) with base by lia.
  rewrite (u32_small base), u32_small by (unfold W32; lia). cbv zeta. rewrite Elen, <- Lo.
  destruct (put_pointers_run var base (offsets 0 ls) m1 (base - 4 * (Z.of_nat (length (offsets 0 ls)) + 1)) 0 (list_inserts 0 (fst <$> offsets 0 ls) offs))
    as (m2 & E2 & P1 & P2 & P3); [by eapply stored_kernel|done|lia|unfold USERSPACETOP; lia|eapply stored_mapped; [done|]; intros x Hx; apply Hm; lia| | |].
  { eapply Forall_impl; [apply (offsets_range 0 ls); lia|]. simpl. unfold W32 in *. lia. }
  { intros j o Hj. rewrite Nat.add_0_l. apply inserted_lookup; [rewrite length_fmap; lia|]. by rewrite list_lookup_fmap, Hj. }
  rewrite (bind_Ret _ _ _ _ _ E2). exists m2. replace (stackptr - need) with (base - 4 * (Z.of_nat (length (offsets 0 ls)) + 1)) by lia. split; [done|].
  split; [|by rewrite <- Lo]. intros i l Hi. assert (∃ o, offsets 0 ls !! i = Some o) as [o Hoi] by (apply lookup_lt_is_Some_2; rewrite Lo; by eapply lookup_lt_Some).
  exists (base + o.1). split; [by apply P1|]. assert (places base 0 ls !! i = Some (base + o.1)) as Hp by (unfold places; by rewrite list_lookup_fmap, Hoi).
  eapply vstr_ext; [|by eapply (Forall2_lookup_lr _ _ _ i _ _ V1)]. destruct (places_below base 0 ls _ l i ltac:(lia) Hp Hi) as [B1 B2].
  intros x Hx. unfold USERSPACETOP in *. apply P3; lia.
Qed.

(** What [kmalloc] gave for an array of [NARG_MAX] entries. *)
Definition narg_block (a : option (list Z)) : Prop := ∀ l, a = Some l → length l = Z.to_nat NARG_MAX.


(** ** What execv does with its arguments *)

Lemma copyinstr_ok m k a len l :
  kernel_mapped m → vstr m a l → 0 ≤ a → a + Z.of_nat (length l) < USERSPACETOP → USERSPACETOP ≤ k → Z.of_nat (length l) < len → a + len ≤ W32 → len < W32 →
  ∃ m', copyinstr a k len (Vst m false) = Ret (inr (Z.of_nat (length l) + 1)) (Vst m' false) ∧
    (∀ i, 0 ≤ i ≤ Z.of_nat (length l) → m' (k + i) = m (a + i)) ∧ ∀ x, ¬ k ≤ x < k + (Z.of_nat (length l) + 1) → m' x = m x.
Proof.
  intros Hk Hs Ha Hat Hkt Hl Haw Hlw. unfold USERSPACETOP, W32 in *.
  destruct (copy_string_run a k a len (Vst m false)) as (r & [m' b] & E & B & _ & Hr); [unfold W32; lia|unfold W32; lia|by right|intros n H1 H2; apply apart_sym, apart_user; unfold USERSPACETOP in *; lia| |done|].
  { intros j Hj Hn. rewrite (proj2 (Z.eqb_neq a k)) in Hn by lia. cbn in Hn. destruct (Hk (k + j)) as [? H]; [unfold USERSPACETOP; lia|congruence]. }
  cbn in B, Hr. subst b. pose proof Hs as [S1 S2]. destruct r as [e|g]; cbn in Hr.
  - exfalso. destruct Hr as [(_ & _ & Hnz)|(_ & [H|[H|[H|(j & Hj & Hnz & Hh)]]])]; unfold W32, USERSPACETOP in *; try lia.
    + destruct (Hnz (Z.of_nat (length l)) ltac:(lia)) as (c & Hc & Hne). congruence.
    + assert (j ≤ Z.of_nat (length l)) by (destruct (Z.le_gt_cases j (Z.of_nat (length l))) as [|Hgt]; [done|]; destruct (Hnz (Z.of_nat (length l)) ltac:(lia)) as (c & Hc & Hne); congruence).
      destruct Hh as [Hh|[_ Hh]]; [lia|]. destruct (Z.eq_dec j (Z.of_nat (length l))) as [->|]; [congruence|].
      destruct (vstr_nonzero m a l j Hs) as (c & Hc & _); [lia|congruence].
  - destruct Hr as (H1 & H2 & Hnz & Hz & Hc & Ho). assert (g = Z.of_nat (length l) + 1) as ->.
    { destruct (Z.lt_trichotomy (g - 1) (Z.of_nat (length l))) as [Hlt|[Heq|Hgt]]; [|lia|].
      - destruct (vstr_nonzero m a l (g - 1) Hs) as (c & Hc' & Hne); [lia|]. congruence.
      - destruct (Hnz (Z.of_nat (length l)) ltac:(lia)) as (c & Hc' & Hne). congruence. }
    exists m'. split_and!; [exact E| |done]. intros i Hi. apply Hc. lia.
Qed.

(** [sys_execv] loses its caller's arguments: it switches to the new address space
    before it reads the argument array, so that two callers whose user memory agrees on
    nothing but the name of the program end in the same way, with the same memory and the
    same argument count and stack.  And it gives back its reference to the executable, from
    which the pages of the new program are still to be loaded. *)
Theorem execv_ignores_arguments karg arg path buffer alen0 oldas progname args image loaded stack km1 km2 name s1 s2 :
  (∀ x, USERSPACETOP ≤ x → s1.(ev).(vm) x = s2.(ev).(vm) x) → kernel_mapped s1.(ev).(vm) → s1.(ev).(badfaultfunc) = false → s2.(ev).(badfaultfunc) = false →
  s1.(refs) = s2.(refs) → s1.(ex_errno) = s2.(ex_errno) → name ≠ [] → vstr s1.(ev).(vm) progname name → vstr s2.(ev).(vm) progname name →
  0 ≤ progname → progname + Z.of_nat (length name) < USERSPACETOP → Z.of_nat (length name) < PATH_MAX → USERSPACETOP ≤ path →
  (∀ a, oldas = Some a → exec_address_check a args = true ∧ exec_address_check a progname = true) →
  let run := sys_execv karg arg path buffer alen0 oldas progname args None true image loaded stack km1 km2 in
  run s1 = run s2 ∧ ∀ argc argv sp entry s', run s1 = Ret (Enter argc argv sp entry) s' → s'.(refs) = s1.(refs).
Proof.
  intros Hkern Hk B1 B2 Hrefs Herr Hne V1 V2 Hp Hpt Hpl Hpath Hold run.
  destruct s1 as [[m1 b1] r1 e1], s2 as [[m2 b2] r2 e2]. cbn [ev vm badfaultfunc refs ex_errno] in *. subst b1 b2 r2 e2.
  assert (kernel_mapped m2) as Hk2 by (intros x Hx; rewrite <- Hkern by done; by apply Hk). unfold PATH_MAX in Hpl.
  destruct (copyinstr_ok m1 path progname 1024 name) as (m1' & E1 & C1 & O1); try done; [unfold USERSPACETOP, W32 in *; lia|].
  destruct (copyinstr_ok m2 path progname 1024 name) as (m2' & E2 & C2 & O2); try done; [unfold USERSPACETOP, W32 in *; lia|].
  destruct name as [|c0 name]; [done|]. set (name' := c0 :: name) in *.
  assert (m1' path = Some c0 ∧ m2' path = Some c0 ∧ c0 ≠ 0) as (P1 & P2 & P3).
  { destruct (proj1 V1 0%nat c0 eq_refl) as [X1 X3], (proj1 V2 0%nat c0 eq_refl) as [X2 _]. pose proof (C1 0 ltac:(lia)) as Y1. pose proof (C2 0 ltac:(lia)) as Y2.
    rewrite !Z.add_0_r in *. split_and!; congruence. }
  assert ((λ a, if a <? USERSPACETOP then image a else m1' a) = (λ a, if a <? USERSPACETOP then image a else m2' a)) as Eimg.
  { apply functional_extensionality. intros a. destruct (Z.ltb_spec a USERSPACETOP); [done|].
    destruct (decide (path ≤ a < path + (Z.of_nat (length name') + 1))) as [Hin|Hout]; [|by rewrite O1, O2, Hkern].
    replace a with (path + (a - path)) by lia. rewrite C1, C2 by lia.
    destruct (Z.eq_dec (a - path) (Z.of_nat (length name'))) as [->|]; [by rewrite (proj2 V1), (proj2 V2)|].
    destruct (lookup_lt_is_Some_2 name' (Z.to_nat (a - path))) as [c Hc]; [lia|]. destruct (proj1 V1 _ _ Hc) as [X1 _], (proj1 V2 _ _ Hc) as [X2 _].
    rewrite Z2Nat.id in X1, X2 by lia. congruence. }
  set (s0 := Ex (Vst (λ a, if a <? USERSPACETOP then image a else m1' a) false) (r1 + 1) e1).
  assert (∀ m m', copyinstr progname path 1024 (Vst m false) = Ret (inr (Z.of_nat (length name') + 1)) (Vst m' false) → m' path = Some c0 →
    (λ a, if a <? USERSPACETOP then image a else m' a) = (λ a, if a <? USERSPACETOP then image a else m1' a) →
    run (Ex (Vst m false) r1 e1) = match loaded with
      | inl err => (add_ref (-1);; mret (Failed err)) s0
      | inr entrypoint => (add_ref (-1);; match stack with
          | inl err => mret (Failed err)
          | inr stackptr => if negb km1 then fail_with ENOMEM else if negb km2 then fail_with ENOMEM
              else r ← on_vst (move_args karg arg buffer alen0 args stackptr); mret (Enter r.1 r.2 r.2 entrypoint)
          end) s0
      end) as Hrun.
  { intros m m' E P Ei. unfold run, sys_execv. replace (if oldas is Some a then negb (exec_address_check a args) else false) with false
      by (destruct oldas as [a|]; [by destruct (Hold a eq_refl) as [-> _]|done]).
    replace (if oldas is Some a then negb (exec_address_check a progname) else false) with false by (destruct oldas as [a|]; [by destruct (Hold a eq_refl) as [_ ->]|done]).
    assert (on_vst (copyinstr progname path PATH_MAX) (Ex (Vst m false) r1 e1) = Ret (inr (Z.of_nat (length name') + 1)) (Ex (Vst m' false) r1 e1)) as Ez
      by (unfold on_vst, zoom; cbn [ev]; change PATH_MAX with 1024; by rewrite E).
    rewrite (bind_Ret _ _ _ _ _ Ez). cbv beta iota. rewrite get_bind. cbn [ev vm]. rewrite P. erewrite bind_Ret by reflexivity.
    rewrite (proj2 (Z.eqb_neq c0 0)) by done. erewrite bind_Ret by reflexivity. cbn [negb]. erewrite bind_Ret by reflexivity.
    unfold set_ev. cbn [ev vm badfaultfunc refs ex_errno]. rewrite Ei. by destruct loaded. }
  split; [rewrite (Hrun m1 m1'), (Hrun m2 m2'); done|].
  intros argc argv sp entry s'. rewrite (Hrun m1 m1') by done. destruct loaded as [e|en]; [by cbn|]. erewrite bind_Ret by reflexivity.
  destruct stack as [e|sptr]; [by cbn|]. destruct km1, km2; cbn [negb]; try by cbn.
  unfold on_vst, zoom, mbind, M_bind. destruct (move_args _ _ _ _ _ _ _) as [[a1 a2] v| | |]; cbn; intros [=]; subst; cbn. lia.
Qed.

(** ** Examples *)

(** Kernel memory with the string "a" at 0x80001000, user memory with the string
    "b" at 0x1000 and one more byte. *)
Definition ex_mem (extra : option Z) : Z → option Z := λ a,
  if 0x80000000 <=? a then Some (if a =? 0x80001000 then 97 else 0)
  else if a =? 0x1000 then Some 98 else if a =? 0x1001 then Some 0 else if a =? 0x1800 then extra else None.
(** Twelve pages of stack. *)
Definition ex_stack : Z → option Z := λ a, if 0x7fff4000 <=? a then Some 0 else None.

Lemma ex_mem_kernel o : kernel_mapped (ex_mem o).
Proof. intros x Hx. unfold ex_mem, USERSPACETOP in *. by rewrite (proj2 (Z.leb_le _ _)). Qed.

Definition ex_block : option (list Z) := Some (replicate (Z.to_nat NARG_MAX) 0).
Lemma ex_block_size : narg_block ex_block.
Proof. intros l E. unfold ex_block in E. assert (l = replicate (Z.to_nat NARG_MAX) 0) as -> by congruence. apply length_replicate. Qed.


Lemma execv_ignores_arguments_witness :
  let run := sys_execv 0x80002000 0x80002004 0x80003000 0x80004000 0 None 0x1000 0x1800 None true ex_stack (inr 0x400000) (inr 0x80000000) true true in
  run (Ex (Vst (ex_mem None) false) 0 0) = run (Ex (Vst (ex_mem (Some 42)) false) 0 0).
Proof.
  assert (∀ o, vstr (ex_mem o) 0x1000 [98]) as V by (intros o; split; [|done]; intros [|i] c Hc; [by injection Hc as <-|by destruct i]).
  apply (execv_ignores_arguments 0x80002000 0x80002004 0x80003000 0x80004000 0 None 0x1000 0x1800 ex_stack (inr 0x400000) (inr 0x80000000) true true [98]
    (Ex (Vst (ex_mem None) false) 0 0) (Ex (Vst (ex_mem (Some 42)) false) 0 0)); try done; [|apply ex_mem_kernel|apply V|apply V].
  intros x Hx. cbn [ev vm]. unfold ex_mem, USERSPACETOP in *. by rewrite (proj2 (Z.leb_le _ _)).
Defined.
