(* ===== verification/Proc.v ===== *)
(** Processes: the process table (kern/proc/proc.c) and the process system calls
    (kern/syscall/procops.c, the fork entry of kern/arch/mips/syscall/syscall.c).

    The table is [procarr], the processes in the order they were added, and
    [codes], the exit codes in the order they were added; a process is known by
    its address ([p_ptr]).  Blocks from [kmalloc] are not initialised: what a
    field held before is an argument ([raw]).  [allocs] says which allocations
    succeed.  The interleaving of [sys_waitpid] with [sys__exit] is modelled on
    top of the lock and condition-variable machine. *)

From Stdlib Require Import ZArith Lia.
From stdpp Require Import base numbers list relations sets.
From S2P Require Import Prelude Spinlock Coremap Addrspace Interleave LockCv.

Definition PID_MIN : Z := 2.
Definition PID_MAX : Z := 32767.
Definition MAX_fd_table : Z := 64.

Record proc := Proc {
  p_ptr : nat;
  p_name : Z;
  p_pid : Z;
  p_cwd : option nat;
  p_addrspace : option addrspace;
  fd_table : list (option nat);
  open_num : Z;
}.

Record exitc := Exitc { x_pid : Z; x_code : Z }.

Record ptab := Ptab {
  procarr : list proc;
  codes : list exitc;
  next_ptr : nat;
  errno : Z;
}.

Definition set_errno (e : Z) (s : ptab) : ptab := Ptab s.(procarr) s.(codes) s.(next_ptr) e.

(** ** proc.c *)

Fixpoint find_proc_in (pid : Z) (l : list proc) : option proc :=
  match l with
  | [] => None
  | p :: l => if p.(p_pid) =? pid then Some p else find_proc_in pid l
  end.
Definition find_proc (pid : Z) (s : ptab) : option proc := find_proc_in pid s.(procarr).

Fixpoint find_exitc_in (pid : Z) (l : list exitc) : option exitc :=
  match l with
  | [] => None
  | c :: l => if c.(x_pid) =? pid then Some c else find_exitc_in pid l
  end.
Definition find_exitc (pid : Z) (s : ptab) : option exitc := find_exitc_in pid s.(codes).

(** The loop that looks for a free pid from [curid] on; without one the field is
    left as it was. *)
Fixpoint first_pid (n : nat) (curid raw : Z) (s : ptab) : Z :=
  match n with
  | O => raw
  | S n => match find_proc curid s with None => curid | Some _ => first_pid n (curid + 1) raw s end
  end.
Definition new_pid (raw : Z) (s : ptab) : Z := first_pid (Z.to_nat (PID_MAX - PID_MIN + 1)) PID_MIN raw s.

(** Which [kmalloc]s, [kstrdup]s and additions to an array succeed; [new_thread]:
    that [thread_fork] does. *)
Record allocs := Allocs {
  k_proc : bool; k_name : bool; k_exitc : bool; k_fd : bool; k_tf : bool;
  add_proc : bool; add_code : bool; new_thread : bool;
}.

(** [procarray_add] and the new exit-code entry; failures of the two adds are
    ignored by the code, a failed [kmalloc] of the entry is a NULL access. *)
Definition register (al : allocs) (p : proc) : M ptab unit :=
  s ← get;
  modify (λ s, Ptab (if al.(add_proc) then s.(procarr) ++ [p] else s.(procarr)) s.(codes)
                 (S s.(next_ptr)) s.(errno));;
  if negb al.(k_exitc) then fault
  else modify (λ s, Ptab s.(procarr)
                      (if al.(add_code) then s.(codes) ++ [Exitc p.(p_pid) (-1)] else s.(codes))
                      s.(next_ptr) s.(errno)).

(** The two arrays of the table exist here: [proc_bootstrap] makes the first
    before the first call, and that call makes the second. *)
Definition proc_create (al : allocs) (raw : proc) (name : Z) : M ptab (option proc) :=
  if negb al.(k_proc) then mret None
  else if negb al.(k_name) then mret None
  else
    s ← get;
    let p := Proc s.(next_ptr) name (new_pid raw.(p_pid) s) None None
               (if al.(k_fd) then raw.(fd_table) else []) 0 in
    register al p;;
    mret (Some p).

(** [cwd]: the working directory of the current process. *)
Definition proc_create_runprogram (al : allocs) (raw : proc) (cwd : option nat) (name : Z) :
    M ptab (option proc) :=
  p ← proc_create al raw name;
  mret ((λ p, Proc p.(p_ptr) p.(p_name) p.(p_pid)
                (match cwd with Some d => Some d | None => p.(p_cwd) end) None p.(fd_table)
                p.(open_num)) <$> p).

(** ** Trap frames *)

Record trapframe := Trapframe {
  tf_vaddr : Z; tf_status : Z; tf_cause : Z; tf_lo : Z; tf_hi : Z; tf_ra : Z; tf_at : Z;
  tf_v0 : Z; tf_v1 : Z; tf_a0 : Z; tf_a1 : Z; tf_a2 : Z; tf_a3 : Z;
  tf_t0 : Z; tf_t1 : Z; tf_t2 : Z; tf_t3 : Z; tf_t4 : Z; tf_t5 : Z; tf_t6 : Z; tf_t7 : Z;
  tf_s0 : Z; tf_s1 : Z; tf_s2 : Z; tf_s3 : Z; tf_s4 : Z; tf_s5 : Z; tf_s6 : Z; tf_s7 : Z;
  tf_t8 : Z; tf_t9 : Z; tf_k0 : Z; tf_k1 : Z; tf_gp : Z; tf_sp : Z; tf_s8 : Z; tf_epc : Z;
}.

(** The copy [sys_fork] makes on the heap. *)
Definition copy_trapframe (tf : trapframe) : trapframe :=
  Trapframe tf.(tf_vaddr) tf.(tf_status) tf.(tf_cause) tf.(tf_lo) tf.(tf_hi) tf.(tf_ra) tf.(tf_at)
    tf.(tf_v0) tf.(tf_v1) tf.(tf_a0) tf.(tf_a1) tf.(tf_a2) tf.(tf_a3)
    tf.(tf_t0) tf.(tf_t1) tf.(tf_t2) tf.(tf_t3) tf.(tf_t4) tf.(tf_t5) tf.(tf_t6) tf.(tf_t7)
    tf.(tf_s0) tf.(tf_s1) tf.(tf_s2) tf.(tf_s3) tf.(tf_s4) tf.(tf_s5) tf.(tf_s6) tf.(tf_s7)
    tf.(tf_t8) tf.(tf_t9) tf.(tf_k0) tf.(tf_k1) tf.(tf_gp) tf.(tf_sp) tf.(tf_s8) tf.(tf_epc).

(** The frame [enter_forked_process] goes to user mode with. *)
Definition forked_trapframe (ptf : trapframe) : trapframe :=
  Trapframe ptf.(tf_vaddr) ptf.(tf_status) ptf.(tf_cause) ptf.(tf_lo) ptf.(tf_hi) ptf.(tf_ra)
    ptf.(tf_at) 0 ptf.(tf_v1) ptf.(tf_a0) ptf.(tf_a1) ptf.(tf_a2) 0
    ptf.(tf_t0) ptf.(tf_t1) ptf.(tf_t2) ptf.(tf_t3) ptf.(tf_t4) ptf.(tf_t5) ptf.(tf_t6) ptf.(tf_t7)
    ptf.(tf_s0) ptf.(tf_s1) ptf.(tf_s2) ptf.(tf_s3) ptf.(tf_s4) ptf.(tf_s5) ptf.(tf_s6) ptf.(tf_s7)
    ptf.(tf_t8) ptf.(tf_t9) ptf.(tf_k0) ptf.(tf_k1) ptf.(tf_gp) ptf.(tf_sp) ptf.(tf_s8)
    (u32 (ptf.(tf_epc) + 4)).

(** The end of [syscall]: [err] is what the variable holds, [retval] the value. *)
Definition syscall_return (err retval : Z) (tf : trapframe) : trapframe :=
  let '(v0, a3) := if negb (err =? 0) then (u32 err, 1) else (u32 retval, 0) in
  Trapframe tf.(tf_vaddr) tf.(tf_status) tf.(tf_cause) tf.(tf_lo) tf.(tf_hi) tf.(tf_ra) tf.(tf_at)
    v0 tf.(tf_v1) tf.(tf_a0) tf.(tf_a1) tf.(tf_a2) a3
    tf.(tf_t0) tf.(tf_t1) tf.(tf_t2) tf.(tf_t3) tf.(tf_t4) tf.(tf_t5) tf.(tf_t6) tf.(tf_t7)
    tf.(tf_s0) tf.(tf_s1) tf.(tf_s2) tf.(tf_s3) tf.(tf_s4) tf.(tf_s5) tf.(tf_s6) tf.(tf_s7)
    tf.(tf_t8) tf.(tf_t9) tf.(tf_k0) tf.(tf_k1) tf.(tf_gp) tf.(tf_sp) tf.(tf_s8)
    (u32 (tf.(tf_epc) + 4)).

(** [err] after the case of a call that returned [retval] and left [errno]: it
    is assigned only when the value is negative.  [err0] is what the variable
    held on entry; it is never initialised. *)
Definition syscall_err (err0 retval errno : Z) : Z := if retval <? 0 then errno else err0.

(** ** procops.c *)

Definition sys_getpid (cur : proc) : Z := cur.(p_pid).

(** The result and what the child starts from: its process and the copied frame.
    The name is NULL, 0, when [kstrdup] fails.  The result of [thread_fork] is
    ignored: without a thread the child's pid is returned all the same. *)
Definition sys_fork (al : allocs) (raw cur : proc) (tf : trapframe) :
    M ptab (Z * option (proc * trapframe)) :=
  s ← get;
  if Z.of_nat (length s.(procarr)) =? PID_MAX - PID_MIN then
    modify (set_errno EMPROC);; mret (0, None)
  else if negb al.(k_proc) then fault
  else if negb al.(k_fd) then fault
  else
    let p := Proc s.(next_ptr) (if al.(k_name) then cur.(p_name) else 0) (new_pid raw.(p_pid) s) cur.(p_cwd)
               raw.(p_addrspace) cur.(fd_table) 0 in
    register al p;;
    if negb al.(k_tf) then fault
    else mret (p.(p_pid), if al.(new_thread) then Some (p, copy_trapframe tf) else None).

Definition MKWAIT_EXIT (x : Z) : Z := Z.lor (s32 (Z.shiftl x 2)) 0.
Definition WEXITSTATUS (x : Z) : Z := Z.shiftr x 2.
Definition WIFEXITED (x : Z) : bool := Z.land x 3 =? 0.

(** The first entry of [pid] gets the code. *)
Fixpoint set_code_in (pid code : Z) (l : list exitc) : list exitc :=
  match l with
  | [] => []
  | c :: l => if c.(x_pid) =? pid then Exitc pid code :: l else c :: set_code_in pid code l
  end.

(** The first entry that is the process itself goes. *)
Fixpoint remove_proc (ptr : nat) (l : list proc) : list proc :=
  match l with
  | [] => []
  | p :: l => if (p.(p_ptr) =? ptr)%nat then l else p :: remove_proc ptr l
  end.

(** What [sys__exit] does to the tables; it then broadcasts on the process's
    condition variable, and the thread exits. *)
Definition sys__exit (cur : proc) (exitcode : Z) : M ptab unit :=
  let exitcode := MKWAIT_EXIT exitcode in
  s ← get;
  match find_exitc cur.(p_pid) s with
  | Some _ => modify (λ s, Ptab s.(procarr) (set_code_in cur.(p_pid) exitcode s.(codes)) s.(next_ptr) s.(errno))
  | None => mret tt
  end;;
  modify (λ s, Ptab (remove_proc cur.(p_ptr) s.(procarr)) s.(codes) s.(next_ptr) s.(errno)).

Definition procops_valid_address_check (a : addrspace) (addr : Z) : bool :=
  let stackbase := USERSTACK - 12 * PAGE_SIZE in
  ((a.(as_vbase1) <=? addr) && (addr <? u32 (a.(as_vbase1) + a.(as_npages1) * PAGE_SIZE))) ||
  ((a.(as_vbase2) <=? addr) && (addr <? u32 (a.(as_vbase2) + a.(as_npages2) * PAGE_SIZE))) ||
  ((stackbase <=? addr) && (addr <? USERSTACK)).

(** [others]: what the rest of the system does each time the waiter sleeps in
    [cv_wait].  The result is the value and what is stored through [status]. *)
Definition sys_waitpid (fuel : nat) (others : M ptab unit) (cur : proc) (pid status options : Z) :
    M ptab (Z * option Z) :=
  if negb (options =? 0) then modify (set_errno EINVAL);; mret (-1, None)
  else if pid =? cur.(p_pid) then mret (pid, None)
  else if match cur.(p_addrspace) with
          | Some a => negb (procops_valid_address_check a status)
          | None => false
          end then modify (set_errno EFAULT);; mret (-1, None)
  else
    while_do fuel (gets (λ s, bool_decide (is_Some (find_proc pid s)))) others;;
    s ← get;
    match find_exitc pid s with
    | Some c => mret (pid, Some c.(x_code))
    | None => modify (set_errno ESRCH);; mret (-1, None)
    end.

(** ** The table's invariant *)

Record ptab_ok (s : ptab) : Prop := PtabOk {
  po_pids : NoDup (p_pid <$> s.(procarr));
  po_range : Forall (λ p, PID_MIN ≤ p.(p_pid) ≤ PID_MAX) s.(procarr);
  po_ptrs : NoDup (p_ptr <$> s.(procarr));
  po_fresh : Forall (λ p, (p.(p_ptr) < s.(next_ptr))%nat) s.(procarr);
  po_codes : Forall (λ p, is_Some (find_exitc_in p.(p_pid) s.(codes))) s.(procarr);
}.

Lemma find_proc_in_None pid l : find_proc_in pid l = None ↔ pid ∉ p_pid <$> l.
Proof.
  induction l as [|p l IH]; simpl; [split; [intros _; apply not_elem_of_nil|done]|].
  rewrite not_elem_of_cons. destruct (Z.eqb_spec p.(p_pid) pid) as [-> |]; [naive_solver|].
  rewrite IH. naive_solver.
Qed.

Lemma find_proc_in_Some pid l p : find_proc_in pid l = Some p → p ∈ l ∧ p.(p_pid) = pid.
Proof.
  induction l as [|q l IH]; simpl; [done|]. destruct (Z.eqb_spec q.(p_pid) pid).
  - intros [= ->]. split; [left|done].
  - intros [? ?]%IH. split; [by right|done].
Qed.

Lemma find_proc_in_app pid l l' :
  find_proc_in pid (l ++ l') = match find_proc_in pid l with Some p => Some p | None => find_proc_in pid l' end.
Proof. induction l as [|p l IH]; simpl; [done|]. by destruct (p.(p_pid) =? pid). Qed.

(** The scan stops at the first free pid, if there is one among the [n] it looks
    at. *)
Lemma first_pid_spec n cur raw s :
  (∃ k, cur ≤ k < cur + Z.of_nat n ∧ find_proc k s = None) →
  let r := first_pid n cur raw s in
  cur ≤ r < cur + Z.of_nat n ∧ find_proc r s = None ∧
  ∀ k, cur ≤ k < r → is_Some (find_proc k s).
Proof.
  revert cur. induction n as [|n IH]; intros cur (k & Hk & Hf); [lia|]. simpl.
  destruct (find_proc cur s) as [p|] eqn:E.
  - destruct (IH (cur + 1)) as (H1 & H2 & H3).
    { exists k. split; [|done]. assert (k ≠ cur) by congruence. lia. }
    split; [lia|]. split; [done|]. intros j Hj. destruct (decide (j = cur)) as [-> |]; [by rewrite E|].
    apply H3. lia.
  - split; [lia|]. split; [done|]. lia.
Qed.

(** Among more pids than there are processes one is free. *)
Lemma free_pid_exists s (n : nat) cur :
  (length s.(procarr) < n)%nat → ∃ k, cur ≤ k < cur + Z.of_nat n ∧ find_proc k s = None.
Proof.
  intros Hlen. destruct (decide (Exists (λ k, find_proc k s = None) (seqZ cur (Z.of_nat n)))) as [H|H].
  - apply Exists_exists in H as (k & Hk & Hf). apply elem_of_seqZ in Hk. eauto.
  - apply not_Exists_Forall in H; [|intros ?; apply _]. exfalso.
    assert (seqZ cur (Z.of_nat n) ⊆+ (p_pid <$> s.(procarr))) as Hsub.
    { apply NoDup_submseteq; [apply NoDup_seqZ|]. intros k Hk.
      rewrite Forall_forall in H. specialize (H k Hk).
      destruct (find_proc k s) as [p|] eqn:E; [|done]. apply find_proc_in_Some in E as [E <-].
      by apply list_elem_of_fmap_2. }
    apply submseteq_length in Hsub. rewrite length_fmap, length_seqZ in Hsub. lia.
Qed.

Lemma new_pid_spec raw s :
  Z.of_nat (length s.(procarr)) ≤ PID_MAX - PID_MIN →
  let r := new_pid raw s in
  PID_MIN ≤ r ≤ PID_MAX ∧ find_proc r s = None ∧ ∀ k, PID_MIN ≤ k < r → is_Some (find_proc k s).
Proof.
  intros Hlen. unfold new_pid, PID_MIN, PID_MAX in *.
  destruct (first_pid_spec (Z.to_nat (32767 - 2 + 1)) 2 raw s) as (H1 & H2 & H3); [|cbv zeta; split; [lia|auto]].
  apply free_pid_exists. lia.
Qed.

Lemma find_exitc_in_app pid l l' :
  find_exitc_in pid (l ++ l') =
  match find_exitc_in pid l with Some c => Some c | None => find_exitc_in pid l' end.
Proof. induction l as [|c l IH]; simpl; [done|]. by destruct (c.(x_pid) =? pid). Qed.

(** A process with a fresh pid and address joins the table. *)
Lemma ptab_ok_add s p e :
  ptab_ok s → find_proc p.(p_pid) s = None → PID_MIN ≤ p.(p_pid) ≤ PID_MAX → p.(p_ptr) = s.(next_ptr) →
  ptab_ok (Ptab (s.(procarr) ++ [p]) (s.(codes) ++ [Exitc p.(p_pid) (-1)]) (S s.(next_ptr)) e).
Proof.
  intros [H1 H2 H3 H4 H5] Hf%find_proc_in_None Hr Hp. split; simpl; rewrite ?fmap_app, ?Forall_app, ?Forall_singleton.
  - apply NoDup_app. split_and!; [done| |apply NoDup_singleton].
    intros x Hx Hy. simpl in Hy. apply list_elem_of_singleton in Hy as ->. done.
  - done.
  - apply NoDup_app. split_and!; [done| |apply NoDup_singleton].
    intros x (q & -> & Hq)%list_elem_of_fmap Hy. simpl in Hy. apply list_elem_of_singleton in Hy.
    rewrite Forall_forall in H4. specialize (H4 q Hq). lia.
  - split; [|lia]. eapply Forall_impl; [exact H4|]. intros q Hq. simpl in *. lia.
  - split.
    + eapply Forall_impl; [exact H5|]. intros q [c Hc]. rewrite find_exitc_in_app, Hc. done.
    + rewrite find_exitc_in_app. destruct (find_exitc_in _ _); [done|]. simpl. by rewrite Z.eqb_refl.
Qed.

Definition all_alloc : allocs := Allocs true true true true true true true true.

(** [ext b l x]: [l] with [x] added at the end, if the addition succeeds. *)
Definition ext {A} (b : bool) (l : list A) (x : A) : list A := if b then l ++ [x] else l.

(** The blocks [sys_fork] uses without looking whether it got them. *)
Definition fork_blocks (al : allocs) : bool := al.(k_proc) && al.(k_fd) && al.(k_exitc) && al.(k_tf).

(** C32. Forking, for every outcome of the allocations.  While there is room, and
    the four blocks that are used unchecked are there, the parent gets the lowest pid
    no live process has.  The child has the parent's open files and directory, no
    opens of its own, and starts with a copy of the parent's registers; only when
    [thread_fork] fails, which is not looked at, there is no child to start and the
    parent gets the pid all the same.  The child is added to the table and an
    entry for its pid with exit code -1, not yet set, to the exit codes, each if its
    array can grow.  With both, the table stays consistent (distinct pids in range,
    distinct processes, an exit-code entry for each), the pid leads to the child,
    and it leads to the new exit-code entry unless it was in use before: then the
    entry of its first use is still the one found.  Without one of the blocks the
    kernel writes through NULL.  When the table is full the call returns 0, the value
    the child would see, and sets [errno]. *)
Theorem sys_fork_spec (al : allocs) (raw cur : proc) (tf : trapframe) (s : ptab) :
  ptab_ok s → Z.of_nat (length s.(procarr)) ≤ PID_MAX - PID_MIN →
  if Z.of_nat (length s.(procarr)) =? PID_MAX - PID_MIN then
    sys_fork al raw cur tf s = Ret (0, None) (set_errno EMPROC s)
  else if fork_blocks al then
    ∃ child s', let pid := child.(p_pid) in
      sys_fork al raw cur tf s = Ret (pid, if al.(new_thread) then Some (child, tf) else None) s' ∧
      find_proc pid s = None ∧ PID_MIN ≤ pid ≤ PID_MAX ∧ (∀ k, PID_MIN ≤ k < pid → is_Some (find_proc k s)) ∧
      child.(fd_table) = cur.(fd_table) ∧ child.(p_cwd) = cur.(p_cwd) ∧ child.(open_num) = 0 ∧
      s'.(procarr) = ext al.(add_proc) s.(procarr) child ∧
      s'.(codes) = ext al.(add_code) s.(codes) (Exitc pid (-1)) ∧ s'.(errno) = s.(errno) ∧
      (al.(add_proc) = true → al.(add_code) = true →
       ptab_ok s' ∧ find_proc pid s' = Some child ∧
       find_exitc pid s' = match find_exitc pid s with Some old => Some old | None => Some (Exitc pid (-1)) end)
  else sys_fork al raw cur tf s = Fault.
Proof.
  intros Hok Hlen. unfold sys_fork. destruct (_ =? _) eqn:E; rewrite get_bind, E; [done|]. clear E.
  destruct (new_pid_spec raw.(p_pid) s Hlen) as (H1 & H2 & H3). destruct al as [kp kn ke kf kt ap ac nt]. cbn.
  destruct kp, kf, ke, kt; try done. cbn. set (p := Proc _ _ _ _ _ _ _).
  exists p, (Ptab (ext ap s.(procarr) p) (ext ac s.(codes) (Exitc p.(p_pid) (-1))) (S s.(next_ptr)) s.(errno)).
  split; [destruct tf; reflexivity|]. split_and!; try done; try apply H1. intros -> ->.
  split; [by apply ptab_ok_add|]. unfold find_proc, find_exitc in *; cbn [procarr codes ext].
  rewrite find_proc_in_app, find_exitc_in_app. change (find_proc_in p.(p_pid) s.(procarr) = None) in H2.
  rewrite H2. cbn [find_proc_in find_exitc_in x_pid]. by rewrite !Z.eqb_refl.
Qed.

Lemma find_set_code pid code l :
  find_exitc_in pid (set_code_in pid code l) = (λ _, Exitc pid code) <$> find_exitc_in pid l.
Proof.
  induction l as [|c l IH]; simpl; [done|]. destruct (Z.eqb_spec c.(x_pid) pid); simpl.
  - by rewrite Z.eqb_refl.
  - by rewrite (proj2 (Z.eqb_neq _ _)) by done.
Qed.

Lemma remove_proc_gone c l :
  NoDup (p_pid <$> l) → NoDup (p_ptr <$> l) → c ∈ l → find_proc_in c.(p_pid) (remove_proc c.(p_ptr) l) = None.
Proof.
  induction l as [|p l IH]; simpl; intros Hp Hq Hc; [by apply not_elem_of_nil in Hc|].
  apply NoDup_cons in Hp as [Hp1 Hp2], Hq as [Hq1 Hq2]. apply elem_of_cons in Hc as [-> |Hc].
  - rewrite Nat.eqb_refl. by apply find_proc_in_None.
  - destruct (Nat.eqb_spec p.(p_ptr) c.(p_ptr)) as [Heq|Hne].
    + destruct Hq1. rewrite Heq. by apply list_elem_of_fmap_2.
    + simpl. destruct (Z.eqb_spec p.(p_pid) c.(p_pid)) as [Heq|]; [|by apply IH].
      destruct Hp1. rewrite Heq. by apply list_elem_of_fmap_2.
Qed.

Lemma find_proc_in_elem c l : NoDup (p_pid <$> l) → c ∈ l → find_proc_in c.(p_pid) l = Some c.
Proof.
  induction l as [|p l IH]; simpl; intros Hp Hc; [by apply not_elem_of_nil in Hc|].
  apply NoDup_cons in Hp as [Hp1 Hp2]. apply elem_of_cons in Hc as [-> |Hc]; [by rewrite Z.eqb_refl|].
  destruct (Z.eqb_spec p.(p_pid) c.(p_pid)) as [Heq|]; [|by apply IH].
  destruct Hp1. rewrite Heq. by apply list_elem_of_fmap_2.
Qed.

Lemma mkwait_exit_status e : -536870912 ≤ e < 536870912 →
  WEXITSTATUS (MKWAIT_EXIT e) = e ∧ WIFEXITED (MKWAIT_EXIT e) = true.
Proof.
  intros He. unfold MKWAIT_EXIT, WEXITSTATUS, WIFEXITED. rewrite Z.lor_0_r, Z.shiftl_mul_pow2 by lia.
  change (2 ^ 2) with 4. assert (s32 (e * 4) = e * 4) as -> by (unfold s32; lia).
  rewrite Z.shiftr_div_pow2 by lia. change 3 with (Z.ones 2). rewrite Z.land_ones by lia.
  change (2 ^ 2) with 4. split; [lia|]. apply Z.eqb_eq. lia.
Qed.

(** C33. Exit and wait: a parent that waits for a live process, which exits with
    code [e] while the parent sleeps, gets its pid and a status that decodes to
    "exited with code [e]"; the pid is free afterwards.  This holds also when
    the pid was used before and the table still has the old exit codes. *)
Theorem waitpid_collects_exit (parent child : proc) (e status : Z) (s : ptab) :
  ptab_ok s → child ∈ s.(procarr) → child.(p_pid) ≠ parent.(p_pid) →
  match parent.(p_addrspace) with Some a => procops_valid_address_check a status = true | None => True end →
  -536870912 ≤ e < 536870912 →
  ∃ code s', sys_waitpid 2 (sys__exit child e) parent child.(p_pid) status 0 s =
               Ret (child.(p_pid), Some code) s' ∧
    WIFEXITED code = true ∧ WEXITSTATUS code = e ∧ find_proc child.(p_pid) s' = None.
Proof.
  intros Hok Hc Hne Hst He. destruct (mkwait_exit_status e He) as [W1 W2].
  set (s1 := Ptab (remove_proc child.(p_ptr) s.(procarr))
               (set_code_in child.(p_pid) (MKWAIT_EXIT e) s.(codes)) s.(next_ptr) s.(errno)).
  destruct Hok as [H1 H2 H3 H4 H5]. rewrite Forall_forall in H5. destruct (H5 _ Hc) as [c Hcode].
  assert (sys__exit child e s = Ret tt s1) as Hexit.
  { unfold sys__exit. rewrite get_bind. unfold find_exitc. by rewrite Hcode. }
  assert (find_proc child.(p_pid) s1 = None) as Hgone by (by apply remove_proc_gone).
  exists (MKWAIT_EXIT e), s1. split_and!; try done.
  unfold sys_waitpid. change (negb (0 =? 0)) with false. rewrite (proj2 (Z.eqb_neq _ _) Hne).
  assert (match parent.(p_addrspace) with
          | Some a => negb (procops_valid_address_check a status) | None => false end = false) as ->
    by (destruct (p_addrspace parent); [by rewrite Hst|done]).
  assert (while_do 2 (gets (λ s, bool_decide (is_Some (find_proc child.(p_pid) s)))) (sys__exit child e) s = Ret tt s1) as Hloop.
  { unfold while_do, gets. unfold mbind, M_bind.
    assert (find_proc child.(p_pid) s = Some child) as Hf by (by apply find_proc_in_elem).
    rewrite (bool_decide_true (is_Some (find_proc _ s))) by (by rewrite Hf).
    rewrite Hexit, bool_decide_false by (rewrite Hgone; by intros [? ?]). done. }
  rewrite (bind_Ret _ _ _ _ _ Hloop), get_bind. unfold find_exitc; simpl.
  by rewrite find_set_code, Hcode.
Qed.

(** What the two sides of a fork see: the child resumes at the instruction
    after the call with every register as the parent's but a return value of 0
    and no error; the parent resumes there too, with the child's pid, provided
    the variable [err], which a successful call never assigns, happened to hold
    0; if it held anything else the parent is told that the call failed with
    that as the error. *)
Theorem fork_return_values (tf : trapframe) (pid err0 e : Z) :
  0 < pid < W32 → 0 ≤ err0 < W32 →
  let child := forked_trapframe (copy_trapframe tf) in
  let parent := syscall_return (syscall_err err0 pid e) pid tf in
  child = syscall_return 0 0 tf ∧ child.(tf_v0) = 0 ∧ child.(tf_a3) = 0 ∧
  child.(tf_epc) = parent.(tf_epc) ∧ child.(tf_sp) = parent.(tf_sp) ∧
  (err0 = 0 → parent.(tf_v0) = pid ∧ parent.(tf_a3) = 0) ∧
  (err0 ≠ 0 → parent.(tf_v0) = err0 ∧ parent.(tf_a3) = 1).
Proof.
  intros Hp He. cbv zeta. unfold syscall_err. rewrite (proj2 (Z.ltb_ge pid 0)) by lia.
  unfold syscall_return. split_and!; try done; try (by destruct (err0 =? 0)).
  - intros ->. simpl. by rewrite u32_small by lia.
  - intros Hne. rewrite (proj2 (Z.eqb_neq _ _) Hne). simpl. by rewrite u32_small.
Qed.

(** ** Waiting and exiting, interleaved

    Thread 0 is in [sys_waitpid] for a process whose only thread, thread 1, is in
    [sys__exit].  [alive]: the process is in the table.  The lock and condition
    variable are those of the process; the waiter uses both, the exiting thread
    only broadcasts. *)

Inductive wpc := WFind | WAcquire | WCheck | WWait | WRelease | WDone.
Inductive xpc := XRemove | XBroadcast | XDone.

Record wx := Wx { alive : bool; w_pc : wpc; x_pc : xpc; plk : LockCv.lk }.

Definition holds_lock (t : nat) (l : LockCv.lk) : bool :=
  match l.(LockCv.pcs) !! t with Some LockCv.Held => true | _ => false end.

(** The next step of the waiter's own code, between calls. *)
Definition waiter_step (s : wx) : option wx :=
  match s.(w_pc) with
  | WFind => Some (Wx s.(alive) (if s.(alive) then WAcquire else WDone) s.(x_pc) s.(plk))
  | WAcquire => (λ l, Wx s.(alive) WCheck s.(x_pc) l) <$>
                  LockCv.exec_event (LockCv.Call 0 LockCv.Acquire) s.(plk)
  | WCheck => if holds_lock 0 s.(plk)
              then Some (Wx s.(alive) (if s.(alive) then WWait else WRelease) s.(x_pc) s.(plk))
              else None
  | WWait => (λ l, Wx s.(alive) WCheck s.(x_pc) l) <$>
               LockCv.exec_event (LockCv.Call 0 LockCv.Wait) s.(plk)
  | WRelease => (λ l, Wx s.(alive) WDone s.(x_pc) l) <$>
                  LockCv.exec_event (LockCv.Call 0 LockCv.Release) s.(plk)
  | WDone => None
  end.

Definition exiter_step (s : wx) : option wx :=
  match s.(x_pc) with
  | XRemove => Some (Wx false s.(w_pc) XBroadcast s.(plk))
  | XBroadcast => (λ l, Wx s.(alive) s.(w_pc) XDone l) <$>
                    LockCv.exec_event (LockCv.Call 1 LockCv.Broadcast) s.(plk)
  | XDone => None
  end.

Inductive wx_event := Waiter | Exiter | Inside (t : nat).

Definition wx_exec (e : wx_event) (s : wx) : option wx :=
  match e with
  | Waiter => waiter_step s
  | Exiter => exiter_step s
  | Inside t => (λ l, Wx s.(alive) s.(w_pc) s.(x_pc) l) <$> LockCv.step t s.(plk)
  end.

Definition wx_step (s s' : wx) : Prop := ∃ e, wx_exec e s = Some s'.

Fixpoint wx_run (l : list wx_event) (s : wx) : option wx :=
  match l with [] => Some s | e :: l => s' ← wx_exec e s; wx_run l s' end.

Definition wx_init : wx := Wx true WFind XRemove (LockCv.lk_init 2).

Lemma wx_run_rtc l s s' : wx_run l s = Some s' → rtc wx_step s s'.
Proof.
  revert s. induction l as [|e l IH]; simpl; intros s; [intros [= ->]; apply rtc_refl|].
  intros (s1 & He & Hl)%bind_Some. eapply rtc_l; [by exists e|by apply IH].
Qed.

(** The waiter looks while the process is there; the process leaves the table and
    broadcasts; the waiter goes to sleep. *)
Definition lost_schedule : list wx_event :=
  [Waiter; Waiter] ++ replicate 4 (Inside 0) ++ [Waiter; Exiter; Exiter] ++
  replicate 4 (Inside 1) ++ [Waiter] ++ replicate 12 (Inside 0).

(** A lost wakeup between waiting and exiting: since [sys__exit] takes the
    process out of the table and broadcasts without holding the process's lock,
    there is a reachable state in which the process is gone, its thread has
    finished broadcasting, the waiter is asleep on the condition variable, and
    nobody can take any step. *)
Theorem waitpid_can_sleep_forever :
  ∃ s, rtc wx_step wx_init s ∧ s.(alive) = false ∧ s.(x_pc) = XDone ∧
    s.(plk).(LockCv.pcs) = [LockCv.CAsleep; LockCv.Idle] ∧ s.(plk).(LockCv.cv_threads) = [0%nat] ∧
    ∀ s', ¬ wx_step s s'.
Proof.
  eexists (Wx false WCheck XDone (LockCv.mkLk None None None [] None [0%nat] [LockCv.CAsleep; LockCv.Idle])).
  split; [apply (wx_run_rtc lost_schedule); vm_compute; reflexivity|]. split_and!; try done.
  intros s' [[| |t] Hs]; simpl in Hs; [done|done|]. by destruct t as [|[|t]].
Qed.

(** ** Examples *)

Definition example_proc (ptr : nat) (pid : Z) : proc := Proc ptr 0 pid None None [] 0.
Definition example_ptab : ptab :=
  Ptab [example_proc 0 2; example_proc 1 3; example_proc 2 5] [Exitc 2 (-1); Exitc 3 (-1); Exitc 5 7; Exitc 5 (-1)] 3 0.

Lemma example_ptab_ok : ptab_ok example_ptab.
Proof.
  split; simpl; unfold PID_MIN, PID_MAX; try (repeat constructor; simpl; (lia || done || set_solver)).
Qed.

Definition example_tf : trapframe :=
  Trapframe 0 0 0 0 0 0 0 1 2 3 4 5 6 7 0 0 0 0 0 0 0 0 0 0 0 0 0 0 0 0 0 0 0 0 0x7fff0000 0 0x400100.

Lemma sys_fork_spec_witness :
  ∃ child s', sys_fork all_alloc (example_proc 9 99) (example_proc 0 2) example_tf example_ptab =
    Ret (child.(p_pid), Some (child, example_tf)) s' ∧ find_exitc child.(p_pid) s' = Some (Exitc child.(p_pid) (-1)) ∧ ptab_ok s'.
Proof.
  destruct (sys_fork_spec all_alloc (example_proc 9 99) (example_proc 0 2) example_tf example_ptab example_ptab_ok)
    as (child & s' & H1 & H2 & H3 & H4 & _ & _ & _ & _ & _ & _ & H5); [vm_compute; discriminate|].
  destruct (H5 eq_refl eq_refl) as (H6 & _ & H7). exists child, s'. split; [exact H1|]. split; [|exact H6].
  rewrite H7. destruct (Z.eq_dec child.(p_pid) 4) as [->|Hne]; [reflexivity|]. exfalso.
  destruct (H4 4) as [q Hq]; [|discriminate Hq]. destruct (Z.lt_ge_cases 4 child.(p_pid)) as [|Hle]; [unfold PID_MIN; lia|].
  exfalso. revert H2. unfold PID_MIN in H3. replace (p_pid child) with (if Z.eqb (p_pid child) 2 then 2 else 3) by (destruct (Z.eqb_spec (p_pid child) 2); lia).
  by destruct (_ =? 2).
Defined.

Lemma waitpid_collects_exit_witness :
  ∃ code s', sys_waitpid 2 (sys__exit (example_proc 2 5) 42) (example_proc 0 2) 5 0x400000 0 example_ptab =
    Ret (5, Some code) s' ∧ WEXITSTATUS code = 42.
Proof.
  destruct (waitpid_collects_exit (example_proc 0 2) (example_proc 2 5) 42 0x400000 example_ptab example_ptab_ok)
    as (code & s' & H1 & _ & H3 & _); simpl; [set_solver|discriminate|exact I|lia|].
  exists code, s'. split; [exact H1|exact H3].
Defined.

Lemma fork_return_values_witness :
  (forked_trapframe (copy_trapframe example_tf)).(tf_v0) = 0 ∧
  (syscall_return (syscall_err 17 5 0) 5 example_tf).(tf_a3) = 1.
Proof.
  destruct (fork_return_values example_tf 5 17 0) as (_ & H1 & _ & _ & _ & _ & H2); [done|done|].
  split; [exact H1|]. apply H2. discriminate.
Defined.
