(* ===== verification/Trap.v ===== *)
(** Traps: the exception handler (kern/arch/mips/locore/trap.c) with the dispatch
    of system calls (kern/arch/mips/syscall/syscall.c), and the ways into user
    mode.

    What the handlers call - the bus, the fault handler, the system calls - is the
    class [TrapOps] over a world [W], with the contract [TrapLaws].  The state is
    what the exception code looks at: the interrupt levels of the current thread
    (file Spinlock), its stack, its hook for bad user pointers, the two arrays the
    assembly reads for this processor, and the trap frame, which lies at [tf_addr].
    The assembly that saves and restores registers is not modelled: a call of
    [asm_usermode] is a result. *)

From Stdlib Require Import ZArith Lia.
From stdpp Require Import base numbers list sets.
From S2P Require Import Prelude Spinlock Proc.

Definition ENOSYS : Z := 1.
Definition STACK_SIZE : Z := 4096.
Definition CCA_CODE : Z := 0x3c.
Definition CCA_CODESHIFT : Z := 2.
Definition CST_KUp : Z := 8.
Definition CST_IEp : Z := 4.
Definition CST_IRQMASK : Z := 0xff00.
Definition NTRAPCODES : Z := 13.

Definition EX_IRQ : Z := 0.
Definition EX_MOD : Z := 1.
Definition EX_TLBL : Z := 2.
Definition EX_TLBS : Z := 3.
Definition EX_ADEL : Z := 4.
Definition EX_ADES : Z := 5.
Definition EX_IBE : Z := 6.
Definition EX_DBE : Z := 7.
Definition EX_SYS : Z := 8.
Definition EX_BP : Z := 9.
Definition EX_RI : Z := 10.
Definition EX_CPU : Z := 11.
Definition EX_OVF : Z := 12.

Definition VM_FAULT_READ : Z := 0.
Definition VM_FAULT_WRITE : Z := 1.
Definition VM_FAULT_READONLY : Z := 2.

(** [cpu_thread], [cpu_stack]: the entries of [cputhreads] and [cpustacks]. *)
Record tstate (W : Type) := Tstate {
  levels : splstate;
  t_in_interrupt : bool;
  t_stack : option Z;
  tm_badfaultfunc : option Z;
  cpu_thread : Z;
  cpu_stack : Z;
  tf_addr : Z;
  tf : trapframe;
  outside : W;
}.
Arguments Tstate {W} _ _ _ _ _ _ _ _ _.
Arguments levels {W} _.
Arguments t_in_interrupt {W} _.
Arguments t_stack {W} _.
Arguments tm_badfaultfunc {W} _.
Arguments cpu_thread {W} _.
Arguments cpu_stack {W} _.
Arguments tf_addr {W} _.
Arguments tf {W} _.
Arguments outside {W} _.

(** What becomes of the thread: it goes back to where it was stopped, its process
    has ended, or it has entered user mode elsewhere, with this frame. *)
Inductive after := Back | Gone | Entered (f : trapframe).

(** The calls: [sys_execv] gives a frame when it has entered the new program; the
    result of [sys__exit] stands for the end of the process. *)
Class TrapOps (W : Type) := {
  mainbus_interrupt : M (tstate W) unit;
  vm_fault : Z → Z → M (tstate W) Z;
  sys_reboot : Z → M (tstate W) Z;
  sys___time : Z → Z → M (tstate W) Z;
  sys_open : Z → Z → Z → M (tstate W) Z;
  sys_close : Z → M (tstate W) Z;
  sys_read : Z → Z → Z → M (tstate W) Z;
  sys_write : Z → Z → Z → M (tstate W) Z;
  sys_fork : trapframe → M (tstate W) Z;
  sys_waitpid : Z → Z → Z → M (tstate W) Z;
  sys_getpid : M (tstate W) Z;
  sys__exit : Z → M (tstate W) unit;
  sys_execv : Z → Z → M (tstate W) (Z + trapframe);
  errno : W → Z;
}.

Section trap.
Context {W : Type} `{!TrapOps W} (self : Z).
Implicit Types s : tstate W.

Definition set_levels (l : splstate) s : tstate W :=
  Tstate l s.(t_in_interrupt) s.(t_stack) s.(tm_badfaultfunc) s.(cpu_thread) s.(cpu_stack) s.(tf_addr) s.(tf) s.(outside).
Definition set_in_interrupt (b : bool) s : tstate W :=
  Tstate s.(levels) b s.(t_stack) s.(tm_badfaultfunc) s.(cpu_thread) s.(cpu_stack) s.(tf_addr) s.(tf) s.(outside).
Definition set_cpu (t k : Z) s : tstate W :=
  Tstate s.(levels) s.(t_in_interrupt) s.(t_stack) s.(tm_badfaultfunc) t k s.(tf_addr) s.(tf) s.(outside).
Definition set_tf (f : trapframe) s : tstate W :=
  Tstate s.(levels) s.(t_in_interrupt) s.(t_stack) s.(tm_badfaultfunc) s.(cpu_thread) s.(cpu_stack) s.(tf_addr) f s.(outside).

Definition on_levels {A} (m : M splstate A) : M (tstate W) A := zoom levels set_levels m.
Definition cpu_irqoff : M (tstate W) unit := modify (λ s, set_levels (SplState s.(levels).(t_curspl) s.(levels).(t_iplhigh_count) false) s).

Definition with_epc (a : Z) (f : trapframe) : trapframe :=
  Trapframe f.(tf_vaddr) f.(tf_status) f.(tf_cause) f.(tf_lo) f.(tf_hi) f.(tf_ra) f.(tf_at)
    f.(tf_v0) f.(tf_v1) f.(tf_a0) f.(tf_a1) f.(tf_a2) f.(tf_a3)
    f.(tf_t0) f.(tf_t1) f.(tf_t2) f.(tf_t3) f.(tf_t4) f.(tf_t5) f.(tf_t6) f.(tf_t7)
    f.(tf_s0) f.(tf_s1) f.(tf_s2) f.(tf_s3) f.(tf_s4) f.(tf_s5) f.(tf_s6) f.(tf_s7)
    f.(tf_t8) f.(tf_t9) f.(tf_k0) f.(tf_k1) f.(tf_gp) f.(tf_sp) f.(tf_s8) a.

(** ** System calls *)

(** A call that returns its value, or a negative number and [errno]. *)
Definition value_call (err0 : Z) (m : M (tstate W) Z) : M (tstate W) (Z * Z) :=
  retval ← m;
  s ← get;
  mret (syscall_err err0 retval (errno s.(outside)), retval).

(** The two results are the variables [err] and [retval]. *)
Definition dispatch (err0 callno : Z) : M (tstate W) (after + Z * Z) :=
  s ← get;
  let f := s.(tf) in
  let value m := r ← value_call err0 m; mret (inr r) in
  if callno =? 119 then err ← sys_reboot f.(tf_a0); mret (inr (err, 0))
  else if callno =? 113 then err ← sys___time f.(tf_a0) f.(tf_a1); mret (inr (err, 0))
  else if callno =? 45 then value (sys_open f.(tf_a0) f.(tf_a1) f.(tf_a2))
  else if callno =? 49 then value (sys_close f.(tf_a0))
  else if callno =? 50 then value (sys_read f.(tf_a0) f.(tf_a1) f.(tf_a2))
  else if callno =? 55 then value (sys_write f.(tf_a0) f.(tf_a1) f.(tf_a2))
  else if callno =? 0 then value (sys_fork f)
  else if callno =? 4 then value (sys_waitpid f.(tf_a0) f.(tf_a1) f.(tf_a2))
  else if callno =? 5 then retval ← sys_getpid; mret (inr (err0, retval))
  else if callno =? 3 then sys__exit f.(tf_a0);; mret (inl Gone)
  else if callno =? 2 then
    r ← sys_execv f.(tf_a0) f.(tf_a1);
    match r with
    | inr frame => mret (inl (Entered frame))
    | inl retval => s ← get; mret (inr (syscall_err err0 retval (errno s.(outside)), retval))
    end
  else mret (inr (ENOSYS, 0)).

(** [err0]: what the variable [err] holds on entry. *)
Definition syscall (err0 : Z) : M (tstate W) after :=
  s ← get;
  kassert (s.(levels).(t_curspl) =? 0);;
  kassert (s.(levels).(t_iplhigh_count) =? 0);;
  r ← dispatch err0 (s32 s.(tf).(tf_v0));
  match r with
  | inl a => mret a
  | inr (err, retval) =>
      modify (λ s, set_tf (syscall_return err retval s.(tf)) s);;
      s ← get;
      kassert (s.(levels).(t_curspl) =? 0);;
      kassert (s.(levels).(t_iplhigh_count) =? 0);;
      mret Back
  end.

(** ** Exceptions *)

(** The signal is only printed. *)
Definition kill_curthread (code : Z) : M (tstate W) after :=
  kassert (code <? NTRAPCODES);;
  kassert (negb ((code =? EX_IRQ) || (code =? EX_IBE) || (code =? EX_DBE) || (code =? EX_SYS)));;
  sys__exit code;;
  mret Gone.

Definition same_stack (p1 p2 : Z) : bool := p1 / STACK_SIZE =? p2 / STACK_SIZE.

(** The end of the handler, from the label [done2]. *)
Definition leave : M (tstate W) after :=
  s ← get;
  match s.(t_stack) with
  | None => mret Back
  | Some base =>
      modify (set_cpu self (u32 (base + STACK_SIZE)));;
      s ← get;
      kassert (same_stack (u32 (s.(cpu_stack) - 1)) s.(tf_addr));;
      mret Back
  end.
Definition done : M (tstate W) after := cpu_irqoff;; leave.

Definition interrupt : M (tstate W) after :=
  s ← get;
  let old_in := s.(t_in_interrupt) in
  modify (set_in_interrupt true);;
  let doadjust := s.(levels).(t_curspl) =? 0 in
  when doadjust
    (kassert (s.(levels).(t_iplhigh_count) =? 0);;
     modify (λ s, set_levels (SplState IPL_HIGH (s.(levels).(t_iplhigh_count) + 1) s.(levels).(irq_on)) s));;
  mainbus_interrupt;;
  s ← get;
  when doadjust
    (kassert (s.(levels).(t_curspl) =? IPL_HIGH);;
     kassert (s.(levels).(t_iplhigh_count) =? 1);;
     modify (λ s, set_levels (SplState 0 (s.(levels).(t_iplhigh_count) - 1) s.(levels).(irq_on)) s));;
  modify (set_in_interrupt old_in);;
  leave.

(** Whether the exception has been dealt with. *)
Definition page_fault (code : Z) : M (tstate W) bool :=
  s ← get;
  let fault kind := r ← vm_fault kind s.(tf).(tf_vaddr); mret (r =? 0) in
  if code =? EX_MOD then fault VM_FAULT_READONLY
  else if code =? EX_TLBL then fault VM_FAULT_READ
  else if code =? EX_TLBS then fault VM_FAULT_WRITE
  else if (code =? EX_IBE) || (code =? EX_DBE) then panic
  else mret false.

Definition fatal (code : Z) (iskern : bool) : M (tstate W) after :=
  if negb iskern then
    r ← kill_curthread code;
    match r with Back => done | r => mret r end
  else
    s ← get;
    match s.(tm_badfaultfunc) with
    | Some f => modify (λ s, set_tf (with_epc f s.(tf)) s);; done
    | None => panic
    end.

Definition trap_code (f : trapframe) : Z := Z.shiftr (Z.land f.(tf_cause) CCA_CODE) CCA_CODESHIFT.
Definition in_kernel (f : trapframe) : bool := Z.land f.(tf_status) CST_KUp =? 0.

Definition mips_trap (err0 : Z) : M (tstate W) after :=
  s ← get;
  let code := trap_code s.(tf) in
  let iskern := in_kernel s.(tf) in
  kassert (code <? NTRAPCODES);;
  match s.(t_stack) with
  | Some base => kassert (base <? s.(tf_addr));; kassert (s.(tf_addr) <? u32 (base + STACK_SIZE))
  | None => mret tt
  end;;
  if code =? EX_IRQ then interrupt
  else
    spl ← on_levels (splhigh true);
    on_levels (splx true spl);;
    if code =? EX_SYS then
      s ← get;
      kassert (s.(levels).(t_curspl) =? 0);;
      kassert (s.(levels).(t_iplhigh_count) =? 0);;
      r ← syscall err0;
      match r with Back => done | r => mret r end
    else
      handled ← page_fault code;
      if (handled : bool) then done else fatal code iskern.

(** ** Into user mode *)

Definition mips_usermode (f : trapframe) (at_ : Z) : M (tstate W) after :=
  on_levels (spl0 true);;
  cpu_irqoff;;
  s ← get;
  match s.(t_stack) with
  | None => panic
  | Some base =>
      modify (set_cpu self (u32 (base + STACK_SIZE)));;
      s ← get;
      kassert (same_stack (u32 (s.(cpu_stack) - 1)) at_);;
      mret (Entered f)
  end.

Definition new_frame (argc argv stack entry : Z) : trapframe :=
  Trapframe 0 (Z.lor (Z.lor CST_IRQMASK CST_IEp) CST_KUp) 0 0 0 0 0 0 0 argc argv 0 0
    0 0 0 0 0 0 0 0 0 0 0 0 0 0 0 0 0 0 0 0 0 stack 0 entry.

(** [at_]: the address of the frame, a variable of this function. *)
Definition enter_new_process (argc argv stack entry at_ : Z) : M (tstate W) after :=
  mips_usermode (new_frame argc argv stack entry) at_.
End trap.

(** ** What the handlers may do *)

Section contract.
Context {W : Type}.
Implicit Types s : tstate W.

(** The thread's own state; the handlers change neither it nor the frame. *)
Definition same_thread s s' : Prop :=
  s'.(t_in_interrupt) = s.(t_in_interrupt) ∧ s'.(t_stack) = s.(t_stack) ∧ s'.(tm_badfaultfunc) = s.(tm_badfaultfunc) ∧
  s'.(tf_addr) = s.(tf_addr) ∧ s'.(tf) = s.(tf).
Definition kept s s' : Prop := same_thread s s' ∧ s'.(levels) = s.(levels).
End contract.

(** A handler that returns leaves the thread as it was; a fault that cannot be
    resolved may leave the interrupt levels changed.  Nothing is said of a handler
    that does not return, as [sys_reboot] does not when it stops the machine. *)
Class TrapLaws (W : Type) `{!TrapOps W} := {
  law_interrupt (s s' : tstate W) : mainbus_interrupt s = Ret tt s' → kept s s';
  law_fault kind va r (s s' : tstate W) :
    vm_fault kind va s = Ret r s' → same_thread s s' ∧ (r = 0 → s'.(levels) = s.(levels));
  law_reboot a r (s s' : tstate W) : sys_reboot a s = Ret r s' → kept s s';
  law_time a b r (s s' : tstate W) : sys___time a b s = Ret r s' → kept s s';
  law_open a b c r (s s' : tstate W) : sys_open a b c s = Ret r s' → kept s s';
  law_close a r (s s' : tstate W) : sys_close a s = Ret r s' → kept s s';
  law_read a b c r (s s' : tstate W) : sys_read a b c s = Ret r s' → kept s s';
  law_write a b c r (s s' : tstate W) : sys_write a b c s = Ret r s' → kept s s';
  law_fork f r (s s' : tstate W) : sys_fork f s = Ret r s' → kept s s';
  law_waitpid a b c r (s s' : tstate W) : sys_waitpid a b c s = Ret r s' → kept s s';
  law_getpid r (s s' : tstate W) : sys_getpid s = Ret r s' → kept s s';
  law_execv a b r (s s' : tstate W) : sys_execv a b s = Ret (inl r) s' → kept s s';
}.

(** ** What a system call is *)

Section calls.
Context {W : Type} `{!TrapOps W} (err0 : Z).
Implicit Types s : tstate W.

Inductive reply := Failed (e : Z) | Value (v : Z).

(** What a call that ended with [err] and [retval] reports. *)
Definition report (err retval : Z) : reply := if err =? 0 then Value retval else Failed err.

(** The calls that return a value, or a negative number with [errno] set. *)
Definition value_calls (f : trapframe) : list (Z * M (tstate W) Z) :=
  [(45, sys_open f.(tf_a0) f.(tf_a1) f.(tf_a2));
   (49, sys_close f.(tf_a0));
   (50, sys_read f.(tf_a0) f.(tf_a1) f.(tf_a2));
   (55, sys_write f.(tf_a0) f.(tf_a1) f.(tf_a2));
   (0, sys_fork f);
   (4, sys_waitpid f.(tf_a0) f.(tf_a1) f.(tf_a2))].

(** On success nothing sets [err], which then has the value [err0] it had. *)
Definition value_reply (retval : Z) s : reply := report (if retval <? 0 then errno s.(outside) else err0) retval.

(** [serves f n s r s']: call number [n], made with the registers [f], takes [s]
    to [s'] and ends with [r]: it does not come back, or it replies. *)
Inductive serves (f : trapframe) : Z → tstate W → after + reply → tstate W → Prop :=
  | S_reboot err s s' : sys_reboot f.(tf_a0) s = Ret err s' → serves f 119 s (inr (report err 0)) s'
  | S_time err s s' : sys___time f.(tf_a0) f.(tf_a1) s = Ret err s' → serves f 113 s (inr (report err 0)) s'
  | S_value n call retval s s' :
      (n, call) ∈ value_calls f → call s = Ret retval s' → serves f n s (inr (value_reply retval s')) s'
  | S_getpid pid s s' : sys_getpid s = Ret pid s' → serves f 5 s (inr (report err0 pid)) s'
  | S_exit s s' : sys__exit f.(tf_a0) s = Ret tt s' → serves f 3 s (inl Gone) s'
  | S_execv frame s s' : sys_execv f.(tf_a0) f.(tf_a1) s = Ret (inr frame) s' → serves f 2 s (inl (Entered frame)) s'
  | S_execv_fails retval s s' :
      sys_execv f.(tf_a0) f.(tf_a1) s = Ret (inl retval) s' → serves f 2 s (inr (value_reply retval s')) s'
  | S_unknown n s : n ∉ [119; 113; 45; 49; 50; 55; 0; 4; 5; 3; 2] → serves f n s (inr (Failed ENOSYS)) s.

(** The registers other than [v0], [a3] and the program counter. *)
Definition others (f : trapframe) : list Z :=
  [f.(tf_vaddr); f.(tf_status); f.(tf_cause); f.(tf_lo); f.(tf_hi); f.(tf_ra); f.(tf_at);
   f.(tf_v1); f.(tf_a0); f.(tf_a1); f.(tf_a2);
   f.(tf_t0); f.(tf_t1); f.(tf_t2); f.(tf_t3); f.(tf_t4); f.(tf_t5); f.(tf_t6); f.(tf_t7);
   f.(tf_s0); f.(tf_s1); f.(tf_s2); f.(tf_s3); f.(tf_s4); f.(tf_s5); f.(tf_s6); f.(tf_s7);
   f.(tf_t8); f.(tf_t9); f.(tf_k0); f.(tf_k1); f.(tf_gp); f.(tf_sp); f.(tf_s8)].

(** The frame a call returns with: its reply, after the call instruction. *)
Definition replied (r : reply) (f f' : trapframe) : Prop :=
  match r with
  | Failed e => f'.(tf_v0) = u32 e ∧ f'.(tf_a3) = 1
  | Value v => f'.(tf_v0) = u32 v ∧ f'.(tf_a3) = 0
  end ∧ f'.(tf_epc) = u32 (f.(tf_epc) + 4) ∧ others f' = others f.

Lemma syscall_return_replied err retval f : replied (report err retval) f (syscall_return err retval f).
Proof. unfold replied, report, syscall_return, others. by destruct (err =? 0). Qed.

(** What the dispatcher returns, as a reply. *)
Definition as_reply (r : after + Z * Z) : after + reply :=
  match r with inl a => inl a | inr (err, retval) => inr (report err retval) end.
End calls.

Section outcomes.
Context {W : Type} `{!TrapOps W} `{!TrapLaws W} (self : Z).
Implicit Types s : tstate W.

(** The frame is on the thread's stack, a page of its own. *)
Definition on_stack s (base : Z) : Prop :=
  s.(t_stack) = Some base ∧ 0 ≤ base ∧ base mod 4096 = 0 ∧ base + 4096 < W32 ∧ base < s.(tf_addr) < base + 4096.

(** The processor has turned interrupts off; the recorded levels are consistent. *)
Definition trapped s : Prop :=
  s.(levels).(irq_on) = false ∧ (s.(levels).(t_curspl) = 0 ∨ s.(levels).(t_curspl) = 1) ∧ s.(levels).(t_curspl) ≤ s.(levels).(t_iplhigh_count).

(** Back in the thread, with everything as it was, the processor's entries set and
    the world as [w]. *)
Definition resumed s base (w : W) s' : Prop :=
  s'.(outside) = w ∧ s'.(levels) = s.(levels) ∧ s'.(t_in_interrupt) = s.(t_in_interrupt) ∧ s'.(t_stack) = s.(t_stack) ∧
  s'.(tm_badfaultfunc) = s.(tm_badfaultfunc) ∧ s'.(cpu_thread) = self ∧ s'.(cpu_stack) = base + 4096.

Lemma leave_wp s base (Q : after → tstate W → Prop) :
  on_stack s base → Q Back (set_cpu self (base + 4096) s) → wp (leave self) Q s.
Proof.
  intros (E & H0 & Hm & Hw & Ha) HQ. unfold leave. apply wp_get. rewrite E. unfold STACK_SIZE. rewrite u32_small by (unfold W32 in *; lia).
  apply wp_modify, wp_get. apply wp_kassert; [|by apply wp_ret]. unfold same_stack, STACK_SIZE. cbn [set_cpu cpu_stack tf_addr].
  rewrite u32_small by (unfold W32 in *; lia). apply Z.eqb_eq. lia.
Qed.

Lemma on_stack_ext s s' base : s'.(t_stack) = s.(t_stack) → s'.(tf_addr) = s.(tf_addr) → on_stack s base → on_stack s' base.
Proof. intros E1 E2 (H1 & H). split; [congruence|]. by rewrite E2. Qed.

(** [done] from a state with the levels [s] had. *)
Lemma done_wp s base s1 (Q : after → tstate W → Prop) :
  on_stack s1 base → trapped s → s1.(levels).(t_curspl) = s.(levels).(t_curspl) → s1.(levels).(t_iplhigh_count) = s.(levels).(t_iplhigh_count) →
  s1.(t_in_interrupt) = s.(t_in_interrupt) → s1.(t_stack) = s.(t_stack) → s1.(tm_badfaultfunc) = s.(tm_badfaultfunc) →
  (∀ s2, resumed s base s1.(outside) s2 → s2.(tf) = s1.(tf) → Q Back s2) → wp (done self) Q s1.
Proof.
  intros Hs (Hi & _) H1 H2 H3 H4 H5 HQ. unfold done, cpu_irqoff. apply wp_modify. eapply leave_wp; [exact Hs|]. apply HQ; [|done].
  split; [done|]. split; [|done]. simpl. rewrite H1, H2, <- Hi. by destruct s.(levels).
Qed.

(** [splhigh] and back brings the processor in line with the recorded levels. *)
Definition synced s : tstate W :=
  set_levels (SplState s.(levels).(t_curspl) s.(levels).(t_iplhigh_count) ((s.(levels).(t_curspl) =? 0) && (s.(levels).(t_iplhigh_count) =? 0))) s.

Lemma sync_levels {A} s (k : M (tstate W) A) :
  trapped s → (spl ← on_levels (splhigh true); on_levels (splx true spl);; k) s = k (synced s).
Proof.
  intros (Hi & Hc & Hn). unfold synced. destruct s as [[c n i] ii st bf ct cs ta f w]. cbn [levels t_curspl t_iplhigh_count irq_on] in *. subst i.
  unfold on_levels, zoom, splhigh, splx, splraise, spllower, set_curspl, IPL_HIGH, IPL_NONE, mbind, M_bind, get, when, modify, kassert, mret, M_ret in *. cbn.
  destruct Hc as [-> | ->]; cbn in *; [|done]. destruct (Z.eqb_spec n 0) as [->|Hne]; cbn in *; [done|].
  replace (n + 1 - 1) with n by lia. by rewrite (proj2 (Z.eqb_neq n 0)) in * by done.
Qed.

Ltac callno :=
  repeat match goal with |- context [?n =? ?c] => destruct (Z.eqb_spec n c) as [->|] end.

Lemma value_serves err0 n call s (r : after + Z * Z) s' :
  (n, call) ∈ value_calls s.(tf) → (x ← value_call err0 call; mret (inr x)) s = Ret r s' → serves err0 s.(tf) n s (as_reply r) s'.
Proof.
  intros Hin. unfold value_call, mbind, M_bind, get, mret, M_ret. destruct (call s) as [x s1| | |] eqn:Em; [|done..].
  intros E. simplify_eq/=. by apply (S_value _ _ _ _ _ _ _ Hin Em).
Qed.

(** The dispatcher returns exactly what the call does. *)
Lemma dispatch_serves err0 n s r s' :
  dispatch err0 n s = Ret r s' → serves err0 s.(tf) n s (as_reply r) s'.
Proof.
  unfold dispatch. rewrite get_bind. cbv zeta. callno; try (apply value_serves; unfold value_calls; set_solver);
    unfold mbind, M_bind, get, mret, M_ret; intros E;
    try (match type of E with context [match ?m with Ret _ _ => _ | _ => _ end] => destruct m as [x s1| | |] eqn:Em end); simplify_eq/=.
  all: try (by constructor).
  - destruct x. by constructor.
  - destruct x; simplify_eq/=; by constructor.
  - constructor. set_solver.
Qed.

Lemma value_dispatch err0 n call s retval s' :
  (n, call) ∈ value_calls s.(tf) → call s = Ret retval s' →
  dispatch err0 n s = Ret (inr (syscall_err err0 retval (errno s'.(outside)), retval)) s'.
Proof.
  intros Hin E. unfold value_calls in Hin. unfold dispatch. rewrite get_bind. cbv zeta.
  repeat (apply elem_of_cons in Hin as [Hin|Hin]; [simplify_eq; cbn -[value_call]; unfold value_call, mbind, M_bind; by rewrite E|]).
  by apply elem_of_nil in Hin.
Qed.

Lemma serves_dispatch err0 n s r s' :
  serves err0 s.(tf) n s r s' → ∃ r0, dispatch err0 n s = Ret r0 s' ∧ r = as_reply r0 ∧ r0 ≠ inl Back.
Proof.
  remember s.(tf) as f eqn:Ef. intros H. destruct H as [err s s' E|err s s' E|n call v s s' Hin E|pid s s' E|s s' E|f' s s' E|v s s' E|n s Hn]; subst f.
  3: (eexists; split; [by apply (value_dispatch err0 n call)|by split]).
  7:{ eexists. split; [unfold dispatch; rewrite get_bind; cbv zeta; rewrite !(proj2 (Z.eqb_neq _ _)) by set_solver; reflexivity|by split]. }
  all: eexists; (split; [unfold dispatch; rewrite get_bind; cbn; unfold mbind, M_bind; rewrite E; reflexivity|by split]).
Qed.

(** A call that comes back leaves the thread as it was. *)
Lemma serves_kept err0 n s r s' : serves err0 s.(tf) n s (inr r) s' → kept s s'.
Proof.
  remember s.(tf) as f eqn:Ef. remember (inr r) as r0 eqn:Er. intros H.
  destruct H as [err s s' E|err s s' E|n call v s s' Hin E|pid s s' E|s s' E|f' s s' E|v s s' E|n s Hn]; simplify_eq.
  3:{ unfold value_calls in Hin. repeat (apply elem_of_cons in Hin as [Hin|Hin]; [simplify_eq|]); [..|by apply elem_of_nil in Hin];
      eauto using law_open, law_close, law_read, law_write, law_fork, law_waitpid. }
  all: eauto using law_reboot, law_time, law_getpid, law_execv. by split.
Qed.

(** The stack checks at the start. *)
Lemma on_stack_checks s base (k : M (tstate W) after) :
  on_stack s base →
  (match s.(t_stack) with
   | Some base => kassert (base <? s.(tf_addr));; kassert (s.(tf_addr) <? u32 (base + STACK_SIZE))
   | None => mret tt
   end;; k) s = k s.
Proof.
  intros (E & H0 & Hm & Hw & Ha). rewrite E. unfold STACK_SIZE. rewrite u32_small by (unfold W32 in *; lia).
  by rewrite !(proj2 (Z.ltb_lt _ _)) by lia.
Qed.

(** The state in which the devices are asked. *)
Definition in_irq s : tstate W :=
  set_levels (SplState IPL_HIGH (if s.(levels).(t_curspl) =? 0 then 1 else s.(levels).(t_iplhigh_count)) false) (set_in_interrupt true s).

Lemma trap_interrupt err0 s base s1 :
  trap_code s.(tf) = EX_IRQ → on_stack s base → trapped s → (s.(levels).(t_curspl) = 0 → s.(levels).(t_iplhigh_count) = 0) →
  mainbus_interrupt (in_irq s) = Ret tt s1 →
  wp (mips_trap self err0) (λ a s', a = Back ∧ resumed s base s1.(outside) s' ∧ s'.(tf) = s.(tf)) s.
Proof.
  intros Hcode Hs (Hi & Hc & Hn) H0 E. unfold mips_trap. apply wp_get. cbv zeta. rewrite Hcode. apply wp_kassert; [done|].
  unfold wp. rewrite (on_stack_checks _ base) by done. change (EX_IRQ =? EX_IRQ) with true. cbv iota. unfold interrupt. apply wp_get. cbv zeta. apply wp_modify.
  destruct s as [[c n i] ii st bf ct cs ta f w]. unfold in_irq in E. cbn [levels t_curspl t_iplhigh_count irq_on] in *. subst i.
  pose proof (law_interrupt _ _ E) as [(E1 & E2 & E3 & E4 & E5) E6].
  assert (on_stack (set_in_interrupt ii s1) base) as Hs1 by (destruct Hs as (H1 & H2); split; [etransitivity; [exact E2|exact H1]|]; cbn in *; by rewrite E4).
  destruct Hc as [-> | ->]; cbn [Z.eqb when].
  - rewrite (H0 eq_refl). apply wp_bind, wp_kassert; [done|]. apply wp_modify'. eapply wp_run; [exact E|]. apply wp_get. rewrite E6. cbn [set_levels levels t_curspl t_iplhigh_count].
    apply wp_bind, wp_kassert; [done|]. apply wp_kassert; [done|]. apply wp_modify', wp_modify. eapply leave_wp; [exact Hs1|].
    split; [done|]. split; [|exact E5]. split; [done|]. split; [cbn; by rewrite E6|]. cbn in *. by rewrite E2, E3.
  - apply wp_bind, wp_ret. eapply wp_run; [exact E|]. apply wp_get.
    apply wp_bind, wp_ret. apply wp_modify. eapply leave_wp; [exact Hs1|].
    split; [done|]. split; [|exact E5]. split; [done|]. split; [exact E6|]. cbn in *. by rewrite E2, E3.
Qed.

(** Past the entry: every exception but an interrupt. *)
Lemma trap_enter err0 s base :
  trap_code s.(tf) < NTRAPCODES → trap_code s.(tf) ≠ EX_IRQ → on_stack s base → trapped s →
  mips_trap self err0 s =
  (let code := trap_code s.(tf) in
   if code =? EX_SYS then
     s ← get;
     kassert (s.(levels).(t_curspl) =? 0);;
     kassert (s.(levels).(t_iplhigh_count) =? 0);;
     r ← syscall err0;
     match r with Back => done self | r => mret r end
   else
     handled ← page_fault code;
     if (handled : bool) then done self else fatal self code (in_kernel s.(tf))) (synced s).
Proof.
  intros Hc Hi Hs Ht. unfold mips_trap. rewrite get_bind. cbv zeta. rewrite (proj2 (Z.ltb_lt _ _)) by done. erewrite bind_Ret by reflexivity.
  rewrite (on_stack_checks _ base) by done. rewrite (proj2 (Z.eqb_neq _ _)) by done. by rewrite sync_levels.
Qed.

Lemma synced_done s base s1 (Q : after → tstate W → Prop) :
  on_stack s base → trapped s → same_thread (synced s) s1 → s1.(levels) = (synced s).(levels) →
  (∀ s2, resumed s base s1.(outside) s2 → s2.(tf) = s.(tf) → Q Back s2) → wp (done self) Q s1.
Proof.
  intros Hs Ht Hsame Hl HQ. pose proof Hsame as (E1 & E2 & E3 & E4 & E5).
  eapply (done_wp s base); [by apply (on_stack_ext s)|done|by rewrite Hl|by rewrite Hl|done|done|done|].
  intros s2 Hr Hf. apply HQ; [done|]. by rewrite Hf, E5.
Qed.

(** A system call is the dispatcher, with interrupts on, and the way out. *)
Lemma trap_syscall err0 s base :
  trap_code s.(tf) = EX_SYS → on_stack s base → trapped s → s.(levels).(t_curspl) = 0 → s.(levels).(t_iplhigh_count) = 0 →
  mips_trap self err0 s =
    (r ← dispatch err0 (s32 s.(tf).(tf_v0));
     match r with
     | inl Back => done self
     | inl a => mret a
     | inr (err, retval) =>
         modify (λ s, set_tf (syscall_return err retval s.(tf)) s);;
         s ← get;
         kassert (s.(levels).(t_curspl) =? 0);; kassert (s.(levels).(t_iplhigh_count) =? 0);; done self
     end) (synced s).
Proof.
  intros Hcode Hs Ht H1 H2. rewrite (trap_enter err0 s base) by (done || by rewrite Hcode). cbv zeta. rewrite Hcode. change (EX_SYS =? EX_SYS) with true. cbv iota.
  rewrite get_bind. cbn [synced set_levels levels t_curspl t_iplhigh_count]. rewrite H1, H2. unfold syscall, kassert, mbind, M_bind, get, mret, M_ret, modify. cbn -[dispatch s32 syscall_return done].
  rewrite H1, H2. cbn -[dispatch s32 syscall_return done]. unfold synced. rewrite H1, H2. cbn -[dispatch s32 syscall_return done].
  destruct (dispatch _ _ _) as [[[]|[e v]] s1| | |]; try done. cbn -[syscall_return done].
  destruct (_ =? 0); [|done]. cbn -[syscall_return done]. by destruct (_ =? 0).
Qed.

Lemma trap_served err0 s base r s1 :
  trap_code s.(tf) = EX_SYS → on_stack s base → trapped s → s.(levels).(t_curspl) = 0 → s.(levels).(t_iplhigh_count) = 0 →
  serves err0 s.(tf) (s32 s.(tf).(tf_v0)) (synced s) r s1 →
  wp (mips_trap self err0) (λ a s', match r with
    | inl a' => a = a' ∧ s' = s1
    | inr r => a = Back ∧ resumed s base s1.(outside) s' ∧ replied r s.(tf) s'.(tf)
    end) s.
Proof.
  intros Hcode Hs Ht H1 H2 Hserves. unfold wp. rewrite (trap_syscall err0 s base) by done.
  destruct (serves_dispatch err0 _ (synced s) _ _ Hserves) as (r0 & E & -> & Hnb). rewrite (bind_Ret _ _ _ _ _ E).
  destruct r0 as [[]|[err retval]]; [done|done|done|]. cbn [as_reply] in *. apply (serves_kept err0 _ (synced s)) in Hserves as [(E1 & E2 & E3 & E4 & E5) Hl].
  apply wp_modify, wp_get. cbn [set_tf levels]. rewrite Hl. apply wp_kassert; [cbn; by rewrite H1|]. apply wp_kassert; [cbn; by rewrite H2|].
  eapply (done_wp s base); [by apply (on_stack_ext s)|done|cbn; by rewrite Hl|cbn; by rewrite Hl|done|done|done|].
  intros s2 Hr Hf. split; [done|]. split; [done|]. rewrite Hf. cbn. rewrite E5. apply syscall_return_replied.
Qed.

(** A call whose handler does not return does not either. *)
Lemma trap_returns_served err0 s base a s' :
  trap_code s.(tf) = EX_SYS → on_stack s base → trapped s → s.(levels).(t_curspl) = 0 → s.(levels).(t_iplhigh_count) = 0 →
  mips_trap self err0 s = Ret a s' → ∃ r s1, serves err0 s.(tf) (s32 s.(tf).(tf_v0)) (synced s) r s1.
Proof.
  intros Hcode Hs Ht H1 H2. rewrite (trap_syscall err0 s base) by done. unfold mbind, M_bind.
  destruct (dispatch _ _ _) as [r s1| | |] eqn:E; try done. intros _. exists (as_reply r), s1. by apply dispatch_serves in E.
Qed.

Definition is_tlb (code : Z) : bool := (code =? EX_MOD) || (code =? EX_TLBL) || (code =? EX_TLBS).
Definition is_bus (code : Z) : bool := (code =? EX_IBE) || (code =? EX_DBE).
Definition fault_kind (code : Z) : Z :=
  if code =? EX_MOD then VM_FAULT_READONLY else if code =? EX_TLBL then VM_FAULT_READ else VM_FAULT_WRITE.

(** An exception nobody resolves, [s1] the state when that is known: a user process
    exits, with the number of the exception as its code; in the kernel, execution
    goes on at the hook for bad user pointers, or the kernel panics without one. *)
Definition unresolved s base s1 (o : outcome (tstate W) after) : Prop :=
  if in_kernel s.(tf) then
    match s.(tm_badfaultfunc) with
    | Some h => wp (λ _, o) (λ a s', a = Back ∧ s'.(tf) = with_epc h s.(tf) ∧ s'.(outside) = s1.(outside) ∧ same_thread (set_tf s'.(tf) s) s' ∧
        s'.(levels) = SplState s1.(levels).(t_curspl) s1.(levels).(t_iplhigh_count) false ∧ s'.(cpu_thread) = self ∧ s'.(cpu_stack) = base + 4096) s
    | None => ∃ s', o = Panic s'
    end
  else o = (sys__exit (trap_code s.(tf));; mret Gone) s1.

Lemma fatal_unresolved s base s1 :
  let code := trap_code s.(tf) in
  on_stack s base → same_thread (synced s) s1 → 0 < code < NTRAPCODES → is_bus code = false → code ≠ EX_SYS →
  unresolved s base s1 (fatal self code (in_kernel s.(tf)) s1).
Proof.
  intros code Hs Hsame Hc Hbus C4. pose proof Hsame as (E1 & E2 & E3 & E4 & E5). unfold fatal, unresolved. destruct (in_kernel s.(tf)) eqn:Ek; cbn [negb].
  - rewrite get_bind, E3. change (tm_badfaultfunc (synced s)) with s.(tm_badfaultfunc). destruct s.(tm_badfaultfunc) as [h|] eqn:Eb; [|by exists s1].
    apply wp_modify. eapply leave_wp; [by apply (on_stack_ext s)|].
    unfold same_thread. cbn. rewrite E5. by split_and!.
  - unfold kill_curthread, is_bus in *. fold code. apply orb_false_iff in Hbus as [B1 B2]. rewrite (proj2 (Z.ltb_lt code _)) by lia.
    rewrite (proj2 (Z.eqb_neq code EX_IRQ)) by (unfold EX_IRQ; lia). rewrite B1, B2, (proj2 (Z.eqb_neq code EX_SYS)) by done.
    unfold mbind, M_bind, kassert, mret, M_ret. cbn. by destruct (sys__exit code s1).
Qed.

Lemma trap_tlb err0 s base r s1 :
  let code := trap_code s.(tf) in
  on_stack s base → trapped s → is_tlb code = true → vm_fault (fault_kind code) s.(tf).(tf_vaddr) (synced s) = Ret r s1 →
  if r =? 0 then wp (mips_trap self err0) (λ a s', a = Back ∧ resumed s base s1.(outside) s' ∧ s'.(tf) = s.(tf)) s
  else unresolved s base s1 (mips_trap self err0 s).
Proof.
  intros code Hs Ht Htlb E. pose proof (law_fault _ _ _ _ _ E) as [Hsame Hl].
  assert (code = 1 ∨ code = 2 ∨ code = 3) as Hcase by (unfold is_tlb in Htlb; rewrite !orb_true_iff, !Z.eqb_eq in Htlb; tauto).
  assert (mips_trap self err0 s = (if r =? 0 then done self else fatal self code (in_kernel s.(tf))) s1) as Etrap.
  { rewrite (trap_enter err0 s base) by (try done; fold code; unfold NTRAPCODES, EX_IRQ; lia). cbv zeta. fold code.
    rewrite (proj2 (Z.eqb_neq code EX_SYS)) by (unfold EX_SYS; lia). rewrite (bind_Ret _ _ _ (r =? 0) s1); [by destruct (r =? 0)|].
    unfold page_fault. rewrite get_bind. unfold fault_kind in E. destruct Hcase as [-> | [-> | ->]]; exact (bind_Ret _ _ _ _ _ E). }
  unfold wp. rewrite Etrap. destruct (Z.eqb_spec r 0) as [Hr|].
  - by apply (synced_done s base); auto.
  - apply fatal_unresolved; try done; fold code; [unfold NTRAPCODES; lia| |unfold EX_SYS; lia]. destruct Hcase as [-> | [-> | ->]]; done.
Qed.

Lemma trap_other err0 s base :
  let code := trap_code s.(tf) in
  on_stack s base → trapped s → 0 < code < NTRAPCODES → code ≠ EX_SYS → is_tlb code = false → is_bus code = false →
  unresolved s base (synced s) (mips_trap self err0 s).
Proof.
  intros code Hs Ht Hc C1 Htlb Hbus. rewrite (trap_enter err0 s base) by (try done; fold code; unfold EX_IRQ; lia). cbv zeta. fold code.
  rewrite (proj2 (Z.eqb_neq code EX_SYS)) by done. rewrite (bind_Ret _ _ _ false (synced s)); [by apply fatal_unresolved|].
  unfold page_fault, is_tlb, is_bus in *. rewrite get_bind, Hbus. rewrite !orb_false_iff in Htlb. destruct Htlb as [[-> ->] ->]. done.
Qed.

(** C31. What a trap does to the thread it hits, if the handlers that return keep
    their contract.
    An interrupt that the bus code handles is invisible to the thread: same
    registers, same interrupt levels.
    A system call runs the handler of its number on the argument registers, with
    interrupts on.  If the handler returns, the trap comes back with its reply in
    [v0] and [a3] and the program counter after the call instruction, all other
    registers the same; or it does not come back, when the process has ended or runs
    another program.  It returns in no other case.  An error code, or [errno] with a
    negative value, is reported as an error; a call that succeeds with a value
    reports that value if the uninitialised variable [err] of the dispatcher held 0,
    and otherwise the error it held.
    For a TLB exception [vm_fault] is called with the kind of access and the address.
    Its result 0 restarts the instruction with nothing changed.
    Another result, like any other exception, ends a user process; in the kernel
    execution continues at the hook that [copyin] and [copyout] set, and without a
    hook the kernel panics.  A bus error panics.
    No assertion about levels or stacks fails on the way, and the processor's entries
    for the next trap are set. *)
Theorem trap_outcomes (err0 : Z) (base : Z) s :
  on_stack s base → trapped s →
  let code := trap_code s.(tf) in
  let trap := mips_trap self err0 in
  (code = EX_IRQ → (s.(levels).(t_curspl) = 0 → s.(levels).(t_iplhigh_count) = 0) →
     ∀ s1, mainbus_interrupt (in_irq s) = Ret tt s1 →
     wp trap (λ a s', a = Back ∧ resumed s base s1.(outside) s' ∧ s'.(tf) = s.(tf)) s) ∧
  (code = EX_SYS → s.(levels).(t_curspl) = 0 → s.(levels).(t_iplhigh_count) = 0 →
     (∀ r s1, serves err0 s.(tf) (s32 s.(tf).(tf_v0)) (synced s) r s1 →
        wp trap (λ a s', match r with
          | inl a' => a = a' ∧ s' = s1
          | inr r => a = Back ∧ resumed s base s1.(outside) s' ∧ replied r s.(tf) s'.(tf)
          end) s) ∧
     ∀ a s', trap s = Ret a s' → ∃ r s1, serves err0 s.(tf) (s32 s.(tf).(tf_v0)) (synced s) r s1) ∧
  (is_tlb code = true → ∀ r s1, vm_fault (fault_kind code) s.(tf).(tf_vaddr) (synced s) = Ret r s1 →
     if r =? 0 then wp trap (λ a s', a = Back ∧ resumed s base s1.(outside) s' ∧ s'.(tf) = s.(tf)) s
     else unresolved s base s1 (trap s)) ∧
  (0 < code < NTRAPCODES → code ≠ EX_SYS → is_tlb code = false → is_bus code = false → unresolved s base (synced s) (trap s)) ∧
  (is_bus code = true → ∃ s', trap s = Panic s').
Proof.
  intros Hs Ht code trap. split_and!.
  - intros Hc H0 s1 E. by apply trap_interrupt.
  - intros Hc H1 H2. split; [intros r s1 H; by apply trap_served|intros a s' H; by apply (trap_returns_served err0 s base a s')].
  - intros Htlb r s1 E. by apply trap_tlb.
  - intros Hc C1 Htlb Hbus. by apply trap_other.
  - intros Hbus. assert (code = 6 ∨ code = 7) as Hcase by (unfold is_bus in Hbus; rewrite orb_true_iff, !Z.eqb_eq in Hbus; exact Hbus).
    unfold trap. rewrite (trap_enter err0 s base) by (try done; fold code; unfold NTRAPCODES, EX_IRQ; lia). cbv zeta. fold code. exists (synced s).
    rewrite (proj2 (Z.eqb_neq code EX_SYS)) by (unfold EX_SYS; lia). apply bind_Panic. unfold page_fault. rewrite get_bind. cbv zeta.
    unfold is_bus in Hbus. rewrite Hbus. by rewrite !(proj2 (Z.eqb_neq _ _)) by (unfold EX_MOD, EX_TLBL, EX_TLBS; lia).
Qed.
End outcomes.

(** ** Example: handlers that do nothing, and a reboot that stops the machine *)

#[local] Instance ex_ops : TrapOps unit := {
  mainbus_interrupt := mret tt;
  vm_fault _ _ := mret 0;
  sys_reboot _ _ := Diverge;
  sys___time _ _ := mret 0;
  sys_open _ _ _ := mret 3;
  sys_close _ := mret 0;
  sys_read _ _ _ := mret 0;
  sys_write _ _ _ := mret 0;
  sys_fork _ := mret 2;
  sys_waitpid _ _ _ := mret 2;
  sys_getpid := mret 2;
  sys__exit _ := mret tt;
  sys_execv _ _ := mret (inl (-1));
  errno _ := ENOSYS;
}.

#[local] Instance ex_laws : TrapLaws unit.
Proof. split; intros; match goal with H : _ = Ret _ _ |- _ => by inversion H end. Qed.

(** An interrupt in user mode, in the middle of a page of stack. *)
Definition ex_trap : tstate unit :=
  Tstate (SplState 0 0 false) false (Some 0x80002000) None 0 0 0x80002f00 (new_frame 1 2 3 4) tt.

(** The same thread calling [open]: cause 8, call number 45. *)
Definition ex_open_frame : trapframe :=
  Trapframe 0 0xff0c 0x20 0 0 0 0 45 0 0x1000 0 0 0 0 0 0 0 0 0 0 0 0 0 0 0 0 0 0 0 0 0 0 0 0 3 0 4.
Definition ex_open : tstate unit := set_tf ex_open_frame ex_trap.

Lemma trap_outcomes_witness :
  wp (mips_trap 77 0) (λ a s', a = Back ∧ resumed 77 ex_trap 0x80002000 tt s' ∧ s'.(tf) = ex_trap.(tf)) ex_trap ∧
  wp (mips_trap 77 0) (λ a s', a = Back ∧ resumed 77 ex_open 0x80002000 tt s' ∧ replied (Value 3) ex_open_frame s'.(tf)) ex_open.
Proof.
  assert (∀ s, s = ex_trap ∨ s = ex_open → on_stack s 0x80002000 ∧ trapped s) as H.
  { intros s [-> | ->]; (split; [by split_and!|split_and!; [done|by left|done]]). }
  split.
  - exact (proj1 (trap_outcomes 77 0 0x80002000 ex_trap (proj1 (H _ (or_introl eq_refl))) (proj2 (H _ (or_introl eq_refl))))
      eq_refl (λ _, eq_refl) _ eq_refl).
  - refine (proj1 (proj1 (proj2 (trap_outcomes 77 0 0x80002000 ex_open (proj1 (H _ (or_intror eq_refl))) (proj2 (H _ (or_intror eq_refl)))))
      eq_refl eq_refl eq_refl) (inr (Value 3)) (synced ex_open) _).
    apply (S_value 0 ex_open_frame 45 (sys_open 0x1000 0 0) 3 (synced ex_open) (synced ex_open)); [left|reflexivity].
Defined.
