(* ===== verification/Vfs.v ===== *)
(** The virtual file system layer: vnodes and their counts (kern/vfs/vnode.c),
    path translation (kern/vfs/vfslookup.c, vfscwd.c, the lookup part of
    vfslist.c) and the operations on path names (kern/vfs/vfspath.c).

    A vnode is known by its address, a file system by a number.  What a file
    system does is reached through its table of operations (vnode.h, fs.h): here
    it is the class [FsOps], whose documented contract is the class [FsLaws].  A
    path is its bytes without the final NUL. *)

From Stdlib Require Import ZArith Lia.
From stdpp Require Import base numbers list gmap.
From S2P Require Import Prelude.

Record vnode := Vnode { vn_refcount : Z; vn_opencount : Z; vn_fs : option nat }.

Record knowndev := Knowndev {
  kd_name : list Z;
  kd_rawname : option (list Z);
  kd_device : option nat;
  kd_vnode : nat;
  kd_fs : option nat;
}.

(** [biglock]: the depth to which this thread holds the big lock, 0 when it does
    not; [curdir]: the working directory of the current process; [warned]: the
    vnodes about which the kernel has printed that they could not be reclaimed. *)
Record vfs (W : Type) := Vfs {
  vnodes : gmap nat vnode;
  knowndevs : list knowndev;
  bootfs_vnode : option nat;
  curdir : option nat;
  biglock : Z;
  warned : list nat;
  world : W;
}.
Arguments Vfs {W} _ _ _ _ _ _ _.
Arguments vnodes {W} _.
Arguments knowndevs {W} _.
Arguments bootfs_vnode {W} _.
Arguments curdir {W} _.
Arguments biglock {W} _.
Arguments warned {W} _.
Arguments world {W} _.

(** The operations of file systems and devices; an error code, or a result. *)
Class FsOps (W : Type) := {
  vop_open : nat → Z → M (vfs W) Z;
  vop_close : nat → M (vfs W) Z;
  vop_reclaim : nat → M (vfs W) Z;
  vop_gettype : nat → M (vfs W) (Z + Z);
  vop_truncate : nat → Z → M (vfs W) Z;
  vop_creat : nat → list Z → bool → Z → M (vfs W) (Z + nat);
  vop_symlink : nat → list Z → list Z → M (vfs W) Z;
  vop_mkdir : nat → list Z → Z → M (vfs W) Z;
  vop_link : nat → list Z → nat → M (vfs W) Z;
  vop_remove : nat → list Z → M (vfs W) Z;
  vop_rmdir : nat → list Z → M (vfs W) Z;
  vop_rename : nat → list Z → nat → list Z → M (vfs W) Z;
  vop_lookup : nat → list Z → M (vfs W) (Z + nat);
  vop_lookparent : nat → list Z → Z → M (vfs W) (Z + (nat * list Z));
  fsop_getroot : nat → M (vfs W) nat;
  fsop_getvolname : nat → vfs W → option (list Z);
}.

Section vfs.
Context {W : Type} `{!FsOps W}.
Implicit Types s : vfs W.

Definition set_vnodes (m : gmap nat vnode) s : vfs W :=
  Vfs m s.(knowndevs) s.(bootfs_vnode) s.(curdir) s.(biglock) s.(warned) s.(world).
Definition set_bootfs (o : option nat) s : vfs W :=
  Vfs s.(vnodes) s.(knowndevs) o s.(curdir) s.(biglock) s.(warned) s.(world).
Definition set_curdir (o : option nat) s : vfs W :=
  Vfs s.(vnodes) s.(knowndevs) s.(bootfs_vnode) o s.(biglock) s.(warned) s.(world).
Definition set_biglock (n : Z) s : vfs W :=
  Vfs s.(vnodes) s.(knowndevs) s.(bootfs_vnode) s.(curdir) n s.(warned) s.(world).
Definition set_warned (l : list nat) s : vfs W :=
  Vfs s.(vnodes) s.(knowndevs) s.(bootfs_vnode) s.(curdir) s.(biglock) l s.(world).

(** ** The big lock (vfslist.c) *)

Definition vfs_biglock_acquire : M (vfs W) unit := modify (λ s, set_biglock (s.(biglock) + 1) s).
Definition vfs_biglock_do_i_hold : M (vfs W) bool := gets (λ s, s.(biglock) >? 0).
Definition vfs_biglock_release : M (vfs W) unit :=
  s ← get;
  kassert (s.(biglock) >? 0);;
  modify (set_biglock (s.(biglock) - 1)).

(** ** vnode.c *)

Definition vnode_init (v : nat) (fs : option nat) : M (vfs W) Z :=
  modify (λ s, set_vnodes (<[v:=Vnode 1 0 fs]> s.(vnodes)) s);; mret 0.

(** The cleaned-up vnode is about to be freed: it leaves the map. *)
Definition vnode_cleanup (v : nat) : M (vfs W) unit :=
  s ← get;
  vn ← of_opt (s.(vnodes) !! v);
  kassert (vn.(vn_refcount) =? 1);;
  kassert (vn.(vn_opencount) =? 0);;
  modify (set_vnodes (delete v s.(vnodes))).

Definition vnode_check (reclaim : bool) (v : nat) : M (vfs W) unit :=
  vfs_biglock_acquire;;
  s ← get;
  vn ← of_opt (s.(vnodes) !! v);
  (if vn.(vn_refcount) <? 0 then panic
   else if (vn.(vn_refcount) =? 0) && negb reclaim then panic
   else mret tt);;
  (if vn.(vn_opencount) <? 0 then panic else mret tt);;
  vfs_biglock_release.

(** [VOP_FOO(v, ...)]: the check, then the operation of the vnode's table. *)
Definition vop {A} (v : nat) (op : M (vfs W) A) : M (vfs W) A := vnode_check false v;; op.

Definition put_vnode (v : nat) (vn : vnode) : M (vfs W) unit :=
  modify (λ s, set_vnodes (<[v:=vn]> s.(vnodes)) s).

Definition vnode_incref (v : nat) : M (vfs W) unit :=
  vfs_biglock_acquire;;
  s ← get;
  vn ← of_opt (s.(vnodes) !! v);
  put_vnode v (Vnode (vn.(vn_refcount) + 1) vn.(vn_opencount) vn.(vn_fs));;
  vfs_biglock_release.

(** What [vnode_decref] makes of the result of [VOP_RECLAIM]: a warning, unless it
    is 0 or [EBUSY]. *)
Definition warn_reclaim (v : nat) (result : Z) : M (vfs W) unit :=
  if negb (result =? 0) && negb (result =? EBUSY) then modify (λ s, set_warned (v :: s.(warned)) s) else mret tt.

(** [reclaim] is the operation of the vnode's table. *)
Definition vnode_decref_with (reclaim : nat → M (vfs W) Z) (v : nat) : M (vfs W) unit :=
  vfs_biglock_acquire;;
  s ← get;
  vn ← of_opt (s.(vnodes) !! v);
  kassert (vn.(vn_refcount) >? 0);;
  (if vn.(vn_refcount) >? 1 then put_vnode v (Vnode (vn.(vn_refcount) - 1) vn.(vn_opencount) vn.(vn_fs))
   else vnode_check true v;; result ← reclaim v; warn_reclaim v result);;
  vfs_biglock_release.
Definition vnode_decref (v : nat) : M (vfs W) unit := vnode_decref_with vop_reclaim v.

Definition vnode_incopen (v : nat) : M (vfs W) unit :=
  vfs_biglock_acquire;;
  s ← get;
  vn ← of_opt (s.(vnodes) !! v);
  put_vnode v (Vnode vn.(vn_refcount) (vn.(vn_opencount) + 1) vn.(vn_fs));;
  vfs_biglock_release.

Definition vnode_decopen (v : nat) : M (vfs W) unit :=
  vfs_biglock_acquire;;
  s ← get;
  vn ← of_opt (s.(vnodes) !! v);
  kassert (vn.(vn_opencount) >? 0);;
  put_vnode v (Vnode vn.(vn_refcount) (vn.(vn_opencount) - 1) vn.(vn_fs));;
  if vn.(vn_opencount) - 1 >? 0 then vfs_biglock_release
  else vop v (vop_close v);; vfs_biglock_release.

(** ** vfscwd.c *)

Definition vfs_getcurdir : M (vfs W) (Z + nat) :=
  s ← get;
  match s.(curdir) with
  | Some d => vnode_incref d;; mret (inr d)
  | None => mret (inl ENOENT)
  end.

Definition S_IFDIR : Z := 8192.

Definition vfs_setcurdir (dir : nat) : M (vfs W) Z :=
  r ← vop dir (vop_gettype dir);
  match r with
  | inl e => mret e
  | inr vtype =>
      if negb (vtype =? S_IFDIR) then mret ENOTDIR
      else
        vnode_incref dir;;
        s ← get;
        modify (set_curdir (Some dir));;
        match s.(curdir) with Some old => vnode_decref old | None => mret tt end;;
        mret 0
  end.

Definition vfs_clearcurdir : M (vfs W) Z :=
  s ← get;
  modify (set_curdir None);;
  match s.(curdir) with Some old => vnode_decref old | None => mret tt end;;
  mret 0.

(** ** vfslist.c: names of devices and volumes *)

Definition streq (a b : list Z) : bool := bool_decide (a = b).

(** What one device makes of [devname]: [None] if it is not the one named. *)
Definition getroot_dev (devname : list Z) (kd : knowndev) : M (vfs W) (option (Z + nat)) :=
  s ← get;
  let by_name := streq kd.(kd_name) devname in
  let whole := kassert (bool_decide (is_Some kd.(kd_device)));;
               vnode_incref kd.(kd_vnode);; mret (Some (inr kd.(kd_vnode))) in
  let rest :=
    if by_name then
      kassert (bool_decide (kd.(kd_fs) = None));;
      kassert (bool_decide (kd.(kd_rawname) = None));;
      whole
    else match kd.(kd_rawname) with
         | Some r => if streq r devname then whole else mret None
         | None => mret None
         end in
  match kd.(kd_fs) with
  | Some fs =>
      if by_name || match fsop_getvolname fs s with Some n => streq n devname | None => false end
      then root ← fsop_getroot fs; mret (Some (inr root))
      else rest
  | None => if bool_decide (is_Some kd.(kd_rawname)) && by_name then mret (Some (inl ENXIO)) else rest
  end.

Fixpoint getroot_loop (devname : list Z) (l : list knowndev) : M (vfs W) (Z + nat) :=
  match l with
  | [] => mret (inl ENODEV)
  | kd :: l => r ← getroot_dev devname kd;
               match r with Some x => mret x | None => getroot_loop devname l end
  end.

Definition vfs_getroot (devname : list Z) : M (vfs W) (Z + nat) :=
  held ← vfs_biglock_do_i_hold;
  kassert held;;
  s ← get;
  getroot_loop devname s.(knowndevs).

(** ** vfslookup.c *)

Definition COLON : Z := 58.
Definition SLASH : Z := 47.

(** The byte at [i]; the NUL after the last one. *)
Definition char_at (path : list Z) (i : Z) : Z := default 0 (zlookup path i).

(** The first colon or slash: [(slash, colon)], -1 where not found. *)
Fixpoint find_sep (n : nat) (path : list Z) (i : Z) : Z * Z :=
  match n with
  | O => (-1, -1)
  | S n =>
      if char_at path i =? 0 then (-1, -1)
      else if char_at path i =? COLON then (-1, i)
      else if char_at path i =? SLASH then (i, -1)
      else find_sep n path (i + 1)
  end.

(** [while (path[i+1] == '/') i++]. *)
Fixpoint skip_slashes (n : nat) (path : list Z) (i : Z) : Z :=
  match n with
  | O => i
  | S n => if char_at path (i + 1) =? SLASH then skip_slashes n path (i + 1) else i
  end.

(** The subpath and the vnode to start from. *)
Definition getdevice (path : list Z) : M (vfs W) (Z + (list Z * nat)) :=
  held ← vfs_biglock_do_i_hold;
  kassert held;;
  let '(slash, colon) := find_sep (S (length path)) path 0 in
  if (colon <? 0) && negb (slash =? 0) then
    r ← vfs_getcurdir;
    mret (match r with inl e => inl e | inr v => inr (path, v) end)
  else if colon >? 0 then
    let c := skip_slashes (length path) path colon in
    r ← vfs_getroot (take (Z.to_nat colon) path);
    mret (match r with inl e => inl e | inr v => inr (drop (Z.to_nat (c + 1)) path, v) end)
  else
    kassert ((colon =? 0) || (slash =? 0));;
    r ← (if char_at path 0 =? SLASH then
           s ← get;
           match s.(bootfs_vnode) with
           | None => mret (inl ENOENT)
           | Some b => vnode_incref b;; mret (inr b)
           end
         else
           kassert (char_at path 0 =? COLON);;
           r ← vfs_getcurdir;
           match r with
           | inl e => mret (inl e)
           | inr v =>
               s ← get;
               vn ← of_opt (s.(vnodes) !! v);
               match vn.(vn_fs) with
               | None => panic
               | Some fs => root ← fsop_getroot fs; vnode_decref v;; mret (inr root)
               end
           end);
    mret (match r with
          | inl e => inl e
          | inr v => inr (drop (Z.to_nat (skip_slashes (length path) path 0 + 1)) path, v)
          end).

Definition vfs_lookparent (path : list Z) (buflen : Z) : M (vfs W) (Z + (nat * list Z)) :=
  vfs_biglock_acquire;;
  r ← getdevice path;
  match r with
  | inl e => vfs_biglock_release;; mret (inl e)
  | inr (path, startvn) =>
      r ← (if (length path =? 0)%nat then mret (inl EINVAL)
           else vop startvn (vop_lookparent startvn path buflen));
      vnode_decref startvn;;
      vfs_biglock_release;;
      mret r
  end.

Definition vfs_lookup (path : list Z) : M (vfs W) (Z + nat) :=
  vfs_biglock_acquire;;
  r ← getdevice path;
  match r with
  | inl e => vfs_biglock_release;; mret (inl e)
  | inr (path, startvn) =>
      if (length path =? 0)%nat then vfs_biglock_release;; mret (inr startvn)
      else
        r ← vop startvn (vop_lookup startvn path);
        vnode_decref startvn;;
        vfs_biglock_release;;
        mret r
  end.

Definition vfs_chdir (path : list Z) : M (vfs W) Z :=
  r ← vfs_lookup path;
  match r with
  | inl e => mret e
  | inr vn => result ← vfs_setcurdir vn; vnode_decref vn;; mret result
  end.

Definition change_bootfs (newvn : option nat) : M (vfs W) unit :=
  s ← get;
  modify (set_bootfs newvn);;
  match s.(bootfs_vnode) with Some old => vnode_decref old | None => mret tt end.

Definition NAME_MAX : Z := 255.

(** [snprintf] leaves room for the NUL in its [sizeof(tmp)-1] bytes; the string
    from the colon on is never empty, so a name with a colon is refused. *)
Definition vfs_setbootfs (fsname : list Z) : M (vfs W) Z :=
  vfs_biglock_acquire;;
  let tmp := take (Z.to_nat (NAME_MAX + 1 - 1 - 1)) fsname in
  if bool_decide (COLON ∈ tmp) then vfs_biglock_release;; mret EINVAL
  else
    result ← vfs_chdir (tmp ++ [COLON]);
    if negb (result =? 0) then vfs_biglock_release;; mret result
    else
      r ← vfs_getcurdir;
      match r with
      | inl e => vfs_biglock_release;; mret e
      | inr newguy => change_bootfs (Some newguy);; vfs_biglock_release;; mret 0
      end.

Definition vfs_clearbootfs : M (vfs W) unit :=
  vfs_biglock_acquire;; change_bootfs None;; vfs_biglock_release.

(** ** vfspath.c *)

Definition O_RDONLY : Z := 0.
Definition O_WRONLY : Z := 1.
Definition O_RDWR : Z := 2.
Definition O_ACCMODE : Z := 3.
Definition O_CREAT : Z := 4.
Definition O_EXCL : Z := 8.
Definition O_TRUNC : Z := 16.
Definition O_APPEND : Z := 32.

Definition has_flag (flags f : Z) : bool := negb (Z.land flags f =? 0).

Definition vfs_open (path : list Z) (openflags mode : Z) : M (vfs W) (Z + nat) :=
  let how := Z.land openflags O_ACCMODE in
  if (how =? O_RDONLY) || (how =? O_WRONLY) || (how =? O_RDWR) then
    let canwrite := negb (how =? O_RDONLY) in
    r ← (if has_flag openflags O_CREAT then
           r ← vfs_lookparent path (NAME_MAX + 1);
           match r with
           | inl e => mret (inl e)
           | inr (dir, name) =>
               r ← vop dir (vop_creat dir name (has_flag openflags O_EXCL) mode);
               vnode_decref dir;;
               mret r
           end
         else vfs_lookup path);
    match r with
    | inl e => mret (inl e)
    | inr vn =>
        result ← vop vn (vop_open vn openflags);
        if negb (result =? 0) then vnode_decref vn;; mret (inl result)
        else
          vnode_incopen vn;;
          if has_flag openflags O_TRUNC then
            result ← (if negb canwrite then mret EINVAL else vop vn (vop_truncate vn 0));
            if negb (result =? 0) then vnode_decopen vn;; vnode_decref vn;; mret (inl result)
            else mret (inr vn)
          else mret (inr vn)
    end
  else mret (inl EINVAL).

Definition vfs_close (vn : nat) : M (vfs W) unit := vnode_decopen vn;; vnode_decref vn.

(** An operation on a name in a directory, then the directory is let go. *)
Definition in_dir (path : list Z) (op : nat → list Z → M (vfs W) Z) : M (vfs W) Z :=
  r ← vfs_lookparent path (NAME_MAX + 1);
  match r with
  | inl e => mret e
  | inr (dir, name) => result ← vop dir (op dir name); vnode_decref dir;; mret result
  end.

Definition vfs_remove (path : list Z) : M (vfs W) Z := in_dir path vop_remove.
Definition vfs_mkdir (path : list Z) (mode : Z) : M (vfs W) Z :=
  in_dir path (λ parent name, vop_mkdir parent name mode).
Definition vfs_rmdir (path : list Z) : M (vfs W) Z := in_dir path vop_rmdir.

(** The macro hands the name over first, where the operation takes the contents. *)
Definition vfs_symlink (contents path : list Z) : M (vfs W) Z :=
  in_dir path (λ newdir newname, vop_symlink newdir newname contents).

Definition same_fs (a b : nat) : M (vfs W) bool :=
  s ← get;
  va ← of_opt (s.(vnodes) !! a);
  vb ← of_opt (s.(vnodes) !! b);
  mret (match va.(vn_fs), vb.(vn_fs) with Some x, Some y => (x =? y)%nat | _, _ => false end).

Definition vfs_rename (oldpath newpath : list Z) : M (vfs W) Z :=
  r ← vfs_lookparent oldpath (NAME_MAX + 1);
  match r with
  | inl e => mret e
  | inr (olddir, oldname) =>
      r ← vfs_lookparent newpath (NAME_MAX + 1);
      match r with
      | inl e => vnode_decref olddir;; mret e
      | inr (newdir, newname) =>
          same ← same_fs olddir newdir;
          if negb same then vnode_decref newdir;; vnode_decref olddir;; mret EXDEV
          else
            result ← vop olddir (vop_rename olddir oldname newdir newname);
            vnode_decref newdir;; vnode_decref olddir;; mret result
      end
  end.

Definition vfs_link (oldpath newpath : list Z) : M (vfs W) Z :=
  r ← vfs_lookup oldpath;
  match r with
  | inl e => mret e
  | inr oldfile =>
      r ← vfs_lookparent newpath (NAME_MAX + 1);
      match r with
      | inl e => vnode_decref oldfile;; mret e
      | inr (newdir, newname) =>
          same ← same_fs oldfile newdir;
          if negb same then vnode_decref newdir;; vnode_decref oldfile;; mret EXDEV
          else
            result ← vop newdir (vop_link newdir newname oldfile);
            vnode_decref newdir;; vnode_decref oldfile;; mret result
      end
  end.
End vfs.

(** ** Accounting for references

    [count] and [opens] are the two counts of a vnode, 0 when there is no such
    vnode.  A vnode that could not be reclaimed keeps the reference that was let go,
    which no one owns any more: [refs] leaves these out.  [held] counts the
    references the layer's own tables own. *)

Section accounting.
Context {W : Type}.
Implicit Types s : vfs W.

Definition one (v x : nat) : Z := if (x =? v)%nat then 1 else 0.

Definition count s (v : nat) : Z := from_option vn_refcount 0 (s.(vnodes) !! v).
Definition warnings s (x : nat) : Z := foldr (λ v n, one v x + n) 0 s.(warned).
Definition refs s (v : nat) : Z := count s v - warnings s v.
Definition fs_of s (v : nat) : option nat := s.(vnodes) !! v ≫= vn_fs.
Definition opens s (v : nat) : Z := from_option vn_opencount 0 (s.(vnodes) !! v).

Definition own (o : option nat) (x : nat) : Z := match o with Some v => one v x | None => 0 end.
Fixpoint devs_own (l : list knowndev) (x : nat) : Z :=
  match l with
  | [] => 0
  | kd :: l => (match kd.(kd_device) with Some _ => one kd.(kd_vnode) x | None => 0 end) + devs_own l x
  end.
Definition held s (x : nat) : Z := own s.(curdir) x + own s.(bootfs_vnode) x + devs_own s.(knowndevs) x.

(** A device that can be named as such has its object. *)
Definition dev_ok (kd : knowndev) : Prop :=
  kd.(kd_fs) = None ∨ kd.(kd_rawname) ≠ None → is_Some kd.(kd_device).

(** The working directory is a directory, not a device. *)
Definition curdir_ok s : Prop :=
  ∀ d, s.(curdir) = Some d → ∃ fs, fs_of s d = Some fs.

(** Every open and every pointer the layer keeps is paid for by a reference. *)
Record vfs_wf s : Prop := VfsWf {
  wf_opens : ∀ v, 0 ≤ opens s v;
  wf_refs : ∀ v, opens s v + held s v ≤ refs s v;
  wf_lock : 0 ≤ s.(biglock);
  wf_devs : Forall dev_ok s.(knowndevs);
  wf_curdir : curdir_ok s;
}.

(** From [s0] to [s] the references and opens have changed by [f] and [g], the depth of the
    big lock by [k], and the tables are the same. *)
Record books s0 (k : Z) (f g : nat → Z) s : Prop := Books {
  bk_refs : ∀ x, refs s x = refs s0 x + f x;
  bk_opens : ∀ x, opens s x = opens s0 x + g x;
  bk_lock : s.(biglock) = s0.(biglock) + k;
  bk_curdir : s.(curdir) = s0.(curdir);
  bk_bootfs : s.(bootfs_vnode) = s0.(bootfs_vnode);
  bk_devs : s.(knowndevs) = s0.(knowndevs);
  bk_fs : ∀ d, s0.(curdir) = Some d → fs_of s d = fs_of s0 d;
}.

Definition none (_ : nat) : Z := 0.

(** The reference a result comes with. *)
Definition got (r : Z + nat) : nat → Z := match r with inl _ => none | inr v => one v end.
Definition got_dir (r : Z + (nat * list Z)) : nat → Z :=
  match r with inl _ => none | inr (v, _) => one v end.
Definition got_start (r : Z + (list Z * nat)) : nat → Z :=
  match r with inl _ => none | inr (_, v) => one v end.
Definition got_opt (r : option (Z + nat)) : nat → Z := match r with None => none | Some r => got r end.
End accounting.

(** The contract of a file system: an operation on a live vnode returns, and
    leaves all references as they are, except that a vnode handed back comes with
    one.  [VOP_RECLAIM] of the last reference consumes it, or fails and leaves it. *)
Class FsLaws (W : Type) `{!FsOps W} := {
  law_open v flags (s : vfs W) : vfs_wf s → 0 < refs s v →
    wp (vop_open v flags) (λ _, books s 0 none none) s;
  law_close v (s : vfs W) : vfs_wf s → 0 < refs s v →
    wp (vop_close v) (λ _, books s 0 none none) s;
  law_reclaim v (s : vfs W) : vfs_wf s → count s v = 1 → warnings s v = 0 → opens s v = 0 → held s v = 0 →
    wp (vop_reclaim v) (λ r, books s 0 (λ x, if (r =? 0) || (r =? EBUSY) then - one v x else 0) none) s;
  law_gettype v (s : vfs W) : vfs_wf s → 0 < refs s v →
    wp (vop_gettype v) (λ r s', books s 0 none none s' ∧
      (r = inr S_IFDIR → is_Some (fs_of s' v))) s;
  law_truncate v len (s : vfs W) : vfs_wf s → 0 < refs s v →
    wp (vop_truncate v len) (λ _, books s 0 none none) s;
  law_creat d name excl mode (s : vfs W) : vfs_wf s → 0 < refs s d →
    wp (vop_creat d name excl mode) (λ r, books s 0 (got r) none) s;
  law_symlink d a b (s : vfs W) : vfs_wf s → 0 < refs s d →
    wp (vop_symlink d a b) (λ _, books s 0 none none) s;
  law_mkdir d name mode (s : vfs W) : vfs_wf s → 0 < refs s d →
    wp (vop_mkdir d name mode) (λ _, books s 0 none none) s;
  law_link d name v (s : vfs W) : vfs_wf s → 0 < refs s d → 0 < refs s v →
    wp (vop_link d name v) (λ _, books s 0 none none) s;
  law_remove d name (s : vfs W) : vfs_wf s → 0 < refs s d →
    wp (vop_remove d name) (λ _, books s 0 none none) s;
  law_rmdir d name (s : vfs W) : vfs_wf s → 0 < refs s d →
    wp (vop_rmdir d name) (λ _, books s 0 none none) s;
  law_rename d1 n1 d2 n2 (s : vfs W) : vfs_wf s → 0 < refs s d1 → 0 < refs s d2 →
    wp (vop_rename d1 n1 d2 n2) (λ _, books s 0 none none) s;
  law_lookup d path (s : vfs W) : vfs_wf s → 0 < refs s d →
    wp (vop_lookup d path) (λ r, books s 0 (got r) none) s;
  law_lookparent d path len (s : vfs W) : vfs_wf s → 0 < refs s d →
    wp (vop_lookparent d path len) (λ r, books s 0 (got_dir r) none) s;
  law_getroot fs (s : vfs W) : vfs_wf s →
    wp (fsop_getroot fs) (λ v, books s 0 (one v) none) s;
}.

Section counts.
Context {W : Type} `{!FsOps W} `{!FsLaws W}.
Implicit Types s : vfs W.

Lemma books_refl s : books s 0 none none s.
Proof. split; unfold none; intros; by (lia || done). Qed.

Lemma books_trans s0 k f g s k' f' g' s' :
  books s0 k f g s → books s k' f' g' s' →
  books s0 (k + k') (λ x, f x + f' x) (λ x, g x + g' x) s'.
Proof.
  intros [A1 A2 A3 A4 A5 A6 A7] [B1 B2 B3 B4 B5 B6 B7]. split; try congruence.
  - intros x. rewrite B1, A1. lia.
  - intros x. rewrite B2, A2. lia.
  - lia.
  - intros d Hd. rewrite B7 by congruence. by apply A7.
Qed.

Lemma books_eq s0 k f g k' f' g' s :
  k = k' → (∀ x, f x = f' x) → (∀ x, g x = g' x) → books s0 k f g s → books s0 k' f' g' s.
Proof. intros -> Hf Hg [A1 A2 A3 A4 A5 A6 A7]. split; try done; intros x; by rewrite <- ?Hf, <- ?Hg. Qed.

Lemma books_held s0 k f g s x : books s0 k f g s → held s x = held s0 x.
Proof. intros []. unfold held. congruence. Qed.

Lemma held_nonneg s x : 0 ≤ held s x.
Proof.
  assert (∀ v, 0 ≤ one v x) as Ho by (intros v; unfold one; by destruct (x =? v)%nat).
  assert (∀ o, 0 ≤ own o x) as Hw by (by intros [v|]; simpl).
  assert (0 ≤ devs_own s.(knowndevs) x).
  { induction s.(knowndevs) as [|kd l IH]; simpl; [done|]. specialize (Ho kd.(kd_vnode)).
    destruct (kd_device kd); lia. }
  unfold held. pose proof (Hw s.(curdir)). pose proof (Hw s.(bootfs_vnode)). lia.
Qed.

(** A state reached from a consistent one is consistent as long as nothing below
    what is paid for was given away. *)
Lemma books_wf s0 k f g s :
  vfs_wf s0 → books s0 k f g s → 0 ≤ s0.(biglock) + k →
  (∀ x, 0 ≤ opens s0 x + g x) → (∀ x, opens s0 x + g x + held s0 x ≤ refs s0 x + f x) → vfs_wf s.
Proof.
  intros Hwf Hb Hk Ho Hr. pose proof Hb as [A1 A2 A3 A4 A5 A6 A7]. split.
  - intros v. rewrite A2. apply Ho.
  - intros v. rewrite A1, A2, (books_held _ _ _ _ _ _ Hb). apply Hr.
  - lia.
  - rewrite A6. apply Hwf.
  - intros d Hd. rewrite A4 in Hd. destruct (wf_curdir _ Hwf d Hd) as [fs Hfs]. exists fs. by rewrite A7.
Qed.

(** Counts only go up: what every routine does until it lets references go. *)
Lemma books_wf_up s0 k f s :
  vfs_wf s0 → books s0 k f none s → 0 ≤ k → (∀ x, 0 ≤ f x) → vfs_wf s.
Proof.
  intros Hwf Hb Hk Hf. eapply books_wf; [done|done| | |]; [pose proof (wf_lock _ Hwf); lia| |];
    intros x; unfold none; pose proof (wf_opens _ Hwf x); pose proof (wf_refs _ Hwf x); specialize (Hf x); lia.
Qed.

Lemma warnings_nonneg s v : 0 ≤ warnings s v.
Proof.
  unfold warnings. induction s.(warned) as [|w l IH]; simpl; [done|]. unfold one at 1. destruct (v =? w)%nat; lia.
Qed.

Lemma refs_count s s' x d : s'.(warned) = s.(warned) → count s' x = count s x + d → refs s' x = refs s x + d.
Proof. unfold refs, warnings. intros -> ->. lia. Qed.

Lemma refs_live s v : 0 < refs s v → ∃ vn, s.(vnodes) !! v = Some vn.
Proof.
  pose proof (warnings_nonneg s v). unfold refs, count. destruct (s.(vnodes) !! v) as [vn|]; [by exists vn|]. simpl. lia.
Qed.

Lemma one_self v : one v v = 1.
Proof. unfold one. by rewrite Nat.eqb_refl. Qed.

Lemma one_nonneg v x : 0 ≤ one v x.
Proof. unfold one. by destruct (x =? v)%nat. Qed.

Lemma set_biglock_id s n : n = s.(biglock) → set_biglock n s = s.
Proof. intros ->. by destruct s. Qed.

(** Writing the counts of one vnode. *)
Lemma books_put s v vn r o k :
  s.(vnodes) !! v = Some vn →
  books s k (λ x, (r - vn.(vn_refcount)) * one v x) (λ x, (o - vn.(vn_opencount)) * one v x)
    (set_biglock (s.(biglock) + k) (set_vnodes (<[v:=Vnode r o vn.(vn_fs)]> s.(vnodes)) s)).
Proof.
  intros Hv. split; unfold opens, one, fs_of; simpl; try done.
  - intros x. apply refs_count; [done|]. unfold count; simpl. destruct (Nat.eqb_spec x v) as [-> |]; [rewrite lookup_insert_eq, Hv; simpl; lia|].
    rewrite lookup_insert_ne by done. lia.
  - intros x. destruct (Nat.eqb_spec x v) as [-> |]; [rewrite lookup_insert_eq, Hv; simpl; lia|].
    rewrite lookup_insert_ne by done. lia.
  - intros d _. destruct (decide (d = v)) as [-> |]; [by rewrite lookup_insert_eq, Hv|].
    by rewrite lookup_insert_ne.
Qed.

(** *** The primitives, each from a state already [k], [f], [g] away from [s0] *)

Lemma acquire_books s0 k f g s Q :
  books s0 k f g s → (∀ s', books s0 (k + 1) f g s' → Q tt s') → wp vfs_biglock_acquire Q s.
Proof. intros Hb HQ. apply HQ. destruct Hb as [A1 A2 A3 A4 A5 A6 A7]. split; simpl; try done. lia. Qed.

Lemma release_books s0 k f g s Q :
  books s0 k f g s → 0 < s0.(biglock) + k →
  (∀ s', books s0 (k - 1) f g s' → Q tt s') → wp vfs_biglock_release Q s.
Proof.
  intros Hb Hk HQ. pose proof Hb as [A1 A2 A3 A4 A5 A6 A7]. unfold vfs_biglock_release.
  apply wp_get, wp_kassert; [apply Z.gtb_lt; lia|]. apply HQ. split; simpl; try done. lia.
Qed.

Lemma check_ret b v s : vfs_wf s → 0 < refs s v → vnode_check b v s = Ret tt s.
Proof.
  intros Hwf Hr. destruct (refs_live s v Hr) as [vn Hv]. unfold vnode_check.
  pose proof (wf_lock _ Hwf). pose proof (wf_opens _ Hwf v) as Ho. pose proof (warnings_nonneg s v).
  unfold refs, count, opens in *. rewrite Hv in *.
  simpl in *. mrun. rewrite get_bind. simpl. rewrite Hv.
  mrun.
  rewrite (proj2 (Z.ltb_ge _ _)), (proj2 (Z.eqb_neq _ _)), (proj2 (Z.ltb_ge _ _)) by lia. simpl.
  do 2 mrun. unfold vfs_biglock_release. rewrite get_bind. simpl.
  rewrite (proj2 (Z.gtb_lt _ _)) by lia. simpl. mrun.
  unfold modify. f_equal. destruct s; unfold set_biglock; simpl. f_equal. lia.
Qed.

Lemma wp_vop {A} v (op : M (vfs W) A) Q s :
  vfs_wf s → 0 < refs s v → wp op Q s → wp (vop v op) Q s.
Proof. intros Hwf Hr H. unfold vop, wp. by rewrite (bind_Ret _ _ _ _ _ (check_ret false v s Hwf Hr)). Qed.

(** Taking the lock, rewriting the counts of a live vnode, giving the lock back. *)
Lemma put_books s0 k f g v vn r o s :
  vfs_wf s → books s0 k f g s → s.(vnodes) !! v = Some vn →
  wp (put_vnode v (Vnode r o vn.(vn_fs));; vfs_biglock_release)
    (λ _, books s0 k (λ x, f x + (r - vn.(vn_refcount)) * one v x)
            (λ x, g x + (o - vn.(vn_opencount)) * one v x)) (set_biglock (s.(biglock) + 1) s).
Proof.
  intros Hwf Hb Hv. unfold put_vnode, vfs_biglock_release. pose proof (wf_lock _ Hwf).
  apply wp_modify, wp_get, wp_kassert; [simpl; apply Z.gtb_lt; lia|]. apply wp_modify'.
  pose proof (books_trans _ _ _ _ _ _ _ _ _ Hb (books_put s v vn r o 0 Hv)) as Hp. rewrite Z.add_0_r in Hp.
  unfold set_biglock, set_vnodes in *; simpl in *. by rewrite Z.add_0_r in Hp; rewrite Z.add_simpl_r.
Qed.

Lemma incref_books s0 k f g v s Q :
  vfs_wf s → books s0 k f g s → 0 < refs s v →
  (∀ s', books s0 k (λ x, f x + one v x) g s' → Q tt s') → wp (vnode_incref v) Q s.
Proof.
  intros Hwf Hb Hr HQ. destruct (refs_live s v Hr) as [vn Hv]. unfold vnode_incref.
  apply wp_modify, wp_get. eapply wp_of_opt; [exact Hv|].
  eapply wp_mono; [|by apply (put_books s0 k f g v vn _ _ s)].
  intros [] s' Hs'. apply HQ. eapply books_eq; [..|exact Hs']; [done| |]; intros x; ring.
Qed.

Lemma incopen_books s0 k f g v s Q :
  vfs_wf s → books s0 k f g s → 0 < refs s v →
  (∀ s', books s0 k f (λ x, g x + one v x) s' → Q tt s') → wp (vnode_incopen v) Q s.
Proof.
  intros Hwf Hb Hr HQ. destruct (refs_live s v Hr) as [vn Hv]. unfold vnode_incopen.
  apply wp_modify, wp_get. eapply wp_of_opt; [exact Hv|].
  eapply wp_mono; [|by apply (put_books s0 k f g v vn _ _ s)].
  intros [] s' Hs'. apply HQ. eapply books_eq; [..|exact Hs']; [done| |]; intros x; ring.
Qed.

Lemma locked_wf s : vfs_wf s → vfs_wf (set_biglock (s.(biglock) + 1) s).
Proof. intros []. split; simpl; try done. lia. Qed.

(** A reference that nothing else relies on is let go. *)
Lemma decref_books s0 k f g v s Q :
  vfs_wf s → books s0 k f g s → opens s v + held s v < refs s v →
  (∀ s', books s0 k (λ x, f x - one v x) g s' → Q tt s') → wp (vnode_decref v) Q s.
Proof.
  intros Hwf Hb Hr HQ. pose proof (wf_opens _ Hwf v) as Ho. pose proof (held_nonneg s v) as Hh.
  destruct (refs_live s v ltac:(lia)) as [vn Hv]. unfold vnode_decref, vnode_decref_with.
  assert (count s v = vn.(vn_refcount)) as Hcv by (unfold count; by rewrite Hv).
  pose proof (warnings_nonneg s v) as Hw. assert (refs s v = vn.(vn_refcount) - warnings s v) as Hrv by (unfold refs; by rewrite Hcv).
  apply wp_modify, wp_get. eapply wp_of_opt; [exact Hv|]. apply wp_kassert; [apply Z.gtb_lt; lia|].
  destruct (Z.gtb_spec vn.(vn_refcount) 1).
  - eapply wp_mono; [|by apply (put_books s0 k f g v vn _ _ s)].
    intros [] s' Hs'. apply HQ. eapply books_eq; [..|exact Hs']; [done| |]; intros x; ring.
  - pose proof (locked_wf s Hwf) as Hwf'. pose proof (wf_lock _ Hwf).
    apply wp_bind. unfold wp. rewrite (bind_Ret _ _ _ _ _ (check_ret true v _ Hwf' ltac:(change (0 < refs s v); lia))).
    fold (wp (vop_reclaim v ≫= warn_reclaim v)). apply wp_bind.
    eapply wp_mono; [|apply law_reclaim; [done|change (count s v = 1); lia|change (warnings s v = 0); lia|change (opens s v = 0); lia|change (held s v = 0); lia]].
    intros e s1 Hs1. apply (wp_mono _ (λ _, books s 1 (λ x, - one v x) none)); last first.
    { destruct Hs1 as [A1 A2 A3 A4 A5 A6 A7]. simpl in A3. unfold warn_reclaim.
      destruct (Z.eqb_spec e 0), (Z.eqb_spec e EBUSY); cbn [negb andb orb] in A1 |- *; try (apply wp_ret; split; (done || lia)).
      apply wp_modify'. split; simpl; try (done || lia). intros x. specialize (A1 x). change (refs (set_biglock _ s) x) with (refs s x) in A1.
      revert A1. unfold refs. change (count (set_warned _ s1) x) with (count s1 x). unfold warnings at 3; simpl. fold (warnings s1 x). lia. }
    intros [] s2 Hs2. eapply (release_books s 1 (λ x, - one v x) none); [exact Hs2|lia|].
    intros s3 Hs3. apply HQ. eapply books_eq; [..|eapply books_trans; [exact Hb|exact Hs3]]; [lia| |]; intros x; unfold none; ring.
Qed.

Lemma decopen_books s0 k f g v s Q :
  vfs_wf s → books s0 k f g s → 0 < opens s v →
  (∀ s', books s0 k f (λ x, g x - one v x) s' → Q tt s') → wp (vnode_decopen v) Q s.
Proof.
  intros Hwf Hb Ho HQ. pose proof (wf_refs _ Hwf v) as Hr. pose proof (held_nonneg s v) as Hh.
  destruct (refs_live s v ltac:(lia)) as [vn Hv]. unfold vnode_decopen. pose proof (wf_lock _ Hwf) as Hl.
  assert (opens s v = vn.(vn_opencount)) as Hov by (unfold opens; by rewrite Hv).
  apply wp_modify, wp_get. eapply wp_of_opt; [exact Hv|]. apply wp_kassert; [apply Z.gtb_lt; lia|].
  apply wp_modify. set (s1 := set_vnodes _ _).
  assert (books s 1 none (λ x, - one v x) s1) as Hput.
  { eapply books_eq; [..|exact (books_put s v vn vn.(vn_refcount) (vn.(vn_opencount) - 1) 1 Hv)]; [done| |];
      intros x; unfold none; ring. }
  assert (vfs_wf s1) as Hwf1.
  { eapply books_wf; [exact Hwf|exact Hput|lia| |]; intros x; pose proof (wf_opens _ Hwf x); pose proof (wf_refs _ Hwf x);
      unfold one, none; destruct (Nat.eqb_spec x v) as [-> |]; lia. }
  assert (∀ s2, books s1 0 none none s2 → wp vfs_biglock_release Q s2) as Hend.
  { intros s2 Hs2. eapply (release_books s (1 + 0)); [eapply books_trans; [exact Hput|exact Hs2]|lia|].
    intros s3 Hs3. apply HQ. eapply books_eq; [..|eapply books_trans; [exact Hb|exact Hs3]]; [lia| |]; intros x; unfold none; ring. }
  destruct (_ >? 0); [apply Hend, books_refl|]. apply wp_bind. apply wp_vop; [done| |].
  - rewrite (bk_refs _ _ _ _ _ Hput). unfold none. lia.
  - eapply wp_mono; [|apply law_close; [done|rewrite (bk_refs _ _ _ _ _ Hput); unfold none; lia]].
    intros e s2. apply Hend.
Qed.

(** *** Routines that only hand out references *)

Definition hands_out {A} (m : M (vfs W) A) (F : A → nat → Z) (s : vfs W) : Prop :=
  wp m (λ a, books s 0 (F a) none) s.

Lemma op_books {A} (m : M (vfs W) A) F s0 k f g s Q :
  hands_out m F s → books s0 k f g s →
  (∀ a s', books s0 k (λ x, f x + F a x) g s' → Q a s') → wp m Q s.
Proof.
  intros Hm Hb HQ. eapply wp_mono; [|exact Hm]. intros a s' Hs'. apply HQ.
  eapply books_eq; [..|eapply books_trans; [exact Hb|exact Hs']]; [lia|done|]. intros x. unfold none. lia.
Qed.

Lemma live_books s0 k f s v :
  vfs_wf s0 → books s0 k f none s → 0 < f v → 0 < refs s v.
Proof.
  intros Hwf Hb Hf. rewrite (bk_refs _ _ _ _ _ Hb).
  pose proof (wf_opens _ Hwf v). pose proof (wf_refs _ Hwf v). pose proof (held_nonneg s0 v). lia.
Qed.

Lemma spare_books s0 k f s v :
  vfs_wf s0 → books s0 k f none s → 0 < f v → opens s v + held s v < refs s v.
Proof.
  intros Hwf Hb Hf. rewrite (bk_refs _ _ _ _ _ Hb), (bk_opens _ _ _ _ _ Hb), (books_held _ _ _ _ _ _ Hb).
  unfold none. pose proof (wf_refs _ Hwf v). lia.
Qed.

Lemma held_live s v : vfs_wf s → 0 < held s v → 0 < refs s v.
Proof. intros Hwf Hh. pose proof (wf_opens _ Hwf v). pose proof (wf_refs _ Hwf v). lia. Qed.

Lemma devs_own_nonneg l x : 0 ≤ devs_own l x.
Proof. induction l as [|kd l IH]; simpl; [done|]. pose proof (one_nonneg kd.(kd_vnode) x). destruct (kd_device kd); lia. Qed.

Lemma own_nonneg o x : 0 ≤ own o x.
Proof. destruct o; simpl; [apply one_nonneg|done]. Qed.

Lemma got_nonneg r x : 0 ≤ got r x.
Proof. destruct r; simpl; [done|apply one_nonneg]. Qed.

Lemma got_dir_nonneg r x : 0 ≤ got_dir r x.
Proof. destruct r as [|[]]; simpl; [done|apply one_nonneg]. Qed.
End counts.

Create HintDb vfs.
#[export] Hint Resolve one_nonneg own_nonneg devs_own_nonneg got_nonneg got_dir_nonneg held_nonneg : vfs.

(** Arithmetic on the deltas: every [one], [got], ... is non-negative. *)
Ltac deltas :=
  intros; unfold none in *; rewrite ?one_self in *;
  repeat match goal with
         | |- context [one ?v ?x] => lazymatch goal with H : 0 ≤ one v x |- _ => fail | _ => pose proof (one_nonneg v x) end
         | |- context [got ?v ?x] => lazymatch goal with H : 0 ≤ got v x |- _ => fail | _ => pose proof (got_nonneg v x) end
         | |- context [got_dir ?v ?x] => lazymatch goal with H : 0 ≤ got_dir v x |- _ => fail | _ => pose proof (got_dir_nonneg v x) end
         end; simpl in *; unfold none in *; rewrite ?one_self in *; lia.

(** The state reached is consistent; a vnode the routine has a reference to is
    live, and its reference may be let go. *)
Ltac vfs_side :=
  lazymatch goal with
  | |- vfs_wf _ => first [assumption | eapply books_wf_up; [|eassumption|..]; [eassumption|lia|deltas]]
  | |- 0 < refs _ _ => eapply live_books; [|eassumption|]; [eassumption|deltas]
  | |- _ + _ < refs _ _ => eapply spare_books; [|eassumption|]; [eassumption|deltas]
  end.

(** The goal's account is the one at hand, up to arithmetic. *)
Ltac vfs_done := eapply books_eq; [| | |eassumption]; [lia|deltas|deltas].

Section handing_out.
Context {W : Type} `{!FsOps W} `{!FsLaws W}.
Implicit Types s : vfs W.

Lemma getcurdir_hands s : vfs_wf s → hands_out vfs_getcurdir got s.
Proof.
  intros Hwf. unfold hands_out, vfs_getcurdir. apply wp_get. pose proof (books_refl s) as Hb.
  destruct s.(curdir) as [d|] eqn:Hd; [|apply wp_ret; vfs_done].
  apply wp_bind. eapply incref_books; [done|exact Hb| |].
  - apply held_live; [done|]. unfold held. rewrite Hd. simpl. rewrite one_self.
    pose proof (own_nonneg s.(bootfs_vnode) d). pose proof (devs_own_nonneg s.(knowndevs) d). lia.
  - intros s1 Hb1. apply wp_ret. vfs_done.
Qed.

Lemma devs_own_elem l kd : kd ∈ l → is_Some kd.(kd_device) → 0 < devs_own l kd.(kd_vnode).
Proof.
  induction l as [|d l IH]; intros Hin [o Ho]; [by apply not_elem_of_nil in Hin|]. simpl.
  pose proof (devs_own_nonneg l kd.(kd_vnode)). pose proof (one_nonneg d.(kd_vnode) kd.(kd_vnode)).
  apply elem_of_cons in Hin as [<-|Hin]; [rewrite Ho, one_self; lia|].
  specialize (IH Hin ltac:(by exists o)). destruct (kd_device d); lia.
Qed.

Lemma device_live s kd : vfs_wf s → kd ∈ s.(knowndevs) → is_Some kd.(kd_device) → 0 < refs s kd.(kd_vnode).
Proof.
  intros Hwf Hin Ho. apply held_live; [done|]. pose proof (devs_own_elem _ _ Hin Ho). unfold held.
  pose proof (own_nonneg s.(curdir) kd.(kd_vnode)). pose proof (own_nonneg s.(bootfs_vnode) kd.(kd_vnode)). lia.
Qed.

(** The device itself is handed out. *)
Lemma device_hands s kd :
  vfs_wf s → kd ∈ s.(knowndevs) → kd.(kd_fs) = None ∨ kd.(kd_rawname) ≠ None →
  hands_out (kassert (bool_decide (is_Some kd.(kd_device)));;
             vnode_incref kd.(kd_vnode);; mret (Some (inr kd.(kd_vnode)))) got_opt s.
Proof.
  intros Hwf Hin Hok. pose proof (wf_devs _ Hwf) as Hd. rewrite Forall_forall in Hd.
  pose proof (Hd kd Hin Hok) as Ho. unfold hands_out. apply wp_kassert; [by apply bool_decide_eq_true|].
  apply wp_bind. eapply incref_books; [done|apply books_refl|by apply device_live|].
  intros s1 Hb1. apply wp_ret. vfs_done.
Qed.

Lemma getroot_dev_hands s devname kd :
  vfs_wf s → kd ∈ s.(knowndevs) → hands_out (getroot_dev devname kd) got_opt s.
Proof.
  intros Hwf Hin. unfold hands_out, getroot_dev. apply wp_get. pose proof (books_refl s) as Hb. cbv zeta.
  assert (wp (mret (M:=M (vfs W)) None) (λ a, books s 0 (got_opt a) none) s) as Hnone by (by apply wp_ret).
  destruct kd.(kd_fs) as [fs|] eqn:Hfs.
  - destruct (streq kd.(kd_name) devname) eqn:Hn; simpl.
    + apply wp_bind. eapply op_books; [by apply (law_getroot fs s)|exact Hb|]. intros v s1 Hb1. apply wp_ret. vfs_done.
    + destruct (fsop_getvolname fs s) as [n|]; [destruct (streq n devname)|].
      1: apply wp_bind; eapply op_books; [by apply (law_getroot fs s)|exact Hb|]; intros v s1 Hb1; apply wp_ret; vfs_done.
      all: destruct kd.(kd_rawname) as [rn|] eqn:Hr; [destruct (streq rn devname)|]; try exact Hnone;
        apply device_hands; [done|done|right; by rewrite Hr].
  - destruct (streq kd.(kd_name) devname) eqn:Hn.
    + rewrite andb_true_r. destruct kd.(kd_rawname) as [rn|] eqn:Hr; simpl; [apply wp_ret; vfs_done|].
      apply device_hands; [done|done|by left].
    + rewrite andb_false_r. destruct kd.(kd_rawname) as [rn|] eqn:Hr; [|exact Hnone].
      destruct (streq rn devname); [|exact Hnone]. apply device_hands; [done|done|by left].
Qed.

Lemma getroot_loop_hands devname l s0 s :
  vfs_wf s0 → books s0 0 none none s → (∀ kd, kd ∈ l → kd ∈ s0.(knowndevs)) →
  wp (getroot_loop devname l) (λ r, books s0 0 (got r) none) s.
Proof.
  revert s. induction l as [|kd l IH]; intros s Hwf Hb Hin; simpl; [apply wp_ret; vfs_done|].
  assert (vfs_wf s) by vfs_side. apply wp_bind. eapply op_books; [apply getroot_dev_hands; [done|]|exact Hb|].
  - rewrite (bk_devs _ _ _ _ _ Hb). apply Hin. left.
  - intros [r|] s1 Hb1; [apply wp_ret; vfs_done|]. apply IH; [done| |].
    + vfs_done.
    + intros kd' Hk. apply Hin. by right.
Qed.

Lemma getroot_hands devname s : vfs_wf s → 0 < s.(biglock) → hands_out (vfs_getroot devname) got s.
Proof.
  intros Hwf Hl. unfold hands_out, vfs_getroot, vfs_biglock_do_i_hold.
  apply wp_gets, wp_kassert; [by apply Z.gtb_lt|]. apply wp_get.
  apply getroot_loop_hands; [done|apply books_refl|done].
Qed.

(** *** Path translation *)

Lemma find_sep_range n path i : let '(slash, colon) := find_sep n path i in
  (colon = -1 ∨ (i ≤ colon ∧ char_at path colon = COLON)) ∧ (slash = -1 ∨ (i ≤ slash ∧ char_at path slash = SLASH)).
Proof.
  revert i. induction n as [|n IH]; intros i; simpl; [split; by left|].
  destruct (char_at path i =? 0); [split; by left|].
  destruct (Z.eqb_spec (char_at path i) COLON) as [->|]; [split; [right; split; [lia|done]|by left]|].
  destruct (Z.eqb_spec (char_at path i) SLASH) as [->|]; [split; [by left|right; split; [lia|done]]|].
  specialize (IH (i + 1)). destruct (find_sep n path (i + 1)) as [sl co]. destruct IH as [IH1 IH2].
  split; [destruct IH1 as [|[]]|destruct IH2 as [|[]]]; try (by left); right; split; (done || lia).
Qed.

(** The file system root the current directory belongs to. *)
Lemma curdir_root_hands s :
  vfs_wf s →
  hands_out (r ← vfs_getcurdir;
             match r with
             | inl e => mret (inl e)
             | inr v =>
                 s ← get;
                 vn ← of_opt (s.(vnodes) !! v);
                 match vn.(vn_fs) with
                 | None => panic
                 | Some fs => root ← fsop_getroot fs; vnode_decref v;; mret (inr root)
                 end
             end) got s.
Proof.
  intros Hwf. unfold hands_out. unfold vfs_getcurdir. apply wp_bind, wp_get.
  destruct s.(curdir) as [d|] eqn:Hd.
  2:{ do 2 apply wp_ret. apply books_refl. }
  apply wp_bind. eapply incref_books; [done|apply books_refl| |].
  { apply held_live; [done|]. unfold held. rewrite Hd. simpl. rewrite one_self.
    pose proof (own_nonneg s.(bootfs_vnode) d). pose proof (devs_own_nonneg s.(knowndevs) d). lia. }
  intros s1 Hb1. apply wp_ret, wp_get.
  destruct (wf_curdir _ Hwf d Hd) as [fs Hfs]. rewrite <- (bk_fs _ _ _ _ _ Hb1 d Hd) in Hfs.
  unfold fs_of in Hfs. destruct (s1.(vnodes) !! d) as [vn|] eqn:Hvn; [simpl in Hfs|done].
  eapply wp_of_opt; [done|]. rewrite Hfs. assert (vfs_wf s1) by vfs_side.
  apply wp_bind. eapply op_books; [by apply (law_getroot fs s1)|exact Hb1|]. intros root s2 Hb2.
  assert (vfs_wf s2) by vfs_side.
  apply wp_bind. eapply decref_books; [done|exact Hb2|vfs_side|]. intros s3 Hb3. apply wp_ret. vfs_done.
Qed.

Lemma getdevice_hands path s : vfs_wf s → 0 < s.(biglock) → hands_out (getdevice path) got_start s.
Proof.
  intros Hwf Hl. unfold hands_out, getdevice, vfs_biglock_do_i_hold. pose proof (books_refl s) as Hb.
  apply wp_gets, wp_kassert; [by apply Z.gtb_lt|].
  pose proof (find_sep_range (S (length path)) path 0) as Hsep.
  destruct (find_sep _ path 0) as [slash colon]. destruct Hsep as [Hc Hs].
  destruct ((colon <? 0) && negb (slash =? 0)) eqn:E1.
  { apply wp_bind. eapply op_books; [by apply getcurdir_hands|exact Hb|].
    intros [e|v] s1 Hb1; apply wp_ret; vfs_done. }
  destruct (Z.gtb_spec colon 0).
  { apply wp_bind. eapply op_books; [by apply getroot_hands|exact Hb|].
    intros [e|v] s1 Hb1; apply wp_ret; vfs_done. }
  apply andb_false_iff in E1. assert (colon = 0 ∨ slash = 0) as Hz.
  { destruct E1 as [E1|E1]; [apply Z.ltb_ge in E1; left; lia|]. right. by apply negb_false_iff, Z.eqb_eq in E1. }
  apply wp_kassert; [destruct Hz as [->| ->]; [done|by rewrite orb_true_r]|].
  apply wp_bind. destruct (Z.eqb_spec (char_at path 0) SLASH) as [Hsl|Hsl].
  - apply wp_get. destruct s.(bootfs_vnode) as [b|] eqn:Hbt; [|do 2 apply wp_ret; vfs_done].
    apply wp_bind. eapply incref_books; [done|exact Hb| |].
    + apply held_live; [done|]. unfold held. rewrite Hbt. simpl. rewrite one_self.
      pose proof (own_nonneg s.(curdir) b). pose proof (devs_own_nonneg s.(knowndevs) b). lia.
    + intros s1 Hb1. do 2 apply wp_ret. vfs_done.
  - apply wp_kassert.
    { apply Z.eqb_eq. destruct Hz as [->| ->]; [by destruct Hc as [|[]]|]. by destruct Hs as [|[]]. }
    eapply op_books; [by apply curdir_root_hands|exact Hb|]. intros [e|v] s1 Hb1; apply wp_ret; vfs_done.
Qed.

Lemma lookparent_hands path len s : vfs_wf s → hands_out (vfs_lookparent path len) got_dir s.
Proof.
  intros Hwf. unfold hands_out, vfs_lookparent. pose proof (wf_lock _ Hwf) as Hl.
  apply wp_bind. eapply acquire_books; [apply books_refl|]. intros s1 Hb1. assert (vfs_wf s1) by vfs_side.
  apply wp_bind. eapply op_books; [apply getdevice_hands; [done|rewrite (bk_lock _ _ _ _ _ Hb1); lia]|exact Hb1|].
  intros [e|[p v]] s2 Hb2; simpl in Hb2.
  { apply wp_bind. eapply release_books; [exact Hb2|lia|]. intros s3 Hb3. apply wp_ret. vfs_done. }
  assert (vfs_wf s2) by vfs_side.
  apply wp_bind. eapply op_books; [|exact Hb2|].
  { instantiate (1 := got_dir). unfold hands_out. destruct (length p =? 0)%nat; [apply wp_ret, books_refl|].
    assert (0 < refs s2 v) by vfs_side. apply wp_vop; [done|done|]. by apply law_lookparent. }
  intros r s3 Hb3. assert (vfs_wf s3) by vfs_side.
  apply wp_bind. eapply decref_books; [done|exact Hb3|vfs_side|]. intros s4 Hb4.
  apply wp_bind. eapply release_books; [exact Hb4|lia|]. intros s5 Hb5. apply wp_ret. vfs_done.
Qed.

Lemma lookup_hands path s : vfs_wf s → hands_out (vfs_lookup path) got s.
Proof.
  intros Hwf. unfold hands_out, vfs_lookup. pose proof (wf_lock _ Hwf) as Hl.
  apply wp_bind. eapply acquire_books; [apply books_refl|]. intros s1 Hb1. assert (vfs_wf s1) by vfs_side.
  apply wp_bind. eapply op_books; [apply getdevice_hands; [done|rewrite (bk_lock _ _ _ _ _ Hb1); lia]|exact Hb1|].
  intros [e|[p v]] s2 Hb2; simpl in Hb2.
  { apply wp_bind. eapply release_books; [exact Hb2|lia|]. intros s3 Hb3. apply wp_ret. vfs_done. }
  assert (vfs_wf s2) by vfs_side. destruct (length p =? 0)%nat.
  { apply wp_bind. eapply release_books; [exact Hb2|lia|]. intros s3 Hb3. apply wp_ret. vfs_done. }
  assert (0 < refs s2 v) by vfs_side.
  apply wp_bind. eapply op_books; [|exact Hb2|].
  { apply wp_vop; [done|done|]. by apply law_lookup. }
  intros r s3 Hb3. assert (vfs_wf s3) by vfs_side.
  apply wp_bind. eapply decref_books; [done|exact Hb3|vfs_side|]. intros s4 Hb4.
  apply wp_bind. eapply release_books; [exact Hb4|lia|]. intros s5 Hb5. apply wp_ret. vfs_done.
Qed.

(** An operation that keeps all counts, as an accounted step. *)
Lemma quiet_books {A} (m : M (vfs W) A) s0 k f g s Q :
  wp m (λ _, books s 0 none none) s → books s0 k f g s →
  (∀ a s', books s0 k f g s' → Q a s') → wp m Q s.
Proof.
  intros Hm Hb HQ. apply (op_books m (λ _, none) s0 k f g s Q Hm Hb). intros a s' Hs'. apply HQ.
  eapply books_eq; [..|exact Hs']; [done| |]; intros x; unfold none; lia.
Qed.

(** *** Operations on path names *)

(** Letting go of the open and of the reference it holds. *)
Lemma close_books s0 k f g v s Q :
  vfs_wf s → books s0 k f g s → 0 < opens s v →
  (∀ s', books s0 k (λ x, f x - one v x) (λ x, g x - one v x) s' → Q tt s') → wp (vfs_close v) Q s.
Proof.
  intros Hwf Hb Ho HQ. unfold vfs_close.
  apply wp_bind. eapply decopen_books; [done|apply books_refl|done|]. intros s1 Hb1.
  pose proof (wf_refs _ Hwf v) as Hr. assert (vfs_wf s1).
  { eapply books_wf; [exact Hwf|exact Hb1|pose proof (wf_lock _ Hwf); lia| |]; intros x;
      pose proof (wf_opens _ Hwf x); pose proof (wf_refs _ Hwf x); unfold one, none; destruct (Nat.eqb_spec x v) as [-> |]; lia. }
  eapply decref_books; [done|exact Hb1| |].
  - rewrite (bk_refs _ _ _ _ _ Hb1), (bk_opens _ _ _ _ _ Hb1), (books_held _ _ _ _ _ _ Hb1). unfold none. rewrite one_self. lia.
  - intros s2 Hb2. apply HQ. eapply books_eq; [..|eapply books_trans; [exact Hb|exact Hb2]]; [lia| |]; intros x; unfold none; lia.
Qed.

Lemma opened_live s v s' :
  vfs_wf s → books s 0 (λ x, none x + one v x) (λ x, none x + one v x) s' →
  vfs_wf s' ∧ 0 < opens s' v ∧ 0 < refs s' v.
Proof.
  intros Hwf Hb. assert (vfs_wf s') as Hwf'.
  { eapply books_wf; [exact Hwf|exact Hb|pose proof (wf_lock _ Hwf); lia| |]; intros x;
      pose proof (wf_opens _ Hwf x); pose proof (wf_refs _ Hwf x); pose proof (one_nonneg v x); unfold none; lia. }
  assert (0 < opens s' v).
  { rewrite (bk_opens _ _ _ _ _ Hb), one_self. pose proof (wf_opens _ Hwf v). unfold none. lia. }
  pose proof (wf_refs _ Hwf' v). pose proof (held_nonneg s' v). split_and!; [done|done|lia].
Qed.

(** What opening adds: a reference and an open of the vnode handed back. *)
Lemma open_hands path flags mode s :
  vfs_wf s → wp (vfs_open path flags mode) (λ r, books s 0 (got r) (got r)) s.
Proof.
  intros Hwf. unfold vfs_open. destruct (_ || _); [|apply wp_ret, books_refl].
  apply wp_bind. eapply (op_books _ got s 0 none none); [|apply books_refl|].
  { unfold hands_out. destruct (has_flag flags O_CREAT); [|by apply lookup_hands].
    apply wp_bind. eapply op_books; [by apply lookparent_hands|apply books_refl|].
    intros [e|[dir name]] s1 Hb1; simpl in Hb1; [apply wp_ret; vfs_done|].
    assert (vfs_wf s1) by vfs_side. assert (0 < refs s1 dir) by vfs_side.
    apply wp_bind. eapply op_books; [apply wp_vop; [done|done|by apply law_creat]|exact Hb1|]. intros r s2 Hb2.
    assert (vfs_wf s2) by vfs_side.
    apply wp_bind. eapply decref_books; [done|exact Hb2|vfs_side|]. intros s3 Hb3. apply wp_ret. vfs_done. }
  intros [e|v] s1 Hb1; simpl in Hb1; [apply wp_ret; vfs_done|].
  assert (vfs_wf s1) by vfs_side. assert (0 < refs s1 v) by vfs_side.
  apply wp_bind. eapply quiet_books; [apply wp_vop; [done|done|by apply law_open]|exact Hb1|]. intros r s2 Hb2.
  assert (vfs_wf s2) by vfs_side. assert (0 < refs s2 v) by vfs_side. destruct (negb (r =? 0)).
  { apply wp_bind. eapply decref_books; [done|exact Hb2|vfs_side|]. intros s3 Hb3. apply wp_ret. vfs_done. }
  apply wp_bind. eapply incopen_books; [done|exact Hb2|done|]. intros s3 Hb3.
  destruct (has_flag flags O_TRUNC); [|apply wp_ret; vfs_done].
  destruct (opened_live _ _ _ Hwf Hb3) as (Hwf3 & _ & Hr3).
  apply wp_bind. eapply quiet_books; [|exact Hb3|].
  { destruct (negb _); [apply wp_ret, books_refl|]. apply wp_vop; [done|done|by apply law_truncate]. }
  intros r' s4 Hb4. destruct (negb (r' =? 0)); [|apply wp_ret; vfs_done].
  destruct (opened_live _ _ _ Hwf Hb4) as (Hwf4 & Ho4 & _).
  apply wp_then. eapply close_books; [done|exact Hb4|done|]. intros s5 Hb5. apply wp_ret. vfs_done.
Qed.

Lemma in_dir_quiet path op s :
  (∀ d name s, vfs_wf s → 0 < refs s d → wp (op d name) (λ _, books s 0 none none) s) →
  vfs_wf s → wp (in_dir path op) (λ _, books s 0 none none) s.
Proof.
  intros Hop Hwf. unfold in_dir.
  apply wp_bind. eapply op_books; [by apply lookparent_hands|apply books_refl|].
  intros [e|[dir name]] s1 Hb1; simpl in Hb1; [apply wp_ret; vfs_done|].
  assert (vfs_wf s1) by vfs_side. assert (0 < refs s1 dir) by vfs_side.
  apply wp_bind. eapply quiet_books; [apply wp_vop; [done|done|by apply Hop]|exact Hb1|]. intros r s2 Hb2.
  assert (vfs_wf s2) by vfs_side.
  apply wp_bind. eapply decref_books; [done|exact Hb2|vfs_side|]. intros s3 Hb3. apply wp_ret. vfs_done.
Qed.

Lemma same_fs_ret a b s : 0 < refs s a → 0 < refs s b → ∃ r, same_fs a b s = Ret r s.
Proof.
  intros (va & Ha)%refs_live (vb & Hb)%refs_live. unfold same_fs. rewrite get_bind, Ha.
  mrun. rewrite Hb. mrun. by eexists.
Qed.

(** Two vnodes the caller has references to, an operation on both, and the two
    references are let go, the second first. *)
Lemma both_quiet a b (f : M (vfs W) Z) s0 s :
  vfs_wf s0 → books s0 0 (λ x, none x + one a x + one b x) none s →
  (∀ s, vfs_wf s → 0 < refs s a → 0 < refs s b → wp f (λ _, books s 0 none none) s) →
  wp (same ← same_fs a b;
      if negb same then vnode_decref b;; vnode_decref a;; mret EXDEV
      else result ← f; vnode_decref b;; vnode_decref a;; mret result) (λ _, books s0 0 none none) s.
Proof.
  intros Hwf Hb Hf. assert (vfs_wf s) as Hwf1 by vfs_side.
  assert (0 < refs s a) as Ha by vfs_side. assert (0 < refs s b) as Hb' by vfs_side.
  assert (∀ s' (r : Z), books s0 0 (λ x, none x + one a x + one b x) none s' →
    wp (vnode_decref b;; vnode_decref a;; mret r) (λ _, books s0 0 none none) s') as Hend.
  { intros s' r Hs'. assert (vfs_wf s') by vfs_side.
    apply wp_bind. eapply decref_books; [done|exact Hs'|vfs_side|]. intros s2 Hb2.
    assert (vfs_wf s2) by vfs_side.
    apply wp_bind. eapply decref_books; [done|exact Hb2|vfs_side|]. intros s3 Hb3. apply wp_ret. vfs_done. }
  destruct (same_fs_ret a b s Ha Hb') as [r Hr]. apply wp_bind. eapply wp_intro; [exact Hr|].
  destruct (negb r); [by apply Hend|]. apply wp_bind.
  eapply quiet_books; [by apply Hf|exact Hb|]. intros e s2 Hb2. by apply Hend.
Qed.

Lemma rename_quiet oldpath newpath s : vfs_wf s → wp (vfs_rename oldpath newpath) (λ _, books s 0 none none) s.
Proof.
  intros Hwf. unfold vfs_rename.
  apply wp_bind. eapply op_books; [by apply lookparent_hands|apply books_refl|].
  intros [e|[a n1]] s1 Hb1; simpl in Hb1; [apply wp_ret; vfs_done|]. assert (vfs_wf s1) by vfs_side.
  apply wp_bind. eapply op_books; [by apply lookparent_hands|exact Hb1|].
  intros [e|[b n2]] s2 Hb2; simpl in Hb2.
  { assert (vfs_wf s2) by vfs_side.
    apply wp_bind. eapply decref_books; [done|exact Hb2|vfs_side|]. intros s3 Hb3. apply wp_ret. vfs_done. }
  apply both_quiet; [done|done|]. intros s3 Hwf3 Ha Hb. apply wp_vop; [done|done|by apply law_rename].
Qed.

Lemma link_quiet oldpath newpath s : vfs_wf s → wp (vfs_link oldpath newpath) (λ _, books s 0 none none) s.
Proof.
  intros Hwf. unfold vfs_link.
  apply wp_bind. eapply op_books; [by apply lookup_hands|apply books_refl|].
  intros [e|a] s1 Hb1; simpl in Hb1; [apply wp_ret; vfs_done|]. assert (vfs_wf s1) by vfs_side.
  apply wp_bind. eapply op_books; [by apply lookparent_hands|exact Hb1|].
  intros [e|[b n2]] s2 Hb2; simpl in Hb2.
  { assert (vfs_wf s2) by vfs_side.
    apply wp_bind. eapply decref_books; [done|exact Hb2|vfs_side|]. intros s3 Hb3. apply wp_ret. vfs_done. }
  apply both_quiet; [done|done|]. intros s3 Hwf3 Ha Hb. apply wp_vop; [done|done|by apply law_link].
Qed.
End handing_out.

(** *** Operations that move references between the layer's own pointers *)

Section conserving.
Context {W : Type} `{!FsOps W} `{!FsLaws W}.
Implicit Types s : vfs W.

(** Every count is what it was, but for [f] more references owned by the caller:
    the references of the layer's own pointers are counted apart. *)
Record conserves s0 (k : Z) (f : nat → Z) s : Prop := Conserves {
  cs_refs : ∀ x, refs s x - held s x = refs s0 x - held s0 x + f x;
  cs_opens : ∀ x, opens s x = opens s0 x;
  cs_lock : s.(biglock) = s0.(biglock) + k;
}.

Lemma books_conserves s0 k f s k' f' s' :
  conserves s0 k f s → books s k' f' none s' → conserves s0 (k + k') (λ x, f x + f' x) s'.
Proof.
  intros [A1 A2 A3] Hb. pose proof Hb as [B1 B2 B3 _ _ _ _]. split.
  - intros x. rewrite (books_held _ _ _ _ _ x Hb), B1. specialize (A1 x). lia.
  - intros x. rewrite B2, A2. unfold none. lia.
  - lia.
Qed.

Lemma conserves_refl s : conserves s 0 none s.
Proof. split; unfold none; intros; lia. Qed.

Lemma conserves_eq s0 k f k' f' s :
  k = k' → (∀ x, f x = f' x) → conserves s0 k f s → conserves s0 k' f' s.
Proof. intros -> Hf [A1 A2 A3]. split; try done. intros x. by rewrite <- Hf. Qed.

Lemma conserves_trans s0 k f s k' f' s' :
  conserves s0 k f s → conserves s k' f' s' → conserves s0 (k + k') (λ x, f x + f' x) s'.
Proof.
  intros [A1 A2 A3] [B1 B2 B3]. split; [|intros x; by rewrite B2, A2|lia].
  intros x. rewrite B1, A1. lia.
Qed.

(** A consistent state stays so as the caller gives references back. *)
Lemma decref_wf s v Q :
  vfs_wf s → opens s v + held s v < refs s v →
  (∀ s', vfs_wf s' → books s 0 (λ x, - one v x) none s' → Q tt s') → wp (vnode_decref v) Q s.
Proof.
  intros Hwf Hv HQ. eapply decref_books; [done|apply books_refl|done|]. intros s' Hb.
  assert (books s 0 (λ x, - one v x) none s') as Hb' by (eapply books_eq; [..|exact Hb]; [done| |done]; intros x; unfold none; lia).
  apply HQ; [|done]. eapply books_wf; [exact Hwf|exact Hb'|pose proof (wf_lock _ Hwf); lia| |]; intros x;
    pose proof (wf_opens _ Hwf x); pose proof (wf_refs _ Hwf x); unfold one, none; destruct (Nat.eqb_spec x v) as [-> |]; lia.
Qed.

(** A pointer of the layer's own, [o], is dropped with its reference. *)
Lemma drop_own s o (Q : unit → vfs W → Prop) :
  vfs_wf s → (∀ v, o = Some v → opens s v + held s v < refs s v) →
  (∀ s', vfs_wf s' → books s 0 (λ x, - own o x) none s' → Q tt s') →
  wp (match o with Some old => vnode_decref old | None => mret tt end) Q s.
Proof.
  intros Hwf Ho HQ. destruct o as [v|]; [by apply decref_wf; [done|apply Ho|]|].
  apply wp_ret. apply HQ; [done|]. apply books_refl.
Qed.

(** Replacing the current directory: the caller pays for the new one, the old
    one's reference is let go. *)
Lemma replace_curdir s new (Q : unit → vfs W → Prop) :
  vfs_wf s → (∀ x, opens s x + held s x + own new x ≤ refs s x) →
  (∀ d, new = Some d → is_Some (fs_of s d)) →
  (∀ s', vfs_wf s' → conserves s 0 (λ x, - own new x) s' → Q tt s') →
  wp (modify (set_curdir new);;
      match s.(curdir) with Some old => vnode_decref old | None => mret tt end) Q s.
Proof.
  intros Hwf Hnew Hfs HQ. apply wp_modify.
  assert (∀ x, held (set_curdir new s) x = held s x - own s.(curdir) x + own new x) as Hh
    by (intros x; unfold held; simpl; lia).
  assert (vfs_wf (set_curdir new s)) as Hwf'.
  { destruct Hwf as [W1 W2 W3 W4 W5]. split; try done.
    intros x. rewrite Hh. change (opens s x + (held s x - own s.(curdir) x + own new x) ≤ refs s x).
    pose proof (own_nonneg s.(curdir) x). specialize (Hnew x). lia. }
  apply drop_own; [done| |].
  - intros v Hv. rewrite Hh, Hv. simpl. rewrite one_self.
    change (opens s v + (held s v - 1 + own new v) < refs s v). specialize (Hnew v). lia.
  - intros s' Hwf'' Hb. apply HQ; [done|]. pose proof Hb as [B1 B2 B3 _ _ _ _]. split.
    + intros x. rewrite (books_held _ _ _ _ _ x Hb), B1, Hh. change (refs (set_curdir new s) x) with (refs s x). lia.
    + intros x. rewrite B2. change (opens (set_curdir new s) x) with (opens s x). unfold none. lia.
    + simpl in B3. lia.
Qed.

Lemma change_bootfs_conserves s new Q :
  vfs_wf s → (∀ x, opens s x + held s x + own new x ≤ refs s x) →
  (∀ s', vfs_wf s' → conserves s 0 (λ x, - own new x) s' → Q tt s') →
  wp (change_bootfs new) Q s.
Proof.
  intros Hwf Hnew HQ. unfold change_bootfs. apply wp_get, wp_modify.
  assert (∀ x, held (set_bootfs new s) x = held s x - own s.(bootfs_vnode) x + own new x) as Hh
    by (intros x; unfold held; simpl; lia).
  assert (vfs_wf (set_bootfs new s)) as Hwf'.
  { destruct Hwf as [W1 W2 W3 W4 W5]. split; try done.
    intros x. rewrite Hh. change (opens s x + (held s x - own s.(bootfs_vnode) x + own new x) ≤ refs s x).
    pose proof (own_nonneg s.(bootfs_vnode) x). specialize (Hnew x). lia. }
  apply drop_own; [done| |].
  - intros v Hv. rewrite Hh, Hv. simpl. rewrite one_self.
    change (opens s v + (held s v - 1 + own new v) < refs s v). specialize (Hnew v). lia.
  - intros s' Hwf'' Hb. apply HQ; [done|]. pose proof Hb as [B1 B2 B3 _ _ _ _]. split.
    + intros x. rewrite (books_held _ _ _ _ _ x Hb), B1, Hh. change (refs (set_bootfs new s) x) with (refs s x). lia.
    + intros x. rewrite B2. change (opens (set_bootfs new s) x) with (opens s x). unfold none. lia.
    + simpl in B3. lia.
Qed.

Lemma clearcurdir_conserves s :
  vfs_wf s → wp vfs_clearcurdir (λ _ s', vfs_wf s' ∧ conserves s 0 none s') s.
Proof.
  intros Hwf. unfold vfs_clearcurdir. apply wp_get.
  apply wp_then. apply replace_curdir; [done| |done|].
  - intros x. simpl. pose proof (wf_refs _ Hwf x). lia.
  - intros s' Hwf' Hc. apply wp_ret. split; [done|]. eapply conserves_eq; [..|exact Hc]; [done|]. intros x. simpl. done.
Qed.

(** Taking a reference, in full. *)
Lemma incref_ret s v vn :
  vfs_wf s → s.(vnodes) !! v = Some vn →
  vnode_incref v s = Ret tt (set_vnodes (<[v:=Vnode (vn.(vn_refcount) + 1) vn.(vn_opencount) vn.(vn_fs)]> s.(vnodes)) s).
Proof.
  intros Hwf Hv. unfold vnode_incref. mrun. rewrite get_bind. simpl. rewrite Hv.
  mrun. mrun. unfold vfs_biglock_release.
  pose proof (wf_lock _ Hwf). rewrite get_bind. simpl. rewrite (proj2 (Z.gtb_lt _ _)) by lia. simpl.
  mrun. unfold modify. f_equal. destruct s; unfold set_biglock, set_vnodes; simpl. f_equal. lia.
Qed.

Lemma setcurdir_conserves s dir :
  vfs_wf s → 0 < refs s dir → wp (vfs_setcurdir dir) (λ _ s', vfs_wf s' ∧ conserves s 0 none s') s.
Proof.
  intros Hwf Hr. unfold vfs_setcurdir. apply wp_bind, wp_vop; [done|done|].
  eapply wp_mono; [|by apply law_gettype]. intros [e|t] s1 [Hb1 Hdir].
  { apply wp_ret. split; [by eapply books_wf_up|]. eapply conserves_eq; [..|eapply books_conserves; [apply conserves_refl|exact Hb1]]; done. }
  assert (vfs_wf s1) as Hwf1 by (by eapply books_wf_up).
  assert (conserves s 0 none s1) as Hc1 by (eapply conserves_eq; [..|eapply books_conserves; [apply conserves_refl|exact Hb1]]; done).
  destruct (Z.eqb_spec t S_IFDIR) as [->|]; simpl; [|by apply wp_ret].
  destruct (Hdir eq_refl) as [fs Hfs]. unfold fs_of in Hfs.
  destruct (s1.(vnodes) !! dir) as [vn|] eqn:Hv; [simpl in Hfs|done].
  apply wp_bind. eapply wp_intro; [by apply incref_ret|]. set (s2 := set_vnodes _ _).
  assert (books s1 0 (one dir) none s2) as Hb2.
  { pose proof (books_put s1 dir vn (vn.(vn_refcount) + 1) vn.(vn_opencount) 0 Hv) as Hb.
    eapply books_eq; [..|rewrite set_biglock_id in Hb; [exact Hb|simpl; lia]]; [done| |]; intros x; unfold none; ring. }
  assert (vfs_wf s2) as Hwf2 by (eapply books_wf_up; [exact Hwf1|exact Hb2|done|auto with vfs]).
  apply wp_get, wp_then, replace_curdir; [done| | |].
  - intros x. rewrite (bk_refs _ _ _ _ _ Hb2), (bk_opens _ _ _ _ _ Hb2), (books_held _ _ _ _ _ x Hb2).
    pose proof (wf_refs _ Hwf1 x). unfold none. simpl. lia.
  - intros d [= <-]. exists fs. unfold fs_of. simpl. by rewrite lookup_insert_eq.
  - intros s3 Hwf3 Hc3. apply wp_ret. split; [done|].
    eapply conserves_eq; [..|eapply conserves_trans; [eapply books_conserves; [exact Hc1|exact Hb2]|exact Hc3]]; [done|].
    intros x. unfold none. simpl. lia.
Qed.

Lemma chdir_conserves s path :
  vfs_wf s → wp (vfs_chdir path) (λ _ s', vfs_wf s' ∧ conserves s 0 none s') s.
Proof.
  intros Hwf. unfold vfs_chdir. apply wp_bind. eapply wp_mono; [|by apply lookup_hands].
  intros [e|v] s1 Hb1; simpl in Hb1.
  { apply wp_ret. split; [by eapply books_wf_up|]. eapply conserves_eq; [..|eapply books_conserves; [apply conserves_refl|exact Hb1]]; done. }
  assert (vfs_wf s1) as Hwf1 by (eapply books_wf_up; [exact Hwf|exact Hb1|done|auto with vfs]).
  assert (0 < refs s1 v) by (eapply live_books; [exact Hwf|exact Hb1|rewrite one_self; lia]).
  apply wp_bind. eapply wp_mono; [|by apply setcurdir_conserves]. intros e s2 [Hwf2 Hc2].
  apply wp_bind, decref_wf; [done| |].
  - destruct Hc2 as [C1 C2 _]. specialize (C1 v). rewrite (bk_refs _ _ _ _ _ Hb1), one_self, (books_held _ _ _ _ _ v Hb1) in C1.
    rewrite C2, (bk_opens _ _ _ _ _ Hb1). pose proof (wf_refs _ Hwf v). unfold none in *. lia.
  - intros s3 Hwf3 Hb3. apply wp_ret. split; [done|].
    eapply conserves_eq; [..|eapply books_conserves; [eapply conserves_trans;
      [eapply books_conserves; [apply conserves_refl|exact Hb1]|exact Hc2]|exact Hb3]]; [done|]. intros x. unfold none. lia.
Qed.

Lemma acquire_conserves s (Q : unit → vfs W → Prop) :
  vfs_wf s → (∀ s', vfs_wf s' → conserves s 1 none s' → Q tt s') → wp vfs_biglock_acquire Q s.
Proof. intros Hwf HQ. apply HQ; [by apply locked_wf|]. split; simpl; unfold none; try done. intros x. change (held (set_biglock _ s) x) with (held s x). change (refs (set_biglock _ s) x) with (refs s x). lia. Qed.

Lemma release_conserves s0 k f s (Q : unit → vfs W → Prop) :
  vfs_wf s → conserves s0 k f s → 0 < s0.(biglock) + k →
  (∀ s', vfs_wf s' → conserves s0 (k - 1) f s' → Q tt s') → wp vfs_biglock_release Q s.
Proof.
  intros Hwf [C1 C2 C3] Hk HQ. unfold vfs_biglock_release. apply wp_get, wp_kassert; [apply Z.gtb_lt; lia|].
  apply HQ; [|split; simpl; try done; lia]. destruct Hwf as [W1 W2 W3 W4 W5]. split; simpl; try done. lia.
Qed.

Lemma setbootfs_conserves s name :
  vfs_wf s → wp (vfs_setbootfs name) (λ _ s', vfs_wf s' ∧ conserves s 0 none s') s.
Proof.
  intros Hwf. unfold vfs_setbootfs. pose proof (wf_lock _ Hwf) as Hl.
  apply wp_bind, acquire_conserves; [done|]. intros s1 Hwf1 Hc1. cbv zeta.
  assert (∀ s' (r : Z), vfs_wf s' → conserves s 1 none s' →
    wp (vfs_biglock_release;; mret r) (λ _ s'', vfs_wf s'' ∧ conserves s 0 none s'') s') as Hend.
  { intros s' r Hw Hc. apply wp_bind. eapply release_conserves; [done|exact Hc|lia|]. intros s'' ? ?. by apply wp_ret. }
  destruct (bool_decide _); [by apply Hend|].
  apply wp_bind. eapply wp_mono; [|by apply chdir_conserves]. intros e s2 [Hwf2 Hc2].
  assert (conserves s 1 none s2) as Hc by (eapply conserves_eq; [..|eapply conserves_trans; [exact Hc1|exact Hc2]]; done).
  destruct (negb (e =? 0)); [by apply Hend|].
  apply wp_bind. eapply wp_mono; [|by apply getcurdir_hands]. intros [e'|v] s3 Hb3; simpl in Hb3.
  { apply Hend; [by eapply books_wf_up|]. eapply conserves_eq; [..|eapply books_conserves; [exact Hc|exact Hb3]]; done. }
  assert (vfs_wf s3) as Hwf3 by (eapply books_wf_up; [exact Hwf2|exact Hb3|done|auto with vfs]).
  apply wp_bind, change_bootfs_conserves; [done| |].
  - intros x. rewrite (bk_refs _ _ _ _ _ Hb3), (bk_opens _ _ _ _ _ Hb3), (books_held _ _ _ _ _ x Hb3).
    pose proof (wf_refs _ Hwf2 x). unfold none. simpl. lia.
  - intros s4 Hwf4 Hc4. apply Hend; [done|].
    eapply conserves_eq; [..|eapply conserves_trans; [eapply books_conserves; [exact Hc|exact Hb3]|exact Hc4]]; [done|].
    intros x. unfold none. simpl. lia.
Qed.

Lemma clearbootfs_conserves s :
  vfs_wf s → wp vfs_clearbootfs (λ _ s', vfs_wf s' ∧ conserves s 0 none s') s.
Proof.
  intros Hwf. unfold vfs_clearbootfs. pose proof (wf_lock _ Hwf) as Hl.
  apply wp_bind, acquire_conserves; [done|]. intros s1 Hwf1 Hc1.
  apply wp_bind, change_bootfs_conserves; [done|intros x; simpl; pose proof (wf_refs _ Hwf1 x); lia|].
  intros s2 Hwf2 Hc2. eapply (release_conserves s (1 + 0)); [done|eapply conserves_trans; [exact Hc1|exact Hc2]|lia|].
  intros s3 Hwf3 Hc3. split; [done|]. eapply conserves_eq; [..|exact Hc3]; [lia|]. intros x. unfold none. simpl. lia.
Qed.
End conserving.

(** ** Paths, as a specification

    A path is [device:rest], [:rest], [/rest] or relative; slashes that follow the
    colon or the leading slash are skipped. *)

Definition is_sep (c : Z) : bool := (c =? COLON) || (c =? SLASH).

Fixpoint strip_slashes (l : list Z) : list Z :=
  match l with c :: l' => if c =? SLASH then strip_slashes l' else l | [] => [] end.

(** What comes before the first colon or slash, and the rest from there on. *)
Fixpoint split_sep (l : list Z) : list Z * list Z :=
  match l with
  | [] => ([], [])
  | c :: l' => if is_sep c then ([], l) else let '(a, b) := split_sep l' in (c :: a, b)
  end.

Inductive start := FromCwd | FromDevice (name : list Z) | FromBootfs | FromFsRoot.

Definition parse_path (path : list Z) : start * list Z :=
  match split_sep path with
  | ([], c :: rest) => (if c =? COLON then FromFsRoot else FromBootfs, strip_slashes rest)
  | (dev, c :: rest) => if c =? COLON then (FromDevice dev, strip_slashes rest) else (FromCwd, path)
  | (_, []) => (FromCwd, path)
  end.

Section paths.
Context {W : Type} `{!FsOps W}.

(** The vnode a path starts from. *)
Definition start_vnode (st : start) : M (vfs W) (Z + nat) :=
  match st with
  | FromCwd => vfs_getcurdir
  | FromDevice name => vfs_getroot name
  | FromBootfs =>
      s ← get;
      match s.(bootfs_vnode) with
      | None => mret (inl ENOENT)
      | Some b => vnode_incref b;; mret (inr b)
      end
  | FromFsRoot =>
      r ← vfs_getcurdir;
      match r with
      | inl e => mret (inl e)
      | inr v =>
          s ← get;
          vn ← of_opt (s.(vnodes) !! v);
          match vn.(vn_fs) with
          | None => panic
          | Some fs => root ← fsop_getroot fs; vnode_decref v;; mret (inr root)
          end
      end
  end.

Lemma char_at_app (pre l : list Z) : char_at (pre ++ l) (Z.of_nat (length pre)) = default 0 (head l).
Proof.
  unfold char_at. rewrite zlookup_nat, lookup_app_r by lia. rewrite Nat.sub_diag. by destruct l.
Qed.

Lemma split_sep_spec l a b : split_sep l = (a, b) →
  l = a ++ b ∧ match b with [] => True | c :: _ => is_sep c = true end.
Proof.
  revert a b. induction l as [|c l IH]; simpl; intros a b; [by intros [= <- <-]|].
  destruct (is_sep c) eqn:Hc; [by intros [= <- <-]|].
  destruct (split_sep l) as [a' b']. intros [= <- <-]. destruct (IH a' b' eq_refl) as [-> Hb]. by split.
Qed.

Lemma find_sep_spec n pre l :
  Forall (λ c, c ≠ 0) l → (length l < n)%nat →
  find_sep n (pre ++ l) (Z.of_nat (length pre)) =
  match split_sep l with
  | (_, []) => (-1, -1)
  | (a, c :: _) => if c =? COLON then (-1, Z.of_nat (length pre + length a))
                   else (Z.of_nat (length pre + length a), -1)
  end.
Proof.
  revert pre n. induction l as [|c l IH]; intros pre n Hnz Hn; (destruct n as [|n]; [simpl in Hn; lia|]);
    cbn [find_sep]; rewrite char_at_app; simpl default; [done|].
  apply Forall_cons in Hnz as [Hc Hnz]. rewrite (proj2 (Z.eqb_neq c 0)) by done. cbn [split_sep]. unfold is_sep.
  destruct (Z.eqb_spec c COLON) as [->|Hco]; simpl; [f_equal; lia|].
  destruct (Z.eqb_spec c SLASH) as [->|Hsl]; simpl.
  { f_equal. lia. }
  replace (Z.of_nat (length pre) + 1) with (Z.of_nat (length (pre ++ [c]))) by (rewrite length_app; simpl; lia).
  replace (pre ++ c :: l) with ((pre ++ [c]) ++ l) by (by rewrite <- app_assoc).
  rewrite IH by (done || (simpl in Hn; lia)). destruct (split_sep l) as [a [|d b]]; [done|].
  rewrite length_app. simpl. destruct (d =? COLON); do 2 f_equal; lia.
Qed.

Lemma skip_slashes_spec n path i :
  0 ≤ i → (length path ≤ n + Z.to_nat i + 1)%nat →
  drop (Z.to_nat (skip_slashes n path i + 1)) path = strip_slashes (drop (Z.to_nat (i + 1)) path) ∧
  i ≤ skip_slashes n path i.
Proof.
  revert i. induction n as [|n IH]; intros i Hi Hn; simpl.
  - rewrite drop_ge by lia. split; [done|lia].
  - unfold char_at. unfold zlookup. rewrite (proj2 (Z.leb_le _ _)) by lia.
    destruct (path !! Z.to_nat (i + 1)) as [c|] eqn:Hc; simpl.
    + rewrite (drop_S path c _ Hc). simpl. destruct (Z.eqb_spec c SLASH); [|split; [by apply drop_S|lia]].
      destruct (IH (i + 1) ltac:(lia) ltac:(lia)) as [IH1 IH2]. split; [|lia]. rewrite IH1. do 2 f_equal. lia.
    + apply lookup_ge_None in Hc. rewrite drop_ge by lia. done.
Qed.

(** Path translation: with the big lock held, [getdevice] splits the path as
    the specification says (the device before the first colon, the boot file
    system for a leading slash, the current file system for a leading colon, the
    current directory otherwise, extra slashes skipped) and hands back the vnode
    of that starting point with the remaining path, or its error. *)
Theorem getdevice_parses (path : list Z) (s : vfs W) :
  Forall (λ c, c ≠ 0) path → 0 < s.(biglock) →
  getdevice path s =
  (r ← start_vnode (parse_path path).1;
   mret (match r with inl e => inl e | inr v => inr ((parse_path path).2, v) end)) s.
Proof.
  intros Hnz Hl. unfold getdevice, vfs_biglock_do_i_hold. mrun.
  rewrite (proj2 (Z.gtb_lt _ _)) by lia. mrun.
  pose proof (find_sep_spec (S (length path)) [] path Hnz ltac:(lia)) as Hf.
  cbn [length app] in Hf. change (Z.of_nat 0) with 0 in Hf. rewrite Hf. clear Hf.
  unfold parse_path. destruct (split_sep path) as [a b] eqn:Hs. destruct (split_sep_spec _ _ _ Hs) as [Hp Hb].
  destruct b as [|c b]; [by destruct a|].
  assert (∀ i, 0 ≤ i → drop (Z.to_nat (skip_slashes (length path) path i + 1)) path =
                       strip_slashes (drop (Z.to_nat (i + 1)) path)) as Hskip
    by (intros i Hi; apply skip_slashes_spec; lia).
  destruct (Z.eqb_spec c COLON) as [->|Hc].
  - destruct a as [|d a]; cbn [length Z.of_nat fst snd app] in *.
    + change (0 <? 0) with false. change (0 >? 0) with false. cbn [andb orb Z.eqb].
      rewrite !Hskip by lia. subst path. reflexivity.
    + rewrite (proj2 (Z.ltb_ge _ _)), (proj2 (Z.gtb_lt _ _)) by lia. cbn [andb].
      rewrite !Hskip by lia. rewrite Nat2Z.id. subst path. cbn [Nat.add].
      change (d :: a ++ COLON :: b) with ((d :: a) ++ COLON :: b).
      replace (take (S (length a)) ((d :: a) ++ COLON :: b)) with (d :: a) by (by rewrite (take_app_length (d :: a))).
      replace (drop (Z.to_nat (Z.of_nat (S (length a)) + 1)) ((d :: a) ++ COLON :: b)) with b; [done|].
      rewrite drop_app_ge by (simpl; lia).
      by replace (Z.to_nat (Z.of_nat (S (length a)) + 1) - length (d :: a))%nat with 1%nat by (simpl; lia).
  - assert (c = SLASH) as -> by (unfold is_sep in Hb; apply orb_true_iff in Hb as [?%Z.eqb_eq|?%Z.eqb_eq]; congruence).
    destruct a as [|d a]; cbn [length Z.of_nat fst snd app] in *.
    + change (-1 <? 0) with true. change (-1 >? 0) with false. cbn [andb orb negb Z.eqb].
      rewrite !Hskip by lia. subst path. reflexivity.
    + change (-1 <? 0) with true. rewrite (proj2 (Z.eqb_neq _ _)) by lia. reflexivity.
Qed.
End paths.

(** ** What the layer promises *)

(** The operations of the layer that take no part in opening and closing. *)
Inductive path_op :=
| Remove (path : list Z) | Mkdir (path : list Z) (mode : Z) | Rmdir (path : list Z)
| Symlink (contents path : list Z) | Rename (oldpath newpath : list Z) | Link (oldpath newpath : list Z)
| Chdir (path : list Z) | Clearcurdir | Setbootfs (name : list Z) | Clearbootfs.

Definition exec_path_op {W} `{!FsOps W} (o : path_op) : M (vfs W) Z :=
  match o with
  | Remove p => vfs_remove p
  | Mkdir p m => vfs_mkdir p m
  | Rmdir p => vfs_rmdir p
  | Symlink c p => vfs_symlink c p
  | Rename a b => vfs_rename a b
  | Link a b => vfs_link a b
  | Chdir p => vfs_chdir p
  | Clearcurdir => vfs_clearcurdir
  | Setbootfs n => vfs_setbootfs n
  | Clearbootfs => vfs_clearbootfs;; mret 0
  end.

Fixpoint exec_path_ops {W} `{!FsOps W} (l : list path_op) : M (vfs W) unit :=
  match l with [] => mret tt | o :: l => exec_path_op o;; exec_path_ops l end.

Section promises.
Context {W : Type} `{!FsOps W} `{!FsLaws W}.
Implicit Types s : vfs W.

Lemma quiet_conserves {A} (m : M (vfs W) A) s :
  vfs_wf s → wp m (λ _, books s 0 none none) s → wp m (λ _ s', vfs_wf s' ∧ conserves s 0 none s') s.
Proof.
  intros Hwf Hm. eapply wp_mono; [|exact Hm]. intros a s' Hb. split; [eapply books_wf_up; [exact Hwf|exact Hb|done|done]|].
  eapply conserves_eq; [..|eapply books_conserves; [apply conserves_refl|exact Hb]]; done.
Qed.

Lemma path_op_conserves o s :
  vfs_wf s → wp (exec_path_op o) (λ _ s', vfs_wf s' ∧ conserves s 0 none s') s.
Proof.
  intros Hwf. destruct o; simpl.
  - apply quiet_conserves; [done|]. apply in_dir_quiet; [|done]. intros. by apply law_remove.
  - apply quiet_conserves; [done|]. apply in_dir_quiet; [|done]. intros. by apply law_mkdir.
  - apply quiet_conserves; [done|]. apply in_dir_quiet; [|done]. intros. by apply law_rmdir.
  - apply quiet_conserves; [done|]. apply in_dir_quiet; [|done]. intros. by apply law_symlink.
  - by apply quiet_conserves, rename_quiet.
  - by apply quiet_conserves, link_quiet.
  - by apply chdir_conserves.
  - by apply clearcurdir_conserves.
  - by apply setbootfs_conserves.
  - apply wp_bind. eapply wp_mono; [|by apply clearbootfs_conserves]. intros ? s' Hs'. by apply wp_ret.
Qed.

(** C21. Opening and closing are balanced: [vfs_open] always returns, with an error
    and every reference and open count as before, or with a vnode that has exactly
    one more of each; closing that vnode then puts everything back.  This counts the
    references that have an owner: a vnode that the file system fails to reclaim
    keeps its last reference, which nobody owns any more, and its count exceeds its
    references by the number of warnings the kernel has printed about it.  The big
    lock is held to the same depth throughout. *)
Theorem vfs_open_close_balanced (path : list Z) (flags mode : Z) (s : vfs W) :
  vfs_wf s →
  wp (vfs_open path flags mode)
    (λ r s', books s 0 (got r) (got r) s' ∧
       match r with
       | inl _ => True
       | inr v => wp (vfs_close v) (λ _, books s 0 none none) s'
       end) s.
Proof.
  intros Hwf. eapply wp_mono; [|by apply open_hands]. intros [e|v] s' Hb; (split; [done|]); [done|]. simpl in Hb.
  destruct (opened_live s v s' Hwf) as (Hwf' & Ho & _); [by eapply books_eq; [..|exact Hb]|].
  eapply close_books; [done|exact Hb|done|]. intros s2 Hb2. vfs_done.
Qed.

(** C22. No reference is lost or gained: any sequence of the other operations on
    path names returns, whichever of them fail, and leaves the references of every
    vnode as they were (the count, less one for each warning about a failure to
    reclaim it), but for those of the current directory and of the boot file
    system, which follow those pointers; every pointer the layer keeps stays paid
    for. *)
Theorem path_ops_conserve_references (l : list path_op) (s : vfs W) :
  vfs_wf s → wp (exec_path_ops l) (λ _ s', vfs_wf s' ∧ conserves s 0 none s') s.
Proof.
  revert s. induction l as [|o l IH]; intros s Hwf; simpl; [apply wp_ret; split; [done|apply conserves_refl]|].
  apply wp_bind. eapply wp_mono; [|by apply path_op_conserves]. intros _ s1 [Hwf1 Hc1].
  eapply wp_mono; [|by apply IH]. intros _ s2 [Hwf2 Hc2]. split; [done|].
  eapply conserves_eq; [..|eapply conserves_trans; [exact Hc1|exact Hc2]]; done.
Qed.

(** A name with its colon, which vfs.h says may be given, is refused. *)
Lemma setbootfs_refuses_colon (name : list Z) s :
  0 ≤ s.(biglock) → (length name < 254)%nat → vfs_setbootfs (name ++ [COLON]) s = Ret EINVAL s.
Proof.
  intros Hl Hn. unfold vfs_setbootfs. mrun. cbv zeta.
  rewrite take_ge by (rewrite length_app; unfold NAME_MAX; simpl; lia).
  rewrite bool_decide_true by (apply elem_of_app; right; left).
  unfold vfs_biglock_release. unfold mbind, M_bind, get. simpl. rewrite (proj2 (Z.gtb_lt _ _)) by lia. simpl.
  unfold mret, M_ret. f_equal. destruct s; unfold set_biglock; simpl. f_equal. lia.
Qed.
End promises.

(** ** A file system in memory

    One directory, vnode 0, in which every path names the regular file of that
    length, vnode [1 + length]: an instance of the contract.  Vnode 4 cannot be
    reclaimed, as when its inode lies on a bad block. *)

Section memfs.
Implicit Types s : vfs unit.

Definition hand (v : nat) (fs : option nat) : M (vfs unit) unit := λ s,
  Ret tt (set_vnodes (<[v:=match s.(vnodes) !! v with
                           | Some vn => Vnode (vn.(vn_refcount) + 1) vn.(vn_opencount) vn.(vn_fs)
                           | None => Vnode 1 0 fs
                           end]> s.(vnodes)) s).

#[export] Instance memfs : FsOps unit := {
  vop_open _ _ := mret 0;
  vop_close _ := mret 0;
  vop_reclaim v := if (v =? 4)%nat then mret EIO else vnode_cleanup v;; mret 0;
  vop_gettype v := gets (λ s, inr (if bool_decide (v = 0%nat ∧ is_Some (fs_of s v)) then S_IFDIR else 4096));
  vop_truncate _ _ := mret 0;
  vop_creat _ name _ _ := let v := S (length name) in hand v (Some 0%nat);; mret (inr v);
  vop_symlink _ _ _ := mret EUNIMP;
  vop_mkdir _ _ _ := mret EUNIMP;
  vop_link _ _ _ := mret EUNIMP;
  vop_remove _ _ := mret 0;
  vop_rmdir _ _ := mret EUNIMP;
  vop_rename _ _ _ _ := mret 0;
  vop_lookup _ path := let v := S (length path) in hand v (Some 0%nat);; mret (inr v);
  vop_lookparent d path _ := hand d (Some 0%nat);; mret (inr (d, path));
  fsop_getroot fs := hand 0 (Some fs);; mret 0%nat;
  fsop_getvolname _ _ := None;
}.

Lemma hand_books v fs s : vfs_wf s → wp (hand v fs) (λ _, books s 0 (one v) none) s.
Proof.
  intros Hwf. unfold wp, hand. destruct (s.(vnodes) !! v) as [vn|] eqn:Hv.
  - pose proof (books_put s v vn (vn.(vn_refcount) + 1) vn.(vn_opencount) 0 Hv) as Hb.
    rewrite set_biglock_id in Hb by (simpl; lia). eapply books_eq; [..|exact Hb]; [done| |]; intros x; unfold none; ring.
  - split; simpl; try done; unfold opens, fs_of, none, one; simpl.
    + intros x. apply refs_count; [done|]. unfold count; simpl. destruct (Nat.eqb_spec x v) as [-> |]; [by rewrite lookup_insert_eq, Hv|]. rewrite lookup_insert_ne by done. lia.
    + intros x. destruct (decide (x = v)) as [-> |]; [by rewrite lookup_insert_eq, Hv|]. rewrite lookup_insert_ne by done. lia.
    + lia.
    + intros d Hd. destruct (decide (d = v)) as [-> |]; [|by rewrite lookup_insert_ne].
      destruct (wf_curdir _ Hwf v Hd) as [f Hf]. unfold fs_of in Hf. by rewrite Hv in Hf.
Qed.

Lemma cleanup_books v s :
  vfs_wf s → count s v = 1 → opens s v = 0 → held s v = 0 →
  wp (vnode_cleanup v) (λ _, books s 0 (λ x, - one v x) none) s.
Proof.
  intros Hwf Hr Ho Hh. unfold count, opens in Hr, Ho. destruct (s.(vnodes) !! v) as [vn|] eqn:Hv; [|done]. simpl in *.
  unfold vnode_cleanup. apply wp_get. eapply wp_of_opt; [exact Hv|]. rewrite Hr, Ho. do 2 (apply wp_kassert; [done|]).
  apply wp_modify'. split; simpl; try done; unfold opens, fs_of, none, one; simpl.
  - intros x. apply refs_count; [done|]. unfold count; simpl. destruct (Nat.eqb_spec x v) as [-> |]; [rewrite lookup_delete_eq, Hv; simpl; lia|]. rewrite lookup_delete_ne by done. lia.
  - intros x. destruct (decide (x = v)) as [-> |]; [rewrite lookup_delete_eq, Hv; simpl; lia|]. rewrite lookup_delete_ne by done. lia.
  - lia.
  - intros d Hd. destruct (decide (d = v)) as [-> |]; [|by rewrite lookup_delete_ne].
    unfold held in Hh. rewrite Hd in Hh. simpl in Hh. rewrite one_self in Hh.
    pose proof (own_nonneg s.(bootfs_vnode) v). pose proof (devs_own_nonneg s.(knowndevs) v). lia.
Qed.

#[export] Instance memfs_laws : FsLaws unit.
Proof.
  split; intros; try apply (books_refl s).
  - simpl. destruct (Nat.eqb_spec v 4) as [->|_]; [apply (books_refl s)|].
    apply wp_bind. eapply wp_mono; [|by apply cleanup_books]. intros ? s' Hb. by apply wp_ret.
  - split; [apply books_refl|]. case_bool_decide as Hd; [|done]. intros _. by destruct Hd as [-> ?].
  - apply wp_bind. eapply wp_mono; [|by apply hand_books]. intros ? s' Hb. by apply wp_ret.
  - apply wp_bind. eapply wp_mono; [|by apply hand_books]. intros ? s' Hb. by apply wp_ret.
  - apply wp_bind. eapply wp_mono; [|by apply hand_books]. intros ? s' Hb. by apply wp_ret.
  - apply wp_bind. eapply wp_mono; [|by apply hand_books]. intros ? s' Hb. by apply wp_ret.
Qed.
End memfs.

(** ** Examples: a current directory, a boot file system and a device [d]. *)

Definition example_vfs : vfs unit :=
  Vfs (<[0%nat:=Vnode 2 0 (Some 0%nat)]> {[ 9%nat := Vnode 1 0 None ]})
    [Knowndev [100] None (Some 0%nat) 9 None] (Some 0%nat) (Some 0%nat) 0 [] tt.

Lemma example_vfs_wf : vfs_wf example_vfs.
Proof.
  assert (∀ x, x ≠ 0%nat → x ≠ 9%nat → example_vfs.(vnodes) !! x = None) as Hn.
  { intros x H0 H9. simpl. by rewrite lookup_insert_ne, lookup_singleton_ne. }
  split.
  - intros x. unfold opens. destruct (decide (x = 0%nat)) as [-> |]; [done|]. destruct (decide (x = 9%nat)) as [-> |]; [done|].
    by rewrite Hn.
  - intros x. destruct (decide (x = 0%nat)) as [-> |]; [done|]. destruct (decide (x = 9%nat)) as [-> |]; [done|].
    unfold opens, refs, count, held. rewrite Hn by done. simpl. unfold one.
    by rewrite (proj2 (Nat.eqb_neq x 0)), (proj2 (Nat.eqb_neq x 9)).
  - done.
  - repeat constructor. intros _. by exists 0%nat.
  - intros d [= <-]. by exists 0%nat.
Qed.

(** [d:] names the device, a name in the current directory a file. *)
Lemma getdevice_parses_witness :
  getdevice [100; COLON; SLASH; SLASH; 102] (set_biglock 1 example_vfs) =
  (r ← start_vnode (FromDevice [100]); mret (match r with inl e => inl e | inr v => inr ([102], v) end))
    (set_biglock 1 example_vfs).
Proof. apply (getdevice_parses [100; COLON; SLASH; SLASH; 102]); [repeat constructor; discriminate|simpl; lia]. Defined.

(** The file opened is the one that cannot be reclaimed. *)
Lemma vfs_open_close_balanced_witness :
  wp (vfs_open [102; 103; 104] (Z.lor O_RDWR O_TRUNC) 0)
    (λ r s', books example_vfs 0 (got r) (got r) s' ∧
       match r with inl _ => True | inr v => wp (vfs_close v) (λ _, books example_vfs 0 none none) s' end) example_vfs.
Proof. apply vfs_open_close_balanced. apply example_vfs_wf. Defined.

Lemma path_ops_conserve_references_witness :
  wp (exec_path_ops [Setbootfs [100]; Chdir [SLASH]; Rename [102] [103]; Link [102; 103; 104] [105]; Clearcurdir; Remove [102]; Clearbootfs])
    (λ _ s', vfs_wf s' ∧ conserves example_vfs 0 none s') example_vfs.
Proof. apply path_ops_conserve_references. apply example_vfs_wf. Defined.
