(* ===== verification/VfsList.v ===== *)
(** The table of devices and mounted file systems (kern/vfs/vfslist.c), with the
    creation of device vnodes (the end of kern/vfs/device.c) and of the null
    device (kern/vfs/devnull.c).

    The lookups in the table are in [Vfs]; here are the operations that change
    it.  A pointer to an entry is its index.  The operations of a mounted file
    system are the class [MountOps], with the contract [MountLaws]; the address
    of a new vnode is chosen by [knew], and whether the other allocations succeed
    are booleans.  Messages are not modelled. *)

From Stdlib Require Import ZArith Lia.
From stdpp Require Import base numbers list gmap.
From S2P Require Import Prelude Vfs.

(** [set_devnumber] stores into the device's own record, which is part of the world. *)
Class MountOps (W : Type) := {
  fsop_sync : nat → M (vfs W) Z;
  fsop_unmount : nat → M (vfs W) Z;
  set_devnumber : nat → Z → W → W;
}.

Section vfslist.
Context {W : Type} `{!FsOps W} `{!MountOps W} (knew : vfs W → option nat).
Implicit Types s : vfs W.

Definition set_devs (l : list knowndev) s : vfs W :=
  Vfs s.(vnodes) l s.(bootfs_vnode) s.(curdir) s.(biglock) s.(warned) s.(world).
Definition set_world (w : W) s : vfs W :=
  Vfs s.(vnodes) s.(knowndevs) s.(bootfs_vnode) s.(curdir) s.(biglock) s.(warned) w.

Definition with_fs (o : option nat) (kd : knowndev) : knowndev :=
  Knowndev kd.(kd_name) kd.(kd_rawname) kd.(kd_device) kd.(kd_vnode) o.

(** [kd->kd_fs = o], for the entry [i]. *)
Definition set_kd_fs (i : nat) (o : option nat) : M (vfs W) unit :=
  modify (λ s, set_devs (alter (with_fs o) i s.(knowndevs)) s).

(** ** Adding devices *)

Definition dev_create_vnode : M (vfs W) (option nat) :=
  s ← get;
  match knew s with
  | None => mret None
  | Some v =>
      result ← vnode_init v None;
      if negb (result =? 0) then panic else mret (Some v)
  end.

Definition s_raw : list Z := [114; 97; 119].
Definition mkrawname (ok : bool) (name : list Z) : option (list Z) :=
  if ok then Some (name ++ s_raw) else None.

Definition samestring (a b : option (list Z)) : bool :=
  match a, b with Some a, Some b => streq a b | _, _ => false end.
Definition samestring3 (a b c d : option (list Z)) : bool :=
  samestring a b || samestring a c || samestring a d.

Fixpoint badnames_loop s (l : list knowndev) (n1 n2 n3 : option (list Z)) : bool :=
  match l with
  | [] => false
  | kd :: l =>
      match kd.(kd_fs) with
      | Some fs => samestring3 (fsop_getvolname fs s) n1 n2 n3
      | None => false
      end
      || (samestring3 kd.(kd_rawname) n1 n2 n3 || samestring3 (Some kd.(kd_name)) n1 n2 n3)
      || badnames_loop s l n1 n2 n3
  end.

Definition badnames (n1 n2 n3 : option (list Z)) : M (vfs W) bool :=
  held ← vfs_biglock_do_i_hold;
  kassert held;;
  s ← get;
  mret (badnames_loop s s.(knowndevs) n1 n2 n3).

(** [kn], [kr], [kk], [ka]: the allocations of the name, of the raw name, of the
    entry, and of room in the array succeed. *)
Definition vfs_doadd (kn kr kk ka : bool) (dname : list Z) (mountable : bool) (dev fs : option nat) : M (vfs W) Z :=
  vfs_biglock_acquire;;
  let rawname := if mountable then mkrawname kr dname else None in
  if negb kn || (mountable && negb kr) then vfs_biglock_release;; mret ENOMEM
  else
    vnode ← dev_create_vnode;
    match vnode with
    | None => vfs_biglock_release;; mret ENOMEM
    | Some v =>
        if negb kk then
          modify (λ s, set_vnodes (delete v s.(vnodes)) s);;
          vfs_biglock_release;; mret ENOMEM
        else
          s ← get;
          let kd := Knowndev dname rawname dev v fs in
          let volname := match fs with Some fs => fsop_getvolname fs s | None => None end in
          bad ← badnames (Some dname) rawname volname;
          if (bad : bool) then vfs_biglock_release;; mret EEXIST
          else
            (if ka then
               modify (set_devs (s.(knowndevs) ++ [kd]));;
               match dev with
               | Some d => modify (λ s', set_world (set_devnumber d (Z.of_nat (length s.(knowndevs)) + 1) s'.(world)) s')
               | None => mret tt
               end
             else mret tt);;
            vfs_biglock_release;;
            mret (if ka then 0 else ENOMEM)
    end.

Definition vfs_adddev (kn kr kk ka : bool) (devname : list Z) (dev : nat) (mountable : bool) : M (vfs W) Z :=
  vfs_doadd kn kr kk ka devname mountable (Some dev) None.

Definition vfs_addfs (kn kr kk ka : bool) (devname : list Z) (fs : nat) : M (vfs W) Z :=
  vfs_doadd kn kr kk ka devname false None (Some fs).

Definition s_nulldev : list Z := [110; 117; 108; 108].

Definition devnull_create (kd kn kr kk ka : bool) (dev : nat) : M (vfs W) unit :=
  if negb kd then panic
  else
    result ← vfs_adddev kn kr kk ka s_nulldev dev false;
    if negb (result =? 0) then panic else mret tt.

(** [kl]: the array and the lock were created. *)
Definition vfs_bootstrap (kl kd kn kr kk ka : bool) (dev : nat) : M (vfs W) unit :=
  if negb kl then panic
  else
    modify (λ s, set_biglock 0 (set_devs [] s));;
    devnull_create kd kn kr kk ka dev.

(** ** Mounting *)

Fixpoint findmount_loop (devname : list Z) (l : list knowndev) (i : nat) : option nat :=
  match l with
  | [] => None
  | dev :: l =>
      match dev.(kd_rawname) with
      | None => findmount_loop devname l (S i)
      | Some _ => if streq devname dev.(kd_name) then Some i else findmount_loop devname l (S i)
      end
  end.

Definition findmount (devname : list Z) : M (vfs W) (Z + nat) :=
  held ← vfs_biglock_do_i_hold;
  kassert held;;
  s ← get;
  mret (match findmount_loop devname s.(knowndevs) 0 with Some i => inr i | None => inl ENODEV end).

Definition vfs_mount (devname : list Z) (mountfunc : nat → M (vfs W) (Z + option nat)) : M (vfs W) Z :=
  vfs_biglock_acquire;;
  r ← findmount devname;
  match r with
  | inl result => vfs_biglock_release;; mret result
  | inr i =>
      s ← get;
      kd ← of_opt (s.(knowndevs) !! i);
      if bool_decide (kd.(kd_fs) ≠ None) then vfs_biglock_release;; mret EBUSY
      else
        kassert (bool_decide (kd.(kd_rawname) ≠ None));;
        match kd.(kd_device) with
        | None => panic
        | Some dev =>
            r ← mountfunc dev;
            match r with
            | inl result => vfs_biglock_release;; mret result
            | inr None => panic
            | inr (Some fs) => set_kd_fs i (Some fs);; vfs_biglock_release;; mret 0
            end
        end
  end.

Definition unmount_entry (i : nat) : M (vfs W) Z :=
  s ← get;
  kd ← of_opt (s.(knowndevs) !! i);
  match kd.(kd_fs) with
  | None => mret EINVAL
  | Some fs =>
      kassert (bool_decide (kd.(kd_rawname) ≠ None));;
      kassert (bool_decide (kd.(kd_device) ≠ None));;
      result ← fsop_sync fs;
      if negb (result =? 0) then mret result
      else
        result ← fsop_unmount fs;
        if negb (result =? 0) then mret result
        else set_kd_fs i None;; mret 0
  end.

Definition vfs_unmount (devname : list Z) : M (vfs W) Z :=
  vfs_biglock_acquire;;
  r ← findmount devname;
  result ← match r with inl result => mret result | inr i => unmount_entry i end;
  vfs_biglock_release;;
  mret result.

(** One device of the global unmount: a failed sync is tried once more, and a
    file system that cannot be synced or unmounted stays. *)
Definition unmountall_dev (i : Z) : M (vfs W) unit :=
  s ← get;
  dev ← of_opt (zlookup s.(knowndevs) i);
  match dev.(kd_rawname), dev.(kd_fs) with
  | Some _, Some fs =>
      result ← fsop_sync fs;
      result ← (if negb (result =? 0) then fsop_sync fs else mret 0);
      if negb (result =? 0) then mret tt
      else
        result ← fsop_unmount fs;
        if result =? EBUSY then mret tt
        else if negb (result =? 0) then mret tt
        else set_kd_fs (Z.to_nat i) None
  | _, _ => mret tt
  end.

Definition vfs_unmountall : M (vfs W) Z :=
  vfs_biglock_acquire;;
  s ← get;
  for_up (length s.(knowndevs)) 0 unmountall_dev;;
  vfs_biglock_release;;
  mret 0.

Definition sync_dev (i : Z) : M (vfs W) unit :=
  s ← get;
  dev ← of_opt (zlookup s.(knowndevs) i);
  match dev.(kd_fs) with
  | Some fs => fsop_sync fs;; mret tt
  | None => mret tt
  end.

Definition vfs_sync : M (vfs W) Z :=
  vfs_biglock_acquire;;
  s ← get;
  for_up (length s.(knowndevs)) 0 sync_dev;;
  vfs_biglock_release;;
  mret 0.

Fixpoint getdevname_loop (fs : nat) (l : list knowndev) : option (list Z) :=
  match l with
  | [] => None
  | kd :: l => if bool_decide (kd.(kd_fs) = Some fs) then Some kd.(kd_name) else getdevname_loop fs l
  end.

Definition vfs_getdevname (fs : nat) : M (vfs W) (option (list Z)) :=
  held ← vfs_biglock_do_i_hold;
  kassert held;;
  s ← get;
  mret (getdevname_loop fs s.(knowndevs)).
End vfslist.

(** ** What the table promises *)

(** The contract of a mounted file system: syncing and unmounting leave the
    layer's books alone; unmounting is for a file system that has just been
    synced; the name of a volume is in the world. *)
Class MountLaws (W : Type) `{!FsOps W} `{!MountOps W} := {
  synced : nat → vfs W → Prop;
  law_sync fs (s : vfs W) : vfs_wf s →
    wp (fsop_sync fs) (λ r s', books s 0 none none s' ∧ (r = 0 → synced fs s')) s;
  law_unmount fs (s : vfs W) : vfs_wf s → synced fs s →
    wp (fsop_unmount fs) (λ _, books s 0 none none) s;
  law_volname fs (s s' : vfs W) : s.(world) = s'.(world) → fsop_getvolname fs s = fsop_getvolname fs s';
}.

(** All the names of devices and raw devices. *)
Definition dev_names (kd : knowndev) : list (list Z) := kd.(kd_name) :: option_list kd.(kd_rawname).
Definition all_names (l : list knowndev) : list (list Z) := l ≫= dev_names.

Section table.
Context {W : Type} `{!FsOps W} `{!MountOps W} `{!MountLaws W}.
Implicit Types s : vfs W.

(** The layer is consistent and no two names are the same. *)
Record table_wf s : Prop := TableWf {
  tw_wf : vfs_wf s;
  tw_names : NoDup (all_names s.(knowndevs));
}.

(** From [s0] to [s] the depth of the lock has changed by [k], every vnode keeps
    its counts, and every device keeps its place and its names. *)
Record grows s0 (k : Z) s : Prop := Grows {
  gr_wf : table_wf s;
  gr_lock : s.(biglock) = s0.(biglock) + k;
  gr_curdir : s.(curdir) = s0.(curdir);
  gr_bootfs : s.(bootfs_vnode) = s0.(bootfs_vnode);
  gr_counts : ∀ x, 0 < refs s0 x → refs s x = refs s0 x ∧ opens s x = opens s0 x;
  gr_table : ∀ i kd, s0.(knowndevs) !! i = Some kd → ∃ o, s.(knowndevs) !! i = Some (with_fs o kd);
}.

Lemma with_fs_same kd : with_fs kd.(kd_fs) kd = kd.
Proof. by destruct kd. Qed.

Lemma grows_refl s : table_wf s → grows s 0 s.
Proof. intros Hw. split; try done; [lia|]. intros i kd Hk. exists kd.(kd_fs). by rewrite with_fs_same. Qed.

Lemma grows_trans s0 k s k' s' : grows s0 k s → grows s k' s' → grows s0 (k + k') s'.
Proof.
  intros [A1 A2 A3 A4 A5 A6] [B1 B2 B3 B4 B5 B6]. split; try congruence; [lia|..].
  - intros x Hx. destruct (A5 x Hx) as [E1 E2]. destruct (B5 x) as [E3 E4]; [lia|]. split; congruence.
  - intros i kd Hk. destruct (A6 i kd Hk) as [o E]. destruct (B6 i _ E) as [o' E']. by exists o'.
Qed.

Lemma books_table s k s' : table_wf s → books s k none none s' → 0 ≤ s.(biglock) + k → table_wf s'.
Proof.
  intros [Hw Hn] Hb Hk. split; [|by rewrite (bk_devs _ _ _ _ _ Hb)].
  eapply books_wf; [done|done|done|..]; intros x; unfold none; pose proof (wf_opens _ Hw x); pose proof (wf_refs _ Hw x); lia.
Qed.

Lemma grows_books s0 k s k' s' : grows s0 k s → books s k' none none s' → 0 ≤ s.(biglock) + k' → grows s0 (k + k') s'.
Proof.
  intros G Hb Hk. eapply grows_trans; [done|]. pose proof Hb as [B1 B2 B3 B4 B5 B6 _].
  split; [eapply books_table; [apply G|done|done]|done|done|done|..].
  - intros x _. rewrite B1, B2. unfold none. lia.
  - intros i kd. rewrite B6. exists kd.(kd_fs). by rewrite with_fs_same.
Qed.

Lemma set_biglock_books s k : books s k none none (set_biglock (s.(biglock) + k) s).
Proof. split; try done; intros; unfold none; change (refs (set_biglock _ s)) with (refs s); change (opens (set_biglock _ s)) with (opens s); lia. Qed.

Lemma acquire_grows s0 k s Q : grows s0 k s → (∀ s', grows s0 (k + 1) s' → s'.(knowndevs) = s.(knowndevs) → s'.(vnodes) = s.(vnodes) → Q tt s') → wp vfs_biglock_acquire Q s.
Proof.
  intros G HQ. apply wp_modify', HQ; [|done|done]. eapply grows_books; [done|apply set_biglock_books|].
  pose proof (wf_lock _ (tw_wf _ (gr_wf _ _ _ G))). lia.
Qed.

Lemma release_grows s0 k s Q : grows s0 k s → 0 < s.(biglock) → (∀ s', grows s0 (k - 1) s' → s'.(knowndevs) = s.(knowndevs) → Q tt s') → wp vfs_biglock_release Q s.
Proof.
  intros G Hl HQ. unfold vfs_biglock_release. apply wp_get. apply wp_kassert; [by apply Z.gtb_lt|].
  apply wp_modify', HQ; [|done]. eapply (grows_books _ _ _ (-1)); [done|apply set_biglock_books|lia].
Qed.

Lemma all_names_same l l' : dev_names <$> l = dev_names <$> l' → all_names l = all_names l'.
Proof.
  unfold all_names. revert l'. induction l as [|kd l IH]; intros [|kd' l'] E; try done. 
  rewrite !fmap_cons in E. injection E as E1 E2 E3. simpl. unfold dev_names. rewrite E1, E2. f_equal. f_equal. by apply IH.
Qed.

(** Changing the file system of an entry that can be mounted on. *)
Lemma set_kd_fs_grows s0 k s i kd o Q :
  grows s0 k s → s.(knowndevs) !! i = Some kd → kd.(kd_rawname) ≠ None →
  (grows s0 k (set_devs (<[i:=with_fs o kd]> s.(knowndevs)) s) → Q tt (set_devs (<[i:=with_fs o kd]> s.(knowndevs)) s)) →
  wp (set_kd_fs i o) Q s.
Proof.
  intros G Hk Hr HQ. apply wp_modify'. assert (alter (with_fs o) i s.(knowndevs) = <[i:=with_fs o kd]> s.(knowndevs)) as ->.
  { apply list_eq. intros j. destruct (decide (j = i)) as [->|Hj].
    - rewrite list_lookup_alter_eq, Hk. rewrite list_lookup_insert_eq; [done|by eapply lookup_lt_Some].
    - by rewrite list_lookup_alter_ne, list_lookup_insert_ne. }
  apply HQ. replace k with (k + 0) by lia. eapply grows_trans; [done|]. destruct (gr_wf _ _ _ G) as [Hw Hn].
  assert (∀ x, devs_own (<[i:=with_fs o kd]> s.(knowndevs)) x = devs_own s.(knowndevs) x) as Hown.
  { intros x. clear -Hk. revert i Hk. induction s.(knowndevs) as [|d l IH]; intros [|i] Hk; try done.
    - by injection Hk as ->.
    - simpl. by rewrite IH. }
  split; simpl; try done; [split|lia|].
  - destruct Hw as [W1 W2 W3 W4 W5]. split; simpl; try done.
    + intros v. specialize (W2 v). unfold held in *. simpl. by rewrite Hown.
    + apply Forall_insert; [done|]. intros _. rewrite Forall_lookup in W4. apply (W4 i kd Hk). by right.
  - simpl. erewrite all_names_same; [exact Hn|]. rewrite list_fmap_insert. apply list_insert_id. by rewrite list_lookup_fmap, Hk.
  - intros j d Hj. destruct (decide (j = i)) as [->|Hji].
    + exists o. rewrite list_lookup_insert_eq; [congruence|by eapply lookup_lt_Some].
    + exists d.(kd_fs). by rewrite list_lookup_insert_ne, with_fs_same.
Qed.

(** ** The operations keep it *)

Lemma findmount_loop_some n l k j :
  findmount_loop n l k = Some j → ∃ i kd, j = (k + i)%nat ∧ l !! i = Some kd ∧ kd.(kd_name) = n ∧ kd.(kd_rawname) ≠ None.
Proof.
  revert k. induction l as [|d l IH]; intros k Hf; [done|]. simpl in Hf.
  assert (findmount_loop n l (S k) = Some j → ∃ i kd, j = (k + i)%nat ∧ (d :: l) !! i = Some kd ∧ kd.(kd_name) = n ∧ kd.(kd_rawname) ≠ None) as Hl.
  { intros H. destruct (IH _ H) as (i & kd & -> & Hi & Hn). exists (S i), kd. split; [lia|done]. }
  destruct d.(kd_rawname) eqn:Hr; [|by apply Hl]. unfold streq in Hf. case_bool_decide; [|by apply Hl].
  injection Hf as <-. exists 0%nat, d. split; [lia|]. by rewrite Hr.
Qed.

Lemma findmount_run n s : 0 < s.(biglock) →
  findmount n s = Ret (match findmount_loop n s.(knowndevs) 0 with Some i => inr i | None => inl ENODEV end) s.
Proof.
  intros Hl. unfold findmount, vfs_biglock_do_i_hold, gets. erewrite bind_Ret by reflexivity.
  rewrite (proj2 (Z.gtb_lt _ _)) by lia. by erewrite !bind_Ret by reflexivity.
Qed.

Lemma grows_locked s0 k s : grows s0 k s → 0 < k → 0 ≤ s0.(biglock) → 0 < s.(biglock).
Proof. intros [_ E _ _ _ _] ? ?. lia. Qed.

(** What mounting a file system on a device may do. *)
Definition mount_ok (mountfunc : nat → M (vfs W) (Z + option nat)) : Prop :=
  ∀ dev s, vfs_wf s → wp (mountfunc dev) (λ r s', books s 0 none none s' ∧ r ≠ inr None) s.

(** Leave the lock and return. *)
Lemma leave_grows s0 s (r : Z) Q :
  grows s0 1 s → 0 ≤ s0.(biglock) → (∀ s', grows s0 0 s' → s'.(knowndevs) = s.(knowndevs) → Q r s') → wp (vfs_biglock_release;; mret r) Q s.
Proof.
  intros G Hl HQ. apply wp_bind. eapply release_grows; [done|eapply grows_locked; [done|lia|done]|].
  intros s' G' E. apply wp_ret. by apply HQ.
Qed.

Lemma mount_grows n mf s : table_wf s → mount_ok mf → wp (vfs_mount n mf) (λ _, grows s 0) s.
Proof.
  intros Hw Hm. pose proof (wf_lock _ (tw_wf _ Hw)) as Hl. unfold vfs_mount. apply wp_bind.
  eapply acquire_grows; [by apply grows_refl|]. intros s1 G1 _ _. eapply wp_run; [apply findmount_run; eapply grows_locked; [done|lia|done]|].
  assert (∀ s' (r : Z), grows s 1 s' → wp (vfs_biglock_release;; mret r) (λ _, grows s 0) s') as Hend.
  { intros s' r G. by eapply leave_grows. }
  destruct (findmount_loop n s1.(knowndevs) 0) as [j|] eqn:Hf; [|by apply Hend].
  destruct (findmount_loop_some _ _ _ _ Hf) as (i & kd & -> & Hk & _ & Hr). apply wp_get. eapply wp_of_opt; [exact Hk|].
  case_bool_decide as Hfs; [by apply Hend|]. apply wp_kassert; [by apply bool_decide_eq_true|].
  pose proof (wf_devs _ (tw_wf _ (gr_wf _ _ _ G1))) as Hd. rewrite Forall_lookup in Hd. 
  destruct (Hd _ _ Hk) as [dev Hdev]; [by right|]. rewrite Hdev.
  apply wp_bind. eapply wp_mono; [|apply Hm, G1]. intros r s2 [Hb Hn].
  assert (grows s 1 s2) as G2 by (eapply (grows_books _ 1 _ 0); [exact G1|done|pose proof (gr_lock _ _ _ G1); lia]).
  destruct r as [e|[fs|]]; [by apply Hend| |done].
  apply wp_bind. eapply set_kd_fs_grows; [exact G2|by rewrite (bk_devs _ _ _ _ _ Hb)|done|]. apply Hend.
Qed.

Lemma unmount_entry_grows s0 i kd s :
  grows s0 1 s → 0 ≤ s0.(biglock) → s.(knowndevs) !! i = Some kd → kd.(kd_rawname) ≠ None →
  wp (unmount_entry i) (λ r s', grows s0 1 s' ∧
    (r = 0 ∧ s'.(knowndevs) = <[i:=with_fs None kd]> s.(knowndevs) ∨ r ≠ 0 ∧ s'.(knowndevs) = s.(knowndevs))) s.
Proof.
  intros G Hl Hk Hr. unfold unmount_entry. apply wp_get. eapply wp_of_opt; [exact Hk|].
  destruct kd.(kd_fs) as [fs|] eqn:Hfs; [|apply wp_ret; split; [done|by right]].
  pose proof (wf_devs _ (tw_wf _ (gr_wf _ _ _ G))) as Hd. rewrite Forall_lookup in Hd.
  destruct (Hd _ _ Hk) as [dev Hdev]; [by right|].
  apply wp_kassert; [by apply bool_decide_eq_true|]. apply wp_kassert; [by apply bool_decide_eq_true; rewrite Hdev|].
  apply wp_bind. eapply wp_mono; [|apply law_sync, G]. intros r s1 [Hb1 Hs].
  assert (grows s0 1 s1) as G1 by (eapply (grows_books _ 1 _ 0); [exact G|done|pose proof (gr_lock _ _ _ G); lia]).
  pose proof (bk_devs _ _ _ _ _ Hb1) as E1.
  destruct (Z.eqb_spec r 0) as [Hr0|]; simpl; [|apply wp_ret; split; [done|by right]].
  apply wp_bind. eapply wp_mono; [|apply law_unmount; [apply G1|by apply Hs]]. intros r2 s2 Hb2.
  assert (grows s0 1 s2) as G2 by (eapply (grows_books _ 1 _ 0); [exact G1|done|pose proof (gr_lock _ _ _ G1); lia]).
  pose proof (bk_devs _ _ _ _ _ Hb2) as E2.
  destruct (Z.eqb_spec r2 0); simpl; [|apply wp_ret; split; [done|right; split; [done|congruence]]].
  apply wp_bind. eapply set_kd_fs_grows; [exact G2|by rewrite E2, E1|done|].
  intros G3. apply wp_ret. split; [done|]. left. split; [done|]. simpl. congruence.
Qed.

Lemma unmount_grows n s : table_wf s → wp (vfs_unmount n) (λ _, grows s 0) s.
Proof.
  intros Hw. pose proof (wf_lock _ (tw_wf _ Hw)) as Hl. unfold vfs_unmount. apply wp_bind.
  eapply acquire_grows; [by apply grows_refl|]. intros s1 G1 _ _. eapply wp_run; [apply findmount_run; eapply grows_locked; [done|lia|done]|].
  apply wp_bind. eapply (wp_mono _ (λ _, grows s 1)); [intros r s2 G2; by eapply leave_grows|].
  destruct (findmount_loop n s1.(knowndevs) 0) as [j|] eqn:Hf; [|by apply wp_ret].
  destruct (findmount_loop_some _ _ _ _ Hf) as (i & kd & -> & Hk & _ & Hr). 
  eapply wp_mono; [|by eapply unmount_entry_grows]. by intros r s2 [? _].
Qed.

(** A loop over the devices that were there when it started. *)
Lemma devs_loop_grows (body : Z → M (vfs W) unit) s :
  table_wf s →
  (∀ i kd s1, grows s 1 s1 → zlookup s1.(knowndevs) i = Some kd → wp (body i) (λ _, grows s 1) s1) →
  wp (vfs_biglock_acquire;; s ← get; for_up (length s.(knowndevs)) 0 body;; vfs_biglock_release;; mret 0) (λ r s', r = 0 ∧ grows s 0 s') s.
Proof.
  intros Hw Hbody. pose proof (wf_lock _ (tw_wf _ Hw)) as Hl. apply wp_bind.
  eapply acquire_grows; [by apply grows_refl|]. intros s1 G1 E1 _. apply wp_get. apply wp_bind.
  eapply (wp_for_up (λ _, grows s 1)); [done| |].
  - intros i s2 Hi G2. destruct (zlookup_is_Some s2.(knowndevs) i) as [kd Hk]; [|by eapply Hbody].
    split; [lia|]. rewrite E1 in Hi. destruct (zlookup_is_Some s.(knowndevs) i) as [kd Hk]; [lia|].
    pose proof (zlookup_Some_lt _ _ _ Hk). destruct (gr_table _ _ _ G2 (Z.to_nat i) kd) as [o Ho].
    { rewrite <- zlookup_nat, Z2Nat.id by lia. done. }
    apply lookup_lt_Some in Ho. lia.
  - intros s2 G2. by eapply leave_grows.
Qed.

Lemma sync_grows s0 fs s Q :
  grows s0 1 s → 0 ≤ s0.(biglock) → (∀ r s', grows s0 1 s' → s'.(knowndevs) = s.(knowndevs) → (r = 0 → synced fs s') → Q r s') → wp (fsop_sync fs) Q s.
Proof.
  intros G Hl HQ. eapply wp_mono; [|apply law_sync, G]. intros r s1 [Hb Hs]. apply HQ; [|by apply Hb|done].
  eapply (grows_books _ 1 _ 0); [exact G|done|pose proof (gr_lock _ _ _ G); lia].
Qed.

Lemma syncall_grows s : table_wf s → wp vfs_sync (λ r s', r = 0 ∧ grows s 0 s') s.
Proof.
  intros Hw. pose proof (wf_lock _ (tw_wf _ Hw)) as Hl. apply devs_loop_grows; [done|]. intros i kd s1 G1 Hk. apply wp_get. eapply wp_of_opt; [exact Hk|].
  destruct kd.(kd_fs) as [fs|]; [|by apply wp_ret]. apply wp_bind. eapply sync_grows; [done|done|]. intros r s2 G2 _ _. by apply wp_ret.
Qed.

Lemma unmountall_grows s : table_wf s → wp vfs_unmountall (λ r s', r = 0 ∧ grows s 0 s') s.
Proof.
  intros Hw. pose proof (wf_lock _ (tw_wf _ Hw)) as Hl. apply devs_loop_grows; [done|]. intros i kd s1 G1 Hk. apply wp_get. eapply wp_of_opt; [exact Hk|].
  destruct kd.(kd_rawname) as [raw|] eqn:Hr; [|by apply wp_ret]. destruct kd.(kd_fs) as [fs|]; [|by apply wp_ret].
  apply wp_bind. eapply sync_grows; [done|done|]. intros r s2 G2 E2 Hs2. apply wp_bind.
  assert (∀ r s3, grows s 1 s3 → s3.(knowndevs) = s1.(knowndevs) → (r = 0 → synced fs s3) →
    wp (if negb (r =? 0) then mret tt else result ← fsop_unmount fs; if result =? EBUSY then mret tt else if negb (result =? 0) then mret tt else set_kd_fs (Z.to_nat i) None) (λ _, grows s 1) s3) as Hrest.
  { intros r3 s3 G3 E3 Hs3. destruct (Z.eqb_spec r3 0) as [H0|]; simpl; [|by apply wp_ret].
    apply wp_bind. eapply wp_mono; [|apply law_unmount; [apply G3|by apply Hs3]]. intros r4 s4 Hb4.
    assert (grows s 1 s4) as G4 by (eapply (grows_books _ 1 _ 0); [exact G3|done|pose proof (gr_lock _ _ _ G3); lia]).
    destruct (r4 =? EBUSY); [by apply wp_ret|]. destruct (negb (r4 =? 0)); [by apply wp_ret|].
    eapply set_kd_fs_grows; [exact G4| |by rewrite Hr|done]. rewrite (bk_devs _ _ _ _ _ Hb4), E3.
    pose proof (zlookup_Some_lt _ _ _ Hk). by rewrite <- zlookup_nat, Z2Nat.id by lia. }
  destruct (Z.eqb_spec r 0) as [H0|]; simpl.
  - apply wp_ret. by apply Hrest; [|congruence|intros _; apply Hs2].
  - eapply sync_grows; [done|done|]. intros r3 s3 G3 E3 Hs3. apply Hrest; [done|congruence|done].
Qed.

(** *** Adding *)

Lemma in_names n l : n ∈ all_names l ↔ ∃ kd, kd ∈ l ∧ (kd.(kd_name) = n ∨ kd.(kd_rawname) = Some n).
Proof.
  unfold all_names. rewrite list_elem_of_bind. split; intros (kd & H1 & H2); exists kd.
  - split; [done|]. unfold dev_names in H1. apply elem_of_cons in H1 as [->|H1]; [by left|]. right.
    destruct kd.(kd_rawname); [by apply list_elem_of_singleton in H1 as ->|by apply not_elem_of_nil in H1].
  - split; [|done]. unfold dev_names. apply elem_of_cons. destruct H2 as [<-|H2]; [by left|]. right. rewrite H2. by apply list_elem_of_singleton.
Qed.

Lemma samestring3_none a b c d : samestring3 (Some a) b c d = false → b ≠ Some a ∧ c ≠ Some a ∧ d ≠ Some a.
Proof.
  unfold samestring3, samestring, streq. rewrite !orb_false_iff. intros [[H1 H2] H3].
  split_and!; intros ->; rewrite bool_decide_eq_false in *; done.
Qed.

Lemma badnames_none s l n1 n2 n3 n :
  badnames_loop s l n1 n2 n3 = false → n ∈ all_names l → n1 ≠ Some n ∧ n2 ≠ Some n.
Proof.
  intros Hb Hn. apply in_names in Hn as (kd & Hin & Hn). induction l as [|d l IH]; [by apply not_elem_of_nil in Hin|].
  simpl in Hb. rewrite !orb_false_iff in Hb. destruct Hb as [[_ [Hr Hk]] Hb].
  apply elem_of_cons in Hin as [->|Hin]; [|by apply IH].
  destruct Hn as [<-|Hn]; [by apply samestring3_none in Hk as (? & ? & _)|]. rewrite Hn in Hr. by apply samestring3_none in Hr as (? & ? & _).
Qed.

Lemma names_app l kd : NoDup (all_names l) → NoDup (dev_names kd) → (∀ n, n ∈ dev_names kd → n ∉ all_names l) → NoDup (all_names (l ++ [kd])).
Proof.
  intros H1 H2 H3. unfold all_names. rewrite bind_app. simpl. rewrite app_nil_r. apply NoDup_app. split; [done|]. split; [|done].
  intros n Hn Hk. by apply (H3 n).
Qed.

Lemma devs_own_app l kd x : devs_own (l ++ [kd]) x = devs_own l x + own (kd.(kd_device) ≫= λ _, Some kd.(kd_vnode)) x.
Proof. induction l as [|d l IH]; simpl; [destruct kd.(kd_device); simpl; lia|]. rewrite IH. lia. Qed.

(** A vnode of its own for the device, with one reference nobody owns yet. *)
Lemma new_vnode_grows s0 k s v :
  grows s0 k s → s.(vnodes) !! v = None →
  let s' := set_vnodes (<[v:=Vnode 1 0 None]> s.(vnodes)) s in grows s0 k s' ∧ refs s' v = 1 ∧ opens s' v = 0 ∧ held s' v = 0.
Proof.
  intros G Hv s'. destruct (gr_wf _ _ _ G) as [Hw Hn].
  assert (count s v = 0 ∧ opens s v = 0) as [Hc Ho] by (unfold count, opens; by rewrite Hv).
  pose proof (wf_refs _ Hw v). pose proof (held_nonneg s v). pose proof (warnings_nonneg s v).
  assert (refs s v = 0 ∧ held s v = 0) as [Hr Hh] by (unfold refs in *; lia).
  assert (refs s' v = 1 ∧ opens s' v = 0) as [Hr' Ho'].
  { split; [rewrite (refs_count s s' v 1); [lia|done|]|]; [rewrite Hc; unfold count|unfold opens]; simpl; by rewrite lookup_insert_eq. }
  assert (∀ x, x ≠ v → refs s' x = refs s x ∧ opens s' x = opens s x) as Hx.
  { intros x Hxv. split; [rewrite (refs_count s s' x 0); [lia|done|]; unfold count|unfold opens]; simpl; rewrite lookup_insert_ne by done; (done || lia). }
  split; [|done]. replace k with (k + 0) by lia. eapply grows_trans; [done|]. split; simpl; try done; [split; [|done]|lia|..].
  - destruct Hw as [W1 W2 W3 W4 W5]. split; try done.
    + intros x. destruct (decide (x = v)) as [->|Hxv]; [lia|]. destruct (Hx x Hxv) as [_ ->]. apply W1.
    + intros x. change (held s' x) with (held s x). destruct (decide (x = v)) as [->|Hxv]; [lia|]. destruct (Hx x Hxv) as [-> ->]. apply W2.
    + intros d Hd. destruct (W5 d Hd) as [fs Hfs]. exists fs. unfold fs_of in *. simpl. rewrite lookup_insert_ne; [done|]. intros <-. by rewrite Hv in Hfs.
  - intros x Hp. apply Hx. intros ->. lia.
  - intros i kd. exists kd.(kd_fs). by rewrite with_fs_same.
Qed.

Lemma add_entry_grows s0 k s kd :
  grows s0 k s → refs s kd.(kd_vnode) = 1 → opens s kd.(kd_vnode) = 0 → held s kd.(kd_vnode) = 0 → dev_ok kd →
  NoDup (dev_names kd) → (∀ n, n ∈ dev_names kd → n ∉ all_names s.(knowndevs)) →
  grows s0 k (set_devs (s.(knowndevs) ++ [kd]) s).
Proof.
  intros G Hr Ho Hh Hok Hn1 Hn2. destruct (gr_wf _ _ _ G) as [Hw Hn].
  replace k with (k + 0) by lia. eapply grows_trans; [done|]. split; simpl; try done; [split|lia|].
  - destruct Hw as [W1 W2 W3 W4 W5]. split; simpl; try done.
    + intros x. specialize (W2 x). change (opens (set_devs _ s) x) with (opens s x). change (refs (set_devs _ s) x) with (refs s x).
      unfold held in *. simpl. rewrite devs_own_app. destruct kd.(kd_device) as [d|]; simpl; [|lia].
      unfold one. destruct (Nat.eqb_spec x kd.(kd_vnode)) as [->|]; lia.
    + apply Forall_app. split; [done|]. by apply Forall_singleton.
  - simpl. by apply names_app.
  - intros i d Hi. exists d.(kd_fs). rewrite with_fs_same. by apply lookup_app_l_Some.
Qed.

Lemma set_world_grows s0 k s w : grows s0 k s → grows s0 k (set_world w s).
Proof.
  intros [[[W1 W2 W3 W4 W5] Hn] A2 A3 A4 A5 A6]. split; try done.
Qed.

Lemma rawname_distinct (dname : list Z) (kr mountable : bool) dev v fs :
  NoDup (dev_names (Knowndev dname (if mountable then mkrawname kr dname else None) dev v fs)).
Proof.
  unfold dev_names. simpl. destruct mountable; [|apply NoDup_singleton]. unfold mkrawname. destruct kr; [|apply NoDup_singleton].
  simpl. apply NoDup_cons. split; [|apply NoDup_singleton]. intros H. apply list_elem_of_singleton in H.
  apply (f_equal length) in H. rewrite length_app in H. simpl in H. lia.
Qed.

Context (knew : vfs W → option nat) (Hknew : ∀ s v, knew s = Some v → s.(vnodes) !! v = None).

Lemma doadd_grows kn kr kk ka dname mountable dev fs s :
  table_wf s → (dev = None → fs ≠ None ∧ mountable = false) →
  wp (vfs_doadd knew kn kr kk ka dname mountable dev fs) (λ _, grows s 0) s.
Proof.
  intros Hw Hdev. pose proof (wf_lock _ (tw_wf _ Hw)) as Hl. unfold vfs_doadd. apply wp_bind.
  eapply acquire_grows; [by apply grows_refl|]. intros s1 G1 _ _.
  assert (∀ s' (r : Z), grows s 1 s' → wp (vfs_biglock_release;; mret r) (λ _, grows s 0) s') as Hend by (intros s' r G; by eapply leave_grows).
  destruct (negb kn || (mountable && negb kr)) eqn:Hk; [by apply Hend|].
  unfold dev_create_vnode. apply wp_bind. apply wp_get. destruct (knew s1) as [v|] eqn:Hv; [|apply wp_ret; by apply Hend].
  eapply wp_run; [reflexivity|]. apply wp_ret. set (s2 := set_vnodes _ s1).
  destruct (new_vnode_grows s (0 + 1) s1 v G1 (Hknew _ _ Hv)) as (G2 & Hr & Ho & Hh). fold s2 in G2, Hr, Ho, Hh.
  destruct kk; simpl negb; cbv iota.
  - apply wp_get. eapply wp_run.
    { unfold badnames, vfs_biglock_do_i_hold, gets. erewrite bind_Ret by reflexivity.
      rewrite (proj2 (Z.gtb_lt _ _)) by (eapply grows_locked; [exact G2|lia|done]). by erewrite !bind_Ret by reflexivity. }
    cbv beta. destruct (badnames_loop _ _ _ _ _) eqn:Hb; [by apply Hend|]. set (kd := Knowndev _ _ _ _ _).
    destruct ka; [|apply wp_bind, wp_ret; by apply Hend].
    assert (grows s 1 (set_devs (s2.(knowndevs) ++ [kd]) s2)) as G3.
    { apply add_entry_grows; try done.
      - intros Hx. destruct dev as [d|]; [by exists d|]. destruct (Hdev eq_refl) as [Hf ->]. simpl in Hx. by destruct Hx.
      - apply rawname_distinct.
      - intros n Hn Hin. destruct (badnames_none _ _ _ _ _ _ Hb Hin) as [H1 H2]. unfold dev_names in Hn. simpl in Hn.
        apply elem_of_cons in Hn as [->|Hn]; [done|]. destruct (if mountable then _ else _); [|by apply not_elem_of_nil in Hn].
        apply list_elem_of_singleton in Hn. by subst. }
    apply wp_bind, wp_modify. destruct dev as [d|]; [apply wp_modify'; apply Hend; by apply set_world_grows|apply wp_ret; by apply Hend].
  - apply wp_modify. apply Hend. replace (set_vnodes _ s2) with s1; [done|].
    unfold s2, set_vnodes. simpl. rewrite delete_insert_id by (by apply Hknew). by destruct s1.
Qed.

(** ** Operations in any order *)

Inductive dev_op :=
  | AddDev (kn kr kk ka : bool) (name : list Z) (dev : nat) (mountable : bool)
  | AddFs (kn kr kk ka : bool) (name : list Z) (fs : nat)
  | Mount (name : list Z) (mountfunc : nat → M (vfs W) (Z + option nat))
  | Unmount (name : list Z)
  | UnmountAll
  | SyncAll.

Definition exec_dev_op (o : dev_op) : M (vfs W) Z :=
  match o with
  | AddDev kn kr kk ka name dev mountable => vfs_adddev knew kn kr kk ka name dev mountable
  | AddFs kn kr kk ka name fs => vfs_addfs knew kn kr kk ka name fs
  | Mount name mountfunc => vfs_mount name mountfunc
  | Unmount name => vfs_unmount name
  | UnmountAll => vfs_unmountall
  | SyncAll => vfs_sync
  end.

Fixpoint exec_dev_ops (l : list dev_op) : M (vfs W) unit :=
  match l with [] => mret tt | o :: l => exec_dev_op o;; exec_dev_ops l end.

Definition dev_op_ok (o : dev_op) : Prop := match o with Mount _ mf => mount_ok mf | _ => True end.

Lemma dev_op_grows o s : table_wf s → dev_op_ok o → wp (exec_dev_op o) (λ _, grows s 0) s.
Proof.
  intros Hw Ho. destruct o; simpl.
  - by apply doadd_grows.
  - by apply doadd_grows.
  - by apply mount_grows.
  - by apply unmount_grows.
  - eapply wp_mono; [|by apply unmountall_grows]. by intros r s' [_ ?].
  - eapply wp_mono; [|by apply syncall_grows]. by intros r s' [_ ?].
Qed.

(** C23. The table of devices stays well formed: whatever devices and file systems are
    added, mounted, unmounted and synced, in whatever order, with whichever
    allocations and file system operations failing, every call returns; no two
    devices or raw devices ever share a name, every device that can be named as
    such has its object and every vnode in the table its reference; entries never
    move and never change their names; and all other counts and pointers, and the
    depth of the lock, are as before. *)
Theorem device_table_wf (l : list dev_op) (s : vfs W) :
  table_wf s → Forall dev_op_ok l → wp (exec_dev_ops l) (λ _, grows s 0) s.
Proof.
  intros Hw Hl. assert (∀ s', grows s 0 s' → wp (exec_dev_ops l) (λ _, grows s 0) s') as H; [|by apply H, grows_refl].
  induction Hl as [|o l Ho Hl IH]; intros s' G; [by apply wp_ret|]. simpl. apply wp_bind.
  eapply wp_mono; [|by apply dev_op_grows; [apply G|]]. intros r s1 G1. apply IH. by apply (grows_trans _ 0 _ 0 _ G G1).
Qed.

(** ** What a name refers to *)

Definition locked s : vfs W := set_biglock (s.(biglock) + 1) s.

(** No other device has a volume of this name mounted. *)
Definition volumes_apart s (i : nat) (n : list Z) : Prop :=
  ∀ j kd fs, j ≠ i → s.(knowndevs) !! j = Some kd → kd.(kd_fs) = Some fs → fsop_getvolname fs s ≠ Some n.

Lemma getroot_skip n kd s :
  kd.(kd_name) ≠ n → kd.(kd_rawname) ≠ Some n → (∀ fs, kd.(kd_fs) = Some fs → fsop_getvolname fs s ≠ Some n) →
  getroot_dev n kd s = Ret None s.
Proof.
  intros H1 H2 H3. unfold getroot_dev, streq. rewrite get_bind. cbv zeta. rewrite (bool_decide_false (kd.(kd_name) = n)) by done.
  rewrite andb_false_r. simpl orb. destruct kd.(kd_fs) as [fs|].
  - specialize (H3 fs eq_refl). destruct (fsop_getvolname fs s) as [vn|]; [rewrite (bool_decide_false (vn = n)) by congruence|];
      destruct kd.(kd_rawname) as [r|]; try done; by rewrite (bool_decide_false (r = n)) by congruence.
  - destruct kd.(kd_rawname) as [r|]; [|done]. by rewrite (bool_decide_false (r = n)) by congruence.
Qed.

Lemma getroot_loop_at n l i kd s :
  l !! i = Some kd → (∀ j d, (j < i)%nat → l !! j = Some d → getroot_dev n d s = Ret None s) →
  getroot_loop n l s = (r ← getroot_dev n kd; match r with Some x => mret x | None => getroot_loop n (drop (S i) l) end) s.
Proof.
  revert i. induction l as [|d l IH]; intros [|i] Hk Hs; try done.
  - by injection Hk as ->.
  - simpl getroot_loop. erewrite bind_Ret by (apply (Hs 0%nat); [lia|done]). apply IH; [done|].
    intros j d' Hj. apply (Hs (S j)). lia.
Qed.

Lemma getroot_run n s : 0 < s.(biglock) → vfs_getroot n s = getroot_loop n s.(knowndevs) s.
Proof.
  intros Hl. unfold vfs_getroot, vfs_biglock_do_i_hold, gets. erewrite bind_Ret by reflexivity.
  rewrite (proj2 (Z.gtb_lt _ _)) by lia. by erewrite !bind_Ret by reflexivity.
Qed.

(** Two entries with a name in common are the same entry. *)
Lemma names_apart l i j kd d n :
  NoDup (all_names l) → l !! i = Some kd → l !! j = Some d → n ∈ dev_names kd → n ∈ dev_names d → i = j.
Proof.
  revert i j. induction l as [|a l IH]; intros i j Hn Hi Hj Hk Hd; [done|].
  change (all_names (a :: l)) with (dev_names a ++ all_names l) in Hn. apply NoDup_app in Hn as (_ & Ha & Hn).
  assert (∀ k x, l !! k = Some x → n ∈ dev_names x → n ∈ dev_names a → False) as Hx.
  { intros k x Hkx Hx Hxa. apply (Ha n Hxa). apply list_elem_of_bind. exists x. split; [done|by eapply list_elem_of_lookup_2]. }
  destruct i as [|i], j as [|j]; try done.
  - injection Hi as ->. by destruct (Hx j d Hj Hd).
  - injection Hj as ->. by destruct (Hx i kd Hi Hk).
  - f_equal. by apply IH.
Qed.

Lemma name_in kd : kd.(kd_name) ∈ dev_names kd.
Proof. apply elem_of_cons. by left. Qed.
Lemma raw_in kd n : kd.(kd_rawname) = Some n → n ∈ dev_names kd.
Proof. intros E. unfold dev_names. rewrite E. apply elem_of_cons. right. by apply list_elem_of_singleton. Qed.

Lemma getroot_named s i kd :
  NoDup (all_names s.(knowndevs)) → 0 < s.(biglock) → s.(knowndevs) !! i = Some kd → volumes_apart s i kd.(kd_name) →
  vfs_getroot kd.(kd_name) s = (r ← getroot_dev kd.(kd_name) kd; match r with Some x => mret x | None => getroot_loop kd.(kd_name) (drop (S i) s.(knowndevs)) end) s.
Proof.
  intros Hn Hl Hk Hv. rewrite getroot_run by done. apply getroot_loop_at; [done|]. intros j d Hj Hd. apply getroot_skip.
  - intros E. assert (i = j); [|lia]. eapply names_apart; [done|done|exact Hd|apply name_in|rewrite <- E; apply name_in].
  - intros E. assert (i = j); [|lia]. eapply names_apart; [done|done|exact Hd|apply name_in|by apply raw_in].
  - intros fs Hfs. eapply Hv; [|done|done]. lia.
Qed.

Lemma findmount_loop_at l i kd k :
  NoDup (all_names l) → l !! i = Some kd → kd.(kd_rawname) ≠ None → findmount_loop kd.(kd_name) l k = Some (k + i)%nat.
Proof.
  revert i k. induction l as [|d l IH]; intros i k Hn Hk Hr; [done|]. simpl.
  assert (∀ i', i = S i' → kd.(kd_name) ≠ d.(kd_name)) as Hne.
  { intros i' -> E. pose proof (names_apart _ (S i') 0 _ d _ Hn Hk eq_refl (name_in kd)) as H. rewrite E in H. by specialize (H (name_in d)). }
  destruct i as [|i].
  - injection Hk as ->. destruct kd.(kd_rawname); [|done]. unfold streq. rewrite bool_decide_true by done. f_equal. lia.
  - replace (k + S i)%nat with (S k + i)%nat by lia. 
    change (all_names (d :: l)) with (dev_names d ++ all_names l) in Hn. apply NoDup_app in Hn as (_ & _ & Hn).
    unfold streq. rewrite (bool_decide_false) by (by eapply Hne). destruct d.(kd_rawname); by apply IH.
Qed.

(** Mounting a volume renames no volume that is mounted already. *)
Definition mounts_apart (mountfunc : nat → M (vfs W) (Z + option nat)) s : Prop :=
  ∀ dev, wp (mountfunc dev) (λ r s', books s 0 none none s' ∧ r ≠ inr None ∧ r ≠ inl 0 ∧
    ∀ kd fs, kd ∈ s.(knowndevs) → kd.(kd_fs) = Some fs → fsop_getvolname fs s' = fsop_getvolname fs s) s.

Lemma lock_unlock s : set_biglock ((locked s).(biglock) - 1) (locked s) = s.
Proof. destruct s. unfold set_biglock, locked. simpl. f_equal. lia. Qed.

(** Under the lock, found; then back out without a change. *)
Lemma found_at n i kd s : table_wf s → s.(knowndevs) !! i = Some kd → kd.(kd_name) = n → kd.(kd_rawname) ≠ None → findmount n (locked s) = Ret (inr i) (locked s).
Proof.
  intros [Hw Hn] Hk <- Hr. rewrite findmount_run by (simpl; pose proof (wf_lock _ Hw); lia). simpl.
  by rewrite (findmount_loop_at _ i kd 0 Hn Hk Hr).
Qed.

Lemma release_locked s : 0 ≤ s.(biglock) → vfs_biglock_release (locked s) = Ret tt s.
Proof.
  intros Hl. unfold vfs_biglock_release. rewrite get_bind. rewrite (proj2 (Z.gtb_lt _ _)) by (simpl; lia).
  erewrite bind_Ret by reflexivity. unfold modify. by rewrite lock_unlock.
Qed.

Lemma mount_busy n i kd mf s :
  table_wf s → s.(knowndevs) !! i = Some kd → kd.(kd_name) = n → kd.(kd_rawname) ≠ None → kd.(kd_fs) ≠ None → vfs_mount n mf s = Ret EBUSY s.
Proof.
  intros Hw Hk Hn Hr Hf. unfold vfs_mount. erewrite bind_Ret by reflexivity. erewrite bind_Ret by (by eapply found_at).
  cbv beta iota. rewrite get_bind. erewrite bind_Ret by (change ((locked s).(knowndevs)) with s.(knowndevs); rewrite Hk; reflexivity).
  rewrite bool_decide_true by done. erewrite bind_Ret; [reflexivity|]. apply release_locked. by apply Hw.
Qed.

Lemma unmount_none n i kd s :
  table_wf s → s.(knowndevs) !! i = Some kd → kd.(kd_name) = n → kd.(kd_rawname) ≠ None → kd.(kd_fs) = None → vfs_unmount n s = Ret EINVAL s.
Proof.
  intros Hw Hk Hn Hr Hf. unfold vfs_unmount. erewrite bind_Ret by reflexivity. erewrite bind_Ret by (by eapply found_at).
  cbv beta iota. erewrite bind_Ret; [|unfold unmount_entry; rewrite get_bind;
    erewrite bind_Ret by (change ((locked s).(knowndevs)) with s.(knowndevs); rewrite Hk; reflexivity); rewrite Hf; reflexivity].
  erewrite bind_Ret; [reflexivity|]. apply release_locked. by apply Hw.
Qed.

(** Mounting on a free device: all or nothing. *)
Lemma mount_run n i kd mf s :
  table_wf s → s.(knowndevs) !! i = Some kd → kd.(kd_name) = n → kd.(kd_rawname) ≠ None → kd.(kd_fs) = None → mounts_apart mf (locked s) →
  wp (vfs_mount n mf) (λ r s', grows s 0 s' ∧ (r ≠ 0 ∧ s'.(knowndevs) = s.(knowndevs) ∨
    r = 0 ∧ ∃ fs, s'.(knowndevs) = <[i:=with_fs (Some fs) kd]> s.(knowndevs) ∧
      ∀ d f, d ∈ s.(knowndevs) → d.(kd_fs) = Some f → fsop_getvolname f s' = fsop_getvolname f s)) s.
Proof.
  intros Hw Hk Hn Hr Hf Hm. pose proof (wf_lock _ (tw_wf _ Hw)) as Hl. unfold vfs_mount.
  assert (grows s 1 (locked s)) as G1 by (eapply (grows_books _ 0 _ 1); [by apply grows_refl|apply set_biglock_books|lia]).
  eapply wp_run; [reflexivity|]. eapply wp_run; [by eapply found_at|]. apply wp_get. eapply wp_of_opt; [exact Hk|].
  rewrite bool_decide_false by (rewrite Hf; tauto). apply wp_kassert; [by apply bool_decide_eq_true|].
  pose proof (wf_devs _ (tw_wf _ Hw)) as Hd. rewrite Forall_lookup in Hd. destruct (Hd _ _ Hk) as [dev Hdev]; [by right|]. rewrite Hdev.
  apply wp_bind. eapply wp_mono; [|apply Hm]. intros r s1 (Hb & Hn1 & Hn2 & Hv).
  assert (grows s 1 s1) as G2 by (eapply (grows_books _ 1 _ 0); [exact G1|done|simpl; lia]).
  pose proof (bk_devs _ _ _ _ _ Hb) as E.
  destruct r as [e|[fs|]]; [| |done].
  - eapply leave_grows; [done|done|]. intros s' G' E'. split; [done|]. left. split; [congruence|]. by rewrite E', E.
  - apply wp_bind. eapply set_kd_fs_grows; [exact G2|rewrite E; exact Hk|done|]. intros G3.
    set (s2 := set_devs _ s1) in *. assert (0 < s2.(biglock)) by (eapply grows_locked; [exact G3|lia|done]).
    eapply wp_run; [unfold vfs_biglock_release; rewrite get_bind, (proj2 (Z.gtb_lt _ _)) by lia; erewrite bind_Ret by reflexivity; reflexivity|].
    apply wp_ret. split; [eapply (grows_books _ 1 _ (-1)); [exact G3|apply set_biglock_books|lia]|].
    right. split; [done|]. exists fs. split; [simpl; by rewrite E|]. intros d f Hdf Hff.
    rewrite <- (law_volname f (locked s) s eq_refl), <- (Hv d f Hdf Hff). by apply law_volname.
Qed.

Lemma insert_volumes_apart s s' i kd fs n :
  volumes_apart s i n → s.(knowndevs) !! i = Some kd → s'.(knowndevs) = <[i:=with_fs (Some fs) kd]> s.(knowndevs) →
  (∀ d f, d ∈ s.(knowndevs) → d.(kd_fs) = Some f → fsop_getvolname f s' = fsop_getvolname f s) → volumes_apart (locked s') i n.
Proof.
  intros Hv Hk E Hs j d f Hj Hd Hf. simpl in Hd. rewrite E, list_lookup_insert_ne in Hd by done.
  rewrite (law_volname f (locked s') s' eq_refl), (Hs d f); [|by eapply list_elem_of_lookup_2|done]. by eapply Hv.
Qed.

(** C24. The life of a mount.  A mountable device with nothing on it answers [ENXIO]
    to its name and [EINVAL] to [vfs_unmount].  [vfs_mount] either fails and leaves
    the table as it was, or hangs the new file system on exactly that device: the
    name now leads to the root of the file system, and a second mount is refused with
    [EBUSY] and changes nothing.  [vfs_unmount] then either fails and leaves the
    table, or gives back the table from before the mount.  (The device's name must
    not be the name of a volume mounted elsewhere, which [vfs_mount] does not
    check.) *)
Theorem mount_lifecycle (i : nat) (kd : knowndev) mountfunc (s : vfs W) :
  table_wf s → s.(knowndevs) !! i = Some kd → kd.(kd_rawname) ≠ None → kd.(kd_fs) = None →
  volumes_apart s i kd.(kd_name) → mounts_apart mountfunc (locked s) →
  vfs_getroot kd.(kd_name) (locked s) = Ret (inl ENXIO) (locked s) ∧
  vfs_unmount kd.(kd_name) s = Ret EINVAL s ∧
  wp (vfs_mount kd.(kd_name) mountfunc) (λ r s', grows s 0 s' ∧ (r ≠ 0 ∧ s'.(knowndevs) = s.(knowndevs) ∨
    r = 0 ∧ ∃ fs, s'.(knowndevs) = <[i:=with_fs (Some fs) kd]> s.(knowndevs) ∧
      vfs_getroot kd.(kd_name) (locked s') = (root ← fsop_getroot fs; mret (inr root)) (locked s') ∧
      vfs_mount kd.(kd_name) mountfunc s' = Ret EBUSY s' ∧
      wp (vfs_unmount kd.(kd_name)) (λ r' s'', grows s' 0 s'' ∧
        (r' ≠ 0 ∧ s''.(knowndevs) = s'.(knowndevs) ∨ r' = 0 ∧ s''.(knowndevs) = s.(knowndevs))) s')) s.
Proof.
  intros Hw Hk Hr Hf Hv Hm. pose proof (wf_lock _ (tw_wf _ Hw)) as Hl. split_and!.
  - rewrite (getroot_named (locked s) i kd); [|apply Hw|simpl; lia|done|].
    2: { intros j d fs Hj Hd Hfs. rewrite (law_volname fs (locked s) s eq_refl). by eapply Hv. }
    rewrite (bind_Ret _ _ (locked s) (Some (inl ENXIO)) (locked s)); [reflexivity|]. unfold getroot_dev. rewrite get_bind. cbv zeta. rewrite Hf.
    unfold streq. rewrite (bool_decide_true (kd.(kd_name) = _)) by done. destruct kd.(kd_rawname); [|done]. by rewrite bool_decide_true by done.
  - by eapply unmount_none.
  - eapply wp_mono; [|by eapply (mount_run _ i kd)]. intros r s' [G [?|(-> & fs & E & Hs)]]; (split; [done|]); [by left|].
    right. split; [done|]. exists fs. split; [done|]. pose proof (gr_wf _ _ _ G) as Hw'. pose proof (wf_lock _ (tw_wf _ Hw')) as Hl'.
    assert (s'.(knowndevs) !! i = Some (with_fs (Some fs) kd)) as Hk' by (rewrite E; apply list_lookup_insert_eq; by eapply lookup_lt_Some).
    split_and!; [|by eapply mount_busy|].
    + change kd.(kd_name) with (with_fs (Some fs) kd).(kd_name). rewrite (getroot_named (locked s') i (with_fs (Some fs) kd)); [|apply Hw'|simpl; lia|done|by eapply insert_volumes_apart].
      unfold getroot_dev. rewrite bind_assoc, get_bind. cbv zeta. simpl kd_fs. cbv iota. unfold streq. rewrite (bool_decide_true (_ = _)) by done.
      simpl orb. cbv iota. rewrite bind_assoc. reflexivity.
    + unfold vfs_unmount. assert (grows s' 1 (locked s')) as G1 by (eapply (grows_books _ 0 _ 1); [by apply grows_refl|apply set_biglock_books|lia]).
      eapply wp_run; [reflexivity|]. eapply wp_run; [by eapply found_at|]. cbv beta iota. apply wp_bind.
      eapply wp_mono; [|eapply (unmount_entry_grows s' i); [done|done|exact Hk'|done]]. intros r s2 [G2 H2].
      eapply leave_grows; [done|done|]. intros s3 G3 E3. split; [done|]. rewrite E3. destruct H2 as [[-> H2]|[? H2]]; [right|by left].
      split; [done|]. rewrite H2. simpl. rewrite E, list_insert_insert_eq. apply list_insert_id. rewrite Hk. by destruct kd; simpl in *; subst.
Qed.
End table.

(** ** Examples *)

#[export] Instance memfs_mount : MountOps unit := {
  fsop_sync _ := mret 0;
  fsop_unmount _ := mret 0;
  set_devnumber _ _ w := w;
}.

#[export] Instance memfs_mount_laws : MountLaws unit.
Proof.
  refine {| synced _ _ := True |}; try done.
  - intros fs s Hw. by split; [apply books_refl|].
  - intros fs s Hw _. apply books_refl.
Defined.

Definition ex_new (s : vfs unit) : option nat := Some (fresh (dom s.(vnodes))).
Definition ex_mount (dev : nat) : M (vfs unit) (Z + option nat) := mret (inr (Some (S dev))).

Lemma ex_new_ok s v : ex_new s = Some v → s.(vnodes) !! v = None.
Proof. intros [= <-]. apply not_elem_of_dom, is_fresh. Qed.

Lemma ex_mount_ok : mount_ok ex_mount.
Proof. intros dev s Hw. split; [apply books_refl|done]. Qed.

Lemma ex_table_wf : table_wf example_vfs.
Proof. split; [apply example_vfs_wf|]. apply NoDup_singleton. Qed.

(** A disk [x] is added next to the device, mounted, refused a second time, and
    everything is unmounted. *)
Lemma device_table_wf_witness :
  wp (exec_dev_ops ex_new [AddDev true true true true [120] 4 true; Mount [120] ex_mount; AddFs true true true true [120] 7; SyncAll; Unmount [120]; UnmountAll])
    (λ _, grows example_vfs 0) example_vfs.
Proof. apply (device_table_wf ex_new ex_new_ok); [apply ex_table_wf|]. repeat (apply Forall_cons; split); try exact I; [apply ex_mount_ok|by apply Forall_nil]. Defined.

Definition ex_disk : knowndev := Knowndev [120] (Some [120; 114; 97; 119]) (Some 4%nat) 5 None.
Definition ex_disks : vfs unit := Vfs {[ 5%nat := Vnode 1 0 None ]} [ex_disk] None None 0 [] tt.

Lemma ex_disks_wf : table_wf ex_disks.
Proof.
  split; [|by apply (rawname_distinct [120] true true (Some 4%nat) 5 None)].
  assert (∀ x, x ≠ 5%nat → ex_disks.(vnodes) !! x = None) as Hn by (intros x Hx; by apply lookup_singleton_ne).
  split; [..|done].
  - intros x. unfold opens. destruct (decide (x = 5%nat)) as [->|Hx]; [done|]. by rewrite Hn.
  - intros x. destruct (decide (x = 5%nat)) as [->|Hx]; [done|]. unfold opens, refs, count, held. rewrite Hn by done. simpl. unfold one.
    by rewrite (proj2 (Nat.eqb_neq x 5)).
  - done.
  - repeat constructor. intros _. by exists 4%nat.
Qed.

Lemma mount_lifecycle_witness : vfs_getroot [120] (locked ex_disks) = Ret (inl ENXIO) (locked ex_disks).
Proof.
  destruct (mount_lifecycle 0 ex_disk ex_mount ex_disks) as [H _]; [apply ex_disks_wf|done|done|done| | |exact H].
  - intros [|j] kd fs Hj Hk; [done|]. by destruct j.
  - intros dev. split; [apply books_refl|done].
Defined.
