(* ===== verification/Device.v ===== *)
(** Devices as files: the operations of device vnodes (kern/vfs/device.c), the
    null device (kern/vfs/devnull.c) and the disk (the entry points of
    kern/dev/lamebus/lhd.c) behind them.

    A [struct device] is a record of operations on a world [W], which holds the
    current uio where there is one.  A vnode is a device's when it is in the table
    of devices; the vnodes of file systems keep the operations they have, so that
    the class [FsOps] of a system with devices is [with_devices]. *)

From Stdlib Require Import ZArith Lia.
From stdpp Require Import base numbers list gmap.
From S2P Require Import Prelude Uio Vfs SfsDisk.

Definition EIOCTL : Z := 31.
Definition ESPIPE : Z := 33.
Definition S_IFCHR : Z := 24576.
Definition S_IFBLK : Z := 28672.

Record device (W : Type) := Device {
  d_open : Z → M W Z;
  d_close : M W Z;
  d_io : M W Z;
  d_ioctl : Z → Z → M W Z;
  dv_blocks : Z;
  dv_blocksize : Z;
  dv_devnumber : Z;
}.
Arguments Device {W} _ _ _ _ _ _ _.
Arguments d_open {W} _ _.
Arguments d_close {W} _.
Arguments d_io {W} _.
Arguments d_ioctl {W} _ _ _.
Arguments dv_blocks {W} _.
Arguments dv_blocksize {W} _.
Arguments dv_devnumber {W} _.

(** The fields of [struct stat] that are set; the others are zero. *)
Record stat := Stat { st_size : Z; st_mode : Z; st_nlink : Z; st_blocks : Z; st_dev : Z; st_rdev : Z; st_blksize : Z }.

(** ** The operations (device.c) *)

Section dev_ops.
Context {W : Type} (rw : W → uio_rw_t).
Implicit Types d : device W.

Definition dev_open d (flags : Z) : M W Z :=
  if negb (Z.land flags (Z.lor (Z.lor (Z.lor O_CREAT O_TRUNC) O_EXCL) O_APPEND) =? 0) then mret EINVAL
  else d_open d flags.

Definition dev_close d : M W Z := d_close d.

Definition dev_reclaim : M W Z := mret 0.

Definition dev_read d : M W Z :=
  s ← get;
  kassert (negb (is_write (rw s)));;
  d_io d.

Definition null_io : M W Z := mret EINVAL.

Definition dev_write d : M W Z :=
  s ← get;
  kassert (is_write (rw s));;
  d_io d.

Definition dev_ioctl d (op data : Z) : M W Z := d_ioctl d op data.

Definition dev_gettype d : Z + Z := inr (if dv_blocks d >? 0 then S_IFBLK else S_IFCHR).

(** The product is one of 32-bit unsigned integers. *)
Definition dev_size d : Z := u32 (dv_blocks d * dv_blocksize d).

Definition dev_stat d : M W (Z + stat) :=
  match dev_gettype d with
  | inl result => mret (inl result)
  | inr mode =>
      mret (inr (if dv_blocks d >? 0
                 then Stat (dev_size d) (Z.lor mode 384) 1 (dv_blocks d) 0 (dv_devnumber d) (dv_blocksize d)
                 else Stat 0 (Z.lor mode 384) 1 (dv_blocks d) 0 (dv_devnumber d) 0))
  end.

(** [pos] is signed; dividing by zero traps. *)
Definition dev_tryseek d (pos : Z) : M W Z :=
  if dv_blocks d >? 0 then
    if dv_blocksize d =? 0 then fault
    else if negb (Z.rem pos (dv_blocksize d) =? 0) then mret EINVAL
    else if pos <? 0 then mret EINVAL
    else if Z.quot pos (dv_blocksize d) >=? dv_blocks d then mret EINVAL
    else mret 0
  else mret ESPIPE.

Definition null_fsync : M W Z := mret 0.
Definition dev_mmap : M W Z := mret EUNIMP.

Definition dev_truncate d (len : Z) : M W Z :=
  if (dv_blocks d >? 0) && (dev_size d =? len) then mret 0 else mret EINVAL.

Definition dev_namefile : M W Z := mret 0.
End dev_ops.

(** Operations that make no sense on devices, and the lookups. *)
Section dev_names.
Context {W : Type}.

Definition null_creat : M (vfs W) (Z + nat) := mret (inl ENOTDIR).
Definition null_mkdir : M (vfs W) Z := mret ENOTDIR.
Definition null_symlink : M (vfs W) Z := mret ENOTDIR.
Definition null_nameop : M (vfs W) Z := mret ENOTDIR.
Definition null_link : M (vfs W) Z := mret ENOTDIR.
Definition null_rename : M (vfs W) Z := mret ENOTDIR.

Definition dev_lookup (dir : nat) (pathname : list Z) : M (vfs W) (Z + nat) :=
  if (0 <? length pathname)%nat then mret (inl ENOENT)
  else vnode_incref dir;; mret (inr dir).

Definition dev_lookparent : M (vfs W) (Z + (nat * list Z)) := mret (inl ENOTDIR).
End dev_names.

(** ** The function table in the layer (dev_vnode_ops) *)

Section dispatch.
Context {W : Type} (base : FsOps W) (devs : nat → device W).

(** The device a vnode belongs to. *)
Fixpoint dev_of_vnode (l : list knowndev) (v : nat) : option nat :=
  match l with
  | [] => None
  | kd :: l =>
      match kd.(kd_device) with
      | Some d => if bool_decide (kd.(kd_vnode) = v) then Some d else dev_of_vnode l v
      | None => dev_of_vnode l v
      end
  end.

Definition set_w (w : W) (s : vfs W) : vfs W :=
  Vfs s.(vnodes) s.(knowndevs) s.(bootfs_vnode) s.(curdir) s.(biglock) s.(warned) w.
Definition in_world {A} (m : M W A) : M (vfs W) A := zoom world set_w m.

Definition on_vnode {A} (v : nat) (dev : device W → M (vfs W) A) (file : M (vfs W) A) : M (vfs W) A :=
  s ← get;
  match dev_of_vnode s.(knowndevs) v with Some d => dev (devs d) | None => file end.

Definition with_devices : FsOps W := {|
  vop_open v flags := on_vnode v (λ d, in_world (dev_open d flags)) (vop_open v flags);
  vop_close v := on_vnode v (λ d, in_world (dev_close d)) (vop_close v);
  vop_reclaim v := on_vnode v (λ _, in_world dev_reclaim) (vop_reclaim v);
  vop_gettype v := on_vnode v (λ d, mret (dev_gettype d)) (vop_gettype v);
  vop_truncate v len := on_vnode v (λ d, in_world (dev_truncate d len)) (vop_truncate v len);
  vop_creat v name excl mode := on_vnode v (λ _, null_creat) (vop_creat v name excl mode);
  vop_symlink v a b := on_vnode v (λ _, null_symlink) (vop_symlink v a b);
  vop_mkdir v name mode := on_vnode v (λ _, null_mkdir) (vop_mkdir v name mode);
  vop_link v name f := on_vnode v (λ _, null_link) (vop_link v name f);
  vop_remove v name := on_vnode v (λ _, null_nameop) (vop_remove v name);
  vop_rmdir v name := on_vnode v (λ _, null_nameop) (vop_rmdir v name);
  vop_rename v n1 v2 n2 := on_vnode v (λ _, null_rename) (vop_rename v n1 v2 n2);
  vop_lookup v path := on_vnode v (λ _, dev_lookup v path) (vop_lookup v path);
  vop_lookparent v path len := on_vnode v (λ _, dev_lookparent) (vop_lookparent v path len);
  fsop_getroot := fsop_getroot;
  fsop_getvolname := fsop_getvolname;
|}.
End dispatch.

(** ** The null device and the disk *)

Section drivers.
Context {MC : Mach}.

Definition set_resid (n : Z) (s : dstate) : dstate :=
  let v := s.(du).(u) in
  set_du (Ust s.(du).(mem) (Uio v.(uio_iov) v.(uio_offset) n v.(uio_segflg) v.(uio_rw) v.(uio_space))) s.

Definition nullopen (_ : Z) : M dstate Z := mret 0.
Definition nullclose : M dstate Z := mret 0.
Definition nullio : M dstate Z :=
  s ← get;
  when (is_write s.(du).(u).(uio_rw)) (modify (set_resid 0));;
  mret 0.
Definition nullioctl (_ _ : Z) : M dstate Z := mret EINVAL.
Definition null_device (devnumber : Z) : device dstate := Device nullopen nullclose nullio nullioctl 0 1 devnumber.

Definition lhd_open (_ : Z) : M dstate Z := mret 0.
Definition lhd_close : M dstate Z := mret 0.
Definition lhd_ioctl (_ _ : Z) : M dstate Z := mret EIOCTL.
Definition lhd_device (devnumber : Z) : device dstate :=
  Device lhd_open lhd_close lhd_io lhd_ioctl SfsDisk.d_blocks LHD_SECTSIZE devnumber.

Definition uio_dir (s : dstate) : uio_rw_t := s.(du).(u).(uio_rw).
End drivers.

(** ** Devices keep the contract of the layer *)

Section laws.
Context {W : Type} (base : FsOps W) `{!FsLaws W} (devs : nat → device W).
Context (open_ok : ∀ d flags w, ∃ r w', d_open (devs d) flags w = Ret r w').
Context (close_ok : ∀ d w, ∃ r w', d_close (devs d) w = Ret r w').
Implicit Types s : vfs W.

Lemma dev_of_vnode_owned l v d : dev_of_vnode l v = Some d → 0 < devs_own l v.
Proof.
  induction l as [|kd l IH]; intros E; [done|]. simpl in *. destruct kd.(kd_device) as [d'|]; [|by apply IH].
  pose proof (devs_own_nonneg l v). pose proof (one_nonneg kd.(kd_vnode) v).
  case_bool_decide as Hv; [rewrite Hv, one_self; lia|]. specialize (IH E). lia.
Qed.

Lemma in_world_books (m : M W Z) s : (∃ r w', m s.(world) = Ret r w') → wp (in_world m) (λ _, books s 0 none none) s.
Proof.
  intros (r & w' & E). unfold wp, in_world, zoom. rewrite E. split; try done; intros; unfold none;
    change (refs (set_w _ s)) with (refs s) || change (opens (set_w _ s)) with (opens s) || simpl; lia.
Qed.

Lemma on_vnode_wp {A} v (dev : device W → M (vfs W) A) (file : M (vfs W) A) Q s :
  (∀ d, dev_of_vnode s.(knowndevs) v = Some d → wp (dev (devs d)) Q s) →
  (dev_of_vnode s.(knowndevs) v = None → wp file Q s) → wp (on_vnode devs v dev file) Q s.
Proof. intros H1 H2. unfold on_vnode. apply wp_get. destruct (dev_of_vnode s.(knowndevs) v) as [d|]; [by apply H1|by apply H2]. Qed.

Lemma dev_open_returns d flags w : ∃ r w', dev_open (devs d) flags w = Ret r w'.
Proof. unfold dev_open. destruct (negb _); [by exists EINVAL, w|apply open_ok]. Qed.

Lemma dev_truncate_returns d len (w : W) : ∃ r w', dev_truncate (devs d) len w = Ret r w'.
Proof. unfold dev_truncate. destruct (_ && _); by do 2 eexists. Qed.

Lemma dev_lookup_hands v path s : vfs_wf s → 0 < refs s v → wp (dev_lookup v path) (λ r, books s 0 (got r) none) s.
Proof.
  intros Hw Hv. unfold dev_lookup. destruct (0 <? length path)%nat; [apply wp_ret, books_refl|].
  apply wp_bind. eapply incref_books; [done|apply books_refl|done|]. intros s1 Hb. apply wp_ret.
  eapply books_eq; [..|exact Hb]; [done|intros x; unfold none; simpl; lia|done].
Qed.

(** Devices are good citizens of the virtual file system layer: a system whose
    file systems keep the contract of the layer still keeps it when the vnodes in
    the table of devices are given the operations of device.c - so opens and closes
    balance and no reference is lost on devices either - provided only that the
    drivers' open and close return. *)
Theorem devices_keep_contract : @FsLaws W (with_devices base devs).
Proof.
  split; intros; [..|by apply (law_getroot (FsOps0:=base))]; apply on_vnode_wp; intros;
    try (by apply wp_ret, books_refl); try (by apply in_world_books; eauto using dev_open_returns, dev_truncate_returns).
  3: { exfalso. match goal with H : dev_of_vnode _ _ = Some _ |- _ => apply dev_of_vnode_owned in H end.
    match goal with H : held s ?v = 0 |- _ => unfold held in H; pose proof (own_nonneg s.(curdir) v); pose proof (own_nonneg s.(bootfs_vnode) v) end. lia. }
  4: { apply wp_ret. split; [apply books_refl|]. unfold dev_gettype. by destruct (dv_blocks _ >? 0). }
  all: first [by apply law_open|by apply law_close|by apply law_reclaim|by apply law_gettype|by apply law_truncate|by apply law_creat
    |by apply law_symlink|by apply law_mkdir|by apply law_link|by apply law_remove|by apply law_rmdir|by apply law_rename|by apply law_lookup
    |by apply law_lookparent|by apply dev_lookup_hands].
Qed.
End laws.

Definition ex_dev (_ : nat) : device unit := Device (λ _, mret 0) (mret 0) (mret 0) (λ _ _, mret EINVAL) 0 1 1.

Lemma devices_keep_contract_witness : @FsLaws unit (with_devices memfs ex_dev).
Proof. apply devices_keep_contract; [apply memfs_laws| |]; intros; by do 2 eexists. Defined.

(** ** Seeking *)

(** A block device can be positioned at exactly the starts of its blocks. *)
Lemma dev_tryseek_blocks {W} (d : device W) pos w :
  0 < dv_blocksize d →
  dev_tryseek d pos w = Ret (if dv_blocks d >? 0
    then if bool_decide (pos mod dv_blocksize d = 0 ∧ 0 ≤ pos < dv_blocks d * dv_blocksize d) then 0 else EINVAL
    else ESPIPE) w.
Proof.
  intros Hs. unfold dev_tryseek. destruct (Z.gtb_spec (dv_blocks d) 0) as [Hb|]; [|done].
  rewrite (proj2 (Z.eqb_neq _ _)) by lia.
  destruct (Z.eqb_spec (Z.rem pos (dv_blocksize d)) 0) as [Hr|Hr]; simpl.
  - destruct (Z.ltb_spec pos 0); [rewrite bool_decide_false by lia; done|].
    rewrite Z.geb_leb, Z.quot_div_nonneg by lia. rewrite Z.rem_mod_nonneg in Hr by lia.
    destruct (Z.leb_spec (dv_blocks d) (pos / dv_blocksize d)) as [Hq|Hq]; [rewrite bool_decide_false; [done|]|rewrite bool_decide_true; [done|]]; nia.
  - rewrite bool_decide_false; [done|]. intros [Hm [H0 _]]. rewrite Z.rem_mod_nonneg in Hr by lia. done.
Qed.

(** ** The disk as a file of bytes *)

Section raw.
Context {MC : Mach}.
Implicit Types s : dstate.

(** A request for [n] sectors from sector [b] on, apart from the card's buffer. *)
Record raw_request (v : uio) (n b : Z) : Prop := {
  rr_acc : accessible ucheck v;
  rr_space : space_ok v;
  rr_iov : iov_ok v.(uio_iov);
  rr_len : n * 512 ≤ Z.of_nat (length (addrs v.(uio_iov)));
  rr_sep : separate (addrs v.(uio_iov)) lh_buf 512;
  rr_off : v.(uio_offset) = b * 512;
  rr_resid : v.(uio_resid) = n * 512;
  rr_wide : n * 512 < W32;
  rr_range : 0 ≤ n ∧ 0 ≤ b ∧ b + n ≤ SfsDisk.d_blocks;
  rr_disk : SfsDisk.d_blocks < W32;
}.

(** The request after [n] sectors, its buffers then being [l]. *)
Definition served (v : uio) (n : Z) (l : list iovec) : uio :=
  Uio l (v.(uio_offset) + n * 512) (v.(uio_resid) - n * 512) v.(uio_segflg) v.(uio_rw) v.(uio_space).

(** The card will report success [n] times. *)
Definition answers_ok (n : nat) s : Prop := ∀ j, (j < n)%nat → lhd_irq (default LHD_OK (s.(lhd_codes) !! j)) = Some 0.

Lemma answers_next n s : answers_ok (S n) s → next_result s = Some 0.
Proof. intros H. specialize (H 0%nat ltac:(lia)). unfold next_result. by destruct s.(lhd_codes). Qed.

Lemma answers_tail n s m v d : answers_ok (S n) s → answers_ok n (Dstate (Ust m v) d (tail s.(lhd_codes))).
Proof. intros H j Hj. specialize (H (S j) ltac:(lia)). simpl. by destruct s.(lhd_codes). Qed.

Lemma raw_move s n b :
  raw_request s.(du).(u) n b → 0 < n →
  ∃ m' l', d_uiomove lh_buf LHD_SECTSIZE s = Ret 0 (set_du (Ust m' (served s.(du).(u) 1 l')) s) ∧
    raw_request (served s.(du).(u) 1 l') (n - 1) (b + 1) ∧ addrs l' = drop 512 (addrs s.(du).(u).(uio_iov)) ∧
    moved s.(du).(u).(uio_rw) (addrs s.(du).(u).(uio_iov)) lh_buf 512 s.(du).(mem) m'.
Proof.
  intros [Ha Hs Hi Hl Hp Ho Hr Hw Hb Hd] Hn.
  destruct (uiomove_ret ucheck lh_buf 512 s.(du)) as (m' & l' & E & H1 & H2 & H3); try done; rewrite ?Hr; try lia.
  exists m', l'. split; [unfold d_uiomove, zoom, LHD_SECTSIZE; by rewrite E|]. split; [|done].
  split; cbn [served uio_segflg uio_space uio_iov uio_offset uio_resid uio_rw]; try done; try lia.
  - rewrite H1, length_drop. change (Z.to_nat 512) with 512%nat. lia.
  - rewrite H1. by apply separate_drop.
Qed.

(** Positions in the rest of a request are positions in the request. *)
Lemma drop_position (l l' : list Z) (j : nat) a : l' = drop 512 l → l' !! j = Some a → l !! (512 + j)%nat = Some a.
Proof. intros ->. by rewrite lookup_drop. Qed.

(** *** Reading *)

Lemma raw_sector_read s n b sector i :
  raw_request s.(du).(u) n b → 0 < n → sector + i = b → s.(du).(u).(uio_rw) = UIO_READ → next_result s = Some 0 →
  ∃ m' l', lhd_sector sector i s = Ret None (Dstate (Ust m' (served s.(du).(u) 1 l')) s.(disk) (tail s.(lhd_codes))) ∧
    raw_request (served s.(du).(u) 1 l') (n - 1) (b + 1) ∧ addrs l' = drop 512 (addrs s.(du).(u).(uio_iov)) ∧
    block_read m' s.(du).(mem) b s.(disk) (addrs s.(du).(u).(uio_iov)).
Proof.
  intros Hq Hn Hsec Hrw Hok. pose proof Hq as [_ _ _ _ [_ Hsep] _ _ _ Hb Hd].
  set (s1 := set_du (set_mem (blit s.(du).(mem) lh_buf s.(disk) (b * 512) 512) s.(du)) (set_codes (tail s.(lhd_codes)) s)).
  destruct (raw_move s1 n b Hq Hn) as (m' & l' & E & H1 & H2 & H3). exists m', l'. split.
  - unfold lhd_sector. rewrite get_bind, Hrw. cbn [is_write]. mrun. cbn [Z.eqb negb].
    rewrite Hsec, u32_small by lia. erewrite bind_Ret by (by apply lhd_command_ok). cbn [Z.eqb negb andb].
    erewrite bind_Ret by exact E. done.
  - split; [exact H1|]. split; [exact H2|]. change (du s1).(u) with s.(du).(u) in H3. rewrite Hrw in H3.
    destruct H3 as [H3 H4]. cbn [du mem set_mem set_du set_codes s1] in H3, H4. split.
    + intros j a Hj Ha. rewrite (H3 j a) by (done || lia). unfold blit. zdecide. f_equal. lia.
    + intros a Ha Hl. rewrite H4; [unfold blit|intros j Hj; apply Hl; lia].
      destruct (Z.leb_spec lh_buf a), (Z.ltb_spec a (lh_buf + 512)); simpl; by (lia || done).
Qed.

Lemma raw_loop_read (n : nat) s b sector i :
  raw_request s.(du).(u) (Z.of_nat n) b → sector + i = b → s.(du).(u).(uio_rw) = UIO_READ → answers_ok n s →
  ∃ m' l', for_find n i (lhd_sector sector) s = Ret None (Dstate (Ust m' (served s.(du).(u) (Z.of_nat n) l')) s.(disk) (drop n s.(lhd_codes))) ∧
    addrs l' = drop (512 * n) (addrs s.(du).(u).(uio_iov)) ∧
    (∀ (j : nat) a, (j < 512 * n)%nat → addrs s.(du).(u).(uio_iov) !! j = Some a → m' a = s.(disk) (b * 512 + Z.of_nat j)) ∧
    (∀ a, ¬ lh_buf ≤ a < lh_buf + 512 → a ∉ take (512 * n) (addrs s.(du).(u).(uio_iov)) → m' a = s.(du).(mem) a).
Proof.
  revert s b i. induction n as [|n IH]; intros s b i Hq Hsec Hrw Hok.
  { exists s.(du).(mem), s.(du).(u).(uio_iov). split; [destruct s as [[m [? ? ? ? ? ?]] ? ?]; simpl; unfold mret, M_ret, served; simpl; do 4 f_equal; lia|].
    split; [done|]. split; [intros; lia|done]. }
  destruct (raw_sector_read s (Z.of_nat (S n)) b sector i) as (m1 & l1 & E1 & Hq1 & Ha1 & Hr1 & Hr2); [done|lia|done|done|by eapply answers_next|].
  set (s1 := Dstate _ _ _) in E1. destruct (IH s1 (b + 1) (i + 1)) as (m' & l' & E & Ha & Hm1 & Hm2).
  { by replace (Z.of_nat n) with (Z.of_nat (S n) - 1) by lia. } { lia. } { done. } { by apply answers_tail. }
  set (as0 := addrs s.(du).(u).(uio_iov)) in *. change (addrs s1.(du).(u).(uio_iov)) with (addrs l1) in *. rewrite Ha1 in *.
  pose proof (rr_sep _ _ _ Hq) as [Hnd Hsep]. fold as0 in Hnd, Hsep. exists m', l'. split.
  - change (for_find (S n) i (lhd_sector sector)) with (r ← lhd_sector sector i; match r with Some a => mret (Some a) | None => for_find n (i + 1) (lhd_sector sector) end).
    erewrite bind_Ret by exact E1. cbv beta iota. rewrite E. unfold served. simpl.
    replace (drop n (tail s.(lhd_codes))) with (drop (S n) s.(lhd_codes)) by (destruct s.(lhd_codes); [symmetry; apply drop_nil|done]). do 4 f_equal; lia.
  - split; [rewrite Ha, drop_drop; f_equal; lia|]. split.
    + intros j a Hj Hja. destruct (decide (j < 512)%nat) as [Hlt|Hge].
      * rewrite Hm2; [by apply Hr1| |].
        -- apply Hsep. by eapply list_elem_of_lookup_2.
        -- intros [k Hk]%list_elem_of_lookup_1. apply lookup_take_Some in Hk as [Hk _]. rewrite lookup_drop in Hk.
           pose proof (NoDup_lookup _ _ _ _ Hnd Hja Hk). lia.
      * rewrite (Hm1 (j - 512)%nat a); [cbn [disk s1]; f_equal; lia|lia|]. rewrite lookup_drop. by replace (512 + (j - 512))%nat with j by lia.
    + intros a Ho Hna. rewrite Hm2; [apply Hr2; [done|]|done|].
      * intros j Hj Hja. apply Hna. eapply list_elem_of_lookup_2 with j. apply lookup_take_Some. split; [done|lia].
      * intros [k Hk]%list_elem_of_lookup_1. apply lookup_take_Some in Hk as [Hk ?]. rewrite lookup_drop in Hk.
        apply Hna. eapply list_elem_of_lookup_2 with (512 + k)%nat. apply lookup_take_Some. split; [done|lia].
Qed.

(** *** Writing *)

Lemma raw_sector_write s n b sector i :
  raw_request s.(du).(u) n b → 0 < n → sector + i = b → s.(du).(u).(uio_rw) = UIO_WRITE → next_result s = Some 0 →
  ∃ m' l' d', lhd_sector sector i s = Ret None (Dstate (Ust m' (served s.(du).(u) 1 l')) d' (tail s.(lhd_codes))) ∧
    raw_request (served s.(du).(u) 1 l') (n - 1) (b + 1) ∧ addrs l' = drop 512 (addrs s.(du).(u).(uio_iov)) ∧
    (∀ a, ¬ lh_buf ≤ a < lh_buf + 512 → m' a = s.(du).(mem) a) ∧ block_is d' s.(disk) b s.(du).(mem) (addrs s.(du).(u).(uio_iov)).
Proof.
  intros Hq Hn Hsec Hrw Hok. pose proof Hq as [_ _ _ _ _ _ _ _ Hb Hd].
  destruct (raw_move s n b Hq Hn) as (m' & l' & E & H1 & H2 & H3). rewrite Hrw in H3. destruct H3 as [H3 H4].
  set (s1 := set_du (Ust m' (served s.(du).(u) 1 l')) s) in *.
  exists m', l', (blit s.(disk) (b * 512) m' lh_buf 512). split_and!; [|exact H1|exact H2|exact H4|split].
  - unfold lhd_sector. rewrite get_bind, Hrw. cbn [is_write]. erewrite bind_Ret by exact E. cbn [Z.eqb negb].
    rewrite Hsec, u32_small by lia. erewrite bind_Ret by (by apply lhd_command_ok). done.
  - intros j a Hj Ha. unfold blit. zdecide. rewrite <- (H3 j a) by (done || lia). f_equal. lia.
  - intros x Hx. unfold blit. destruct (Z.leb_spec (b * 512) x), (Z.ltb_spec x (b * 512 + 512)); simpl; by (lia || done).
Qed.

Lemma raw_loop_write (n : nat) s b sector i :
  raw_request s.(du).(u) (Z.of_nat n) b → sector + i = b → s.(du).(u).(uio_rw) = UIO_WRITE → answers_ok n s →
  ∃ m' l' d', for_find n i (lhd_sector sector) s = Ret None (Dstate (Ust m' (served s.(du).(u) (Z.of_nat n) l')) d' (drop n s.(lhd_codes))) ∧
    addrs l' = drop (512 * n) (addrs s.(du).(u).(uio_iov)) ∧
    (∀ a, ¬ lh_buf ≤ a < lh_buf + 512 → m' a = s.(du).(mem) a) ∧
    (∀ (j : nat) a, (j < 512 * n)%nat → addrs s.(du).(u).(uio_iov) !! j = Some a → d' (b * 512 + Z.of_nat j) = s.(du).(mem) a) ∧
    (∀ x, ¬ b * 512 ≤ x < (b + Z.of_nat n) * 512 → d' x = s.(disk) x).
Proof.
  revert s b i. induction n as [|n IH]; intros s b i Hq Hsec Hrw Hok.
  { exists s.(du).(mem), s.(du).(u).(uio_iov), s.(disk). split; [destruct s as [[m [? ? ? ? ? ?]] ? ?]; simpl; unfold mret, M_ret, served; simpl; do 4 f_equal; lia|].
    split; [done|]. split; [done|]. split; [intros; lia|done]. }
  destruct (raw_sector_write s (Z.of_nat (S n)) b sector i) as (m1 & l1 & d1 & E1 & Hq1 & Ha1 & Hm1 & Hw1 & Hw2); [done|lia|done|done|by eapply answers_next|].
  set (s1 := Dstate _ _ _) in E1. destruct (IH s1 (b + 1) (i + 1)) as (m' & l' & d' & E & Ha & Hm & Hd1 & Hd2).
  { by replace (Z.of_nat n) with (Z.of_nat (S n) - 1) by lia. } { lia. } { done. } { by apply answers_tail. }
  set (as0 := addrs s.(du).(u).(uio_iov)) in *. change (addrs s1.(du).(u).(uio_iov)) with (addrs l1) in *. rewrite Ha1 in *.
  pose proof (rr_sep _ _ _ Hq) as [Hnd Hsep]. fold as0 in Hnd, Hsep. exists m', l', d'. split.
  - change (for_find (S n) i (lhd_sector sector)) with (r ← lhd_sector sector i; match r with Some a => mret (Some a) | None => for_find n (i + 1) (lhd_sector sector) end).
    erewrite bind_Ret by exact E1. cbv beta iota. rewrite E. unfold served. simpl.
    replace (drop n (tail s.(lhd_codes))) with (drop (S n) s.(lhd_codes)) by (destruct s.(lhd_codes); [symmetry; apply drop_nil|done]). do 4 f_equal; lia.
  - split; [rewrite Ha, drop_drop; f_equal; lia|]. split; [intros a Ho; rewrite Hm by done; by apply Hm1|]. split.
    + intros j a Hj Hja. destruct (decide (j < 512)%nat) as [Hlt|Hge]; [rewrite Hd2 by lia; by apply Hw1|].
      replace (b * 512 + Z.of_nat j) with ((b + 1) * 512 + Z.of_nat (j - 512)) by lia. rewrite (Hd1 (j - 512)%nat a); [|lia|].
      * apply Hm1, Hsep. by eapply list_elem_of_lookup_2.
      * rewrite lookup_drop. by replace (512 + (j - 512))%nat with j by lia.
    + intros x Hx. rewrite Hd2 by lia. apply Hw2. lia.
Qed.

Lemma lhd_io_request s n b :
  raw_request s.(du).(u) n b → lhd_io s = (r ← for_find (Z.to_nat n) 0 (lhd_sector b); mret (default 0 r)) s.
Proof.
  intros [_ _ _ _ _ Ho Hr Hw Hb Hd]. unfold lhd_io. rewrite get_bind, Ho, Hr. unfold LHD_SECTSIZE.
  rewrite Z.quot_mul, Z.rem_mul by lia. rewrite (u32_small b) by lia. change (u32 0) with 0.
  rewrite Z.div_mul, Z.mod_mul by lia. cbn [Z.eqb negb orb]. rewrite (u32_small (b + n)) by lia. by zdecide.
Qed.

(** C25. The raw disk is a file of sectors: a read through the device's vnode of any
    number of whole sectors inside a disk that works, into buffers that can be
    accessed, returns 0 and puts exactly the disk's
    bytes into the caller's buffers, across all of them in order, and a write puts
    the buffers' bytes on the disk and leaves the rest of the disk alone; both
    advance the request by what was transferred, and no other memory changes but
    the card's buffer. *)
Theorem raw_disk_io (devnumber : Z) (n : nat) (b : Z) (s : dstate) :
  raw_request s.(du).(u) (Z.of_nat n) b → answers_ok n s →
  let as_ := addrs s.(du).(u).(uio_iov) in
  (s.(du).(u).(uio_rw) = UIO_READ → ∃ m' l', dev_read uio_dir (lhd_device devnumber) s = Ret 0 (Dstate (Ust m' (served s.(du).(u) (Z.of_nat n) l')) s.(disk) (drop n s.(lhd_codes))) ∧
    addrs l' = drop (512 * n) as_ ∧
    (∀ (j : nat) a, (j < 512 * n)%nat → as_ !! j = Some a → m' a = s.(disk) (b * 512 + Z.of_nat j)) ∧
    (∀ a, ¬ lh_buf ≤ a < lh_buf + 512 → a ∉ take (512 * n) as_ → m' a = s.(du).(mem) a)) ∧
  (s.(du).(u).(uio_rw) = UIO_WRITE → ∃ m' l' d', dev_write uio_dir (lhd_device devnumber) s = Ret 0 (Dstate (Ust m' (served s.(du).(u) (Z.of_nat n) l')) d' (drop n s.(lhd_codes))) ∧
    addrs l' = drop (512 * n) as_ ∧
    (∀ a, ¬ lh_buf ≤ a < lh_buf + 512 → m' a = s.(du).(mem) a) ∧
    (∀ (j : nat) a, (j < 512 * n)%nat → as_ !! j = Some a → d' (b * 512 + Z.of_nat j) = s.(du).(mem) a) ∧
    (∀ x, ¬ b * 512 ≤ x < (b + Z.of_nat n) * 512 → d' x = s.(disk) x)).
Proof.
  intros Hq Hok as_. split; intros Hrw.
  - destruct (raw_loop_read n s b b 0 Hq (Z.add_0_r b) Hrw Hok) as (m' & l' & E & H). exists m', l'. split; [|exact H].
    unfold dev_read, uio_dir. rewrite get_bind, Hrw. mrun. cbn [lhd_device d_io]. rewrite (lhd_io_request s (Z.of_nat n) b Hq), Nat2Z.id.
    by erewrite bind_Ret by exact E.
  - destruct (raw_loop_write n s b b 0 Hq (Z.add_0_r b) Hrw Hok) as (m' & l' & d' & E & H). exists m', l', d'. split; [|exact H].
    unfold dev_write, uio_dir. rewrite get_bind, Hrw. mrun. cbn [lhd_device d_io]. rewrite (lhd_io_request s (Z.of_nat n) b Hq), Nat2Z.id.
    by erewrite bind_Ret by exact E.
Qed.
End raw.

#[local] Instance ex_mach : Mach := { ucheck := λ _ _, EFAULT; SfsDisk.d_blocks := 64; kbufs := 0x80030000 }.
Definition ex_raw : dstate := Dstate (Ust (λ _, 7) (uio_kinit 0x80001000 1024 1536 UIO_WRITE)) (λ x, x mod 251) [].

(** Sectors 3 and 4 are overwritten. *)
Lemma raw_disk_io_witness :
  ∃ m' l' d', dev_write uio_dir (lhd_device 1) ex_raw = Ret 0 (Dstate (Ust m' (served ex_raw.(du).(u) 2 l')) d' []) ∧ d' 2048 = 7 ∧ d' 5 = 5.
Proof.
  destruct (raw_disk_io 1 2 3 ex_raw) as [_ H].
  - split; try done; try lia; [by left|by left|repeat constructor; simpl; lia|].
    change (addrs _) with (seqZ 0x80001000 1024 ++ []). rewrite app_nil_r. split; [apply NoDup_seqZ|]. intros a Ha%elem_of_seqZ. change lh_buf with 0x80030000. lia.
  - intros j _. by destruct j.
  - destruct (H eq_refl) as (m' & l' & d' & E & _ & _ & Hd & Ho). exists m', l', d'. split; [exact E|]. split; [|by rewrite Ho by lia].
    exact (Hd 512%nat (0x80001000 + 512) ltac:(lia) eq_refl).
Defined.
