(* ===== verification/SfsVnode.v ===== *)
(** The vnode operations of SFS (the second half of kern/fs/sfs/sfs_vnode.c): the
    table of loaded vnodes, loading and reclaiming them, and the operations of the
    two tables [sfs_fileops] and [sfs_dirops].

    The state is that of the VFS layer (file Vfs) with one mounted volume as its
    world.  A [struct sfs_vnode] is known by the address of its vnode; the loaded
    ones are in [w_svs], the table [sfs_vnodes] is the array [w_vnodes] of their
    addresses (file KArray).  [w_km] says which of the coming calls of [kmalloc]
    succeed; after it all do. *)

From Stdlib Require Import ZArith Lia.
From stdpp Require Import base numbers list gmap.
From S2P Require Import Prelude Bitmap KArray Uio Vfs SfsDisk SfsFile SfsIo SfsDir.

Record sfsw := Sfsw {
  w_fs : sfs_fs;
  w_svs : gmap nat sfs_vnode;
  w_vnodes : array nat;
  w_km : list bool;
}.

Abbreviation vst := (vfs sfsw).

Definition set_world (w : sfsw) (s : vst) : vst :=
  Vfs s.(vnodes) s.(knowndevs) s.(bootfs_vnode) s.(curdir) s.(biglock) s.(warned) w.
Definition set_wfs (f : sfs_fs) (s : vst) : vst :=
  set_world (Sfsw f s.(world).(w_svs) s.(world).(w_vnodes) s.(world).(w_km)) s.
Definition set_svs (m : gmap nat sfs_vnode) (s : vst) : vst :=
  set_world (Sfsw s.(world).(w_fs) m s.(world).(w_vnodes) s.(world).(w_km)) s.
Definition set_wvnodes (a : array nat) (s : vst) : vst :=
  set_world (Sfsw s.(world).(w_fs) s.(world).(w_svs) a s.(world).(w_km)) s.
Definition set_km (l : list bool) (s : vst) : vst :=
  set_world (Sfsw s.(world).(w_fs) s.(world).(w_svs) s.(world).(w_vnodes) l) s.

(** What a routine on a file takes the vnode from and gives it back to. *)
Definition get_file (v : nat) (sv0 : sfs_vnode) (s : vst) : fstate := Fstate s.(world).(w_fs) (default sv0 (s.(world).(w_svs) !! v)).
Definition put_file (v : nat) (f : fstate) (s : vst) : vst := set_svs (<[v:=f.(sv)]> s.(world).(w_svs)) (set_wfs f.(sfs) s).

(** The vnode of routines that have none. *)
Definition no_inode : sfs_inode := SfsInode 0 SFS_TYPE_INVAL 0 [] 0 [].
Definition no_sv : sfs_vnode := SfsVnode no_inode 0 false.

Definition S_IFREG : Z := 4096.

Record stat := Stat { st_size : Z; st_mode : Z; st_nlink : Z; st_blocks : Z }.

Section sfs_vnode.
Context {MC : Mach} (fsid : nat).

Definition do_i_hold : M vst bool := vfs_biglock_do_i_hold.

(** A routine of file SfsFile or SfsDir on the vnode [v]. *)
Definition on_sv {A} (v : nat) (m : bool → M fstate A) : M vst A :=
  h ← do_i_hold;
  s ← get;
  sv0 ← of_opt (s.(world).(w_svs) !! v);
  zoom (get_file v sv0) (put_file v) (m h).

(** A routine that uses no vnode. *)
Definition on_fs {A} (m : bool → M fstate A) : M vst A :=
  h ← do_i_hold;
  zoom (λ s, Fstate s.(world).(w_fs) no_sv) (λ f, set_wfs f.(sfs)) (m h).

Definition get_sv (v : nat) : M vst sfs_vnode := s ← get; of_opt (s.(world).(w_svs) !! v).
Definition put_sv (v : nat) (x : sfs_vnode) : M vst unit := modify (λ s, set_svs (<[v:=x]> s.(world).(w_svs)) s).

Definition kmalloc_ok : M vst bool :=
  s ← get; modify (set_km (tail s.(world).(w_km)));; mret (default true (head s.(world).(w_km))).

Definition on_table {A} (m : M (array nat) A) : M vst A := zoom (λ s, s.(world).(w_vnodes)) set_wvnodes m.

(** The block [array_setsize] asks for. *)
Definition table_km (ok : bool) (n : Z) : option (list nat) := if ok then Some (replicate (Z.to_nat (n / 4)) 0%nat) else None.

(** ** Loading *)

Definition load_find (ino forcetype i : Z) : M vst (option nat) :=
  v ← on_table (array_get i);
  x ← get_sv v;
  used ← on_fs (λ _, sfs_bused x.(sv_ino));
  if negb used then panic
  else if x.(sv_ino) =? ino then
    kassert (forcetype =? SFS_TYPE_INVAL);;
    vnode_incref v;;
    mret (Some v)
  else mret None.

(** The block of the inode, as it is on the disk. *)
Definition load_inode (ino : Z) : M vst (Z + sfs_inode) :=
  result ← on_fs (λ h, f_rblock h inobuf ino);
  if negb (result =? 0) then mret (inl result)
  else s ← get; mret (inr (inode_of_words (words_at s.(world).(w_fs).(sfs_device).(du).(mem) inobuf 128))).

(** The statements of [sfs_loadvnode] after the inode has been read. *)
Definition load_enter (v : nat) (ino forcetype : Z) (i : sfs_inode) : M vst (Z + nat) :=
  x ← (if negb (forcetype =? SFS_TYPE_INVAL) then
         kassert (i.(sfi_type) =? SFS_TYPE_INVAL);;
         mret (SfsVnode (set_type forcetype i) ino true)
       else mret (SfsVnode i ino false));
  (if (x.(sv_i).(sfi_type) =? SFS_TYPE_FILE) || (x.(sv_i).(sfi_type) =? SFS_TYPE_DIR) then mret tt else panic);;
  result ← vnode_init v (Some fsid);
  if negb (result =? 0) then mret (inl result)
  else
    put_sv v x;;
    ok ← kmalloc_ok;
    r ← on_table (array_add (table_km ok) v);
    if negb (r.1 =? 0) then
      vnode_cleanup v;;
      modify (λ s, set_svs (delete v s.(world).(w_svs)) s);;
      mret (inl r.1)
    else mret (inr v).

Definition sfs_loadvnode (ino forcetype : Z) : M vst (Z + nat) :=
  num ← on_table array_num;
  r ← for_find (Z.to_nat num) 0 (load_find ino forcetype);
  match r with
  | Some v => mret (inr v)
  | None =>
      ok ← kmalloc_ok;
      if negb ok then mret (inl ENOMEM)
      else
        s ← get;
        let v := fresh (dom s.(vnodes) ∪ dom s.(world).(w_svs)) in
        used ← on_fs (λ _, sfs_bused ino);
        if negb used then panic
        else
          r ← load_inode ino;
          match r with
          | inl e => mret (inl e)
          | inr i => load_enter v ino forcetype i
          end
  end.

Definition sfs_getroot : M vst nat :=
  vfs_biglock_acquire;;
  r ← sfs_loadvnode SFS_ROOT_LOCATION SFS_TYPE_INVAL;
  match r with
  | inl _ => panic
  | inr v => vfs_biglock_release;; mret v
  end.

(** ** Operations on files *)

Definition is_dir (v : nat) : M vst bool := x ← get_sv v; mret (x.(sv_i).(sfi_type) =? SFS_TYPE_DIR).

(** [VOP_FOO]: the entry of the table that [sfs_loadvnode] chose for the vnode. *)
Definition by_type {A} (v : nat) (file dir : M vst A) : M vst A := d ← is_dir v; if d : bool then dir else file.

(** A routine between taking and giving back the big lock. *)
Definition with_biglock {A} (m : M vst A) : M vst A :=
  vfs_biglock_acquire;; a ← m; vfs_biglock_release;; mret a.

Definition sfs_open (v : nat) (openflags : Z) : M vst Z :=
  if negb (Z.land openflags O_APPEND =? 0) then mret EUNIMP else mret 0.

Definition sfs_opendir (v : nat) (openflags : Z) : M vst Z :=
  if negb (Z.land openflags O_ACCMODE =? O_RDONLY) then mret EISDIR
  else if negb (Z.land openflags O_APPEND =? 0) then mret EISDIR else mret 0.

Definition sfs_fsync (v : nat) : M vst Z := with_biglock (on_sv v (λ h, sfs_sync_inode h)).
Definition sfs_close (v : nat) : M vst Z := vop v (sfs_fsync v).

Definition sfs_rw (rw : uio_rw_t) (v : nat) : M vst Z :=
  s ← get;
  kassert (Bool.eqb (is_write s.(world).(w_fs).(sfs_device).(du).(u).(uio_rw)) (is_write rw));;
  with_biglock (on_sv v (λ h, sfs_io h)).
Definition sfs_read : nat → M vst Z := sfs_rw UIO_READ.
Definition sfs_write : nat → M vst Z := sfs_rw UIO_WRITE.

Definition sfs_ioctl (v : nat) (op : Z) : M vst Z := mret EINVAL.

Definition sfs_gettype (v : nat) : M vst (Z + Z) :=
  vfs_biglock_acquire;;
  x ← get_sv v;
  if x.(sv_i).(sfi_type) =? SFS_TYPE_FILE then vfs_biglock_release;; mret (inr S_IFREG)
  else if x.(sv_i).(sfi_type) =? SFS_TYPE_DIR then vfs_biglock_release;; mret (inr S_IFDIR)
  else panic.

Definition sfs_stat (v : nat) : M vst (Z + stat) :=
  r ← vop v (sfs_gettype v);
  match r with
  | inl e => mret (inl e)
  | inr mode => x ← get_sv v; mret (inr (Stat x.(sv_i).(sfi_size) mode 0 0))
  end.

Definition sfs_tryseek (v : nat) (pos : Z) : M vst Z := if pos <? 0 then mret EINVAL else mret 0.
Definition sfs_mmap (v : nat) : M vst Z := mret EUNIMP.
Definition sfs_truncate (v : nat) (len : Z) : M vst Z := with_biglock (on_sv v (λ h, truncate_held h len)).

Definition sfs_notdir : M vst Z := mret ENOTDIR.
Definition sfs_isdir : M vst Z := mret EISDIR.
Definition sfs_unimp : M vst Z := mret EUNIMP.

(** ** Reclaiming *)

(** The index of the vnode in the table. *)
Definition reclaim_find (v : nat) (i : Z) : M vst (option Z) :=
  v2 ← on_table (array_get i);
  mret (if (v2 =? v)%nat then Some i else None).

Definition reclaim_drop (v : nat) : M vst Z :=
  num ← on_table array_num;
  r ← for_find (Z.to_nat num) 0 (reclaim_find v);
  match r with
  | None => panic
  | Some ix =>
      on_table (array_remove ix);;
      vnode_cleanup v;;
      vfs_biglock_release;;
      modify (λ s, set_svs (delete v s.(world).(w_svs)) s);;
      mret 0
  end.

Definition sfs_reclaim (v : nat) : M vst Z :=
  vfs_biglock_acquire;;
  s ← get;
  vn ← of_opt (s.(vnodes) !! v);
  if negb (vn.(vn_refcount) =? 1) then
    kassert (vn.(vn_refcount) >? 1);;
    put_vnode v (Vnode (vn.(vn_refcount) - 1) vn.(vn_opencount) vn.(vn_fs));;
    vfs_biglock_release;;
    mret EBUSY
  else
    x ← get_sv v;
    result ← (if x.(sv_i).(sfi_linkcount) =? 0 then vop v (by_type v (sfs_truncate v 0) sfs_isdir) else mret 0);
    if negb (result =? 0) then vfs_biglock_release;; mret result
    else
      result ← on_sv v (λ h, sfs_sync_inode h);
      if negb (result =? 0) then vfs_biglock_release;; mret result
      else
        x ← get_sv v;
        when (x.(sv_i).(sfi_linkcount) =? 0) (on_fs (λ _, sfs_bfree x.(sv_ino)));;
        reclaim_drop v.

Definition sfs_decref (v : nat) : M vst unit := vnode_decref_with sfs_reclaim v.

(** ** Operations on the directory *)

(** A vnode for the name, with its slot. *)
Definition sfs_lookonce (v : nat) (name : list Z) : M vst (Z + (nat * Z)) :=
  r ← on_sv v (λ h, sfs_dir_findname h name);
  match r with
  | (0, Findname (Some (slot, ino)) _) =>
      r ← sfs_loadvnode ino SFS_TYPE_INVAL;
      match r with
      | inl e => mret (inl e)
      | inr v2 =>
          x ← get_sv v2;
          if x.(sv_i).(sfi_linkcount) =? 0 then panic else mret (inr (v2, slot))
      end
  | (result, _) => mret (inl result)
  end.

Definition sfs_makeobj (type : Z) : M vst (Z + nat) :=
  r ← on_fs (λ h, sfs_balloc h);
  match r with
  | inl e => mret (inl e)
  | inr ino => sfs_loadvnode ino type
  end.

(** [sfi_linkcount] is a 16-bit unsigned integer. *)
Definition u16 (x : Z) : Z := x mod 65536.
Definition add_link (n : Z) (x : sfs_vnode) : sfs_vnode :=
  SfsVnode (set_linkcount (u16 (x.(sv_i).(sfi_linkcount) + n)) x.(sv_i)) x.(sv_ino) true.

Definition sfs_creat (v : nat) (name : list Z) (excl : bool) (mode : Z) : M vst (Z + nat) :=
  with_biglock
    (r ← on_sv v (λ h, sfs_dir_findname h name);
     let '(result, fn) := r : Z * findname in
     if negb (result =? 0) && negb (result =? ENOENT) then mret (inl result)
     else if (result =? 0) && excl then mret (inl EEXIST)
     else match (if result =? 0 then fn.(fn_found) else None) with
          | Some (_, ino) => sfs_loadvnode ino SFS_TYPE_INVAL
          | None =>
              r ← sfs_makeobj SFS_TYPE_FILE;
              match r with
              | inl e => mret (inl e)
              | inr newguy =>
                  x ← get_sv newguy;
                  r ← on_sv v (λ h, sfs_dir_link h name x.(sv_ino));
                  match r with
                  | inl e => sfs_decref newguy;; mret (inl e)
                  | inr _ => x ← get_sv newguy; put_sv newguy (add_link 1 x);; mret (inr newguy)
                  end
              end
          end).

Definition sfs_link (dir : nat) (name : list Z) (file : nat) : M vst Z :=
  s ← get;
  vd ← of_opt (s.(vnodes) !! dir);
  vf ← of_opt (s.(vnodes) !! file);
  kassert (bool_decide (vf.(vn_fs) = vd.(vn_fs)));;
  with_biglock
    (f ← get_sv file;
     r ← on_sv dir (λ h, sfs_dir_link h name f.(sv_ino));
     match r with
     | inl e => mret e
     | inr _ => f ← get_sv file; put_sv file (add_link 1 f);; mret 0
     end).

Definition sfs_remove (dir : nat) (name : list Z) : M vst Z :=
  with_biglock
    (r ← sfs_lookonce dir name;
     match r with
     | inl e => mret e
     | inr (victim, slot) =>
         result ← on_sv dir (λ h, sfs_dir_unlink h slot);
         (if result =? 0 then
            x ← get_sv victim;
            kassert (x.(sv_i).(sfi_linkcount) >? 0);;
            put_sv victim (add_link (-1) x)
          else mret tt);;
         sfs_decref victim;;
         mret result
     end).

(** The label [puke_harder]: the new name is taken back. *)
Definition rename_undo (d1 g1 : nat) (slot2 result : Z) : M vst Z :=
  result2 ← on_sv d1 (λ h, sfs_dir_unlink h slot2);
  if negb (result2 =? 0) then panic
  else
    x ← get_sv g1;
    put_sv g1 (SfsVnode (set_linkcount (u16 (x.(sv_i).(sfi_linkcount) - 1)) x.(sv_i)) x.(sv_ino) x.(sv_dirty));;
    sfs_decref g1;;
    mret result.

Definition sfs_rename (d1 : nat) (n1 : list Z) (d2 : nat) (n2 : list Z) : M vst Z :=
  with_biglock
    (kassert (d1 =? d2)%nat;;
     x ← get_sv d1;
     kassert (x.(sv_ino) =? SFS_ROOT_LOCATION);;
     r ← sfs_lookonce d1 n1;
     match r with
     | inl e => mret e
     | inr (g1, slot1) =>
         x ← get_sv g1;
         kassert (x.(sv_i).(sfi_type) =? SFS_TYPE_FILE);;
         r ← on_sv d1 (λ h, sfs_dir_link h n2 x.(sv_ino));
         match r with
         | inl e => sfs_decref g1;; mret e
         | inr slot2 =>
             x ← get_sv g1;
             put_sv g1 (add_link 1 x);;
             result ← on_sv d1 (λ h, sfs_dir_unlink h slot1);
             if negb (result =? 0) then rename_undo d1 g1 slot2 result
             else
               x ← get_sv g1;
               kassert (x.(sv_i).(sfi_linkcount) >? 0);;
               put_sv g1 (add_link (-1) x);;
               sfs_decref g1;;
               mret 0
         end
     end).

Definition sfs_lookparent (v : nat) (path : list Z) (buflen : Z) : M vst (Z + (nat * list Z)) :=
  with_biglock
    (d ← is_dir v;
     if negb d then mret (inl ENOTDIR)
     else if Z.of_nat (length path) + 1 >? buflen then mret (inl ENAMETOOLONG)
     else vnode_incref v;; mret (inr (v, path))).

Definition sfs_lookup (v : nat) (path : list Z) : M vst (Z + nat) :=
  with_biglock
    (d ← is_dir v;
     if negb d then mret (inl ENOTDIR)
     else
       r ← sfs_lookonce v path;
       mret (match r with inl e => inl e | inr (final, _) => inr final end)).

(** Hands back the empty string. *)
Definition sfs_namefile (v : nat) : M vst Z :=
  x ← get_sv v; kassert (x.(sv_ino) =? SFS_ROOT_LOCATION);; mret 0.

Definition as_error {A} (m : M vst Z) : M vst (Z + A) := e ← m; mret (inl e).

(** The name of the volume, a NUL-terminated string. *)
Definition volname (l : list Z) : list Z := cstring (λ x, default 0 (zlookup l x)) 0 32.

(** The two tables. *)
#[export] Instance sfs_ops : FsOps sfsw := {
  vop_open v flags := by_type v (sfs_open v flags) (sfs_opendir v flags);
  vop_close v := sfs_close v;
  vop_reclaim v := sfs_reclaim v;
  vop_gettype v := sfs_gettype v;
  vop_truncate v len := by_type v (sfs_truncate v len) sfs_isdir;
  vop_creat v name excl mode := by_type v (as_error sfs_notdir) (sfs_creat v name excl mode);
  vop_symlink v _ _ := by_type v sfs_notdir sfs_unimp;
  vop_mkdir v _ _ := by_type v sfs_notdir sfs_unimp;
  vop_link v name f := by_type v sfs_notdir (sfs_link v name f);
  vop_remove v name := by_type v sfs_notdir (sfs_remove v name);
  vop_rmdir v _ := by_type v sfs_notdir sfs_unimp;
  vop_rename d1 n1 d2 n2 := by_type d1 sfs_notdir (sfs_rename d1 n1 d2 n2);
  vop_lookup v path := by_type v (as_error sfs_notdir) (sfs_lookup v path);
  vop_lookparent v path len := by_type v (as_error sfs_notdir) (sfs_lookparent v path len);
  fsop_getroot _ := sfs_getroot;
  fsop_getvolname _ s := Some (volname s.(world).(w_fs).(sfs_sb).(sp_volname));
}.
End sfs_vnode.

(** ** The contract of [VOP_RECLAIM]

    Whenever [sfs_reclaim] returns, the references are as the class [FsLaws] has
    it: consumed, or untouched after an error of the disk. *)

Section reclaim.
Context {MC : Mach}.
Implicit Types s : vst.

(** What holds if the routine returns. *)
Definition wlp {A} (m : M vst A) (Q : A → vst → Prop) s : Prop := match m s with Ret a s' => Q a s' | _ => True end.

Lemma wlp_bind {A B} (m : M vst A) (k : A → M vst B) Q s : wlp m (λ a, wlp (k a) Q) s → wlp (m ≫= k) Q s.
Proof. unfold wlp, mbind, M_bind. by destruct (m s). Qed.

Lemma wlp_mono {A} (m : M vst A) (P Q : A → vst → Prop) s : wlp m P s → (∀ a s', P a s' → Q a s') → wlp m Q s.
Proof. unfold wlp. destruct (m s); auto. Qed.

Lemma wlp_of_opt {A} (o : option A) (Q : A → vst → Prop) s : (∀ a, o = Some a → Q a s) → wlp (of_opt o) Q s.
Proof. destruct o; [by intros H; apply H|done]. Qed.

Lemma wlp_kassert b (Q : unit → vst → Prop) s : (b = true → Q tt s) → wlp (kassert b) Q s.
Proof. intros H. destruct b; [by apply H|done]. Qed.

(** Only the volume has changed. *)
Definition world_only s s' : Prop := ∃ w, s' = set_world w s.

Lemma world_refl s : world_only s s.
Proof. exists s.(world). by destruct s. Qed.

Lemma world_trans s1 s2 s3 : world_only s1 s2 → world_only s2 s3 → world_only s1 s3.
Proof. intros [w ->] [w' ->]. by exists w'. Qed.

Definition in_volume {A} (m : M vst A) : Prop := ∀ s, wlp m (λ _, world_only s) s.

Lemma volume_bind {A B} (m : M vst A) (k : A → M vst B) : in_volume m → (∀ a, in_volume (k a)) → in_volume (m ≫= k).
Proof.
  intros Hm Hk s. apply wlp_bind. eapply wlp_mono; [apply Hm|]. intros a s1 H1.
  eapply wlp_mono; [apply Hk|]. intros b s2 H2. exact (world_trans _ _ _ H1 H2).
Qed.

Lemma volume_ret {A} (a : A) : in_volume (mret a).
Proof. intros s. apply world_refl. Qed.

Lemma volume_get {A} (k : vst → M vst A) : (∀ s, wlp (k s) (λ _, world_only s) s) → in_volume (get ≫= k).
Proof. intros H s. apply H. Qed.

Lemma volume_zoom {T A} (part : vst → T) put (m : M T A) : (∀ t s, world_only s (put t s)) → in_volume (zoom part put m).
Proof. intros H s. unfold wlp, zoom. destruct (m (part s)); [apply H|done..]. Qed.

Lemma volume_on_sv {A} v (m : bool → M fstate A) : in_volume (on_sv v m).
Proof.
  intros s. unfold on_sv, do_i_hold, vfs_biglock_do_i_hold, gets. apply wlp_bind, wlp_bind, wlp_bind, wlp_of_opt.
  intros sv0 _. apply (volume_zoom _ _ (m _)). intros f s'. by eexists.
Qed.

Lemma volume_on_fs {A} (m : bool → M fstate A) : in_volume (on_fs m).
Proof. intros s. unfold on_fs. apply wlp_bind. apply (volume_zoom _ _ (m _)). intros f s'. by eexists. Qed.

Lemma volume_on_table {A} (m : M (array nat) A) : in_volume (on_table m).
Proof. apply volume_zoom. intros a s. by eexists. Qed.

Lemma volume_get_sv v : in_volume (get_sv v).
Proof. apply volume_get. intros s. apply wlp_of_opt. intros. apply world_refl. Qed.

Lemma volume_find v n i : in_volume (for_find n i (reclaim_find v)).
Proof.
  revert i. induction n as [|n IH]; intros i; [apply volume_ret|]. change (for_find (S n) i (reclaim_find v)) with
    (r ← reclaim_find v i; match r with Some a => mret (Some a) | None => for_find n (i + 1) (reclaim_find v) end).
  apply volume_bind; [apply volume_bind; [apply volume_on_table|intros; apply volume_ret]|].
  intros [a|]; [apply volume_ret|apply IH].
Qed.

(** The big lock, and what runs under it. *)
Lemma wlp_release (Q : unit → vst → Prop) s : Q tt (set_biglock (s.(biglock) - 1) s) → wlp vfs_biglock_release Q s.
Proof. intros H. apply wlp_bind, wlp_bind, wlp_kassert. by intros _. Qed.

Lemma relock w s : set_biglock (s.(biglock) + 1 - 1) (set_world w (set_biglock (s.(biglock) + 1) s)) = set_world w s.
Proof. destruct s. unfold set_biglock, set_world; simpl. f_equal. lia. Qed.

Lemma volume_lock {A} (m : M vst A) : in_volume m → in_volume (with_biglock m).
Proof.
  intros Hm s. apply wlp_bind, wlp_bind. eapply wlp_mono; [apply Hm|]. intros a s1 [w ->].
  apply wlp_bind, wlp_release. exists w. apply relock.
Qed.

Lemma volume_check b v : in_volume (vnode_check b v).
Proof.
  intros s. apply wlp_bind, wlp_bind, wlp_bind, wlp_of_opt. intros vn _.
  assert (∀ (c d : bool) (k : M vst unit) Q s', wlp k Q s' → wlp ((if c then panic else if d then panic else mret tt);; k) Q s') as Hc
    by (by intros [] [] k Q s').
  apply Hc. apply (Hc _ false), wlp_release. exists s.(world). rewrite <- (relock s.(world) s). by destruct s.
Qed.

Lemma volume_truncate v : in_volume (vop v (by_type v (sfs_truncate v 0) sfs_isdir)).
Proof.
  apply volume_bind; [apply volume_check|]. intros _. apply volume_bind.
  - apply volume_bind; [apply volume_get_sv|]. intros; apply volume_ret.
  - intros []; [apply volume_ret|]. apply volume_lock, volume_on_sv.
Qed.

Lemma books_world s w : books s 0 none none (set_world w s).
Proof. split; unfold none; intros; try done; unfold refs, count, warnings, opens; simpl; lia. Qed.

(** The vnode goes. *)
Lemma books_gone v w s vn :
  s.(vnodes) !! v = Some vn → vn.(vn_refcount) = 1 → vn.(vn_opencount) = 0 → s.(curdir) ≠ Some v →
  books s 0 (λ x, - one v x) none (set_world w (set_vnodes (delete v s.(vnodes)) s)).
Proof.
  intros Hv Hr Ho Hd. split; simpl; try done; unfold opens, fs_of, none, one; simpl.
  - intros x. apply refs_count; [done|]. unfold count; simpl. destruct (Nat.eqb_spec x v) as [-> |].
    + rewrite lookup_delete_eq, Hv. simpl. lia.
    + rewrite lookup_delete_ne by done. lia.
  - intros x. destruct (decide (x = v)) as [-> |]; [rewrite lookup_delete_eq, Hv; simpl; lia|]. rewrite lookup_delete_ne by done. lia.
  - lia.
  - intros d Hcd. rewrite lookup_delete_ne; [done|]. congruence.
Qed.

Lemma reclaim_drop_books v s :
  s.(curdir) ≠ Some v →
  wlp (reclaim_drop v) (λ r s', r = 0 ∧ books (set_biglock (s.(biglock) - 1) s) 0 (λ x, - one v x) none s') s.
Proof.
  intros Hd. apply wlp_bind. eapply wlp_mono; [apply volume_on_table|]. intros num s1 H1.
  apply wlp_bind. eapply wlp_mono; [apply volume_find|]. intros [ix|] s2 H2; [|done].
  apply wlp_bind. eapply wlp_mono; [apply volume_on_table|]. intros u s3 H3.
  destruct (world_trans _ _ _ (world_trans _ _ _ H1 H2) H3) as [w ->].
  apply wlp_bind. apply wlp_bind, wlp_bind, wlp_of_opt. intros vn Hv. simpl in Hv.
  apply wlp_bind, wlp_kassert. intros Hr%Z.eqb_eq. apply wlp_bind, wlp_kassert. intros Ho%Z.eqb_eq.
  apply wlp_bind, wlp_release, wlp_bind. split; [done|].
  by apply (books_gone v (Sfsw w.(w_fs) (delete v w.(w_svs)) w.(w_vnodes) w.(w_km)) (set_biglock (s.(biglock) - 1) s) vn).
Qed.

Lemma sfs_reclaim_books v s :
  count s v = 1 → s.(curdir) ≠ Some v →
  wlp (sfs_reclaim v) (λ r s', books s 0 (λ x, if r =? 0 then - one v x else 0) none s') s.
Proof.
  intros Hc Hd. unfold count in Hc. apply wlp_bind, wlp_bind, wlp_bind, wlp_of_opt. intros vn Hv. simpl in Hv.
  rewrite Hv in Hc. simpl in Hc. rewrite Hc. cbn [Z.eqb Pos.eqb negb].
  assert (∀ s' r, world_only (set_biglock (s.(biglock) + 1) s) s' → r ≠ 0 →
    wlp (vfs_biglock_release;; mret r) (λ r s', books s 0 (λ x, if r =? 0 then - one v x else 0) none s') s') as Herr.
  { intros s' r [w ->] Hr. apply wlp_bind, wlp_release. unfold wlp, mret, M_ret. rewrite (proj2 (Z.eqb_neq _ _) Hr).
    change (books s 0 none none (set_biglock (s.(biglock) + 1 - 1) (set_world w (set_biglock (s.(biglock) + 1) s)))).
    rewrite relock. apply books_world. }
  apply wlp_bind. eapply wlp_mono; [apply volume_get_sv|]. intros x s1 H1. apply wlp_bind.
  eapply wlp_mono; [apply (λ H, H s1)|].
  { destruct (_ =? 0); [apply volume_truncate|apply volume_ret]. }
  intros r s2 H2. pose proof (world_trans _ _ _ H1 H2) as H12. destruct (Z.eqb_spec r 0); [|by apply Herr]. cbn [negb].
  apply wlp_bind. eapply wlp_mono; [apply volume_on_sv|]. intros r' s3 H3. pose proof (world_trans _ _ _ H12 H3) as H13.
  destruct (Z.eqb_spec r' 0); [|by apply Herr]. cbn [negb].
  apply wlp_bind. eapply wlp_mono; [apply volume_get_sv|]. intros y s4 H4. apply wlp_bind.
  eapply wlp_mono; [apply (λ H, H s4)|].
  { unfold when. destruct (_ =? 0); [apply volume_on_fs|apply volume_ret]. }
  intros [] s5 H5. destruct (world_trans _ _ _ (world_trans _ _ _ H13 H4) H5) as [w ->].
  eapply wlp_mono; [by apply reclaim_drop_books|]. intros r5 s6 [-> Hb]. cbn [Z.eqb].
  change (biglock (set_world w (set_biglock (biglock s + 1) s))) with (biglock s + 1) in Hb. rewrite relock in Hb.
  eapply books_eq; [..|eapply books_trans; [apply (books_world s w)|exact Hb]]; [done| |]; intros z; unfold none; lia.
Qed.

(** [sfs_reclaim] keeps the contract unless it hands on an [EBUSY] of the disk. *)
Lemma sfs_reclaim_contract v s r s' :
  count s v = 1 → held s v = 0 → sfs_reclaim v s = Ret r s' → r ≠ EBUSY →
  books s 0 (λ x, if (r =? 0) || (r =? EBUSY) then - one v x else 0) none s'.
Proof.
  intros Hc Hh E Hr. assert (s.(curdir) ≠ Some v) as Hd.
  { intros Hd. unfold held in Hh. rewrite Hd in Hh. simpl in Hh. rewrite one_self in Hh.
    pose proof (own_nonneg s.(bootfs_vnode) v). pose proof (devs_own_nonneg s.(knowndevs) v). lia. }
  pose proof (sfs_reclaim_books v s Hc Hd) as H. unfold wlp in H. rewrite E in H.
  by rewrite (proj2 (Z.eqb_neq _ _) Hr), orb_false_r.
Qed.
End reclaim.
