(* ===== verification/SfsFs.v ===== *)
(** The volume as a whole (kern/fs/sfs/sfs_fs.c): the free map and the superblock
    on the disk, [sync], [mount] and [unmount].

    [sfs_domount] runs with the big lock, which it takes first; the calls of
    [kmalloc] it makes are the booleans [km1] to [km4].  What it builds is the
    superblock and the free map; the table of vnodes starts empty. *)

From Stdlib Require Import ZArith Lia.
From stdpp Require Import base numbers list gmap.
From S2P Require Import Prelude Bitmap KArray Uio Vfs SfsDisk SfsFile SfsIo SfsDir SfsVnode.

Definition SFS_BLOCKBITS : Z := 4096.
Definition SFS_ROUNDUP (a b : Z) : Z := u32 (u32 (u32 (a + b) - 1) / b * b).
Definition SFS_BITMAPSIZE (nblocks : Z) : Z := SFS_ROUNDUP nblocks SFS_BLOCKBITS.
Definition SFS_BITBLOCKS (nblocks : Z) : Z := SFS_BITMAPSIZE nblocks / SFS_BLOCKBITS.

(** Bytes and the superblock in memory. *)
Definition bytes_at (m : Z → Z) (a : Z) (n : nat) : list Z := (λ i, m (a + Z.of_nat i)) <$> seq 0 n.
Definition bytes_put (m : Z → Z) (a : Z) (l : list Z) : Z → Z := λ x,
  if (a <=? x) && (x <? a + Z.of_nat (length l)) then default 0 (l !! Z.to_nat (x - a)) else m x.

Definition super_at (m : Z → Z) (a : Z) : sfs_super :=
  SfsSuper (word_at m a) (word_at m (a + 4)) (bytes_at m (a + 8) 32) (words_at m (a + 40) 118).
Definition super_put (m : Z → Z) (a : Z) (sp : sfs_super) : Z → Z :=
  words_put (bytes_put (word_put (word_put m a sp.(sp_magic)) (a + 4) sp.(sp_nblocks)) (a + 8) sp.(sp_volname))
    (a + 40) sp.(sp_reserved).

Definition put_mem (m : Z → Z) (s : dstate) : dstate := set_du (Ust m s.(du).(u)) s.

Section sfs_fs.
Context {MC : Mach} (held : bool).

(** Sector [j] of the free map; the map in memory afterwards. *)
Definition mapio_sector (rw : uio_rw_t) (j : Z) (b : bitmap) : M dstate (Z * bitmap) :=
  let o := Z.to_nat (j * 512) in
  match rw with
  | UIO_READ =>
      result ← sfs_rblock held inobuf (u32 (SFS_MAP_LOCATION + j));
      s ← get;
      v ← of_opt (blk_move b.(bm_v) o (bytes_at s.(du).(mem) inobuf 512) 0 512);
      mret (result, if result =? 0 then Bitmap b.(nbits) v else b)
  | UIO_WRITE =>
      data ← of_opt (blk_move (replicate 512 0) 0 b.(bm_v) o 512);
      modify (λ s, put_mem (bytes_put s.(du).(mem) inobuf data) s);;
      result ← sfs_wblock held inobuf (u32 (SFS_MAP_LOCATION + j));
      mret (result, b)
  end.

Fixpoint mapio_loop (n : nat) (rw : uio_rw_t) (j : Z) (b : bitmap) : M dstate (Z * bitmap) :=
  match n with
  | O => mret (0, b)
  | S n =>
      r ← mapio_sector rw j b;
      if negb (r.1 =? 0) then mret r else mapio_loop n rw (j + 1) r.2
  end.

Definition sfs_mapio (rw : uio_rw_t) (nblocks : Z) (b : bitmap) : M dstate (Z * bitmap) :=
  mapio_loop (Z.to_nat (SFS_BITBLOCKS nblocks)) rw 0 b.

Definition set_superdirty (x : bool) (s : fstate) : fstate :=
  Fstate (SfsFs s.(sfs).(sfs_sb) x s.(sfs).(sfs_device) s.(sfs).(sfs_freemap) s.(sfs).(sfs_freemapdirty)) s.(sv).

Definition sync_map : M fstate Z :=
  s ← get;
  if s.(sfs).(sfs_freemapdirty) then
    r ← on_dev (sfs_mapio UIO_WRITE (nblocks s) (fmap_of s));
    if negb (r.1 =? 0) then mret r.1 else modify (set_fmapdirty false);; mret 0
  else mret 0.

Definition sync_super : M fstate Z :=
  s ← get;
  if s.(sfs).(sfs_superdirty) then
    modify (λ s, set_smem (super_put (smem s) inobuf s.(sfs).(sfs_sb)) s);;
    result ← f_wblock held inobuf SFS_SB_LOCATION;
    if negb (result =? 0) then mret result else modify (set_superdirty false);; mret 0
  else mret 0.

(** What [sfs_sync] writes after the inodes. *)
Definition sync_meta : M fstate Z :=
  result ← sync_map;
  if negb (result =? 0) then mret result else sync_super.
End sfs_fs.

Definition volname_end (l : list Z) : option (list Z) := zupd l 31 0.

Section mount.
Context {MC : Mach}.

Definition sync_vnode (i : Z) : M vst unit :=
  v ← on_table (array_get i);
  vop v (sfs_fsync v);;
  mret tt.

Definition sfs_sync : M vst Z :=
  with_biglock
    (num ← on_table array_num;
     for_up (Z.to_nat num) 0 sync_vnode;;
     on_fs sync_meta).

Definition sfs_getvolname : M vst (list Z) :=
  with_biglock (s ← get; mret (volname s.(world).(w_fs).(sfs_sb).(sp_volname))).

Definition sfs_unmount : M vst Z :=
  with_biglock
    (num ← on_table array_num;
     if num >? 0 then mret EBUSY
     else
       s ← get;
       kassert (negb s.(world).(w_fs).(sfs_superdirty));;
       kassert (negb s.(world).(w_fs).(sfs_freemapdirty));;
       on_table array_cleanup;;
       mret 0).

(** An error code, or the superblock and the free map of the volume. *)
Definition sfs_domount (d_blocksize : Z) (km1 km2 km3 km4 : bool) : M dstate (Z + (sfs_super * bitmap)) :=
  if negb (d_blocksize =? SFS_BLOCKSIZE) then mret (inl ENXIO)
  else if negb km1 then mret (inl ENOMEM)
  else if negb km2 then mret (inl ENOMEM)
  else
    result ← sfs_rblock true inobuf SFS_SB_LOCATION;
    if negb (result =? 0) then mret (inl result)
    else
      s ← get;
      let sb := super_at s.(du).(mem) inobuf in
      if negb (sb.(sp_magic) =? SFS_MAGIC) then mret (inl EINVAL)
      else
        vol ← of_opt (volname_end sb.(sp_volname));
        let sb := SfsSuper sb.(sp_magic) sb.(sp_nblocks) vol sb.(sp_reserved) in
        r ← zoom (λ _, tt) (λ _ s, s) (bitmap_create (SFS_BITMAPSIZE sb.(sp_nblocks)) km3 km4);
        match r with
        | None => mret (inl ENOMEM)
        | Some b =>
            r ← sfs_mapio true UIO_READ sb.(sp_nblocks) b;
            if negb (r.1 =? 0) then mret (inl r.1) else mret (inr (sb, r.2))
        end.
End mount.

(** ** Layout round trips *)

Lemma words_put_other m a l x : ¬ a ≤ x < a + 4 * Z.of_nat (length l) → words_put m a l x = m x.
Proof.
  revert m a. induction l as [|w l IH]; intros m a Hx; [done|]. cbn [words_put length] in *.
  rewrite IH by lia. apply word_put_other. lia.
Qed.

Lemma words_at_put m a l : Forall (λ w, 0 ≤ w < W32) l → words_at (words_put m a l) a (length l) = l.
Proof.
  revert m a. induction l as [|w l IH]; intros m a H; [done|]. apply Forall_cons in H as [Hw Hl].
  unfold words_at. cbn [length seq words_put fmap list_fmap]. f_equal.
  - rewrite Z.add_0_r, (word_at_ext (word_put m a w)); [by apply word_at_put|]. intros x Hx. apply words_put_other. lia.
  - etransitivity; [|apply (IH (word_put m a w) (a + 4) Hl)]. unfold words_at. rewrite <- fmap_S_seq, <- list_fmap_compose.
    apply list_fmap_ext. intros i x Hx. simpl. f_equal. lia.
Qed.

Lemma words_at_ext m m' a n : (∀ x, a ≤ x < a + 4 * Z.of_nat n → m' x = m x) → words_at m' a n = words_at m a n.
Proof.
  intros H. apply list_fmap_ext. intros i x Hx. apply lookup_seq in Hx as [-> Hi]. apply word_at_ext. intros y Hy. apply H. lia.
Qed.

Lemma bytes_at_ext m m' a a' n : (∀ i, 0 ≤ i < Z.of_nat n → m' (a' + i) = m (a + i)) → bytes_at m' a' n = bytes_at m a n.
Proof. intros H. apply list_fmap_ext. intros i x Hx. apply lookup_seq in Hx as [-> Hi]. apply H. lia. Qed.

Lemma bytes_at_put m a l : bytes_at (bytes_put m a l) a (length l) = l.
Proof.
  apply list_eq. intros i. unfold bytes_at. rewrite list_lookup_fmap. destruct (decide (i < length l)%nat) as [Hi|Hi].
  - rewrite lookup_seq_lt by done. simpl. unfold bytes_put. zdecide. replace (Z.to_nat (a + Z.of_nat i - a)) with i by lia.
    destruct (lookup_lt_is_Some_2 l i Hi) as [x Hx]. by rewrite Hx.
  - rewrite lookup_seq_ge by lia. by rewrite lookup_ge_None_2 by lia.
Qed.

Lemma bytes_put_other m a l x : ¬ a ≤ x < a + Z.of_nat (length l) → bytes_put m a l x = m x.
Proof. intros Hx. unfold bytes_put. destruct (Z.leb_spec a x), (Z.ltb_spec x (a + Z.of_nat (length l))); simpl; (done || lia). Qed.

(** A superblock whose fields fit. *)
Definition super_ok (sp : sfs_super) : Prop :=
  0 ≤ sp.(sp_magic) < W32 ∧ 0 ≤ sp.(sp_nblocks) < W32 ∧ length sp.(sp_volname) = 32%nat ∧ sp.(sp_volname) !! 31%nat = Some 0 ∧
  length sp.(sp_reserved) = 118%nat ∧ Forall (λ w, 0 ≤ w < W32) sp.(sp_reserved).

Lemma super_at_put m a sp : super_ok sp → super_at (super_put m a sp) a = sp.
Proof.
  intros (H1 & H2 & H3 & H4 & H5 & H6). unfold super_at, super_put. destruct sp as [mg nb vol res]; simpl in *.
  set (m1 := word_put m a mg). set (m2 := word_put m1 (a + 4) nb). set (m3 := bytes_put m2 (a + 8) vol). f_equal.
  - rewrite (word_at_ext m1); [by apply word_at_put|]. intros x Hx. rewrite words_put_other by lia.
    unfold m3. rewrite bytes_put_other by lia. apply word_put_other. lia.
  - rewrite (word_at_ext m2); [by apply word_at_put|]. intros x Hx. rewrite words_put_other by lia. apply bytes_put_other. lia.
  - etransitivity; [|apply (bytes_at_put m2 (a + 8) vol)]. rewrite H3. apply bytes_at_ext. intros i Hi. rewrite words_put_other by lia. done.
  - rewrite <- H5. by apply words_at_put.
Qed.

(** An inode whose fields fit. *)
Definition inode_ok (i : sfs_inode) : Prop :=
  0 ≤ i.(sfi_size) < W32 ∧ 0 ≤ i.(sfi_type) < 65536 ∧ 0 ≤ i.(sfi_linkcount) < 65536 ∧ length i.(sfi_direct) = 15%nat ∧
  Forall (λ w, 0 ≤ w < W32) i.(sfi_direct) ∧ 0 ≤ i.(sfi_indirect) < W32 ∧ length i.(sfi_waste) = 110%nat ∧
  Forall (λ w, 0 ≤ w < W32) i.(sfi_waste).

Lemma sfi_words_ok i : inode_ok i → length (sfi_words i) = 128%nat ∧ Forall (λ w, 0 ≤ w < W32) (sfi_words i).
Proof.
  intros (H1 & H2 & H3 & H4 & H5 & H6 & H7 & H8). unfold sfi_words. split.
  - simpl. rewrite length_app. simpl. lia.
  - repeat (apply Forall_cons; split); [done|unfold W32; lia|]. apply Forall_app. split; [done|]. by apply Forall_cons.
Qed.

Lemma inode_of_words_sfi i : inode_ok i → inode_of_words (sfi_words i) = i.
Proof.
  intros (H1 & H2 & H3 & H4 & H5 & H6 & H7 & H8). destruct i as [sz ty lk dir ind wst]; simpl in *.
  unfold inode_of_words, sfi_words. simpl. f_equal.
  - lia.
  - lia.
  - rewrite drop_0, take_app_le by lia. apply take_ge. lia.
  - rewrite lookup_app_r, H4 by lia. done.
  - rewrite drop_app_ge, H4 by lia. done.
Qed.

(** ** The free map on the disk *)

Section map_io.
Context {MC : Mach}.
Implicit Types (d : dstate) (b : bitmap).

(** Memory but for the static buffers. *)
Definition same_kmem d d' : Prop := ∀ a, ¬ kbufs ≤ a < kbufs_end → d'.(du).(mem) a = d.(du).(mem) a.
(** The zeros of [sfs_clearblock] stay zeros. *)
Definition same_zeros d d' : Prop := ∀ a, zeros ≤ a < zeros + 512 → d'.(du).(mem) a = d.(du).(mem) a.

Lemma lookup_bytes_at m a n (i : nat) : (i < n)%nat → bytes_at m a n !! i = Some (m (a + Z.of_nat i)).
Proof. intros Hi. unfold bytes_at. by rewrite list_lookup_fmap, lookup_seq_lt by done. Qed.

Lemma length_bytes_at m a n : length (bytes_at m a n) = n.
Proof. unfold bytes_at. by rewrite length_fmap, length_seq. Qed.

Lemma mapio_write_sector d j b :
  d.(lhd_codes) = [] → 0 ≤ j → 2 + j < d_blocks → d_blocks < W32 → 512 * (j + 1) ≤ Z.of_nat (length b.(bm_v)) →
  wp (mapio_sector true UIO_WRITE j b)
     (λ r d', r = (0, b) ∧ d'.(lhd_codes) = [] ∧ d'.(du).(u) = d.(du).(u) ∧ same_kmem d d' ∧ same_zeros d d' ∧
        ∀ x, d'.(disk) x = if ((2 + j) * 512 <=? x) && (x <? (2 + j) * 512 + 512)
                           then default 0 (b.(bm_v) !! Z.to_nat (x - 1024)) else d.(disk) x) d.
Proof.
  intros Hc Hj Hb Hd Hl. unfold mapio_sector. cbv zeta.
  eapply wp_of_opt; [apply blk_move_Some; rewrite ?length_replicate; lia|]. apply wp_modify.
  set (l := take 512 (drop (Z.to_nat (j * 512)) (bm_v b))). rewrite drop_ge, app_nil_r by (rewrite length_replicate; lia).
  change (take 0 (replicate 512 0) ++ l) with l.
  assert (length l = 512%nat) as Hll by (unfold l; rewrite length_take, length_drop; lia).
  set (d1 := put_mem _ d). unfold SFS_MAP_LOCATION. rewrite u32_small by lia.
  destruct (sfs_wblock_ret d1 inobuf (2 + j)) as (m' & dk & E & Hm & Hd1 & Hd2); [lia|lia|right; unfold lh_buf, inobuf; lia|unfold next_result, d1; simpl; by rewrite Hc|].
  eapply wp_run; [exact E|]. apply wp_ret. split; [done|].
  assert (∀ a, ¬ inobuf ≤ a < inobuf + 512 → mem (du d1) a = mem (du d) a) as Hm1.
  { intros a Ha. apply bytes_put_other. rewrite Hll. lia. }
  split; [simpl; by rewrite Hc|]. split; [done|]. split; [|split].
  - intros a Ha. change (m' a = mem (du d) a). rewrite Hm, Hm1; [done|..]; revert Ha; unfold inobuf, lh_buf, kbufs_end; lia.
  - intros a Ha. change (m' a = mem (du d) a). rewrite Hm, Hm1; [done|..]; revert Ha; unfold inobuf, lh_buf, zeros; lia.
  - intros x. cbn [disk]. destruct (Z.leb_spec ((2 + j) * 512) x), (Z.ltb_spec x ((2 + j) * 512 + 512)); cbn [andb];
      try (apply Hd2; lia).
    replace x with ((2 + j) * 512 + Z.of_nat (Z.to_nat (x - (2 + j) * 512))) at 1 by lia.
    rewrite (Hd1 _ (inobuf + (x - (2 + j) * 512))) by (lia || (rewrite lookup_seqZ_lt by lia; f_equal; lia)).
    unfold d1. simpl. unfold bytes_put. rewrite Hll. zdecide. unfold l.
    rewrite lookup_take_lt, lookup_drop by lia. do 2 f_equal. lia.
Qed.

Lemma mapio_write_wp n : ∀ d j b,
  d.(lhd_codes) = [] → 0 ≤ j → 2 + j + Z.of_nat n ≤ d_blocks → d_blocks < W32 → 512 * (j + Z.of_nat n) ≤ Z.of_nat (length b.(bm_v)) →
  wp (mapio_loop true n UIO_WRITE j b)
     (λ r d', r = (0, b) ∧ d'.(lhd_codes) = [] ∧ d'.(du).(u) = d.(du).(u) ∧ same_kmem d d' ∧ same_zeros d d' ∧
        ∀ x, d'.(disk) x = if ((2 + j) * 512 <=? x) && (x <? (2 + j + Z.of_nat n) * 512)
                           then default 0 (b.(bm_v) !! Z.to_nat (x - 1024)) else d.(disk) x) d.
Proof.
  induction n as [|n IH]; intros d j b Hc Hj Hb Hd Hl; cbn [mapio_loop].
  - apply wp_ret. split; [done|]. split; [done|]. split; [done|]. split; [done|]. split; [done|]. intros x.
    destruct (Z.leb_spec ((2 + j) * 512) x), (Z.ltb_spec x ((2 + j + Z.of_nat 0) * 512)); cbn [andb]; (done || lia).
  - apply wp_bind. eapply wp_mono; [|apply mapio_write_sector; (done || lia)].
    intros r d1 (-> & Hc1 & Hu1 & Hk1 & Hz1 & Hd1). cbn [fst snd Z.eqb negb].
    eapply wp_mono; [|apply (IH d1 (j + 1) b); (done || lia)].
    intros r d2 (-> & Hc2 & Hu2 & Hk2 & Hz2 & Hd2). split; [done|]. split; [done|]. split; [by rewrite Hu2|].
    split; [intros a Ha; by rewrite Hk2, Hk1|]. split; [intros a Ha; by rewrite Hz2, Hz1|].
    intros x. rewrite Hd2, Hd1. zbool.
Qed.

Lemma mapio_read_sector d j b :
  d.(lhd_codes) = [] → 0 ≤ j → 2 + j < d_blocks → d_blocks < W32 → 512 * (j + 1) ≤ Z.of_nat (length b.(bm_v)) →
  wp (mapio_sector true UIO_READ j b)
     (λ r d', r.1 = 0 ∧ d'.(lhd_codes) = [] ∧ d'.(disk) = d.(disk) ∧ r.2.(nbits) = b.(nbits) ∧
        length r.2.(bm_v) = length b.(bm_v) ∧
        ∀ i : nat, (i < length b.(bm_v))%nat → r.2.(bm_v) !! i =
          if (512 * j <=? Z.of_nat i) && (Z.of_nat i <? 512 * j + 512) then Some (d.(disk) (1024 + Z.of_nat i)) else b.(bm_v) !! i) d.
Proof.
  intros Hc Hj Hb Hd Hl. unfold mapio_sector, SFS_MAP_LOCATION. cbv zeta. rewrite u32_small by lia.
  destruct (sfs_rblock_ret d inobuf (2 + j)) as (m' & E & Hm & _); [lia|lia|right; unfold lh_buf, inobuf; lia|unfold next_result; by rewrite Hc|].
  eapply wp_run; [exact E|]. apply wp_get. cbn [du mem].
  eapply wp_of_opt; [apply blk_move_Some; rewrite ?length_bytes_at; lia|].
  apply wp_ret. cbn [fst snd Z.eqb]. rewrite drop_0, (take_ge (bytes_at m' inobuf 512) 512) by (rewrite length_bytes_at; lia).
  split; [done|]. split; [simpl; by rewrite Hc|]. split; [done|]. split; [done|]. cbn [bm_v]. split.
  { rewrite !length_app, length_take, length_drop, length_bytes_at. lia. }
  intros i Hi. destruct (Z.leb_spec (512 * j) (Z.of_nat i)); cbn [andb].
  2:{ rewrite lookup_app_l by (rewrite length_take; lia). by rewrite lookup_take_lt by lia. }
  rewrite lookup_app_r by (rewrite length_take; lia). rewrite length_take.
  replace (Z.to_nat (j * 512) `min` length (bm_v b))%nat with (Z.to_nat (j * 512)) by lia.
  destruct (Z.ltb_spec (Z.of_nat i) (512 * j + 512)).
  - rewrite lookup_app_l by (rewrite length_bytes_at; lia). rewrite lookup_bytes_at by lia. f_equal.
    rewrite (Hm (i - Z.to_nat (j * 512))%nat); [f_equal; lia|lia|]. rewrite lookup_seqZ_lt by lia. f_equal.
  - rewrite lookup_app_r by (rewrite length_bytes_at; lia). rewrite length_bytes_at, lookup_drop. f_equal. lia.
Qed.

Lemma mapio_read_wp n : ∀ d j b,
  d.(lhd_codes) = [] → 0 ≤ j → 2 + j + Z.of_nat n ≤ d_blocks → d_blocks < W32 → 512 * (j + Z.of_nat n) ≤ Z.of_nat (length b.(bm_v)) →
  wp (mapio_loop true n UIO_READ j b)
     (λ r d', r.1 = 0 ∧ d'.(disk) = d.(disk) ∧ r.2.(nbits) = b.(nbits) ∧ length r.2.(bm_v) = length b.(bm_v) ∧
        ∀ i : nat, (i < length b.(bm_v))%nat → r.2.(bm_v) !! i =
          if (512 * j <=? Z.of_nat i) && (Z.of_nat i <? 512 * (j + Z.of_nat n)) then Some (d.(disk) (1024 + Z.of_nat i)) else b.(bm_v) !! i) d.
Proof.
  induction n as [|n IH]; intros d j b Hc Hj Hb Hd Hl; cbn [mapio_loop].
  - apply wp_ret. split; [done|]. split; [done|]. split; [done|]. split; [done|]. intros i Hi.
    destruct (Z.leb_spec (512 * j) (Z.of_nat i)), (Z.ltb_spec (Z.of_nat i) (512 * (j + Z.of_nat 0))); cbn [andb]; (done || lia).
  - apply wp_bind. eapply wp_mono; [|apply mapio_read_sector; (done || lia)].
    intros [r b1] d1 (E & Hc1 & Hd1 & Hn1 & Hl1 & Hb1). cbn [fst snd] in *. subst r. cbn [Z.eqb negb].
    eapply wp_mono; [|apply (IH d1 (j + 1) b1); (done || lia)].
    intros [r b2] d2 (E & Hd2 & Hn2 & Hl2 & Hb2). cbn [fst snd] in *. split; [done|]. split; [by rewrite Hd2|].
    split; [by rewrite Hn2|]. split; [by rewrite Hl2|]. intros i Hi. rewrite Hb2, Hd1 by lia. rewrite Hb1 by done. zbool.
Qed.
End map_io.

(** ** Sync and mount *)

Lemma word_at_shift m m' a a' : (∀ i, 0 ≤ i < 4 → m' (a' + i) = m (a + i)) → word_at m' a' = word_at m a.
Proof. intros H. unfold word_at. pose proof (H 0 ltac:(lia)) as H0. rewrite !Z.add_0_r in H0. by rewrite H0, !H by lia. Qed.

Lemma words_at_shift m m' a a' n :
  (∀ i, 0 ≤ i < 4 * Z.of_nat n → m' (a' + i) = m (a + i)) → words_at m' a' n = words_at m a n.
Proof.
  intros H. apply list_fmap_ext. intros k x Hx. apply lookup_seq in Hx as [-> Hk]. apply word_at_shift.
  intros i Hi. rewrite <- !Z.add_assoc. apply H. lia.
Qed.

Lemma super_at_shift m m' a a' : (∀ i, 0 ≤ i < 512 → m' (a' + i) = m (a + i)) → super_at m' a' = super_at m a.
Proof.
  intros H. unfold super_at. f_equal.
  - apply word_at_shift. intros i Hi. apply H. lia.
  - apply word_at_shift. intros i Hi. rewrite <- !Z.add_assoc. apply H. lia.
  - apply bytes_at_ext. intros i Hi. rewrite <- !Z.add_assoc. apply H. lia.
  - apply words_at_shift. intros i Hi. rewrite <- !Z.add_assoc. apply H. lia.
Qed.

(** The free map and the superblock as the disk has them. *)
Definition map_on_disk (d : Z → Z) (b : bitmap) : Prop :=
  ∀ i : nat, (i < length b.(bm_v))%nat → b.(bm_v) !! i = Some (d (1024 + Z.of_nat i)).
Definition super_on_disk (d : Z → Z) (sp : sfs_super) : Prop := super_at d 0 = sp.

(** A volume in memory: what is not marked dirty is on the disk. *)
Record volume_ok {MC : Mach} (s : fstate) : Prop := {
  vo_fs : fs_ok s;
  vo_super : super_ok s.(sfs).(sfs_sb);
  vo_magic : s.(sfs).(sfs_sb).(sp_magic) = SFS_MAGIC;
  vo_bits : (fmap_of s).(nbits) = SFS_BITMAPSIZE (nblocks s);
  vo_fits : 2 + SFS_BITBLOCKS (nblocks s) ≤ nblocks s;
  vo_map : s.(sfs).(sfs_freemapdirty) = false → map_on_disk (sdisk s) (fmap_of s);
  vo_sb : s.(sfs).(sfs_superdirty) = false → super_on_disk (sdisk s) s.(sfs).(sfs_sb);
}.

Section sync.
Context {MC : Mach}.
Implicit Types s : fstate.

Lemma map_length s : volume_ok s → Z.of_nat (length (fmap_of s).(bm_v)) = 512 * SFS_BITBLOCKS (nblocks s) ∧ 0 ≤ SFS_BITBLOCKS (nblocks s).
Proof.
  intros [Hs _ _ Hb _ _ _]. destruct (fo_wf s Hs) as (_ & Hl & _). rewrite Hl, Hb. unfold SFS_BITBLOCKS, SFS_BLOCKBITS.
  assert (SFS_BITMAPSIZE (nblocks s) mod 4096 = 0 ∧ 0 ≤ SFS_BITMAPSIZE (nblocks s)).
  { unfold SFS_BITMAPSIZE, SFS_ROUNDUP, SFS_BLOCKBITS, u32. generalize ((((nblocks s + 4096) mod 4294967296 - 1) mod 4294967296) / 4096). intros q. lia. }
  lia.
Qed.

(** The first part of [sfs_sync]'s end: the map is on the disk. *)
Lemma sync_map_wp s :
  volume_ok s →
  wp (sync_map true)
     (λ r s', r = 0 ∧ volume_ok s' ∧ s'.(sv) = s.(sv) ∧ fmap_of s' = fmap_of s ∧ super s' = super s ∧
        s'.(sfs).(sfs_freemapdirty) = false ∧ suio s' = suio s ∧ same_umem s s' ∧
        ∀ x, ¬ 1024 ≤ x < (2 + SFS_BITBLOCKS (nblocks s)) * 512 → sdisk s' x = sdisk s x) s.
Proof.
  intros Hv. pose proof Hv as [Hs Hsp Hmg Hb Hfit Hm Hsb]. destruct (map_length s Hv) as [Hl Hp]. pose proof (fo_disk s Hs) as Hd.
  unfold sync_map. apply wp_get. destruct (sfs_freemapdirty (sfs s)) eqn:E; [|by apply wp_ret].
  apply wp_bind, wp_zoom. eapply wp_mono; [|apply mapio_write_wp; [apply (fo_codes s Hs)|lia..]].
  intros r d' (-> & Hc & Hu & Hk & Hz & Hdk). cbn [fst Z.eqb negb]. apply wp_modify, wp_ret.
  set (s' := set_fmapdirty false (set_dev d' s)).
  assert (sdisk s' = d'.(disk)) as Ed by done.
  assert (∀ x, ¬ 1024 ≤ x < (2 + SFS_BITBLOCKS (nblocks s)) * 512 → sdisk s' x = sdisk s x) as Hx.
  { intros x Hx. rewrite Ed, Hdk. destruct (Z.leb_spec ((2 + 0) * 512) x), (Z.ltb_spec x ((2 + 0 + Z.of_nat (Z.to_nat (SFS_BITBLOCKS (nblocks s)))) * 512));
      cbn [andb]; (done || lia). }
  split; [done|]. split; [|split_and!; try done].
  split; try done.
  - apply (fs_ok_ext s); try done. change (lhd_codes d' = lhd_codes (dev s)). by rewrite Hc, (fo_codes s Hs).
  - intros _ i Hi. rewrite Ed, Hdk. change (fmap_of s') with (fmap_of s) in *. zdecide.
    replace (Z.to_nat (1024 + Z.of_nat i - 1024)) with i by lia. destruct (lookup_lt_is_Some_2 _ _ Hi) as [w Hw]. by rewrite Hw.
  - intros E2. change (sfs_sb (sfs s')) with (sfs_sb (sfs s)). rewrite <- (Hsb E2). apply super_at_shift. intros i Hi. apply Hx. lia.
Qed.

Lemma sync_super_wp s :
  volume_ok s → s.(sfs).(sfs_freemapdirty) = false →
  wp (sync_super true)
     (λ r s', r = 0 ∧ volume_ok s' ∧ s'.(sv) = s.(sv) ∧ fmap_of s' = fmap_of s ∧ s'.(sfs).(sfs_sb) = s.(sfs).(sfs_sb) ∧
        s'.(sfs).(sfs_superdirty) = false ∧ s'.(sfs).(sfs_freemapdirty) = false ∧ suio s' = suio s ∧ same_umem s s' ∧
        ∀ x, 512 ≤ x → sdisk s' x = sdisk s x) s.
Proof.
  intros Hv Hfd. pose proof Hv as [Hs Hsp Hmg Hb Hfit Hm Hsb]. destruct (map_length s Hv) as [Hl Hp].
  unfold sync_super. apply wp_get. destruct (sfs_superdirty (sfs s)) eqn:E; [|by apply wp_ret].
  apply wp_modify. set (m := super_put (smem s) inobuf (sfs_sb (sfs s))). set (s1 := set_smem m s).
  assert (∀ a, ¬ inobuf ≤ a < inobuf + 512 → m a = smem s a) as Hma.
  { intros a Ha. unfold m, super_put. destruct Hsp as (_ & _ & Hv1 & _ & Hv2 & _).
    rewrite words_put_other by (rewrite Hv2; lia). rewrite bytes_put_other by (rewrite Hv1; lia).
    rewrite word_put_other by lia. apply word_put_other. lia. }
  assert (fs_ok s1) as Hs1.
  { apply (fs_ok_ext s); try done. intros a Ha. apply Hma. revert Ha. unfold inobuf, zeros. lia. }
  apply wp_bind, f_wblock_wp; [done|unfold SFS_SB_LOCATION; pose proof (fo_bits s1 Hs1); lia|unfold is_buf, inobuf, lh_buf; lia|].
  intros m' dk H1 H2 H3. cbn [Z.eqb negb]. apply wp_modify, wp_ret. set (s' := set_superdirty false _).
  unfold SFS_SB_LOCATION in *. split; [done|]. split; [|split_and!; try done].
  - split; try done.
    + apply (fs_ok_nblocks s1); try done. intros a Ha. apply H1. revert Ha. unfold zeros, lh_buf. lia.
    + intros _ i Hi. change (sdisk s') with dk. rewrite H3 by lia. by apply Hm.
    + intros _. change (sdisk s') with dk. unfold super_on_disk. rewrite (super_at_shift m dk inobuf 0) by (intros i Hi; apply (H2 i Hi)).
      by apply super_at_put.
  - intros a Ha. change (smem s' a) with (m' a). rewrite H1 by (revert Ha; unfold lh_buf, kbufs_end; lia). apply Hma. revert Ha. unfold inobuf, kbufs_end. lia.
  - intros x Hx. apply H3. lia.
Qed.

Lemma volname_end_same l : length l = 32%nat → l !! 31%nat = Some 0 → volname_end l = Some l.
Proof.
  intros Hl H0. unfold volname_end. rewrite zupd_Some by lia. f_equal. by apply list_insert_id.
Qed.

(** Mounting a volume that is on the disk. *)
Lemma sfs_domount_wp (d : dstate) sp b :
  d.(lhd_codes) = [] → d_blocks < W32 → super_ok sp → sp.(sp_magic) = SFS_MAGIC → super_on_disk d.(disk) sp →
  bitmap_wf b → b.(nbits) = SFS_BITMAPSIZE sp.(sp_nblocks) → map_on_disk d.(disk) b →
  2 + SFS_BITBLOCKS sp.(sp_nblocks) ≤ d_blocks →
  wp (sfs_domount 512 true true true true) (λ r d', r = inr (sp, b) ∧ d'.(disk) = d.(disk)) d.
Proof.
  intros Hc Hd Hsp Hmg Hsd Hwf Hb Hmd Hfit. pose proof Hsp as (_ & Hnb & Hv1 & Hv2 & _). pose proof Hwf as (Hn & Hl & _).
  assert (Z.of_nat (length b.(bm_v)) = 512 * SFS_BITBLOCKS sp.(sp_nblocks) ∧ 0 ≤ SFS_BITBLOCKS sp.(sp_nblocks)) as [Hlen Hp].
  { rewrite Hl, Hb. unfold SFS_BITBLOCKS, SFS_BITMAPSIZE, SFS_ROUNDUP, SFS_BLOCKBITS, u32.
    generalize ((((sp_nblocks sp + 4096) mod 4294967296 - 1) mod 4294967296) / 4096). intros q. lia. }
  unfold sfs_domount, SFS_SB_LOCATION. change (512 =? SFS_BLOCKSIZE) with true. cbn [negb].
  destruct (sfs_rblock_ret d inobuf 0) as (m' & E & Hm & _); [lia|lia|right; unfold lh_buf, inobuf; lia|unfold next_result; by rewrite Hc|].
  eapply wp_run; [exact E|]. cbn [Z.eqb negb]. apply wp_get. cbn [du mem].
  assert (super_at m' inobuf = sp) as Esp.
  { rewrite <- Hsd. apply super_at_shift. intros i Hi. rewrite (Hm (Z.to_nat i)); [f_equal; lia|lia|]. rewrite lookup_seqZ_lt by lia. f_equal. lia. }
  rewrite Esp, Hmg, Z.eqb_refl. cbn [negb]. eapply wp_of_opt; [by apply volname_end_same|].
  cbv zeta. cbn [sp_nblocks]. apply wp_bind, wp_zoom. eapply wp_mono; [|apply bitmap_create_wp; rewrite <- Hb; lia].
  intros r [] (b0 & -> & Hwf0 & Hb0 & _). cbn [sp_nblocks] in *. destruct Hwf0 as (_ & Hl0 & _).
  assert (length b0.(bm_v) = length b.(bm_v)) as Hll by (rewrite Hb0, <- Hb in Hl0; lia).
  apply wp_bind. eapply wp_mono; [|apply mapio_read_wp; [by cbn [lhd_codes]; rewrite Hc|lia..]].
  intros [r b1] d' (E1 & Hdk & Hn1 & Hl1 & Hb1). cbn [fst snd] in *. subst r. cbn [Z.eqb negb]. apply wp_ret. split; [|done].
  do 2 f_equal; [by destruct sp; simpl in *; subst|]. cbn [disk] in Hb1.
  unfold map_on_disk in Hmd. destruct b1 as [n1 v1], b as [n v]. cbn [nbits bm_v] in *. f_equal; [by rewrite Hn1, Hb0|].
  apply list_eq. intros i. destruct (decide (i < length v)%nat) as [Hi|Hi].
  - rewrite Hb1, Hmd by lia. zdecide. done.
  - by rewrite !lookup_ge_None_2 by lia.
Qed.

(** C12. What a volume is survives a sync and a mount: after the end of [sfs_sync]
    has written the free map and the superblock where they are dirty, mounting the
    disk again returns exactly the superblock and the free map that were in memory;
    the disk past the free map and the block of the root directory's inode are
    untouched, and nothing is left dirty. *)
Theorem mount_after_sync (s : fstate) :
  volume_ok s →
  ∃ s' d', sync_meta true s = Ret 0 s' ∧
    sfs_domount 512 true true true true (dev s') = Ret (inr (s.(sfs).(sfs_sb), fmap_of s)) d' ∧ d'.(disk) = sdisk s' ∧
    s'.(sfs).(sfs_superdirty) = false ∧ s'.(sfs).(sfs_freemapdirty) = false ∧
    (∀ x, 512 ≤ x < 1024 ∨ (2 + SFS_BITBLOCKS (nblocks s)) * 512 ≤ x → sdisk s' x = sdisk s x).
Proof.
  intros Hv. destruct (wp_inv _ _ _ (sync_map_wp s Hv)) as (r1 & s1 & E1 & -> & V1 & S1 & F1 & P1 & D1 & _ & _ & X1).
  destruct (wp_inv _ _ _ (sync_super_wp s1 V1 D1)) as (r2 & s2 & E2 & -> & V2 & S2 & F2 & P2 & D2 & D2' & _ & _ & X2).
  pose proof V2 as [Hs Hsp Hmg Hb Hfit Hm Hsb]. assert (sfs_sb (sfs s2) = sfs_sb (sfs s)) as Esb.
  { rewrite P2. by injection P1. }
  destruct (wp_inv _ _ _ (sfs_domount_wp (dev s2) (sfs_sb (sfs s2)) (fmap_of s2) (fo_codes s2 Hs) (proj2 (fo_disk s2 Hs)) Hsp Hmg
    (Hsb D2) (fo_wf s2 Hs) Hb (Hm D2') ltac:(pose proof (fo_disk s2 Hs); unfold nblocks, super in *; simpl in *; lia)))
    as (r & d' & E & -> & Hdk).
  exists s2, d'. split; [unfold sync_meta; erewrite bind_Ret by exact E1; exact E2|].
  split; [by rewrite E, Esb, F2, F1|]. split; [done|]. split; [done|]. split; [done|].
  assert (nblocks s1 = nblocks s) as En by (unfold nblocks; by rewrite P1).
  destruct (map_length s Hv) as [_ Hp]. intros x Hx. rewrite X2, X1 by lia. done.
Qed.

(** The inode as the disk has it. *)
Definition inode_on_disk (d : Z → Z) (ino : Z) : sfs_inode := inode_of_words (words_at d (ino * 512) 128).

Lemma sfs_sync_inode_wp s :
  fs_ok s → inode_ok s.(sv).(sv_i) → 0 ≤ s.(sv).(sv_ino) < nblocks s →
  (s.(sv).(sv_dirty) = false → inode_on_disk (sdisk s) s.(sv).(sv_ino) = s.(sv).(sv_i)) →
  wp (sfs_sync_inode true)
     (λ r s', r = 0 ∧ fs_ok s' ∧ s'.(sv) = SfsVnode s.(sv).(sv_i) s.(sv).(sv_ino) false ∧
        inode_on_disk (sdisk s') s.(sv).(sv_ino) = s.(sv).(sv_i) ∧
        (∀ x, ¬ s.(sv).(sv_ino) * 512 ≤ x < s.(sv).(sv_ino) * 512 + 512 → sdisk s' x = sdisk s x) ∧
        fmap_of s' = fmap_of s ∧ super s' = super s ∧ s'.(sfs).(sfs_freemapdirty) = s.(sfs).(sfs_freemapdirty) ∧
        suio s' = suio s ∧ same_umem s s') s.
Proof.
  intros Hs Hi Hn Hclean. unfold sfs_sync_inode. apply wp_get. destruct (sv_dirty (sv s)) eqn:E.
  2:{ apply wp_ret. split; [done|]. split; [done|]. split; [by destruct s as [? []]; simpl in *; subst|]. split; [auto|done]. }
  destruct (sfi_words_ok _ Hi) as [Hl Hw]. apply wp_modify. set (m := words_put _ _ _). set (s1 := set_smem m s).
  assert (∀ a, ¬ inobuf ≤ a < inobuf + 512 → m a = smem s a) as Hm.
  { intros a Ha. apply words_put_other. rewrite Hl. lia. }
  assert (fs_ok s1) as Hs1.
  { apply (fs_ok_ext s); try done. intros a Ha. apply Hm. revert Ha. unfold zeros, inobuf. lia. }
  apply wp_bind, f_wblock_wp; [done|done|unfold is_buf, inobuf, lh_buf; lia|]. intros m' dk H1 H2 H3. cbn [Z.eqb negb].
  apply wp_modify, wp_ret. split; [done|]. split.
  { apply (fs_ok_ext s1); try done. intros a Ha. apply H1. revert Ha. unfold zeros, lh_buf. lia. }
  split; [done|]. split.
  { unfold inode_on_disk. rewrite (words_at_shift m dk inobuf) by (intros i Hi2; apply H2; lia).
    rewrite <- Hl. unfold m. rewrite words_at_put by done. by apply inode_of_words_sfi. }
  split; [done|]. split; [done|]. split; [done|]. split; [done|]. split; [done|].
  intros a Ha. change (m' a = smem s a). rewrite H1 by (revert Ha; unfold lh_buf, kbufs_end; lia).
  apply Hm. revert Ha. unfold inobuf, kbufs_end. lia.
Qed.

(** Writing an inode back and reading it again: after [sfs_sync_inode] the
    vnode is clean, the block of the inode decodes to exactly the inode in memory,
    and no other block of the disk has changed. *)
Theorem inode_sync_roundtrip (s : fstate) :
  fs_ok s → inode_ok s.(sv).(sv_i) → 0 ≤ s.(sv).(sv_ino) < nblocks s →
  (s.(sv).(sv_dirty) = false → inode_on_disk (sdisk s) s.(sv).(sv_ino) = s.(sv).(sv_i)) →
  ∃ s', sfs_sync_inode true s = Ret 0 s' ∧ s'.(sv) = SfsVnode s.(sv).(sv_i) s.(sv).(sv_ino) false ∧
    inode_on_disk (sdisk s') s.(sv).(sv_ino) = s.(sv).(sv_i) ∧
    (∀ x, ¬ s.(sv).(sv_ino) * 512 ≤ x < s.(sv).(sv_ino) * 512 + 512 → sdisk s' x = sdisk s x).
Proof.
  intros Hs Hi Hn Hc. destruct (wp_inv _ _ _ (sfs_sync_inode_wp s Hs Hi Hn Hc)) as (r & s' & E & -> & _ & H1 & H2 & H3 & _).
  by exists s'.
Qed.
End sync.

(** The volume of file SfsIo with everything dirty. *)
Definition dirty_volume : fstate :=
  let s := small_volume 0 0 UIO_READ in
  Fstate (SfsFs s.(sfs).(sfs_sb) true s.(sfs).(sfs_device) s.(sfs).(sfs_freemap) true)
    (SfsVnode s.(sv).(sv_i) s.(sv).(sv_ino) true).

Lemma dirty_volume_ok : volume_ok dirty_volume.
Proof.
  split; try done.
  - by apply (fs_ok_nblocks (small_volume 0 0 UIO_READ)); [apply small_volume_ok|..].
  - unfold super_ok, W32. simpl. split_and!; try done. repeat constructor; done.
Qed.

Lemma mount_after_sync_witness :
  ∃ s' d', sync_meta true dirty_volume = Ret 0 s' ∧
    sfs_domount 512 true true true true (dev s') = Ret (inr (dirty_volume.(sfs).(sfs_sb), small_map)) d'.
Proof.
  destruct (mount_after_sync dirty_volume dirty_volume_ok) as (s' & d' & H1 & H2 & _). by exists s', d'.
Defined.

Lemma inode_sync_roundtrip_witness :
  ∃ s', sfs_sync_inode true dirty_volume = Ret 0 s' ∧ inode_on_disk (sdisk s') 3 = small_file.(sv_i).
Proof.
  destruct (inode_sync_roundtrip dirty_volume) as (s' & H1 & _ & H2 & _).
  - apply dirty_volume_ok.
  - unfold inode_ok, W32. simpl. split_and!; try done; repeat constructor; done.
  - done.
  - done.
  - by exists s'.
Defined.
