(* ===== verification/Mksfs.v ===== *)
(** Making a file system (user/sbin/mksfs: mksfs.c and disk.c), as it is built for
    OS/161 itself, and the meeting of the program with the kernel: what it writes
    is what [sfs_domount] accepts.

    The state is the bytes of the disk, the buffer of the free map, whether the
    disk is open, and what the next calls of [write] will answer; after those
    answers every call writes all it is asked to.  A routine returns [false] when
    the program has ended with status 1; a failed [assert] is a panic. *)

From Stdlib Require Import ZArith Lia.
From stdpp Require Import base numbers list.
From S2P Require Import Prelude Bitmap Uio SfsDisk SfsFile SfsFs.

(** [Wrote n]: at most [n] bytes are taken; [Again]: [EINTR] or [EAGAIN]. *)
Inductive wanswer := Wrote (n : nat) | Again | Failed.

Record mk := Mk { img : Z → Z; bitbuf : list Z; fd : bool; answers : list wanswer }.

Definition MAXBITBLOCKS : Z := 32.
Definition BLOCKSIZE : Z := 512.
Definition SFS_VOLNAME_SIZE : Z := 32.

Section mksfs.
Context (lseek_ok : Z → bool).

(** ** disk.c *)

(** The size of the disk in blocks, if it can be opened. *)
Definition opendisk (opened statted : bool) (st_size : Z) : M mk (option Z) :=
  s ← get;
  kassert (negb s.(fd));;
  if negb opened then mret None
  else
    modify (λ s, Mk s.(img) s.(bitbuf) true s.(answers));;
    if negb statted then mret None else mret (Some (u32 (Z.quot st_size BLOCKSIZE))).

Definition diskblocksize : M mk Z :=
  s ← get;
  kassert s.(fd);;
  mret BLOCKSIZE.

Definition put_bytes (data : Z → Z) (pos tot len : Z) (s : mk) : mk :=
  Mk (blit s.(img) (pos + tot) data tot len) s.(bitbuf) s.(fd) s.(answers).
Definition next_answer (s : mk) : mk := Mk s.(img) s.(bitbuf) s.(fd) (tail s.(answers)).

Fixpoint write_loop (fuel : nat) (data : Z → Z) (pos tot : Z) : M mk bool :=
  if tot <? BLOCKSIZE then
    match fuel with
    | O => diverge
    | S fuel =>
        s ← get;
        modify next_answer;;
        match default (Wrote 512) (head s.(answers)) with
        | Again => write_loop fuel data pos tot
        | Failed | Wrote O => mret false
        | Wrote n =>
            let len := Z.min (Z.of_nat n) (BLOCKSIZE - tot) in
            modify (put_bytes data pos tot len);;
            write_loop fuel data pos (tot + len)
        end
    end
  else mret true.

Definition diskwrite (data : Z → Z) (block : Z) : M mk bool :=
  s ← get;
  kassert s.(fd);;
  let pos := u32 (block * BLOCKSIZE) in
  if negb (lseek_ok pos) then mret false
  else write_loop (S (length s.(answers))) data pos 0.

Definition closedisk (closed : bool) : M mk bool :=
  s ← get;
  kassert s.(fd);;
  if negb closed then mret false
  else modify (λ s, Mk s.(img) s.(bitbuf) false s.(answers));; mret true.

(** ** mksfs.c *)

Definition pad_name (name : list Z) : list Z := name ++ replicate (32 - length name) 0.

Definition writesuper (volname : list Z) (nblocks : Z) : M mk bool :=
  if Z.of_nat (length volname) >=? SFS_VOLNAME_SIZE then mret false
  else diskwrite (super_put (λ _, 0) 0 (SfsSuper SFS_MAGIC nblocks (pad_name volname) (replicate 118 0))) SFS_SB_LOCATION.

Definition root_inode : sfs_inode := SfsInode 0 SFS_TYPE_DIR 1 (replicate 15 0) 0 (replicate 110 0).

Definition writerootdir : M mk bool := diskwrite (words_put (λ _, 0) 0 (sfi_words root_inode)) SFS_ROOT_LOCATION.

Definition doallocbit (bit : Z) : M mk unit :=
  let byte := bit / 8 in
  let mask := Z.shiftl 1 (bit mod 8) in
  s ← get;
  w ← of_opt (zlookup s.(bitbuf) byte);
  kassert (Z.land w mask =? 0);;
  v ← of_opt (zupd s.(bitbuf) byte (Z.lor w mask));
  modify (λ s, Mk s.(img) v s.(fd) s.(answers)).

(** Block [i] of the map goes to the disk; [Some] ends the program. *)
Definition write_map_block (i : Z) : M mk (option unit) :=
  s ← get;
  ok ← diskwrite (λ k, default 0 (zlookup s.(bitbuf) (i * SFS_BLOCKSIZE + k))) (u32 (SFS_MAP_LOCATION + i));
  mret (if (ok : bool) then None else Some tt).

Definition writebitmap (fsblocks : Z) : M mk bool :=
  let nbits := SFS_BITMAPSIZE fsblocks in
  let nblocks := SFS_BITBLOCKS fsblocks in
  if nblocks >? MAXBITBLOCKS then mret false
  else
    doallocbit SFS_SB_LOCATION;;
    doallocbit SFS_ROOT_LOCATION;;
    for_up (Z.to_nat nblocks) 0 (λ i, doallocbit (u32 (SFS_MAP_LOCATION + i)));;
    for_up (Z.to_nat (nbits - fsblocks)) fsblocks doallocbit;;
    r ← for_find (Z.to_nat nblocks) 0 write_map_block;
    mret (match r with None => true | Some _ => false end).

Definition COLON : Z := 58.
Definition SLASH : Z := 47.

(** One colon at the end is removed; no other colon and no slash may occur. *)
Fixpoint chop_colon (l : list Z) : option (list Z) :=
  match l with
  | [] => Some []
  | c :: l => if c =? COLON then (if (length l =? 0)%nat then Some [] else None)
              else (λ l, c :: l) <$> chop_colon l
  end.
Definition volume_name (arg : list Z) : option (list Z) :=
  match chop_colon arg with
  | Some name => if existsb (Z.eqb SLASH) name then None else Some name
  | None => None
  end.

Definition main (argc : Z) (arg : list Z) (opened statted closed : bool) (st_size : Z) : M mk bool :=
  if negb (argc =? 3) then mret false
  else
    match volume_name arg with
    | None => mret false
    | Some volname =>
        r ← opendisk opened statted st_size;
        match r with
        | None => mret false
        | Some size =>
            blocksize ← diskblocksize;
            if negb (blocksize =? SFS_BLOCKSIZE) then mret false
            else
              ok ← writesuper volname size;
              if negb ok then mret false
              else
                ok ← writerootdir;
                if negb ok then mret false
                else
                  ok ← writebitmap size;
                  if negb ok then mret false else closedisk closed
        end
    end.
End mksfs.

(** ** Writing blocks *)

Definition progresses (a : wanswer) : Prop := match a with Wrote (S _) | Again => True | _ => False end.

(** [s'] is [s] but for the disk, which is [d]. *)
Definition disk_now (s : mk) (d : Z → Z) (s' : mk) : Prop :=
  (∀ x, s'.(img) x = d x) ∧ s'.(bitbuf) = s.(bitbuf) ∧ s'.(fd) = s.(fd) ∧ Forall progresses s'.(answers).

Lemma write_loop_wp fuel data pos tot s :
  0 ≤ tot ≤ 512 → Forall progresses s.(answers) → tot = 512 ∨ (length s.(answers) < fuel)%nat →
  wp (write_loop fuel data pos tot) (λ r s', r = true ∧ disk_now s (blit s.(img) (pos + tot) data tot (512 - tot)) s') s.
Proof.
  revert tot s. induction fuel as [|fuel IH]; intros tot s Ht Ha Hf; cbn [write_loop]; unfold BLOCKSIZE in *;
    (destruct (Z.ltb_spec tot 512) as [Hlt|Hge];
     [|apply wp_ret; split; [done|]; split; [|done]; intros x; unfold blit; destruct (Z.leb_spec (pos + tot) x), (Z.ltb_spec x (pos + tot + (512 - tot))); simpl; (done || lia)]); [lia|].
  apply wp_get, wp_modify. destruct (s.(answers)) as [|a l] eqn:E; simpl default; cbv iota.
  - apply wp_modify. replace (Z.min (Z.of_nat 512) (512 - tot)) with (512 - tot) by lia.
    eapply wp_mono; [|apply IH; [lia|by simpl; rewrite E|by left; lia]]. intros r s' (-> & Hd & H2 & H3 & H4).
    split; [done|]. split; [|done]. intros x. rewrite Hd. simpl. unfold blit. zbool; f_equal; lia.
  - apply Forall_cons in Ha as [Ha Hl]. destruct a as [[|n]| |]; try done.
    + apply wp_modify. eapply wp_mono; [|apply IH; [lia|by simpl; rewrite E|right; simpl in *; rewrite E; simpl; lia]].
      intros r s' (-> & Hd & H2 & H3 & H4). split; [done|]. split; [|done]. intros x. rewrite Hd. simpl. unfold blit. zbool; f_equal; lia.
    + eapply wp_mono; [|apply IH; [lia|by simpl; rewrite E|right; simpl in *; rewrite E; simpl; lia]].
      intros r s' (-> & Hd & H2 & H3 & H4). done.
Qed.

(** ** Sizes *)

Lemma bitblocks_small size : 0 < size ≤ 131072 → SFS_BITMAPSIZE size = 4096 * SFS_BITBLOCKS size ∧ 4096 * SFS_BITBLOCKS size - 4096 < size ≤ 4096 * SFS_BITBLOCKS size.
Proof.
  intros H. unfold SFS_BITBLOCKS, SFS_BITMAPSIZE, SFS_ROUNDUP, SFS_BLOCKBITS. rewrite (u32_small (size + 4096)), (u32_small (size + 4096 - 1)) by (unfold W32; lia).
  rewrite u32_small by (unfold W32; lia). lia.
Qed.

Lemma small_disk size : 0 < size < W32 - 4096 → SFS_BITBLOCKS size ≤ 32 → size ≤ 131072.
Proof.
  unfold SFS_BITBLOCKS, SFS_BITMAPSIZE, SFS_ROUNDUP, SFS_BLOCKBITS. intros Hs Hk. unfold W32 in Hs.
  rewrite (u32_small (size + 4096)), (u32_small (size + 4096 - 1)) in Hk by (unfold W32; lia). rewrite u32_small in Hk by (unfold W32; lia). lia.
Qed.

(** ** The free map *)

Definition bmap (s : mk) : bitmap := Bitmap 131072 s.(bitbuf).

Lemma doallocbit_wp b s :
  bitmap_wf (bmap s) → 0 ≤ b < 131072 → bit (bmap s) b = false →
  wp (doallocbit b) (λ _ s', bitmap_wf (bmap s') ∧ (∀ i, bit (bmap s') i = bit (bmap s) i || (i =? b)) ∧
    s'.(img) = s.(img) ∧ s'.(fd) = s.(fd) ∧ s'.(answers) = s.(answers)) s.
Proof.
  intros Hw Hb Hc. pose proof Hw as (_ & Hl & _). cbn [bmap nbits bm_v] in Hl. destruct (word_of (bmap s) b Hw) as (w & Hk & _ & Hbit); [cbn [bmap bm_v]; lia|].
  unfold doallocbit. cbv zeta. apply wp_get. eapply wp_of_opt; [exact Hk|].
  apply wp_kassert; [rewrite land_mask_eqb by lia; by rewrite <- Hbit, Hc|].
  destruct (wp_inv _ _ _ (mark_word_spec (bmap s) (b / 8) w (b mod 8) Hw Hk ltac:(lia) ltac:(cbn [bmap nbits]; lia))) as ([] & b' & E & Hw' & Hn & Hi).
  unfold put_word in E. rewrite get_bind in E. cbn [bmap bm_v] in E, Hk. rewrite zupd_Some in * by (by eapply zlookup_Some_lt). 
  eapply wp_of_opt; [reflexivity|]. apply wp_modify'. injection E as <-. split; [exact Hw'|]. split; [|done].
  intros i. etransitivity; [apply Hi|]. f_equal. f_equal. lia.
Qed.

(** The bits marked: what [s] had, and those that satisfy [p]. *)
Definition marked (s : mk) (p : Z → bool) (s' : mk) : Prop :=
  bitmap_wf (bmap s') ∧ (∀ i, bit (bmap s') i = bit (bmap s) i || p i) ∧ s'.(img) = s.(img) ∧ s'.(fd) = s.(fd) ∧ s'.(answers) = s.(answers).

Lemma doallocbit_marked b s p s' Q :
  marked s p s' → 0 ≤ b < 131072 → bit (bmap s) b || p b = false → (∀ s'', marked s (λ i, p i || (i =? b)) s'' → Q tt s'') → wp (doallocbit b) Q s'.
Proof.
  intros (Hw & Hb & H1 & H2 & H3) Hr Hc HQ. eapply wp_mono; [|apply doallocbit_wp; [done|done|by rewrite Hb]].
  intros [] s'' (Hw' & Hb' & H1' & H2' & H3'). apply HQ. split; [done|]. split; [intros i; rewrite Hb', Hb; by rewrite orb_assoc|]. split_and!; congruence.
Qed.

Lemma marked_ext s p q s' : (∀ i, p i = q i) → marked s p s' → marked s q s'.
Proof. intros Hp (H1 & H2 & H3). split; [done|]. split; [|done]. intros i. by rewrite H2, Hp. Qed.

Lemma marked_none s : bitmap_wf (bmap s) → marked s (λ _, false) s.
Proof. intros Hw. split; [done|]. split; [|done]. intros i. by rewrite orb_false_r. Qed.

(** Marking a range. *)
Lemma mark_range (n : nat) i k (body : Z → M mk unit) s p s' Q :
  (∀ j, i ≤ j < i + Z.of_nat n → body j = doallocbit (k + j)) → marked s p s' →
  (∀ b, k + i ≤ b < k + i + Z.of_nat n → 0 ≤ b < 131072 ∧ bit (bmap s) b || p b = false) →
  (∀ s'', marked s (λ x, p x || ((k + i <=? x) && (x <? k + i + Z.of_nat n))) s'' → Q tt s'') → wp (for_up n i body) Q s'.
Proof.
  intros Hbody Hm Hfree HQ. apply (wp_for_up (λ j s'', marked s (λ x, p x || ((k + i <=? x) && (x <? k + j))) s'')).
  - eapply marked_ext; [|exact Hm]. intros x. simpl. zbool; by rewrite ?orb_false_r.
  - intros j s1 Hj H1. rewrite Hbody by done. destruct (Hfree (k + j)) as [Hr Hb]; [lia|]. apply orb_false_iff in Hb as [Hb1 Hb2].
    eapply doallocbit_marked; [exact H1|done|rewrite Hb1, Hb2; zbool|]. intros s2 H2. eapply marked_ext; [|exact H2]. intros x. simpl.
    destruct (p x); [done|]. zbool.
  - intros s2 H2. apply HQ. eapply marked_ext; [|exact H2]. intros x. simpl. f_equal. f_equal. f_equal. lia.
Qed.

(** The map of a fresh volume of [size] blocks, [k] of them for the map itself. *)
Definition fresh_bit (size k i : Z) : bool := (0 <=? i) && (i <? 2 + k) || ((size <=? i) && (i <? 4096 * k)).

(** ** The volume *)

Definition fresh_super (name : list Z) (size : Z) : sfs_super := SfsSuper SFS_MAGIC size (pad_name name) (replicate 118 0).

Lemma fresh_super_ok name size : (length name < 32)%nat → 0 ≤ size < W32 → super_ok (fresh_super name size).
Proof.
  intros Hl Hs. unfold super_ok, fresh_super, pad_name. cbn [sp_magic sp_nblocks sp_volname sp_reserved]. split_and!; try lia.
  - by vm_compute.
  - by vm_compute.
  - rewrite length_app, length_replicate. lia.
  - rewrite lookup_app_r by lia. apply lookup_replicate. split; [done|lia].
  - by rewrite length_replicate.
  - apply Forall_replicate. unfold W32. lia.
Qed.

Lemma root_inode_ok : inode_ok root_inode.
Proof. unfold inode_ok, root_inode. cbn [sfi_size sfi_type sfi_linkcount sfi_direct sfi_indirect sfi_waste]. rewrite !length_replicate. unfold W32. split_and!; try lia; try done; apply Forall_replicate; lia. Qed.

(** The map in the program's buffer, as the bitmap of the kernel. *)
Definition kernel_map (k : Z) (buf : list Z) : bitmap := Bitmap (4096 * k) (take (Z.to_nat (512 * k)) buf).

Lemma kernel_map_ok k s :
  0 ≤ k ≤ 32 → bitmap_wf (bmap s) →
  bitmap_wf (kernel_map k s.(bitbuf)) ∧ (∀ i, 0 ≤ i < 4096 * k → bit (kernel_map k s.(bitbuf)) i = bit (bmap s) i).
Proof.
  intros Hk (_ & Hl & Hb & _). cbn [bmap nbits bm_v] in *.
  assert (∀ ix, 0 ≤ ix < 512 * k → zlookup (take (Z.to_nat (512 * k)) (bitbuf s)) ix = zlookup (bitbuf s) ix) as Ht.
  { intros ix Hix. replace ix with (Z.of_nat (Z.to_nat ix)) by lia. rewrite !zlookup_nat. apply lookup_take_lt. lia. }
  split.
  - split; [cbn [kernel_map nbits]; unfold W32; lia|]. cbn [kernel_map nbits bm_v]. rewrite length_take. split; [lia|]. split; [|intros i Hi; lia].
    intros ix w Hw. apply (Hb ix). rewrite <- Ht; [done|]. apply zlookup_Some_lt in Hw. rewrite length_take in Hw. lia.
  - intros i Hi. unfold bit. cbn [kernel_map bmap bm_v]. by rewrite Ht by lia.
Qed.

(** ** The program *)

Section made.
Context (lseek_ok : Z → bool).

Lemma diskwrite_wp data block s :
  s.(fd) = true → Forall progresses s.(answers) → 0 ≤ block < 2 ^ 23 → lseek_ok (block * 512) = true →
  wp (diskwrite lseek_ok data block) (λ r s', r = true ∧ disk_now s (blit s.(img) (block * 512) data 0 512) s') s.
Proof.
  intros Hf Ha Hb Hs. unfold diskwrite, BLOCKSIZE. apply wp_get. rewrite Hf. apply wp_kassert; [done|]. rewrite u32_small by (unfold W32; lia). rewrite Hs. cbn [negb].
  eapply wp_mono; [|apply write_loop_wp; [lia|done|right; lia]]. intros r s' (-> & Hd & H). split; [done|]. split; [|done].
  intros x. rewrite Hd, Z.add_0_r, Z.sub_0_r. done.
Qed.

Lemma map_blocks_wp (k : Z) s :
  s.(fd) = true → Forall progresses s.(answers) → 0 ≤ k ≤ 32 → (∀ b, 2 ≤ b < 2 + k → lseek_ok (b * 512) = true) →
  wp (for_find (Z.to_nat k) 0 (write_map_block lseek_ok))
    (λ r s', r = None ∧ disk_now s (λ x, if (1024 <=? x) && (x <? (2 + k) * 512) then default 0 (zlookup s.(bitbuf) (x - 1024)) else s.(img) x) s') s.
Proof.
  intros Hf Ha Hk Hs. apply (wp_for_find (λ j s', disk_now s (λ x, if (1024 <=? x) && (x <? (2 + j) * 512) then default 0 (zlookup s.(bitbuf) (x - 1024)) else s.(img) x) s')).
  - split; [|done]. intros x. zbool.
  - intros j s1 Hj (Hd & Hb & Hf1 & Ha1). unfold write_map_block, SFS_BLOCKSIZE, SFS_MAP_LOCATION. apply wp_get. rewrite u32_small by (unfold W32; lia). apply wp_bind.
    eapply wp_mono; [|apply diskwrite_wp; [congruence|done|lia|apply Hs; lia]]. intros r s2 (-> & Hd2 & Hb2 & Hf2 & Ha2). apply wp_ret.
    split; [|split_and!; [congruence|congruence|done]]. intros x. rewrite Hd2, Hb. unfold blit.
    destruct (Z.leb_spec ((2 + j) * 512) x), (Z.ltb_spec x ((2 + j) * 512 + 512)); cbn [andb].
    + zdecide. do 2 f_equal. lia.
    + rewrite Hd. zbool.
    + rewrite Hd. zbool.
    + lia.
  - intros s2 (Hd & Hb). rewrite Z.add_0_l in Hd. rewrite Z2Nat.id in Hd by lia. split; [done|]. by split.
Qed.

Lemma writebitmap_wp size s :
  let k := SFS_BITBLOCKS size in
  0 < size → 2 + k ≤ size → size < W32 - 4096 → s.(fd) = true → Forall progresses s.(answers) → bitmap_wf (bmap s) → (∀ i, bit (bmap s) i = false) →
  (∀ b, 2 ≤ b < 2 + k → lseek_ok (b * 512) = true) →
  wp (writebitmap lseek_ok size) (λ r s', r = (k <=? 32) ∧ s'.(fd) = true ∧
    (k ≤ 32 → bitmap_wf (bmap s') ∧ ∀ i, bit (bmap s') i = fresh_bit size k i) ∧
    ∀ x, s'.(img) x = if (k <=? 32) && ((1024 <=? x) && (x <? (2 + k) * 512)) then default 0 (zlookup s'.(bitbuf) (x - 1024)) else s.(img) x) s.
Proof.
  intros k Hsz Hfit Hw32 Hf Ha Hw Hz Hs. destruct (Z.leb_spec k 32) as [Hk|Hk]; cbn [andb]; last first.
  { unfold writebitmap. fold k. unfold MAXBITBLOCKS. rewrite Z.gtb_ltb, (proj2 (Z.ltb_lt _ _)) by lia. apply wp_ret. split_and!; (done || lia). }
  assert (0 < size ≤ 131072) as Hsmall by (split; [done|]; by apply small_disk).
  destruct (bitblocks_small size Hsmall) as [Hn Hb]. fold k in Hn, Hb. unfold writebitmap. fold k. rewrite Hn. unfold MAXBITBLOCKS. rewrite Z.gtb_ltb, (proj2 (Z.ltb_ge _ _)) by lia.
  apply wp_bind. eapply doallocbit_marked; [by apply marked_none|unfold SFS_SB_LOCATION; lia|by rewrite Hz|]. intros s1 M1.
  apply wp_bind. eapply doallocbit_marked; [exact M1|unfold SFS_ROOT_LOCATION; lia|by rewrite Hz|]. intros s2 M2.
  apply wp_bind. eapply (mark_range _ 0 2); [intros j Hj; unfold SFS_MAP_LOCATION; by rewrite u32_small by (unfold W32; lia)|exact M2| |].
  { intros b Hb2. split; [lia|]. rewrite Hz. unfold SFS_SB_LOCATION, SFS_ROOT_LOCATION. zbool. }
  intros s3 M3. apply wp_bind. eapply (mark_range _ size 0); [done|exact M3| |].
  { intros b Hb2. split; [lia|]. rewrite Hz. unfold SFS_SB_LOCATION, SFS_ROOT_LOCATION. zbool. }
  intros s4 (Hw4 & Hb4 & Hi4 & Hf4 & Ha4). apply wp_bind. eapply wp_mono; [|apply (map_blocks_wp k); [congruence|congruence|lia|done]].
  intros r s5 (-> & Hd & Hbuf & Hfd & _). apply wp_ret. split; [done|]. split; [congruence|]. assert (bmap s5 = bmap s4) as -> by (unfold bmap; by rewrite Hbuf).
  split; [intros _; split; [done|]|intros x; by rewrite Hd, Hbuf, Hi4]. intros i. rewrite Hb4, Hz. unfold fresh_bit, SFS_SB_LOCATION, SFS_ROOT_LOCATION. cbn [orb].
  destruct (Z.lt_ge_cases i 0); [zdecide; by destruct (Z.eqb_spec i 0), (Z.eqb_spec i 1); try lia|]. by destruct (Z.eqb_spec i 0), (Z.eqb_spec i 1), (Z.lt_ge_cases i (2 + k)), (Z.lt_ge_cases i size), (Z.lt_ge_cases i (4096 * k)); try lia; zdecide.
Qed.

Lemma opendisk_ret (s : mk) st_size : s.(fd) = false →
  opendisk true true st_size s = Ret (Some (u32 (Z.quot st_size 512))) (Mk s.(img) s.(bitbuf) true s.(answers)).
Proof. intros Hf. unfold opendisk. rewrite get_bind, Hf. by erewrite !bind_Ret by reflexivity. Qed.

(** All of [main], on a disk of [size] blocks. *)
Lemma main_wp arg name size s :
  let k := SFS_BITBLOCKS size in
  volume_name arg = Some name → (length name < 32)%nat → 0 < size → 2 + k ≤ size → size < W32 - 4096 →
  s.(fd) = false → Forall progresses s.(answers) → s.(bitbuf) = replicate (Z.to_nat 16384) 0 → (∀ b, 0 ≤ b < size → lseek_ok (b * 512) = true) →
  wp (main lseek_ok 3 arg true true true (size * 512))
    (λ r s', r = (k <=? 32) ∧ (k ≤ 32 → bitmap_wf (bmap s') ∧ ∀ i, bit (bmap s') i = fresh_bit size k i) ∧
       ∀ x, s'.(img) x = if (0 <=? x) && (x <? 512) then super_put (λ _, 0) 0 (fresh_super name size) x
                         else if (512 <=? x) && (x <? 1024) then words_put (λ _, 0) 0 (sfi_words root_inode) (x - 512)
                         else if (k <=? 32) && ((1024 <=? x) && (x <? (2 + k) * 512)) then default 0 (zlookup s'.(bitbuf) (x - 1024)) else s.(img) x) s.
Proof.
  intros k Hn Hl Hsz Hfit Hw32 Hf Ha Hbuf Hs. assert (0 ≤ k) as Hk0.
  { unfold k, SFS_BITBLOCKS, SFS_BITMAPSIZE, SFS_ROUNDUP, SFS_BLOCKBITS, u32. lia. }
  unfold main. change (3 =? 3) with true. cbn [negb]. rewrite Hn. eapply wp_run; [by apply opendisk_ret|].
  rewrite Z.quot_mul, u32_small by (unfold W32 in *; lia). cbv iota. eapply wp_run; [reflexivity|]. change (BLOCKSIZE =? SFS_BLOCKSIZE) with true. cbn [negb].
  set (s1 := Mk _ _ _ _). unfold writesuper, SFS_VOLNAME_SIZE. rewrite Z.geb_leb, (proj2 (Z.leb_gt _ _)) by lia.
  apply wp_bind. eapply wp_mono; [|apply diskwrite_wp; [done|done|unfold SFS_SB_LOCATION; lia|apply Hs; unfold SFS_SB_LOCATION; lia]].
  intros r s2 (-> & Hd2 & Hb2 & Hf2 & Ha2). cbn [negb]. unfold writerootdir. apply wp_bind.
  eapply wp_mono; [|apply diskwrite_wp; [by rewrite Hf2|done|unfold SFS_ROOT_LOCATION; lia|apply Hs; unfold SFS_ROOT_LOCATION; lia]].
  intros r s3 (-> & Hd3 & Hb3 & Hf3 & Ha3). cbn [negb]. assert (s3.(bitbuf) = replicate (Z.to_nat 16384) 0) as Hb by (rewrite Hb3, Hb2; exact Hbuf).
  assert (∀ j w, zlookup s3.(bitbuf) j = Some w → w = 0) as Hzero.
  { intros j w Hj. pose proof (zlookup_Some_lt _ _ _ Hj). rewrite <- (Z2Nat.id j), zlookup_nat, Hb in Hj by lia. by apply lookup_replicate in Hj as [-> _]. }
  apply wp_bind. eapply wp_mono; [|apply (writebitmap_wp size s3); [done|done|done|by rewrite Hf3, Hf2|done| | |intros b Hb4; apply Hs; lia]].
  - intros r s4 (-> & Hf4 & Hmap & Hd4).
    assert (∀ s5, s5.(img) = s4.(img) → s5.(bitbuf) = s4.(bitbuf) →
      (k ≤ 32 → bitmap_wf (bmap s5) ∧ ∀ i, bit (bmap s5) i = fresh_bit size k i) ∧
      ∀ x, s5.(img) x = if (0 <=? x) && (x <? 512) then super_put (λ _, 0) 0 (fresh_super name size) x
                        else if (512 <=? x) && (x <? 1024) then words_put (λ _, 0) 0 (sfi_words root_inode) (x - 512)
                        else if (k <=? 32) && ((1024 <=? x) && (x <? (2 + k) * 512)) then default 0 (zlookup s5.(bitbuf) (x - 1024)) else s.(img) x) as Hdone; last first.
    { fold k. destruct (k <=? 32); cbn [negb]; [|apply wp_ret; split; [done|by apply Hdone]].
      unfold closedisk. apply wp_get. apply wp_kassert; [done|]. cbn [negb]. apply wp_modify, wp_ret. split; [done|by apply Hdone]. }
    intros s5 Ei Eb. split; [unfold bmap; by rewrite Eb|]. intros x. rewrite Ei, Eb.
    rewrite Hd4, Hd3. unfold blit. rewrite Hd2. unfold blit, SFS_SB_LOCATION, SFS_ROOT_LOCATION, k. fold (fresh_super name size).
    replace (x - 0 * 512 + 0) with x by lia. replace (x - 1 * 512 + 0) with (x - 512) by lia. change (img s1 x) with (img s x).
    destruct (SFS_BITBLOCKS size <=? 32); cbn [andb];
      (destruct (Z.lt_ge_cases x 0); [by zdecide|]; destruct (Z.lt_ge_cases x 512); [by zdecide|]; destruct (Z.lt_ge_cases x 1024); [by zdecide|]);
      [|by zdecide]. by destruct (Z.lt_ge_cases x ((2 + SFS_BITBLOCKS size) * 512)); zdecide.
  - split; [cbn [bmap nbits]; unfold W32; lia|]. cbn [bmap nbits bm_v]. split; [rewrite Hb, length_replicate; lia|]. split.
    + intros ix w ->%Hzero. lia.
    + intros i Hi. rewrite Hb, length_replicate in Hi. lia.
  - intros i. unfold bit. cbn [bmap bm_v]. destruct (zlookup (bitbuf s3) (i / 8)) as [w|] eqn:E; simpl; [apply Hzero in E as ->|]; apply Z.bits_0.
Qed.
End made.

Lemma map_size_bound size : 0 < size < W32 - 4096 → (SFS_BITBLOCKS size <=? 32) = (size <=? 131072).
Proof.
  intros Hs. apply eq_bool_prop_intro. rewrite !Is_true_true, !Z.leb_le. split; [by apply small_disk|].
  intros H. destruct (bitblocks_small size ltac:(lia)). lia.
Qed.

Lemma made_super name size s :
  (length name < 32)%nat → 0 ≤ size < W32 →
  (∀ i, 0 ≤ i < 512 → s.(img) i = super_put (λ _, 0) 0 (fresh_super name size) i) → super_on_disk s.(img) (fresh_super name size).
Proof.
  intros Hl Hs Hi. unfold super_on_disk. rewrite (super_at_shift (super_put (λ _, 0) 0 (fresh_super name size)) (img s) 0 0); [by apply super_at_put, fresh_super_ok|].
  intros i H. by rewrite Hi.
Qed.

Lemma made_root (m : Z → Z) :
  (∀ i, 512 ≤ i < 1024 → m i = words_put (λ _, 0) 0 (sfi_words root_inode) (i - 512)) →
  inode_on_disk m SFS_ROOT_LOCATION = root_inode.
Proof.
  intros Hm. unfold inode_on_disk, SFS_ROOT_LOCATION. destruct (sfi_words_ok root_inode root_inode_ok) as [Hl1 Hl2].
  rewrite (words_at_shift (words_put (λ _, 0) 0 (sfi_words root_inode)) m 0 (1 * 512)) by (intros i Hi; rewrite Hm by lia; f_equal; lia).
  rewrite <- Hl1, words_at_put by done. apply inode_of_words_sfi, root_inode_ok.
Qed.

(** C13. What [mksfs] leaves on a disk: on a disk of fewer than 2^32 - 4096 blocks that
    is large enough for the map, that can be opened, inspected, positioned and
    closed, with a volume name of at most 31 characters without colons or slashes
    (one colon at the end is removed), however the writes are cut up or
    interrupted, the superblock has the disk's size and the volume's name, and the
    inode of the root directory is an empty directory with one link.  If the map
    takes at most 32 blocks, that is for disks of at most 64 MiB, the program ends
    well, and [sfs_domount] accepts the disk and returns that superblock and a free
    map in which exactly the superblock, the root directory, the map itself and the
    bits past the end of the disk are taken; for a larger disk the program ends with
    an error after the first two blocks.  No other block has been written. *)
Theorem mksfs_then_mount {MC : Mach} (lseek_ok : Z → bool) (arg name : list Z) (size : Z) (s : mk) (du : ust) :
  let k := SFS_BITBLOCKS size in
  let sp := SfsSuper SFS_MAGIC size (pad_name name) (replicate 118 0) in
  volume_name arg = Some name → (length name < 32)%nat → 0 < size → 2 + k ≤ size → size ≤ d_blocks → d_blocks < W32 - 4096 →
  s.(fd) = false → Forall progresses s.(answers) → s.(bitbuf) = replicate (Z.to_nat 16384) 0 → (∀ b, 0 ≤ b < size → lseek_ok (b * 512) = true) →
  ∃ s', main lseek_ok 3 arg true true true (size * 512) s = Ret (size <=? 131072) s' ∧
    super_on_disk s'.(img) sp ∧
    inode_on_disk s'.(img) SFS_ROOT_LOCATION = SfsInode 0 SFS_TYPE_DIR 1 (replicate 15 0) 0 (replicate 110 0) ∧
    (∀ x, (if size <=? 131072 then 2 + k else 2) * 512 ≤ x → s'.(img) x = s.(img) x) ∧
    (size ≤ 131072 → ∃ b d',
       sfs_domount 512 true true true true (Dstate du s'.(img) []) = Ret (inr (sp, b)) d' ∧
       b.(nbits) = SFS_BITMAPSIZE size ∧ (∀ i, 0 ≤ i < b.(nbits) → bit b i = (i <? 2 + k) || (size <=? i))).
Proof.
  intros k sp Hn Hl Hsz Hfit Hd Hw Hf Ha Hb Hs.
  destruct (wp_inv _ _ _ (main_wp lseek_ok arg name size s Hn Hl Hsz Hfit ltac:(lia) Hf Ha Hb Hs)) as (r & s' & E & -> & Hmap & Himg). fold k in E, Hmap, Himg.
  assert ((k <=? 32) = (size <=? 131072)) as Ek by (apply map_size_bound; lia). rewrite Ek in E, Himg.
  exists s'. split; [done|]. split; [|split; [|split]].
  - apply (made_super name size s'); [done|lia|]. intros i Hi. rewrite Himg. by zdecide.
  - apply made_root. intros i Hi. rewrite Himg. by zdecide.
  - intros x Hx. rewrite Himg. assert (0 ≤ k) by (unfold k, SFS_BITBLOCKS, SFS_BITMAPSIZE, SFS_ROUNDUP, SFS_BLOCKBITS, u32; lia).
    destruct (size <=? 131072); by zdecide.
  - intros Hk. assert (k ≤ 32) as Hk1 by (apply Z.leb_le; rewrite Ek; by apply Z.leb_le). destruct (Hmap Hk1) as [Hwf Hbit].
    destruct (bitblocks_small size ltac:(lia)) as [Hbs Hks]. fold k in Hbs, Hks. rewrite (proj2 (Z.leb_le _ _) Hk) in Himg. cbn [andb] in Himg.
    destruct (kernel_map_ok k s') as [Hkw Hkb]; [lia|done|]. pose proof Hwf as (_ & Hlen & _). cbn [bmap nbits bm_v] in Hlen.
    assert (map_on_disk s'.(img) (kernel_map k s'.(bitbuf))) as Hmd.
    { intros i Hi. cbn [kernel_map bm_v] in *. rewrite length_take in Hi. rewrite lookup_take_lt, Himg by lia. zdecide.
      replace (1024 + Z.of_nat i - 1024) with (Z.of_nat i) by lia. rewrite zlookup_nat. destruct (lookup_lt_is_Some_2 (bitbuf s') i) as [w ->]; [lia|done]. }
    assert (d_blocks < W32) as Hw1 by lia. assert (2 + k ≤ d_blocks) as Hw2 by lia.
    assert (super_ok sp) as Hso by (apply fresh_super_ok; [done|unfold W32 in *; lia]).
    destruct (wp_inv _ _ _ (sfs_domount_wp (Dstate du s'.(img) []) sp (kernel_map k s'.(bitbuf)) eq_refl Hw1 Hso eq_refl
      (made_super name size s' Hl ltac:(lia) ltac:(intros i Hi; rewrite Himg; by zdecide)) Hkw (eq_sym Hbs) Hmd Hw2)) as (r & d' & E2 & -> & _).
    exists (kernel_map k s'.(bitbuf)), d'. split; [exact E2|]. split; [exact (eq_sym Hbs)|].
    intros i Hi. cbn [kernel_map nbits] in Hi. rewrite Hkb, Hbit by done. unfold fresh_bit. zbool.
Qed.

#[local] Instance ex_mach : Mach := { ucheck := λ _ _, EFAULT; d_blocks := 5000; kbufs := 0x80030000 }.
Definition ex_blank : mk := Mk (λ _, 0xe5) (replicate (Z.to_nat 16384) 0) false [Wrote 100; Again; Wrote 412].

(** 5000 blocks, two of them for the map, and the argument [vol:]. *)
Lemma mksfs_then_mount_witness :
  ∃ s' b d', main (λ p, p <? 5000 * 512) 3 [118; 111; 108; 58] true true true (5000 * 512) ex_blank = Ret true s' ∧
    sfs_domount 512 true true true true (Dstate (Ust (λ _, 0) (uio_kinit 0 0 0 UIO_READ)) s'.(img) []) = Ret (inr (SfsSuper SFS_MAGIC 5000 (pad_name [118; 111; 108]) (replicate 118 0), b)) d' ∧
    bit b 3 = true ∧ bit b 4 = false ∧ bit b 4999 = false ∧ bit b 5000 = true.
Proof.
  destruct (mksfs_then_mount (λ p, p <? 5000 * 512) [118; 111; 108; 58] [118; 111; 108] 5000 ex_blank (Ust (λ _, 0) (uio_kinit 0 0 0 UIO_READ))) as (s' & E1 & _ & _ & _ & Hm);
    [reflexivity|simpl; lia|lia|by vm_compute|by vm_compute|by vm_compute|reflexivity|repeat constructor|reflexivity|intros b Hb; apply Z.ltb_lt; lia|].
  destruct Hm as (b & d' & E2 & Hn & Hb); [lia|].
  assert (SFS_BITMAPSIZE 5000 = 8192) as E8 by (by vm_compute). rewrite Hn, E8 in Hb.
  exists s', b, d'. split; [exact E1|]. split; [exact E2|]. split_and!; rewrite Hb by lia; by vm_compute.
Defined.
