(* ===== verification/FileSyscalls.v ===== *)
(** The file system calls (kern/syscall/filesystem.c) on top of the virtual file
    system layer.

    The state is the calling process, the [struct fd] blocks of the heap, known
    by their addresses (after a fork two processes point to the same ones), the
    global [errno], the number of address spaces the calls have created and
    dropped, and the layer below.  Locals the code reads without having set them
    are arguments ([raw]). *)

From Stdlib Require Import ZArith Lia.
From stdpp Require Import base numbers list gmap.
From S2P Require Import Prelude Coremap Addrspace Uio Proc Vfs.

Record fd := Fd {
  file_flag : Z;
  filename : Z;
  file : nat;
  offset : Z;
  fd_lock : bool;    (* whether [lock_create] gave one *)
  buflen : Z;
}.

Record fsys (W : Type) := Fsys {
  curproc : proc;
  fds : gmap nat fd;
  fd_next : nat;
  f_errno : Z;
  as_dropped : Z;
  vf : vfs W;
}.
Arguments Fsys {W} _ _ _ _ _ _.
Arguments curproc {W} _.
Arguments fds {W} _.
Arguments fd_next {W} _.
Arguments f_errno {W} _.
Arguments as_dropped {W} _.
Arguments vf {W} _.

(** What the calls use of user memory and of open files: the string at a user
    address, and reading and writing through a uio. *)
Class IoOps (W : Type) := {
  string_at : Z → vfs W → list Z;
  vop_read : nat → uio → M (vfs W) (Z * uio);
  vop_write : nat → uio → M (vfs W) (Z * uio);
}.

Section calls.
Context {W : Type} `{!FsOps W} `{!IoOps W}.
Implicit Types s : fsys W.

Definition set_proc (p : proc) s : fsys W := Fsys p s.(fds) s.(fd_next) s.(f_errno) s.(as_dropped) s.(vf).
Definition set_fds (m : gmap nat fd) s : fsys W := Fsys s.(curproc) m s.(fd_next) s.(f_errno) s.(as_dropped) s.(vf).
Definition set_vf (v : vfs W) s : fsys W := Fsys s.(curproc) s.(fds) s.(fd_next) s.(f_errno) s.(as_dropped) v.
Definition with_table (l : list (option nat)) (n : Z) (p : proc) : proc :=
  Proc p.(p_ptr) p.(p_name) p.(p_pid) p.(p_cwd) p.(p_addrspace) l n.

(** [errno = e; return -1]. *)
Definition fail (e : Z) : M (fsys W) Z :=
  modify (λ s, Fsys s.(curproc) s.(fds) s.(fd_next) e s.(as_dropped) s.(vf));; mret (-1).

Definition in_vfs {A} (m : M (vfs W) A) : M (fsys W) A := zoom vf set_vf m.

Definition DUMBVM_STACKPAGES : Z := 12.
Definition valid_address_check (a : addrspace) (addr : Z) : bool :=
  (addr <? USERSTACK) &&
  (((a.(as_vbase1) <=? addr) && (addr <? u32 (a.(as_vbase1) + a.(as_npages1) * PAGE_SIZE))) ||
   ((a.(as_vbase2) <=? addr) && (addr <? u32 (a.(as_vbase2) + a.(as_npages2) * PAGE_SIZE))) ||
   (USERSTACK - DUMBVM_STACKPAGES * PAGE_SIZE <=? addr)).

(** The test the calls start with: the pointer is not NULL and in the caller's
    address space. *)
Definition good_pointer (addr : Z) : M (fsys W) bool :=
  if addr =? 0 then mret false
  else
    s ← get;
    a ← of_opt s.(curproc).(p_addrspace);
    mret (valid_address_check a addr).

(** [k_fd]: the block from [kmalloc] is there; [k_lock]: so is the lock. *)
Definition create_fd (k_fd k_lock : bool) (flag name : Z) (vn : option nat) : M (fsys W) nat :=
  if negb k_fd then fault
  else match vn with
       | None => panic
       | Some v =>
           s ← get;
           modify (λ s, Fsys s.(curproc) (<[s.(fd_next):=Fd flag name v 0 k_lock 0]> s.(fds))
                          (S s.(fd_next)) s.(f_errno) s.(as_dropped) s.(vf));;
           mret s.(fd_next)
       end.

Definition add_fd (f : nat) (file_handle : Z) : M (fsys W) unit :=
  s ← get;
  let p := s.(curproc) in
  l ← of_opt (zupd p.(fd_table) file_handle (Some f));
  modify (set_proc (with_table l p.(open_num) p)).

(** [while (fd_table[file_handle] != NULL) file_handle++], from the entries that
    are left; past the table the loop reads what is not its own. *)
Fixpoint free_slot (l : list (option nat)) (i : Z) : option Z :=
  match l with
  | [] => None
  | None :: _ => Some i
  | Some _ :: l => free_slot l (i + 1)
  end.

Definition sys_open (k_fd k_lock : bool) (raw_vn : option nat) (name flag mode : Z) : M (fsys W) Z :=
  ok ← good_pointer name;
  if negb ok then fail EFAULT
  else if (flag >? 94) || (Z.rem flag 4 =? 3) || has_flag flag O_APPEND then fail EINVAL
  else
    s ← get;
    if s.(curproc).(open_num) <? MAX_fd_table then
      ret ← in_vfs (vfs_open (string_at name s.(vf)) flag mode);
      modify (λ s, set_proc (with_table s.(curproc).(fd_table) (s.(curproc).(open_num) + 1) s.(curproc)) s);;
      let go_on (new_file : option nat) :=
        s ← get;
        file_handle ← of_opt (free_slot (drop 3 s.(curproc).(fd_table)) 3);
        f ← create_fd k_fd k_lock flag name new_file;
        add_fd f file_handle;;
        mret file_handle in
      match ret with
      | inr v => if has_flag flag O_CREAT && has_flag flag O_EXCL then fail EEXIST else go_on (Some v)
      | inl _ => if negb (Z.land flag (Z.lnot O_CREAT) =? 0) then fail ENOENT else go_on raw_vn
      end
    else fail EMFILE.

Definition sys_close (n : Z) : M (fsys W) Z :=
  if (n <? 0) || (n >=? MAX_fd_table) then fail EBADF
  else
    s ← get;
    e ← of_opt (zlookup s.(curproc).(fd_table) n);
    match e with
    | None => fail EBADF
    | Some p =>
        f ← of_opt (s.(fds) !! p);
        in_vfs (vfs_close f.(file));;
        modify (λ s, set_fds (delete p s.(fds)) s);;
        s ← get;
        l ← of_opt (zupd s.(curproc).(fd_table) n None);
        modify (set_proc (with_table l s.(curproc).(open_num) s.(curproc)));;
        mret 0
    end.

(** [as = as_create();], which nothing uses or frees. *)
Definition drop_as : M (fsys W) unit :=
  modify (λ s, Fsys s.(curproc) s.(fds) s.(fd_next) s.(f_errno) (s.(as_dropped) + 1) s.(vf)).

Definition CON : list Z := [99; 111; 110; 58].

Definition STDIN_FILENO : Z := 0.
Definition STDOUT_FILENO : Z := 1.
Definition STDERR_FILENO : Z := 2.

(** The vnode of the console, opened anew for each call and never closed. *)
Definition open_console (flags : Z) (raw_vn : option nat) : M (fsys W) nat :=
  r ← in_vfs (vfs_open CON flags 0);
  match r with inr v => mret v | inl _ => of_opt raw_vn end.

Definition sys_read (raw_tmp raw_vn : option nat) (n buf len : Z) : M (fsys W) Z :=
  ok ← good_pointer buf;
  if negb ok then fail EFAULT
  else if (n <? 0) || (n >=? MAX_fd_table) then fail EBADF
  else if (n =? STDOUT_FILENO) || (n =? STDERR_FILENO) then fail EIO
  else
    s ← get;
    e ← (if n >=? 3 then of_opt (zlookup s.(curproc).(fd_table) n) else mret raw_tmp);
    let go_on (tmp : fd) :=
      drop_as;;
      let u := Uio [Iovec buf len] tmp.(offset) len UIO_USERSPACE UIO_READ CurSpace in
      v ← (if n =? STDIN_FILENO then open_console O_RDONLY raw_vn else mret tmp.(file));
      r ← in_vfs (vop v (vop_read v u));
      let '(retval, u) := r in
      if retval <? 0 then fail EIO else mret (s32 (len - u.(uio_resid))) in
    if n >=? 3 then
      match e with
      | None => fail EBADF
      | Some p => f ← of_opt (s.(fds) !! p); if has_flag f.(file_flag) O_WRONLY then fail EBADF else go_on f
      end
    else
      p ← of_opt e;
      f ← of_opt (s.(fds) !! p);
      go_on f.

Definition sys_write (raw_off : Z) (raw_vn : option nat) (n buf nbytes : Z) : M (fsys W) Z :=
  ok ← good_pointer buf;
  if negb ok then fail EFAULT
  else if (n <? 0) || (n >=? MAX_fd_table) then fail EBADF
  else if n =? STDIN_FILENO then fail EIO
  else
    let u off := Uio [Iovec buf nbytes] off nbytes UIO_USERSPACE UIO_WRITE CurSpace in
    if n >=? 3 then
      s ← get;
      e ← of_opt (zlookup s.(curproc).(fd_table) n);
      match e with
      | None => fail EBADF
      | Some p =>
          f ← of_opt (s.(fds) !! p);
          let how := Z.land f.(file_flag) O_ACCMODE in
          if (how =? O_WRONLY) || (how =? O_RDWR) then
            drop_as;;
            r ← in_vfs (vop f.(file) (vop_write f.(file) (u f.(offset))));
            let resid := r.2.(uio_resid) in
            if negb (resid =? 0) then fail ENOSPC
            else
              let done_ := u32 (nbytes - resid) in
              modify (λ s, set_fds (<[p:=Fd f.(file_flag) f.(filename) f.(file) (f.(offset) + done_) f.(fd_lock)
                                           (u32 (f.(buflen) + done_))]> s.(fds)) s);;
              mret (s32 done_)
          else fail EBADF
      end
    else
      drop_as;;
      v ← open_console O_WRONLY raw_vn;
      r ← in_vfs (vop v (vop_write v (u raw_off)));
      if r.1 <? 0 then fail EIO else mret (s32 (nbytes - r.2.(uio_resid))).
End calls.

(** ** The invariant of the descriptor table *)

(** The descriptors open on a vnode. *)
Definition nopen (m : gmap nat fd) (v : nat) : Z :=
  Z.of_nat (size (filter (λ kv : nat * fd, kv.2.(file) = v) m)).

Lemma nopen_insert m p f v : m !! p = None → nopen (<[p:=f]> m) v = nopen m v + one f.(file) v.
Proof.
  intros Hp. unfold nopen, one. destruct (Nat.eqb_spec v f.(file)) as [->|Hv].
  - rewrite map_filter_insert_True by done. rewrite map_size_insert_None; [lia|].
    by apply map_lookup_filter_None_2; left.
  - rewrite map_filter_insert_False by (simpl; congruence). rewrite delete_id by done. lia.
Qed.

Lemma nopen_delete m p f v : m !! p = Some f → nopen (delete p m) v = nopen m v - one f.(file) v.
Proof.
  intros Hp. rewrite <- (insert_id m p f Hp) at 2. rewrite <- insert_delete_eq.
  rewrite nopen_insert by apply lookup_delete_eq. lia.
Qed.

Lemma nopen_update m p f g v : m !! p = Some f → g.(file) = f.(file) → nopen (<[p:=g]> m) v = nopen m v.
Proof.
  intros Hp Hfg. rewrite <- insert_delete_eq, nopen_insert, (nopen_delete m p f) by (apply lookup_delete_eq || done).
  rewrite Hfg. lia.
Qed.

Lemma nopen_pos m p f : m !! p = Some f → 0 < nopen m f.(file).
Proof.
  intros Hp. pose proof (nopen_delete m p f f.(file) Hp) as H. rewrite one_self in H.
  assert (0 ≤ nopen (delete p m) f.(file)) by (unfold nopen; lia). lia.
Qed.

(** Entries of the table point to distinct live blocks, and every descriptor
    accounts for an open of its vnode. *)
Record fsys_wf {W} (s : fsys W) : Prop := FsysWf {
  fw_len : length s.(curproc).(fd_table) = 64%nat;
  fw_live : ∀ (i p : nat), s.(curproc).(fd_table) !! i = Some (Some p) → is_Some (s.(fds) !! p);
  fw_inj : ∀ (i j p : nat), s.(curproc).(fd_table) !! i = Some (Some p) →
             s.(curproc).(fd_table) !! j = Some (Some p) → i = j;
  fw_fresh : ∀ p f, s.(fds) !! p = Some f → (p < s.(fd_next))%nat;
  fw_opens : ∀ v, nopen s.(fds) v ≤ opens s.(vf) v;
  fw_vfs : vfs_wf s.(vf);
}.

Lemma free_slot_spec (l : list (option nat)) i h :
  free_slot l i = Some h →
  i ≤ h < i + Z.of_nat (length l) ∧ l !! Z.to_nat (h - i) = Some None ∧
  ∀ j : nat, Z.of_nat j < h - i → ∃ p, l !! j = Some (Some p).
Proof.
  revert i. induction l as [|[p|] l IH]; intros i; simpl; [done| |].
  - intros (H1 & H2 & H3)%IH. split; [lia|].
    replace (Z.to_nat (h - i)) with (S (Z.to_nat (h - (i + 1)))) by lia. split; [done|].
    intros [|j] Hj; [by exists p|]. apply H3. lia.
  - intros [= <-]. split; [lia|]. rewrite Z.sub_diag. split; [done|]. lia.
Qed.

Lemma free_slot_exists (l : list (option nat)) i : None ∈ l → ∃ h, free_slot l i = Some h.
Proof.
  revert i. induction l as [|[p|] l IH]; intros i Hin; simpl; [by apply not_elem_of_nil in Hin| |by eexists].
  apply IH. by apply elem_of_cons in Hin as [|].
Qed.

Section facts.
Context {W : Type} `{!FsOps W} `{!FsLaws W} `{!IoOps W}.
Implicit Types s : fsys W.

Lemma good_pointer_ret addr a s :
  s.(curproc).(p_addrspace) = Some a → addr ≠ 0 → valid_address_check a addr = true →
  good_pointer addr s = Ret true s.
Proof.
  intros Ha Hn Hv. unfold good_pointer. rewrite (proj2 (Z.eqb_neq _ _) Hn), get_bind, Ha.
  mrun. by rewrite Hv.
Qed.

Lemma in_vfs_ret {A} (m : M (vfs W) A) s r w : m s.(vf) = Ret r w → in_vfs m s = Ret r (set_vf w s).
Proof. unfold in_vfs, zoom. by intros ->. Qed.

(** Flags [sys_open] lets through. *)
Definition flags_ok (flag : Z) : Prop := flag ≤ 94 ∧ Z.rem flag 4 ≠ 3 ∧ has_flag flag O_APPEND = false.

Lemma flags_test flag : flags_ok flag → (flag >? 94) || (Z.rem flag 4 =? 3) || has_flag flag O_APPEND = false.
Proof.
  intros (H1 & H2 & H3). rewrite H3, (proj2 (Z.eqb_neq _ _) H2), orb_false_r.
  destruct (Z.gtb_spec flag 94); [lia|done].
Qed.

(** The state after a successful open in slot [h]; [lk]: the descriptor has a lock. *)
Definition opened (lk : bool) (flag name h : Z) (v : nat) (w : vfs W) s : fsys W :=
  Fsys (with_table (<[Z.to_nat h := Some s.(fd_next)]> s.(curproc).(fd_table)) (s.(curproc).(open_num) + 1) s.(curproc))
    (<[s.(fd_next) := Fd flag name v 0 lk 0]> s.(fds)) (S s.(fd_next)) s.(f_errno) s.(as_dropped) w.

(** The search for an entry, and its filling. *)
Definition place (k_fd k_lock : bool) (name flag : Z) (new_file : option nat) : M (fsys W) Z :=
  s ← get;
  file_handle ← of_opt (free_slot (drop 3 s.(curproc).(fd_table)) 3);
  f ← create_fd k_fd k_lock flag name new_file;
  add_fd f file_handle;;
  mret file_handle.

(** An attempt has been counted, and [vfs_open] has left [w]. *)
Definition counted (w : vfs W) s : fsys W :=
  set_proc (with_table s.(curproc).(fd_table) (s.(curproc).(open_num) + 1) s.(curproc)) (set_vf w s).

Definition bad_flags (flag : Z) : bool := (flag >? 94) || (Z.rem flag 4 =? 3) || has_flag flag O_APPEND.

Lemma sys_open_tried k_fd k_lock raw_vn name flag mode a r w s :
  s.(curproc).(p_addrspace) = Some a → name ≠ 0 → valid_address_check a name = true → bad_flags flag = false →
  s.(curproc).(open_num) < MAX_fd_table → vfs_open (string_at name s.(vf)) flag mode s.(vf) = Ret r w →
  sys_open k_fd k_lock raw_vn name flag mode s =
    match r with
    | inr v => if has_flag flag O_CREAT && has_flag flag O_EXCL then fail EEXIST else place k_fd k_lock name flag (Some v)
    | inl _ => if negb (Z.land flag (Z.lnot O_CREAT) =? 0) then fail ENOENT else place k_fd k_lock name flag raw_vn
    end (counted w s).
Proof.
  intros Ha Hn Hv Hfl Hnum Hopen. unfold sys_open. rewrite (bind_Ret _ _ _ _ _ (good_pointer_ret _ _ _ Ha Hn Hv)). cbn [negb].
  unfold bad_flags in Hfl. rewrite Hfl. cbv iota. rewrite get_bind, (proj2 (Z.ltb_lt _ _) Hnum). cbv iota.
  by rewrite (bind_Ret _ _ _ _ _ (in_vfs_ret _ _ _ _ Hopen)).
Qed.

Lemma place_ret k_lock name flag v w h s :
  length s.(curproc).(fd_table) = 64%nat → free_slot (drop 3 s.(curproc).(fd_table)) 3 = Some h →
  place true k_lock name flag (Some v) (counted w s) = Ret h (opened k_lock flag name h v w s).
Proof.
  intros Hlen Hslot. destruct (free_slot_spec _ _ _ Hslot) as (Hr & _). rewrite length_drop, Hlen in Hr.
  unfold place. rewrite get_bind. simpl. rewrite Hslot. mrun. mrun.
  unfold add_fd. rewrite (bind_Ret _ _ _ tt (opened k_lock flag name h v w s)); [done|].
  rewrite get_bind. simpl. rewrite zupd_Some by (rewrite Hlen; lia). by mrun.
Qed.

Lemma sys_open_ret raw_vn name flag mode a v w h s :
  fsys_wf s → s.(curproc).(p_addrspace) = Some a → name ≠ 0 → valid_address_check a name = true →
  flags_ok flag → has_flag flag O_CREAT && has_flag flag O_EXCL = false →
  s.(curproc).(open_num) < MAX_fd_table →
  vfs_open (string_at name s.(vf)) flag mode s.(vf) = Ret (inr v) w →
  free_slot (drop 3 s.(curproc).(fd_table)) 3 = Some h →
  sys_open true true raw_vn name flag mode s = Ret h (opened true flag name h v w s).
Proof.
  intros Hwf Ha Hn Hv Hfl Hex Hnum Hopen Hslot. erewrite sys_open_tried; [|done..|by apply flags_test|done|exact Hopen].
  rewrite Hex. apply place_ret; [apply Hwf|done].
Qed.

Lemma opened_wf lk flag name h v w s :
  fsys_wf s → 3 ≤ h < 64 → books s.(vf) 0 (one v) (one v) w → fsys_wf (opened lk flag name h v w s).
Proof.
  intros [F1 F2 F3 F4 F5 F6] Hh Hb.
  assert (s.(fds) !! s.(fd_next) = None) as Hfr.
  { destruct (s.(fds) !! s.(fd_next)) as [f|] eqn:E; [|done]. apply F4 in E. lia. }
  assert (∀ (i p : nat), s.(curproc).(fd_table) !! i = Some (Some p) → p ≠ s.(fd_next)) as Hne.
  { intros i p Hi ->. apply F2 in Hi as [f Hf]. congruence. }
  assert (∀ (i p : nat), <[Z.to_nat h := Some s.(fd_next)]> s.(curproc).(fd_table) !! i = Some (Some p) →
    (i = Z.to_nat h ∧ p = s.(fd_next)) ∨ (i ≠ Z.to_nat h ∧ s.(curproc).(fd_table) !! i = Some (Some p))) as Hcase.
  { intros i p. destruct (decide (i = Z.to_nat h)) as [-> |Hi].
    - rewrite list_lookup_insert_eq by lia. intros [= <-]. by left.
    - rewrite list_lookup_insert_ne by done. by right. }
  split; simpl.
  - by rewrite length_insert.
  - intros i p [[-> ->]|[_ Hi]]%Hcase; [by rewrite lookup_insert_eq|].
    destruct (F2 _ _ Hi) as [f Hf]. rewrite lookup_insert_ne; [by exists f|]. by apply not_eq_sym, (Hne i).
  - intros i j p [[-> ->]|[_ Hi]]%Hcase [[-> Hp]|[_ Hj]]%Hcase; [done| | |by eapply F3].
    + by apply Hne in Hj.
    + subst p. by apply Hne in Hi.
  - intros p f. destruct (decide (p = s.(fd_next))) as [-> |Hp]; [lia|].
    rewrite lookup_insert_ne by done. intros Hf%F4. lia.
  - intros x. rewrite nopen_insert by done. simpl. rewrite (bk_opens _ _ _ _ _ Hb). specialize (F5 x). lia.
  - apply (opened_live s.(vf) v w F6). eapply books_eq; [..|exact Hb]; [done| |]; intros x; unfold none; lia.
Qed.

(** The state after closing entry [i], which points to [p]. *)
Definition closed (i p : nat) (w : vfs W) s : fsys W :=
  Fsys (with_table (<[i := None]> s.(curproc).(fd_table)) s.(curproc).(open_num) s.(curproc))
    (delete p s.(fds)) s.(fd_next) s.(f_errno) s.(as_dropped) w.

Lemma sys_close_ret (i p : nat) f s :
  fsys_wf s → s.(curproc).(fd_table) !! i = Some (Some p) → s.(fds) !! p = Some f →
  ∃ w, sys_close (Z.of_nat i) s = Ret 0 (closed i p w s) ∧
    books s.(vf) 0 (λ x, - one f.(file) x) (λ x, - one f.(file) x) w.
Proof.
  intros Hwf Hi Hf. pose proof (lookup_lt_Some _ _ _ Hi) as Hlt. rewrite (fw_len _ Hwf) in Hlt.
  assert (0 < opens s.(vf) f.(file)) as Ho
    by (pose proof (fw_opens _ Hwf f.(file)); pose proof (nopen_pos _ _ _ Hf); lia).
  destruct (wp_inv (vfs_close f.(file)) (λ _, books s.(vf) 0 (λ x, - one f.(file) x) (λ x, - one f.(file) x)) s.(vf))
    as ([] & w & Hc & Hb).
  { eapply close_books; [apply Hwf|apply books_refl|done|]. intros s' Hb.
    eapply books_eq; [..|exact Hb]; [done| |]; intros x; unfold none; lia. }
  exists w. split; [|done]. unfold sys_close, MAX_fd_table.
  rewrite (proj2 (Z.ltb_ge _ _)), Z.geb_leb, (proj2 (Z.leb_gt _ _)) by lia. cbn [orb].
  autorewrite with kernel. rewrite Hi. mrun. cbv beta iota. rewrite Hf.
  mrun. rewrite (bind_Ret _ _ _ _ _ (in_vfs_ret _ _ _ _ Hc)).
  mrun. rewrite get_bind. simpl.
  rewrite zupd_Some by (rewrite (fw_len _ Hwf); lia). rewrite Nat2Z.id. mrun.
  by mrun.
Qed.

(** Opening, then closing what was opened: the table and the blocks are as
    before, and so are the counts of the layer below. *)
Lemma open_close_ret raw_vn name flag mode a v w h s :
  fsys_wf s → s.(curproc).(p_addrspace) = Some a → name ≠ 0 → valid_address_check a name = true →
  flags_ok flag → has_flag flag O_CREAT && has_flag flag O_EXCL = false →
  s.(curproc).(open_num) < MAX_fd_table →
  vfs_open (string_at name s.(vf)) flag mode s.(vf) = Ret (inr v) w →
  books s.(vf) 0 (one v) (one v) w →
  free_slot (drop 3 s.(curproc).(fd_table)) 3 = Some h →
  ∃ w', (n ← sys_open true true raw_vn name flag mode; sys_close n) s =
    Ret 0 (Fsys (with_table s.(curproc).(fd_table) (s.(curproc).(open_num) + 1) s.(curproc)) s.(fds)
             (S s.(fd_next)) s.(f_errno) s.(as_dropped) w') ∧ books s.(vf) 0 none none w'.
Proof.
  intros Hwf Ha Hn Hv Hfl Hex Hnum Hopen Hb Hslot. pose proof (free_slot_spec _ _ _ Hslot) as (Hr & Hh & _).
  rewrite length_drop, (fw_len _ Hwf) in Hr. rewrite lookup_drop in Hh.
  replace (3 + Z.to_nat (h - 3))%nat with (Z.to_nat h) in Hh by lia.
  erewrite bind_Ret by (by eapply sys_open_ret). set (s1 := opened true flag name h v w s).
  assert (s.(fds) !! s.(fd_next) = None) as Hfr.
  { destruct (s.(fds) !! s.(fd_next)) as [f|] eqn:E; [|done]. apply (fw_fresh _ Hwf) in E. lia. }
  destruct (sys_close_ret (Z.to_nat h) s.(fd_next) (Fd flag name v 0 true 0) s1) as (w' & Hc & Hb').
  - apply opened_wf; [done|lia|done].
  - simpl. apply list_lookup_insert_eq. rewrite (fw_len _ Hwf). lia.
  - simpl. apply lookup_insert_eq.
  - exists w'. rewrite Z2Nat.id in Hc by lia. rewrite Hc. unfold closed, s1, opened; simpl. split.
    + rewrite list_insert_insert_eq, list_insert_id by done. rewrite delete_insert_id by done. done.
    + eapply books_eq; [..|eapply books_trans; [exact Hb|exact Hb']]; [done| |]; intros x; unfold none; simpl; lia.
Qed.
End facts.

(** The contract of reading and writing (vnode.h): the call returns 0 or an error
    number, leaves the counts alone, and reports in [uio_resid] what is left. *)
Class IoLaws (W : Type) `{!FsOps W} `{!IoOps W} := {
  law_read v u (s : vfs W) : vfs_wf s → 0 < refs s v → 0 ≤ u.(uio_resid) →
    wp (vop_read v u) (λ r s', books s 0 none none s' ∧ 0 ≤ r.1 ∧ 0 ≤ r.2.(uio_resid) ≤ u.(uio_resid)) s;
  law_write v u (s : vfs W) : vfs_wf s → 0 < refs s v → 0 ≤ u.(uio_resid) →
    wp (vop_write v u) (λ r s', books s 0 none none s' ∧ 0 ≤ r.1 ∧ 0 ≤ r.2.(uio_resid) ≤ u.(uio_resid)) s;
}.

Section claims.
Context {W : Type} `{!FsOps W} `{!FsLaws W} `{!IoOps W}.
Implicit Types s : fsys W.

(** A successful [vfs_open] has taken a reference and an open. *)
Lemma open_books path flag mode (u w : vfs W) v :
  vfs_wf u → vfs_open path flag mode u = Ret (inr v) w → books u 0 (one v) (one v) w.
Proof. intros Hwf Ho. pose proof (open_hands path flag mode u Hwf) as H. unfold wp in H. by rewrite Ho in H. Qed.

(** What becomes of an open of vnode [v]: the lowest free entry from 3 on points to a
    new descriptor on [v] at offset 0, and nothing else of the table and the
    descriptors changes.  With no free entry the search leaves the table, and
    without a block for the descriptor the kernel writes through NULL. *)
Definition placed (k_fd k_lock : bool) (name flag : Z) (v : nat) (w : vfs W) s (o : outcome (fsys W) Z) : Prop :=
  if k_fd && bool_decide (None ∈ drop 3 s.(curproc).(fd_table)) then
    ∃ (h p : nat) s', o = Ret (Z.of_nat h) s' ∧
      (3 ≤ h < 64)%nat ∧ s.(curproc).(fd_table) !! h = Some None ∧
      (∀ j, (3 ≤ j < h)%nat → ∃ q, s.(curproc).(fd_table) !! j = Some (Some q)) ∧
      s'.(curproc) = with_table (<[h := Some p]> s.(curproc).(fd_table)) (s.(curproc).(open_num) + 1) s.(curproc) ∧
      s.(fds) !! p = None ∧ s'.(fds) = <[p := Fd flag name v 0 k_lock 0]> s.(fds) ∧
      s'.(vf) = w ∧ (books s.(vf) 0 (one v) (one v) w → fsys_wf s')
  else o = Fault.

Lemma place_placed k_fd k_lock name flag v w s :
  fsys_wf s → placed k_fd k_lock name flag v w s (place k_fd k_lock name flag (Some v) (counted w s)).
Proof.
  intros Hwf. unfold placed. destruct (bool_decide_reflect (None ∈ drop 3 s.(curproc).(fd_table))) as [Hfree|Hfull].
  2:{ rewrite andb_false_r. unfold place. rewrite get_bind. simpl. destruct (free_slot _ 3) as [h|] eqn:Hslot; [|done]. destruct Hfull.
      destruct (free_slot_spec _ _ _ Hslot) as (_ & Hh & _). by eapply list_elem_of_lookup_2. }
  destruct (free_slot_exists _ 3 Hfree) as [h Hslot]. rewrite andb_true_r. destruct k_fd.
  2:{ unfold place. rewrite get_bind. simpl. by rewrite Hslot. }
  pose proof (free_slot_spec _ _ _ Hslot) as (Hr & Hh & Hlow). rewrite length_drop, (fw_len _ Hwf) in Hr.
  rewrite lookup_drop in Hh. replace (3 + Z.to_nat (h - 3))%nat with (Z.to_nat h) in Hh by lia.
  exists (Z.to_nat h), s.(fd_next), (opened k_lock flag name h v w s). rewrite Z2Nat.id by lia.
  split; [apply place_ret; [apply Hwf|done]|]. split_and!; try done; try lia.
  - intros j Hj. destruct (Hlow (j - 3)%nat ltac:(lia)) as [q Hq]. exists q. rewrite lookup_drop in Hq.
    by replace (3 + (j - 3))%nat with j in Hq by lia.
  - destruct (s.(fds) !! s.(fd_next)) as [f|] eqn:E; [|done]. apply (fw_fresh _ Hwf) in E. lia.
  - intros Hb. apply opened_wf; [done|lia|done].
Qed.


(** [n] times open and close. *)
Fixpoint cycles (n : nat) (raw_vn : option nat) (name flag mode : Z) : M (fsys W) unit :=
  match n with
  | O => mret tt
  | S n => (h ← sys_open true true raw_vn name flag mode; sys_close h);; cycles n raw_vn name flag mode
  end.

Lemma fsys_wf_same s n k w :
  fsys_wf s → books s.(vf) 0 none none w → (s.(fd_next) ≤ k)%nat →
  fsys_wf (Fsys (with_table s.(curproc).(fd_table) n s.(curproc)) s.(fds) k s.(f_errno) s.(as_dropped) w).
Proof.
  intros [F1 F2 F3 F4 F5 F6] Hb Hk. split; try done; simpl.
  - intros p f Hf%F4. lia.
  - intros v. rewrite (bk_opens _ _ _ _ _ Hb). unfold none. specialize (F5 v). lia.
  - eapply books_wf_up; [exact F6|exact Hb|done|done].
Qed.

Lemma cycles_ret n raw_vn name flag mode a s :
  fsys_wf s → s.(curproc).(p_addrspace) = Some a → name ≠ 0 → valid_address_check a name = true →
  flags_ok flag → has_flag flag O_CREAT && has_flag flag O_EXCL = false →
  None ∈ drop 3 s.(curproc).(fd_table) → s.(curproc).(open_num) + Z.of_nat n ≤ MAX_fd_table →
  (∀ u, books s.(vf) 0 none none u → ∃ v w, vfs_open (string_at name u) flag mode u = Ret (inr v) w) →
  ∃ k w, cycles n raw_vn name flag mode s =
    Ret tt (Fsys (with_table s.(curproc).(fd_table) (s.(curproc).(open_num) + Z.of_nat n) s.(curproc)) s.(fds) k
              s.(f_errno) s.(as_dropped) w) ∧ (s.(fd_next) ≤ k)%nat ∧ books s.(vf) 0 none none w.
Proof.
  revert s. induction n as [|n IH]; intros s Hwf Ha Hn Hv Hfl Hex Hfree Hnum Hopens.
  { exists s.(fd_next), s.(vf). split; [|split; [lia|apply books_refl]].
    unfold cycles, mret, M_ret. f_equal. rewrite Z.add_0_r. by destruct s as [[]]. }
  destruct (free_slot_exists _ 3 Hfree) as [h Hslot]. destruct (Hopens s.(vf) (books_refl _)) as (v & w & Hopen).
  destruct (open_close_ret raw_vn name flag mode a v w h s) as (w1 & H1 & Hb1); try done; [lia| |].
  { eapply open_books, Hopen. apply Hwf. }
  cbn [cycles]. rewrite (bind_Ret _ _ _ _ _ H1). set (s1 := Fsys _ _ _ _ _ _).
  destruct (IH s1) as (k & w2 & H2 & Hk & Hb2); try done; try (simpl; lia).
  - by apply fsys_wf_same; [| |lia].
  - intros u Hu. apply Hopens. eapply books_eq; [..|eapply books_trans; [exact Hb1|exact Hu]]; done.
  - exists k, w2. rewrite H2. simpl. split; [|split; [simpl in Hk; lia|]].
    + do 2 f_equal. unfold with_table. simpl. f_equal. lia.
    + eapply books_eq; [..|eapply books_trans; [exact Hb1|exact Hb2]]; done.
Qed.

(** Opening and closing: each time, the table, the descriptors and the counts
    of the layer below come back as they were; but the count of opens is never
    taken back, so after 64 opens in the life of a process the next one fails
    with EMFILE although every descriptor has been closed. *)
Theorem open_close_cycles (raw_vn : option nat) (name flag mode : Z) (a : addrspace) (s : fsys W) :
  fsys_wf s → s.(curproc).(p_addrspace) = Some a → name ≠ 0 → valid_address_check a name = true →
  flags_ok flag → has_flag flag O_CREAT && has_flag flag O_EXCL = false →
  None ∈ drop 3 s.(curproc).(fd_table) → 0 ≤ s.(curproc).(open_num) ≤ MAX_fd_table →
  (∀ u, books s.(vf) 0 none none u → ∃ v w, vfs_open (string_at name u) flag mode u = Ret (inr v) w) →
  ∃ s', cycles (Z.to_nat (MAX_fd_table - s.(curproc).(open_num))) raw_vn name flag mode s = Ret tt s' ∧
    s'.(curproc).(fd_table) = s.(curproc).(fd_table) ∧ s'.(fds) = s.(fds) ∧ books s.(vf) 0 none none s'.(vf) ∧
    ∃ s'', ⟨ sys_open true true raw_vn name flag mode , s' ⟩ ⇓ ⟨ -1 , s'' ⟩ ∧ s''.(f_errno) = EMFILE ∧ s''.(vf) = s'.(vf).
Proof.
  intros Hwf Ha Hn Hv Hfl Hex Hfree Hnum Hopens.
  destruct (cycles_ret (Z.to_nat (MAX_fd_table - s.(curproc).(open_num))) raw_vn name flag mode a s)
    as (k & w & H & _ & Hb); try done; [lia|].
  eexists. split; [exact H|]. simpl. split_and!; try done. eexists. split.
  { unfold sys_open. erewrite bind_Ret by (by eapply good_pointer_ret). cbn [negb].
    rewrite (flags_test _ Hfl). cbv iota. rewrite get_bind. simpl.
    rewrite (proj2 (Z.ltb_ge _ _)) by lia. reflexivity. }
  split; reflexivity.
Qed.
End claims.

Section transfers.
Context {W : Type} `{!FsOps W} `{!FsLaws W} `{!IoOps W} `{!IoLaws W}.
Implicit Types s : fsys W.

(** An access to the vnode of an open descriptor. *)
Lemma access_ret (op : nat → uio → M (vfs W) (Z * uio)) (u : uio) p f s :
  (∀ v u (w : vfs W), vfs_wf w → 0 < refs w v → 0 ≤ u.(uio_resid) →
    wp (op v u) (λ r w', books w 0 none none w' ∧ 0 ≤ r.1 ∧ 0 ≤ r.2.(uio_resid) ≤ u.(uio_resid)) w) →
  fsys_wf s → s.(fds) !! p = Some f → 0 ≤ u.(uio_resid) →
  ∃ e u' w, (∀ k, in_vfs (vop f.(file) (op f.(file) u)) (Fsys s.(curproc) s.(fds) s.(fd_next) s.(f_errno) k s.(vf)) =
               Ret (e, u') (Fsys s.(curproc) s.(fds) s.(fd_next) s.(f_errno) k w)) ∧
    books s.(vf) 0 none none w ∧ 0 ≤ e ∧ 0 ≤ u'.(uio_resid) ≤ u.(uio_resid).
Proof.
  intros Hop Hwf Hf Hu. pose proof (fw_vfs _ Hwf) as Hv.
  assert (0 < refs s.(vf) f.(file)) as Hr.
  { pose proof (nopen_pos _ _ _ Hf). pose proof (fw_opens _ Hwf f.(file)). pose proof (wf_refs _ Hv f.(file)).
    pose proof (held_nonneg s.(vf) f.(file)). lia. }
  destruct (wp_inv _ _ _ (wp_vop f.(file) _ _ _ Hv Hr (Hop f.(file) u s.(vf) Hv Hr Hu))) as ([e u'] & w & H & Hb & He & Hres).
  simpl in He, Hres. exists e, u', w. split; [|done]. intros k. unfold in_vfs, zoom. simpl. by rewrite H.
Qed.

(** Descriptor numbers of the table proper. *)
Lemma entry_tests s (i : nat) e :
  fsys_wf s → (3 ≤ i)%nat → s.(curproc).(fd_table) !! i = Some e →
  (Z.of_nat i <? 0) = false ∧ (Z.of_nat i >=? MAX_fd_table) = false ∧ (Z.of_nat i >=? 3) = true ∧
  (Z.of_nat i =? STDIN_FILENO) = false ∧ (Z.of_nat i =? STDOUT_FILENO) = false ∧ (Z.of_nat i =? STDERR_FILENO) = false.
Proof.
  intros Hwf Hi Hlt%lookup_lt_Some. rewrite (fw_len _ Hwf) in Hlt.
  unfold MAX_fd_table, STDIN_FILENO, STDOUT_FILENO, STDERR_FILENO. rewrite !Z.geb_leb.
  split_and!; [apply Z.ltb_ge|apply Z.leb_gt|apply Z.leb_le|apply Z.eqb_neq..]; lia.
Qed.

Lemma access_mode flag : Z.land flag O_ACCMODE = flag mod 4.
Proof. apply (Z.land_ones flag 2). lia. Qed.

Lemma sys_read_ret raw_tmp raw_vn buf len a (i p : nat) f s :
  fsys_wf s → s.(curproc).(p_addrspace) = Some a → buf ≠ 0 → valid_address_check a buf = true →
  0 ≤ len ≤ INT_MAX → (3 ≤ i)%nat → s.(curproc).(fd_table) !! i = Some (Some p) → s.(fds) !! p = Some f →
  if has_flag f.(file_flag) O_WRONLY then sys_read raw_tmp raw_vn (Z.of_nat i) buf len s = fail EBADF s
  else ∃ r s', ⟨ sys_read raw_tmp raw_vn (Z.of_nat i) buf len , s ⟩ ⇓ ⟨ r , s' ⟩ ∧ 0 ≤ r ≤ len ∧
         s'.(fds) = s.(fds) ∧ s'.(curproc) = s.(curproc) ∧ s'.(as_dropped) = s.(as_dropped) + 1 ∧
         books s.(vf) 0 none none s'.(vf).
Proof.
  intros Hwf Ha Hn Hv Hlen Hi Ht Hf. destruct (entry_tests s i _ Hwf Hi Ht) as (E1 & E2 & E3 & E4 & E5 & E6).
  unfold sys_read. rewrite (bind_Ret _ _ _ _ _ (good_pointer_ret _ _ _ Ha Hn Hv)). cbn [negb].
  rewrite E1, E2, E3, E4, E5, E6. cbn [orb]. autorewrite with kernel. rewrite Ht. mrun.
  cbv beta iota zeta. rewrite Hf. mrun. destruct (has_flag _ _); [done|].
  destruct (access_ret vop_read (Uio [Iovec buf len] f.(offset) len UIO_USERSPACE UIO_READ CurSpace) p f s law_read Hwf Hf)
    as (e & u' & w & H & Hb & He & Hres); [simpl; lia|]. simpl in Hres.
  mrun. mrun. rewrite (bind_Ret _ _ _ _ _ (H _)).
  rewrite (proj2 (Z.ltb_ge _ _)) by lia. do 2 eexists. split; [reflexivity|]. simpl. split; [|done].
  unfold s32, INT_MAX in *. lia.
Qed.

(** The descriptor after [n] bytes have been written. *)
Definition moved_on (f : fd) (n : Z) : fd :=
  Fd f.(file_flag) f.(filename) f.(file) (f.(offset) + n) f.(fd_lock) (u32 (f.(buflen) + n)).

Lemma sys_write_ret raw_off raw_vn buf len a (i p : nat) f s :
  fsys_wf s → s.(curproc).(p_addrspace) = Some a → buf ≠ 0 → valid_address_check a buf = true →
  0 ≤ len ≤ INT_MAX → (3 ≤ i)%nat → s.(curproc).(fd_table) !! i = Some (Some p) → s.(fds) !! p = Some f →
  f.(file_flag) mod 4 ≠ 3 →
  if f.(file_flag) mod 4 =? O_RDONLY then sys_write raw_off raw_vn (Z.of_nat i) buf len s = fail EBADF s
  else ∃ r s', ⟨ sys_write raw_off raw_vn (Z.of_nat i) buf len , s ⟩ ⇓ ⟨ r , s' ⟩ ∧
         s'.(curproc) = s.(curproc) ∧ s'.(as_dropped) = s.(as_dropped) + 1 ∧ books s.(vf) 0 none none s'.(vf) ∧
         (r = len ∧ s'.(fds) = <[p := moved_on f len]> s.(fds) ∨
          r = -1 ∧ s'.(f_errno) = ENOSPC ∧ s'.(fds) = s.(fds)).
Proof.
  intros Hwf Ha Hn Hv Hlen Hi Ht Hf Hm. destruct (entry_tests s i _ Hwf Hi Ht) as (E1 & E2 & E3 & E4 & _).
  unfold sys_write. rewrite (bind_Ret _ _ _ _ _ (good_pointer_ret _ _ _ Ha Hn Hv)). cbn [negb].
  rewrite E1, E2, E3, E4. cbn [orb]. cbv zeta. autorewrite with kernel. rewrite Ht. mrun.
  cbv beta iota. rewrite Hf. mrun. rewrite access_mode.
  destruct (Z.eqb_spec (f.(file_flag) mod 4) O_RDONLY) as [->|Hro]; [done|].
  assert ((f.(file_flag) mod 4 =? O_WRONLY) || (f.(file_flag) mod 4 =? O_RDWR) = true) as ->.
  { unfold O_RDONLY, O_WRONLY, O_RDWR in *. destruct (Z.eqb_spec (f.(file_flag) mod 4) 1); [done|]. simpl. apply Z.eqb_eq. lia. }
  destruct (access_ret vop_write (Uio [Iovec buf len] f.(offset) len UIO_USERSPACE UIO_WRITE CurSpace) p f s law_write Hwf Hf)
    as (e & u' & w & H & Hb & He & Hres); [simpl; lia|]. simpl in Hres.
  mrun. rewrite (bind_Ret _ _ _ _ _ (H _)). simpl.
  destruct (Z.eqb_spec u'.(uio_resid) 0) as [->|Hr]; simpl.
  + do 2 eexists. split; [reflexivity|]. simpl. split_and!; try done. left.
    rewrite Z.sub_0_r, u32_small by (unfold W32, INT_MAX in *; lia). split; [unfold s32, INT_MAX in *; lia|done].
  + do 2 eexists. split; [reflexivity|]. simpl. split_and!; try done. by right.
Qed.

(** Reading and writing through a descriptor of the table.  A read returns
    the number of bytes transferred, between 0 and the length asked for, also
    when the file system reports an error (its error numbers are positive, and
    the code looks for negative ones); it leaves the descriptor as it was, so
    the next read starts at the same offset.  A complete write returns its
    length and moves the offset by it; a partial one is reported as ENOSPC and
    leaves the offset.  A descriptor of the wrong mode gives EBADF.  Each
    transfer leaves one address space behind. *)
Theorem transfer_offsets (raw_tmp raw_vn : option nat) (raw_off buf len : Z) (a : addrspace) (i p : nat) (f : fd) (s : fsys W) :
  fsys_wf s → s.(curproc).(p_addrspace) = Some a → buf ≠ 0 → valid_address_check a buf = true →
  0 ≤ len ≤ INT_MAX → (3 ≤ i)%nat → s.(curproc).(fd_table) !! i = Some (Some p) → s.(fds) !! p = Some f →
  f.(file_flag) mod 4 ≠ 3 →
  (if has_flag f.(file_flag) O_WRONLY
   then sys_read raw_tmp raw_vn (Z.of_nat i) buf len s = fail EBADF s
   else ∃ r s', ⟨ sys_read raw_tmp raw_vn (Z.of_nat i) buf len , s ⟩ ⇓ ⟨ r , s' ⟩ ∧ 0 ≤ r ≤ len ∧
          s'.(fds) = s.(fds) ∧ s'.(curproc) = s.(curproc) ∧ s'.(as_dropped) = s.(as_dropped) + 1 ∧
          books s.(vf) 0 none none s'.(vf)) ∧
  (if f.(file_flag) mod 4 =? O_RDONLY
   then sys_write raw_off raw_vn (Z.of_nat i) buf len s = fail EBADF s
   else ∃ r s', ⟨ sys_write raw_off raw_vn (Z.of_nat i) buf len , s ⟩ ⇓ ⟨ r , s' ⟩ ∧
          s'.(curproc) = s.(curproc) ∧ s'.(as_dropped) = s.(as_dropped) + 1 ∧ books s.(vf) 0 none none s'.(vf) ∧
          (r = len ∧ s'.(fds) = <[p := moved_on f len]> s.(fds) ∨
           r = -1 ∧ s'.(f_errno) = ENOSPC ∧ s'.(fds) = s.(fds))).
Proof. intros. split; [by eapply sys_read_ret|by eapply sys_write_ret]. Qed.
End transfers.

(** ** Descriptors shared by a fork *)

Section sharing.
Context {W : Type} `{!FsOps W} `{!FsLaws W} `{!IoOps W}.

(** A descriptor closed on one side of a fork: parent and child share their
    descriptors, and closing one frees it, so after the child has closed entry
    [i] the parent's entry [i] points to a freed block: its next read or close
    of that entry is an access to freed memory. *)
Theorem close_after_fork_dangles (raw parent child : proc) (tf tf' : trapframe) (pid : Z) (pt pt' : ptab)
    (raw_tmp raw_vn : option nat) (a : addrspace) (buf len : Z) (i p : nat) (s : fsys W) :
  ⟨ sys_fork all_alloc raw parent tf , pt ⟩ ⇓ ⟨ (pid, Some (child, tf')) , pt' ⟩ →
  fsys_wf s → s.(curproc) = parent → (3 ≤ i)%nat → parent.(fd_table) !! i = Some (Some p) →
  parent.(p_addrspace) = Some a → buf ≠ 0 → valid_address_check a buf = true →
  ∃ s', ⟨ sys_close (Z.of_nat i) , (set_proc child s) ⟩ ⇓ ⟨ 0 , s' ⟩ ∧
    sys_read raw_tmp raw_vn (Z.of_nat i) buf len (set_proc parent s') = Fault ∧
    sys_close (Z.of_nat i) (set_proc parent s') = Fault.
Proof.
  intros Hfork Hwf Hcur Hi Ht Ha Hn Hv.
  assert (child.(fd_table) = parent.(fd_table)) as Htab.
  { revert Hfork. unfold sys_fork. rewrite get_bind. destruct (_ =? _); [done|]. by intros [= _ <- _ _]. }
  assert (fsys_wf (set_proc child s)) as Hwf'.
  { subst parent. destruct Hwf as [F1 F2 F3 F4 F5 F6]. split; simpl; try done; by rewrite Htab. }
  pose proof Ht as Ht'. rewrite <- Htab in Ht'. destruct (fw_live _ Hwf' i p Ht') as [f Hf].
  destruct (sys_close_ret i p f (set_proc child s) Hwf' Ht' Hf) as (w & Hc & _).
  eexists. split; [exact Hc|]. rewrite <- Hcur in Ht. destruct (entry_tests s i _ Hwf Hi Ht) as (E1 & E2 & E3 & E4 & E5 & E6).
  rewrite Hcur in Ht. set (s1 := set_proc parent _).
  assert (s1.(fds) !! p = None) as Hgone by (simpl; apply lookup_delete_eq).
  assert (s1.(curproc) = parent) as Hp by done. split.
  - unfold sys_read. rewrite (bind_Ret _ _ _ _ _ (good_pointer_ret buf a s1 Ha Hn Hv)). cbn [negb].
    rewrite E1, E2, E3, E4, E5, E6. cbn [orb]. autorewrite with kernel. rewrite Hp, Ht. mrun.
    cbv beta iota zeta. by rewrite Hgone.
  - unfold sys_close. rewrite E1, E2. cbn [orb]. autorewrite with kernel. rewrite Hp, Ht. mrun.
    cbv beta iota. by rewrite Hgone.
Qed.
End sharing.

(** ** Examples, on the file system in memory

    Every user string is a one-letter name, that of vnode 2; reading gives up to
    3 bytes, writing takes everything. *)

#[export] Instance memio : IoOps unit := {
  string_at _ _ := [102];
  vop_read _ u := mret (0, Uio u.(uio_iov) u.(uio_offset) (u.(uio_resid) - Z.min 3 u.(uio_resid)) u.(uio_segflg) u.(uio_rw) u.(uio_space));
  vop_write _ u := mret (0, Uio u.(uio_iov) u.(uio_offset) 0 u.(uio_segflg) u.(uio_rw) u.(uio_space));
}.

#[export] Instance memio_laws : IoLaws unit.
Proof. split; intros v u s Hwf Hr Hu; (split; [apply books_refl|]); simpl; lia. Qed.

Lemma memfs_lookup u :
  vfs_wf u → u.(curdir) = Some 0%nat → wp (vfs_lookup [102]) (λ r s', r = inr 2%nat ∧ books u 0 (one 2) none s') u.
Proof.
  intros Hwf Hd. unfold vfs_lookup. pose proof (wf_lock _ Hwf) as Hl.
  apply wp_bind. eapply acquire_books; [apply books_refl|]. intros s1 Hb1. assert (vfs_wf s1) as Hwf1 by vfs_side.
  apply wp_bind. unfold getdevice, vfs_biglock_do_i_hold. pose proof (bk_lock _ _ _ _ _ Hb1) as Hl1.
  apply wp_gets, wp_kassert; [apply Z.gtb_lt; lia|]. simpl find_sep. cbn [andb negb Z.ltb Z.eqb Z.compare].
  apply wp_bind. unfold vfs_getcurdir. apply wp_get. rewrite (bk_curdir _ _ _ _ _ Hb1), Hd.
  assert (0 < refs s1 0%nat) as Hr0.
  { apply held_live; [done|]. unfold held. rewrite (bk_curdir _ _ _ _ _ Hb1), Hd. simpl. rewrite one_self.
    pose proof (own_nonneg s1.(bootfs_vnode) 0). pose proof (devs_own_nonneg s1.(knowndevs) 0). lia. }
  apply wp_bind. eapply incref_books; [done|exact Hb1|done|]. intros s2 Hb2. do 2 apply wp_ret. simpl.
  assert (vfs_wf s2) as Hwf2 by vfs_side. assert (0 < refs s2 0%nat) by vfs_side.
  apply wp_bind, wp_vop; [done|done|]. apply wp_bind. eapply (op_books _ (λ _, one 2) u 1); [by apply hand_books|exact Hb2|].
  intros _ s3 Hb3. apply wp_ret. assert (vfs_wf s3) as Hwf3 by vfs_side.
  apply wp_bind. eapply decref_books; [done|exact Hb3|vfs_side|]. intros s4 Hb4.
  apply wp_bind. eapply release_books; [exact Hb4|lia|]. intros s5 Hb5. apply wp_ret. split; [done|]. vfs_done.
Qed.

Lemma memfs_open u :
  vfs_wf u → u.(curdir) = Some 0%nat → ∃ w, vfs_open [102] O_RDWR 0 u = Ret (inr 2%nat) w.
Proof.
  intros Hwf Hd. enough (wp (vfs_open [102] O_RDWR 0) (λ r _, r = inr 2%nat) u) as H.
  { apply wp_inv in H as (r & w & H & ->). by exists w. }
  unfold vfs_open. change (Z.land O_RDWR O_ACCMODE) with 2. change (has_flag O_RDWR O_CREAT) with false.
  change (has_flag O_RDWR O_TRUNC) with false. cbn [orb Z.eqb O_RDONLY O_WRONLY O_RDWR Pos.eqb].
  apply wp_bind. eapply wp_mono; [|by apply memfs_lookup]. intros r s1 [-> Hb1].
  assert (vfs_wf s1) by (eapply books_wf_up; [exact Hwf|exact Hb1|done|auto with vfs]).
  assert (0 < refs s1 2%nat) by (eapply live_books; [exact Hwf|exact Hb1|by rewrite one_self]).
  apply wp_bind, wp_vop; [done|done|]. apply wp_ret. cbn [Z.eqb negb].
  apply wp_bind. eapply incopen_books; [done|apply books_refl|done|]. intros s2 _. by apply wp_ret.
Qed.

Definition example_table : list (option nat) := replicate 3 None ++ Some 0%nat :: replicate 60 None.
Definition example_space : addrspace := set_region1 0x400000 4 7 None raw_addrspace.
Definition example_caller : proc := Proc 0 0 2 None (Some example_space) example_table 1.
Definition example_fd : fd := Fd O_RDWR 0x400000 2 7 true 0.
Definition example_files : vfs unit := set_vnodes (<[2%nat:=Vnode 1 1 (Some 0%nat)]> example_vfs.(vnodes)) example_vfs.
Definition example_fsys : fsys unit := Fsys example_caller {[ 0%nat := example_fd ]} 1 0 0 example_files.

Lemma example_files_wf : vfs_wf example_files.
Proof.
  assert (∀ x, x ≠ 2%nat → refs example_files x = refs example_vfs x ∧ opens example_files x = opens example_vfs x) as Hx.
  { intros x Hx. unfold refs, count, opens. simpl. by rewrite (lookup_insert_ne _ 2%nat x) by done. }
  pose proof example_vfs_wf as [V1 V2 V3 V4 V5]. split.
  - intros x. destruct (decide (x = 2%nat)) as [-> |]; [done|]. destruct (Hx x) as [_ ->]; [done|]. apply V1.
  - intros x. destruct (decide (x = 2%nat)) as [-> |]; [done|]. destruct (Hx x) as [-> ->]; [done|]. apply V2.
  - done.
  - done.
  - intros d [= <-]. by exists 0%nat.
Qed.

Lemma example_entry (i p : nat) : example_table !! i = Some (Some p) → i = 3%nat ∧ p = 0%nat.
Proof.
  destruct i as [|[|[|[|i]]]]; [done|done|done|by intros [= <-]|].
  change (replicate 60 (@None nat) !! i = Some (Some p) → S (S (S (S i))) = 3%nat ∧ p = 0%nat).
  by intros [? _]%lookup_replicate.
Qed.

Lemma example_fsys_wf : fsys_wf example_fsys.
Proof.
  split.
  - reflexivity.
  - intros i p [-> ->]%example_entry. by exists example_fd.
  - by intros i j p [-> _]%example_entry [-> _]%example_entry.
  - intros p f Hp. simpl in Hp. apply lookup_singleton_Some in Hp as [<- _]. simpl. lia.
  - intros v. change (fds example_fsys) with (<[0%nat:=example_fd]> (∅ : gmap nat fd)).
    rewrite nopen_insert by apply lookup_empty. simpl. change (nopen ∅ v) with 0.
    unfold one, opens. simpl. destruct (Nat.eqb_spec v 2) as [-> |]; [done|].
    rewrite (lookup_insert_ne _ 2%nat v) by done. pose proof (wf_opens _ example_vfs_wf v) as H. exact H.
  - apply example_files_wf.
Qed.


Lemma open_close_cycles_witness :
  ∃ s', cycles 63 None 0x400000 O_RDWR 0 example_fsys = Ret tt s' ∧
    ∃ s'', ⟨ sys_open true true None 0x400000 O_RDWR 0 , s' ⟩ ⇓ ⟨ -1 , s'' ⟩ ∧ s''.(f_errno) = EMFILE.
Proof.
  destruct (open_close_cycles None 0x400000 O_RDWR 0 example_space example_fsys)
    as (s' & H & _ & _ & _ & s'' & H1 & H2 & _);
    [apply example_fsys_wf|reflexivity|discriminate|reflexivity|by repeat split|reflexivity|by right; left|by split| |].
  - intros u Hu. destruct (memfs_open u) as [w Hw].
    + eapply books_wf_up; [apply example_files_wf|exact Hu|done|done].
    + by rewrite (bk_curdir _ _ _ _ _ Hu).
    + exists 2%nat, w. exact Hw.
  - exists s'. split; [exact H|]. exists s''. split; [exact H1|exact H2].
Defined.

Lemma transfer_offsets_witness :
  ∃ r s', sys_read None None 3 0x400010 100 example_fsys = Ret r s' ∧ 0 ≤ r ≤ 100 ∧ s'.(fds) = example_fsys.(fds).
Proof.
  destruct (transfer_offsets None None 0 0x400010 100 example_space 3 0 example_fd example_fsys) as [H _];
    [apply example_fsys_wf|reflexivity|discriminate|reflexivity|by split|lia|reflexivity|reflexivity|discriminate|].
  destruct H as (r & s' & H & Hr & Hf & _). exists r, s'. split; [exact H|]. split; [exact Hr|exact Hf].
Defined.

Lemma close_after_fork_dangles_witness :
  ∃ child pid pt', sys_fork all_alloc (example_proc 9 99) example_caller example_tf example_ptab =
      Ret (pid, Some (child, example_tf)) pt' ∧
    ∃ s', ⟨ sys_close 3 , (set_proc child example_fsys) ⟩ ⇓ ⟨ 0 , s' ⟩ ∧
      sys_read None None 3 0x400010 100 (set_proc example_caller s') = Fault.
Proof.
  assert (∃ child pid pt', sys_fork all_alloc (example_proc 9 99) example_caller example_tf example_ptab =
    Ret (pid, Some (child, example_tf)) pt') as (child & pid & pt' & Hf) by (do 3 eexists; vm_compute; reflexivity).
  exists child, pid, pt'. split; [exact Hf|].
  destruct (close_after_fork_dangles _ _ _ _ _ _ _ _ None None example_space 0x400010 100 3 0 example_fsys Hf)
    as (s' & H1 & H2 & _);
    [apply example_fsys_wf|reflexivity|lia|reflexivity|reflexivity|discriminate|reflexivity|].
  exists s'. split; [exact H1|exact H2].
Defined.
